(* ===== verification/_CoqProject ===== *)
-Q . S2P
Prelude.v
K8s.v
NodeUtil.v
Upgrade.v
Promote.v
ResourceQuota.v
Migration.v
Addon.v
CpuManager.v
NodeWebhook.v
AddonWebhook.v
ApiServer.v
Maintenance.v
NodeDrain.v
NodeActions.v
NodeDown.v
VolumeDetach.v
UpgradeJobs.v
UpgradeWorld.v
UpgradeNodes.v
UpgradeVersion.v
UpgradeRepo.v
UpgradeController.v
UpgradeSteps.v
UpgradeRegime.v
UpgradeFlow.v
UpgradeSafety.v
UpgradeCleanup.v
UpgradeProgress.v
BackupTypes.v
Calendar.v
ScheduleBackup.v
ScheduleSafety.v
ScheduleProgress.v
ScheduleWebhook.v
UpgradeWebhook.v
UpgradeAdmission.v
