(* ===== verification/Prelude.v ===== *)
(** * Harvester: a Rocq model of its controllers and admission webhooks

    Harvester runs virtual machines on Kubernetes.  Its own logic is a set of
    controllers, each a handler that is called with an object that changed and writes
    other objects through the API server, a set of admission webhooks, which admit or
    refuse changes before they are stored, and the actions of its own API.  This
    development models, from the Go sources, the parts listed below and proves what makes
    them correct.

    ** Files, in dependency order

    - [Prelude] (this file): Go's errors and outcomes ([outcome]: a value, an error or a
      panic), the handler monad [M S A] (state passing; an error or panic keeps the writes
      made before it), Go maps ([gomap], nil or a finite map), string functions and sorted
      strings, the JSON interface [JsonCodec], reachability and invariants ([reachable]),
      effects of handlers ([effect]), inversion of successful runs ([run_inv]), the hint
      databases [harv] and [gomap] and the tactics the other files use.
    - [K8s]: quantities and resource lists, metadata, conditions (module [Cond], the
      accessors of wrangler's condition package), nodes, taints, jobs and pod templates,
      and [NamespacedName] of pkg/util/meta.go.
    - [NodeUtil]: pkg/util/node.go, the condition helpers of pkg/util/maintain.go, the drain
      intent of pkg/util/drainhelper/intent.go.
    - [Upgrade]: the Upgrade resource, its states, conditions and results
      (pkg/apis/harvesterhci.io/v1beta1/upgrade.go, pkg/util/upgrade.go, and the part of
      pkg/controller/master/upgrade/common.go that records results).
    - [Promote]: pkg/controller/master/node/promote_controller.go, which turns workers into
      management nodes.  State [World]: nodes, jobs, events and the retry queue.
    - [ResourceQuota]: pkg/util/resourcequota (calculator.go, utils.go, error.go) and the
      keys of pkg/util/annotationkey.go: quota arithmetic, the record of migrating VMs in
      annotations, and the checks made before a VM starts or grows.
    - [Migration]: pkg/controller/master/migration (vmim_controller.go, vmi_controller.go)
      and pkg/controller/master/resourcequota: while a VM migrates, its namespace's quota is
      raised by what the second pod needs.  State [MWorld]: VMs, instances and quotas.
    - [Addon]: pkg/controller/master/addon: an addon becomes a helm chart that is installed,
      upgraded and removed.  State [AWorld]: addons, charts, jobs, apps, volumes, queue.
    - [CpuManager]: pkg/controller/master/node/cpu_manager_controller.go: a requested CPU
      manager policy becomes a job on the node.  State [CWorld]: nodes and jobs.
    - [NodeWebhook]: pkg/webhook/resources/node/validator.go, over the same [CWorld].
    - [AddonWebhook]: pkg/webhook/resources/addon/validator.go and
      pkg/util/logging/logging.go, over the addons of [Addon].
    - [ApiServer]: the API server under concurrency: stores whose objects carry resource
      versions, writes refused with a conflict, calls that other clients' steps and failures
      may precede ([Turn], [Sys], [call]), rely/guarantee ([relies], [within]), the
      calculus of single commits ([commits]), rules for handlers that keep to what a regime
      allows ([Regime], [obeys]); client-go's RetryOnConflict.
    - [Maintenance]: the retried updates and VM restarts of pkg/util/maintain.go, the
      controller maintain_controller.go, the phases of maintenance mode and who may move a
      node from one to the next ([moves], [evolves]).  State [World]: nodes, VMs, caches,
      clock and queue; it is the state of the next three files too.
    - [NodeDrain]: pkg/controller/master/nodedrain and DrainPossible and the pod filter of
      pkg/util/drainhelper/helper.go: a request is validated, VMs are shut down, the node is
      drained before a deadline.
    - [NodeActions]: pkg/api/node/formatter.go: which actions a node offers, and the
      actions.
    - [NodeDown]: node_down_controller.go and condition_annotations.go of
      pkg/controller/master/node, and the policy of pkg/settings/settings_helper.go: a
      silent node is drained, then taken out of service, and cleaned up when it is back.
    - [VolumeDetach]: node_volume_detach_controller.go and node_remove_controller.go, with
      the cache indexes of pkg/indexeres/indexer.go they use.
    - [UpgradeJobs]: the plans and jobs an upgrade is made of (the rest of common.go).
    - [UpgradeWorld]: what the controllers of an upgrade share.  State [World]: upgrades,
      nodes, secrets and addons with versions, jobs, everything only the handler of the
      upgrade touches ([Infra]: plans, images, deployments, services, Rancher's cluster,
      Longhorn settings, logs, charts, versions, the web server), and stale caches.
    - [UpgradeNodes]: the handlers of pkg/controller/master/upgrade that carry an upgrade
      through its nodes (secret, job, node, plan, deployment, image and addon controllers).
    - [UpgradeVersion]: pkg/upgradehelper/versionguard, the versions of harvester/go-common,
      and the checks of versions, flavors and registries in upgrade_controller.go.
    - [UpgradeRepo]: upgrade_repo.go, the repository an upgrade installs from.
    - [UpgradeController]: the rest of upgrade_controller.go: the handler of the Upgrade
      resource, phase by phase, and its clean-up.
    - [UpgradeSteps]: the abstract state machine of an upgrade ([step]: node states, phase
      conditions, state label) and its invariants.
    - [UpgradeRegime], [UpgradeFlow]: the handlers of [UpgradeNodes] and [UpgradeController]
      against that state machine, under any interference ([obeys]).
    - [UpgradeSafety]: runs of all handlers, and what holds in every world they lead to.
    - [UpgradeCleanup]: what an upgrade changes for its own sake and gives back.
    - [UpgradeProgress]: the way of a node through an upgrade.
    - [BackupTypes]: VM backups and their schedules as resources
      (pkg/apis/harvesterhci.io/v1beta1/backup.go, schedulebackup.go) and the reader of
      pkg/backup/common/operator.go.
    - [Calendar]: Go's time stamps to the minute (layout 20060102.1504), written and read.
    - [ScheduleBackup]: pkg/controller/master/schedulevmbackup: the handlers of schedules,
      their cron jobs, backups and Longhorn backups, with ResolveSVMBackupRef and
      SplitNamespacedName of pkg/util.  State [SWorld]: schedules, cron jobs and backups with
      versions, Longhorn backups, snapshots, clock and queue.
    - [ScheduleSafety]: what these handlers keep in every run ([astep]: what they and the
      others may do; [orderly]: the invariant).
    - [ScheduleProgress]: retention and resumption without interference, and what the
      handlers do not count or report.
    - [ScheduleWebhook]: pkg/webhook/resources/schedulevmbackup/validator.go with
      pkg/util/svmbackup.go, the backup target of pkg/settings and pkg/util/backup.
    - [UpgradeWebhook]: pkg/webhook/resources/upgrade (validator.go, mutator.go) with what it
      calls of pkg/util (certs.go, endpoint.go, setting.go, addon, virtualmachineinstance)
      and of pkg/webhook/indexeres.  The environment [UEnv] holds the answers of the caches,
      of kubelets and of API servers.
    - [UpgradeAdmission]: which upgrades are admitted, paused and deleted.

    One definition models one Go function and keeps its name; loops are Fixpoints over
    the list they range over, so every definition terminates and runs, and no fuel is
    used anywhere: the loops that are bounded by a count are bounded by the one in the code
    (five steps of retry.DefaultRetry, thirty requests to the repository, two updates of a
    rebooted node).  Component state is a record of API objects; an environment
    record holds what is outside (verdicts of the API server for each call, answers of
    caches, the clock, encoders, name generators), and every theorem quantifies over it
    or states which calls succeed.

    ** What is proved

    - Safety over all interleavings, with API failures, stale objects and outside changes of
      the kind each theorem names: [Migration.quota_conservation] (no quota is lost or leaked,
      also when Rancher resets its limits or the namespace asks for others),
      [Promote.one_promotion_at_a_time] and [CpuManager.one_cpu_job_per_node] (with caches
      that lag behind, but show the one thing the handler has to see),
      [NodeWebhook.schedulable_node_kept], [NodeWebhook.one_master_at_a_time] (webhook and
      controller together, when requests wait for each other),
      [AddonWebhook.one_addon_per_chart],
      [NodeActions.handlers_keep_lifecycle] (each handler moves its node along its own moves
      of the maintenance life cycle only, whatever the others do),
      [NodeDrain.one_control_plane_in_maintenance], [NodeDown.out_of_service_justified],
      [NodeDown.node_down_keeps_maintenance] (two controllers that write the same status do
      not undo each other's work), [UpgradeSafety.one_node_at_a_time] and
      [UpgradeSafety.phases_in_order] for every handler of an upgrade together, and
      [ScheduleSafety.scheduled_backups_safe] (one backup of a schedule at a time, no more
      failures in a row than it tolerates, never the loss of its last usable backup),
      [ScheduleWebhook.schedules_admitted], and
      [UpgradeAdmission.no_deletion_during_drain] for these handlers and the webhook: the
      one condition the webhook looks at tells what it has to, because the handlers keep the
      invariant [UpgradeSteps.held] (upgrades with skipWebhook and of single nodes apart).
    - State machines and refinement: [Addon.addon_state_machine] and the three lifecycles of
      an addon; [Migration.handlers_refine_ledger], where the handlers implement an abstract
      ledger against which conservation is proved;
      [Maintenance.TransitionMaintenanceModeCondition_once], where a retried
      read-check-write implements one atomic guarded step;
      [UpgradeSafety.handlers_follow_state_machine], where the nine handlers of an upgrade
      implement the state machine of [UpgradeSteps].
    - Progress, without failing calls: [NodeDrain.maintenance_completes] (instances that can
      move and replicas elsewhere included), [NodeDown.node_down_completes],
      [NodeDown.recovery_completes], [UpgradeProgress.node_upgrade_progress],
      [ScheduleProgress.resume_completes], [ScheduleProgress.retention_exact] (which backups
      go, and which stay), and the bound and result of the conflict retry,
      [ApiServer.RetryOnConflict_attempts].
    - Eligibility and round trips of upgrades: [UpgradeVersion.eligible_upgrade_sound],
      [UpgradeCleanup.replica_interval_roundtrip], [UpgradeCleanup.update_methods_roundtrip];
      of machines stopped for a drain: [NodeDrain.vm_maintenance_roundtrip].
    - Admission of upgrades: [UpgradeAdmission.upgrade_admission_exact] (the webhook admits
      exactly the upgrades of a cluster that is fit for them, [fit]),
      [UpgradeAdmission.manual_mode_pauses_exactly] (from the setting over mutator, JSON
      patch and validator to the controller that pauses the node) and
      [UpgradeAdmission.node_machine_matching].
    - Functional behaviour, on success and on every refusal: choice of the node to promote,
      job results, quota checks and reconciliation, admission of requests, joins, and
      enabling or disabling of addons, restart of VMs, last replicas, volumes to wait for
      (exact characterisations); passes over a silent node against a reference decision
      ([NodeDown.silent_pass_exact]); offered actions against accepted ones
      ([NodeActions.offered_actions_accepted]), together with what the node webhook says to
      them; reconciling a quota ([Migration.reconcile_exact]); bounds of the drain deadline.
    - Behaviour the code has and likely does not mean to have, each as a theorem: stranded
      promotions and maintenance requests, compensation that overwrites itself, nil
      dereferences, two masters updated at once, an addon enabled while Disabling that is
      ignored, a stale validation, a migration grace that is lost, an acknowledgement of a
      drain that is never made up for, a clean-up that never starts, is skipped, or has lost
      what to restore, a webhook that crashes when no API server can be reached, what late
      caches lead to ([Promote.late_list_promotes_two], [CpuManager.late_job_cache_two_jobs]),
      requests that take all nodes ([NodeWebhook.two_requests_take_all]), a migration that
      starts again when maintenance is disabled ([NodeDown.disabling_restarts_migration]),
      failed backups that are not counted ([ScheduleProgress.early_failures_unbounded]) and
      deletions whose failure is not reported, and a spacing check whose verdict depends on
      the time of day ([ScheduleWebhook.ScheduleWebhookExamples.spacing_depends_on_clock]).

    ** Modelling decisions

    - Quantities are exact integers in units of 10^-9 ([Format] is dropped); counts are
      unbounded integers, as the code never gets near the width of int.  Durations are kept
      at 64 bits where a setting can overflow them ([int64], [timeSub]).  Stored times are
      seconds, the clock of [Maintenance.World] has nanoseconds; in the other components the
      several calls of time.Now in one handler are one clock value.
    - Caches are separate from the state and may be stale in [Maintenance.World] and
      [UpgradeWorld.World]; they are views of the state given by the environment, so that
      they may show anything, for the nodes of [Promote] and the nodes and jobs of
      [CpuManager].  In the other components they answer from the state the handler writes:
      the listings of backups, quotas, addons and of the webhooks are taken to be up to date,
      and a write from an older version is among the failures.  Handlers are run on
      arbitrary objects where staleness matters, not only on those of the state.
    - The conflict retry is client-go's, with its treatment of errors of a context
      ([Interrupted]).
    - In the files from [ApiServer] on, any number of steps of other clients may come before
      each call and each call may fail; the theorems say what the others must keep to.
      Node and VM updates keep the stored status, status updates the rest, and both are
      refused when the resource version is not the stored one.
    - Objects are values, so DeepCopy is the identity; the code copies before it writes.
    - Error texts are kept where a client or test could look at them and shortened
      elsewhere; log output is dropped.  The object a handler returns beside an error is
      dropped, since the caller ignores it.
    - Libraries outside the repository's own code (KubeVirt's memory overhead, quantity
      parsing, JSON, helm, name shortening, label validation, node affinity, the kubectl
      drain, map iteration order, cron expressions, backup stores) are parameters with the documented behaviour the proofs
      need, and each hypothesis of that kind is met in a witness.

    ** Not modelled

    Backups and restores themselves: they rely throughout on Longhorn and the CSI
    snapshotter, whose behaviour is not in the repository; of backups only the states the
    schedules look at are modelled.  The VM controllers and mutators, the remaining
    webhooks, images, storage networks and settings, upgrade logs: not reached; they share no
    state with the components above except through objects that are read here.  HTTP
    rendering of the API handlers, installer, data bootstrap and wiring: I/O.  Generated
    clients and vendored code: not the program's own logic (but for the conflict retry,
    version comparison, the removal of finalizers and JSON pointers). *)

From stdpp Require Export base gmap strings list fin_maps option decidable.
From stdpp Require Export pretty sorting.
From Stdlib Require Import Ascii.
From Stdlib Require Export ZArith Lia.

#[export] Set Default Goal Selector "!".
#[export] Set Warnings "-clear-no-such-hyp".

Create HintDb harv.

(** ** Go errors, and what a Go call can end in *)

(** The errors the modelled code makes or inspects.  API errors carry the
    reason [apierrors.IsNotFound] and [apierrors.IsConflict] look at; the four
    admission errors are those of [pkg/webhook/error/error.go]. *)
Inductive goerror : Type :=
| ApiNotFound (msg : string)
| ApiConflict (msg : string)
| ApiAlreadyExists (msg : string)
| ApiOther (msg : string)
| AdmitBadRequest (msg : string)
| AdmitConflict (msg : string)
| AdmitInternal (msg : string)
| AdmitInvalid (msg : string)
| ErrText (msg : string)
| ErrContext (msg : string)
| ErrWrap (msg : string) (inner : goerror).

(** [apierrors.IsNotFound] unwraps the errors made with %w. *)
Fixpoint IsNotFound (e : goerror) : bool :=
  match e with
  | ApiNotFound _ => true
  | ErrWrap _ e' => IsNotFound e'
  | _ => false
  end.

(** [apierrors.IsConflict], likewise. *)
Fixpoint IsConflict (e : goerror) : bool :=
  match e with
  | ApiConflict _ => true
  | ErrWrap _ e' => IsConflict e'
  | _ => false
  end.

(** [wait.Interrupted]: errors of a context (canceled, deadline exceeded), likewise. *)
Fixpoint Interrupted (e : goerror) : bool :=
  match e with
  | ErrContext _ => true
  | ErrWrap _ e' => Interrupted e'
  | _ => false
  end.

(** [apierrors.IsAlreadyExists], likewise. *)
Fixpoint IsAlreadyExists (e : goerror) : bool :=
  match e with
  | ApiAlreadyExists _ => true
  | ErrWrap _ e' => IsAlreadyExists e'
  | _ => false
  end.

(** A call returns a value, returns an error, or panics (write to a nil map,
    nil pointer dereference). *)
Inductive outcome (A : Type) : Type :=
| Ok (a : A)
| Err (e : goerror)
| Panic.
Arguments Ok {A} a.
Arguments Err {A} e.
Arguments Panic {A}.

#[export] Instance goerror_eq : EqDecision goerror.
Proof. solve_decision. Defined.
#[export] Instance outcome_eq A `{!EqDecision A} : EqDecision (outcome A).
Proof. solve_decision. Defined.

#[export] Instance outcome_ret : MRet outcome := fun A a => Ok a.
#[export] Instance outcome_bind : MBind outcome := fun A B f m =>
  match m with
  | Ok a => f a
  | Err e => Err e
  | Panic => Panic
  end.

(** A step of a handler: it reads and writes the state [S] of its component
    (the API objects it touches) and ends in an outcome.  An error or a panic
    keeps the writes made before it, as in the code. *)
Definition M (S A : Type) : Type := S -> outcome A * S.

#[export] Instance M_ret S : MRet (M S) := fun A a s => (Ok a, s).
#[export] Instance M_bind S : MBind (M S) := fun A B f m s =>
  match m s with
  | (Ok a, s') => f a s'
  | (Err e, s') => (Err e, s')
  | (Panic, s') => (Panic, s')
  end.

#[export] Instance M_fmap S : FMap (M S) := fun A B f m s =>
  match m s with
  | (Ok a, s') => (Ok (f a), s')
  | (Err e, s') => (Err e, s')
  | (Panic, s') => (Panic, s')
  end.

Definition gets {S A} (f : S -> A) : M S A := fun s => (Ok (f s), s).
Definition modify {S} (f : S -> S) : M S unit := fun s => (Ok tt, f s).
Definition throw {S A} (e : goerror) : M S A := fun s => (Err e, s).
Definition lift {S A} (o : outcome A) : M S A := fun s => (o, s).

(** [x, err := m] where the code goes on to look at [err]. *)
Definition try {S A} (m : M S A) : M S (A + goerror) := fun s =>
  match m s with
  | (Ok a, s') => (Ok (inl a), s')
  | (Err e, s') => (Ok (inr e), s')
  | (Panic, s') => (Panic, s')
  end.

(** [if err := m; err != nil { return wrap(err) }] *)
Definition mapErr {S A} (w : goerror -> goerror) (m : M S A) : M S A := fun s =>
  match m s with
  | (Err e, s') => (Err (w e), s')
  | r => r
  end.

(** An API call that writes: the server's verdict decides between an error,
    which leaves the state alone, and the write. *)
Definition apiWrite {S A} (verdict : option goerror) (f : S -> S) (a : A) : M S A :=
  fun s => match verdict with
           | Some e => (Err e, s)
           | None => (Ok a, f s)
           end.

(** ** Go maps with string keys: nil or a finite map *)

Abbreviation gomap V := (option (gmap string V)) (only parsing).

Section gomap.
Context {V : Type}.
Implicit Types (m : gomap V) (k : string) (v : V).

(** [v, ok := m[k]]; reading a nil map finds nothing. *)
Definition gm_get m k : option V :=
  match m with Some g => g !! k | None => None end.

(** [if m == nil { m = make(...) }; m[k] = v] *)
Definition gm_set m k v : gomap V :=
  match m with Some g => Some (<[k := v]> g) | None => Some (<[k := v]> ∅) end.

(** [m[k] = v] alone: a nil map panics. *)
Definition gm_store m k v : outcome (gomap V) :=
  match m with Some g => Ok (Some (<[k := v]> g)) | None => Panic end.

(** [delete(m, k)]; a no-op on a nil map. *)
Definition gm_delete m k : gomap V :=
  match m with Some g => Some (delete k g) | None => None end.

(** [len(m)] *)
Definition gm_len m : nat :=
  match m with Some g => size g | None => 0 end.

Definition gm_has m k : bool := bool_decide (is_Some (gm_get m k)).

Lemma gm_get_set m k k' v :
  gm_get (gm_set m k v) k' = if decide (k = k') then Some v else gm_get m k'.
Proof.
  destruct m as [g|]; simpl.
  - by rewrite lookup_insert.
  - rewrite lookup_insert. case_decide; [done|]. apply lookup_empty.
Qed.

Lemma gm_get_set_eq m k v : gm_get (gm_set m k v) k = Some v.
Proof. rewrite gm_get_set. by case_decide. Qed.

Lemma gm_get_set_ne m k k' v : k <> k' -> gm_get (gm_set m k v) k' = gm_get m k'.
Proof. intros. rewrite gm_get_set. by case_decide. Qed.

Lemma gm_get_delete m k k' :
  gm_get (gm_delete m k) k' = if decide (k = k') then None else gm_get m k'.
Proof. destruct m as [g|]; simpl; [apply lookup_delete|by case_decide]. Qed.

Lemma gm_get_delete_eq m k : gm_get (gm_delete m k) k = None.
Proof. rewrite gm_get_delete. by case_decide. Qed.

Lemma gm_get_delete_ne m k k' : k <> k' -> gm_get (gm_delete m k) k' = gm_get m k'.
Proof. intros. rewrite gm_get_delete. by case_decide. Qed.

Lemma gm_store_Ok m k v m' : gm_store m k v = Ok m' -> m' = gm_set m k v.
Proof. destruct m; simpl; congruence. Qed.

Lemma gm_store_set m k v : m <> None -> gm_store m k v = Ok (gm_set m k v).
Proof. by destruct m. Qed.

Lemma gm_delete_id m k : gm_get m k = None -> gm_delete m k = m.
Proof. destruct m as [g|]; simpl; [|done]. intros. by rewrite delete_id. Qed.

Lemma gm_len_delete m k :
  gm_len (gm_delete m k) = (gm_len m - if gm_has m k then 1 else 0)%nat.
Proof.
  unfold gm_has. destruct m as [g|]; simpl; [|done].
  rewrite map_size_delete. destruct (g !! k) as [x|]; case_bool_decide as H.
  - lia.
  - by destruct H.
  - by destruct H.
  - simpl. lia.
Qed.

Lemma gm_len_has m k : gm_has m k = true -> (0 < gm_len m)%nat.
Proof.
  unfold gm_has. intros H%bool_decide_eq_true. revert H. destruct m as [g|]; simpl.
  - intros [x Hx]. destruct (decide (size g = 0)) as [E|]; [|lia].
    apply map_size_empty_inv in E. subst. by rewrite lookup_empty in Hx.
  - by intros [??].
Qed.
End gomap.

(** [m[k]] on a [map[string]string]: the zero value when absent. *)
Definition gm_str (m : gomap string) (k : string) : string := default "" (gm_get m k).

Create Rewrite HintDb gomap.
#[export] Hint Rewrite @gm_get_set_eq @gm_get_delete_eq : gomap.
#[export] Hint Rewrite @gm_get_set_ne @gm_get_delete_ne using congruence : gomap.

(** The iteration order of a map. *)
Class MapOrder := {
  range : forall {V}, gmap string V -> list (string * V);
  range_perm : forall {V} (m : gmap string V), range m ≡ₚ map_to_list m }.

(** ** Small library of the language *)

(** [strings.HasPrefix] and [strings.TrimPrefix]. *)
Definition HasPrefix (s p : string) : bool := String.prefix p s.

Fixpoint str_drop (n : nat) (s : string) : string :=
  match n, s with
  | S n', String _ s' => str_drop n' s'
  | _, _ => s
  end.

Definition TrimPrefix (s p : string) : string :=
  if HasPrefix s p then str_drop (String.length p) s else s.

(** [strings.HasSuffix]. *)
Definition HasSuffix (s p : string) : bool :=
  Nat.leb (String.length p) (String.length s)
  && String.eqb (str_drop (String.length s - String.length p) s) p.

(** [strings.Contains]. *)
Definition Contains (s sub : string) : bool :=
  match String.index 0 sub s with Some _ => true | None => false end.

Definition str_in (s : string) (l : list string) : bool := bool_decide (s ∈ l).

Lemma str_in_cons s x l : str_in s (x :: l) = String.eqb s x || str_in s l.
Proof.
  unfold str_in. destruct (String.eqb_spec s x) as [->|Hne]; simpl.
  - apply bool_decide_eq_true. by left.
  - apply bool_decide_ext. rewrite elem_of_cons. naive_solver.
Qed.

Lemma str_in_app s l l' : str_in s (l ++ l') = str_in s l || str_in s l'.
Proof. induction l as [|x l IH]; [done|]. simpl. by rewrite !str_in_cons, IH, orb_assoc. Qed.

(** [strings.Join]. *)
Definition Join (sep : string) (l : list string) : string := String.concat sep l.

(** %q on text without control characters: quotes and backslashes are escaped. *)
Fixpoint escape (s : string) : string :=
  match s with
  | EmptyString => ""
  | String a s =>
      let r := String a (escape s) in
      if Nat.eqb (Ascii.nat_of_ascii a) 34 || Nat.eqb (Ascii.nat_of_ascii a) 92
      then "\" +:+ r else r
  end.
Definition dquote : string := String (Ascii.ascii_of_nat 34) "".
Definition quoted (s : string) : string := dquote +:+ escape s +:+ dquote.

Fixpoint error_Error (e : goerror) : string :=
  match e with
  | ApiNotFound m | ApiConflict m | ApiAlreadyExists m | ApiOther m
  | AdmitBadRequest m | AdmitConflict m | AdmitInternal m | AdmitInvalid m | ErrText m
  | ErrContext m => m
  | ErrWrap m e => m +:+ ": " +:+ error_Error e
  end.

Lemma append_assoc (a b c : string) : a +:+ (b +:+ c) = (a +:+ b) +:+ c.
Proof.
  induction a as [|x a IH]; [done|].
  change (String x (a +:+ (b +:+ c)) = String x ((a +:+ b) +:+ c)). by rewrite IH.
Qed.

Lemma prefix_app (p s : string) : String.prefix p (p +:+ s) = true.
Proof.
  induction p as [|a p IH]; [by destruct s|].
  change (String a p +:+ s) with (String a (p +:+ s)). cbn [String.prefix].
  by destruct (Ascii.ascii_dec a a).
Qed.

Lemma str_drop_app (p s : string) : str_drop (String.length p) (p +:+ s) = s.
Proof. by induction p. Qed.

Lemma prefix_app_inv (p s : string) :
  String.prefix p s = true -> exists t, s = p +:+ t.
Proof.
  revert s. induction p as [|a p IH]; intros s; simpl.
  - intros _. by exists s.
  - destruct s as [|b s]; [discriminate|]. cbn [String.prefix].
    destruct (Ascii.ascii_dec a b) as [->|]; [|discriminate].
    intros [t ->]%IH. exists t. reflexivity.
Qed.

Lemma HasPrefix_app (p s : string) : HasPrefix (p +:+ s) p = true.
Proof. apply prefix_app. Qed.

Lemma TrimPrefix_app (p s : string) : TrimPrefix (p +:+ s) p = s.
Proof. unfold TrimPrefix. by rewrite HasPrefix_app, str_drop_app. Qed.

#[export] Hint Rewrite HasPrefix_app TrimPrefix_app : gomap.

(** ** Encoders the code calls

    [encoding/json] on a type is an interface: [Unmarshal] inverts [Marshal].
    The clients below are proved against it. *)
Class JsonCodec (A : Type) : Type := {
  json_marshal : A -> string;
  json_unmarshal : string -> option A;
  json_roundtrip : forall a, json_unmarshal (json_marshal a) = Some a;
}.

(** A concrete codec, for evaluation: any countable type, written in binary. *)
Fixpoint pos_to_string (p : positive) : string :=
  match p with
  | xH => ""
  | xO p => String "0"%char (pos_to_string p)
  | xI p => String "1"%char (pos_to_string p)
  end.

Fixpoint string_to_pos (s : string) : option positive :=
  match s with
  | EmptyString => Some xH
  | String a s => p ← string_to_pos s;
                  if Ascii.eqb a "0"%char then Some (xO p)
                  else if Ascii.eqb a "1"%char then Some (xI p) else None
  end.

Lemma string_to_pos_to_string p : string_to_pos (pos_to_string p) = Some p.
Proof. induction p as [p IH|p IH|]; simpl; by rewrite ?IH. Qed.

Definition countable_codec (A : Type) `{Countable A} : JsonCodec A.
Proof.
  refine {| json_marshal a := pos_to_string (encode a);
            json_unmarshal s := p ← string_to_pos s; decode p |}.
  abstract (intros a; rewrite string_to_pos_to_string; simpl; apply decode_encode).
Defined.

(** ** Lists *)

Definition sumZ {A} (f : A -> Z) (l : list A) : Z := foldr (fun a z => (f a + z)%Z) 0%Z l.

Lemma sumZ_app {A} (f : A -> Z) l1 l2 : sumZ f (l1 ++ l2) = (sumZ f l1 + sumZ f l2)%Z.
Proof. induction l1 as [|a l1 IH]; simpl; lia. Qed.

Lemma sumZ_perm {A} (f : A -> Z) l1 l2 : l1 ≡ₚ l2 -> sumZ f l1 = sumZ f l2.
Proof. induction 1; simpl; lia. Qed.

Lemma sumZ_nonneg {A} (f : A -> Z) l :
  (forall a, a ∈ l -> (0 <= f a)%Z) -> (0 <= sumZ f l)%Z.
Proof.
  induction l as [|a l IH]; intros H; simpl; [lia|].
  pose proof (H a ltac:(set_solver)). enough (0 <= sumZ f l)%Z by lia.
  apply IH. set_solver.
Qed.

Lemma sumZ_ext {A} (f g : A -> Z) l :
  (forall a, a ∈ l -> f a = g a) -> sumZ f l = sumZ g l.
Proof.
  induction l as [|a l IH]; intros H; simpl; [done|].
  rewrite (H a) by set_solver. f_equal. apply IH. set_solver.
Qed.

#[export] Instance sumZ_Proper {A} (f : A -> Z) : Proper ((≡ₚ) ==> (=)) (sumZ f).
Proof. intros l1 l2 H. by apply sumZ_perm. Qed.

Lemma list_forall_cons_iff {A} (P : A -> Prop) x l :
  (forall y, y ∈ x :: l -> P y) <-> P x /\ forall y, y ∈ l -> P y.
Proof. set_solver. Qed.

Lemma list_exists_cons_iff {A} (P : A -> Prop) x l :
  (exists y, y ∈ x :: l /\ P y) <-> P x \/ exists y, y ∈ l /\ P y.
Proof. set_solver. Qed.

Lemma filter_elem {A} (p : A -> bool) l x : x ∈ List.filter p l <-> x ∈ l /\ p x = true.
Proof. by rewrite !list_elem_of_In, filter_In. Qed.

Lemma existsb_elem {A} (p : A -> bool) l : existsb p l = true <-> exists x, x ∈ l /\ p x = true.
Proof. rewrite existsb_exists. by setoid_rewrite <- list_elem_of_In. Qed.

Lemma filter_perm {A} (p : A -> bool) l l' : l ≡ₚ l' -> List.filter p l ≡ₚ List.filter p l'.
Proof.
  induction 1 as [|x l l' H IH|x y l|l1 l2 l3 H1 IH1 H2 IH2]; simpl; [done| | |by etransitivity].
  - destruct (p x); [by apply perm_skip|done].
  - destruct (p x), (p y); try done. apply perm_swap.
Qed.

Lemma concat_elem {A} (ls : list (list A)) x : x ∈ concat ls <-> exists l, l ∈ ls /\ x ∈ l.
Proof.
  rewrite list_elem_of_In, in_concat. by setoid_rewrite list_elem_of_In.
Qed.

Lemma filter_filter {A} (p q : A -> bool) l :
  List.filter p (List.filter q l) = List.filter (fun x => q x && p x) l.
Proof.
  induction l as [|x l IH]; simpl; [done|]. destruct (q x); simpl; [|done].
  destruct (p x); by rewrite IH.
Qed.

Lemma NoDup_map_inj {A B} (f : A -> B) l x y :
  NoDup (map f l) -> x ∈ l -> y ∈ l -> f x = f y -> x = y.
Proof.
  induction l as [|a l IH]; intros Hnd Hx Hy E; [by apply elem_of_nil in Hx|].
  cbn [map] in Hnd. apply NoDup_cons in Hnd as [Hn Hd].
  apply elem_of_cons in Hx as [->|Hx], Hy as [->|Hy]; [done| | |auto].
  - destruct Hn. rewrite E. by apply list_elem_of_fmap_2.
  - destruct Hn. rewrite <- E. by apply list_elem_of_fmap_2.
Qed.

Lemma NoDup_map_filter {A B} (f : A -> B) (p : A -> bool) l :
  NoDup (map f l) -> NoDup (map f (List.filter p l)).
Proof.
  induction l as [|x l IH]; simpl; [done|]. intros [Hx Hl]%NoDup_cons.
  destruct (p x); simpl; [|auto]. constructor; [|auto]. intros Hin. apply Hx. revert Hin.
  rewrite !list_elem_of_In, !in_map_iff. intros (y & <- & Hy%filter_In). naive_solver.
Qed.

Lemma forall_in_iff {A} (P Q : A -> Prop) (l : list A) :
  (forall a, a ∈ l -> P a <-> Q a) -> (forall a, a ∈ l -> P a) <-> forall a, a ∈ l -> Q a.
Proof. intros H. split; intros H' a Ha; by apply H, H'. Qed.

Lemma filter_nil_iff {A} (p : A -> bool) l :
  List.filter p l = [] <-> forall a, a ∈ l -> p a = false.
Proof.
  induction l as [|a l IH]; cbn [List.filter]; [split; [by intros _ ? ?%elem_of_nil|done]|].
  rewrite list_forall_cons_iff, <- IH. destruct (p a); [by split; [|intros [? _]]|tauto].
Qed.

Lemma map_nil {A B} (f : A -> B) l : map f l = [] <-> l = [].
Proof. by destruct l. Qed.

Lemma concat_map_elem {A B} (f : A -> list B) l x :
  x ∈ concat (map f l) <-> exists a, a ∈ l /\ x ∈ f a.
Proof.
  induction l as [|a l IH]; cbn [map concat].
  - split; [by intros ?%elem_of_nil|by intros (a & ?%elem_of_nil & _)].
  - by rewrite elem_of_app, list_exists_cons_iff, IH.
Qed.

(** ** Calls that only read

    What a cache or client answers, an error replaced, and a loop that ends with the first
    error. *)
Definition answer {A} (r : A + goerror) : outcome A :=
  match r with inl a => Ok a | inr e => Err e end.
Definition wrapErr {A} (f : goerror -> goerror) (o : outcome A) : outcome A :=
  match o with Err e => Err (f e) | o => o end.

Fixpoint firstErr {A} (f : A -> outcome unit) (l : list A) : outcome unit :=
  match l with
  | [] => Ok tt
  | a :: l => _ ← f a; firstErr f l
  end.

Lemma obind_Ok {A B} (m : outcome A) (f : A -> outcome B) b :
  m ≫= f = Ok b <-> exists a, m = Ok a /\ f a = Ok b.
Proof. unfold mbind, outcome_bind. destruct m; naive_solver. Qed.

Lemma wrapErr_Ok {A} f (o : outcome A) a : wrapErr f o = Ok a <-> o = Ok a.
Proof. by destruct o. Qed.

Lemma firstErr_Ok {A} (f : A -> outcome unit) l :
  firstErr f l = Ok tt <-> forall a, a ∈ l -> f a = Ok tt.
Proof.
  induction l as [|a l IH]; cbn [firstErr].
  - split; [by intros _ a ?%elem_of_nil|done].
  - rewrite obind_Ok, list_forall_cons_iff, <- IH. split; [by intros ([] & -> & ->)|].
    intros [-> ->]. by exists tt.
Qed.

Lemma thenOk {A} (m : outcome unit) (k : outcome A) a :
  (_ ← m; k) = Ok a <-> m = Ok tt /\ k = Ok a.
Proof. rewrite obind_Ok. split; [by intros ([] & ? & ?)|]. intros [? ?]. by exists tt. Qed.

Lemma mapM_all_nil {A B} (f : A -> outcome (list B)) l :
  (exists ls, mapM f l = Ok ls /\ concat ls = []) <-> forall a, a ∈ l -> f a = Ok [].
Proof.
  induction l as [|a l IH]; cbn [mapM].
  { split; [by intros _ ? ?%elem_of_nil|]. by exists []. }
  rewrite list_forall_cons_iff, <- IH. split.
  - intros (ls & (x & Hx & (y & Hy & [= <-])%obind_Ok)%obind_Ok & Hc). cbn [concat] in Hc.
    apply app_eq_nil in Hc as [-> Hc]. eauto.
  - intros [Ha (ls & Hl & Hc)]. exists ([] :: ls). rewrite Ha. cbn [mbind outcome_bind].
    by rewrite Hl.
Qed.

(** ** Sorted strings: [sort.Strings], [slices.Sort] and [slices.Compact] *)

Definition sortStrings (l : list string) : list string := merge_sort String.le l.

Lemma sortStrings_perm l : sortStrings l ≡ₚ l.
Proof. apply merge_sort_Permutation. Qed.

(** The order in which a cache lists objects does not reach the sorted names. *)
#[export] Instance sortStrings_Proper : Proper ((≡ₚ) ==> (=)) sortStrings.
Proof.
  intros l1 l2 H. unfold sortStrings.
  apply (Sorted_unique String.le); [apply Sorted_merge_sort; apply _..|].
  by rewrite !merge_sort_Permutation.
Qed.

Lemma sortStrings_nil l : sortStrings l = [] <-> l = [].
Proof.
  pose proof (sortStrings_perm l) as H. split; intros E.
  - rewrite E in H. by apply Permutation_nil_l in H.
  - subst. done.
Qed.

(** Drops all but the first of a run of equal strings. *)
Fixpoint compact (l : list string) : list string :=
  match l with
  | [] => []
  | x :: l' =>
      match l' with
      | y :: _ => if String.eqb x y then compact l' else x :: compact l'
      | [] => [x]
      end
  end.

Lemma compact_cons x y l :
  compact (x :: y :: l) = if String.eqb x y then compact (y :: l) else x :: compact (y :: l).
Proof. done. Qed.

Lemma compact_elem x l : x ∈ compact l <-> x ∈ l.
Proof.
  induction l as [|y [|z l] IH]; [done..|]. rewrite compact_cons.
  destruct (String.eqb_spec y z) as [->|]; set_solver.
Qed.

Lemma compact_sorted_NoDup l : StronglySorted String.le l -> NoDup (compact l).
Proof.
  induction 1 as [|x l Hs IH Hx]; [constructor|].
  destruct l as [|y l]; [repeat constructor; set_solver|]. rewrite compact_cons.
  destruct (String.eqb_spec x y) as [->|Hne]; [done|]. constructor; [|done].
  rewrite compact_elem. intros Hin. apply StronglySorted_inv in Hs as [_ Hy].
  rewrite Forall_forall in Hx, Hy. apply Hne, (anti_symm String.le).
  - apply Hx. by left.
  - apply elem_of_cons in Hin as [->|Hin]; [reflexivity|by apply Hy].
Qed.

(** Sorting and compacting lists the distinct strings, whatever the order. *)
Lemma compact_sort_NoDup l : NoDup (compact (sortStrings l)).
Proof.
  apply compact_sorted_NoDup, Sorted_StronglySorted; [apply _|].
  apply Sorted_merge_sort; apply _.
Qed.

Lemma compact_sort_elem x l : x ∈ compact (sortStrings l) <-> x ∈ l.
Proof. by rewrite compact_elem, sortStrings_perm. Qed.

(** ** Numbers: durations, [strconv] *)

Section Numbers.
Local Open Scope Z_scope.

(** A product or sum of int64 values; durations are int64 nanoseconds, and the difference
    of two times saturates. *)
Definition int64 (z : Z) : Z := (z + 2 ^ 63) mod 2 ^ 64 - 2 ^ 63.
Definition second : Z := 1000000000.
Definition minute : Z := 60 * second.
Definition maxDuration : Z := 2 ^ 63 - 1.
Definition timeSub (t u : Z) : Z := Z.max (- 2 ^ 63) (Z.min maxDuration (t - u)).

Lemma int64_id z : - 2 ^ 63 <= z < 2 ^ 63 -> int64 z = z.
Proof. intros. unfold int64. rewrite Z.mod_small by lia. lia. Qed.

(** [strconv.ParseBool] *)
Definition ParseBool (s : string) : option bool :=
  if str_in s ["1"; "t"; "T"; "TRUE"; "true"; "True"] then Some true
  else if str_in s ["0"; "f"; "F"; "FALSE"; "false"; "False"] then Some false
  else None.

(** The value of a run of decimal digits, after [acc]. *)
Fixpoint digits (acc : N) (s : string) : option N :=
  match s with
  | EmptyString => Some acc
  | String a s =>
      let n := N_of_ascii a in
      if (48 <=? n)%N && (n <=? 57)%N then digits (10 * acc + (n - 48)) s else None
  end.

(** [strconv.Atoi]: an optional sign and at least one digit, within 64 bits. *)
Definition Atoi (s : string) : option Z :=
  let unsigned s := match s with EmptyString => None | _ => digits 0 s end in
  let inRange z := if (- 2 ^ 63 <=? z) && (z <? 2 ^ 63) then Some z else None in
  match s with
  | EmptyString => None
  | String a t =>
      if Ascii.eqb a "-" then n ← unsigned t; inRange (- Z.of_N n)
      else if Ascii.eqb a "+" then n ← unsigned t; inRange (Z.of_N n)
      else n ← unsigned s; inRange (Z.of_N n)
  end.

(** [strconv.Itoa] *)
Definition Itoa (z : Z) : string := pretty z.

Lemma digits_char n acc s :
  (n < 10)%N -> digits acc (String (pretty_N_char n) s) = digits (10 * acc + n) s.
Proof.
  intros Hn. destruct n as [|p]; [done|].
  do 4 (destruct p as [p|p|]; try (exfalso; lia); try done).
Qed.

Lemma digits_pretty x s : digits 0 (pretty_N_go x s) = digits x s.
Proof.
  revert s. induction (N.lt_wf_0 x) as [x _ IH]; intros s.
  assert (x = 0 \/ 0 < x)%N as [->|Hx] by lia; [done|].
  rewrite pretty_N_go_step by done. rewrite IH by (by apply N.div_lt).
  rewrite digits_char by (by apply N.mod_lt). f_equal.
  by rewrite <- N.div_mod'.
Qed.

Lemma pretty_N_go_cons x s : s <> "" -> pretty_N_go x s <> "".
Proof.
  revert s. induction (N.lt_wf_0 x) as [x _ IH]; intros s Hs.
  assert (x = 0 \/ 0 < x)%N as [->|Hx] by lia; [done|].
  rewrite pretty_N_go_step by done. apply IH; [by apply N.div_lt|done].
Qed.

(** The text of a positive number: digits only, and at least one. *)
Lemma pretty_pos p :
  exists a s, pretty (Npos p) = String a s /\ a <> "-"%char /\ a <> "+"%char /\
    digits 0 (String a s) = Some (Npos p).
Proof.
  change (pretty (Npos p)) with (pretty_N_go (Npos p) "").
  pose proof (digits_pretty (Npos p) "") as Hd.
  destruct (pretty_N_go (Npos p) "") as [|a s] eqn:E.
  - rewrite pretty_N_go_step in E by lia. by apply pretty_N_go_cons in E.
  - exists a, s. split_and!; [done| | |done]; intros ->; by cbn in Hd.
Qed.

Lemma Atoi_range s z : Atoi s = Some z -> - 2 ^ 63 <= z < 2 ^ 63.
Proof.
  assert (Hr : forall y, (if (- 2 ^ 63 <=? y) && (y <? 2 ^ 63) then Some y else None) = Some z ->
                 - 2 ^ 63 <= z < 2 ^ 63).
  { intros y. destruct (Z.leb_spec (- 2 ^ 63) y), (Z.ltb_spec y (2 ^ 63)); cbn [andb]; try done.
    intros [= <-]. lia. }
  unfold Atoi. destruct s as [|a t]; [done|].
  repeat case_match; intros Hz; apply bind_Some in Hz as (n & _ & Hz); eauto.
Qed.

Lemma Atoi_Itoa z : - 2 ^ 63 <= z < 2 ^ 63 -> Atoi (Itoa z) = Some z.
Proof.
  intros Hz.
  assert (Hr : (if (- 2 ^ 63 <=? z) && (z <? 2 ^ 63) then Some z else None) = Some z).
  { destruct (Z.leb_spec (- 2 ^ 63) z), (Z.ltb_spec z (2 ^ 63)); (done || lia). }
  destruct z as [|p|p]; [done|..].
  - destruct (pretty_pos p) as (a & s & E & Hm & Hp & Hd).
    change (Itoa (Zpos p)) with (pretty (Npos p)). rewrite E. unfold Atoi.
    apply Ascii.eqb_neq in Hm as ->, Hp as ->. by rewrite Hd.
  - destruct (pretty_pos p) as (a & s & E & _ & _ & Hd).
    change (Itoa (Zneg p)) with ("-" +:+ pretty (Npos p)). rewrite E. change ("-" +:+ String a s) with (String "-" (String a s)).
    unfold Atoi. simpl Ascii.eqb. cbv iota. by rewrite Hd.
Qed.
End Numbers.

(** ** Splitting: [strings.Split] at a one-byte separator *)

Fixpoint Split (c : ascii) (s : string) : list string :=
  match s with
  | EmptyString => [""]
  | String a s' =>
      if Ascii.eqb a c then "" :: Split c s'
      else match Split c s' with
           | f :: fs => String a f :: fs
           | [] => [String a ""]
           end
  end.

Fixpoint hasByte (c : ascii) (s : string) : bool :=
  match s with
  | EmptyString => false
  | String a s => Ascii.eqb a c || hasByte c s
  end.

Lemma Split_none c s : hasByte c s = false -> Split c s = [s].
Proof.
  induction s as [|a s IH]; simpl; [done|]. intros [-> Hs]%orb_false_iff. by rewrite IH.
Qed.

Lemma Split_app c s t :
  hasByte c s = false -> Split c (s +:+ String c t) = s :: Split c t.
Proof.
  induction s as [|a s IH]; intros Hs.
  - change ("" +:+ String c t) with (String c t). simpl. by rewrite Ascii.eqb_refl.
  - change (String a s +:+ String c t) with (String a (s +:+ String c t)).
    cbn [hasByte Split] in *. apply orb_false_iff in Hs as [-> Hs]. by rewrite IH.
Qed.

(** ** Transition systems: reachability and invariants *)

Section Reach.
Context {St : Type} (init : St -> Prop) (step : St -> St -> Prop).

Inductive reachable : St -> Prop :=
| reach_init s : init s -> reachable s
| reach_step s s' : reachable s -> step s s' -> reachable s'.

Lemma invariant_reachable (I : St -> Prop) :
  (forall s, init s -> I s) ->
  (forall s s', I s -> step s s' -> I s') ->
  forall s, reachable s -> I s.
Proof. intros Hi Hs s. induction 1; eauto. Qed.
End Reach.

(** ** What a handler may do to its state

    [effect R m w]: the state [m] leaves behind, however it ends, is related to
    [w] by [R].  With a preorder [R] it composes along the monad, and the rest of
    a computation may use what the first part returned. *)
Section Effect.
Context {S : Type} (R : S -> S -> Prop) `{!PreOrder R}.

Definition effect {A} (m : M S A) (w : S) : Prop := R w (m w).2.

Lemma effect_ret {A} (a : A) w : effect (mret a) w.
Proof. unfold effect. simpl. reflexivity. Qed.

Lemma effect_lift {A} (o : outcome A) w : effect (lift o) w.
Proof. unfold effect. simpl. reflexivity. Qed.

Lemma effect_throw {A} e w : effect (throw (A := A) e) w.
Proof. unfold effect. simpl. reflexivity. Qed.

Lemma effect_bind {A B} (m : M S A) (f : A -> M S B) w :
  effect m w -> (forall a w', m w = (Ok a, w') -> effect (f a) w') -> effect (m ≫= f) w.
Proof.
  unfold effect, mbind, M_bind. intros H1 H2.
  destruct (m w) as [[a|e|] w'] eqn:E; simpl in *; [|done|done].
  etransitivity; [exact H1|]. by apply H2.
Qed.

Lemma effect_fmap {A B} (f : A -> B) (m : M S A) w : effect m w -> effect (f <$> m) w.
Proof. unfold effect, fmap, M_fmap. by destruct (m w) as [[a|e|] w']. Qed.

Lemma effect_try {A} (m : M S A) w : effect m w -> effect (try m) w.
Proof. unfold effect, try. by destruct (m w) as [[a|e|] w']. Qed.

Lemma effect_mapErr {A} f (m : M S A) w : effect m w -> effect (mapErr f m) w.
Proof. unfold effect, mapErr. by destruct (m w) as [[a|e|] w']. Qed.

Lemma effect_apiWrite {A} v f (a : A) w : R w (f w) -> effect (apiWrite v f a) w.
Proof. intros H. unfold effect, apiWrite. by destruct v. Qed.

Lemma effect_modify f w : R w (f w) -> effect (modify f) w.
Proof. done. Qed.

Lemma effect_mapM {A B} (f : A -> M S B) l w :
  (forall a w, effect (f a) w) -> effect (mapM f l) w.
Proof.
  intros Hf. revert w. induction l as [|a l IH]; intros w; cbn [mapM]; [apply effect_ret|].
  apply effect_bind; [apply Hf|]. intros b w' _. apply effect_bind; [apply IH|].
  intros bs w'' _. apply effect_ret.
Qed.

(** A computation that only reads. *)
Lemma effect_read {A} (m : M S A) w : (m w).2 = w -> effect m w.
Proof. unfold effect. intros ->. reflexivity. Qed.
End Effect.

Lemma mapErr_lift_Ok {S A} w (o : outcome A) (s s' : S) a :
  mapErr w (lift o) s = (Ok a, s') -> o = Ok a /\ s' = s.
Proof. unfold mapErr, lift. destruct o; simpl; [|done|done]. by intros [= <- <-]. Qed.

Lemma try_Ok {S A} (m : M S A) (s s' : S) r :
  try m s = (Ok r, s') ->
  match r with inl a => m s = (Ok a, s') | inr e => m s = (Err e, s') end.
Proof. unfold try. destruct (m s) as [[a|e|] s1]; intros [= <- <-] || intros [=]; done. Qed.

(** ** Inversion of successful runs *)
Section Inversion.
Context {S : Type}.

Lemma bind_Ok {A B} (m : M S A) (f : A -> M S B) s b s' :
  (m ≫= f) s = (Ok b, s') -> exists a s1, m s = (Ok a, s1) /\ f a s1 = (Ok b, s').
Proof. unfold mbind, M_bind. destruct (m s) as [[a|e|] s1]; [eauto|done|done]. Qed.

Lemma fmap_Ok {A B} (g : A -> B) (m : M S A) s b s' :
  (g <$> m) s = (Ok b, s') -> exists a, m s = (Ok a, s') /\ b = g a.
Proof. unfold fmap, M_fmap. destruct (m s) as [[a|e|] s1]; [|done|done]. naive_solver. Qed.

Lemma mapErr_Ok {A} w (m : M S A) s a s' :
  mapErr w m s = (Ok a, s') -> m s = (Ok a, s').
Proof. unfold mapErr. by destruct (m s) as [[]]. Qed.

Lemma apiWrite_Ok {A} v f (a : A) (s : S) b s' :
  apiWrite v f a s = (Ok b, s') -> v = None /\ b = a /\ s' = f s.
Proof. unfold apiWrite. destruct v; naive_solver. Qed.

Lemma ret_Ok {A} (a : A) (s : S) b s' : mret (M := M S) a s = (Ok b, s') -> b = a /\ s' = s.
Proof. unfold mret, M_ret. naive_solver. Qed.

Lemma lift_Ok {A} (o : outcome A) (s : S) b s' : lift o s = (Ok b, s') -> o = Ok b /\ s' = s.
Proof. unfold lift. naive_solver. Qed.
End Inversion.

(** Running the first part of a computation. *)
Lemma bind_run {S A B} (m : M S A) (f : A -> M S B) s a s1 :
  m s = (Ok a, s1) -> (m ≫= f) s = f a s1.
Proof. unfold mbind, M_bind. by intros ->. Qed.

Lemma mapErr_run {S A} f (m : M S A) s a s' : m s = (Ok a, s') -> mapErr f m s = (Ok a, s').
Proof. unfold mapErr. by intros ->. Qed.

Lemma fmap_run {S A B} (g : A -> B) (m : M S A) s a s' :
  m s = (Ok a, s') -> (g <$> m) s = (Ok (g a), s').
Proof. unfold fmap, M_fmap. by intros ->. Qed.

Lemma try_run {S A} (m : M S A) s a s' : m s = (Ok a, s') -> try m s = (Ok (inl a), s').
Proof. unfold try. by intros ->. Qed.

(** A computation that starts by reading: either the rest runs from the same state
    or nothing happened. *)
Lemma bind_read {S A B} (m : M S A) (f : A -> M S B) s (P : S -> Prop) :
  (m s).2 = s -> P s -> (forall a, m s = (Ok a, s) -> P (f a s).2) -> P ((m ≫= f) s).2.
Proof.
  unfold mbind, M_bind. destruct (m s) as [[a|e|] s1]; simpl; intros -> H1 H2; auto.
Qed.

(** A write followed by the rest. *)
Lemma bind_write {S A B} v (g : S -> S) (a : A) (f : A -> M S B) s (P : S -> Prop) :
  P s -> (v = None -> P (f a (g s)).2) -> P ((apiWrite v g a ≫= f) s).2.
Proof. unfold mbind, M_bind, apiWrite. destruct v; auto. Qed.

(** Decomposes a successful run in a hypothesis, one construct at a time. *)
Ltac run_inv H :=
  match type of H with
  | (mbind _ _) _ = (Ok _, _) =>
      let H1 := fresh "Hr" in apply bind_Ok in H as (? & ? & H1 & H)
  | (_ <$> _) _ = (Ok _, _) => apply fmap_Ok in H as (? & H & ?); simplify_eq
  | mapErr _ _ _ = (Ok _, _) => apply mapErr_Ok in H
  | apiWrite _ _ _ _ = (Ok _, _) => apply apiWrite_Ok in H as (? & ? & ?); simplify_eq
  | mret _ _ = (Ok _, _) => apply ret_Ok in H as [? ?]; simplify_eq
  | lift _ _ = (Ok _, _) => apply lift_Ok in H as [H ?]; simplify_eq
  | throw _ _ = (Ok _, _) => discriminate H
  | (match ?x with _ => _ end) _ = (Ok _, _) => let E := fresh "E" in destruct x eqn:E
  end.

(** Splits an effect along the monad and the code's case distinctions. *)
Ltac effect_step :=
  match goal with
  | |- effect _ (mret _) _ => apply effect_ret; apply _
  | |- effect _ (throw _) _ => apply effect_throw; apply _
  | |- effect _ (lift _) _ => apply effect_lift; apply _
  | |- effect _ (try _) _ => apply effect_try
  | |- effect _ (mapErr _ _) _ => apply effect_mapErr
  | |- effect _ (_ <$> _) _ => apply effect_fmap
  | |- effect _ (mapM _ _) _ => apply effect_mapM; [apply _|intros ? ?]
  | |- effect _ (mbind _ _) _ => apply effect_bind; [apply _| |intros ? ? ?]
  | |- effect _ (match ?x with _ => _ end) _ => let E := fresh "E" in destruct x eqn:E
  | |- effect _ (let _ := _ in _) _ => cbv zeta
  end.
(** What the calls that returned have returned. *)
Ltac effect_facts :=
  repeat match goal with
         | H : mapErr _ (lift _) _ = (Ok _, _) |- _ => apply mapErr_lift_Ok in H as [? ->]
         | H : lift _ _ = (Ok _, _) |- _ => injection H as ? <-
         | H : try _ _ = (Ok _, _) |- _ => apply try_Ok in H
         end.
Ltac effect_go := repeat effect_step; auto with harv.

(** ** Automation *)

#[export] Hint Constructors reachable : harv.

(** Runs a handler on the state in the goal or in a hypothesis: unfolds the
    monad and reduces. *)
Ltac m_unfold :=
  unfold mbind, M_bind, mret, M_ret, fmap, M_fmap, outcome_bind, outcome_ret, gets, modify,
    throw, lift, try, mapErr, apiWrite in *; simpl in *.

(** Case analysis on every match of a hypothesis, closing absurd cases. *)
Ltac break_in H :=
  repeat match type of H with
         | context [match ?x with _ => _ end] =>
             let E := fresh "E" in destruct x eqn:E; simplify_eq/=
         end.

(** The same on the goal. *)
Ltac break_goal :=
  repeat match goal with
         | |- context [match ?x with _ => _ end] =>
             let E := fresh "E" in destruct x eqn:E; simplify_eq/=
         end.

(** Boolean tests of the code as the propositions they decide. *)
Ltac boolify :=
  repeat match goal with
         | H : _ && _ = true |- _ => apply andb_true_iff in H as [??]
         | H : _ || _ = false |- _ => apply orb_false_iff in H as [??]
         | H : negb _ = true |- _ => apply negb_true_iff in H
         | H : negb _ = false |- _ => apply negb_false_iff in H
         | H : bool_decide _ = true |- _ => apply bool_decide_eq_true in H
         | H : bool_decide _ = false |- _ => apply bool_decide_eq_false in H
         | H : (_ =? _)%Z = true |- _ => apply Z.eqb_eq in H
         | H : (_ =? _)%Z = false |- _ => apply Z.eqb_neq in H
         | H : (_ <? _)%Z = true |- _ => apply Z.ltb_lt in H
         | H : (_ <? _)%Z = false |- _ => apply Z.ltb_ge in H
         | H : String.eqb _ _ = true |- _ => apply String.eqb_eq in H
         | H : String.eqb _ _ = false |- _ => apply String.eqb_neq in H
         end.

(** Settles a decidable statement about closed terms by running its decision
    procedure, without building the normal forms of its terms. *)
Ltac by_eval := apply (bool_decide_unpack _); vm_compute; exact I.
