(* ===== verification/K8s.v ===== *)
(** The Kubernetes data the modelled code reads and writes: quantities and
    resource lists, object metadata, conditions with the accessors of
    [wrangler/pkg/condition], nodes, jobs and the pod templates of jobs.

    Timestamps are seconds ([Z]); [metav1.Time] pointers are options.
    [DeepCopy] is the identity here: values are immutable. *)

From S2P Require Import Prelude.

Local Open Scope Z_scope.

(** ** Quantities

    A [resource.Quantity] is an exact decimal with at most nine fractional
    digits: it is modelled by its value in units of 10^-9.  [Format], which
    only steers printing, is dropped; [Add] and [Sub] are exact (the code
    falls back to arbitrary precision on overflow of its int64 fast path). *)
Abbreviation Quantity := Z (only parsing).

Definition nano : Z := 1000000000.

(** [*resource.NewQuantity(n, _)] *)
Definition NewQuantity (n : Z) : Quantity := n * nano.
Definition Q_IsZero (q : Quantity) : bool := q =? 0.
Definition Q_Cmp (a b : Quantity) : Z :=
  match a ?= b with Lt => -1 | Eq => 0 | Gt => 1 end.
Definition Q_Equal (a b : Quantity) : bool := Q_Cmp a b =? 0.

(** [corev1.ResourceList] and [ResourceList.Name], which yields a zero quantity
    when the name is absent (and never a nil pointer). *)
Abbreviation ResourceList := (gomap Z) (only parsing).
Definition rl_Name (rl : ResourceList) (name : string) : Quantity :=
  default 0 (gm_get rl name).

Definition ResourceCPU : string := "cpu".
Definition ResourceMemory : string := "memory".
Definition ResourceStorage : string := "storage".
Definition ResourceLimitsCPU : string := "limits.cpu".
Definition ResourceLimitsMemory : string := "limits.memory".
Definition ResourceRequestsStorage : string := "requests.storage".

Definition rl_Cpu (rl : ResourceList) : Quantity := rl_Name rl ResourceCPU.
Definition rl_Memory (rl : ResourceList) : Quantity := rl_Name rl ResourceMemory.

Lemma Q_Cmp_lt a b : Q_Cmp a b = -1 <-> a < b.
Proof. unfold Q_Cmp. destruct (Z.compare_spec a b); split; intros; try done; lia. Qed.

Lemma Q_Cmp_gt a b : Q_Cmp a b = 1 <-> b < a.
Proof. unfold Q_Cmp. destruct (Z.compare_spec a b); split; intros; try done; lia. Qed.

Lemma Q_Equal_true a b : Q_Equal a b = true <-> a = b.
Proof.
  unfold Q_Equal, Q_Cmp.
  destruct (Z.compare_spec a b); split; intros; simpl in *; try done; lia.
Qed.

Lemma Q_Equal_false a b : Q_Equal a b = false <-> a <> b.
Proof. rewrite <- not_true_iff_false, Q_Equal_true. done. Qed.

Lemma Q_IsZero_true q : Q_IsZero q = true <-> q = 0.
Proof. apply Z.eqb_eq. Qed.

Lemma Q_IsZero_false q : Q_IsZero q = false <-> q <> 0.
Proof. apply Z.eqb_neq. Qed.

Lemma rl_Name_set rl k k' q :
  rl_Name (gm_set rl k q) k' = if decide (k = k') then q else rl_Name rl k'.
Proof. unfold rl_Name. rewrite gm_get_set. by case_decide. Qed.

(** ** Times

    [time.Format] and [time.Parse] with the layout RFC3339, on whole seconds:
    parsing inverts formatting. *)
Class Rfc3339 := {
  time_format : Z -> string;
  time_parse : string -> option Z;
  time_roundtrip : forall t, time_parse (time_format t) = Some t }.

(** ** Object metadata *)

Record OwnerReference := mkOwner {
  or_APIVersion : string; or_Kind : string; or_Name : string; or_UID : string }.

Record ObjectMeta := mkMeta {
  om_Name : string;
  om_GenerateName : string;
  om_Namespace : string;
  om_UID : string;
  om_Labels : gomap string;
  om_Annotations : gomap string;
  om_OwnerReferences : list OwnerReference;
  om_CreationTimestamp : Z;
  om_DeletionTimestamp : option Z }.

Definition set_Annotations (a : gomap string) (m : ObjectMeta) : ObjectMeta :=
  mkMeta (om_Name m) (om_GenerateName m) (om_Namespace m) (om_UID m) (om_Labels m) a
    (om_OwnerReferences m) (om_CreationTimestamp m) (om_DeletionTimestamp m).

Definition set_Labels (l : gomap string) (m : ObjectMeta) : ObjectMeta :=
  mkMeta (om_Name m) (om_GenerateName m) (om_Namespace m) (om_UID m) l (om_Annotations m)
    (om_OwnerReferences m) (om_CreationTimestamp m) (om_DeletionTimestamp m).

Definition meta0 (ns name : string) : ObjectMeta :=
  mkMeta name "" ns "" None None [] 0 None.

(** [pkg/util/meta.go] *)
Definition NamespacedName (namespace name : string) : string :=
  if String.eqb namespace "" then name else namespace +:+ "/" +:+ name.

Definition GetNamespacedName (m : ObjectMeta) : string :=
  NamespacedName (om_Namespace m) (om_Name m).

Definition HarvesterSystemNamespaceName : string := "harvester-system".

#[export] Instance OwnerReference_eq : EqDecision OwnerReference.
Proof. solve_decision. Defined.
#[export] Instance ObjectMeta_eq : EqDecision ObjectMeta.
Proof. solve_decision. Defined.

(** ** Conditions, as [github.com/rancher/wrangler/v3/pkg/condition] handles them *)

Definition ConditionTrue : string := "True".
Definition ConditionFalse : string := "False".
Definition ConditionUnknown : string := "Unknown".

Record Condition := mkCond {
  c_Type : string; c_Status : string; c_LastUpdateTime : string;
  c_Reason : string; c_Message : string }.

#[export] Instance Condition_eq : EqDecision Condition.
Proof. solve_decision. Defined.

Module Cond.
(** [findCond]: the first condition of that type. *)
Fixpoint findCond (cs : list Condition) (name : string) : option Condition :=
  match cs with
  | [] => None
  | c :: cs => if String.eqb (c_Type c) name then Some c else findCond cs name
  end.

(** [findOrCreateCond] followed by a write to the condition found. *)
Fixpoint updCond (f : Condition -> Condition) (cs : list Condition) (name : string)
  : list Condition :=
  match cs with
  | [] => [f (mkCond name ConditionUnknown "" "" "")]
  | c :: cs => if String.eqb (c_Type c) name then f c :: cs else c :: updCond f cs name
  end.

Definition getStatus (cs : list Condition) (name : string) : string :=
  match findCond cs name with None => "" | Some c => c_Status c end.
Definition getTS (cs : list Condition) (name : string) : string :=
  match findCond cs name with None => "" | Some c => c_LastUpdateTime c end.

Definition IsTrue (cs : list Condition) (name : string) : bool :=
  String.eqb (getStatus cs name) ConditionTrue.
Definition IsFalse (cs : list Condition) (name : string) : bool :=
  String.eqb (getStatus cs name) ConditionFalse.

(** [setStatus] touches the time stamp only when the status changes. *)
Definition setStatus (now status : string) (cs : list Condition) (name : string)
  : list Condition :=
  updCond (fun c => if String.eqb (c_Status c) status then c
                    else mkCond (c_Type c) status now (c_Reason c) (c_Message c)) cs name.
(** [Message] likewise; [Reason] and [LastUpdated] write their field only. *)
Definition setMessage (now msg : string) (cs : list Condition) (name : string)
  : list Condition :=
  updCond (fun c => if String.eqb (c_Message c) msg then c
                    else mkCond (c_Type c) (c_Status c) now (c_Reason c) msg) cs name.
Definition setReason (reason : string) (cs : list Condition) (name : string)
  : list Condition :=
  updCond (fun c => mkCond (c_Type c) (c_Status c) (c_LastUpdateTime c) reason (c_Message c))
    cs name.
Definition setTS (ts : string) (cs : list Condition) (name : string) : list Condition :=
  updCond (fun c => mkCond (c_Type c) (c_Status c) ts (c_Reason c) (c_Message c)) cs name.

(** [SetError] with a non-nil error. *)
Definition SetError (now reason msg : string) (cs : list Condition) (name : string)
  : list Condition :=
  let reason := if String.eqb reason "" then "Error" else reason in
  setReason reason (setMessage now msg (setStatus now ConditionFalse cs name) name) name.

Lemma findCond_type cs name c : findCond cs name = Some c -> c_Type c = name.
Proof.
  induction cs as [|c' cs IH]; simpl; [done|].
  destruct (String.eqb_spec (c_Type c') name); intros; simplify_eq; auto.
Qed.

Section upd.
Context (f : Condition -> Condition) (Hf : forall c, c_Type (f c) = c_Type c).

Lemma findCond_upd_eq cs name :
  findCond (updCond f cs name) name =
  Some (f (default (mkCond name ConditionUnknown "" "" "") (findCond cs name))).
Proof using Hf.
  induction cs as [|c cs IH]; simpl.
  - rewrite Hf. simpl. by rewrite String.eqb_refl.
  - destruct (String.eqb (c_Type c) name) eqn:E; simpl; rewrite ?Hf, E; done.
Qed.

Lemma findCond_upd_ne cs name name' :
  name <> name' -> findCond (updCond f cs name) name' = findCond cs name'.
Proof using Hf.
  intros Hne. induction cs as [|c cs IH]; simpl.
  - rewrite Hf. simpl. by destruct (String.eqb_spec name name').
  - destruct (String.eqb_spec (c_Type c) name) as [Ec|]; simpl; rewrite ?Hf, ?IH; [|done].
    destruct (String.eqb_spec (c_Type c) name'); congruence.
Qed.
End upd.

Lemma getStatus_setStatus now s cs name name' :
  getStatus (setStatus now s cs name) name' =
  if decide (name = name') then s else getStatus cs name'.
Proof.
  unfold getStatus, setStatus. case_decide as E; subst.
  - rewrite findCond_upd_eq by (intros c; by destruct (String.eqb _ _)).
    by destruct (String.eqb_spec (c_Status
      (default (mkCond name' ConditionUnknown "" "" "") (findCond cs name'))) s).
  - rewrite findCond_upd_ne; [done| |done]. intros c. by destruct (String.eqb _ _).
Qed.

(** A write that leaves types and statuses alone leaves every status alone,
    except that it creates the condition it names, with status Unknown. *)
Lemma getStatus_upd_keep f cs name name' :
  (forall c, c_Type (f c) = c_Type c) -> (forall c, c_Status (f c) = c_Status c) ->
  is_Some (findCond cs name) \/ name <> name' ->
  getStatus (updCond f cs name) name' = getStatus cs name'.
Proof.
  intros Ht Hs H. unfold getStatus. destruct (decide (name = name')) as [<-|].
  - destruct H as [[c Hc]|]; [|done]. rewrite (findCond_upd_eq f Ht), Hc. simpl. apply Hs.
  - by rewrite (findCond_upd_ne f Ht).
Qed.

Lemma findCond_upd_Some f cs name name' :
  (forall c, c_Type (f c) = c_Type c) ->
  is_Some (findCond cs name') \/ name = name' ->
  is_Some (findCond (updCond f cs name) name').
Proof.
  intros Ht H. destruct (decide (name = name')) as [<-|].
  - rewrite (findCond_upd_eq f Ht). by eexists.
  - rewrite (findCond_upd_ne f Ht) by done. by destruct H.
Qed.

(** A status just written is there. *)
Lemma findCond_setStatus now s cs name : is_Some (findCond (setStatus now s cs name) name).
Proof.
  apply findCond_upd_Some; [|by right]. intros c. by destruct (String.eqb _ _).
Qed.

Lemma findCond_setStatus_keep now s cs name name' :
  is_Some (findCond cs name') -> is_Some (findCond (setStatus now s cs name) name').
Proof.
  intros H. apply findCond_upd_Some; [|by left]. intros c. by destruct (String.eqb _ _).
Qed.

Section Keep.
Context (now msg reason ts : string) (cs : list Condition) (name name' : string).

Lemma getStatus_setMessage :
  is_Some (findCond cs name) \/ name <> name' ->
  getStatus (setMessage now msg cs name) name' = getStatus cs name'.
Proof. intros H. apply getStatus_upd_keep; [..|done]; intros c; by destruct (String.eqb _ _). Qed.

Lemma getStatus_setReason :
  is_Some (findCond cs name) \/ name <> name' ->
  getStatus (setReason reason cs name) name' = getStatus cs name'.
Proof. intros H. by apply getStatus_upd_keep. Qed.

Lemma getStatus_setTS :
  is_Some (findCond cs name) \/ name <> name' ->
  getStatus (setTS ts cs name) name' = getStatus cs name'.
Proof. intros H. by apply getStatus_upd_keep. Qed.

Lemma findCond_setMessage :
  is_Some (findCond cs name') -> is_Some (findCond (setMessage now msg cs name) name').
Proof.
  intros H. apply findCond_upd_Some; [|by left]. intros c. by destruct (String.eqb _ _).
Qed.

Lemma findCond_setReason :
  is_Some (findCond cs name') -> is_Some (findCond (setReason reason cs name) name').
Proof. intros H. apply findCond_upd_Some; [done|by left]. Qed.

Lemma findCond_setTS :
  is_Some (findCond cs name') \/ name = name' -> is_Some (findCond (setTS ts cs name) name').
Proof. intros H. by apply findCond_upd_Some. Qed.

Lemma getTS_setStatus s :
  name <> name' -> getTS (setStatus now s cs name) name' = getTS cs name'.
Proof.
  intros H. unfold getTS, setStatus. rewrite findCond_upd_ne; [done| |done].
  intros c. by destruct (String.eqb _ _).
Qed.

Lemma getTS_setMessage :
  name <> name' -> getTS (setMessage now msg cs name) name' = getTS cs name'.
Proof.
  intros H. unfold getTS, setMessage. rewrite findCond_upd_ne; [done| |done].
  intros c. by destruct (String.eqb _ _).
Qed.

Lemma getTS_setReason :
  name <> name' -> getTS (setReason reason cs name) name' = getTS cs name'.
Proof. intros H. unfold getTS, setReason. by rewrite findCond_upd_ne. Qed.

(** A time written before a status change at the same time. *)
Lemma getTS_setTS_setStatus s : getTS (setStatus now s (setTS now cs name) name) name = now.
Proof.
  unfold getTS, setStatus, setTS.
  rewrite findCond_upd_eq by (intros c; by destruct (String.eqb _ _)).
  rewrite findCond_upd_eq by done. simpl. by destruct (String.eqb _ s).
Qed.
End Keep.
End Cond.

#[export] Hint Resolve Cond.findCond_setStatus Cond.findCond_setStatus_keep
  Cond.findCond_setMessage Cond.findCond_setReason Cond.findCond_setTS : harv.

(** The status of a condition after a chain of writes, last write first. *)
Ltac cond_status :=
  repeat first
    [ rewrite Cond.getStatus_setMessage by (by auto with harv)
    | rewrite Cond.getStatus_setReason by (by auto with harv)
    | rewrite Cond.getStatus_setTS by (by auto with harv)
    | rewrite Cond.getStatus_setStatus; case_decide; simplify_eq ].

(** ** Nodes *)

Record NodeCondition := mkNodeCond {
  nc_Type : string; nc_Status : string;
  nc_LastTransitionTime : Z; nc_LastHeartbeatTime : Z;
  nc_Reason : string; nc_Message : string }.

Record Taint := mkTaint { t_Key : string; t_Value : string; t_Effect : string }.

Record Node := mkNode {
  node_meta : ObjectMeta;
  node_Kind : string;
  node_APIVersion : string;
  node_Unschedulable : bool;
  node_Taints : list Taint;
  node_Conditions : list NodeCondition;
  node_OSImage : string }.                     (* Status.NodeInfo.OSImage *)

#[export] Instance NodeCondition_eq : EqDecision NodeCondition.
Proof. solve_decision. Defined.
#[export] Instance Taint_eq : EqDecision Taint.
Proof. solve_decision. Defined.
#[export] Instance Node_eq : EqDecision Node.
Proof. solve_decision. Defined.

Definition node_Name (n : Node) : string := om_Name (node_meta n).
Definition node_Labels (n : Node) : gomap string := om_Labels (node_meta n).
Definition node_Annotations (n : Node) : gomap string := om_Annotations (node_meta n).
Definition node_CreationTimestamp (n : Node) : Z := om_CreationTimestamp (node_meta n).

Definition node_set_Annotations (a : gomap string) (n : Node) : Node :=
  mkNode (set_Annotations a (node_meta n)) (node_Kind n) (node_APIVersion n)
    (node_Unschedulable n) (node_Taints n) (node_Conditions n) (node_OSImage n).
Definition node_set_Unschedulable (b : bool) (n : Node) : Node :=
  mkNode (node_meta n) (node_Kind n) (node_APIVersion n) b (node_Taints n)
    (node_Conditions n) (node_OSImage n).
Definition node_set_Conditions (cs : list NodeCondition) (n : Node) : Node :=
  mkNode (node_meta n) (node_Kind n) (node_APIVersion n) (node_Unschedulable n)
    (node_Taints n) cs (node_OSImage n).

Definition node_set_Taints (ts : list Taint) (n : Node) : Node :=
  mkNode (node_meta n) (node_Kind n) (node_APIVersion n) (node_Unschedulable n) ts
    (node_Conditions n) (node_OSImage n).

(** [Update] leaves the status of the stored node alone. *)
Definition node_keep_status (cur new : Node) : Node :=
  mkNode (node_meta new) (node_Kind new) (node_APIVersion new) (node_Unschedulable new)
    (node_Taints new) (node_Conditions cur) (node_OSImage cur).

Definition NodeReady : string := "Ready".
Definition LabelTopologyZone : string := "topology.kubernetes.io/zone".
Definition LabelHostname : string := "kubernetes.io/hostname".
Definition TaintEffectNoSchedule : string := "NoSchedule".
Definition TaintEffectNoExecute : string := "NoExecute".

(** ** Jobs and their pod templates *)

Record SelectorRequirement := mkReq {
  sr_Key : string; sr_Operator : string; sr_Values : list string }.

Record PodAffinityTerm := mkPAT {
  pat_MatchExpressions : list SelectorRequirement; pat_TopologyKey : string }.

(** [NodeSelectorTerms], each with its [MatchExpressions]. *)
Record Affinity := mkAff {
  aff_NodeRequired : list (list SelectorRequirement);
  aff_PodAntiRequired : list PodAffinityTerm }.

Record Toleration := mkTol {
  tol_Key : string; tol_Operator : string; tol_Effect : string; tol_Value : string }.

Inductive VolumeSource :=
| HostPath (path type : string)
| ConfigMapVolume (name : string).

Record Volume := mkVol { vol_Name : string; vol_Source : VolumeSource }.

(** An environment variable: a value, or the field of the pod it is taken from. *)
Record EnvVar := mkEnv { ev_Name : string; ev_Value : string; ev_FieldPath : option string }.
Definition envValue (name value : string) : EnvVar := mkEnv name value None.

Record Container := mkContainer {
  ct_Name : string;
  ct_Image : string;
  ct_Command : list string;
  ct_Args : list string;
  ct_VolumeMounts : list (string * string);   (* name, mount path *)
  ct_ImagePullPolicy : string;
  ct_Privileged : option bool;
  ct_Capabilities : list string;              (* those added *)
  ct_Env : list EnvVar }.

Record PodSpec := mkPodSpec {
  ps_HostIPC : bool;
  ps_HostPID : bool;
  ps_HostNetwork : bool;
  ps_DNSPolicy : string;
  ps_Affinity : Affinity;
  ps_Tolerations : list Toleration;
  ps_RestartPolicy : string;
  ps_Volumes : list Volume;
  ps_ServiceAccountName : string;
  ps_Containers : list Container }.

Record JobSpec := mkJobSpec {
  js_BackoffLimit : option Z;
  js_TTLSecondsAfterFinished : option Z;
  js_ActiveDeadlineSeconds : option Z;
  js_TemplateLabels : gomap string;
  js_PodSpec : PodSpec }.

Record JobStatus := mkJobStatus {
  jst_CompletionTime : option Z;
  jst_Conditions : list Condition;
  jst_Active : Z;
  jst_Failed : Z;
  jst_Succeeded : Z }.

Record Job := mkJob { job_meta : ObjectMeta; job_spec : JobSpec; job_status : JobStatus }.

Definition job_Name (j : Job) : string := om_Name (job_meta j).
Definition job_Labels (j : Job) : gomap string := om_Labels (job_meta j).
Definition job_set_meta (m : ObjectMeta) (j : Job) : Job :=
  mkJob m (job_spec j) (job_status j).

Definition jobStatus0 : JobStatus := mkJobStatus None [] 0 0 0.

Definition JobComplete : string := "Complete".
Definition JobFailed : string := "Failed".

(** [condition.Cond(JobComplete).IsTrue(job)] and its like. *)
Definition jobCondIsTrue (name : string) (j : Job) : bool :=
  Cond.IsTrue (jst_Conditions (job_status j)) name.

#[export] Instance SelectorRequirement_eq : EqDecision SelectorRequirement.
Proof. solve_decision. Defined.
#[export] Instance PodAffinityTerm_eq : EqDecision PodAffinityTerm.
Proof. solve_decision. Defined.
#[export] Instance Affinity_eq : EqDecision Affinity.
Proof. solve_decision. Defined.
#[export] Instance Toleration_eq : EqDecision Toleration.
Proof. solve_decision. Defined.
#[export] Instance VolumeSource_eq : EqDecision VolumeSource.
Proof. solve_decision. Defined.
#[export] Instance Volume_eq : EqDecision Volume.
Proof. solve_decision. Defined.
#[export] Instance EnvVar_eq : EqDecision EnvVar.
Proof. solve_decision. Defined.
#[export] Instance Container_eq : EqDecision Container.
Proof. solve_decision. Defined.
#[export] Instance PodSpec_eq : EqDecision PodSpec.
Proof. solve_decision. Defined.
#[export] Instance JobSpec_eq : EqDecision JobSpec.
Proof. solve_decision. Defined.
#[export] Instance JobStatus_eq : EqDecision JobStatus.
Proof. solve_decision. Defined.
#[export] Instance Job_eq : EqDecision Job.
Proof. solve_decision. Defined.
