(* ===== verification/NodeUtil.v ===== *)
(** [pkg/util/node.go], the condition helpers of [pkg/util/maintain.go] and the
    drain intent of [pkg/util/drainhelper/intent.go]: predicates on nodes,
    node conditions and the maintenance-mode condition. *)

From S2P Require Import Prelude K8s.

Local Open Scope Z_scope.

(** ** Label and annotation keys ([pkg/util/constants.go], [pkg/util/node.go]) *)

Definition HarvesterWitnessNodeLabelKey : string := "node-role.harvesterhci.io/witness".
Definition HarvesterMgmtNodeLabelKey : string := "node-role.harvesterhci.io/management".
Definition HarvesterWorkerNodeLabelKey : string := "node-role.harvesterhci.io/worker".
Definition HarvesterManagedNodeLabelKey : string := "harvesterhci.io/managed".
Definition HarvesterPromoteNodeLabelKey : string := "harvesterhci.io/promote-node".
Definition HarvesterPromoteStatusAnnotationKey : string := "harvesterhci.io/promote-status".
Definition HarvesterInstallCordonedLabel : string := "harvesterhci.io/install-cordoned".
Definition HarvesterInstallCordonedProcessedAnnotation : string :=
  "harvesterhci.io/install-cordoned-processed".
Definition KubeMasterNodeLabelKey : string := "node-role.kubernetes.io/master".
Definition KubeControlPlaneNodeLabelKey : string := "node-role.kubernetes.io/control-plane".
Definition KubeEtcdNodeLabelKey : string := "node-role.kubernetes.io/etcd".

Definition PromoteStatusComplete : string := "complete".
Definition PromoteStatusRunning : string := "running".
Definition PromoteStatusUnknown : string := "unknown".
Definition PromoteStatusFailed : string := "failed".

(** ** [pkg/util/node.go] *)

Definition ExcludeWitnessNodes (nodes : list Node) : list Node :=
  List.filter (fun n => negb (gm_has (node_Labels n) HarvesterWitnessNodeLabelKey)) nodes.

Definition IsPromoteStatusIn (node : Node) (statuses : list string) : bool :=
  match gm_get (node_Annotations node) HarvesterPromoteStatusAnnotationKey with
  | None => false
  | Some status => existsb (fun s => String.eqb status s) statuses
  end.

(** The loop over [node.Status.Conditions]. *)
Fixpoint healthyConditions (cs : list NodeCondition) : bool :=
  match cs with
  | [] => true
  | c :: cs =>
      if String.eqb (nc_Type c) NodeReady && negb (String.eqb (nc_Status c) ConditionTrue)
      then false
      else if negb (String.eqb (nc_Type c) NodeReady)
              && String.eqb (nc_Status c) ConditionTrue
      then false
      else healthyConditions cs
  end.

Definition IsHealthyNode (node : Node) : bool := healthyConditions (node_Conditions node).

Definition IsWitnessNodeWithoutPromotionStatus (node : Node) : bool :=
  match gm_get (node_Labels node) HarvesterWitnessNodeLabelKey with
  | Some v => String.eqb v "true"
  | None => false
  end.

Definition IsWitnessNode (node : Node) (isManagement : bool) : bool :=
  if negb (gm_has (node_Labels node) HarvesterWitnessNodeLabelKey) then false
  else if isManagement
          || IsPromoteStatusIn node [PromoteStatusComplete; PromoteStatusRunning;
                                     PromoteStatusFailed; PromoteStatusUnknown]
  then true
  else false.

Definition IsManagementRole (node : Node) : bool :=
  match gm_get (node_Labels node) KubeMasterNodeLabelKey with
  | Some v => String.eqb v "true"
  | None =>
      match gm_get (node_Labels node) KubeControlPlaneNodeLabelKey with
      | Some v => String.eqb v "true"
      | None =>
          match gm_get (node_Labels node) KubeEtcdNodeLabelKey with
          | Some v => String.eqb v "true"
          | None => false
          end
      end
  end.

(** [FindNodeStatusCondition] returns a pointer to a copy: an option of a value. *)
Fixpoint FindNodeStatusCondition (cs : list NodeCondition) (conditionType : string)
  : option NodeCondition :=
  match cs with
  | [] => None
  | c :: cs => if String.eqb (nc_Type c) conditionType then Some c
               else FindNodeStatusCondition cs conditionType
  end.

(** [SetNodeStatusCondition]: the first condition of the type is taken as the
    base and every condition of that type is overwritten with it. *)
Definition SetNodeStatusCondition (now : Z) (node : Node)
    (condType status reason message : string) : Node :=
  match FindNodeStatusCondition (node_Conditions node) condType with
  | None =>
      node_set_Conditions
        (node_Conditions node ++ [mkNodeCond condType status now now reason message]) node
  | Some c =>
      let ltt := if negb (String.eqb (nc_Status c) status) then now
                 else nc_LastTransitionTime c in
      let cond := mkNodeCond (nc_Type c) status ltt now reason message in
      node_set_Conditions
        (map (fun c' => if String.eqb (nc_Type c') condType then cond else c')
             (node_Conditions node)) node
  end.

(** ** The maintenance-mode condition ([pkg/util/maintain.go]) *)

Definition NodeConditionTypeMaintenanceMode : string := "MaintenanceMode".
Definition NodeConditionReasonValidating : string := "Validating".
Definition NodeConditionReasonDraining : string := "Draining".
Definition NodeConditionReasonEvacuating : string := "Evacuating".
Definition NodeConditionReasonCompleted : string := "Completed".
Definition NodeConditionReasonError : string := "Error".

Definition GetMaintenanceModeCondition (node : option Node) : option NodeCondition :=
  match node with
  | None => None
  | Some n => FindNodeStatusCondition (node_Conditions n) NodeConditionTypeMaintenanceMode
  end.

Definition IsMaintenanceModeCondition (c : option NodeCondition) (status : string)
    (reasons : list string) : bool :=
  match c with
  | None => false
  | Some c => String.eqb (nc_Status c) status && str_in (nc_Reason c) reasons
  end.

Definition IsMaintenanceModePhase (node : option Node) (status : string)
    (reasons : list string) : bool :=
  IsMaintenanceModeCondition (GetMaintenanceModeCondition node) status reasons.

Definition IsMaintenanceModeEngaged (node : option Node) : bool :=
  match GetMaintenanceModeCondition node with
  | None => false
  | Some c => String.eqb (nc_Status c) ConditionTrue
  end.

Definition IsMaintenanceModeError (c : option NodeCondition) : bool :=
  match c with
  | None => false
  | Some c => String.eqb (nc_Reason c) NodeConditionReasonError
  end.

Definition CanDisableMaintenanceMode (c : option NodeCondition) : bool :=
  IsMaintenanceModeCondition c ConditionTrue
    [NodeConditionReasonEvacuating; NodeConditionReasonCompleted; NodeConditionReasonError].

Definition CanNodeDisableMaintenanceMode (node : option Node) : bool :=
  CanDisableMaintenanceMode (GetMaintenanceModeCondition node).

Definition IsMaintenanceModeDrainComplete (c : option NodeCondition) : bool :=
  IsMaintenanceModeCondition c ConditionTrue
    [NodeConditionReasonEvacuating; NodeConditionReasonCompleted].

Definition IsNodeMaintenanceModeDrainComplete (node : option Node) : bool :=
  IsMaintenanceModeDrainComplete (GetMaintenanceModeCondition node).

(** The loop of [SetMaintenanceModeCondition]: the first maintenance condition
    is updated in place and ends the loop; without one, a new condition is
    appended.  The flag is the function's result. *)
Fixpoint setMaintenanceConds (now : Z) (status reason message : string)
    (cs : list NodeCondition) : list NodeCondition * bool :=
  match cs with
  | [] => ([mkNodeCond NodeConditionTypeMaintenanceMode status now now reason message], true)
  | c :: cs =>
      if negb (String.eqb (nc_Type c) NodeConditionTypeMaintenanceMode)
      then let '(cs', b) := setMaintenanceConds now status reason message cs in (c :: cs', b)
      else if String.eqb (nc_Status c) status && String.eqb (nc_Reason c) reason
              && String.eqb (nc_Message c) message
      then (c :: cs, false)
      else
        let ltt := if negb (String.eqb (nc_Status c) status)
                      || negb (String.eqb (nc_Reason c) reason)
                   then now else nc_LastTransitionTime c in
        (mkNodeCond (nc_Type c) status ltt now reason message :: cs, true)
  end.

Definition SetMaintenanceModeCondition (now : Z) (node : Node)
    (status reason message : string) : Node * bool :=
  let '(cs, b) := setMaintenanceConds now status reason message (node_Conditions node) in
  (node_set_Conditions cs node, b).

Definition RemoveMaintenanceModeCondition (node : Node) : Node * bool :=
  let conditions :=
    List.filter (fun c => negb (String.eqb (nc_Type c) NodeConditionTypeMaintenanceMode))
                (node_Conditions node) in
  if Nat.eqb (length conditions) (length (node_Conditions node)) then (node, false)
  else (node_set_Conditions conditions node, true).

(** [IsOtherNodeAvailable] of [pkg/util/node.go], which asks for maintenance mode. *)
Fixpoint IsOtherNodeAvailable (nodeName : string) (nodeList : list Node) : bool :=
  match nodeList with
  | [] => false
  | n :: ns =>
      if String.eqb (node_Name n) nodeName then IsOtherNodeAvailable nodeName ns
      else if negb (IsMaintenanceModeEngaged (Some n)) && negb (node_Unschedulable n)
      then true
      else IsOtherNodeAvailable nodeName ns
  end.

Fixpoint CountNonWitnessHealthyNodes (nodes : list Node) : nat :=
  match nodes with
  | [] => 0
  | n :: ns =>
      if negb (IsWitnessNodeWithoutPromotionStatus n) && IsHealthyNode n
      then S (CountNonWitnessHealthyNodes ns)
      else CountNonWitnessHealthyNodes ns
  end.

(** ** Drain intent ([pkg/util/drainhelper/intent.go]) *)

Definition DrainAnnotation : string := "harvesterhci.io/drain-requested".
Definition ForcedDrain : string := "harvesterhci.io/drain-forced".

Definition HasDrainRequest (node : option Node) : bool :=
  match node with
  | None => false
  | Some n => negb (String.eqb (gm_str (node_Annotations n) DrainAnnotation) "")
  end.

Definition IsForcedDrainRequested (node : option Node) : bool :=
  match node with
  | None => false
  | Some n => negb (String.eqb (gm_str (node_Annotations n) ForcedDrain) "")
  end.

Definition SetDrainRequest (node : option Node) (forced : bool) : option Node :=
  match node with
  | None => None
  | Some n =>
      let a := gm_set (node_Annotations n) DrainAnnotation "true" in
      Some (node_set_Annotations
        (if forced then gm_set a ForcedDrain "true" else gm_delete a ForcedDrain) n)
  end.

Definition ClearDrainRequest (node : option Node) : option Node * bool :=
  match node with
  | None => (None, false)
  | Some n =>
      match node_Annotations n with
      | None => (Some n, false)
      | Some _ =>
          let initialLen := gm_len (node_Annotations n) in
          let a := gm_delete (gm_delete (node_Annotations n) DrainAnnotation) ForcedDrain in
          (Some (node_set_Annotations a n), negb (Nat.eqb (gm_len a) initialLen))
      end
  end.

(** ** Lemmas *)

(** A node is healthy when Ready, if reported, is True and no other condition is. *)
Lemma IsHealthyNode_spec n :
  IsHealthyNode n = true <->
  forall c, c ∈ node_Conditions n ->
    (nc_Type c = NodeReady <-> nc_Status c = ConditionTrue).
Proof.
  unfold IsHealthyNode. induction (node_Conditions n) as [|c cs IH]; simpl.
  - split; [|done]. intros _ c Hc. set_solver.
  - rewrite list_forall_cons_iff.
    destruct (String.eqb_spec (nc_Type c) NodeReady) as [Et|Et],
             (String.eqb_spec (nc_Status c) ConditionTrue) as [Es|Es]; simpl;
      rewrite ?IH; naive_solver.
Qed.

Lemma FindNodeStatusCondition_in cs ty c :
  FindNodeStatusCondition cs ty = Some c -> c ∈ cs /\ nc_Type c = ty.
Proof.
  induction cs as [|c' cs IH]; simpl; [done|].
  destruct (String.eqb_spec (nc_Type c') ty); intros; simplify_eq; set_solver.
Qed.

Lemma IsOtherNodeAvailable_spec name l :
  IsOtherNodeAvailable name l = true <->
  exists n, n ∈ l /\ node_Name n <> name /\ IsMaintenanceModeEngaged (Some n) = false
            /\ node_Unschedulable n = false.
Proof.
  induction l as [|n l IH]; cbn [IsOtherNodeAvailable].
  - split; [done|]. intros (n & H & _). set_solver.
  - rewrite list_exists_cons_iff.
    destruct (String.eqb_spec (node_Name n) name) as [E|E]; [naive_solver|].
    destruct (IsMaintenanceModeEngaged (Some n)), (node_Unschedulable n); naive_solver.
Qed.

(** The node the write is for keeps everything but its maintenance condition. *)
Lemma setMaintenanceConds_find now st re msg cs cs' b :
  setMaintenanceConds now st re msg cs = (cs', b) ->
  exists c, FindNodeStatusCondition cs' NodeConditionTypeMaintenanceMode = Some c /\
            nc_Status c = st /\ nc_Reason c = re /\ nc_Message c = msg.
Proof.
  revert cs' b. induction cs as [|c cs IH]; intros cs' b; simpl.
  - intros; simplify_eq/=. eauto.
  - destruct (String.eqb_spec (nc_Type c) NodeConditionTypeMaintenanceMode) as [E|E]; simpl.
    + destruct (_ && _ && _) eqn:Es; intros; simplify_eq; simpl; rewrite E; simpl; [|by eauto].
      boolify. eauto.
    + destruct (setMaintenanceConds _ _ _ _ cs) as [cs0 b0]; intros; simplify_eq; simpl.
      destruct (String.eqb_spec (nc_Type c) NodeConditionTypeMaintenanceMode); [done|eauto].
Qed.

Lemma setMaintenanceConds_others now st re msg cs cs' b :
  setMaintenanceConds now st re msg cs = (cs', b) ->
  List.filter (fun c => negb (String.eqb (nc_Type c) NodeConditionTypeMaintenanceMode)) cs' =
  List.filter (fun c => negb (String.eqb (nc_Type c) NodeConditionTypeMaintenanceMode)) cs.
Proof.
  revert cs' b. induction cs as [|c cs IH]; intros cs' b; simpl.
  - intros; simplify_eq/=. done.
  - destruct (String.eqb_spec (nc_Type c) NodeConditionTypeMaintenanceMode) as [E|E]; simpl.
    + destruct (_ && _ && _); intros; simplify_eq; simpl; rewrite E; done.
    + destruct (setMaintenanceConds _ _ _ _ cs) as [cs0 b0]; intros; simplify_eq; simpl.
      destruct (String.eqb_spec (nc_Type c) NodeConditionTypeMaintenanceMode); [done|].
      simpl. f_equal. eauto.
Qed.

Lemma setMaintenanceConds_stable now st re msg cs cs' :
  setMaintenanceConds now st re msg cs = (cs', false) -> cs' = cs.
Proof.
  revert cs'. induction cs as [|c cs IH]; intros cs'; simpl; [done|].
  destruct (negb _).
  - destruct (setMaintenanceConds _ _ _ _ cs) as [cs0 b0]; intros; simplify_eq.
    f_equal. eauto.
  - destruct (_ && _ && _); intros; by simplify_eq.
Qed.

Lemma setMaintenanceConds_again now now' st re msg cs cs' b :
  setMaintenanceConds now st re msg cs = (cs', b) ->
  setMaintenanceConds now' st re msg cs' = (cs', false).
Proof.
  revert cs' b. induction cs as [|c cs IH]; intros cs' b; simpl.
  - intros; simplify_eq/=. by rewrite !String.eqb_refl.
  - destruct (negb (String.eqb (nc_Type c) _)) eqn:E.
    + destruct (setMaintenanceConds now _ _ _ cs) as [cs0 b0]; intros; simplify_eq; simpl.
      rewrite E. by rewrite (IH _ _ eq_refl).
    + destruct (_ && _ && _) eqn:Es; intros; simplify_eq; simpl; rewrite E; simpl.
      * by rewrite Es.
      * by rewrite !String.eqb_refl.
Qed.

Lemma find_filter_maintenance cs :
  FindNodeStatusCondition
    (List.filter (fun c => negb (String.eqb (nc_Type c) NodeConditionTypeMaintenanceMode)) cs)
    NodeConditionTypeMaintenanceMode = None.
Proof.
  induction cs as [|c cs IH]; simpl; [done|].
  destruct (String.eqb (nc_Type c) _) eqn:E; simpl; [done|]. by rewrite E.
Qed.

Lemma filter_length_id {A} (p : A -> bool) l :
  length (List.filter p l) = length l -> List.filter p l = l.
Proof.
  induction l as [|x l IH]; simpl; [done|].
  pose proof (List.filter_length_le p l). destruct (p x); simpl; intros; [f_equal; auto|lia].
Qed.

Lemma node_set_Conditions_id n : node_set_Conditions (node_Conditions n) n = n.
Proof. by destruct n. Qed.

Definition notMaintenance (c : NodeCondition) : bool :=
  negb (String.eqb (nc_Type c) NodeConditionTypeMaintenanceMode).

(** ** Properties *)

(** Writing the maintenance-mode condition is what a reader then sees, whatever
    was there before; every other condition keeps its place and content; the
    result says false only when nothing changed; and repeating the write, at any
    later time, changes nothing and says so. *)
Theorem SetMaintenanceModeCondition_spec now now' node st re msg :
  let r := SetMaintenanceModeCondition now node st re msg in
  (exists c, GetMaintenanceModeCondition (Some r.1) = Some c /\
     nc_Status c = st /\ nc_Reason c = re /\ nc_Message c = msg) /\
  List.filter notMaintenance (node_Conditions r.1) =
    List.filter notMaintenance (node_Conditions node) /\
  (r.2 = false -> r.1 = node) /\
  SetMaintenanceModeCondition now' r.1 st re msg = (r.1, false).
Proof.
  unfold SetMaintenanceModeCondition. simpl.
  destruct (setMaintenanceConds now st re msg (node_Conditions node)) as [cs b] eqn:E. simpl.
  split_and!.
  - by eapply setMaintenanceConds_find.
  - by eapply setMaintenanceConds_others.
  - intros ->. apply setMaintenanceConds_stable in E as ->. apply node_set_Conditions_id.
  - by rewrite (setMaintenanceConds_again _ now' _ _ _ _ _ _ E).
Qed.

(** Removing the maintenance-mode condition leaves none to be found (also when
    several were present), leaves the other conditions alone, and reports true
    exactly when there was one. *)
Theorem RemoveMaintenanceModeCondition_spec node :
  let r := RemoveMaintenanceModeCondition node in
  GetMaintenanceModeCondition (Some r.1) = None /\
  node_Conditions r.1 = List.filter notMaintenance (node_Conditions node) /\
  (r.2 = true <-> is_Some (GetMaintenanceModeCondition (Some node))).
Proof.
  assert (Hiff : length (List.filter notMaintenance (node_Conditions node))
                   = length (node_Conditions node) <->
                 GetMaintenanceModeCondition (Some node) = None).
  { unfold GetMaintenanceModeCondition. split.
    - intros <-%filter_length_id. apply find_filter_maintenance.
    - unfold notMaintenance. induction (node_Conditions node) as [|c cs IH]; simpl; [done|].
      destruct (String.eqb (nc_Type c) _); simpl; [done|]. intros; f_equal; auto. }
  unfold RemoveMaintenanceModeCondition. fold notMaintenance. simpl.
  destruct (Nat.eqb_spec (length (List.filter notMaintenance (node_Conditions node)))
              (length (node_Conditions node))) as [E|E]; simpl.
  - rewrite (filter_length_id _ _ E). apply Hiff in E. simpl in E. rewrite E. by split_and!; [..|split; [|intros [??]]].
  - split_and!; [apply find_filter_maintenance|done|]. split; [intros _|done].
    apply not_eq_None_Some. intros H. apply E, Hiff, H.
Qed.

(** A node whose maintenance mode is engaged never counts as healthy, so the
    promotion and the count of storage nodes leave it out. *)
Theorem IsMaintenanceModeEngaged_unhealthy n :
  IsMaintenanceModeEngaged (Some n) = true -> IsHealthyNode n = false.
Proof.
  unfold IsMaintenanceModeEngaged, GetMaintenanceModeCondition. intros H.
  destruct (FindNodeStatusCondition _ _) as [c|] eqn:E; [|done]. boolify.
  apply FindNodeStatusCondition_in in E as [Hin Ht].
  apply not_true_iff_false. rewrite IsHealthyNode_spec. intros Hall.
  apply (Hall c Hin) in H. rewrite Ht in H. done.
Qed.

Lemma IsMaintenanceModeEngaged_unhealthy_witness :
  let n := mkNode (meta0 "" "n") "Node" "v1" true []
             [mkNodeCond NodeConditionTypeMaintenanceMode ConditionTrue 0 0
                NodeConditionReasonDraining ""] "" in
  IsMaintenanceModeEngaged (Some n) = true /\ IsHealthyNode n = false.
Proof.
  split; [reflexivity|]. apply IsMaintenanceModeEngaged_unhealthy. reflexivity.
Defined.

(** A drain request round-trips: after [SetDrainRequest] the request and its
    force flag are read back as given, and after [ClearDrainRequest] neither is
    seen; clearing reports true exactly when one of the two keys was present. *)
Theorem drain_request_roundtrip n forced :
  HasDrainRequest (SetDrainRequest (Some n) forced) = true /\
  IsForcedDrainRequested (SetDrainRequest (Some n) forced) = forced /\
  HasDrainRequest (ClearDrainRequest (Some n)).1 = false /\
  IsForcedDrainRequested (ClearDrainRequest (Some n)).1 = false /\
  ((ClearDrainRequest (Some n)).2 = true <->
   gm_has (node_Annotations n) DrainAnnotation = true \/
   gm_has (node_Annotations n) ForcedDrain = true).
Proof.
  split_and!.
  - simpl. unfold node_Annotations at 1, gm_str. simpl. destruct forced.
    + by rewrite gm_get_set_ne, gm_get_set_eq.
    + by rewrite gm_get_delete_ne, gm_get_set_eq.
  - simpl. unfold node_Annotations at 1, gm_str. simpl. destruct forced.
    + by rewrite gm_get_set_eq.
    + by rewrite gm_get_delete_eq.
  - unfold ClearDrainRequest. destruct (node_Annotations n) as [g|] eqn:E; simpl.
    + unfold node_Annotations, gm_str. simpl. rewrite lookup_delete_ne by done.
      by rewrite lookup_delete_eq.
    + unfold gm_str. by rewrite E.
  - unfold ClearDrainRequest. destruct (node_Annotations n) as [g|] eqn:E; simpl.
    + unfold node_Annotations, gm_str. simpl. by rewrite lookup_delete_eq.
    + unfold gm_str. by rewrite E.
  - unfold ClearDrainRequest. destruct (node_Annotations n) as [g|] eqn:E; cbn [snd].
    + rewrite negb_true_iff, Nat.eqb_neq, !gm_len_delete.
      assert (Hd : gm_has (gm_delete (Some g) DrainAnnotation) ForcedDrain
                   = gm_has (Some g) ForcedDrain).
      { unfold gm_has. by rewrite gm_get_delete_ne. }
      rewrite Hd. pose proof (gm_len_has (Some g) DrainAnnotation).
      pose proof (gm_len_has (Some g) ForcedDrain).
      destruct (gm_has (Some g) DrainAnnotation), (gm_has (Some g) ForcedDrain); intuition lia.
    + unfold gm_has. simpl. intuition done.
Qed.
