(* ===== verification/Upgrade.v ===== *)
(** The Upgrade resource ([pkg/apis/harvesterhci.io/v1beta1/upgrade.go]), the
    functions of [pkg/controller/master/upgrade/common.go] and
    [upgrade_controller.go] that keep its status, and [pkg/util/upgrade.go].

    The state of an upgrade is a label, a list of conditions and a state per
    node.  Every controller of the upgrade writes it through the functions of
    this file, so what they keep to is stated here: when nodes count as upgraded,
    when the upgrade has completed or failed, and that it does not change its
    mind ([settled]). *)

From S2P Require Import Prelude K8s NodeUtil.

(** ** The resource *)

Record NodeUpgradeStatus := mkNodeStatus {
  nus_State : string; nus_Reason : string; nus_Message : string }.

Record UpgradeSpec := mkUpgradeSpec {
  us_Version : string; us_Image : string; us_LogEnabled : bool; us_UpgradeImage : option string }.

Record UpgradeStatus := mkUpgradeStatus {
  ust_PreviousVersion : string;
  ust_ImageID : string;
  ust_RepoInfo : string;
  ust_SingleNode : string;
  ust_NodeStatuses : gomap NodeUpgradeStatus;
  ust_Conditions : list Condition;
  ust_UpgradeLog : string }.

Record Upgrade := mkUpgrade {
  up_meta : ObjectMeta;
  up_Kind : string;
  up_APIVersion : string;
  up_spec : UpgradeSpec;
  up_status : UpgradeStatus }.

#[export] Instance NodeUpgradeStatus_eq : EqDecision NodeUpgradeStatus.
Proof. solve_decision. Defined.
#[export] Instance UpgradeSpec_eq : EqDecision UpgradeSpec.
Proof. solve_decision. Defined.
#[export] Instance UpgradeStatus_eq : EqDecision UpgradeStatus.
Proof. solve_decision. Defined.
#[export] Instance Upgrade_eq : EqDecision Upgrade.
Proof. solve_decision. Defined.

Definition up_Name (u : Upgrade) : string := om_Name (up_meta u).
Definition up_Namespace (u : Upgrade) : string := om_Namespace (up_meta u).
Definition up_Labels (u : Upgrade) : gomap string := om_Labels (up_meta u).
Definition up_Annotations (u : Upgrade) : gomap string := om_Annotations (up_meta u).
Definition up_Conditions (u : Upgrade) : list Condition := ust_Conditions (up_status u).
Definition up_NodeStatuses (u : Upgrade) : gomap NodeUpgradeStatus :=
  ust_NodeStatuses (up_status u).
Definition up_SingleNode (u : Upgrade) : string := ust_SingleNode (up_status u).

Definition up_set_meta (m : ObjectMeta) (u : Upgrade) : Upgrade :=
  mkUpgrade m (up_Kind u) (up_APIVersion u) (up_spec u) (up_status u).
Definition up_set_Labels (l : gomap string) (u : Upgrade) : Upgrade :=
  up_set_meta (set_Labels l (up_meta u)) u.
Definition up_set_Annotations (a : gomap string) (u : Upgrade) : Upgrade :=
  up_set_meta (set_Annotations a (up_meta u)) u.
Definition up_set_status (s : UpgradeStatus) (u : Upgrade) : Upgrade :=
  mkUpgrade (up_meta u) (up_Kind u) (up_APIVersion u) (up_spec u) s.
Definition up_set_Conditions (cs : list Condition) (u : Upgrade) : Upgrade :=
  let s := up_status u in
  up_set_status (mkUpgradeStatus (ust_PreviousVersion s) (ust_ImageID s) (ust_RepoInfo s)
    (ust_SingleNode s) (ust_NodeStatuses s) cs (ust_UpgradeLog s)) u.
Definition up_set_NodeStatuses (m : gomap NodeUpgradeStatus) (u : Upgrade) : Upgrade :=
  let s := up_status u in
  up_set_status (mkUpgradeStatus (ust_PreviousVersion s) (ust_ImageID s) (ust_RepoInfo s)
    (ust_SingleNode s) m (ust_Conditions s) (ust_UpgradeLog s)) u.

(** An upgrade as a user creates it. *)
Definition upgrade0 (m : ObjectMeta) (spec : UpgradeSpec) : Upgrade :=
  mkUpgrade m "Upgrade" "harvesterhci.io/v1beta1" spec
    (mkUpgradeStatus "" "" "" "" None [] "").

(** ** Constants *)

Definition UpgradeCompleted : string := "Completed".
Definition LogReady : string := "LogReady".
Definition ImageReady : string := "ImageReady".
Definition RepoProvisioned : string := "RepoReady".
Definition NodesPrepared : string := "NodesPrepared".
Definition NodesUpgraded : string := "NodesUpgraded".
Definition SystemServicesUpgraded : string := "SystemServicesUpgraded".

Definition StatePreparingLoggingInfra : string := "PreparingLoggingInfra".
Definition StateLoggingInfraPrepared : string := "LoggingInfraPrepared".
Definition StatePreparingRepo : string := "PreparingRepo".
Definition StateRepoPrepared : string := "RepoPrepared".
Definition StatePreparingNodes : string := "PreparingNodes".
Definition StateUpgradingSystemServices : string := "UpgradingSystemServices".
Definition StateUpgradingNodes : string := "UpgradingNodes".
Definition StateSucceeded : string := "Succeeded".
Definition StateFailed : string := "Failed".
Definition StatePending : string := "Pending".

Definition nodeStateImagesPreloading : string := "Images preloading".
Definition nodeStateImagesPreloaded : string := "Images preloaded".
Definition nodeStateUpgradePaused : string := "Node-upgrade paused".
Definition nodeStatePreDraining : string := "Pre-draining".
Definition nodeStatePreDrained : string := "Pre-drained".
Definition nodeStatePostDraining : string := "Post-draining".
Definition nodeStateWaitingReboot : string := "Waiting Reboot".

Definition upgradeStateLabel : string := "harvesterhci.io/upgradeState".
Definition upgradeCleanupLabel : string := "harvesterhci.io/upgradeCleanup".
Definition harvesterUpgradeLabel : string := "harvesterhci.io/upgrade".
Definition harvesterUpgradeComponentLabel : string := "harvesterhci.io/upgradeComponent".
Definition harvesterLatestUpgradeLabel : string := "harvesterhci.io/latestUpgrade".

Definition AnnotationPreviousUpgradeImage : string := "harvesterhci.io/previous-upgrade-image".
Definition AnnotationNodeUpgradePauseMap : string := "harvesterhci.io/node-upgrade-pause-map".
Definition NodePause : string := "pause".
Definition NodeUnpause : string := "unpause".
Definition HarvesterUpgradeImageRepository : string := "rancher/harvester-upgrade".

(** ** [pkg/util/upgrade.go] and the image of the resource *)

Definition GetHarvesterUpgradeImage (registry version : string) : string :=
  if negb (String.eqb registry "")
  then registry +:+ "/harvester/harvester-upgrade:" +:+ version
  else HarvesterUpgradeImageRepository +:+ ":" +:+ version.

Definition GetPreviousUpgradeImage (upgrade : Upgrade) : string :=
  let image := gm_str (up_Annotations upgrade) AnnotationPreviousUpgradeImage in
  if negb (String.eqb image "") then image
  else GetHarvesterUpgradeImage "" (ust_PreviousVersion (up_status upgrade)).

Definition IsUpgradeInProgress (upgrade : option Upgrade) : bool :=
  match upgrade with
  | None => false
  | Some u => negb (Cond.IsTrue (up_Conditions u) UpgradeCompleted)
              && negb (Cond.IsFalse (up_Conditions u) UpgradeCompleted)
  end.

Definition GetUpgradeImage (u : Upgrade) (defaultImage : string) : string :=
  default defaultImage (us_UpgradeImage (up_spec u)).

(** ** Reading the status *)

(** [upgrade.Labels[upgradeStateLabel]] *)
Definition stateOf (u : Upgrade) : string := gm_str (up_Labels u) upgradeStateLabel.

(** [upgrade.Status.NodeStatuses[nodeName].State]: the zero value when absent. *)
Definition nodeState (u : Upgrade) (nodeName : string) : string :=
  match gm_get (up_NodeStatuses u) nodeName with
  | Some st => nus_State st
  | None => ""
  end.

Definition condStatus (u : Upgrade) (name : string) : string :=
  Cond.getStatus (up_Conditions u) name.

Definition condIs (status : string) (u : Upgrade) (name : string) : bool :=
  String.eqb (Cond.getStatus (up_Conditions u) name) status.
Abbreviation condTrue := (condIs ConditionTrue) (only parsing).
Abbreviation condFalse := (condIs ConditionFalse) (only parsing).
Abbreviation condUnknown := (condIs ConditionUnknown) (only parsing).

(** [json.Unmarshal] of the pause map: [null] is a nil map. *)
Section Pause.
Context `{!JsonCodec (gomap string)}.

Definition getNodeUpgradePauseMap (upgrade : Upgrade) : outcome (gomap string) :=
  match gm_get (up_Annotations upgrade) AnnotationNodeUpgradePauseMap with
  | None => Ok None
  | Some value =>
      match json_unmarshal value with
      | Some pauseMap => Ok pauseMap
      | None => Err (ErrWrap "failed to unmarshal node upgrade pause map" (ErrText value))
      end
  end.

Definition shouldPauseNodeUpgrade (upgrade : Upgrade) (nodeName : string) : bool :=
  match getNodeUpgradePauseMap upgrade with
  | Ok (Some m) => String.eqb (default "" (m !! nodeName)) NodePause
  | _ => false
  end.
End Pause.

(** ** Writing the status

    [now] is the time stamp of a condition that changes. *)
Section Write.
Context (now : string).

Definition setStatus (name status : string) (u : Upgrade) : Upgrade :=
  up_set_Conditions (Cond.setStatus now status (up_Conditions u) name) u.

(** [SetStatus], [Reason] and [Message] of one condition. *)
Definition setCond (name status reason message : string) (u : Upgrade) : Upgrade :=
  up_set_Conditions
    (Cond.setMessage now message
       (Cond.setReason reason (Cond.setStatus now status (up_Conditions u) name) name) name) u.

(** [CreateUnknownIfNotExists] *)
Definition createUnknown (name : string) (u : Upgrade) : Upgrade :=
  match Cond.findCond (up_Conditions u) name with
  | Some _ => u
  | None => setStatus name ConditionUnknown u
  end.

Definition setLabel (k v : string) (u : Upgrade) : Upgrade :=
  up_set_Labels (gm_set (up_Labels u) k v) u.

(** The two tests of [markComplete]: an upgrade fails when one of four conditions is False, and has succeeded when both
    halves of it are done. *)
Definition anyFailed (u : Upgrade) : bool :=
  condFalse u ImageReady || condFalse u RepoProvisioned
  || condFalse u SystemServicesUpgraded || condFalse u NodesUpgraded.
Definition bothDone (u : Upgrade) : bool :=
  condTrue u SystemServicesUpgraded && condTrue u NodesUpgraded.

Definition markComplete (upgrade : Upgrade) : Upgrade :=
  let upgrade := up_set_Labels (Some (default ∅ (up_Labels upgrade))) upgrade in
  let upgrade :=
    if bothDone upgrade
    then setLabel upgradeCleanupLabel StatePending
           (setLabel upgradeStateLabel StateSucceeded
              (setStatus UpgradeCompleted ConditionTrue upgrade))
    else upgrade in
  if anyFailed upgrade
  then setLabel upgradeCleanupLabel StatePending
         (setLabel upgradeStateLabel StateFailed
            (setStatus UpgradeCompleted ConditionFalse upgrade))
  else upgrade.

Definition setConditionAndMark (name status reason message : string) (upgrade : Upgrade)
  : Upgrade := markComplete (setCond name status reason message upgrade).

Definition setLogReadyCondition := setConditionAndMark LogReady.
Definition setImageReadyCondition := setConditionAndMark ImageReady.
Definition setRepoProvisionedCondition := setConditionAndMark RepoProvisioned.
Definition setNodesPreparedCondition := setConditionAndMark NodesPrepared.
Definition setNodesUpgradedCondition := setConditionAndMark NodesUpgraded.

(** The label is written without a check for a nil map. *)
Definition setUpgradeCompletedCondition (state status reason message : string)
    (upgrade : Upgrade) : outcome Upgrade :=
  labels ← gm_store (up_Labels upgrade) upgradeStateLabel state;
  Ok (setCond UpgradeCompleted status reason message (up_set_Labels labels upgrade)).

Definition setHelmChartUpgradeStatus (status reason message : string) (upgrade : Upgrade)
  : Upgrade :=
  if condTrue upgrade SystemServicesUpgraded || condFalse upgrade SystemServicesUpgraded
  then upgrade
  else setConditionAndMark SystemServicesUpgraded status reason message upgrade.

(** The loop over the node statuses: has every node succeeded? *)
Definition allSucceeded (m : gomap NodeUpgradeStatus) : bool :=
  forallb (fun '(_, st) => String.eqb (nus_State st) StateSucceeded)
    (map_to_list (default ∅ m)).

(** The callers never pass a nil upgrade. *)
Definition setNodeUpgradeStatus (nodeName state reason message : string) (upgrade : Upgrade)
  : Upgrade :=
  let upgrade := up_set_NodeStatuses (Some (default ∅ (up_NodeStatuses upgrade))) upgrade in
  let st := mkNodeStatus state reason message in
  if bool_decide (gm_get (up_NodeStatuses upgrade) nodeName = Some st) then upgrade
  else
    let upgrade := up_set_NodeStatuses (gm_set (up_NodeStatuses upgrade) nodeName st) upgrade in
    if String.eqb state StateFailed then
      setNodesUpgradedCondition ConditionFalse reason message upgrade
    else if String.eqb (stateOf upgrade) StateUpgradingNodes
            && allSucceeded (up_NodeStatuses upgrade)
    then setNodesUpgradedCondition ConditionTrue "" "" upgrade
    else upgrade.
End Write.

(** ** What the writes do *)

(** What they leave alone. *)
Definition identity (u : Upgrade) :=
  (up_Namespace u, up_Name u, om_UID (up_meta u), up_Kind u, up_APIVersion u, up_spec u,
   up_Annotations u, up_SingleNode u, ust_RepoInfo (up_status u),
   ust_PreviousVersion (up_status u), om_DeletionTimestamp (up_meta u)).

Create Rewrite HintDb upgrade.

Section Facts.
Context (now : string).

Lemma status_setStatus name st u name' :
  Cond.getStatus (up_Conditions (setStatus now name st u)) name' =
  if decide (name = name') then st else Cond.getStatus (up_Conditions u) name'.
Proof. apply Cond.getStatus_setStatus. Qed.

Lemma status_setCond name st re msg u name' :
  Cond.getStatus (up_Conditions (setCond now name st re msg u)) name' =
  if decide (name = name') then st else Cond.getStatus (up_Conditions u) name'.
Proof.
  unfold setCond. cbn [up_Conditions up_set_Conditions up_set_status up_status ust_Conditions].
  rewrite Cond.getStatus_setMessage, Cond.getStatus_setReason by (left; eauto with harv).
  apply Cond.getStatus_setStatus.
Qed.

Lemma condIs_setStatus name st u s name' :
  condIs s (setStatus now name st u) name' =
  if decide (name = name') then String.eqb st s else condIs s u name'.
Proof. unfold condIs. rewrite status_setStatus. by case_decide. Qed.

Lemma condIs_setCond name st re msg u s name' :
  condIs s (setCond now name st re msg u) name' =
  if decide (name = name') then String.eqb st s else condIs s u name'.
Proof. unfold condIs. rewrite status_setCond. by case_decide. Qed.

Lemma stateOf_setLabel k v u :
  stateOf (setLabel k v u) = if decide (k = upgradeStateLabel) then v else stateOf u.
Proof.
  unfold stateOf, setLabel, gm_str.
  change (up_Labels (up_set_Labels ?l u)) with l. rewrite gm_get_set. by case_decide.
Qed.

Lemma anyFailed_completed st u : anyFailed (setStatus now UpgradeCompleted st u) = anyFailed u.
Proof. unfold anyFailed. by rewrite !condIs_setStatus. Qed.

(** What [markComplete] decides, on the label and on the condition. *)
Definition verdict {A} (u : Upgrade) (failed succeeded undecided : A) : A :=
  if anyFailed u then failed else if bothDone u then succeeded else undecided.

Lemma markComplete_status u name :
  Cond.getStatus (up_Conditions (markComplete now u)) name =
  if decide (UpgradeCompleted = name)
  then verdict u ConditionFalse ConditionTrue (Cond.getStatus (up_Conditions u) name)
  else Cond.getStatus (up_Conditions u) name.
Proof.
  unfold markComplete, verdict. change (bothDone (up_set_Labels _ u)) with (bothDone u).
  destruct (bothDone u).
  - change (anyFailed (setLabel _ _ (setLabel _ _ (setStatus now UpgradeCompleted ConditionTrue ?v))))
      with (anyFailed (setStatus now UpgradeCompleted ConditionTrue v)).
    rewrite anyFailed_completed. change (anyFailed (up_set_Labels _ u)) with (anyFailed u).
    destruct (anyFailed u);
      repeat (change (up_Conditions (setLabel _ _ ?v)) with (up_Conditions v) ||
              rewrite status_setStatus); by case_decide.
  - change (anyFailed (up_set_Labels _ u)) with (anyFailed u).
    destruct (anyFailed u); [|by case_decide].
    change (up_Conditions (setLabel _ _ (setLabel _ _ ?v))) with (up_Conditions v).
    rewrite status_setStatus. by case_decide.
Qed.

Lemma markComplete_completed s u :
  condIs s (markComplete now u) UpgradeCompleted =
  verdict u (String.eqb ConditionFalse s) (String.eqb ConditionTrue s) (condIs s u UpgradeCompleted).
Proof. unfold condIs. rewrite markComplete_status, decide_True by done. by unfold verdict; repeat case_match. Qed.

Lemma markComplete_others s u name :
  name <> UpgradeCompleted -> condIs s (markComplete now u) name = condIs s u name.
Proof. intros. unfold condIs. by rewrite markComplete_status, decide_False. Qed.

Lemma markComplete_state u : stateOf (markComplete now u) = verdict u StateFailed StateSucceeded (stateOf u).
Proof.
  unfold markComplete, verdict. change (bothDone (up_set_Labels _ u)) with (bothDone u).
  assert (H0 : stateOf (up_set_Labels (Some (default ∅ (up_Labels u))) u) = stateOf u)
    by (unfold stateOf, gm_str; by destruct u as [[? ? ? ? []] ? ? ? ?]).
  destruct (bothDone u).
  - change (anyFailed (setLabel _ _ (setLabel _ _ (setStatus now UpgradeCompleted ConditionTrue ?v))))
      with (anyFailed (setStatus now UpgradeCompleted ConditionTrue v)).
    rewrite anyFailed_completed. change (anyFailed (up_set_Labels _ u)) with (anyFailed u).
    destruct (anyFailed u); by rewrite !stateOf_setLabel.
  - change (anyFailed (up_set_Labels _ u)) with (anyFailed u).
    destruct (anyFailed u); [|done]. by rewrite !stateOf_setLabel.
Qed.

(** It leaves the rest alone, and so do the functions built on it. *)
Lemma markComplete_frame u :
  identity (markComplete now u) = identity u /\
  up_NodeStatuses (markComplete now u) = up_NodeStatuses u.
Proof. unfold markComplete. by repeat case_match. Qed.

Lemma setConditionAndMark_frame name st re msg u :
  identity (setConditionAndMark now name st re msg u) = identity u /\
  up_NodeStatuses (setConditionAndMark now name st re msg u) = up_NodeStatuses u.
Proof. exact (markComplete_frame (setCond now name st re msg u)). Qed.

Lemma setNodeUpgradeStatus_frame n st re msg u :
  identity (setNodeUpgradeStatus now n st re msg u) = identity u.
Proof.
  unfold setNodeUpgradeStatus, setNodesUpgradedCondition.
  repeat case_match; rewrite ?(proj1 (setConditionAndMark_frame _ _ _ _ _)); done.
Qed.

Lemma setHelmChartUpgradeStatus_frame st re msg u :
  identity (setHelmChartUpgradeStatus now st re msg u) = identity u /\
  up_NodeStatuses (setHelmChartUpgradeStatus now st re msg u) = up_NodeStatuses u.
Proof.
  unfold setHelmChartUpgradeStatus. case_match; [done|apply setConditionAndMark_frame].
Qed.

(** The status of a node after a write. *)
Lemma nodeStatuses_set n st re msg u n' :
  gm_get (up_NodeStatuses (setNodeUpgradeStatus now n st re msg u)) n' =
  if decide (n = n') then Some (mkNodeStatus st re msg) else gm_get (up_NodeStatuses u) n'.
Proof.
  unfold setNodeUpgradeStatus, setNodesUpgradedCondition.
  set (u0 := up_set_NodeStatuses (Some (default ∅ (up_NodeStatuses u))) u).
  assert (H0 : forall k, gm_get (up_NodeStatuses u0) k = gm_get (up_NodeStatuses u) k)
    by (intros k; subst u0; simpl; by destruct (up_NodeStatuses u)).
  case_bool_decide as E.
  - rewrite H0 in *. by case_decide; subst.
  - set (u1 := up_set_NodeStatuses _ u0).
    assert (H1 : gm_get (up_NodeStatuses u1) n' =
      if decide (n = n') then Some (mkNodeStatus st re msg) else gm_get (up_NodeStatuses u) n').
    { subst u1. change (up_NodeStatuses (up_set_NodeStatuses ?m u0)) with m.
      rewrite gm_get_set, H0. done. }
    repeat case_match; rewrite ?(proj2 (setConditionAndMark_frame _ _ _ _ _)); done.
Qed.

Lemma nodeState_set n st re msg u n' :
  nodeState (setNodeUpgradeStatus now n st re msg u) n' =
  if decide (n = n') then st else nodeState u n'.
Proof. unfold nodeState. rewrite nodeStatuses_set. by case_decide. Qed.
End Facts.

Lemma allSucceeded_spec m :
  allSucceeded m = true <-> forall n s, gm_get m n = Some s -> nus_State s = StateSucceeded.
Proof.
  unfold allSucceeded. rewrite forallb_forall. split.
  - intros H n s Hs. apply String.eqb_eq, (H (n, s)), list_elem_of_In, elem_of_map_to_list.
    by destruct m.
  - intros H [n s] Hin. apply list_elem_of_In, elem_of_map_to_list in Hin.
    apply String.eqb_eq, (H n). by destruct m.
Qed.

(** ** Properties *)

(** The result of a node, and what it makes of the upgrade.  Recording it changes that
    node's entry and no other, and nothing at all when the entry is there already.  A
    failed node fails the nodes, the upgrade and its label.  Any other result leaves
    conditions and labels alone, unless the nodes are being upgraded and every recorded
    node has succeeded now: then the nodes are upgraded, and the upgrade has failed when
    the image, the repository or the system services have, has succeeded when the
    system services are upgraded, and is undecided otherwise. *)
Theorem node_result_exact now n st re msg u :
  let u' := setNodeUpgradeStatus now n st re msg u in
  let entry := mkNodeStatus st re msg in
  let done := stateOf u = StateUpgradingNodes /\
    forall n' s, gm_get (up_NodeStatuses u') n' = Some s -> nus_State s = StateSucceeded in
  (forall n', gm_get (up_NodeStatuses u') n' =
     if decide (n = n') then Some entry else gm_get (up_NodeStatuses u) n') /\
  (gm_get (up_NodeStatuses u) n = Some entry -> u' = u) /\
  (gm_get (up_NodeStatuses u) n <> Some entry ->
   (st = StateFailed ->
      condFalse u' NodesUpgraded = true /\ condFalse u' UpgradeCompleted = true /\
      stateOf u' = StateFailed) /\
   (st <> StateFailed -> done ->
      condTrue u' NodesUpgraded = true /\
      let failed := condFalse u ImageReady || condFalse u RepoProvisioned
                    || condFalse u SystemServicesUpgraded in
      stateOf u' = (if failed then StateFailed
                    else if condTrue u SystemServicesUpgraded then StateSucceeded
                    else StateUpgradingNodes) /\
      (condFalse u' UpgradeCompleted = true <->
         failed = true \/ condTrue u SystemServicesUpgraded = false /\
                          condFalse u UpgradeCompleted = true) /\
      (condTrue u' UpgradeCompleted = true <->
         failed = false /\ (condTrue u SystemServicesUpgraded = true \/
                            condTrue u UpgradeCompleted = true))) /\
   (st <> StateFailed -> ~ done ->
      up_Conditions u' = up_Conditions u /\ up_Labels u' = up_Labels u)).
Proof.
  intros u' entry fin. split; [intros n'; apply nodeStatuses_set|]. split.
  { intros He. subst u' entry. unfold setNodeUpgradeStatus.
    assert (Hu : up_set_NodeStatuses (Some (default ∅ (up_NodeStatuses u))) u = u).
    { unfold up_set_NodeStatuses, up_set_status. destruct u as [? ? ? ? [? ? ? ? [] ? ?]]; done. }
    rewrite Hu, bool_decide_eq_true_2 by done. done. }
  intros He. pose proof (nodeStatuses_set now n st re msg u) as Hst. fold u' in Hst.
  set (u1 := up_set_NodeStatuses (gm_set (Some (default ∅ (up_NodeStatuses u))) n entry)
               (up_set_NodeStatuses (Some (default ∅ (up_NodeStatuses u))) u)).
  assert (Hu' : u' = if String.eqb st StateFailed
     then setNodesUpgradedCondition now ConditionFalse re msg u1
     else if String.eqb (stateOf u) StateUpgradingNodes && allSucceeded (up_NodeStatuses u1)
     then setNodesUpgradedCondition now ConditionTrue "" "" u1 else u1).
  { subst u'. unfold setNodeUpgradeStatus. rewrite bool_decide_eq_false_2; [done|].
    simpl. by destruct (up_NodeStatuses u). }
  assert (Hfin : fin <-> String.eqb (stateOf u) StateUpgradingNodes
                         && allSucceeded (up_NodeStatuses u1) = true).
  { rewrite andb_true_iff, String.eqb_eq, allSucceeded_spec. subst fin.
    enough (Heq : forall n', gm_get (up_NodeStatuses u') n' = gm_get (up_NodeStatuses u1) n')
      by by setoid_rewrite Heq.
    intros n'. rewrite Hst. subst u1.
    change (up_NodeStatuses (up_set_NodeStatuses ?m (up_set_NodeStatuses ?m' u))) with m.
    rewrite gm_get_set. case_decide; [done|]. by destruct (up_NodeStatuses u). }
  rewrite Hu'. clear Hu' Hst. split_and!.
  - intros ->. rewrite String.eqb_refl.
    unfold setNodesUpgradedCondition, setConditionAndMark.
    assert (Hf : anyFailed (setCond now NodesUpgraded ConditionFalse re msg u1) = true).
    { unfold anyFailed. rewrite !condIs_setCond. simpl. apply orb_true_r. }
    rewrite markComplete_completed, markComplete_others, markComplete_state by done.
    unfold verdict. by rewrite Hf, condIs_setCond.
  - intros Hne Hd%Hfin. apply String.eqb_neq in Hne. rewrite Hne, Hd.
    unfold setNodesUpgradedCondition, setConditionAndMark.
    assert (Hf : anyFailed (setCond now NodesUpgraded ConditionTrue "" "" u1) =
      condFalse u ImageReady || condFalse u RepoProvisioned || condFalse u SystemServicesUpgraded).
    { unfold anyFailed. rewrite !condIs_setCond. simpl. by rewrite orb_false_r. }
    assert (Hb : bothDone (setCond now NodesUpgraded ConditionTrue "" "" u1) =
      condTrue u SystemServicesUpgraded).
    { unfold bothDone. rewrite !condIs_setCond. simpl. by rewrite andb_true_r. }
    apply andb_true_iff in Hd as [Hlab%String.eqb_eq _].
    rewrite !markComplete_completed, markComplete_others, markComplete_state by done.
    unfold verdict. rewrite Hf, Hb, !condIs_setCond.
    change (stateOf (setCond now NodesUpgraded ConditionTrue "" "" u1)) with (stateOf u).
    rewrite Hlab, decide_True, !decide_False by done. split; [done|].
    change (condIs ?s u1 UpgradeCompleted) with (condIs s u UpgradeCompleted).
    destruct (condFalse u ImageReady || _ || _), (condTrue u SystemServicesUpgraded);
      (split; [done|]); simpl; naive_solver.
  - intros Hne Hd. apply String.eqb_neq in Hne. rewrite Hne.
    destruct (_ && _) eqn:E; [|done]. by destruct Hd; apply Hfin.
Qed.
