(* ===== verification/Promote.v ===== *)
(** The node promotion controller, [pkg/controller/master/node/promote_controller.go]:
    the choice of the worker to promote, the two-step promotion (mark the node,
    create the job), and the handlers of node and job events.

    [World] holds the API objects the handlers touch.  [Env] holds what comes
    from outside: the verdict of the API server on each write, the errors of a
    cache read, the image of the job, and the text functions of libraries. *)

From S2P Require Import Prelude K8s NodeUtil.

Local Open Scope Z_scope.

(** ** The choice of the node to promote *)

Definition defaultSpecManagementNumber : nat := 3.

Definition isExtraWitnessNode (node : Node) (numOfWitnessNode : nat)
    (promotedWitnessNode : bool) : bool :=
  if Nat.eqb numOfWitnessNode 0 && negb promotedWitnessNode then false
  else gm_has (node_Labels node) HarvesterWitnessNodeLabelKey.

Definition isWorkerPreferredNode (node : Node) : bool :=
  gm_has (node_Labels node) HarvesterWorkerNodeLabelKey.

Definition isHarvesterNode (node : Node) : bool :=
  gm_has (node_Labels node) HarvesterManagedNodeLabelKey.

Definition zoneOf (node : Node) : string := gm_str (node_Labels node) LabelTopologyZone.

(** The variables of [selectPromoteNode] that the loop updates. *)
Record sel := mkSel {
  healthyHarvesterWorkers : list Node;
  managementPreferred : list Node;
  witnessPreferred : list Node;
  managementOrHealthyHarvesterWorkerZones : gset string;
  managementZones : gset string;
  managementNumber : nat;
  witnessPromoted : bool;
  canBeManagementNodeCount : nat }.

(** A worker that may become a management node, at this point of the loop. *)
Definition eligibleWorker (a : sel) (wp : bool) (node : Node) : bool :=
  IsHealthyNode node && isHarvesterNode node && negb (node_Unschedulable node)
  && negb (isWorkerPreferredNode node)
  && negb (isExtraWitnessNode node (length (witnessPreferred a)) wp).

Definition addZone (zone : string) (s : gset string) : gset string :=
  if String.eqb zone "" then s else {[ zone ]} ∪ s.

(** One iteration of the loop; [None] is a [return nil] inside it.  The count of
    possible management nodes starts at the number of nodes and is tested after
    every decrement, so the subtraction on [nat] never truncates. *)
Definition selectStep (nodeNumber : nat) (a : sel) (node : Node) : option sel :=
  let isManagement := IsManagementRole node in
  let mgmtNumber := if isManagement then S (managementNumber a) else managementNumber a in
  let wp := witnessPromoted a || IsWitnessNode node isManagement in
  if Nat.eqb mgmtNumber (if Nat.ltb nodeNumber defaultSpecManagementNumber then nodeNumber
                         else defaultSpecManagementNumber)
  then None
  else if negb isManagement && IsPromoteStatusIn node [PromoteStatusComplete] then None
  else if IsPromoteStatusIn node [PromoteStatusRunning; PromoteStatusFailed;
                                  PromoteStatusUnknown]
  then None
  else
    let zone := zoneOf node in
    let a' :=
      if isManagement then
        mkSel (healthyHarvesterWorkers a) (managementPreferred a) (witnessPreferred a)
          (addZone zone (managementOrHealthyHarvesterWorkerZones a))
          (addZone zone (managementZones a)) mgmtNumber wp (canBeManagementNodeCount a)
      else if eligibleWorker a wp node then
        let zones := addZone zone (managementOrHealthyHarvesterWorkerZones a) in
        if gm_has (node_Labels node) HarvesterMgmtNodeLabelKey then
          mkSel (healthyHarvesterWorkers a) (managementPreferred a ++ [node])
            (witnessPreferred a) zones (managementZones a) mgmtNumber wp
            (canBeManagementNodeCount a)
        else if gm_has (node_Labels node) HarvesterWitnessNodeLabelKey then
          mkSel (healthyHarvesterWorkers a) (managementPreferred a)
            (witnessPreferred a ++ [node]) zones (managementZones a) mgmtNumber wp
            (canBeManagementNodeCount a)
        else
          mkSel (healthyHarvesterWorkers a ++ [node]) (managementPreferred a)
            (witnessPreferred a) zones (managementZones a) mgmtNumber wp
            (canBeManagementNodeCount a)
      else
        mkSel (healthyHarvesterWorkers a) (managementPreferred a) (witnessPreferred a)
          (managementOrHealthyHarvesterWorkerZones a) (managementZones a) mgmtNumber wp
          (canBeManagementNodeCount a - 1) in
    if Nat.ltb (canBeManagementNodeCount a') defaultSpecManagementNumber then None
    else Some a'.

Fixpoint selectLoop (nodeNumber : nat) (a : sel) (nodes : list Node) : option sel :=
  match nodes with
  | [] => Some a
  | n :: ns => a' ← selectStep nodeNumber a n; selectLoop nodeNumber a' ns
  end.

Definition sel0 (nodeNumber : nat) : sel := mkSel [] [] [] ∅ ∅ 0 false nodeNumber.

(** The candidates, in the order of preference of the code. *)
Definition getCandidate (a : sel) : list Node :=
  let witness := if witnessPromoted a then [] else witnessPreferred a in
  match managementPreferred a, witness with
  | (_ :: _) as l, _ => l
  | [], (_ :: _) as l => l
  | [], [] => healthyHarvesterWorkers a
  end.

Definition mayPromote (mzones : gset string) (node : Node) : bool :=
  let zone := zoneOf node in
  let hasNewZone := negb (String.eqb zone "") && negb (bool_decide (zone ∈ mzones)) in
  negb (Nat.ltb 0 (size mzones)) || hasNewZone.

(** The final loop: the oldest candidate, the first one on a tie. *)
Fixpoint pickOldest (mzones : gset string) (cur : option Node) (l : list Node)
  : option Node :=
  match l with
  | [] => cur
  | n :: l =>
      let cur' :=
        if mayPromote mzones n then
          match cur with
          | None => Some n
          | Some p => if node_CreationTimestamp n <? node_CreationTimestamp p
                      then Some n else cur
          end
        else cur in
      pickOldest mzones cur' l
  end.

Definition selectPromoteNode (nodeList : list Node) : option Node :=
  let nodeNumber := length nodeList in
  match selectLoop nodeNumber (sel0 nodeNumber) nodeList with
  | None => None
  | Some a =>
      let hasZones := Nat.ltb 0 (size (managementZones a)) in
      let hasEnoughZones :=
        Nat.leb defaultSpecManagementNumber
          (size (managementOrHealthyHarvesterWorkerZones a)) in
      if hasZones && negb hasEnoughZones then None
      else pickOldest (managementZones a) None (getCandidate a)
  end.

(** ** The job *)

Definition promoteBackoffLimit : Z := 2.

Section Job.
Context (SafeConcatName : list string -> string).

Definition buildPromoteJobName (nodeName : string) : string :=
  SafeConcatName ["harvester"; "promote"; nodeName].

Definition buildPromoteJob (namespace : string) (node : Node) (promoteImage : string) : Job :=
  let nodeName := node_Name node in
  let nodeRoleEtcd := gm_str (node_Labels node) HarvesterWitnessNodeLabelKey in
  let promoteParameter :=
    if String.eqb nodeRoleEtcd "true" then "rke.cattle.io/etcd-role=true" else "" in
  mkJob
    (mkMeta (buildPromoteJobName nodeName) "" namespace ""
       (Some {[ HarvesterPromoteNodeLabelKey := nodeName ]}) None
       [mkOwner (node_APIVersion node) (node_Kind node) nodeName (om_UID (node_meta node))]
       0 None)
    (mkJobSpec (Some promoteBackoffLimit) None None
       (Some {[ HarvesterPromoteNodeLabelKey := nodeName ]})
       (mkPodSpec true true true "ClusterFirstWithHostNet"
          (mkAff [[mkReq LabelHostname "In" [nodeName]]]
                 [mkPAT [mkReq HarvesterPromoteNodeLabelKey "In" [nodeName]] LabelHostname])
          [mkTol "" "Exists" TaintEffectNoSchedule ""; mkTol "" "Exists" TaintEffectNoExecute ""]
          "Never"
          [mkVol "host-root" (HostPath "/" "Directory");
           mkVol "helpers" (ConfigMapVolume "harvester-helpers")]
          "harvester"
          [mkContainer "promote" promoteImage ["sh"]
             ["-e"; "/harvester-helpers/promote.sh"; promoteParameter]
             [("host-root", "/host"); ("helpers", "/harvester-helpers")]
             "IfNotPresent" (Some true) []
             [envValue "HARVESTER_PROMOTE_NODE_NAME" (node_Name node)]]))
    jobStatus0.
End Job.

(** ** The handlers *)

Record Event := mkEvent {
  ev_Node : string; ev_Type : string; ev_Reason : string; ev_Message : string }.

Record World := mkWorld {
  w_nodes : list Node;
  w_jobs : list Job;
  w_events : list Event;
  w_queue : list (string * Z) }.          (* node keys to enqueue, after seconds *)

(** The caches and the answers of the API server.  The node informer shows the nodes as they
    were at some time before: a view of the stored ones, the identity when it is up to date. *)
Record Env := mkEnv {
  env_nodeView : list Node -> list Node;   (* what the node cache has *)
  env_nodeList : option goerror;           (* error of nodeCache.List *)
  env_nodeGet : string -> option goerror;  (* error of nodeCache.Get other than NotFound *)
  env_nodeUpdate : Node -> option goerror;
  env_jobCreate : Job -> option goerror;
  env_jobDelete : Job -> option goerror;
  env_image : string + goerror;            (* FetchImageFromHelmValues *)
  env_title : string -> string;            (* cases.Title(language.English) *)
  env_safeName : list string -> string;    (* name.SafeConcatName *)
  env_namespace : string }.

Definition setNodes (f : list Node -> list Node) (w : World) : World :=
  mkWorld (f (w_nodes w)) (w_jobs w) (w_events w) (w_queue w).
Definition setJobs (f : list Job -> list Job) (w : World) : World :=
  mkWorld (w_nodes w) (f (w_jobs w)) (w_events w) (w_queue w).

(** The object of that name replaced by the one written. *)
Definition replaceNode (n : Node) (l : list Node) : list Node :=
  map (fun n' => if String.eqb (node_Name n') (node_Name n) then n else n') l.

Definition removeJob (j : Job) (l : list Job) : list Job :=
  List.filter (fun j' => negb (String.eqb (job_Name j') (job_Name j)
                       && String.eqb (om_Namespace (job_meta j')) (om_Namespace (job_meta j)))) l.

Definition findNode (name : string) (l : list Node) : option Node :=
  List.find (fun n => String.eqb (node_Name n) name) l.

Section Handlers.
Context (E : Env).

Definition nodes_Update (n : Node) : M World Node :=
  apiWrite (env_nodeUpdate E n) (setNodes (replaceNode n)) n.

Definition nodeCache_Get (name : string) : M World Node := fun w =>
  match env_nodeGet E name with
  | Some e => (Err e, w)
  | None => match findNode name (env_nodeView E (w_nodes w)) with
            | Some n => (Ok n, w)
            | None => (Err (ApiNotFound name), w)
            end
  end.

Definition nodeCache_List : M World (list Node) := fun w =>
  match env_nodeList E with
  | Some e => (Err e, w)
  | None => (Ok (env_nodeView E (w_nodes w)), w)
  end.

Definition reconcileInstallCordonedNode (node : Node) (nodeList : list Node) : Node :=
  let toUpdate :=
    if negb (node_Unschedulable node) then
      if IsOtherNodeAvailable (node_Name node) nodeList
      then node_set_Unschedulable true node else node
    else node in
  node_set_Annotations
    (gm_set (node_Annotations toUpdate) HarvesterInstallCordonedProcessedAnnotation "true")
    toUpdate.

Definition logPromoteEvent (node : Node) (status : string) : M World unit :=
  let preStatus := gm_str (node_Annotations node) HarvesterPromoteStatusAnnotationKey in
  let eventType := if str_in status [PromoteStatusUnknown; PromoteStatusFailed]
                   then "Warning" else "Normal" in
  modify (fun w =>
    mkWorld (w_nodes w) (w_jobs w)
      (w_events w ++
        [mkEvent (node_Name node) eventType
           ("NodePromote" +:+ env_title E status)
           ("Node " +:+ node_Name node +:+ " promote status change: " +:+ preStatus
              +:+ " => " +:+ status)])
      (w_queue w)).

Definition setPromoteStart (node : Node) : M World Node :=
  if String.eqb (gm_str (node_Annotations node) HarvesterPromoteStatusAnnotationKey)
       PromoteStatusRunning
  then mret node
  else
    _ ← logPromoteEvent node PromoteStatusRunning;
    a ← lift (gm_store (node_Annotations node) HarvesterPromoteStatusAnnotationKey
                PromoteStatusRunning);
    nodes_Update (node_set_Unschedulable true (node_set_Annotations a node)).

Definition setPromoteResult (job : Job) (node : Node) (status : string) : M World Job :=
  if String.eqb (gm_str (node_Annotations node) HarvesterPromoteStatusAnnotationKey) status
  then mret job
  else
    _ ← logPromoteEvent node status;
    a ← lift (gm_store (node_Annotations node) HarvesterPromoteStatusAnnotationKey status);
    let toUpdate := node_set_Annotations a node in
    let toUpdate := if String.eqb status PromoteStatusComplete
                    then node_set_Unschedulable false toUpdate else toUpdate in
    _ ← nodes_Update toUpdate;
    mret job.

Definition createPromoteJob (node : Node) : M World Job :=
  match env_image E with
  | inr _ => throw (ErrText "failed to get harvester image")
  | inl image =>
      let job := buildPromoteJob (env_safeName E) (env_namespace E) node image in
      apiWrite (env_jobCreate E job) (setJobs (fun l => l ++ [job])) job
  end.

Definition deleteJob (job : Job) : M World unit :=
  apiWrite (env_jobDelete E job) (setJobs (removeJob job)) tt.

Definition promote (node : Node) : M World Node :=
  startedNode ← setPromoteStart node;
  _ ← createPromoteJob node;
  mret startedNode.

Definition EnqueueAfter (name : string) (seconds : Z) : M World unit :=
  modify (fun w => mkWorld (w_nodes w) (w_jobs w) (w_events w)
                     (w_queue w ++ [(name, seconds)])).

Definition PromoteOnNodeChanged (node : option Node) : M World (option Node) :=
  match node with
  | None => mret None
  | Some node =>
    if bool_decide (is_Some (om_DeletionTimestamp (node_meta node))) then mret (Some node)
    else
      nodeList ← nodeCache_List;
      if String.eqb (gm_str (node_Labels node) HarvesterInstallCordonedLabel) "true"
         && negb (String.eqb (gm_str (node_Annotations node)
                                HarvesterInstallCordonedProcessedAnnotation) "true")
      then
        n ← nodes_Update (reconcileInstallCordonedNode node nodeList);
        mret (Some n)
      else if Nat.ltb (length nodeList) defaultSpecManagementNumber then mret (Some node)
      else
        match selectPromoteNode nodeList with
        | None => mret (Some node)
        | Some promoteNode =>
            if String.eqb (node_Kind promoteNode) ""
               || String.eqb (node_APIVersion promoteNode) ""
            then
              _ ← EnqueueAfter (node_Name node) 10;
              mret (Some node)
            else
              _ ← promote promoteNode;
              mret (Some node)
        end
  end.

Definition PromoteOnJobChanged (job : option Job) : M World (option Job) :=
  match job with
  | None => mret None
  | Some job =>
    if bool_decide (is_Some (om_DeletionTimestamp (job_meta job))) then mret (Some job)
    else
      match gm_get (job_Labels job) HarvesterPromoteNodeLabelKey with
      | None => mret (Some job)
      | Some nodeName =>
          r ← try (nodeCache_Get nodeName);
          match r with
          | inr err =>
              if IsNotFound err
              then _ ← deleteJob job; mret (Some job)
              else throw err
          | inl node =>
              if jobCondIsTrue JobComplete job
              then Some <$> setPromoteResult job node PromoteStatusComplete
              else if jobCondIsTrue JobFailed job
              then Some <$> setPromoteResult job node PromoteStatusFailed
              else mret (Some job)
          end
      end
  end.

Definition OnJobRemove (job : option Job) : M World (option Job) :=
  match job with
  | None => mret None
  | Some job =>
      match gm_get (job_Labels job) HarvesterPromoteNodeLabelKey with
      | None => mret (Some job)
      | Some nodeName =>
          if jobCondIsTrue JobFailed job || jobCondIsTrue JobComplete job
          then mret (Some job)
          else
            r ← try (nodeCache_Get nodeName);
            match r with
            | inr err => if IsNotFound err then mret (Some job) else throw err
            | inl node =>
                if IsPromoteStatusIn node [PromoteStatusRunning]
                then Some <$> setPromoteResult job node PromoteStatusUnknown
                else mret (Some job)
            end
      end
  end.
End Handlers.

(** ** What the choice guarantees *)

(** The part of eligibility that does not depend on the other nodes. *)
Definition promotable (n : Node) : bool :=
  negb (IsManagementRole n) && IsHealthyNode n && isHarvesterNode n
  && negb (node_Unschedulable n) && negb (isWorkerPreferredNode n).

Definition hasMgmtLabel (n : Node) : bool := gm_has (node_Labels n) HarvesterMgmtNodeLabelKey.
Definition hasWitnessLabel (n : Node) : bool :=
  gm_has (node_Labels n) HarvesterWitnessNodeLabelKey.

(** A promotion that is under way, failed, or done and not yet visible. *)
Definition blocking (n : Node) : bool :=
  (negb (IsManagementRole n) && IsPromoteStatusIn n [PromoteStatusComplete])
  || IsPromoteStatusIn n [PromoteStatusRunning; PromoteStatusFailed; PromoteStatusUnknown].

Definition mgmtCount (l : list Node) : nat := length (List.filter IsManagementRole l).

Definition mgmtZonesOf (l : list Node) : gset string :=
  list_to_set (List.filter (fun z => negb (String.eqb z ""))
                 (map zoneOf (List.filter IsManagementRole l))).

Definition promotedWitness (n : Node) : bool := IsWitnessNode n (IsManagementRole n).

(** Promotable, not a witness, with or without the management label. *)
Definition plainIn (mgmt : bool) (n : Node) : Prop :=
  promotable n = true /\ hasWitnessLabel n = false /\ hasMgmtLabel n = mgmt.

(** The loop invariant: what the accumulator says of the nodes seen so far. *)
Record selInv (pre : list Node) (a : sel) : Prop := {
  si_mp_sound : forall n, n ∈ managementPreferred a ->
    n ∈ pre /\ promotable n = true /\ hasMgmtLabel n = true;
  si_wp_sound : forall n, n ∈ witnessPreferred a ->
    n ∈ pre /\ promotable n = true /\ hasMgmtLabel n = false /\ hasWitnessLabel n = true;
  si_hw_sound : forall n, n ∈ healthyHarvesterWorkers a ->
    n ∈ pre /\ promotable n = true /\ hasMgmtLabel n = false /\ hasWitnessLabel n = false;
  si_mp_complete : forall n, n ∈ pre -> plainIn true n -> n ∈ managementPreferred a;
  si_hw_complete : forall n, n ∈ pre -> plainIn false n -> n ∈ healthyHarvesterWorkers a;
  si_number : managementNumber a = mgmtCount pre;
  si_promoted : witnessPromoted a = existsb promotedWitness pre;
  si_zones : managementZones a = mgmtZonesOf pre;
  si_blocking : forall n, n ∈ pre -> blocking n = false }.

Lemma selInv_init n : selInv [] (sel0 n).
Proof. constructor; try set_solver; done. Qed.

Lemma eligibleWorker_promotable a wp n :
  IsManagementRole n = false -> eligibleWorker a wp n = true -> promotable n = true.
Proof.
  unfold eligibleWorker, promotable. intros -> H. boolify. simpl.
  repeat (apply andb_true_iff; split); by rewrite ?negb_true_iff.
Qed.

Lemma promotable_eligible a wp n :
  hasWitnessLabel n = false -> promotable n = true -> eligibleWorker a wp n = true.
Proof.
  unfold hasWitnessLabel, eligibleWorker, promotable, isExtraWitnessNode. intros Hw H.
  boolify. rewrite Hw. repeat (apply andb_true_iff; split); rewrite ?negb_true_iff; auto.
  by destruct (_ && _).
Qed.

Lemma mgmtCount_app l1 l2 : mgmtCount (l1 ++ l2) = (mgmtCount l1 + mgmtCount l2)%nat.
Proof. unfold mgmtCount. by rewrite List.filter_app, length_app. Qed.

Lemma mgmtZonesOf_snoc l n :
  mgmtZonesOf (l ++ [n]) =
  if IsManagementRole n then addZone (zoneOf n) (mgmtZonesOf l) else mgmtZonesOf l.
Proof.
  unfold mgmtZonesOf, addZone. rewrite List.filter_app. simpl.
  destruct (IsManagementRole n); simpl.
  - rewrite map_app, List.filter_app. simpl.
    destruct (String.eqb (zoneOf n) ""); simpl; rewrite list_to_set_app_L; set_solver.
  - by rewrite app_nil_r.
Qed.

(** What a completed iteration tells of the node it looked at. *)
Lemma selectStep_Some N a n a' :
  selectStep N a n = Some a' ->
  blocking n = false /\
  managementNumber a' = ((if IsManagementRole n then 1 else 0) + managementNumber a)%nat /\
  managementNumber a' <> Nat.min N defaultSpecManagementNumber /\
  witnessPromoted a' = witnessPromoted a || promotedWitness n /\
  (defaultSpecManagementNumber <= canBeManagementNodeCount a')%nat.
Proof.
  unfold selectStep, blocking, promotedWitness. intros H.
  destruct (Nat.eqb_spec (if IsManagementRole n then S (managementNumber a)
    else managementNumber a) (if Nat.ltb N defaultSpecManagementNumber then N
                         else defaultSpecManagementNumber)) as [|Hm]; [done|].
  destruct (negb (IsManagementRole n) && _) eqn:E1; [done|].
  destruct (IsPromoteStatusIn n [PromoteStatusRunning; _; _]) eqn:E2; [done|].
  destruct (Nat.ltb _ _) eqn:Hlt in H; [done|]. apply Nat.ltb_ge in Hlt.
  injection H as <-.
  assert (Hm' : (if IsManagementRole n then S (managementNumber a) else managementNumber a)
                <> Nat.min N defaultSpecManagementNumber).
  { revert Hm. destruct (Nat.ltb_spec N defaultSpecManagementNumber);
      [rewrite Nat.min_l by lia|rewrite Nat.min_r by lia]; done. }
  destruct (IsManagementRole n); simpl in *; [done|].
  destruct (eligibleWorker _ _ _); simpl in *; [|done].
  destruct (gm_has _ _); simpl in *; [done|]. by destruct (gm_has _ _).
Qed.

(** The lists and zones after an iteration, by the kind of the node. *)
Lemma selectStep_lists N a n a' :
  selectStep N a n = Some a' ->
  let wp := witnessPromoted a || promotedWitness n in
  if IsManagementRole n then
    managementPreferred a' = managementPreferred a /\
    witnessPreferred a' = witnessPreferred a /\
    healthyHarvesterWorkers a' = healthyHarvesterWorkers a /\
    managementZones a' = addZone (zoneOf n) (managementZones a)
  else
    managementZones a' = managementZones a /\
    if eligibleWorker a wp n then
      if hasMgmtLabel n then
        managementPreferred a' = managementPreferred a ++ [n] /\
        witnessPreferred a' = witnessPreferred a /\
        healthyHarvesterWorkers a' = healthyHarvesterWorkers a
      else if hasWitnessLabel n then
        managementPreferred a' = managementPreferred a /\
        witnessPreferred a' = witnessPreferred a ++ [n] /\
        healthyHarvesterWorkers a' = healthyHarvesterWorkers a
      else
        managementPreferred a' = managementPreferred a /\
        witnessPreferred a' = witnessPreferred a /\
        healthyHarvesterWorkers a' = healthyHarvesterWorkers a ++ [n]
    else
      managementPreferred a' = managementPreferred a /\
      witnessPreferred a' = witnessPreferred a /\
      healthyHarvesterWorkers a' = healthyHarvesterWorkers a.
Proof.
  unfold selectStep, promotedWitness, hasMgmtLabel, hasWitnessLabel. intros H.
  repeat (match type of H with (if ?b then None else _) = _ => destruct b eqn:?; [done|] end).
  injection H as <-. simpl.
  destruct (IsManagementRole n); simpl; [done|].
  destruct (eligibleWorker _ _ _); simpl; [|done].
  destruct (gm_has _ HarvesterMgmtNodeLabelKey); simpl; [done|].
  by destruct (gm_has _ _).
Qed.

(** The four ways a field of the invariant survives one more node. *)
Section Snoc.
Context (pre lst : list Node) (n : Node) (P : Node -> Prop).

Lemma snoc_sound :
  (forall m, m ∈ lst -> m ∈ pre /\ P m) -> forall m, m ∈ lst -> m ∈ pre ++ [n] /\ P m.
Proof. intros H m Hm. destruct (H m Hm). rewrite elem_of_app. auto. Qed.

Lemma snoc_sound_add :
  P n -> (forall m, m ∈ lst -> m ∈ pre /\ P m) ->
  forall m, m ∈ lst ++ [n] -> m ∈ pre ++ [n] /\ P m.
Proof.
  intros Hn H m. rewrite !elem_of_app, !list_elem_of_singleton.
  intros [Hm| ->]; [destruct (H m Hm)|]; auto.
Qed.

Lemma snoc_complete :
  ~ P n -> (forall m, m ∈ pre -> P m -> m ∈ lst) ->
  forall m, m ∈ pre ++ [n] -> P m -> m ∈ lst.
Proof.
  intros Hn H m. rewrite !elem_of_app, !list_elem_of_singleton.
  intros [Hm| ->] HP; [auto|done].
Qed.

Lemma snoc_complete_add :
  (forall m, m ∈ pre -> P m -> m ∈ lst) ->
  forall m, m ∈ pre ++ [n] -> P m -> m ∈ lst ++ [n].
Proof.
  intros H m. rewrite !elem_of_app, !list_elem_of_singleton. intros [Hm| ->] HP; auto.
Qed.
End Snoc.

Ltac sel_field :=
  solve [ assumption
        | apply snoc_sound; assumption
        | apply snoc_sound_add; [done|assumption]
        | apply snoc_complete; [intros (? & ? & ?); intuition congruence|assumption]
        | apply snoc_complete_add; assumption ].

Lemma selInv_step N pre a n a' :
  selInv pre a -> selectStep N a n = Some a' -> selInv (pre ++ [n]) a'.
Proof.
  intros I Hs. pose proof (selectStep_lists _ _ _ _ Hs) as Hl.
  apply selectStep_Some in Hs as (Hb & Hn & _ & Hw & _). simpl in Hl.
  assert (Hcount : managementNumber a' = mgmtCount (pre ++ [n])).
  { rewrite Hn, mgmtCount_app, (si_number _ _ I). unfold mgmtCount at 3. simpl.
    destruct (IsManagementRole n); simpl; lia. }
  assert (Hprom : witnessPromoted a' = existsb promotedWitness (pre ++ [n])).
  { rewrite Hw, existsb_app, (si_promoted _ _ I). simpl. by rewrite orb_false_r. }
  assert (Hblock : forall m, m ∈ pre ++ [n] -> blocking m = false).
  { intros m [Hm| ->%list_elem_of_singleton]%elem_of_app; [by apply (si_blocking _ _ I)|done]. }
  assert (Hzones : managementZones a' = mgmtZonesOf (pre ++ [n])).
  { rewrite mgmtZonesOf_snoc, <- (si_zones _ _ I).
    destruct (IsManagementRole n); [apply Hl|]. by destruct Hl. }
  destruct I as [Imp Iwp Ihw Cmp Chw _ _ _ _].
  destruct (IsManagementRole n) eqn:Em.
  - destruct Hl as (Emp & Ewp & Ehw & _).
    assert (promotable n = false) by (unfold promotable; by rewrite Em).
    constructor; rewrite ?Emp, ?Ewp, ?Ehw; sel_field.
  - destruct Hl as (_ & Hl).
    destruct (eligibleWorker _ _ _) eqn:Ee.
    + pose proof (eligibleWorker_promotable _ _ _ Em Ee) as Hp.
      destruct (hasMgmtLabel n) eqn:Eml; [|destruct (hasWitnessLabel n) eqn:Ewl];
        destruct Hl as (Emp & Ewp & Ehw);
        constructor; rewrite ?Emp, ?Ewp, ?Ehw; sel_field.
    + destruct Hl as (Emp & Ewp & Ehw).
      assert (hasWitnessLabel n = false -> promotable n = false).
      { intros Hwl. apply not_true_iff_false. intros Hp.
        by rewrite (promotable_eligible _ _ _ Hwl Hp) in Ee. }
      constructor; rewrite ?Emp, ?Ewp, ?Ehw; sel_field.
Qed.

Lemma selInv_loop N pre a l a' :
  selInv pre a -> selectLoop N a l = Some a' -> selInv (pre ++ l) a'.
Proof.
  revert pre a. induction l as [|n l IH]; intros pre a I; simpl.
  - intros [= <-]. by rewrite app_nil_r.
  - destruct (selectStep N a n) as [a1|] eqn:E; simpl; [|done].
    intros H. rewrite cons_middle, app_assoc. eauto using selInv_step.
Qed.

(** Fewer management nodes than the bound at the start and at the end. *)
Lemma selectLoop_number N a l a' :
  (managementNumber a < Nat.min N defaultSpecManagementNumber)%nat ->
  selectLoop N a l = Some a' ->
  (managementNumber a' < Nat.min N defaultSpecManagementNumber)%nat.
Proof.
  revert a. induction l as [|n l IH]; intros a Ha; simpl; [by intros [= <-]|].
  destruct (selectStep N a n) as [a1|] eqn:E; simpl; [|done].
  apply IH. apply selectStep_Some in E as (_ & Hn & Hne & _).
  destruct (IsManagementRole n); lia.
Qed.

Lemma pickOldest_spec z cur l r :
  pickOldest z cur l = Some r ->
  (cur = Some r \/ r ∈ l /\ mayPromote z r = true) /\
  (forall c, cur = Some c -> node_CreationTimestamp r <= node_CreationTimestamp c) /\
  (forall m, m ∈ l -> mayPromote z m = true ->
     node_CreationTimestamp r <= node_CreationTimestamp m).
Proof.
  revert cur. induction l as [|n l IH]; intros cur; simpl.
  - intros ->. split_and!; [by left|intros c [= ->]; lia|set_solver].
  - intros H. apply IH in H as (Hr & Hcur & Hl). destruct (mayPromote z n) eqn:En.
    + destruct cur as [p|].
      * destruct (Z.ltb_spec (node_CreationTimestamp n) (node_CreationTimestamp p));
          pose proof (Hcur _ eq_refl); split_and!.
        -- destruct Hr; set_solver.
        -- intros c [= <-]. lia.
        -- intros m [->|]%elem_of_cons; auto.
        -- destruct Hr; set_solver.
        -- intros c [= <-]. lia.
        -- intros m [->|]%elem_of_cons Hm; [lia|auto].
      * pose proof (Hcur _ eq_refl). split_and!; [|done|].
        -- destruct Hr; set_solver.
        -- intros m [->|]%elem_of_cons; auto.
    + split_and!; [destruct Hr; set_solver|done|].
      intros m [->|]%elem_of_cons; [congruence|auto].
Qed.

Lemma pickOldest_Some z cur l :
  is_Some cur \/ (exists n, n ∈ l /\ mayPromote z n = true) ->
  is_Some (pickOldest z cur l).
Proof.
  revert cur. induction l as [|n l IH]; intros cur H; simpl.
  - destruct H as [H|(n & Hn & _)]; [done|set_solver].
  - apply IH. destruct H as [[c ->]|(m & [->|Hm]%elem_of_cons & Hp)].
    + left. by destruct (mayPromote z n); [case_match|].
    + left. rewrite Hp. by destruct cur; [case_match|].
    + right. eauto.
Qed.

(** The run of the loop behind a choice. *)
Lemma selectPromoteNode_inv l n :
  selectPromoteNode l = Some n ->
  exists a, selInv l a /\ (mgmtCount l < defaultSpecManagementNumber)%nat /\
    n ∈ getCandidate a /\ mayPromote (managementZones a) n = true /\
    (forall m, m ∈ getCandidate a -> mayPromote (managementZones a) m = true ->
       node_CreationTimestamp n <= node_CreationTimestamp m) /\
    ((0 < size (managementZones a))%nat ->
     (defaultSpecManagementNumber <=
        size (managementOrHealthyHarvesterWorkerZones a))%nat).
Proof.
  unfold selectPromoteNode. intros H.
  destruct (selectLoop _ _ l) as [a|] eqn:El; [|done].
  exists a. pose proof (selInv_loop _ [] _ _ _ (selInv_init _) El) as I. simpl in I.
  destruct (_ && _) eqn:Ez; [done|].
  apply pickOldest_spec in H as ([Hc|[Hin Hp]] & _ & Hold); [done|].
  split_and!; auto.
  - assert (0 < length l)%nat.
    { destruct l; simpl in *; [|lia]. injection El as <-. unfold getCandidate in Hin. set_solver. }
    rewrite <- (si_number _ _ I).
    eapply Nat.lt_le_trans; [eapply selectLoop_number; [|exact El]|apply Nat.le_min_r].
    simpl. unfold defaultSpecManagementNumber. lia.
  - intros Hsz. apply andb_false_iff in Ez as [Ez|Ez].
    + apply Nat.ltb_ge in Ez. lia.
    + apply negb_false_iff, Nat.leb_le in Ez. done.
Qed.

Lemma getCandidate_sound l a n :
  selInv l a -> n ∈ getCandidate a -> n ∈ l /\ promotable n = true.
Proof.
  intros I. unfold getCandidate.
  destruct (managementPreferred a) as [|m mp] eqn:Emp.
  - destruct (if witnessPromoted a then [] else witnessPreferred a) as [|w ws] eqn:Ewp.
    + intros Hn. destruct (si_hw_sound _ _ I _ Hn) as (? & ? & _). done.
    + destruct (witnessPromoted a); [done|]. rewrite <- Ewp.
      intros Hn. destruct (si_wp_sound _ _ I _ Hn) as (? & ? & _). done.
  - rewrite <- Emp. intros Hn. destruct (si_mp_sound _ _ I _ Hn) as (? & ? & _). done.
Qed.

Lemma mayPromote_zone z n :
  mayPromote z n = true -> z <> ∅ -> zoneOf n <> "" /\ zoneOf n ∉ z.
Proof.
  unfold mayPromote. intros H Hz.
  destruct (Nat.ltb_spec 0 (size z)) as [Hs|Hs]; simpl in H.
  - boolify. done.
  - destruct Hz. apply leibniz_equiv, size_empty_inv. lia.
Qed.

Lemma getCandidate_cases l a n :
  selInv l a -> n ∈ getCandidate a ->
  (hasMgmtLabel n = true /\ n ∈ managementPreferred a
     /\ getCandidate a = managementPreferred a) \/
  (managementPreferred a = [] /\ hasMgmtLabel n = false /\ hasWitnessLabel n = true
     /\ witnessPromoted a = false) \/
  (managementPreferred a = [] /\ hasMgmtLabel n = false /\ hasWitnessLabel n = false
     /\ getCandidate a = healthyHarvesterWorkers a).
Proof.
  intros I. unfold getCandidate.
  destruct (managementPreferred a) as [|m mp] eqn:Emp.
  - destruct (if witnessPromoted a then [] else witnessPreferred a) as [|w ws] eqn:Ewp.
    + intros Hn. destruct (si_hw_sound _ _ I _ Hn) as (_ & _ & ? & ?). by right; right.
    + destruct (witnessPromoted a); [done|]. rewrite <- Ewp.
      intros Hn. destruct (si_wp_sound _ _ I _ Hn) as (_ & _ & ? & ?). by right; left.
  - rewrite <- Emp. intros Hn. destruct (si_mp_sound _ _ I _ Hn) as (_ & _ & ?). by left.
Qed.

(** The node chosen for promotion is a listed worker that is healthy, managed
    by Harvester, schedulable and not reserved as a worker; no promotion is under
    way, failed or unfinished on any node; there are fewer than three management
    nodes; and where the management nodes have zones, the node is in a new one. *)
Theorem selectPromoteNode_sound l n :
  selectPromoteNode l = Some n ->
  n ∈ l /\ promotable n = true /\ (forall m, m ∈ l -> blocking m = false) /\
  (mgmtCount l < defaultSpecManagementNumber)%nat /\
  (mgmtZonesOf l <> ∅ -> zoneOf n <> "" /\ zoneOf n ∉ mgmtZonesOf l).
Proof.
  intros (a & I & Hm & Hin & Hp & _)%selectPromoteNode_inv.
  destruct (getCandidate_sound _ _ _ I Hin). split_and!; auto.
  - apply (si_blocking _ _ I).
  - rewrite <- (si_zones _ _ I). by apply mayPromote_zone.
Qed.

(** Nodes labelled for management come first, then a witness, which is chosen
    only while no witness was promoted, then the unlabelled workers; within the
    unlabelled or the management-labelled class the choice is the oldest node
    that the zone rule allows. *)
Theorem selectPromoteNode_preference l n :
  selectPromoteNode l = Some n ->
  (hasMgmtLabel n = false -> forall m, m ∈ l -> ~ plainIn true m) /\
  (hasMgmtLabel n = false -> hasWitnessLabel n = true ->
     forall m, m ∈ l -> promotedWitness m = false) /\
  (hasMgmtLabel n = true \/ hasWitnessLabel n = false ->
     forall m, m ∈ l -> plainIn (hasMgmtLabel n) m -> mayPromote (mgmtZonesOf l) m = true ->
     node_CreationTimestamp n <= node_CreationTimestamp m).
Proof.
  intros (a & I & _ & Hin & _ & Hold & _)%selectPromoteNode_inv.
  pose proof (getCandidate_cases _ _ _ I Hin) as Hc.
  rewrite (si_zones _ _ I) in Hold. split_and!.
  - intros Hl m Hm Hpl. pose proof (si_mp_complete _ _ I _ Hm Hpl) as He.
    destruct Hc as [(? & _)|[(Emp & _)|(Emp & _)]]; [congruence| |]; rewrite Emp in He;
      by apply not_elem_of_nil in He.
  - intros Hl Hw m Hm.
    destruct Hc as [(? & _)|[(_ & _ & _ & Hwp)|(_ & _ & ? & _)]]; [congruence| |congruence].
    rewrite (si_promoted _ _ I) in Hwp. destruct (promotedWitness m) eqn:E; [|done].
    exfalso. apply not_true_iff_false in Hwp. apply Hwp, existsb_exists.
    exists m. split; [by apply list_elem_of_In|done].
  - intros Hl m Hm Hpl Hp. apply Hold; [|done].
    destruct Hc as [(El & _ & Ec)|[(_ & ? & ? & _)|(_ & El & _ & Ec)]].
    + rewrite Ec. rewrite El in Hpl. apply (si_mp_complete _ _ I); auto.
    + destruct Hl; congruence.
    + rewrite Ec. rewrite El in Hpl. apply (si_hw_complete _ _ I); auto.
Qed.

(** ** The choice makes progress

    Without witness labels the test of a worker does not depend on the order of
    the list, and the loop runs to its end exactly when no node blocks and
    enough nodes are or may become management nodes. *)

Definition canBeManagement (l : list Node) : nat :=
  length (List.filter (fun n => IsManagementRole n || promotable n) l).

Lemma filter_length_split {A} (p : A -> bool) l :
  (length (List.filter p l) + length (List.filter (fun x => negb (p x)) l) = length l)%nat.
Proof. induction l as [|x l IH]; simpl; [done|]. destruct (p x); simpl; lia. Qed.

Definition cannotBe (n : Node) : bool := negb (IsManagementRole n || promotable n).

Lemma selectStep_progress N a n :
  hasWitnessLabel n = false -> blocking n = false ->
  (S (managementNumber a) < Nat.min N defaultSpecManagementNumber \/
   IsManagementRole n = false /\
   managementNumber a < Nat.min N defaultSpecManagementNumber)%nat ->
  (defaultSpecManagementNumber <=
     canBeManagementNodeCount a - if cannotBe n then 1 else 0)%nat ->
  exists a', selectStep N a n = Some a' /\
    canBeManagementNodeCount a' =
      (canBeManagementNodeCount a - if cannotBe n then 1 else 0)%nat.
Proof.
  intros Hw Hb Hm Hc. unfold blocking in Hb. apply orb_false_iff in Hb as [Hb1 Hb2].
  unfold selectStep. rewrite Hb1, Hb2.
  replace (Nat.eqb _ _) with false; cycle 1.
  { symmetry. apply Nat.eqb_neq.
    destruct (Nat.ltb_spec N defaultSpecManagementNumber), (IsManagementRole n); lia. }
  assert (Hel : forall wp, IsManagementRole n = false ->
             eligibleWorker a wp n = promotable n).
  { intros wp Hr. destruct (promotable n) eqn:Ep; [by apply promotable_eligible|].
    destruct (eligibleWorker a wp n) eqn:Ee; [|done].
    by rewrite (eligibleWorker_promotable _ _ _ Hr Ee) in Ep. }
  unfold cannotBe in *.
  destruct (IsManagementRole n) eqn:Er; simpl in *.
  - replace (Nat.ltb _ _) with false by (symmetry; apply Nat.ltb_ge; lia).
    eexists; split; [done|]. simpl. lia.
  - rewrite Hel by done. destruct (promotable n); simpl in *; cycle 1.
    { replace (Nat.ltb _ _) with false by (symmetry; apply Nat.ltb_ge; lia).
      by eexists. }
    destruct (gm_has (node_Labels n) HarvesterMgmtNodeLabelKey),
      (gm_has (node_Labels n) HarvesterWitnessNodeLabelKey); simpl;
      replace (Nat.ltb _ _) with false by (symmetry; apply Nat.ltb_ge; lia);
      eexists; (split; [done|]); simpl; lia.
Qed.

Lemma selectLoop_progress N a l :
  (forall n, n ∈ l -> hasWitnessLabel n = false /\ blocking n = false) ->
  (managementNumber a + mgmtCount l < Nat.min N defaultSpecManagementNumber)%nat ->
  (defaultSpecManagementNumber + length (List.filter cannotBe l)
     <= canBeManagementNodeCount a)%nat ->
  is_Some (selectLoop N a l).
Proof.
  revert a. induction l as [|n l IH]; intros a Hl Hm Hc; simpl; [by eexists|].
  destruct (Hl n ltac:(set_solver)) as [Hw Hb].
  change (n :: l) with ([n] ++ l) in Hm. rewrite mgmtCount_app in Hm.
  assert (Em : mgmtCount [n] = if IsManagementRole n then 1%nat else 0%nat).
  { unfold mgmtCount. simpl. by destruct (IsManagementRole n). }
  cbn [List.filter] in Hc.
  destruct (selectStep_progress N a n Hw Hb) as (a' & Ea & Ec).
  - destruct (IsManagementRole n); [left; lia|right; split; [done|lia]].
  - destruct (cannotBe n); cbn [length] in *; lia.
  - rewrite Ea. simpl. apply IH; [set_solver| |].
    + apply selectStep_Some in Ea as (_ & -> & _). destruct (IsManagementRole n); lia.
    + rewrite Ec. destruct (cannotBe n); cbn [length] in *; lia.
Qed.

(** The choice finds a node whenever the rules allow one: with no witness
    labels, no promotion blocking, fewer than three management nodes (and at
    least three nodes), at least three nodes that are or can become management
    nodes, no zones on the management nodes and one promotable worker, some node
    is promoted. *)
Theorem selectPromoteNode_progress l w :
  (forall n, n ∈ l -> hasWitnessLabel n = false /\ blocking n = false) ->
  (mgmtCount l < defaultSpecManagementNumber)%nat ->
  (defaultSpecManagementNumber <= canBeManagement l)%nat ->
  mgmtZonesOf l = ∅ -> w ∈ l -> promotable w = true ->
  is_Some (selectPromoteNode l).
Proof.
  intros Hl Hm Hc Hz Hw Hp.
  pose proof (filter_length_split (fun n => IsManagementRole n || promotable n) l) as Hs.
  unfold canBeManagement in Hc. unfold selectPromoteNode.
  destruct (selectLoop_progress (length l) (sel0 (length l)) l) as [a Ea]; [done| | |].
  - simpl. unfold defaultSpecManagementNumber in *. lia.
  - unfold cannotBe. simpl. unfold defaultSpecManagementNumber in *. lia.
  - rewrite Ea. pose proof (selInv_loop _ [] _ _ _ (selInv_init _) Ea) as I. simpl in I.
    rewrite (si_zones _ _ I), Hz, size_empty. simpl.
    apply pickOldest_Some. right. unfold getCandidate.
    assert (Hall : forall n, mayPromote ∅ n = true).
    { intros n. unfold mayPromote. by rewrite size_empty. }
    destruct (managementPreferred a) as [|x mp] eqn:Emp.
    + destruct (if witnessPromoted a then [] else witnessPreferred a) as [|y ws] eqn:Ewp.
      * exists w. split; [|done]. destruct (hasMgmtLabel w) eqn:El.
        -- exfalso. apply (not_elem_of_nil w). rewrite <- Emp.
           apply (si_mp_complete _ _ I); [done|]. split_and!; [done|by apply Hl|done].
        -- apply (si_hw_complete _ _ I); [done|]. split_and!; [done|by apply Hl|done].
      * exists y. split; [|done]. set_solver.
    + exists x. split; [|done]. set_solver.
Qed.

(** ** The handlers as a transition system *)

Definition running (n : Node) : bool := IsPromoteStatusIn n [PromoteStatusRunning].

Lemma running_blocking n : running n = true -> blocking n = true.
Proof.
  unfold running, blocking, IsPromoteStatusIn.
  destruct (gm_get _ _) as [s|]; simpl; [|done].
  destruct (String.eqb s PromoteStatusRunning); [|done]. intros _. by rewrite orb_true_r.
Qed.

(** A running promotion anywhere in the cluster rules out another choice. *)
Lemma running_blocks_choice l m :
  m ∈ l -> running m = true -> selectPromoteNode l = None.
Proof.
  intros Hm Hr. destruct (selectPromoteNode l) as [n|] eqn:E; [|done].
  apply selectPromoteNode_inv in E as (a & I & _).
  pose proof (si_blocking _ _ I m Hm). by rewrite running_blocking in H.
Qed.

Lemma running_set_status n s :
  running (node_set_Annotations
    (gm_set (node_Annotations n) HarvesterPromoteStatusAnnotationKey s) n)
  = String.eqb s PromoteStatusRunning.
Proof.
  unfold running, IsPromoteStatusIn, node_Annotations. simpl.
  rewrite gm_get_set_eq. simpl. by rewrite orb_false_r.
Qed.

Lemma running_set_other n k v b :
  k <> HarvesterPromoteStatusAnnotationKey ->
  running (node_set_Annotations (gm_set (node_Annotations (node_set_Unschedulable b n)) k v)
             (node_set_Unschedulable b n)) = running n.
Proof.
  intros Hk. unfold running, IsPromoteStatusIn, node_Annotations. simpl.
  by rewrite gm_get_set_ne.
Qed.

Lemma reconcileInstallCordonedNode_keeps n l :
  running (reconcileInstallCordonedNode n l) = running n /\
  node_Name (reconcileInstallCordonedNode n l) = node_Name n.
Proof.
  unfold reconcileInstallCordonedNode. split; [|by repeat case_match].
  repeat case_match;
    first [ exact (running_set_other n HarvesterInstallCordonedProcessedAnnotation "true"
                     true ltac:(done))
          | destruct n as [m k v u t c os];
            exact (running_set_other (mkNode m k v u t c os)
                     HarvesterInstallCordonedProcessedAnnotation "true" u ltac:(done)) ].
Qed.

Lemma elem_of_replaceNode n l m :
  m ∈ replaceNode n l ->
  (m = n /\ exists o, o ∈ l /\ node_Name o = node_Name n) \/
  (m ∈ l /\ node_Name m <> node_Name n).
Proof.
  unfold replaceNode. rewrite list_elem_of_In, in_map_iff.
  intros (o & <- & Ho%list_elem_of_In).
  destruct (String.eqb_spec (node_Name o) (node_Name n)); [left|right]; eauto.
Qed.

Lemma replaceNode_names n l : map node_Name (replaceNode n l) = map node_Name l.
Proof.
  unfold replaceNode. rewrite map_map. apply map_ext. intros m.
  by destruct (String.eqb_spec (node_Name m) (node_Name n)).
Qed.

Lemma elem_of_replaceNode_new n l o :
  o ∈ l -> node_Name o = node_Name n -> n ∈ replaceNode n l.
Proof.
  intros Ho En. unfold replaceNode. apply list_elem_of_In, in_map_iff.
  exists o. split; [by rewrite En, String.eqb_refl|by apply list_elem_of_In].
Qed.

(** Node names are unique in the API server; at most one node is being promoted. *)
Definition oneRunning (l : list Node) : Prop :=
  NoDup (map node_Name l) /\
  forall m n, m ∈ l -> n ∈ l -> running m = true -> running n = true ->
    node_Name m = node_Name n.

Definition worldInv (w : World) : Prop := oneRunning (w_nodes w).

(** The ways a handler may change the nodes: not at all, or by one write that
    does not start a second promotion. *)
Definition goodWrite (l l' : list Node) : Prop :=
  l' = l \/ exists n, l' = replaceNode n l /\
    (running n = true ->
     (exists o, o ∈ l /\ node_Name o = node_Name n /\ running o = true) \/
     (forall o, o ∈ l -> running o = false)).

Lemma goodWrite_inv l l' : oneRunning l -> goodWrite l l' -> oneRunning l'.
Proof.
  intros [Hnd Hr] [->|(n & -> & Hn)]; [done|]. split; [by rewrite replaceNode_names|].
  intros m1 m2 Hm1%elem_of_replaceNode Hm2%elem_of_replaceNode Hr1 Hr2.
  destruct Hm1 as [(-> & _)|(H1 & N1)], Hm2 as [(-> & _)|(H2 & N2)]; [done| | |by auto].
  - destruct (Hn Hr1) as [(o & Ho & En & Hro)|Hno].
    + rewrite <- En. auto.
    + by rewrite Hno in Hr2.
  - destruct (Hn Hr2) as [(o & Ho & En & Hro)|Hno].
    + rewrite <- En. auto.
    + by rewrite Hno in Hr1.
Qed.

Lemma findNode_Some name l n : findNode name l = Some n -> n ∈ l /\ node_Name n = name.
Proof.
  intros H. apply List.find_some in H as [H1 H2]. apply String.eqb_eq in H2.
  by rewrite list_elem_of_In.
Qed.

Section Writes.
Context (E : Env).

Lemma nodes_Update_nodes n w :
  w_nodes (nodes_Update E n w).2 = w_nodes w \/
  w_nodes (nodes_Update E n w).2 = replaceNode n (w_nodes w).
Proof. unfold nodes_Update, apiWrite. destruct (env_nodeUpdate E n); simpl; auto. Qed.

Lemma createPromoteJob_nodes n w : w_nodes (createPromoteJob E n w).2 = w_nodes w.
Proof.
  unfold createPromoteJob, apiWrite, throw. destruct (env_image E); simpl; [|done].
  by destruct (env_jobCreate E _).
Qed.

(** The write of [setPromoteResult]: never a running status. *)
Lemma setPromoteResult_good job node s w :
  s <> PromoteStatusRunning ->
  goodWrite (w_nodes w) (w_nodes (setPromoteResult E job node s w).2).
Proof.
  intros Hs. unfold setPromoteResult, goodWrite. destruct (String.eqb _ s); [by left|].
  m_unfold. destruct (gm_store _ _ s) as [a|e|] eqn:Ea; simpl; [|by left|by left].
  apply gm_store_Ok in Ea as ->.
  set (n' := if String.eqb s PromoteStatusComplete then _ else _).
  assert (Hr : running n' = false).
  { unfold n'. pose proof (running_set_status node s) as H.
    apply String.eqb_neq in Hs. rewrite Hs in H.
    destruct (String.eqb s PromoteStatusComplete); exact H. }
  unfold nodes_Update, apiWrite. destruct (env_nodeUpdate E n'); simpl; [by left|].
  right. exists n'. split; [done|]. by rewrite Hr.
Qed.

(** The writes of [promote], when no promotion is running. *)
Lemma promote_good node w :
  (forall o, o ∈ w_nodes w -> running o = false) ->
  goodWrite (w_nodes w) (w_nodes (promote E node w).2).
Proof.
  intros Hno. unfold promote. m_unfold.
  assert (Hs : goodWrite (w_nodes w) (w_nodes (setPromoteStart E node w).2)).
  { unfold setPromoteStart. destruct (String.eqb _ _); [by left|]. m_unfold.
    destruct (gm_store _ _ _) as [a|e|] eqn:Ea; simpl; [|by left|by left].
    unfold nodes_Update, apiWrite. destruct (env_nodeUpdate E _); simpl; [by left|].
    right. eexists. split; [done|]. by right. }
  destruct (setPromoteStart E node w) as [[n|e|] w1] eqn:E1; simpl in *; try done.
  pose proof (createPromoteJob_nodes node w1) as Hc.
  destruct (createPromoteJob E node w1) as [[j|e|] w2]; simpl in *; by rewrite Hc.
Qed.

(** The object in hand is the stored one, or else its update is refused (with a conflict). *)
Definition currentOrRefused (n : Node) (w : World) : Prop :=
  n ∈ w_nodes w \/ forall n', node_Name n' = node_Name n -> env_nodeUpdate E n' <> None.

(** The node cache shows that a promotion is running whenever one is. *)
Definition showsRunning (w : World) : Prop :=
  forall o, o ∈ w_nodes w -> running o = true ->
    exists o', o' ∈ env_nodeView E (w_nodes w) /\ running o' = true.

Lemma PromoteOnNodeChanged_good n w :
  currentOrRefused n w -> showsRunning w ->
  goodWrite (w_nodes w) (w_nodes (PromoteOnNodeChanged E (Some n) w).2).
Proof.
  intros Hn Hv. unfold PromoteOnNodeChanged. case_bool_decide; [by left|].
  unfold nodeCache_List. m_unfold. destruct (env_nodeList E); [by left|]. simpl.
  destruct (_ && _).
  - set (n' := reconcileInstallCordonedNode n _).
    destruct (reconcileInstallCordonedNode_keeps n (env_nodeView E (w_nodes w))) as [Hr Hname].
    fold n' in Hr, Hname.
    unfold nodes_Update, apiWrite. destruct (env_nodeUpdate E n') eqn:Eu; simpl; [by left|].
    destruct Hn as [Hn|Hn]; [|by destruct (Hn n')].
    right. exists n'. split; [done|]. rewrite Hr. left. eauto.
  - destruct (Nat.ltb _ _); [by left|].
    destruct (selectPromoteNode _) as [p|] eqn:Es; [|by left].
    destruct (_ || _); [by left|].
    assert (Hno : forall o, o ∈ w_nodes w -> running o = false).
    { intros o Ho. destruct (running o) eqn:Er; [|done]. destruct (Hv o Ho Er) as (o' & Ho' & Er').
      by rewrite (running_blocks_choice _ _ Ho' Er') in Es. }
    pose proof (promote_good p w Hno) as Hg.
    by destruct (promote E p w) as [[?|?|] w']; simpl in *.
Qed.

Lemma nodeCache_Get_state name w : (nodeCache_Get E name w).2 = w.
Proof. unfold nodeCache_Get. by destruct (env_nodeGet E name), (findNode name (env_nodeView E (w_nodes w))). Qed.

Lemma PromoteOnJobChanged_good j w :
  goodWrite (w_nodes w) (w_nodes (PromoteOnJobChanged E (Some j) w).2).
Proof.
  unfold PromoteOnJobChanged. case_bool_decide; [by left|].
  destruct (gm_get _ _) as [name|]; [|by left]. m_unfold.
  pose proof (nodeCache_Get_state name w) as Hw.
  destruct (nodeCache_Get E name w) as [[n|e|] w1]; simpl in *; subst w1; [|..|by left].
  - destruct (jobCondIsTrue JobComplete j); [|destruct (jobCondIsTrue JobFailed j)];
      [| |by left].
    + pose proof (setPromoteResult_good j n PromoteStatusComplete w ltac:(done)) as Hg.
      by destruct (setPromoteResult E j n PromoteStatusComplete w) as [[?|?|] ?].
    + pose proof (setPromoteResult_good j n PromoteStatusFailed w ltac:(done)) as Hg.
      by destruct (setPromoteResult E j n PromoteStatusFailed w) as [[?|?|] ?].
  - destruct (IsNotFound e); [|by left]. unfold deleteJob, apiWrite.
    by destruct (env_jobDelete E j); left.
Qed.

Lemma OnJobRemove_good j w :
  goodWrite (w_nodes w) (w_nodes (OnJobRemove E (Some j) w).2).
Proof.
  unfold OnJobRemove. destruct (gm_get _ _) as [name|]; [|by left].
  destruct (_ || _); [by left|]. m_unfold.
  pose proof (nodeCache_Get_state name w) as Hw.
  destruct (nodeCache_Get E name w) as [[n|e|] w1]; simpl in *; subst w1; [|..|by left].
  - destruct (IsPromoteStatusIn n _); [|by left].
    pose proof (setPromoteResult_good j n PromoteStatusUnknown w ltac:(done)) as Hg.
    by destruct (setPromoteResult E j n PromoteStatusUnknown w) as [[?|?|] ?].
  - by destruct (IsNotFound e); left.
Qed.
End Writes.

(** A step: one of the handlers runs, under any answers of the API server, or the
    world outside changes nodes and jobs without starting a promotion.  A handler makes at
    most one write to a node, so a run of it that others interrupt is a run at the time of
    that write with a view of the nodes from before.  The views may be as late as they like,
    but for one thing: the node handler sees that a promotion is running. *)
Inductive pstep (w : World) : World -> Prop :=
| ps_node E n :
    currentOrRefused E n w -> showsRunning E w -> pstep w (PromoteOnNodeChanged E (Some n) w).2
| ps_job E j : pstep w (PromoteOnJobChanged E (Some j) w).2
| ps_jobRemove E j : pstep w (OnJobRemove E (Some j) w).2
| ps_outside ns js evs q :
    NoDup (map node_Name ns) ->
    (forall n, n ∈ ns -> running n = true ->
       exists o, o ∈ w_nodes w /\ node_Name o = node_Name n /\ running o = true) ->
    pstep w (mkWorld ns js evs q).

Definition pinit (w : World) : Prop :=
  NoDup (map node_Name (w_nodes w)) /\ forall n, n ∈ w_nodes w -> running n = false.

Lemma pstep_inv w w' : worldInv w -> pstep w w' -> worldInv w'.
Proof.
  unfold worldInv. intros HI Hs. destruct Hs.
  - eapply goodWrite_inv; [done|]. by apply PromoteOnNodeChanged_good.
  - eapply goodWrite_inv; [done|]. apply PromoteOnJobChanged_good.
  - eapply goodWrite_inv; [done|]. apply OnJobRemove_good.
  - split; [done|]. simpl. intros m n Hm Hn Rm Rn. destruct HI as [_ HI].
    destruct (H0 m Hm Rm) as (o1 & ? & <- & ?), (H0 n Hn Rn) as (o2 & ? & <- & ?). auto.
Qed.

(** C16: At most one node is being promoted at a time: in every run of the three handlers,
    with caches that lag behind but show the node handler that a promotion is running when
    one is, interleaved with any changes from outside that do not themselves mark a node as
    running, and under any failures of the API server (which refuses the update of an object
    that is not the stored one).  Without that condition on the cache two nodes are promoted
    ([late_list_promotes_two]). *)
Theorem one_promotion_at_a_time w :
  reachable pinit pstep w ->
  forall m n, m ∈ w_nodes w -> n ∈ w_nodes w -> running m = true -> running n = true ->
    node_Name m = node_Name n.
Proof.
  intros Hr. enough (worldInv w) as [_ H] by exact H. revert w Hr.
  apply invariant_reachable; [|apply pstep_inv].
  intros w [Hnd Hno]. split; [done|]. intros m n Hm _ Rm. by rewrite Hno in Rm.
Qed.

(** ** Runs of the handlers *)

(** The node as [setPromoteStart] writes it. *)
Definition startedNode (p : Node) : Node :=
  node_set_Unschedulable true
    (node_set_Annotations
       (gm_set (node_Annotations p) HarvesterPromoteStatusAnnotationKey PromoteStatusRunning)
       p).

Lemma running_started p : running (startedNode p) = true.
Proof. exact (running_set_status p PromoteStatusRunning). Qed.

Lemma setPromoteStart_Ok E p w :
  running p = false -> node_Annotations p <> None ->
  env_nodeUpdate E (startedNode p) = None ->
  exists w', setPromoteStart E p w = (Ok (startedNode p), w') /\
    w_nodes w' = replaceNode (startedNode p) (w_nodes w) /\ w_jobs w' = w_jobs w.
Proof.
  intros Hr Ha HE. unfold setPromoteStart.
  replace (String.eqb _ _) with false; cycle 1.
  { symmetry. apply String.eqb_neq. intros H. revert Hr.
    unfold running, IsPromoteStatusIn, gm_str in *.
    destruct (gm_get _ _) as [s|]; simpl in *; [by subst|done]. }
  m_unfold. rewrite (gm_store_set _ _ _ Ha). simpl. unfold nodes_Update, apiWrite.
  fold (startedNode p). rewrite HE. eexists. split; [done|]. by split.
Qed.

Section NodeEvent.
Context (E : Env) (w : World) (node p : Node).
Hypothesis no_deletion : om_DeletionTimestamp (node_meta node) = None.
Hypothesis not_cordoned : gm_str (node_Labels node) HarvesterInstallCordonedLabel <> "true".
Hypothesis list_ok : env_nodeList E = None.
Hypothesis view_ok : env_nodeView E (w_nodes w) = w_nodes w.
Hypothesis enough : (defaultSpecManagementNumber <= length (w_nodes w))%nat.
Hypothesis chosen : selectPromoteNode (w_nodes w) = Some p.
Hypothesis kind : node_Kind p <> "" /\ node_APIVersion p <> "".
Hypothesis annotated : node_Annotations p <> None.
Hypothesis update_ok : env_nodeUpdate E (startedNode p) = None.

(** A node event that promotes, up to the creation of the job. *)
Lemma OnNodeChanged_promotes :
  exists w1, w_nodes w1 = replaceNode (startedNode p) (w_nodes w) /\ w_jobs w1 = w_jobs w /\
    PromoteOnNodeChanged E (Some node) w =
      match createPromoteJob E p w1 with
      | (Ok _, w2) => (Ok (Some node), w2)
      | (Err e, w2) => (Err e, w2)
      | (Panic, w2) => (Panic, w2)
      end.
Proof using All.
  destruct (selectPromoteNode_inv _ _ chosen) as (a & I & _ & Hin & _).
  destruct (getCandidate_sound _ _ _ I Hin) as [Hp _].
  assert (Hr : running p = false).
  { destruct (running p) eqn:Er; [|done]. by rewrite (running_blocks_choice _ _ Hp Er) in chosen. }
  destruct (setPromoteStart_Ok E p w Hr annotated update_ok) as (w1 & Es & Hn & Hj).
  exists w1. split_and!; [done..|]. unfold PromoteOnNodeChanged.
  rewrite no_deletion. unfold nodeCache_List. m_unfold. rewrite list_ok, view_ok.
  replace (String.eqb (gm_str (node_Labels node) _) "true") with false
    by (symmetry; by apply String.eqb_neq).
  simpl. replace (Nat.ltb _ _) with false by (symmetry; by apply Nat.ltb_ge).
  rewrite chosen. destruct kind as [?%String.eqb_neq ?%String.eqb_neq].
  rewrite H, H0. simpl. unfold promote. m_unfold. rewrite Es.
  by destruct (createPromoteJob E p w1) as [[?|?|] ?].
Qed.

(** When a node event chooses a node and every call succeeds, the node ends
    cordoned with promote status running, and one promote job for it, the one
    [buildPromoteJob] describes, is created. *)
Theorem OnNodeChanged_promote_ok image :
  env_image E = inl image ->
  env_jobCreate E (buildPromoteJob (env_safeName E) (env_namespace E) p image) = None ->
  exists w', PromoteOnNodeChanged E (Some node) w = (Ok (Some node), w') /\
    startedNode p ∈ w_nodes w' /\
    running (startedNode p) = true /\ node_Unschedulable (startedNode p) = true /\
    w_jobs w' = w_jobs w ++ [buildPromoteJob (env_safeName E) (env_namespace E) p image].
Proof using All.
  intros Hi Hc. destruct OnNodeChanged_promotes as (w1 & Hn & Hj & ->).
  unfold createPromoteJob, apiWrite. rewrite Hi, Hc. simpl.
  eexists. split_and!; [done| |apply running_started|done|simpl; by rewrite Hj]. simpl. rewrite Hn.
  destruct (selectPromoteNode_inv _ _ chosen) as (a & I & _ & Hin & _).
  destruct (getCandidate_sound _ _ _ I Hin) as [Hp _].
  by eapply elem_of_replaceNode_new.
Qed.

(** When the job cannot be created (no image, or the API server refuses it)
    the handler fails after it has marked the node: the node stays in status
    running and cordoned although no job exists for it, and the next choice finds
    nothing, so that retrying the handler never promotes this node or another
    until somebody clears the annotation. *)
Theorem OnNodeChanged_job_failure_strands :
  (forall image, env_image E = inl image ->
     env_jobCreate E (buildPromoteJob (env_safeName E) (env_namespace E) p image) <> None) ->
  exists e w', PromoteOnNodeChanged E (Some node) w = (Err e, w') /\
    startedNode p ∈ w_nodes w' /\ w_jobs w' = w_jobs w /\
    selectPromoteNode (w_nodes w') = None.
Proof using All.
  intros Hf. destruct OnNodeChanged_promotes as (w1 & Hn & Hj & ->).
  assert (Hin : startedNode p ∈ w_nodes w1).
  { rewrite Hn. destruct (selectPromoteNode_inv _ _ chosen) as (a & I & _ & Hin & _).
    destruct (getCandidate_sound _ _ _ I Hin) as [Hp _]. by eapply elem_of_replaceNode_new. }
  pose proof (running_blocks_choice _ _ Hin (running_started p)) as Hb.
  unfold createPromoteJob, apiWrite, throw. destruct (env_image E) as [image|e'].
  - specialize (Hf image eq_refl). destruct (env_jobCreate E _) as [e|]; [|done].
    exists e, w1. by split_and!.
  - eexists _, w1. by split_and!.
Qed.
End NodeEvent.

(** The end of the job decides the node: for an unfinished node status, a
    completed job makes the node schedulable with status complete, a failed job
    records status failed and leaves the cordon. *)
Theorem OnJobChanged_result E w j name n :
  om_DeletionTimestamp (job_meta j) = None ->
  gm_get (job_Labels j) HarvesterPromoteNodeLabelKey = Some name ->
  env_nodeGet E name = None -> findNode name (env_nodeView E (w_nodes w)) = Some n ->
  node_Annotations n <> None -> running n = true ->
  (forall n', env_nodeUpdate E n' = None) ->
  jobCondIsTrue JobComplete j = true \/ jobCondIsTrue JobFailed j = true ->
  exists w' n', PromoteOnJobChanged E (Some j) w = (Ok (Some j), w') /\
    w_nodes w' = replaceNode n' (w_nodes w) /\ node_Name n' = name /\
    gm_get (node_Annotations n') HarvesterPromoteStatusAnnotationKey =
      Some (if jobCondIsTrue JobComplete j then PromoteStatusComplete
            else PromoteStatusFailed) /\
    node_Unschedulable n' =
      (if jobCondIsTrue JobComplete j then false else node_Unschedulable n).
Proof.
  intros Hd Hl Hg Hf Ha Hr Hu Hc. unfold PromoteOnJobChanged. rewrite Hd, Hl. m_unfold.
  unfold nodeCache_Get. rewrite Hg, Hf. simpl.
  destruct (findNode_Some _ _ _ Hf) as [_ Hn].
  assert (Hne : forall s, s <> PromoteStatusRunning ->
    String.eqb (gm_str (node_Annotations n) HarvesterPromoteStatusAnnotationKey) s = false).
  { intros s Hs. apply String.eqb_neq. unfold running, IsPromoteStatusIn, gm_str in *.
    destruct (gm_get (node_Annotations n) _) as [x|]; simpl in *; [|done].
    destruct (String.eqb_spec x PromoteStatusRunning); [congruence|done]. }
  assert (Hset : forall s, s <> PromoteStatusRunning ->
    let n1 := node_set_Annotations (gm_set (node_Annotations n)
                HarvesterPromoteStatusAnnotationKey s) n in
    let n' := if String.eqb s PromoteStatusComplete then node_set_Unschedulable false n1
              else n1 in
    exists w', setPromoteResult E j n s w = (Ok j, w') /\
      w_nodes w' = replaceNode n' (w_nodes w)).
  { intros s Hs. unfold setPromoteResult. rewrite Hne by done. m_unfold.
    rewrite (gm_store_set _ _ _ Ha). simpl. unfold nodes_Update, apiWrite. rewrite Hu.
    eexists. by split. }
  destruct (jobCondIsTrue JobComplete j) eqn:Ejc.
  - destruct (Hset PromoteStatusComplete ltac:(done)) as (w' & -> & Hw). simpl in Hw.
    eexists w', _. split_and!; [done|exact Hw|done| |done].
    unfold node_Annotations. simpl. by rewrite gm_get_set_eq.
  - destruct Hc as [|Hc]; [done|]. rewrite Hc.
    destruct (Hset PromoteStatusFailed ltac:(done)) as (w' & -> & Hw). simpl in Hw.
    eexists w', _. split_and!; [done|exact Hw|done| |done].
    unfold node_Annotations. simpl. by rewrite gm_get_set_eq.
Qed.

(** Cordoning at install never takes the last available node: the node ends
    unschedulable only if it was before or another node is neither in maintenance
    nor cordoned; and the cordon is recorded as processed in every case. *)
Theorem reconcileInstallCordonedNode_safe node l :
  let n' := reconcileInstallCordonedNode node l in
  gm_get (node_Annotations n') HarvesterInstallCordonedProcessedAnnotation = Some "true" /\
  (node_Unschedulable n' = true <->
   node_Unschedulable node = true \/
   exists o, o ∈ l /\ node_Name o <> node_Name node /\
     IsMaintenanceModeEngaged (Some o) = false /\ node_Unschedulable o = false).
Proof.
  simpl. rewrite <- IsOtherNodeAvailable_spec. unfold reconcileInstallCordonedNode.
  split.
  - unfold node_Annotations. simpl. by rewrite gm_get_set_eq.
  - destruct (node_Unschedulable node) eqn:Eu; simpl; [rewrite Eu; tauto|].
    destruct (IsOtherNodeAvailable (node_Name node) l); simpl; rewrite ?Eu; naive_solver.
Qed.

(** ** Witnesses *)

Module Examples.
Definition mkN (name : string) (labels : gmap string string) (created : Z) : Node :=
  mkNode (mkMeta name "" "" name (Some labels) (Some ∅) [] created None) "Node" "v1" false []
    [mkNodeCond NodeReady ConditionTrue 0 0 "" ""] "".

Definition mgmt1 : Node :=
  mkN "m1" {[ KubeControlPlaneNodeLabelKey := "true"; HarvesterManagedNodeLabelKey := "true" ]} 1.
Definition worker (name : string) (created : Z) : Node :=
  mkN name {[ HarvesterManagedNodeLabelKey := "true" ]} created.
Definition cluster : list Node := [mgmt1; worker "w2" 30; worker "w3" 20].

Definition env0 : Env :=
  mkEnv id None (fun _ => None) (fun _ => None) (fun _ => None) (fun _ => None)
    (inl "rancher/harvester") (fun s => s) (fun l => Join "-" l) "harvester-system".
Definition envNoImage : Env :=
  mkEnv id None (fun _ => None) (fun _ => None) (fun _ => None) (fun _ => None)
    (inr (ErrText "no values")) (fun s => s) (fun l => Join "-" l) "harvester-system".
Definition world0 : World := mkWorld cluster [] [] [].

Lemma choice : selectPromoteNode cluster = Some (worker "w3" 20).
Proof. vm_compute. reflexivity. Qed.

Lemma cluster_plain n :
  n ∈ cluster -> hasWitnessLabel n = false /\ blocking n = false.
Proof.
  intros H. repeat (apply elem_of_cons in H as [->|H]; [by vm_compute|]).
  by apply not_elem_of_nil in H.
Qed.
End Examples.
Import Examples.

Lemma selectPromoteNode_sound_witness :
  selectPromoteNode cluster = Some (worker "w3" 20) /\
  promotable (worker "w3" 20) = true.
Proof.
  split; [exact choice|].
  exact (proj1 (proj2 (selectPromoteNode_sound cluster (worker "w3" 20) choice))).
Defined.

Lemma selectPromoteNode_preference_witness :
  node_CreationTimestamp (worker "w3" 20) <= node_CreationTimestamp (worker "w2" 30).
Proof.
  apply (proj2 (proj2 (selectPromoteNode_preference cluster (worker "w3" 20) choice))).
  - right. by vm_compute.
  - unfold cluster. set_solver.
  - by vm_compute.
  - by vm_compute.
Defined.

Lemma selectPromoteNode_progress_witness : is_Some (selectPromoteNode cluster).
Proof.
  apply (selectPromoteNode_progress cluster (worker "w3" 20)).
  - exact cluster_plain.
  - apply Nat.ltb_lt. by vm_compute.
  - apply Nat.leb_le. by vm_compute.
  - by vm_compute.
  - unfold cluster. set_solver.
  - by vm_compute.
Defined.

(** A node event after the promotion of w3 has started, with a cache that lacks w2. *)
Definition envLate : Env :=
  mkEnv (List.filter (fun n => negb (String.eqb (node_Name n) "w2"))) None (fun _ => None)
    (fun _ => None) (fun _ => None) (fun _ => None)
    (inl "rancher/harvester") (fun s => s) (fun l => Join "-" l) "harvester-system".

Lemma one_promotion_at_a_time_witness :
  let w1 := (PromoteOnNodeChanged env0 (Some mgmt1) world0).2 in
  let w2 := (PromoteOnNodeChanged envLate (Some mgmt1) w1).2 in
  reachable pinit pstep w2 /\ List.filter running (w_nodes w2) = [startedNode (worker "w3" 20)] /\
  forall m n, m ∈ w_nodes w2 -> n ∈ w_nodes w2 ->
    running m = true -> running n = true -> node_Name m = node_Name n.
Proof.
  intros w1 w2.
  assert (H : reachable pinit pstep w2).
  { eapply reach_step; [eapply reach_step|].
    - apply (reach_init _ _ world0). split; [by vm_compute; apply (bool_decide_unpack _)|].
      intros n Hn. destruct (cluster_plain n Hn) as [_ Hb].
      destruct (running n) eqn:E; [|done]. by rewrite (running_blocking _ E) in Hb.
    - apply (ps_node _ env0 mgmt1); [left; simpl; unfold cluster; set_solver|].
      intros o Ho Hr. exists o. done.
    - apply (ps_node _ envLate mgmt1); [left|].
      + replace (w_nodes _) with [mgmt1; worker "w2" 30; startedNode (worker "w3" 20)] by by vm_compute.
        set_solver.
      + intros o _ _. exists (startedNode (worker "w3" 20)). split; [|by vm_compute].
        replace (env_nodeView _ _) with [mgmt1; startedNode (worker "w3" 20)] by by vm_compute.
        set_solver. }
  split; [exact H|]. split; [by vm_compute|]. exact (one_promotion_at_a_time _ H).
Defined.

(** Why the list must show the running promotion.  While the handler for one node is about to
    mark w3, an older node w1 joins; the handler for another node, whose cache has w1 but not
    yet the mark on w3, chooses and marks w1.  No update conflicts, and both are promoted. *)
Theorem late_list_promotes_two :
  let joined := cluster ++ [worker "w1" 10] in
  let seeing l := mkEnv (fun _ => l) None (fun _ => None) (fun _ => None) (fun _ => None)
    (fun _ => None) (inl "rancher/harvester") (fun s => s) (fun l => Join "-" l) "harvester-system" in
  let w1 := (PromoteOnNodeChanged (seeing cluster) (Some mgmt1) (mkWorld joined [] [] [])).2 in
  let w2 := (PromoteOnNodeChanged (seeing joined) (Some mgmt1) w1).2 in
  map node_Name (List.filter running (w_nodes w2)) = ["w3"; "w1"] /\ length (w_jobs w2) = 2%nat.
Proof. by vm_compute. Qed.

Lemma OnNodeChanged_promote_ok_witness :
  exists w', PromoteOnNodeChanged env0 (Some mgmt1) world0 = (Ok (Some mgmt1), w') /\
    startedNode (worker "w3" 20) ∈ w_nodes w'.
Proof.
  destruct (OnNodeChanged_promote_ok env0 world0 mgmt1 (worker "w3" 20) eq_refl
    ltac:(by vm_compute) eq_refl eq_refl ltac:(vm_compute; lia) choice ltac:(done) ltac:(done) eq_refl
    "rancher/harvester" eq_refl eq_refl) as (w' & H1 & H2 & _).
  exists w'. split; [exact H1|exact H2].
Defined.

Lemma OnNodeChanged_job_failure_strands_witness :
  exists e w', PromoteOnNodeChanged envNoImage (Some mgmt1) world0 = (Err e, w') /\
    selectPromoteNode (w_nodes w') = None.
Proof.
  destruct (OnNodeChanged_job_failure_strands envNoImage world0 mgmt1 (worker "w3" 20) eq_refl
    ltac:(by vm_compute) eq_refl eq_refl ltac:(vm_compute; lia) choice ltac:(done) ltac:(done) eq_refl
    ltac:(intros image H; discriminate H)) as (e & w' & H1 & _ & _ & H2).
  exists e, w'. split; [exact H1|exact H2].
Defined.

Lemma OnJobChanged_result_witness :
  let n := startedNode (worker "w3" 20) in
  let j := mkJob (mkMeta "j" "" "" "" (Some {[ HarvesterPromoteNodeLabelKey := "w3" ]}) None
                    [] 0 None)
             (job_spec (buildPromoteJob (Join "-") "" n ""))
             (mkJobStatus (Some 5) [mkCond JobComplete ConditionTrue "" "" ""] 0 0 1) in
  exists w' n', PromoteOnJobChanged env0 (Some j) (mkWorld [n] [j] [] []) = (Ok (Some j), w') /\
    w_nodes w' = replaceNode n' [n] /\ node_Unschedulable n' = false.
Proof.
  intros n j.
  destruct (OnJobChanged_result env0 (mkWorld [n] [j] [] []) j "w3" n eq_refl
    ltac:(by vm_compute) eq_refl ltac:(by vm_compute) ltac:(done) ltac:(by vm_compute)
    (fun _ => eq_refl) ltac:(left; by vm_compute)) as (w' & n' & H1 & H2 & _ & _ & H3).
  exists w', n'. split; [exact H1|]. split; [exact H2|]. exact H3.
Defined.

(** The choice depends on the order in which the cache lists the nodes: a second,
    not yet promoted witness still counts as a possible management node when it
    is listed before the promoted one, and does not when it comes after. *)
Theorem selectPromoteNode_order_dependent :
  let wit name created extra :=
    mkN name (<[ HarvesterWitnessNodeLabelKey := "true" ]>
               (<[ HarvesterManagedNodeLabelKey := "true" ]> extra)) created in
  let w1 := wit "w1" 5 ∅ in
  let w2 := wit "w2" 6 {[ KubeEtcdNodeLabelKey := "true" ]} in
  let h := worker "h" 7 in
  [w1; w2; h] ≡ₚ [w2; w1; h] /\
  selectPromoteNode [w1; w2; h] = Some h /\ selectPromoteNode [w2; w1; h] = None.
Proof. split_and!; [apply perm_swap|by vm_compute|by vm_compute]. Qed.
