(* ===== verification/ResourceQuota.v ===== *)
(** [pkg/util/resourcequota]: the annotations that record migrating VMs on a
    namespace's ResourceQuota ([utils.go]) and the quota arithmetic of VM start,
    storage and migration ([calculator.go]).

    [RqLib] is the interface to code outside this repository: the JSON encoders,
    the quantity parser and kubevirt's memory overhead. *)

From S2P Require Import Prelude K8s.

Local Open Scope Z_scope.

(** ** Data *)

(** The fields of rancher's [ResourceQuotaLimit], all optional strings. *)
Record ResourceQuotaLimit := mkLimit {
  l_Pods : string; l_Services : string; l_ReplicationControllers : string;
  l_Secrets : string; l_ConfigMaps : string; l_PersistentVolumeClaims : string;
  l_ServicesNodePorts : string; l_ServicesLoadBalancers : string;
  l_RequestsCPU : string; l_RequestsMemory : string; l_RequestsStorage : string;
  l_LimitsCPU : string; l_LimitsMemory : string }.

Record NamespaceResourceQuota := mkNRQ { nrq_Limit : ResourceQuotaLimit }.

Record ResourceQuota := mkRQ {
  rq_meta : ObjectMeta;
  rq_Hard : gomap Z;          (* Spec.Hard *)
  rq_Used : gomap Z }.        (* Status.Used *)

Definition rq_Annotations (rq : ResourceQuota) : gomap string := om_Annotations (rq_meta rq).
Definition rq_set_Annotations (a : gomap string) (rq : ResourceQuota) : ResourceQuota :=
  mkRQ (set_Annotations a (rq_meta rq)) (rq_Hard rq) (rq_Used rq).
Definition rq_set_Hard (h : gomap Z) (rq : ResourceQuota) : ResourceQuota :=
  mkRQ (rq_meta rq) h (rq_Used rq).

(** The parts of a VirtualMachineInstance and of a VirtualMachine the code reads.
    [vm_Template] is the pointer [Spec.Template] with the limits of its domain. *)
Record MigrationState := mkMigState {
  ms_MigrationUID : string; ms_Completed : bool; ms_AbortStatus : string }.

Record VMI := mkVMI {
  vmi_meta : ObjectMeta;
  vmi_Limits : gomap Z;                        (* Spec.Domain.Resources.Limits *)
  vmi_MigrationState : option MigrationState }.

Record VM := mkVM {
  vm_meta : ObjectMeta;
  vm_PrintableStatus : string;
  vm_Running : option bool;
  vm_RunStrategy : option string;
  vm_Template : option (gomap Z) }.

#[export] Instance ResourceQuota_eq : EqDecision ResourceQuota.
Proof. solve_decision. Defined.
#[export] Instance MigrationState_eq : EqDecision MigrationState.
Proof. solve_decision. Defined.
#[export] Instance VMI_eq : EqDecision VMI.
Proof. solve_decision. Defined.

(** An entry of the volumeClaimTemplates annotation: the requests of its claim. *)
Record VolumeClaimTemplateEntry := mkVCT { vct_Requests : gomap Z }.

Class RqLib := mkLib {
  lib_rl :: JsonCodec (gomap Z);                                   (* ResourceList *)
  lib_parseQuantity : string -> option Z;
  lib_nrqUnmarshal : string -> option (option NamespaceResourceQuota);  (* Some None: null *)
  lib_vctUnmarshal : string -> option (list VolumeClaimTemplateEntry);
  lib_GetMemoryOverhead : VMI -> option string -> Z }.             (* architecture fixed *)

(** The caches of [Calculator]. *)
Record CalcEnv := mkCalc {
  ce_nsGet : string -> outcome (gomap string);               (* annotations of a namespace *)
  ce_podsByVM : string -> string -> outcome nat;             (* pods of a VM: how many *)
  ce_rqDefault : string -> outcome (list ResourceQuota);     (* quotas with the default label *)
  ce_ratio : option string }.                                (* memory overhead ratio *)

(** ** Keys ([pkg/util/constants.go], [pkg/util/annotationkey.go]) *)

Definition AnnotationMigratingNamePrefix : string := "harvesterhci.io/migrating-".
Definition AnnotationMigratingUIDPrefix : string := "harvesterhci.io/migratingUID-".
Definition AnnotationMigratingCompensation : string := "harvesterhci.io/migratingCompensation".
Definition AnnotationMigratingScalingResyncNeeded : string :=
  "harvesterhci.io/migratingScalingResyncNeeded".
Definition AnnotationSkipResourceQuotaAutoScaling : string :=
  "harvesterhci.io/skipResourceQuotaAutoScaling".
Definition CattleAnnotationResourceQuota : string := "field.cattle.io/resourceQuota".
Definition LabelManagementDefaultResourceQuota : string :=
  "resourcequota.management.cattle.io/default-resource-quota".
Definition AnnotationVolumeClaimTemplates : string := "harvesterhci.io/volumeClaimTemplates".

Definition GenerateAnnotationKeyMigratingVMName (vmName : string) : string :=
  AnnotationMigratingNamePrefix +:+ vmName.
Definition GenerateAnnotationKeyMigratingVMUID (vmUID : string) : string :=
  AnnotationMigratingUIDPrefix +:+ vmUID.

(** 128Mi added to a compensation. *)
Definition additionalCompensationMemory : Z := Z.shiftl 128 20.

Definition stringTrue : string := "true".
Definition stringFalse : string := "false".

Section RQ.
Context {L : RqLib}.

(** ** [utils.go]: migrating VMs on the quota's annotations

    A pointer to a quota is an option; the functions that mutate it return it. *)

Definition HasMigratingVM (rq : option ResourceQuota) : bool :=
  match rq with
  | None => false
  | Some rq =>
      match rq_Annotations rq with
      | None => false
      | Some g => existsb (fun kv => HasPrefix kv.1 AnnotationMigratingUIDPrefix
                                     || HasPrefix kv.1 AnnotationMigratingNamePrefix)
                    (map_to_list g)
      end
  end.

Definition AddMigratingVM (rq : option ResourceQuota) (vmName vmUID : string) (rl : gomap Z)
  : outcome ResourceQuota :=
  match rq with
  | None => Err (ErrText "failed to call AddMigratingVM as input rq is nil")
  | Some rq =>
      let rlb := json_marshal rl in
      let a := match rq_Annotations rq with None => Some ∅ | a => a end in
      let a := gm_delete a (GenerateAnnotationKeyMigratingVMName vmName) in
      let a := gm_set a (GenerateAnnotationKeyMigratingVMUID vmUID) rlb in
      Ok (rq_set_Annotations a rq)
  end.

Definition DeleteMigratingVM (rq : ResourceQuota) (vmName vmUID : string)
  : ResourceQuota * bool :=
  match rq_Annotations rq with
  | None => (rq, false)
  | a =>
      let len1 := gm_len a in
      let a := gm_delete a (GenerateAnnotationKeyMigratingVMName vmName) in
      let a := gm_delete a (GenerateAnnotationKeyMigratingVMUID vmUID) in
      let len2 := gm_len a in
      (rq_set_Annotations a rq, negb (Nat.eqb len1 len2))
  end.

Definition ContainsMigratingVM (rq : option ResourceQuota) (vmName vmUID : string) : bool :=
  match rq with
  | None => false
  | Some rq =>
      match rq_Annotations rq with
      | None => false
      | a => if gm_has a (GenerateAnnotationKeyMigratingVMName vmName) then true
             else gm_has a (GenerateAnnotationKeyMigratingVMUID vmUID)
      end
  end.

(** The loop of [getResourceListFromMigratingVMs] over the annotations, in the
    order the map iteration yields them. *)
Fixpoint migratingLoop (vms : gmap string (gomap Z)) (entries : list (string * string))
  : outcome (gmap string (gomap Z)) :=
  match entries with
  | [] => Ok vms
  | (k, v) :: entries =>
      if HasPrefix k AnnotationMigratingUIDPrefix then
        match json_unmarshal v with
        | None => Err (ErrText "failed to unmarshal vm quantity")
        | Some rl => migratingLoop (<[ TrimPrefix k AnnotationMigratingUIDPrefix := rl ]> vms)
                       entries
        end
      else if HasPrefix k AnnotationMigratingNamePrefix then
        match json_unmarshal v with
        | None => Err (ErrText "failed to unmarshal vm quantity")
        | Some rl => migratingLoop (<[ TrimPrefix k AnnotationMigratingNamePrefix := rl ]> vms)
                       entries
        end
      else migratingLoop vms entries
  end.

Definition getResourceListFromMigratingVMs (rq : option ResourceQuota)
  : outcome (gmap string (gomap Z)) :=
  match rq with
  | None => Ok ∅
  | Some rq =>
      match rq_Annotations rq with
      | None => Ok ∅
      | Some g => migratingLoop ∅ (map_to_list g)
      end
  end.

Definition HasMigratingCompensation (rq : option ResourceQuota) : bool :=
  match rq with
  | None => false
  | Some rq => negb (String.eqb (gm_str (rq_Annotations rq) AnnotationMigratingCompensation) "")
  end.

Definition AddMigratingCompensation (rq : option ResourceQuota) (rl : gomap Z)
  : outcome ResourceQuota :=
  match rq with
  | None => Err (ErrText "failed to call AddMigratingCompensation as input rq is nil")
  | Some rq =>
      let rlb := json_marshal rl in
      Ok (rq_set_Annotations (gm_set (rq_Annotations rq) AnnotationMigratingCompensation rlb) rq)
  end.

Definition DeleteMigratingCompensation (rq : ResourceQuota) : ResourceQuota * bool :=
  match rq_Annotations rq with
  | None => (rq, false)
  | a =>
      let initialLen := gm_len a in
      let a := gm_delete a AnnotationMigratingCompensation in
      (rq_set_Annotations a rq, negb (Nat.eqb initialLen (gm_len a)))
  end.

(** The inner option: a nil list, when there is no compensation. *)
Definition getResourceListOfMigratingCompensation (rq : option ResourceQuota)
  : outcome (gomap Z) :=
  match rq with
  | None => Ok None
  | Some rq =>
      let compensation := gm_str (rq_Annotations rq) AnnotationMigratingCompensation in
      if String.eqb compensation "" then Ok None
      else match json_unmarshal compensation with
           | None => Err (ErrText "failed to unmarshal compensation quantity")
           | Some rl => Ok rl
           end
  end.

Definition SetAnnotationMigratingScalingResyncNeeded (rq : ResourceQuota) : ResourceQuota :=
  rq_set_Annotations
    (gm_set (rq_Annotations rq) AnnotationMigratingScalingResyncNeeded stringTrue) rq.

Definition ClearAnnotationMigratingScalingResyncNeeded (rq : ResourceQuota) : ResourceQuota :=
  match gm_get (rq_Annotations rq) AnnotationMigratingScalingResyncNeeded with
  | Some val =>
      if negb (String.eqb val stringTrue) then rq
      else rq_set_Annotations
             (gm_set (rq_Annotations rq) AnnotationMigratingScalingResyncNeeded stringFalse) rq
  | None => rq
  end.

Definition IsMigratingScalingResyncNeeded (rq : option ResourceQuota) : bool :=
  match rq with
  | None => false
  | Some rq =>
      String.eqb (gm_str (rq_Annotations rq) AnnotationMigratingScalingResyncNeeded) stringTrue
  end.

Definition IsResourceQuotaAutoScalingDisabled (rq : option ResourceQuota) : bool :=
  match rq with
  | None => false
  | Some rq =>
      String.eqb (gm_str (rq_Annotations rq) AnnotationSkipResourceQuotaAutoScaling) stringTrue
  end.

(** ** [calculator.go]: quota limits *)

Definition isEmpty (rq : option ResourceQuota) : bool :=
  match rq with
  | None => true
  | Some rq =>
      match rq_Hard rq with
      | None => true
      | hard => Q_IsZero (rl_Name hard ResourceLimitsCPU)
                && Q_IsZero (rl_Name hard ResourceLimitsMemory)
      end
  end.

Definition isMemoryLimitEmpty (rq : option ResourceQuota) : bool :=
  match rq with
  | None => true
  | Some rq =>
      match rq_Hard rq with
      | None => true
      | hard => Q_IsZero (rl_Name hard ResourceLimitsMemory)
      end
  end.

Definition IsEmptyResourceQuota (rq : option ResourceQuota) : bool := isEmpty rq.

Definition parseQ (s : string) : outcome Z :=
  match lib_parseQuantity s with
  | Some q => Ok q
  | None => Err (ErrText "quantities must match the regular expression")
  end.

Definition GetCPUMemoryLimitsFromRancherNamespaceResourceQuota
    (nrq : option NamespaceResourceQuota) : outcome (Z * Z) :=
  match nrq with
  | None => Ok (NewQuantity 0, NewQuantity 0)
  | Some nrq =>
      cpu ← (if String.eqb (l_LimitsCPU (nrq_Limit nrq)) "" then Ok (NewQuantity 0)
             else parseQ (l_LimitsCPU (nrq_Limit nrq)));
      mem ← (if String.eqb (l_LimitsMemory (nrq_Limit nrq)) "" then Ok (NewQuantity 0)
             else parseQ (l_LimitsMemory (nrq_Limit nrq)));
      Ok (cpu, mem)
  end.

Definition GetMemoryLimitsFromRancherNamespaceResourceQuota
    (nrq : option NamespaceResourceQuota) : outcome Z :=
  match nrq with
  | None => Ok (NewQuantity 0)
  | Some nrq =>
      if String.eqb (l_LimitsMemory (nrq_Limit nrq)) "" then Ok (NewQuantity 0)
      else parseQ (l_LimitsMemory (nrq_Limit nrq))
  end.

(** [json.Unmarshal] into a struct: JSON null leaves the zero value. *)
Definition nrq0 : NamespaceResourceQuota :=
  mkNRQ (mkLimit "" "" "" "" "" "" "" "" "" "" "" "" "").

Definition IsResourceQuotaManagedByNamespaceAnnotation (rq : option ResourceQuota)
    (rqStr : string) : outcome bool :=
  if String.eqb rqStr "" then Ok false
  else if IsEmptyResourceQuota rq then Ok false
  else match lib_nrqUnmarshal rqStr with
       | None => Err (ErrText "json")
       | Some rqBase =>
           '(rCPULimit, rMemoryLimit) ←
             GetCPUMemoryLimitsFromRancherNamespaceResourceQuota (Some (default nrq0 rqBase));
           Ok (negb (Q_IsZero rCPULimit) || negb (Q_IsZero rMemoryLimit))
       end.

Definition IsResourceQuotaManagedByNamespaceAnnotationWithMemoryLimits
    (rq : option ResourceQuota) (rqStr : string) : outcome bool :=
  if String.eqb rqStr "" then Ok false
  else if isMemoryLimitEmpty rq then Ok false
  else match lib_nrqUnmarshal rqStr with
       | None => Err (ErrText "json")
       | Some rqBase =>
           rMemoryLimit ←
             GetMemoryLimitsFromRancherNamespaceResourceQuota (Some (default nrq0 rqBase));
           Ok (negb (Q_IsZero rMemoryLimit))
       end.

(** ** [calculator.go]: resources of the migrating VMs *)

Definition getVMIMResourcesFromRQAnnotation (rq : option ResourceQuota)
  : outcome (Z * Z * Z) :=
  vms ← getResourceListFromMigratingVMs rq;
  let rls := (map_to_list vms).*2 in
  Ok (sumZ (fun rl => rl_Name rl ResourceLimitsCPU) rls,
      sumZ (fun rl => rl_Name rl ResourceLimitsMemory) rls,
      sumZ (fun rl => rl_Name rl ResourceRequestsStorage) rls).

Definition GetVMIMResourcesFromRQAnnotation (rq : option ResourceQuota)
  : outcome (Z * Z * Z) := getVMIMResourcesFromRQAnnotation rq.

Definition getRunningVMIMResources (rq : option ResourceQuota) : outcome (Z * Z * Z) :=
  getVMIMResourcesFromRQAnnotation rq.

Definition GetCompensationFromResourceQuota (rq : option ResourceQuota) : outcome Z :=
  rl ← getResourceListOfMigratingCompensation rq;
  match rl with
  | None => Ok (NewQuantity 0)
  | rl => Ok (NewQuantity 0 + rl_Name rl ResourceLimitsMemory)
  end.

Definition checkResourceQuotaAndVMI (rq : option ResourceQuota) (limits : gomap Z) : bool :=
  if isEmpty rq then false
  else if Q_IsZero (rl_Cpu limits) && Q_IsZero (rl_Memory limits) then false
  else true.

(** [needUpdate, toUpdate, rl]; the quota itself is not changed here. *)
Definition CalculateScaleResourceQuotaWithVMI (rq : ResourceQuota) (vmi : VMI)
    (ratio : option string) : bool * option ResourceQuota * gomap Z :=
  let vmiLimits := vmi_Limits vmi in
  if negb (checkResourceQuotaAndVMI (Some rq) vmiLimits) then (false, None, None)
  else
    let rl := Some ∅ in
    let cpuOK := gm_has (rq_Hard rq) ResourceLimitsCPU in
    let rl := if negb (Q_IsZero (rl_Cpu vmiLimits)) && cpuOK
              then gm_set rl ResourceLimitsCPU (rl_Name vmiLimits ResourceCPU) else rl in
    let memOK := gm_has (rq_Hard rq) ResourceLimitsMemory in
    let rl := if negb (Q_IsZero (rl_Memory vmiLimits)) && memOK
              then gm_set rl ResourceLimitsMemory
                     (rl_Name vmiLimits ResourceMemory + lib_GetMemoryOverhead vmi ratio)
              else rl in
    (true, Some rq, rl).

Definition CalculateRestoreResourceQuotaWithVMI (rq : ResourceQuota) (vmi : VMI)
    (rl : gomap Z) : bool * option ResourceQuota :=
  let vmiLimits := vmi_Limits vmi in
  if negb (checkResourceQuotaAndVMI (Some rq) vmiLimits) then (false, None)
  else
    let rq :=
      match gm_get (rq_Hard rq) ResourceLimitsCPU with
      | Some currentCPULimit =>
          if negb (Q_IsZero (rl_Cpu vmiLimits))
          then rq_set_Hard (gm_set (rq_Hard rq) ResourceLimitsCPU
                              (currentCPULimit - rl_Name rl ResourceLimitsCPU)) rq
          else rq
      | None => rq
      end in
    let rq :=
      match gm_get (rq_Hard rq) ResourceLimitsMemory with
      | Some currentMemoryLimit =>
          if negb (Q_IsZero (rl_Memory vmiLimits))
          then rq_set_Hard (gm_set (rq_Hard rq) ResourceLimitsMemory
                              (currentMemoryLimit - rl_Name rl ResourceLimitsMemory)) rq
          else rq
      | None => rq
      end in
    (true, Some rq).

(** [rq.Spec.Hard[name] = base] when it differs; a nil map panics. *)
Definition setHardIfChanged (name : string) (base : Z) (rq : ResourceQuota) (needUpdate : bool)
  : outcome (ResourceQuota * bool) :=
  if negb (Q_Equal (rl_Name (rq_Hard rq) name) base)
  then h ← gm_store (rq_Hard rq) name base; Ok (rq_set_Hard h rq, true)
  else Ok (rq, needUpdate).

Definition CalculateNewResourceQuotaFromBaseDelta (rq : ResourceQuota)
    (cpuBase memBase cpuDelta memDelta memCompensation : Z) : outcome (ResourceQuota * bool) :=
  '(rq, needUpdate) ←
    (if negb (Q_IsZero cpuBase)
     then setHardIfChanged ResourceLimitsCPU (cpuBase + cpuDelta) rq false
     else Ok (rq, false));
  if negb (Q_IsZero memBase)
  then setHardIfChanged ResourceLimitsMemory (memBase + memDelta + memCompensation) rq needUpdate
  else Ok (rq, needUpdate).

Definition CalculateCompensationResourceQuotaWithVMI (rq : option ResourceQuota)
    (vmi : option VMI) (ratio : option string) : bool * gomap Z :=
  match rq, vmi, ratio with
  | Some rq, Some vmi, Some _ =>
      let vmiLimits := vmi_Limits vmi in
      if isMemoryLimitEmpty (Some rq) || Q_IsZero (rl_Memory vmiLimits) then (false, None)
      else
        let mem := rl_Name vmiLimits ResourceMemory + lib_GetMemoryOverhead vmi ratio in
        let limitMem := rl_Name (rq_Hard rq) ResourceLimitsMemory in
        let usedMem := rl_Name (rq_Used rq) ResourceLimitsMemory + mem in
        if Q_Cmp usedMem limitMem =? 1 then
          let usedMem := usedMem - limitMem + NewQuantity additionalCompensationMemory in
          (true, Some {[ ResourceLimitsMemory := usedMem ]})
        else (false, None)
  | _, _, _ => (false, None)
  end.

(** ** [calculator.go]: may the VM start, does its storage fit *)

Context (C : CalcEnv).

Definition RunStrategyHalted : string := "Halted".
Definition RunStrategyAlways : string := "Always".

(** kubevirt's [VirtualMachine.RunStrategy]. *)
Definition RunStrategy (vm : VM) : outcome string :=
  match vm_Running vm, vm_RunStrategy vm with
  | Some _, Some _ => Err (ErrText "running and runstrategy are mutually exclusive")
  | Some r, None => Ok (if r then RunStrategyAlways else RunStrategyHalted)
  | None, Some s => Ok s
  | None, None => Ok RunStrategyHalted
  end.

Definition insufficient (t : string) : goerror :=
  ErrText (t +:+ " insufficient resources due to resource quota").
Definition cpuInsufficientResourceError : goerror := insufficient "cpu".
Definition memInsufficientResourceError : goerror := insufficient "memory".
Definition storageInsufficientResourceError : goerror := insufficient "storage".

Definition getVMPods (namespace vmName : string) : outcome nat :=
  ce_podsByVM C namespace vmName.

Definition VMPodsExist (namespace vmName : string) : outcome bool :=
  pods ← getVMPods namespace vmName;
  if Nat.eqb pods 0 then Ok false else Ok true.

(** A nil pointer after a successful [json.Unmarshal] (the annotation "null") is
    dereferenced: a panic. *)
Definition getNamespaceResourceQuota (vm : VM) : outcome (option NamespaceResourceQuota) :=
  ns ← ce_nsGet C (om_Namespace (vm_meta vm));
  match gm_get ns CattleAnnotationResourceQuota with
  | None => Ok None
  | Some rqStr =>
      match lib_nrqUnmarshal rqStr with
      | None => Err (ErrText "json")
      | Some None => Panic
      | Some (Some resourceQuota) =>
          let limit := nrq_Limit resourceQuota in
          if String.eqb (l_LimitsCPU limit) "" && String.eqb (l_LimitsMemory limit) ""
             && String.eqb (l_RequestsStorage limit) ""
          then Ok None
          else Ok (Some resourceQuota)
      end
  end.

Definition getResourceQuota (vm : VM) : outcome (list ResourceQuota) :=
  ce_rqDefault C (om_Namespace (vm_meta vm)).

(** The limit as JSON, read back as a map: the fields that are not empty. *)
Definition limitsMap (l : ResourceQuotaLimit) : list (string * string) :=
  List.filter (fun kv => negb (String.eqb kv.2 ""))
    [("pods", l_Pods l); ("services", l_Services l);
     ("replicationControllers", l_ReplicationControllers l); ("secrets", l_Secrets l);
     ("configMaps", l_ConfigMaps l); ("persistentVolumeClaims", l_PersistentVolumeClaims l);
     ("servicesNodePorts", l_ServicesNodePorts l);
     ("servicesLoadBalancers", l_ServicesLoadBalancers l);
     ("requestsCpu", l_RequestsCPU l); ("requestsMemory", l_RequestsMemory l);
     ("requestsStorage", l_RequestsStorage l); ("limitsCpu", l_LimitsCPU l);
     ("limitsMemory", l_LimitsMemory l)].

Definition resourceQuotaConversion (key : string) : string :=
  if String.eqb key "limitsCpu" then ResourceLimitsCPU
  else if String.eqb key "limitsMemory" then ResourceLimitsMemory
  else if String.eqb key "requestsStorage" then ResourceRequestsStorage
  else key.

Fixpoint convertLoop (limits : gmap string Z) (l : list (string * string)) : outcome (gomap Z) :=
  match l with
  | [] => Ok (Some limits)
  | (key, value) :: l =>
      q ← parseQ value;
      convertLoop (<[ resourceQuotaConversion key := q ]> limits) l
  end.

Definition convertNamespaceResourceLimitToResourceList (limit : ResourceQuotaLimit)
  : outcome (gomap Z) := convertLoop ∅ (limitsMap limit).

(** [None]: a nil pointer. *)
Definition calculateVMActualOverhead (vm : VM) : option Z :=
  match vm_Template vm with
  | None => None
  | Some None => None
  | Some limits =>
      Some (lib_GetMemoryOverhead (mkVMI (meta0 "" "") limits None) (ce_ratio C))
  end.

Definition containsEnoughResourceQuotaToStartVM (vm : VM) (nrq : NamespaceResourceQuota)
    (rq : ResourceQuota) : outcome unit :=
  '(vmimsCPU, vmimsMem, _) ← getRunningVMIMResources (Some rq);
  let usedCPU := rl_Name (rq_Used rq) ResourceLimitsCPU - vmimsCPU in
  let usedMem := rl_Name (rq_Used rq) ResourceLimitsMemory - vmimsMem in
  let memOverhead := calculateVMActualOverhead vm in
  match vm_Template vm with
  | None => Panic                                   (* vm.Spec.Template.Spec *)
  | Some limits =>
      let vmCPU := rl_Name limits ResourceCPU in
      match memOverhead with
      | None => Panic                               (* *memOverhead *)
      | Some memOverhead =>
          let vmMem := rl_Name limits ResourceMemory + memOverhead in
          actualRq ← convertNamespaceResourceLimitToResourceList (nrq_Limit nrq);
          let actualCPU := rl_Name actualRq ResourceLimitsCPU in
          let actualMem := rl_Name actualRq ResourceLimitsMemory in
          if negb (Q_IsZero actualCPU) && (Q_Cmp (actualCPU - usedCPU) vmCPU =? -1)
          then Err cpuInsufficientResourceError
          else if negb (Q_IsZero actualMem) && (Q_Cmp (actualMem - usedMem) vmMem =? -1)
          then Err memInsufficientResourceError
          else Ok tt
      end
  end.

Definition CheckIfVMCanStartByResourceQuota (vm : VM) : outcome unit :=
  if String.eqb (vm_PrintableStatus vm) "" then Ok tt
  else
    strategy ← RunStrategy vm;
    if String.eqb strategy RunStrategyHalted then Ok tt
    else
      exist ← VMPodsExist (om_Namespace (vm_meta vm)) (om_Name (vm_meta vm));
      if (exist : bool) then Ok tt
      else
        nrq ← getNamespaceResourceQuota vm;
        match nrq with
        | None => Ok tt
        | Some nrq =>
            rqs ← getResourceQuota vm;
            match rqs with
            | [] => Ok tt
            | rq :: _ => containsEnoughResourceQuotaToStartVM vm nrq rq
            end
        end.

Definition calculateVMStorageQuantity (vm : VM) : outcome Z :=
  let s := gm_str (om_Annotations (vm_meta vm)) AnnotationVolumeClaimTemplates in
  if String.eqb s "" then Ok (NewQuantity 0)
  else match lib_vctUnmarshal s with
       | None => Err (ErrText "failed to unmarshal the volumeClaimTemplates annotation")
       | Some entries =>
           Ok (NewQuantity 0 + sumZ (fun e => rl_Name (vct_Requests e) ResourceStorage) entries)
       end.

Definition CheckStorageResourceQuota (vm : VM) (oldVM : option VM) : outcome unit :=
  nrq ← getNamespaceResourceQuota vm;
  match nrq with
  | None => Ok tt
  | Some nrq =>
      rqs ← getResourceQuota vm;
      match rqs with
      | [] => Ok tt
      | rq :: _ =>
          '(_, _, vmimsStorage) ← getRunningVMIMResources (Some rq);
          let usedStorage := rl_Name (rq_Used rq) ResourceRequestsStorage - vmimsStorage in
          vmStorage ← calculateVMStorageQuantity vm;
          growth ← match oldVM with
                   | None => Ok (Some vmStorage)
                   | Some oldVM =>
                       oldVMStorage ← calculateVMStorageQuantity oldVM;
                       if negb (Q_Cmp vmStorage oldVMStorage =? 1) then Ok None
                       else Ok (Some (vmStorage - oldVMStorage))
                   end;
          match growth with
          | None => Ok tt
          | Some vmStorage =>
              actualRq ← convertNamespaceResourceLimitToResourceList (nrq_Limit nrq);
              let actualStorage := rl_Name actualRq ResourceRequestsStorage in
              if negb (Q_IsZero actualStorage)
                 && (Q_Cmp (actualStorage - usedStorage) vmStorage =? -1)
              then Err storageInsufficientResourceError
              else Ok tt
          end
      end
  end.
End RQ.

(** ** Lemmas: the record of migrating VMs *)

(** The VM an annotation key speaks of, if it records a migration. *)
Definition migKey (k : string) : option string :=
  if HasPrefix k AnnotationMigratingUIDPrefix
  then Some (TrimPrefix k AnnotationMigratingUIDPrefix)
  else if HasPrefix k AnnotationMigratingNamePrefix
  then Some (TrimPrefix k AnnotationMigratingNamePrefix)
  else None.

Lemma migKey_UID u : migKey (GenerateAnnotationKeyMigratingVMUID u) = Some u.
Proof.
  unfold migKey, GenerateAnnotationKeyMigratingVMUID. by rewrite HasPrefix_app, TrimPrefix_app.
Qed.

Lemma migKey_Name n : migKey (GenerateAnnotationKeyMigratingVMName n) = Some n.
Proof.
  unfold migKey, GenerateAnnotationKeyMigratingVMName.
  replace (HasPrefix _ AnnotationMigratingUIDPrefix) with false by reflexivity.
  by rewrite HasPrefix_app, TrimPrefix_app.
Qed.

Lemma UID_Name_ne u n :
  GenerateAnnotationKeyMigratingVMUID u <> GenerateAnnotationKeyMigratingVMName n.
Proof. discriminate. Qed.

Lemma migKey_resync : migKey AnnotationMigratingScalingResyncNeeded = None.
Proof. reflexivity. Qed.
Lemma migKey_compensation : migKey AnnotationMigratingCompensation = None.
Proof. reflexivity. Qed.
Lemma migKey_skip : migKey AnnotationSkipResourceQuotaAutoScaling = None.
Proof. reflexivity. Qed.

(** A key without a migration is none of the two keys of a VM. *)
Lemma migKey_None_ne k u n :
  migKey k = None ->
  GenerateAnnotationKeyMigratingVMUID u <> k /\ GenerateAnnotationKeyMigratingVMName n <> k.
Proof.
  intros H. split; intros <-; [by rewrite migKey_UID in H|by rewrite migKey_Name in H].
Qed.

Section Sums.
Context {L : RqLib}.

(** What one annotation contributes to the resource [r]. *)
Definition migAmount (r : string) (kv : string * string) : Z :=
  match migKey kv.1, json_unmarshal kv.2 with
  | Some _, Some rl => rl_Name rl r
  | _, _ => 0
  end.

Definition migSum (r : string) (g : gmap string string) : Z :=
  sumZ (migAmount r) (map_to_list g).

(** The annotations that record migrations can be decoded, and no VM is recorded
    under two keys. *)
Record migWF (g : gmap string string) : Prop := {
  wf_decode : forall k v, g !! k = Some v -> is_Some (migKey k) -> is_Some (json_unmarshal v);
  wf_inj : forall k1 k2 v1 v2, g !! k1 = Some v1 -> g !! k2 = Some v2 ->
    migKey k1 = migKey k2 -> is_Some (migKey k1) -> k1 = k2 }.

Lemma migSum_insert r g k v :
  g !! k = None -> migSum r (<[k := v]> g) = migAmount r (k, v) + migSum r g.
Proof. intros H. unfold migSum. by rewrite map_to_list_insert. Qed.

Lemma migSum_delete r g k v :
  g !! k = Some v -> migSum r g = migAmount r (k, v) + migSum r (delete k g).
Proof. intros H. unfold migSum. by rewrite <- (map_to_list_delete g k v). Qed.

Lemma migAmount_other r k v : migKey k = None -> migAmount r (k, v) = 0.
Proof. intros H. unfold migAmount. simpl. by rewrite H. Qed.

Lemma migAmount_Some r k v x rl :
  migKey k = Some x -> json_unmarshal v = Some rl -> migAmount r (k, v) = rl_Name rl r.
Proof. intros H1 H2. unfold migAmount. simpl. by rewrite H1, H2. Qed.

Lemma migSum_insert_other r g k v : migKey k = None -> migSum r (<[k := v]> g) = migSum r g.
Proof.
  intros H. destruct (g !! k) as [v'|] eqn:E.
  - rewrite <- insert_delete_eq, migSum_insert by apply lookup_delete_eq.
    rewrite (migSum_delete r g k v' E), !migAmount_other by done. done.
  - rewrite migSum_insert, migAmount_other by done. done.
Qed.

Lemma migSum_delete_other r g k : migKey k = None -> migSum r (delete k g) = migSum r g.
Proof.
  intros H. destruct (g !! k) as [v'|] eqn:E; [|by rewrite delete_id].
  rewrite (migSum_delete r g k v' E), migAmount_other by done. done.
Qed.

Lemma migWF_insert g k v :
  migWF g -> (is_Some (migKey k) -> is_Some (json_unmarshal v)) ->
  (is_Some (migKey k) -> forall k' v', g !! k' = Some v' -> migKey k' = migKey k -> k' = k) ->
  migWF (<[k := v]> g).
Proof.
  intros [Hd Hi] Hv Hk. constructor.
  - intros k' v' [[<- <-]|[_ Hk']]%lookup_insert_Some; eauto.
  - intros k1 k2 v1 v2 [[<- _]|[_ H1]]%lookup_insert_Some [[<- _]|[_ H2]]%lookup_insert_Some
      He Hs; [done| | |by eauto].
    + symmetry. eapply Hk; eauto.
    + rewrite He in Hs. eapply Hk; eauto.
Qed.

Lemma migWF_delete g k : migWF g -> migWF (delete k g).
Proof.
  intros [Hd Hi]. constructor.
  - intros k' v' [_ H]%lookup_delete_Some. eauto.
  - intros k1 k2 v1 v2 [_ H1]%lookup_delete_Some [_ H2]%lookup_delete_Some. eauto.
Qed.

Lemma migWF_empty : migWF ∅.
Proof. constructor; intros *; by rewrite lookup_empty. Qed.

(** One iteration of the loop, by the key. *)
Lemma migratingLoop_cons vms k v l :
  migratingLoop vms ((k, v) :: l) =
  match migKey k with
  | None => migratingLoop vms l
  | Some x => match json_unmarshal v with
              | None => Err (ErrText "failed to unmarshal vm quantity")
              | Some rl => migratingLoop (<[x := rl]> vms) l
              end
  end.
Proof.
  simpl. unfold migKey. destruct (HasPrefix k _); [done|]. by destruct (HasPrefix k _).
Qed.

Definition rlSum (r : string) (vms : gmap string (gomap Z)) : Z :=
  sumZ (fun rl => rl_Name rl r) (map_to_list vms).*2.

Lemma rlSum_insert r vms x rl :
  vms !! x = None -> rlSum r (<[x := rl]> vms) = rl_Name rl r + rlSum r vms.
Proof. intros H. unfold rlSum. by rewrite map_to_list_insert. Qed.

(** The loop adds up, whatever the order of the entries. *)
Lemma migratingLoop_spec l vms :
  (forall k v, (k, v) ∈ l -> is_Some (migKey k) -> is_Some (json_unmarshal v)) ->
  NoDup (omap migKey l.*1) ->
  (forall x, x ∈ omap migKey l.*1 -> vms !! x = None) ->
  exists vms', migratingLoop vms l = Ok vms' /\
    forall r, rlSum r vms' = rlSum r vms + sumZ (migAmount r) l.
Proof.
  revert vms. induction l as [|[k v] l IH]; intros vms Hd Hn Hf.
  - exists vms. split; [done|]. intros r. simpl. lia.
  - rewrite migratingLoop_cons. simpl in Hn, Hf.
    assert (Hd' : forall k v, (k, v) ∈ l -> is_Some (migKey k) -> is_Some (json_unmarshal v)).
    { intros k' v' H'. apply Hd. by apply elem_of_cons; right. }
    destruct (migKey k) as [x|] eqn:Ek.
    + destruct (Hd k v) as [rl Erl]; [by left|by rewrite Ek|]. rewrite Erl.
      apply NoDup_cons in Hn as [Hx Hn].
      destruct (IH (<[x := rl]> vms)) as (vms' & E1 & E2); [done|done| |].
      { intros y Hy. rewrite lookup_insert_ne by (intros <-; done).
        apply Hf. by right. }
      exists vms'. split; [done|]. intros r. rewrite E2, rlSum_insert by (apply Hf; by left).
      simpl. rewrite (migAmount_Some r k v x rl Ek Erl). lia.
    + destruct (IH vms) as (vms' & E1 & E2); [done..|].
      exists vms'. split; [done|]. intros r. rewrite E2. simpl.
      rewrite migAmount_other by done. lia.
Qed.

Lemma omap_NoDup (ks : list string) :
  NoDup ks ->
  (forall k1 k2, k1 ∈ ks -> k2 ∈ ks -> migKey k1 = migKey k2 -> is_Some (migKey k1) -> k1 = k2) ->
  NoDup (omap migKey ks).
Proof.
  induction ks as [|k ks IH]; intros Hn Hi; simpl; [constructor|].
  apply NoDup_cons in Hn as [Hk Hn].
  assert (NoDup (omap migKey ks)).
  { apply IH; [done|]. intros k1 k2 H1 H2. apply Hi; by apply elem_of_cons; right. }
  destruct (migKey k) as [x|] eqn:E; [|done]. apply NoDup_cons. split; [|done].
  intros (k' & Hk' & E')%list_elem_of_omap. destruct Hk.
  rewrite (Hi k k'); [done|by left|by right|congruence|by rewrite E].
Qed.

(** The resources of the migrating VMs are the sums over the annotations. *)
Lemma getVMIMResources_sum rq g :
  rq_Annotations rq = Some g -> migWF g ->
  getVMIMResourcesFromRQAnnotation (Some rq) =
    Ok (migSum ResourceLimitsCPU g, migSum ResourceLimitsMemory g,
        migSum ResourceRequestsStorage g).
Proof.
  intros Eg [Hd Hi]. unfold getVMIMResourcesFromRQAnnotation, getResourceListFromMigratingVMs.
  rewrite Eg.
  destruct (migratingLoop_spec (map_to_list g) ∅) as (vms & -> & Hs).
  - intros k v Hkv%elem_of_map_to_list. by apply Hd.
  - apply omap_NoDup; [apply NoDup_fst_map_to_list|].
    intros k1 k2 H1 H2. apply list_elem_of_fmap in H1 as ([k1' v1] & -> & H1).
    apply list_elem_of_fmap in H2 as ([k2' v2] & -> & H2).
    apply elem_of_map_to_list in H1, H2. simpl. eauto.
  - intros x _. apply lookup_empty.
  - simpl. pose proof (Hs ResourceLimitsCPU) as H1. pose proof (Hs ResourceLimitsMemory) as H2.
    pose proof (Hs ResourceRequestsStorage) as H3. unfold rlSum in *.
    rewrite map_to_list_empty in *. simpl in *. unfold migSum. by rewrite H1, H2, H3.
Qed.
End Sums.

(** ** Lemmas: quota limits *)

Section Limits.
Context {L : RqLib}.

(** A limit of the namespace annotation: empty means none, which is zero. *)
Definition limitQ (s : string) : option Z :=
  if String.eqb s "" then Some 0 else lib_parseQuantity s.

Lemma convertLoop_lookup l limits m :
  convertLoop limits l = Ok m ->
  NoDup (map (fun kv => resourceQuotaConversion kv.1) l) ->
  (forall k v, (k, v) ∈ l ->
     lib_parseQuantity v = gm_get m (resourceQuotaConversion k)) /\
  (forall name, name ∉ map (fun kv => resourceQuotaConversion kv.1) l ->
     gm_get m name = limits !! name).
Proof.
  revert limits. induction l as [|[k v] l IH]; intros limits; simpl.
  - intros [= <-] _. split; [set_solver|done].
  - unfold parseQ. destruct (lib_parseQuantity v) as [q|] eqn:Eq; simpl; [|done].
    intros H [Hn1 Hn2]%NoDup_cons. destruct (IH _ H Hn2) as [IH1 IH2]. split.
    + intros k' v' [[= -> ->]|Hin]%elem_of_cons; [|eauto].
      rewrite IH2, lookup_insert_eq; done.
    + intros name Hname. rewrite IH2, lookup_insert_ne; [done|set_solver|set_solver].
Qed.

Lemma limitsMap_NoDup limit :
  NoDup (map (fun kv => resourceQuotaConversion kv.1) (limitsMap limit)).
Proof.
  unfold limitsMap. match goal with |- NoDup (map ?f (List.filter ?p ?l)) =>
    assert (Hs : sublist (map f (List.filter p l)) (map f l)) end.
  { match goal with |- sublist (map ?f (List.filter ?p ?l)) _ =>
      generalize l; intros l'; induction l' as [|x l' IH]; simpl;
      [constructor|destruct (p x); simpl; by constructor] end. }
  eapply sublist_NoDup; [|exact Hs]. simpl. by apply (bool_decide_unpack _).
Qed.

(** A field of the limit, read from the converted list. *)
Lemma convert_field limit m k s :
  convertNamespaceResourceLimitToResourceList limit = Ok m ->
  (s <> "" -> (k, s) ∈ limitsMap limit) ->
  (s = "" -> resourceQuotaConversion k ∉
               map (fun kv => resourceQuotaConversion kv.1) (limitsMap limit)) ->
  limitQ s = Some (rl_Name m (resourceQuotaConversion k)) .
Proof.
  intros H Hin Hout. destruct (convertLoop_lookup _ _ _ H (limitsMap_NoDup _)) as [H1 H2].
  unfold limitQ, rl_Name. destruct (String.eqb_spec s "") as [->|Hs].
  - rewrite H2 by auto. by rewrite lookup_empty.
  - rewrite (H1 k s) by auto.
    assert (is_Some (gm_get m (resourceQuotaConversion k))) as [q ->]; [|done].
    rewrite <- (H1 k s (Hin Hs)). clear H1 H2 Hout. unfold convertNamespaceResourceLimitToResourceList in H.
    specialize (Hin Hs). revert H Hin. generalize (∅ : gmap string Z) as limits.
    induction (limitsMap limit) as [|[k' v'] l IH]; intros limits; simpl; [set_solver|].
    unfold parseQ. destruct (lib_parseQuantity v') as [q|] eqn:Eq; simpl; [|done].
    intros H [[= -> ->]|Hin]%elem_of_cons; [by rewrite Eq|eauto].
Qed.

Lemma limitsMap_in limit k s :
  (k, s) ∈ limitsMap limit <->
  s <> "" /\ (k, s) ∈
    [("pods", l_Pods limit); ("services", l_Services limit);
     ("replicationControllers", l_ReplicationControllers limit); ("secrets", l_Secrets limit);
     ("configMaps", l_ConfigMaps limit);
     ("persistentVolumeClaims", l_PersistentVolumeClaims limit);
     ("servicesNodePorts", l_ServicesNodePorts limit);
     ("servicesLoadBalancers", l_ServicesLoadBalancers limit);
     ("requestsCpu", l_RequestsCPU limit); ("requestsMemory", l_RequestsMemory limit);
     ("requestsStorage", l_RequestsStorage limit); ("limitsCpu", l_LimitsCPU limit);
     ("limitsMemory", l_LimitsMemory limit)].
Proof.
  unfold limitsMap. rewrite !list_elem_of_In, filter_In. simpl (snd _).
  rewrite negb_true_iff, String.eqb_neq. tauto.
Qed.

Ltac limit_absent :=
  intros Hs Hin; apply list_elem_of_In, in_map_iff in Hin as ([k' v'] & Hk & Hin);
  apply list_elem_of_In, limitsMap_in in Hin as [Hv Hin];
  repeat (apply elem_of_cons in Hin as [[= -> ->]|Hin]; [done|]);
  by apply not_elem_of_nil in Hin.

(** The three limits the checks look at, as the code reads them. *)
Lemma convert_limits limit m :
  convertNamespaceResourceLimitToResourceList limit = Ok m ->
  limitQ (l_LimitsCPU limit) = Some (rl_Name m ResourceLimitsCPU) /\
  limitQ (l_LimitsMemory limit) = Some (rl_Name m ResourceLimitsMemory) /\
  limitQ (l_RequestsStorage limit) = Some (rl_Name m ResourceRequestsStorage).
Proof.
  intros H. split_and!.
  - apply (convert_field limit m "limitsCpu"); [done| |limit_absent].
    intros Hs. apply limitsMap_in. split; [done|]. set_solver.
  - apply (convert_field limit m "limitsMemory"); [done| |limit_absent].
    intros Hs. apply limitsMap_in. split; [done|]. set_solver.
  - apply (convert_field limit m "requestsStorage"); [done| |limit_absent].
    intros Hs. apply limitsMap_in. split; [done|]. set_solver.
Qed.
End Limits.

(** ** Properties *)

Section Properties.
Context {L : RqLib}.

Lemma ann_get_set rq a : rq_Annotations (rq_set_Annotations a rq) = a.
Proof. done. Qed.

Lemma AddMigratingVM_Ok rq name uid rl :
  AddMigratingVM (Some rq) name uid rl =
  Ok (rq_set_Annotations
        (Some (<[ GenerateAnnotationKeyMigratingVMUID uid := json_marshal rl ]>
                 (delete (GenerateAnnotationKeyMigratingVMName name)
                    (default ∅ (rq_Annotations rq))))) rq).
Proof. unfold AddMigratingVM. by destruct (rq_Annotations rq). Qed.

(** Recording a migration and deleting it again: after [AddMigratingVM] the VM is
    found, [DeleteMigratingVM] then reports that it was there, the VM is no longer
    found, and every annotation other than the two keys of this VM is what it was
    before. *)
Theorem migrating_vm_roundtrip rq name uid rl :
  exists rq', AddMigratingVM (Some rq) name uid rl = Ok rq' /\
    ContainsMigratingVM (Some rq') name uid = true /\
    (DeleteMigratingVM rq' name uid).2 = true /\
    ContainsMigratingVM (Some (DeleteMigratingVM rq' name uid).1) name uid = false /\
    rq_Hard (DeleteMigratingVM rq' name uid).1 = rq_Hard rq /\
    forall k, k <> GenerateAnnotationKeyMigratingVMName name ->
      k <> GenerateAnnotationKeyMigratingVMUID uid ->
      gm_get (rq_Annotations (DeleteMigratingVM rq' name uid).1) k =
      gm_get (rq_Annotations rq) k.
Proof.
  rewrite AddMigratingVM_Ok. eexists; split; [done|].
  set (g := delete _ (default ∅ (rq_Annotations rq))).
  set (ku := GenerateAnnotationKeyMigratingVMUID uid).
  set (kn := GenerateAnnotationKeyMigratingVMName name).
  assert (Hne : kn <> ku) by (intros H; by eapply UID_Name_ne).
  assert (Hg : g !! kn = None) by apply lookup_delete_eq.
  split_and!.
  - unfold ContainsMigratingVM. simpl. fold kn ku. unfold gm_has. simpl.
    rewrite lookup_insert_eq. by case_bool_decide.
  - unfold DeleteMigratingVM. simpl. fold kn ku.
    rewrite negb_true_iff, Nat.eqb_neq.
    rewrite delete_insert_ne, delete_insert_eq, (delete_id g kn) by done.
    pose proof (map_size_insert ku (json_marshal rl) g) as Hs.
    pose proof (map_size_delete ku g) as Hd. rewrite Hs, Hd.
    destruct (g !! ku) as [x|] eqn:E; simpl; [|lia].
    assert (size g <> 0%nat) by (apply map_size_ne_0_lookup; eauto). lia.
  - unfold ContainsMigratingVM, DeleteMigratingVM. simpl. fold kn ku. unfold gm_has. simpl.
    rewrite lookup_delete_eq, lookup_delete_ne, lookup_delete_eq by done.
    by repeat case_bool_decide.
  - done.
  - intros k Hk1 Hk2. unfold DeleteMigratingVM. simpl. fold kn ku.
    rewrite !lookup_delete_ne, lookup_insert_ne by done. unfold g.
    rewrite lookup_delete_ne by done. destruct (rq_Annotations rq); [done|].
    simpl. apply lookup_empty.
Qed.

(** The quota of the migrating VMs is a ledger: when the annotations decode and
    no other VM is recorded under this UID, recording a VM adds exactly its
    resource list to the CPU, memory and storage totals that
    [GetVMIMResourcesFromRQAnnotation] computes, whatever the iteration order of
    the annotation map. *)
Theorem migrating_resources_add rq g name uid rl rq' :
  rq_Annotations rq = Some g -> migWF g ->
  (forall k v, g !! k = Some v -> migKey k <> Some uid) ->
  g !! GenerateAnnotationKeyMigratingVMName name = None ->
  AddMigratingVM (Some rq) name uid rl = Ok rq' ->
  exists c m s, GetVMIMResourcesFromRQAnnotation (Some rq) = Ok (c, m, s) /\
    GetVMIMResourcesFromRQAnnotation (Some rq') =
      Ok (rl_Name rl ResourceLimitsCPU + c, rl_Name rl ResourceLimitsMemory + m,
          rl_Name rl ResourceRequestsStorage + s).
Proof.
  intros Eg Hwf Hu Hn. rewrite AddMigratingVM_Ok, Eg. intros [= <-]. simpl.
  rewrite delete_id by done.
  set (ku := GenerateAnnotationKeyMigratingVMUID uid).
  assert (Hku : g !! ku = None).
  { destruct (g !! ku) as [v|] eqn:E; [|done]. exfalso. by apply (Hu _ _ E), migKey_UID. }
  assert (Hwf' : migWF (<[ku := json_marshal rl]> g)).
  { apply migWF_insert; [done|by rewrite json_roundtrip|].
    intros _ k' v' Hk' E. unfold ku in E. rewrite migKey_UID in E. by destruct (Hu _ _ Hk'). }
  unfold GetVMIMResourcesFromRQAnnotation.
  rewrite (getVMIMResources_sum rq g Eg Hwf).
  erewrite (getVMIMResources_sum _ (<[ku := json_marshal rl]> g)); [|done|done].
  eexists _, _, _. split; [done|]. rewrite !migSum_insert by done.
  by rewrite !(migAmount_Some _ _ _ _ _ (migKey_UID uid) (json_roundtrip rl)).
Qed.

Lemma setHardIfChanged_spec name base rq b :
  rq_Hard rq <> None ->
  exists rq' b', setHardIfChanged name base rq b = Ok (rq', b') /\
    rl_Name (rq_Hard rq') name = base /\ rq_Hard rq' <> None /\
    (forall n, n <> name -> gm_get (rq_Hard rq') n = gm_get (rq_Hard rq) n) /\
    rq_meta rq' = rq_meta rq /\ rq_Used rq' = rq_Used rq /\
    (b' = false -> rq' = rq) /\
    (rl_Name (rq_Hard rq) name = base -> rq' = rq /\ b' = b).
Proof.
  intros Hh. unfold setHardIfChanged. destruct (Q_Equal _ base) eqn:E; simpl.
  - apply Q_Equal_true in E. eexists _, _. split; [done|]. by split_and!.
  - apply Q_Equal_false in E. rewrite (gm_store_set _ _ _ Hh). simpl.
    eexists _, _. split; [done|]. simpl. rewrite rl_Name_set, decide_True by done.
    split_and!; try done.
    + by destruct (rq_Hard rq).
    + intros n Hn. by rewrite gm_get_set_ne.
Qed.

(** The step [CalculateNewResourceQuotaFromBaseDelta] makes for one resource: set the
    limit when there is a base, and report whether it differed. *)
Lemma limit_step name base v rq b :
  rq_Hard rq <> None ->
  exists rq1 b1,
    (if negb (Q_IsZero base) then setHardIfChanged name v rq b else Ok (rq, b)) = Ok (rq1, b1) /\
    rl_Name (rq_Hard rq1) name = (if Q_IsZero base then rl_Name (rq_Hard rq) name else v) /\
    rq_Hard rq1 <> None /\
    (forall n, n <> name -> gm_get (rq_Hard rq1) n = gm_get (rq_Hard rq) n) /\
    rq_meta rq1 = rq_meta rq /\ rq_Used rq1 = rq_Used rq /\
    (b1 = false -> rq1 = rq /\ b = false).
Proof.
  intros Hh. destruct (Q_IsZero base); simpl; [exists rq, b; by split_and!|].
  destruct (setHardIfChanged_spec name v rq b Hh)
    as (rq1 & b1 & E & H1 & H2 & H3 & H4 & H5 & H6 & H7).
  exists rq1, b1. split_and!; try done. intros Hb. split; [auto|].
  specialize (H6 Hb). subst rq1. destruct (H7 H1); congruence.
Qed.

Lemma limit_fixed name base v rq b :
  rq_Hard rq <> None -> (Q_IsZero base = false -> rl_Name (rq_Hard rq) name = v) ->
  (if negb (Q_IsZero base) then setHardIfChanged name v rq b else Ok (rq, b)) = Ok (rq, b).
Proof.
  intros Hh Hv. destruct (Q_IsZero base); [done|]. simpl.
  destruct (setHardIfChanged_spec name v rq b Hh) as (r & b' & E & _ & _ & _ & _ & _ & _ & Hid).
  destruct (Hid (Hv eq_refl)) as [-> ->]. exact E.
Qed.

(** [CalculateNewResourceQuotaFromBaseDelta] on a quota with limits: a resource
    whose base is set gets base plus the migrating VMs (plus, for memory, the
    compensation), a resource without base and every other limit is untouched,
    metadata and usage are kept, and the call repeated changes nothing and
    reports no update. *)
Lemma CalculateNewResourceQuota_spec rq cb mb cd md comp :
  rq_Hard rq <> None ->
  exists rq' b, CalculateNewResourceQuotaFromBaseDelta rq cb mb cd md comp = Ok (rq', b) /\
    rl_Name (rq_Hard rq') ResourceLimitsCPU =
      (if Q_IsZero cb then rl_Name (rq_Hard rq) ResourceLimitsCPU else cb + cd) /\
    rl_Name (rq_Hard rq') ResourceLimitsMemory =
      (if Q_IsZero mb then rl_Name (rq_Hard rq) ResourceLimitsMemory else mb + md + comp) /\
    (forall n, n <> ResourceLimitsCPU -> n <> ResourceLimitsMemory ->
       gm_get (rq_Hard rq') n = gm_get (rq_Hard rq) n) /\
    rq_meta rq' = rq_meta rq /\ rq_Used rq' = rq_Used rq /\
    (b = false -> rq' = rq) /\ rq_Hard rq' <> None /\
    CalculateNewResourceQuotaFromBaseDelta rq' cb mb cd md comp = Ok (rq', false).
Proof.
  intros Hh. unfold CalculateNewResourceQuotaFromBaseDelta.
  destruct (limit_step ResourceLimitsCPU cb (cb + cd) rq false Hh)
    as (rq1 & b1 & -> & Hcpu & Hh1 & Ho1 & Hm1 & Hu1 & Hb1). simpl.
  destruct (limit_step ResourceLimitsMemory mb (mb + md + comp) rq1 b1 Hh1)
    as (rq2 & b2 & -> & Hmem & Hh2 & Ho2 & Hm2 & Hu2 & Hb2).
  assert (Hcpu2 : rl_Name (rq_Hard rq2) ResourceLimitsCPU =
                  rl_Name (rq_Hard rq1) ResourceLimitsCPU)
    by (unfold rl_Name; by rewrite Ho2).
  assert (Hmem1 : rl_Name (rq_Hard rq1) ResourceLimitsMemory =
                  rl_Name (rq_Hard rq) ResourceLimitsMemory)
    by (unfold rl_Name; by rewrite Ho1).
  exists rq2, b2. split_and!; [done|congruence|by rewrite Hmem, Hmem1| |congruence|congruence| |done|].
  - intros n Hn1 Hn2. rewrite Ho2, Ho1 by done. done.
  - intros Hb. destruct (Hb2 Hb) as [-> ?]. by apply Hb1.
  - rewrite limit_fixed; [simpl|done|intros Hz; by rewrite Hcpu2, Hcpu, Hz].
    apply limit_fixed; [done|]. intros Hz. by rewrite Hmem, Hz.
Qed.

(** C31: a VM that has no pod yet and is not halted passes the start check exactly
    when it fits: for each of CPU and memory that the namespace annotation limits,
    the usage that is not due to running migrations plus the VM (for memory with
    its overhead) is within the limit; otherwise the check returns the CPU error,
    or the memory error when CPU fits. *)
Theorem vm_start_quota_exact C vm strategy nrq rq rqs g limits m :
  vm_PrintableStatus vm <> "" -> RunStrategy vm = Ok strategy ->
  strategy <> RunStrategyHalted ->
  VMPodsExist C (om_Namespace (vm_meta vm)) (om_Name (vm_meta vm)) = Ok false ->
  getNamespaceResourceQuota C vm = Ok (Some nrq) ->
  getResourceQuota C vm = Ok (rq :: rqs) ->
  rq_Annotations rq = Some g -> migWF g -> vm_Template vm = Some (Some limits) ->
  convertNamespaceResourceLimitToResourceList (nrq_Limit nrq) = Ok m ->
  exists cpuLimit memLimit,
    limitQ (l_LimitsCPU (nrq_Limit nrq)) = Some cpuLimit /\
    limitQ (l_LimitsMemory (nrq_Limit nrq)) = Some memLimit /\
    let cpuFits := cpuLimit = 0 \/
      rl_Name (rq_Used rq) ResourceLimitsCPU - migSum ResourceLimitsCPU g
        + rl_Name (Some limits) ResourceCPU <= cpuLimit in
    let memFits := memLimit = 0 \/
      rl_Name (rq_Used rq) ResourceLimitsMemory - migSum ResourceLimitsMemory g
        + (rl_Name (Some limits) ResourceMemory
           + lib_GetMemoryOverhead (mkVMI (meta0 "" "") (Some limits) None) (ce_ratio C))
      <= memLimit in
    (CheckIfVMCanStartByResourceQuota C vm = Ok tt <-> cpuFits /\ memFits) /\
    (CheckIfVMCanStartByResourceQuota C vm = Err cpuInsufficientResourceError <->
       ~ cpuFits) /\
    (CheckIfVMCanStartByResourceQuota C vm = Err memInsufficientResourceError <->
       cpuFits /\ ~ memFits).
Proof.
  intros Hst Hrs Hnh Hpods Hnrq Hrq Hg Hwf Ht Hm.
  destruct (convert_limits _ _ Hm) as (Hlc & Hlm & _).
  exists (rl_Name m ResourceLimitsCPU), (rl_Name m ResourceLimitsMemory).
  split; [done|]. split; [done|].
  unfold CheckIfVMCanStartByResourceQuota.
  apply String.eqb_neq in Hst, Hnh. rewrite Hst, Hrs. simpl. rewrite Hnh, Hpods. simpl.
  rewrite Hnrq. simpl. rewrite Hrq. simpl.
  unfold containsEnoughResourceQuotaToStartVM, getRunningVMIMResources,
    calculateVMActualOverhead.
  rewrite (getVMIMResources_sum _ _ Hg Hwf), Ht, Hm. simpl.
  set (cl := rl_Name m ResourceLimitsCPU). set (ml := rl_Name m ResourceLimitsMemory).
  match goal with |- context [Q_Cmp ?a ?b =? -1] =>
    set (c1 := Q_Cmp a b =? -1); assert (Hc1 : c1 = true <-> a < b)
      by (unfold c1; rewrite Z.eqb_eq; apply Q_Cmp_lt) end.
  match goal with |- context [Q_Cmp ?a ?b =? -1] =>
    set (c2 := Q_Cmp a b =? -1); assert (Hc2 : c2 = true <-> a < b)
      by (unfold c2; rewrite Z.eqb_eq; apply Q_Cmp_lt) end.
  destruct (Q_IsZero cl) eqn:Ec, (Q_IsZero ml) eqn:Em, c1, c2; simpl;
    rewrite ?Q_IsZero_true, ?Q_IsZero_false in *; intuition (done || lia).
Qed.

(** The storage check passes exactly when the VM's storage does not grow over the
    old VM's, or the growth (the whole storage for a new VM) fits: usage without
    running migrations plus the growth is within the namespace's storage limit,
    when there is one; otherwise it returns the storage error. *)
Theorem storage_quota_exact C vm oldVM nrq rq rqs g m new old :
  getNamespaceResourceQuota C vm = Ok (Some nrq) ->
  getResourceQuota C vm = Ok (rq :: rqs) ->
  rq_Annotations rq = Some g -> migWF g ->
  convertNamespaceResourceLimitToResourceList (nrq_Limit nrq) = Ok m ->
  calculateVMStorageQuantity vm = Ok new ->
  match oldVM with
  | None => old = 0 /\ 0 < new
  | Some o => calculateVMStorageQuantity o = Ok old
  end ->
  exists limit, limitQ (l_RequestsStorage (nrq_Limit nrq)) = Some limit /\
    let fits := new <= old \/ limit = 0 \/
      rl_Name (rq_Used rq) ResourceRequestsStorage - migSum ResourceRequestsStorage g
        + (new - old) <= limit in
    (CheckStorageResourceQuota C vm oldVM = Ok tt <-> fits) /\
    (CheckStorageResourceQuota C vm oldVM = Err storageInsufficientResourceError <-> ~ fits).
Proof.
  intros Hnrq Hrq Hg Hwf Hm Hnew Hold.
  destruct (convert_limits _ _ Hm) as (_ & _ & Hls).
  exists (rl_Name m ResourceRequestsStorage). split; [done|].
  unfold CheckStorageResourceQuota. rewrite Hnrq. simpl. rewrite Hrq. simpl.
  unfold getRunningVMIMResources. rewrite (getVMIMResources_sum _ _ Hg Hwf). simpl.
  rewrite Hnew. simpl. set (sl := rl_Name m ResourceRequestsStorage).
  set (used := rl_Name (rq_Used rq) ResourceRequestsStorage - _).
  destruct oldVM as [o|]; simpl.
  - rewrite Hold. simpl. destruct (Q_Cmp new old =? 1) eqn:Eg.
    + apply Z.eqb_eq, Q_Cmp_gt in Eg. simpl. rewrite Hm. simpl. fold sl.
      destruct (Q_Cmp (sl - used) (new - old) =? -1) eqn:Ec;
        [apply Z.eqb_eq, Q_Cmp_lt in Ec
        |apply Z.eqb_neq in Ec; rewrite Q_Cmp_lt in Ec];
        destruct (Q_IsZero sl) eqn:Es; simpl;
        rewrite ?Q_IsZero_true, ?Q_IsZero_false in *; intuition (done || lia).
    + simpl. apply Z.eqb_neq in Eg. rewrite Q_Cmp_gt in Eg. intuition (done || lia).
  - destruct Hold as [-> Hpos]. rewrite Hm. simpl. fold sl.
    destruct (Q_Cmp (sl - used) new =? -1) eqn:Ec;
      [apply Z.eqb_eq, Q_Cmp_lt in Ec
      |apply Z.eqb_neq in Ec; rewrite Q_Cmp_lt in Ec];
      destruct (Q_IsZero sl) eqn:Es; simpl;
      rewrite ?Q_IsZero_true, ?Q_IsZero_false in *; intuition (done || lia).
Qed.

(** Compensation is given exactly when the migration target pod does not fit into
    the memory limit, and then it is what is missing plus 128Mi: raised by it, the
    limit holds the current usage and the pod with 128Mi to spare. *)
Theorem compensation_exact rq vmi ratio :
  let pod := rl_Name (vmi_Limits vmi) ResourceMemory
             + lib_GetMemoryOverhead vmi (Some ratio) in
  let limit := rl_Name (rq_Hard rq) ResourceLimitsMemory in
  let used := rl_Name (rq_Used rq) ResourceLimitsMemory in
  let r := CalculateCompensationResourceQuotaWithVMI (Some rq) (Some vmi) (Some ratio) in
  (r.1 = true <-> limit <> 0 /\ rl_Name (vmi_Limits vmi) ResourceMemory <> 0 /\
                  limit < used + pod) /\
  (r.1 = true ->
     limit + rl_Name r.2 ResourceLimitsMemory
       = used + pod + NewQuantity additionalCompensationMemory) /\
  (r.1 = false -> r.2 = None).
Proof.
  cbv zeta. unfold CalculateCompensationResourceQuotaWithVMI.
  assert (He : isMemoryLimitEmpty (Some rq) = Q_IsZero (rl_Name (rq_Hard rq) ResourceLimitsMemory)).
  { unfold isMemoryLimitEmpty. by destruct (rq_Hard rq). }
  rewrite He. unfold rl_Memory.
  destruct (Q_IsZero (rl_Name (rq_Hard rq) ResourceLimitsMemory)) eqn:E1; simpl.
  { apply Q_IsZero_true in E1. split_and!; [|done|done]. split; [done|]. intros [? _]; done. }
  destruct (Q_IsZero (rl_Name (vmi_Limits vmi) ResourceMemory)) eqn:E2; simpl.
  { apply Q_IsZero_true in E2. split_and!; [|done|done]. split; [done|]. intros (_ & ? & _); done. }
  apply Q_IsZero_false in E1, E2.
  destruct (Q_Cmp _ _ =? 1) eqn:Ec; simpl.
  - apply Z.eqb_eq, Q_Cmp_gt in Ec. split_and!; [by split_and!| |done].
    intros _. unfold rl_Name at 2. simpl. rewrite lookup_singleton_eq. simpl. lia.
  - apply Z.eqb_neq in Ec. rewrite Q_Cmp_gt in Ec. split_and!; [|done|done].
    split; [done|]. intros (_ & _ & ?). by destruct Ec.
Qed.

(** The start check dereferences the overhead of a VM without looking whether it
    is nil: for a VM whose template has no resource limits, in a namespace with a
    quota, the check panics as soon as the migrating VMs can be read. *)
Theorem start_check_panics_without_limits C vm nrq rq g :
  vm_Template vm = Some None -> rq_Annotations rq = Some g -> migWF g ->
  containsEnoughResourceQuotaToStartVM C vm nrq rq = Panic.
Proof.
  intros Ht Hg Hwf. unfold containsEnoughResourceQuotaToStartVM, getRunningVMIMResources,
    calculateVMActualOverhead. rewrite (getVMIMResources_sum _ _ Hg Hwf), Ht. done.
Qed.
End Properties.

(** ** Witnesses *)

Module RqExamples.
(** A library with a binary codec, one quantity per number used, and an overhead
    of 200Mi. *)
Definition Gi (n : Z) : Z := NewQuantity (n * 2 ^ 30).
Definition limit8 : ResourceQuotaLimit :=
  mkLimit "" "" "" "" "" "" "" "" "" "" "100Gi" "8" "16Gi".

#[export] Instance lib0 : RqLib := {|
  lib_rl := countable_codec (option (gmap string Z));
  lib_parseQuantity s :=
    if String.eqb s "8" then Some (NewQuantity 8)
    else if String.eqb s "16Gi" then Some (Gi 16)
    else if String.eqb s "100Gi" then Some (Gi 100) else None;
  lib_nrqUnmarshal s := if String.eqb s "q" then Some (Some (mkNRQ limit8)) else None;
  lib_vctUnmarshal s :=
    if String.eqb s "30" then Some [mkVCT (Some {[ ResourceStorage := Gi 10 ]});
                                    mkVCT (Some {[ ResourceStorage := Gi 20 ]})] else None;
  lib_GetMemoryOverhead _ _ := NewQuantity (200 * 2 ^ 20) |}.

Definition limits0 : gmap string Z := {[ ResourceCPU := NewQuantity 2; ResourceMemory := Gi 4 ]}.
Definition rq0 : ResourceQuota :=
  mkRQ (mkMeta "default" "" "ns" "" None (Some ∅) [] 0 None)
    (Some {[ ResourceLimitsCPU := NewQuantity 8; ResourceLimitsMemory := Gi 16 ]})
    (Some {[ ResourceLimitsCPU := NewQuantity 4; ResourceLimitsMemory := Gi 14;
             ResourceRequestsStorage := Gi 80 ]}).
Definition vmi0 : VMI := mkVMI (mkMeta "vm" "" "ns" "uid" None None [] 0 None) (Some limits0) None.
Definition vm0 (storage : string) : VM :=
  mkVM (mkMeta "vm" "" "ns" "uid" None
          (Some {[ AnnotationVolumeClaimTemplates := storage ]}) [] 0 None)
    "Stopped" None (Some "Always") (Some (Some limits0)).
Definition calc0 : CalcEnv :=
  mkCalc (fun _ => Ok (Some {[ CattleAnnotationResourceQuota := "q" ]})) (fun _ _ => Ok 0%nat)
    (fun _ => Ok [rq0]) (Some "1.5").
End RqExamples.
Import RqExamples.

Lemma migrating_resources_add_witness :
  exists c m s rq', AddMigratingVM (Some rq0) "vm" "uid" (Some limits0) = Ok rq' /\
    GetVMIMResourcesFromRQAnnotation (Some rq') = Ok (c, m, s).
Proof.
  destruct (migrating_resources_add rq0 ∅ "vm" "uid" (Some limits0) _ eq_refl migWF_empty
    ltac:(intros k v; rewrite lookup_empty; discriminate) (lookup_empty _)
    (AddMigratingVM_Ok rq0 "vm" "uid" (Some limits0))) as (c & m & s & _ & H).
  eexists _, _, _, _. split; [apply AddMigratingVM_Ok|exact H].
Defined.

Lemma vm_start_quota_exact_witness :
  CheckIfVMCanStartByResourceQuota calc0 (vm0 "30") = Err memInsufficientResourceError.
Proof.
  destruct (vm_start_quota_exact calc0 (vm0 "30") "Always" (mkNRQ limit8) rq0 [] ∅ limits0 _
    ltac:(done) eq_refl ltac:(done) eq_refl ltac:(by vm_compute) eq_refl eq_refl migWF_empty
    eq_refl eq_refl) as (cl & ml & [= <-] & [= <-] & _ & _ & H).
  apply H. split.
  - right. by vm_compute.
  - intros [Hz|Hle]; [by vm_compute in Hz|]. by vm_compute in Hle.
Defined.

Lemma storage_quota_exact_witness :
  CheckStorageResourceQuota calc0 (vm0 "30") None = Err storageInsufficientResourceError.
Proof.
  destruct (storage_quota_exact calc0 (vm0 "30") None (mkNRQ limit8) rq0 [] ∅ _ (Gi 30) 0
    ltac:(by vm_compute) eq_refl eq_refl migWF_empty eq_refl ltac:(by vm_compute)
    ltac:(by vm_compute)) as (l & [= <-] & _ & H).
  apply H. intros [Hz|[Hz|Hle]]; [by vm_compute in Hz|by vm_compute in Hz|by vm_compute in Hle].
Defined.

Lemma start_check_panics_without_limits_witness :
  containsEnoughResourceQuotaToStartVM calc0
    (mkVM (meta0 "ns" "vm") "Stopped" None (Some "Always") (Some None)) (mkNRQ limit8) rq0
  = Panic.
Proof.
  exact (start_check_panics_without_limits calc0
    (mkVM (meta0 "ns" "vm") "Stopped" None (Some "Always") (Some None)) (mkNRQ limit8) rq0 ∅
    eq_refl eq_refl migWF_empty).
Defined.
