(* ===== verification/Migration.v ===== *)
(** The controllers that keep a namespace's ResourceQuota open for live
    migrations: [pkg/controller/master/migration/vmim_controller.go] and
    [vmi_controller.go], which record and remove migrating VMs on the quota's
    annotations, and [pkg/controller/master/resourcequota/resourcequota_controller.go],
    which turns the record into limits.  The two sides talk through the
    annotation migratingScalingResyncNeeded; the main theorem is about every
    interleaving of their events. *)

From S2P Require Import Prelude K8s ResourceQuota.

Local Open Scope Z_scope.

(** ** Data *)

Record VMIM := mkVMIM {
  vmim_meta : ObjectMeta;
  vmim_VMIName : string;
  vmim_Phase : string;
  vmim_Conditions : list Condition }.

Definition MigrationPhaseUnset : string := "".
Definition MigrationPending : string := "Pending".
Definition MigrationScheduling : string := "Scheduling".
Definition MigrationScheduled : string := "Scheduled".
Definition MigrationPreparingTarget : string := "PreparingTarget".
Definition MigrationTargetReady : string := "TargetReady".
Definition MigrationRunning : string := "Running".
Definition MigrationSucceeded : string := "Succeeded".
Definition MigrationFailed : string := "Failed".

Definition VirtualMachineInstanceMigrationAbortRequested : string := "migrationAbortRequested".
Definition VirtualMachineInstanceMigrationRejectedByResourceQuota : string :=
  "migrationRejectedByResourceQuota".
Definition MigrationAbortSucceeded : string := "Succeeded".
Definition MigrationJobLabel : string := "kubevirt.io/migrationJobUID".

Definition StateMigrating : string := "Migrating".
Definition StateAbortingMigration : string := "Aborting migration".
Definition StatePending : string := "Pending migration".

Definition AnnotationMigrationUID : string := "harvesterhci.io/migrationUID".
Definition AnnotationMigrationState : string := "harvesterhci.io/migrationState".
Definition AnnotationMigrationTarget : string := "harvesterhci.io/migrationTargetNodeName".
Definition AnnotationTimestamp : string := "harvesterhci.io/timestamp".

(** A pod, as far as the clean-up of an aborted migration needs it. *)
Record MPod := mkMPod { mp_Namespace : string; mp_Name : string; mp_Labels : gomap string }.

Record MWorld := mkMWorld {
  mw_rqs : list ResourceQuota;
  mw_vmis : list VMI;
  mw_vms : list VM;
  mw_pods : list MPod;
  mw_queue : list (string * string * Z) }.      (* vmim namespace, name, seconds *)

(** What comes from outside: namespaces, the errors of caches and writes, the
    clock and the setting of the memory overhead ratio. *)
Record MEnv := mkMEnv {
  me_nsGet : string -> outcome (gomap string);
  me_vmiGet : string -> string -> option goerror;
  me_vmGet : string -> string -> option goerror;
  me_rqList : string -> option goerror;
  me_podList : string -> option goerror;
  me_vmiUpdate : VMI -> option goerror;
  me_vmUpdate : VM -> option goerror;
  me_rqUpdate : ResourceQuota -> option goerror;
  me_podDelete : MPod -> option goerror;
  me_now : string;
  me_ratio : option string }.

Definition sameObj (m1 m2 : ObjectMeta) : bool :=
  String.eqb (om_Namespace m1) (om_Namespace m2) && String.eqb (om_Name m1) (om_Name m2).

Definition replaceRQ (rq : ResourceQuota) (l : list ResourceQuota) : list ResourceQuota :=
  map (fun r => if sameObj (rq_meta r) (rq_meta rq) then rq else r) l.
Definition replaceVMI (v : VMI) (l : list VMI) : list VMI :=
  map (fun r => if sameObj (vmi_meta r) (vmi_meta v) then v else r) l.
Definition replaceVM (v : VM) (l : list VM) : list VM :=
  map (fun r => if sameObj (vm_meta r) (vm_meta v) then v else r) l.

Definition vmi_Annotations (v : VMI) : gomap string := om_Annotations (vmi_meta v).
Definition vmi_set_Annotations (a : gomap string) (v : VMI) : VMI :=
  mkVMI (set_Annotations a (vmi_meta v)) (vmi_Limits v) (vmi_MigrationState v).
Definition vm_set_Annotations (a : gomap string) (v : VM) : VM :=
  mkVM (set_Annotations a (vm_meta v)) (vm_PrintableStatus v) (vm_Running v)
    (vm_RunStrategy v) (vm_Template v).

Definition isDefaultRQ (rq : ResourceQuota) : bool :=
  String.eqb (gm_str (om_Labels (rq_meta rq)) LabelManagementDefaultResourceQuota) "true".

(** ** The handlers *)

Section Handlers.
Context {L : RqLib} (E : MEnv).

Definition rqs_Update (rq : ResourceQuota) : M MWorld ResourceQuota :=
  apiWrite (me_rqUpdate E rq)
    (fun w => mkMWorld (replaceRQ rq (mw_rqs w)) (mw_vmis w) (mw_vms w) (mw_pods w)
                (mw_queue w)) rq.

(** [util.VirtClientUpdateVmi] *)
Definition VirtClientUpdateVmi (v : VMI) : M MWorld unit :=
  apiWrite (me_vmiUpdate E v)
    (fun w => mkMWorld (mw_rqs w) (replaceVMI v (mw_vmis w)) (mw_vms w) (mw_pods w)
                (mw_queue w)) tt.

Definition vms_Update (v : VM) : M MWorld VM :=
  apiWrite (me_vmUpdate E v)
    (fun w => mkMWorld (mw_rqs w) (mw_vmis w) (replaceVM v (mw_vms w)) (mw_pods w)
                (mw_queue w)) v.

Definition pods_Delete (p : MPod) : M MWorld unit :=
  apiWrite (me_podDelete E p)
    (fun w => mkMWorld (mw_rqs w) (mw_vmis w) (mw_vms w)
       (List.filter (fun q => negb (String.eqb (mp_Namespace q) (mp_Namespace p)
                               && String.eqb (mp_Name q) (mp_Name p))) (mw_pods w))
       (mw_queue w)) tt.

Definition vmimController_EnqueueAfter (ns name : string) (secs : Z) : M MWorld unit :=
  modify (fun w => mkMWorld (mw_rqs w) (mw_vmis w) (mw_vms w) (mw_pods w)
                     (mw_queue w ++ [(ns, name, secs)])).

(** Cache reads. *)
Definition vmiCache_Get (ns name : string) : M MWorld VMI := fun w =>
  match me_vmiGet E ns name with
  | Some e => (Err e, w)
  | None =>
      match List.find (fun v => String.eqb (om_Namespace (vmi_meta v)) ns
                           && String.eqb (om_Name (vmi_meta v)) name) (mw_vmis w) with
      | Some v => (Ok v, w)
      | None => (Err (ApiNotFound name), w)
      end
  end.

Definition vmCache_Get (ns name : string) : M MWorld VM := fun w =>
  match me_vmGet E ns name with
  | Some e => (Err e, w)
  | None =>
      match List.find (fun v => String.eqb (om_Namespace (vm_meta v)) ns
                           && String.eqb (om_Name (vm_meta v)) name) (mw_vms w) with
      | Some v => (Ok v, w)
      | None => (Err (ApiNotFound name), w)
      end
  end.

Definition rqCache_List (ns : string) (sel : ResourceQuota -> bool)
  : M MWorld (list ResourceQuota) := fun w =>
  match me_rqList E ns with
  | Some e => (Err e, w)
  | None => (Ok (List.filter (fun rq => String.eqb (om_Namespace (rq_meta rq)) ns && sel rq)
                   (mw_rqs w)), w)
  end.

Definition isAbortRequest (vmim : VMIM) : bool :=
  existsb (fun c => String.eqb (c_Type c) VirtualMachineInstanceMigrationAbortRequested
                    && String.eqb (c_Status c) ConditionTrue) (vmim_Conditions vmim).

Definition syncVM (vmi : VMI) : M MWorld unit :=
  r ← try (vmCache_Get (om_Namespace (vmi_meta vmi)) (om_Name (vmi_meta vmi)));
  match r with
  | inr err => if IsNotFound err then mret tt else throw err
  | inl vm =>
      let toUpdateVM :=
        vm_set_Annotations (gm_set (om_Annotations (vm_meta vm)) AnnotationTimestamp (me_now E))
          vm in
      _ ← vms_Update toUpdateVM;
      mret tt
  end.

Definition setVmiMigrationUIDAnnotation (vmi : VMI) (UID state : string) : M MWorld unit :=
  if String.eqb (gm_str (vmi_Annotations vmi) AnnotationMigrationUID) UID
     && String.eqb (gm_str (vmi_Annotations vmi) AnnotationMigrationState) state
  then mret tt
  else
    let a := match vmi_Annotations vmi with None => Some ∅ | a => a end in
    let a := if negb (String.eqb UID "")
             then gm_set (gm_set a AnnotationMigrationUID UID) AnnotationMigrationState state
             else gm_delete (gm_delete a AnnotationMigrationUID) AnnotationMigrationState in
    _ ← VirtClientUpdateVmi (vmi_set_Annotations a vmi);
    syncVM vmi.

(** [rl.Cpu() != nil || rl.Memory() != nil]: the accessors return the address of a
    fresh quantity, never nil. *)
Definition CpuPtr (rl : gomap Z) : option Z := Some (rl_Cpu rl).
Definition MemoryPtr (rl : gomap Z) : option Z := Some (rl_Memory rl).

Definition isNamespaceManagedByResourceQuota (namespace : string) : M MWorld bool :=
  rqs ← rqCache_List namespace (fun _ => true);
  mret (existsb (fun v => bool_decide (CpuPtr (rq_Hard v) <> None)
                          || bool_decide (MemoryPtr (rq_Hard v) <> None)) rqs).

Definition scaleResourceQuotaWithVMI (vmi : VMI) : M MWorld unit :=
  if Q_IsZero (rl_Memory (vmi_Limits vmi)) && Q_IsZero (rl_Cpu (vmi_Limits vmi)) then mret tt
  else
    rqs ← rqCache_List (om_Namespace (vmi_meta vmi)) isDefaultRQ;
    match rqs with
    | [] => mret tt
    | rq :: _ =>
        if IsResourceQuotaAutoScalingDisabled (Some rq) then mret tt
        else
          ns ← mapErr (ErrWrap "scaleResourceQuotaWithVMI: failed to get vmi's namespace")
                 (lift (me_nsGet E (om_Namespace (vmi_meta vmi))));
          managed ← mapErr (ErrWrap "scaleResourceQuotaWithVMI: failed to get all parameters")
                 (lift (IsResourceQuotaManagedByNamespaceAnnotation (Some rq)
                          (gm_str ns CattleAnnotationResourceQuota)));
          if negb managed then mret tt
          else
            let name := om_Name (vmi_meta vmi) in
            let uid := om_UID (vmi_meta vmi) in
            if ContainsMigratingVM (Some rq) name uid then mret tt
            else
              let '(needUpdate, rqToUpdate, rl) :=
                CalculateScaleResourceQuotaWithVMI rq vmi (me_ratio E) in
              if negb needUpdate then mret tt
              else
                rq' ← lift (AddMigratingVM rqToUpdate name uid rl);
                _ ← rqs_Update (SetAnnotationMigratingScalingResyncNeeded rq');
                mret tt
    end.

Definition errV (s : string) : goerror -> goerror := fun _ => ErrText s.

Definition scaleResourceQuota (vmi : VMI) : M MWorld unit :=
  exist ← mapErr (errV "failed to check if the namespace is managed by the resource quota")
            (isNamespaceManagedByResourceQuota (om_Namespace (vmi_meta vmi)));
  if negb exist then mret tt
  else mapErr (errV "failed to scale resource quota with vmi") (scaleResourceQuotaWithVMI vmi).

Definition restoreResourceQuotaWithVMI (vmi : VMI) : M MWorld unit :=
  rqs ← rqCache_List (om_Namespace (vmi_meta vmi)) isDefaultRQ;
  match rqs with
  | [] => mret tt
  | rq :: _ =>
      let '(rqCpy, deleted) :=
        DeleteMigratingVM rq (om_Name (vmi_meta vmi)) (om_UID (vmi_meta vmi)) in
      if deleted then
        let rqCpy := (DeleteMigratingCompensation rqCpy).1 in
        _ ← rqs_Update (SetAnnotationMigratingScalingResyncNeeded rqCpy);
        mret tt
      else mret tt
  end.

Definition restoreResourceQuota (vmim : VMIM) (vmi : VMI) : M MWorld unit :=
  if negb (String.eqb (vmim_Phase vmim) MigrationFailed)
     && negb (String.eqb (vmim_Phase vmim) MigrationSucceeded)
  then mret tt
  else
    exist ← mapErr (errV "failed to check if the namespace is managed by the resource quota")
              (isNamespaceManagedByResourceQuota (om_Namespace (vmi_meta vmi)));
    if negb exist then mret tt
    else mapErr (errV "failed to restore resource quota with vmi")
           (restoreResourceQuotaWithVMI vmi).

Definition compensateResourceQuotaBase (vmim : VMIM) (vmi : VMI) : M MWorld unit :=
  if Q_IsZero (rl_Memory (vmi_Limits vmi)) then mret tt
  else
    rqs ← rqCache_List (om_Namespace (vmi_meta vmi)) isDefaultRQ;
    match rqs with
    | [] => mret tt
    | rq :: _ =>
        if IsResourceQuotaAutoScalingDisabled (Some rq) then mret tt
        else
          ns ← mapErr (ErrWrap "compensateResourceQuotaBase: failed to get vmi's namespace")
                 (lift (me_nsGet E (om_Namespace (vmi_meta vmi))));
          managed ← mapErr (ErrWrap "compensateResourceQuotaBase: failed to get all parameters")
                 (lift (IsResourceQuotaManagedByNamespaceAnnotationWithMemoryLimits (Some rq)
                          (gm_str ns CattleAnnotationResourceQuota)));
          if negb managed then mret tt
          else if negb (ContainsMigratingVM (Some rq) (om_Name (vmi_meta vmi))
                          (om_UID (vmi_meta vmi)))
          then vmimController_EnqueueAfter (om_Namespace (vmim_meta vmim))
                 (om_Name (vmim_meta vmim)) 1
          else if IsMigratingScalingResyncNeeded (Some rq)
          then vmimController_EnqueueAfter (om_Namespace (vmim_meta vmim))
                 (om_Name (vmim_meta vmim)) 1
          else
            let '(needUpdate, rl) :=
              CalculateCompensationResourceQuotaWithVMI (Some rq) (Some vmi) (me_ratio E) in
            if negb needUpdate then mret tt
            else
              rq' ← lift (AddMigratingCompensation (Some rq) rl);
              _ ← rqs_Update (SetAnnotationMigratingScalingResyncNeeded rq');
              mret tt
    end.

(** The loop over the conditions stops at the first that is about the quota. *)
Definition compensatePendingMigration (vmim : VMIM) (vmi : VMI) : M MWorld unit :=
  match List.find (fun c => String.eqb (c_Type c)
                         VirtualMachineInstanceMigrationRejectedByResourceQuota)
          (vmim_Conditions vmim) with
  | None => mret tt
  | Some cond => if negb (String.eqb (c_Status cond) ConditionTrue) then mret tt
                 else compensateResourceQuotaBase vmim vmi
  end.

Definition handlePendingMigration (vmi : VMI) (vmim : VMIM) : M MWorld VMIM :=
  _ ← setVmiMigrationUIDAnnotation vmi (om_UID (vmim_meta vmim)) StatePending;
  _ ← mapErr (ErrWrap "failed to scale resource quota with vmi") (scaleResourceQuota vmi);
  _ ← mapErr (ErrWrap "failed to compensate resource quota with vmi")
        (compensatePendingMigration vmim vmi);
  mret vmim.

Definition resetHarvesterMigrationStateInVMI (vmi : VMI) : M MWorld unit :=
  let initialLen := gm_len (vmi_Annotations vmi) in
  let a := gm_delete (gm_delete (gm_delete (vmi_Annotations vmi) AnnotationMigrationUID)
             AnnotationMigrationState) AnnotationMigrationTarget in
  if Nat.eqb initialLen (gm_len a) then mret tt
  else VirtClientUpdateVmi (vmi_set_Annotations a vmi).

Definition resetHarvesterMigrationStateInVmiAndSyncVM (vmi : VMI) : M MWorld unit :=
  _ ← mapErr (ErrWrap "fail to reset vmi migration") (resetHarvesterMigrationStateInVMI vmi);
  mapErr (ErrWrap "fail to reset vmi migration to vm") (syncVM vmi).

Definition handleFinishedMigration (vmi : VMI) (vmim : VMIM) : M MWorld VMIM :=
  _ ← restoreResourceQuota vmim vmi;
  _ ← resetHarvesterMigrationStateInVmiAndSyncVM vmi;
  mret vmim.

Definition OnVmimChanged (vmim : option VMIM) : M MWorld (option VMIM) :=
  match vmim with
  | None => mret None
  | Some vmim =>
      r ← try (vmiCache_Get (om_Namespace (vmim_meta vmim)) (vmim_VMIName vmim));
      match r with
      | inr err => if IsNotFound err then mret (Some vmim) else throw err
      | inl vmi =>
          let abortRequested := isAbortRequest vmim in
          let phase := vmim_Phase vmim in
          let setState st :=
            _ ← setVmiMigrationUIDAnnotation vmi (om_UID (vmim_meta vmim)) st;
            mret (Some vmim) in
          if String.eqb phase MigrationPhaseUnset then
            if abortRequested then setState StateAbortingMigration else setState StatePending
          else if String.eqb phase MigrationPending then
            if abortRequested then setState StateAbortingMigration
            else Some <$> handlePendingMigration vmi vmim
          else if str_in phase [MigrationScheduling; MigrationScheduled;
                                MigrationPreparingTarget; MigrationTargetReady;
                                MigrationRunning] then
            if abortRequested then setState StateAbortingMigration else setState StateMigrating
          else if str_in phase [MigrationFailed; MigrationSucceeded] then
            Some <$> handleFinishedMigration vmi vmim
          else mret (Some vmim)
      end
  end.

Definition podCache_List (ns job : string) : M MWorld (list MPod) := fun w =>
  match me_podList E ns with
  | Some e => (Err e, w)
  | None => (Ok (List.filter (fun p => String.eqb (mp_Namespace p) ns
                && bool_decide (gm_get (mp_Labels p) MigrationJobLabel = Some job))
                (mw_pods w)), w)
  end.

Definition OnVmiChanged (vmi : option VMI) : M MWorld (option VMI) :=
  match vmi with
  | None => mret None
  | Some vmi =>
      match om_DeletionTimestamp (vmi_meta vmi), vmi_Annotations vmi, vmi_MigrationState vmi with
      | None, Some _, Some ms =>
          _ ← (if String.eqb (gm_str (vmi_Annotations vmi) AnnotationMigrationUID)
                    (ms_MigrationUID ms) && ms_Completed ms
               then resetHarvesterMigrationStateInVmiAndSyncVM vmi else mret tt);
          if ms_Completed ms && String.eqb (ms_AbortStatus ms) MigrationAbortSucceeded then
            pods ← podCache_List (om_Namespace (vmi_meta vmi)) (ms_MigrationUID ms);
            match pods with
            | [] => mret (Some vmi)
            | p :: _ =>
                r ← try (pods_Delete p);
                match r with
                | inr err => if negb (IsNotFound err) then throw err else mret (Some vmi)
                | inl _ => mret (Some vmi)
                end
            end
          else mret (Some vmi)
      | _, _, _ => mret (Some vmi)
      end
  end.

(** ** [resourcequota_controller.go] *)

(** The result of [scaleResourceQuotaOnDemand]: skipped, or the updated quota and
    whether it changed.  Errors other than errSkipScaling are [Err]. *)
Definition scaleResourceQuotaOnDemand (rq : ResourceQuota) (rqStr : string)
  : outcome (option (ResourceQuota * bool)) :=
  if String.eqb rqStr "" then Ok None
  else
    match lib_nrqUnmarshal rqStr with
    | None => Err (ErrText "json")
    | Some rqBase =>
        if IsEmptyResourceQuota (Some rq) then Ok None
        else
          match GetCPUMemoryLimitsFromRancherNamespaceResourceQuota rqBase with
          | Panic => Panic
          | Err _ => Ok None
          | Ok (rCPULimit, rMemoryLimit) =>
              match GetVMIMResourcesFromRQAnnotation (Some rq) with
              | Panic => Panic
              | Err _ => Ok None
              | Ok (cpuDelta, memDelta, _) =>
                  match GetCompensationFromResourceQuota (Some rq) with
                  | Panic => Panic
                  | Err _ => Ok None
                  | Ok memCompensation =>
                      r ← CalculateNewResourceQuotaFromBaseDelta rq rCPULimit rMemoryLimit
                            cpuDelta memDelta memCompensation;
                      Ok (Some r)
                  end
              end
          end
    end.

Definition OnResourceQuotaChanged (rq : option ResourceQuota)
  : M MWorld (option ResourceQuota) :=
  match rq with
  | None => mret None
  | Some rq =>
      if bool_decide (is_Some (om_DeletionTimestamp (rq_meta rq)))
         || bool_decide (om_Labels (rq_meta rq) = None) || negb (isDefaultRQ rq)
      then mret (Some rq)
      else if IsResourceQuotaAutoScalingDisabled (Some rq) then mret (Some rq)
      else
        ns ← mapErr (ErrWrap "can't find resourcequota related namespace")
               (lift (me_nsGet E (om_Namespace (rq_meta rq))));
        r ← lift (scaleResourceQuotaOnDemand rq (gm_str ns CattleAnnotationResourceQuota));
        match r with
        | None =>
            if IsMigratingScalingResyncNeeded (Some rq)
            then Some <$> rqs_Update (ClearAnnotationMigratingScalingResyncNeeded rq)
            else mret (Some rq)
        | Some (rqCopy, update) =>
            if (update : bool)
            then Some <$> rqs_Update (ClearAnnotationMigratingScalingResyncNeeded rqCopy)
            else if IsMigratingScalingResyncNeeded (Some rqCopy)
            then Some <$> rqs_Update (ClearAnnotationMigratingScalingResyncNeeded rqCopy)
            else mret (Some rq)
        end
  end.
End Handlers.

(** ** The quota as a ledger: what the controllers may do to it *)

Definition annots (rq : ResourceQuota) : gmap string string := default ∅ (rq_Annotations rq).

Definition nonneg (rl : gomap Z) : Prop :=
  0 <= rl_Name rl ResourceLimitsCPU /\ 0 <= rl_Name rl ResourceLimitsMemory.

Section Ledger.
Context {L : RqLib}.

(** One write of a controller to a quota: a migrating VM is registered, a VM is
    released (and any compensation with it), a compensation is recorded, the
    limits are recomputed from the namespace annotation [rqStr], or the resync
    request is dropped because there is nothing to compute. *)
Inductive rqChange (rqStr : string) : ResourceQuota -> ResourceQuota -> Prop :=
| rc_register rq name uid rl rq' :
    ContainsMigratingVM (Some rq) name uid = false -> nonneg rl ->
    AddMigratingVM (Some rq) name uid rl = Ok rq' ->
    rqChange rqStr rq (SetAnnotationMigratingScalingResyncNeeded rq')
| rc_release rq name uid rq' :
    DeleteMigratingVM rq name uid = (rq', true) ->
    rqChange rqStr rq
      (SetAnnotationMigratingScalingResyncNeeded (DeleteMigratingCompensation rq').1)
| rc_compensate rq rl rq' :
    IsMigratingScalingResyncNeeded (Some rq) = false ->
    0 < rl_Name rl ResourceLimitsMemory ->
    AddMigratingCompensation (Some rq) rl = Ok rq' ->
    rqChange rqStr rq (SetAnnotationMigratingScalingResyncNeeded rq')
| rc_recompute rq rq' b :
    scaleResourceQuotaOnDemand rq rqStr = Ok (Some (rq', b)) ->
    rqChange rqStr rq (ClearAnnotationMigratingScalingResyncNeeded rq')
| rc_drop rq :
    scaleResourceQuotaOnDemand rq rqStr = Ok None ->
    rqChange rqStr rq (ClearAnnotationMigratingScalingResyncNeeded rq).

Context (nsStr : string -> string).

(** One write of a controller to the world's quotas. *)
Definition rqWrite (w w' : MWorld) : Prop :=
  exists rq rq', rq ∈ mw_rqs w /\ rqChange (nsStr (om_Namespace (rq_meta rq))) rq rq' /\
    mw_rqs w' = replaceRQ rq' (mw_rqs w).

Definition rqSame (w w' : MWorld) : Prop := mw_rqs w' = mw_rqs w.

(** Any number of such writes, and writes to other objects. *)
Definition rqWrites : MWorld -> MWorld -> Prop := rtc (fun w w' => rqSame w w' \/ rqWrite w w').

#[global] Instance rqSame_pre : PreOrder rqSame.
Proof. split; [done|]. intros w1 w2 w3. unfold rqSame. congruence. Qed.
#[global] Instance rqWrites_pre : PreOrder rqWrites.
Proof. unfold rqWrites. apply _. Qed.

Lemma effect_same {A} (m : M MWorld A) w : effect rqSame m w -> effect rqWrites m w.
Proof. intros H. apply rtc_once. by left. Qed.

Lemma rqWrites_same w w' : rqSame w w' -> rqWrites w w'.
Proof. intros H. apply rtc_once. by left. Qed.

(** Changes keep a quota's name and namespace. *)
Lemma setHard_meta name base rq b rq' b' :
  setHardIfChanged name base rq b = Ok (rq', b') -> rq_meta rq' = rq_meta rq.
Proof.
  unfold setHardIfChanged. destruct (negb _); [|by intros [= <- <-]].
  destruct (gm_store _ _ _); simpl; try done. by intros [= <- <-].
Qed.

Lemma calculateNew_meta rq cb mb cd md comp rq' b :
  CalculateNewResourceQuotaFromBaseDelta rq cb mb cd md comp = Ok (rq', b) ->
  rq_meta rq' = rq_meta rq.
Proof.
  unfold CalculateNewResourceQuotaFromBaseDelta.
  destruct (negb (Q_IsZero cb)); simpl.
  - destruct (setHardIfChanged _ _ rq _) as [[r1 b1]| |] eqn:E; simpl; try done.
    apply setHard_meta in E. destruct (negb _); [|by intros [= <- <-]].
    intros H%setHard_meta. congruence.
  - destruct (negb _); [|by intros [= <- <-]]. apply setHard_meta.
Qed.

(** When limits are computed, all their inputs were readable. *)
Lemma scaleOnDemand_inv rq str rq' b :
  scaleResourceQuotaOnDemand rq str = Ok (Some (rq', b)) ->
  exists nrq cpu mem delta comp,
    lib_nrqUnmarshal str = Some nrq /\ isEmpty (Some rq) = false /\
    GetCPUMemoryLimitsFromRancherNamespaceResourceQuota nrq = Ok (cpu, mem) /\
    GetVMIMResourcesFromRQAnnotation (Some rq) = Ok delta /\
    GetCompensationFromResourceQuota (Some rq) = Ok comp /\
    CalculateNewResourceQuotaFromBaseDelta rq cpu mem (delta.1).1 (delta.1).2 comp
      = Ok (rq', b).
Proof.
  unfold scaleResourceQuotaOnDemand, IsEmptyResourceQuota.
  destruct (String.eqb str ""); [done|]. destruct (lib_nrqUnmarshal str) as [nrq|]; [|done].
  destruct (isEmpty _); [done|].
  destruct (GetCPUMemoryLimitsFromRancherNamespaceResourceQuota nrq) as [[c m]| |] eqn:E1;
    [|done|done].
  destruct (GetVMIMResourcesFromRQAnnotation _) as [[[d1 d2] d3]| |] eqn:E2; [|done|done].
  destruct (GetCompensationFromResourceQuota _) as [comp| |] eqn:E3; [|done|done].
  destruct (CalculateNewResourceQuotaFromBaseDelta _ _ _ _ _ _) as [r| |] eqn:E4;
    simpl; [|done|done]. intros [= ->].
  exists nrq, c, m, (d1, d2, d3), comp. by split_and!.
Qed.

Lemma rqChange_sameObj s rq rq' : rqChange s rq rq' -> sameObj (rq_meta rq) (rq_meta rq') = true /\
  om_Namespace (rq_meta rq') = om_Namespace (rq_meta rq) /\
  om_Labels (rq_meta rq') = om_Labels (rq_meta rq).
Proof.
  assert (H : forall r r' : ResourceQuota,
    om_Namespace (rq_meta r') = om_Namespace (rq_meta r) ->
    om_Name (rq_meta r') = om_Name (rq_meta r) ->
    om_Labels (rq_meta r') = om_Labels (rq_meta r) ->
    sameObj (rq_meta r) (rq_meta r') = true /\
    om_Namespace (rq_meta r') = om_Namespace (rq_meta r) /\
    om_Labels (rq_meta r') = om_Labels (rq_meta r)).
  { intros r r' H1 H2 H3. unfold sameObj. by rewrite H1, H2, H3, !String.eqb_refl. }
  assert (Hclear : forall r, rq_meta (ClearAnnotationMigratingScalingResyncNeeded r) = rq_meta r \/
    exists a, rq_meta (ClearAnnotationMigratingScalingResyncNeeded r) = set_Annotations a (rq_meta r)).
  { intros r. unfold ClearAnnotationMigratingScalingResyncNeeded.
    destruct (gm_get _ _); [destruct (negb _)|]; eauto. }
  destruct 1 as [rq name uid rl rq' Hc Hn Ha|rq name uid rq' Hd|rq rl rq' Hf Hp Ha
                |rq rq' b Hs|rq Hs].
  - rewrite AddMigratingVM_Ok in Ha. simplify_eq. by apply H.
  - unfold DeleteMigratingVM, DeleteMigratingCompensation in *.
    destruct (rq_Annotations rq); simplify_eq/=. by apply H.
  - unfold AddMigratingCompensation in Ha. simplify_eq. by apply H.
  - assert (Hm : rq_meta rq' = rq_meta rq).
    { by destruct (scaleOnDemand_inv _ _ _ _ Hs) as (? & ? & ? & ? & ? & _ & _ & _ & _ & _ & ?%calculateNew_meta). }
    destruct (Hclear rq') as [Hc|[a Hc]]; apply H; rewrite Hc, ?Hm; simpl; by rewrite ?Hm.
  - destruct (Hclear rq) as [Hc|[a Hc]]; apply H; rewrite Hc; done.
Qed.
End Ledger.

(** ** Every write of the handlers is one of the ledger's changes *)

Definition vmiOk (v : VMI) : Prop :=
  0 <= rl_Name (vmi_Limits v) ResourceCPU /\ 0 <= rl_Name (vmi_Limits v) ResourceMemory.

Section Refinement.
Context {L : RqLib} (nsStr : string -> string) (E : MEnv).

(** The namespaces carry the annotation [nsStr], and kubevirt's overhead is not
    negative. *)
Hypothesis ns_ok : forall ns a,
  me_nsGet E ns = Ok a -> gm_str a CattleAnnotationResourceQuota = nsStr ns.
Hypothesis overhead_ok : forall v r, 0 <= lib_GetMemoryOverhead v r.

Local Abbreviation writes := (effect (rqWrites nsStr)).

Lemma vmiCache_Get_read ns name w : (vmiCache_Get E ns name w).2 = w.
Proof. unfold vmiCache_Get. break_goal; done. Qed.

Lemma vmCache_Get_read ns name w : (vmCache_Get E ns name w).2 = w.
Proof. unfold vmCache_Get. break_goal; done. Qed.

Lemma rqCache_List_read ns sel w : (rqCache_List E ns sel w).2 = w.
Proof. unfold rqCache_List. break_goal; done. Qed.

Lemma podCache_List_read ns job w : (podCache_List E ns job w).2 = w.
Proof. unfold podCache_List. break_goal; done. Qed.

Lemma rqCache_List_first ns sel w rq rqs w' :
  rqCache_List E ns sel w = (Ok (rq :: rqs), w') ->
  w' = w /\ rq ∈ mw_rqs w /\ om_Namespace (rq_meta rq) = ns /\ sel rq = true.
Proof.
  unfold rqCache_List. destruct (me_rqList E ns); [done|]. intros [= Hl <-].
  assert (Hin : In rq (rq :: rqs)) by by left. rewrite <- Hl, filter_In in Hin.
  destruct Hin as [Hin [Hns Hsel]%andb_true_iff]. apply String.eqb_eq in Hns.
  by rewrite list_elem_of_In.
Qed.

Lemma vmiCache_Get_Ok ns name w v w' :
  vmiCache_Get E ns name w = (Ok v, w') ->
  w' = w /\ v ∈ mw_vmis w /\ om_Namespace (vmi_meta v) = ns /\ om_Name (vmi_meta v) = name.
Proof.
  unfold vmiCache_Get. destruct (me_vmiGet E ns name); [done|].
  destruct (List.find _ (mw_vmis w)) as [v'|] eqn:Ef; [|done]. intros [= -> <-].
  apply find_some in Ef as [Hin [H1%String.eqb_eq H2%String.eqb_eq]%andb_true_iff].
  by rewrite list_elem_of_In.
Qed.

Lemma same_writes {A} (m : M MWorld A) w :
  mw_rqs (m w).2 = mw_rqs w -> writes m w.
Proof. intros H. apply effect_same. exact H. Qed.

Lemma syncVM_same vmi w : effect rqSame (syncVM E vmi) w.
Proof.
  unfold syncVM. effect_go.
  - apply effect_read; [apply _|]. apply vmCache_Get_read.
  - by apply effect_apiWrite; [apply _|].
Qed.

Lemma syncVM_writes vmi w : writes (syncVM E vmi) w.
Proof. apply effect_same, syncVM_same. Qed.

Lemma VirtClientUpdateVmi_writes v w : writes (VirtClientUpdateVmi E v) w.
Proof. apply effect_apiWrite; [apply _|]. by apply rqWrites_same. Qed.

Lemma setVmiMigrationUIDAnnotation_writes vmi uid st w :
  writes (setVmiMigrationUIDAnnotation E vmi uid st) w.
Proof.
  unfold setVmiMigrationUIDAnnotation. effect_go;
    auto using VirtClientUpdateVmi_writes, syncVM_writes.
Qed.

Lemma isNamespaceManaged_read ns w : (isNamespaceManagedByResourceQuota E ns w).2 = w.
Proof.
  unfold isNamespaceManagedByResourceQuota, mbind, M_bind.
  pose proof (rqCache_List_read ns (fun _ => true) w) as H.
  by destruct (rqCache_List E ns (fun _ => true) w) as [[l|e|] w'].
Qed.

(** A write to a listed quota by one of the ledger's changes. *)
Lemma rqs_Update_writes rq rq' w :
  rq ∈ mw_rqs w -> rqChange (nsStr (om_Namespace (rq_meta rq))) rq rq' ->
  writes (rqs_Update E rq') w.
Proof.
  intros Hin Hc. apply effect_apiWrite; [apply _|]. apply rtc_once. right.
  by exists rq, rq'.
Qed.

(** What a migration is charged is not negative. *)
Lemma CalculateScale_nonneg rq vmi ratio b rq' rl :
  vmiOk vmi -> CalculateScaleResourceQuotaWithVMI rq vmi ratio = (b, rq', rl) ->
  nonneg rl /\ (b = true -> rq' = Some rq).
Proof using overhead_ok.
  intros [H1 H2]. unfold CalculateScaleResourceQuotaWithVMI, nonneg.
  destruct (negb _); [by intros [= <- <- <-]|]. intros [= <- <- <-].
  pose proof (overhead_ok vmi ratio). split; [|done].
  destruct (negb _ && gm_has _ ResourceLimitsCPU), (negb _ && gm_has _ ResourceLimitsMemory);
    unfold rl_Name in *; simpl;
    rewrite ?lookup_insert_eq, ?lookup_insert_ne, ?lookup_insert_eq, ?lookup_empty by done;
    simpl; lia.
Qed.

(** A compensation is what is missing, plus 128Mi. *)
Lemma CalculateCompensation_amount rq vmi ratio rl :
  CalculateCompensationResourceQuotaWithVMI (Some rq) (Some vmi) ratio = (true, rl) ->
  rl_Name rl ResourceLimitsMemory =
    rl_Name (rq_Used rq) ResourceLimitsMemory
      + (rl_Name (vmi_Limits vmi) ResourceMemory + lib_GetMemoryOverhead vmi ratio)
      - rl_Name (rq_Hard rq) ResourceLimitsMemory
      + NewQuantity additionalCompensationMemory /\
  0 < rl_Name rl ResourceLimitsMemory.
Proof.
  unfold CalculateCompensationResourceQuotaWithVMI. destruct ratio as [ratio|]; [|done].
  destruct (isMemoryLimitEmpty _ || _); [done|].
  destruct (Q_Cmp _ _ =? 1) eqn:Ec; [|done]. apply Z.eqb_eq, Q_Cmp_gt in Ec.
  intros [= <-]. unfold rl_Name at 1 4. simpl. rewrite lookup_singleton_eq. simpl.
  change (NewQuantity additionalCompensationMemory) with 134217728000000000.
  split; [done|]. unfold rl_Name in *. simpl. rewrite lookup_singleton_eq. simpl. lia.
Qed.

Lemma CalculateCompensation_pos rq vmi ratio rl :
  CalculateCompensationResourceQuotaWithVMI (Some rq) (Some vmi) ratio = (true, rl) ->
  0 < rl_Name rl ResourceLimitsMemory.
Proof. apply CalculateCompensation_amount. Qed.

Lemma scaleResourceQuotaWithVMI_writes vmi w :
  vmiOk vmi -> writes (scaleResourceQuotaWithVMI E vmi) w.
Proof using All.
  intros Hv. unfold scaleResourceQuotaWithVMI.
  effect_step; [effect_step|]. effect_step;
    [apply effect_read; [apply _|apply rqCache_List_read]|].
  destruct a as [|rq rqs]; [effect_go|].
  match goal with H : rqCache_List _ _ _ _ = _ |- _ =>
    apply rqCache_List_first in H as (-> & Hin & Hns & _) end.
  repeat effect_step. effect_facts.
  match goal with H : CalculateScaleResourceQuotaWithVMI _ _ _ = _ |- _ =>
    destruct (CalculateScale_nonneg _ _ _ _ _ _ Hv H) as [Hnn Hb] end.
  boolify. subst. rewrite Hb in * by done.
  eapply rqs_Update_writes; [exact Hin|]. by econstructor.
Qed.

Ltac read_first :=
  effect_step; [apply effect_read; [apply _|apply rqCache_List_read]|];
  match goal with |- effect _ (match ?l with _ => _ end) _ =>
    destruct l as [|rq rqs]; [repeat effect_step|] end;
  match goal with H : rqCache_List _ _ _ _ = _ |- _ =>
    apply rqCache_List_first in H as (-> & Hin & Hns & Hdef) end.

Lemma restoreResourceQuotaWithVMI_writes vmi w :
  writes (restoreResourceQuotaWithVMI E vmi) w.
Proof.
  unfold restoreResourceQuotaWithVMI. read_first. repeat effect_step. subst.
  eapply rqs_Update_writes; [exact Hin|]. by econstructor.
Qed.

Lemma managed_check_writes {A} (f : bool -> M MWorld A) (k : goerror -> goerror) ns w :
  (forall b, writes (f b) w) ->
  writes (mapErr k (isNamespaceManagedByResourceQuota E ns) ≫= f) w.
Proof.
  intros H. effect_step; [repeat effect_step; apply effect_read; [apply _|];
    apply isNamespaceManaged_read|].
  match goal with H' : mapErr _ _ _ = _ |- _ => revert H' end.
  pose proof (isNamespaceManaged_read ns w) as Hr. unfold mapErr.
  destruct (isNamespaceManagedByResourceQuota E ns w) as [[b|e|] w1]; [|done|done].
  simpl in Hr. subst. intros [= <- <-]. apply H.
Qed.

Lemma restoreResourceQuota_writes vmim vmi w : writes (restoreResourceQuota E vmim vmi) w.
Proof.
  unfold restoreResourceQuota. effect_step; [effect_step|]. apply managed_check_writes.
  intros b. repeat effect_step. apply restoreResourceQuotaWithVMI_writes.
Qed.

Lemma scaleResourceQuota_writes vmi w : vmiOk vmi -> writes (scaleResourceQuota E vmi) w.
Proof using All.
  intros Hv. unfold scaleResourceQuota. apply managed_check_writes.
  intros b. repeat effect_step. by apply scaleResourceQuotaWithVMI_writes.
Qed.

Lemma EnqueueAfter_writes ns name secs w :
  writes (vmimController_EnqueueAfter ns name secs) w.
Proof. apply effect_modify. by apply rqWrites_same. Qed.

Lemma compensateResourceQuotaBase_writes vmim vmi w :
  writes (compensateResourceQuotaBase E vmim vmi) w.
Proof.
  unfold compensateResourceQuotaBase. effect_step; [effect_step|]. read_first.
  repeat effect_step; try apply EnqueueAfter_writes. effect_facts. boolify. subst.
  eapply rqs_Update_writes; [exact Hin|].
  econstructor; [done| |done]. by eapply CalculateCompensation_pos.
Qed.

Lemma compensatePendingMigration_writes vmim vmi w :
  writes (compensatePendingMigration E vmim vmi) w.
Proof.
  unfold compensatePendingMigration. repeat effect_step.
  apply compensateResourceQuotaBase_writes.
Qed.

Lemma resetState_writes vmi w : writes (resetHarvesterMigrationStateInVmiAndSyncVM E vmi) w.
Proof.
  unfold resetHarvesterMigrationStateInVmiAndSyncVM, resetHarvesterMigrationStateInVMI.
  repeat effect_step; auto using VirtClientUpdateVmi_writes, syncVM_writes.
Qed.

Lemma OnVmimChanged_writes vmim w :
  (forall v, v ∈ mw_vmis w -> vmiOk v) -> writes (OnVmimChanged E vmim) w.
Proof using All.
  intros Hw. unfold OnVmimChanged, handlePendingMigration, handleFinishedMigration.
  repeat effect_step;
    auto using setVmiMigrationUIDAnnotation_writes, compensatePendingMigration_writes,
      restoreResourceQuota_writes, resetState_writes.
  - apply effect_read; [apply _|apply vmiCache_Get_read].
  - effect_facts. apply scaleResourceQuota_writes.
    match goal with H : vmiCache_Get _ _ _ _ = _ |- _ =>
      apply vmiCache_Get_Ok in H as (_ & ? & _) end. auto.
Qed.

Lemma OnVmiChanged_same vmi w : effect rqSame (OnVmiChanged E vmi) w.
Proof.
  unfold OnVmiChanged, resetHarvesterMigrationStateInVmiAndSyncVM,
    resetHarvesterMigrationStateInVMI.
  repeat effect_step; auto using syncVM_same; try by apply effect_apiWrite; [apply _|].
  apply effect_read; [apply _|apply podCache_List_read].
Qed.

Lemma OnResourceQuotaChanged_writes rq w :
  rq ∈ mw_rqs w -> writes (OnResourceQuotaChanged E (Some rq)) w.
Proof using ns_ok.
  intros Hin. unfold OnResourceQuotaChanged.
  repeat effect_step; effect_facts;
    match goal with H : me_nsGet E _ = Ok _ |- _ => apply ns_ok in H; rewrite H in * end;
    subst; eapply rqs_Update_writes; try exact Hin; by econstructor.
Qed.
End Refinement.

(** ** The invariant of a quota *)

Section Invariant.
Context {L : RqLib} (rqStr : string) (nrq : option NamespaceResourceQuota) (cb mb : Z).
Hypothesis str_ok : rqStr <> "" /\ lib_nrqUnmarshal rqStr = Some nrq /\
  GetCPUMemoryLimitsFromRancherNamespaceResourceQuota nrq = Ok (cb, mb).
Hypothesis base_ok : 0 <= cb /\ 0 <= mb /\ (cb <> 0 \/ mb <> 0).

(** The compensation, as the controller reads it. *)
Definition compOf (rq : ResourceQuota) : Z :=
  match GetCompensationFromResourceQuota (Some rq) with Ok z => z | _ => 0 end.

Definition synced (rq : ResourceQuota) : Prop :=
  (cb <> 0 -> rl_Name (rq_Hard rq) ResourceLimitsCPU
              = cb + migSum ResourceLimitsCPU (annots rq)) /\
  (mb <> 0 -> rl_Name (rq_Hard rq) ResourceLimitsMemory
              = mb + migSum ResourceLimitsMemory (annots rq) + compOf rq).

(** A quota from which the controllers can compute limits. *)
Record readable (rq : ResourceQuota) : Prop := {
  ri_keys : forall k v, annots rq !! k = Some v -> is_Some (migKey k) ->
    HasPrefix k AnnotationMigratingUIDPrefix = true /\
    exists rl, json_unmarshal v = Some rl /\ nonneg rl;
  ri_comp : exists z, GetCompensationFromResourceQuota (Some rq) = Ok z /\ 0 <= z;
  ri_hard : rq_Hard rq <> None /\ isEmpty (Some rq) = false }.

Record rqInv (rq : ResourceQuota) : Prop := {
  ri_readable : readable rq;
  ri_sync : IsMigratingScalingResyncNeeded (Some rq) = false -> synced rq }.

Definition keysOk (g : gmap string string) : Prop :=
  forall k v, g !! k = Some v -> is_Some (migKey k) ->
    HasPrefix k AnnotationMigratingUIDPrefix = true /\
    exists rl, json_unmarshal v = Some rl /\ nonneg rl.

Lemma keysOk_insert_other g k v : keysOk g -> migKey k = None -> keysOk (<[k := v]> g).
Proof.
  intros H Hk k' v' [[<- <-]|[_ Hl]]%lookup_insert_Some Hs; [|by eapply H].
  rewrite Hk in Hs. by destruct Hs.
Qed.

Lemma keysOk_insert_uid g uid rl :
  keysOk g -> nonneg rl ->
  keysOk (<[GenerateAnnotationKeyMigratingVMUID uid := json_marshal rl]> g).
Proof.
  intros H Hn k' v' [[<- <-]|[_ Hl]]%lookup_insert_Some Hs; [|by eapply H].
  split; [apply HasPrefix_app|]. exists rl. by rewrite json_roundtrip.
Qed.

Lemma keysOk_delete g k : keysOk g -> keysOk (delete k g).
Proof. intros H k' v' [_ Hl]%lookup_delete_Some. by apply H. Qed.

Lemma keysOk_migWF g : keysOk g -> migWF g.
Proof.
  intros H. constructor.
  - intros k v Hk Hs. destruct (H k v Hk Hs) as [_ (rl & -> & _)]. by eexists.
  - intros k1 k2 v1 v2 H1 H2 He Hs.
    destruct (H _ _ H1 Hs) as [P1 _]. rewrite He in Hs.
    destruct (H _ _ H2 Hs) as [P2 _]. unfold migKey in He. rewrite P1, P2 in He.
    unfold HasPrefix in *. apply prefix_app_inv in P1 as [t1 ->], P2 as [t2 ->].
    rewrite !TrimPrefix_app in He. by injection He as ->.
Qed.

Lemma migSum_nonneg g r :
  keysOk g -> r = ResourceLimitsCPU \/ r = ResourceLimitsMemory -> 0 <= migSum r g.
Proof.
  intros H Hr. apply sumZ_nonneg. intros [k v] Hin%elem_of_map_to_list.
  unfold migAmount. simpl. destruct (migKey k) as [x|] eqn:Ek; [|lia].
  destruct (H k v Hin) as [_ (rl & -> & H1 & H2)]; [by rewrite Ek|]. by destruct Hr; subst.
Qed.

Lemma getVMIM_annots rq :
  migWF (annots rq) ->
  GetVMIMResourcesFromRQAnnotation (Some rq) =
    Ok (migSum ResourceLimitsCPU (annots rq), migSum ResourceLimitsMemory (annots rq),
        migSum ResourceRequestsStorage (annots rq)).
Proof.
  intros H. unfold annots in *. destruct (rq_Annotations rq) as [g|] eqn:Eg.
  - by apply getVMIMResources_sum.
  - unfold GetVMIMResourcesFromRQAnnotation, getVMIMResourcesFromRQAnnotation,
      getResourceListFromMigratingVMs. rewrite Eg. done.
Qed.

(** The compensation depends on one annotation only. *)
Lemma compensation_get rq rq' :
  gm_str (rq_Annotations rq') AnnotationMigratingCompensation =
  gm_str (rq_Annotations rq) AnnotationMigratingCompensation ->
  GetCompensationFromResourceQuota (Some rq') = GetCompensationFromResourceQuota (Some rq).
Proof.
  intros H. unfold GetCompensationFromResourceQuota, getResourceListOfMigratingCompensation.
  by rewrite H.
Qed.

Lemma annots_set a rq : annots (rq_set_Annotations (Some a) rq) = a.
Proof. done. Qed.

Lemma HasMigratingVM_none rq :
  HasMigratingVM (Some rq) = false -> forall r, migSum r (annots rq) = 0.
Proof.
  unfold HasMigratingVM, annots. intros H r.
  destruct (rq_Annotations rq) as [g|]; simpl; [|by unfold migSum; rewrite map_to_list_empty].
  unfold migSum. induction (map_to_list g) as [|[k v] l IH]; simpl in *; [done|].
  apply orb_false_iff in H as [[H1 H2]%orb_false_iff H3].
  rewrite migAmount_other, IH by (done || (unfold migKey; by rewrite H1, H2)). done.
Qed.

Lemma set_resync_annots rq :
  annots (SetAnnotationMigratingScalingResyncNeeded rq) =
  <[AnnotationMigratingScalingResyncNeeded := stringTrue]> (annots rq).
Proof.
  unfold annots, SetAnnotationMigratingScalingResyncNeeded. simpl.
  by destruct (rq_Annotations rq).
Qed.

Lemma gm_str_annots rq k : gm_str (rq_Annotations rq) k = default "" (annots rq !! k).
Proof.
  unfold gm_str, annots, gm_get. destruct (rq_Annotations rq); [done|]. simpl. by rewrite lookup_empty.
Qed.

Lemma clear_resync_annots rq :
  annots (ClearAnnotationMigratingScalingResyncNeeded rq) = annots rq \/
  annots (ClearAnnotationMigratingScalingResyncNeeded rq) =
    <[AnnotationMigratingScalingResyncNeeded := stringFalse]> (annots rq).
Proof.
  unfold annots, ClearAnnotationMigratingScalingResyncNeeded.
  destruct (gm_get _ _); [|by left]. destruct (negb _); [by left|].
  right. simpl. by destruct (rq_Annotations rq).
Qed.

Lemma clear_resync_hard rq :
  rq_Hard (ClearAnnotationMigratingScalingResyncNeeded rq) = rq_Hard rq.
Proof.
  unfold ClearAnnotationMigratingScalingResyncNeeded.
  destruct (gm_get _ _); [|done]. by destruct (negb _).
Qed.

Lemma clear_resync_flag rq :
  IsMigratingScalingResyncNeeded (Some (ClearAnnotationMigratingScalingResyncNeeded rq)) = false.
Proof.
  unfold IsMigratingScalingResyncNeeded, ClearAnnotationMigratingScalingResyncNeeded, gm_str.
  destruct (gm_get (rq_Annotations rq) _) as [v|] eqn:Eg; [|by rewrite Eg].
  destruct (String.eqb v stringTrue) eqn:Et; simpl; [|by rewrite Eg].
  by rewrite ann_get_set, gm_get_set_eq.
Qed.

(** The inputs of the limits are readable when the invariant holds. *)
Lemma rqInv_scale rq :
  readable rq ->
  scaleResourceQuotaOnDemand rq rqStr =
    (r ← CalculateNewResourceQuotaFromBaseDelta rq cb mb
           (migSum ResourceLimitsCPU (annots rq)) (migSum ResourceLimitsMemory (annots rq))
           (compOf rq);
     Ok (Some r)).
Proof using str_ok.
  intros [Hk (z & Hz & _) [Hh He]]. destruct str_ok as (Hs & Hu & Hl).
  unfold scaleResourceQuotaOnDemand, IsEmptyResourceQuota, compOf.
  apply String.eqb_neq in Hs. rewrite Hs, Hu, He, Hl, Hz, getVMIM_annots by by apply keysOk_migWF. done.
Qed.

(** An annotation change away from the ledger's own keys, other than the flag,
    keeps the whole invariant; so does a change of the usage. *)
Lemma set_other_comp rq k v :
  k <> AnnotationMigratingCompensation ->
  GetCompensationFromResourceQuota (Some (rq_set_Annotations (Some (<[k := v]> (annots rq))) rq)) =
  GetCompensationFromResourceQuota (Some rq).
Proof.
  intros Hne. apply compensation_get. rewrite !gm_str_annots, annots_set. by rewrite lookup_insert_ne.
Qed.

Lemma readable_set_other rq k v :
  readable rq -> migKey k = None -> k <> AnnotationMigratingCompensation ->
  readable (rq_set_Annotations (Some (<[k := v]> (annots rq))) rq).
Proof.
  intros [Hk Hc Hh] Hm Hne. constructor.
  - rewrite annots_set. by apply keysOk_insert_other.
  - by rewrite set_other_comp.
  - done.
Qed.

Lemma rqInv_set_other rq k v :
  rqInv rq -> migKey k = None -> k <> AnnotationMigratingCompensation ->
  (k = AnnotationMigratingScalingResyncNeeded -> v = stringTrue) ->
  rqInv (rq_set_Annotations (Some (<[k := v]> (annots rq))) rq).
Proof.
  intros [Hrd Hs] Hm Hne Hf. constructor; [by apply readable_set_other|]. intros Hflag.
  assert (Hk' : k <> AnnotationMigratingScalingResyncNeeded).
  { intros ->. rewrite Hf in Hflag by done. unfold IsMigratingScalingResyncNeeded in Hflag.
    by rewrite gm_str_annots, annots_set, lookup_insert_eq in Hflag. }
  destruct Hs as [H1 H2].
  { unfold IsMigratingScalingResyncNeeded in *.
    by rewrite gm_str_annots, annots_set, lookup_insert_ne, <- gm_str_annots in Hflag. }
  split; simpl; intros Hb; unfold compOf; rewrite annots_set, migSum_insert_other by done; auto.
  rewrite set_other_comp by done. auto.
Qed.

Lemma readable_Used rq u : readable rq -> readable (mkRQ (rq_meta rq) (rq_Hard rq) u).
Proof. intros [Hk Hc Hh]. by constructor. Qed.

Lemma rqInv_Used rq u : rqInv rq -> rqInv (mkRQ (rq_meta rq) (rq_Hard rq) u).
Proof. intros [Hrd Hs]. constructor; [by apply readable_Used|done]. Qed.

(** Other limits can be read as well, as long as there are any. *)
Lemma readable_Hard rq hard :
  readable rq -> isEmpty (Some (mkRQ (rq_meta rq) hard (rq_Used rq))) = false ->
  readable (mkRQ (rq_meta rq) hard (rq_Used rq)).
Proof.
  intros [Hk Hc _] He. constructor; [done|done|]. split; [|done]. simpl. intros Hn. by rewrite Hn in He.
Qed.

(** A quota whose resync flag is set needs only the readable part. *)
Lemma rqInv_flagged rq g :
  keysOk g ->
  (exists z, GetCompensationFromResourceQuota (Some (rq_set_Annotations (Some g) rq)) = Ok z
             /\ 0 <= z) ->
  rq_Hard rq <> None -> isEmpty (Some rq) = false ->
  rqInv (SetAnnotationMigratingScalingResyncNeeded (rq_set_Annotations (Some g) rq)).
Proof.
  intros Hk Hc Hh He.
  assert (Hcomp : GetCompensationFromResourceQuota
     (Some (SetAnnotationMigratingScalingResyncNeeded (rq_set_Annotations (Some g) rq))) =
     GetCompensationFromResourceQuota (Some (rq_set_Annotations (Some g) rq))).
  { apply compensation_get. by rewrite !gm_str_annots, set_resync_annots, lookup_insert_ne. }
  constructor; [constructor|].
  - rewrite set_resync_annots. by apply keysOk_insert_other.
  - by rewrite Hcomp.
  - done.
  - unfold IsMigratingScalingResyncNeeded. by rewrite gm_str_annots, set_resync_annots, lookup_insert_eq.
Qed.

Lemma compensation_none rq :
  gm_str (rq_Annotations rq) AnnotationMigratingCompensation = "" ->
  GetCompensationFromResourceQuota (Some rq) = Ok 0.
Proof.
  intros H. unfold GetCompensationFromResourceQuota, getResourceListOfMigratingCompensation.
  by rewrite H.
Qed.

Lemma not_empty_intro rq :
  rq_Hard rq <> None ->
  rl_Name (rq_Hard rq) ResourceLimitsCPU <> 0 \/ rl_Name (rq_Hard rq) ResourceLimitsMemory <> 0 ->
  isEmpty (Some rq) = false.
Proof.
  intros Hh Hor. unfold isEmpty. destruct (rq_Hard rq) eqn:Eh; [|done].
  apply andb_false_iff. by rewrite !Q_IsZero_false.
Qed.

Lemma rqInv_recompute rq rq' b :
  readable rq -> scaleResourceQuotaOnDemand rq rqStr = Ok (Some (rq', b)) ->
  rqInv (ClearAnnotationMigratingScalingResyncNeeded rq').
Proof using str_ok base_ok.
  intros HI. rewrite (rqInv_scale _ HI). destruct HI as [Hk (z & Hz & Hz0) [Hh _]].
  assert (Hcz : compOf rq = z) by (unfold compOf; by rewrite Hz). rewrite Hcz.
  destruct (CalculateNewResourceQuota_spec rq cb mb (migSum ResourceLimitsCPU (annots rq))
    (migSum ResourceLimitsMemory (annots rq)) z Hh)
    as (r & b' & -> & Hc & Hm & _ & Hmeta & _ & _ & Hh' & _). simpl. intros [= <- _].
  pose proof (migSum_nonneg _ ResourceLimitsCPU Hk ltac:(by left)).
  pose proof (migSum_nonneg _ ResourceLimitsMemory Hk ltac:(by right)).
  assert (Ha : annots r = annots rq) by (unfold annots, rq_Annotations; by rewrite Hmeta).
  set (r' := ClearAnnotationMigratingScalingResyncNeeded r).
  assert (Hcl : annots r' = annots rq \/
    annots r' = <[AnnotationMigratingScalingResyncNeeded := stringFalse]> (annots rq))
    by (rewrite <- Ha; apply clear_resync_annots).
  assert (Hsum : forall x, migSum x (annots r') = migSum x (annots rq))
    by (intros x; destruct Hcl as [->| ->]; [done|by apply migSum_insert_other]).
  assert (Hcomp : GetCompensationFromResourceQuota (Some r') = Ok z).
  { rewrite <- Hz. apply compensation_get. rewrite !gm_str_annots.
    destruct Hcl as [->| ->]; [done|by rewrite lookup_insert_ne]. }
  constructor; [constructor|].
  - destruct Hcl as [->| ->]; [done|by apply keysOk_insert_other].
  - eauto.
  - unfold r'. rewrite clear_resync_hard. split; [done|].
    apply not_empty_intro; rewrite clear_resync_hard; [done|]. rewrite Hc, Hm.
    destruct (Q_IsZero cb) eqn:E1; rewrite ?Q_IsZero_true, ?Q_IsZero_false in E1; [|left; lia].
    destruct (Q_IsZero mb) eqn:E2; rewrite ?Q_IsZero_true, ?Q_IsZero_false in E2; [lia|right; lia].
  - intros _. split; intros Hb; unfold compOf; rewrite ?Hcomp, Hsum; unfold r';
      rewrite clear_resync_hard; apply Q_IsZero_false in Hb; [by rewrite Hc, Hb|by rewrite Hm, Hb].
Qed.

(** Every write of a controller leaves a quota with its limits in place or a resync pending,
    whatever its limits were. *)
Lemma rqChange_inv rq rq' : rqChange rqStr rq rq' -> readable rq -> rqInv rq'.
Proof using str_ok base_ok.
  destruct 1 as [rq name uid rl rq' Hc Hn Ha|rq name uid rq' Hd|rq rl rq' Hf Hp Ha
                |rq rq' b Hs|rq Hs]; intros HI.
  - destruct HI as [Hk (z & Hz & Hz0) [Hh He]].
    rewrite AddMigratingVM_Ok in Ha. injection Ha as <-. fold (annots rq).
    apply rqInv_flagged; try done.
    + by apply keysOk_insert_uid; [apply keysOk_delete|].
    + exists z. rewrite <- Hz. split; [|done]. apply compensation_get.
      rewrite !gm_str_annots, annots_set.
      by rewrite lookup_insert_ne, lookup_delete_ne.
  - destruct HI as [Hk _ [Hh He]]. unfold DeleteMigratingVM in Hd.
    unfold annots in Hk.
    destruct (rq_Annotations rq) as [g|] eqn:Eg; [|done]. injection Hd as <- _.
    unfold DeleteMigratingCompensation. simpl. apply rqInv_flagged; try done.
    + by repeat apply keysOk_delete.
    + exists 0. split; [|done]. apply compensation_none.
      by rewrite gm_str_annots, annots_set, lookup_delete_eq.
  - destruct HI as [Hk _ [Hh He]]. unfold AddMigratingCompensation in Ha. injection Ha as <-.
    replace (gm_set (rq_Annotations rq) AnnotationMigratingCompensation (json_marshal rl))
      with (Some (<[AnnotationMigratingCompensation := json_marshal rl]> (annots rq)))
      by (unfold annots; by destruct (rq_Annotations rq)).
    apply rqInv_flagged; try done.
    + by apply keysOk_insert_other.
    + unfold GetCompensationFromResourceQuota, getResourceListOfMigratingCompensation.
      rewrite gm_str_annots, annots_set, lookup_insert_eq. simpl.
      destruct (String.eqb _ ""); [by exists 0|]. rewrite json_roundtrip. simpl.
      destruct rl as [g|]; eexists; (split; [done|]); unfold NewQuantity in *; lia.
  - by eapply rqInv_recompute.
  - rewrite (rqInv_scale _ HI) in Hs. by destruct (CalculateNewResourceQuotaFromBaseDelta _ _ _ _ _ _).
Qed.
End Invariant.

(** ** All interleavings *)

Definition envOk (nsStr : string -> string) (E : MEnv) : Prop := forall ns a,
  me_nsGet E ns = Ok a -> gm_str a CattleAnnotationResourceQuota = nsStr ns.

Definition set_rqs (l : list ResourceQuota) (w : MWorld) : MWorld :=
  mkMWorld l (mw_vmis w) (mw_vms w) (mw_pods w) (mw_queue w).

Definition rqKey (rq : ResourceQuota) : string * string :=
  (om_Namespace (rq_meta rq), om_Name (rq_meta rq)).

Lemma NoDup_key_eq (l : list ResourceQuota) r rq :
  NoDup (map rqKey l) -> r ∈ l -> rq ∈ l -> rqKey r = rqKey rq -> r = rq.
Proof.
  induction l as [|x l IH]; intros Hnd Hr Hq Hk; [set_solver|].
  apply NoDup_cons in Hnd as [Hx Hnd].
  assert (Hin : forall y, y ∈ l -> rqKey y ∈ map rqKey l) by (intros; by apply list_elem_of_fmap_2).
  apply elem_of_cons in Hr as [->|Hr], Hq as [->|Hq]; [done| | |by apply IH].
  - exfalso. apply Hx. rewrite Hk. by apply Hin.
  - exfalso. apply Hx. rewrite <- Hk. by apply Hin.
Qed.

(** The cluster, with the limits that the namespaces ask for in their annotation, and the
    quotas that others have changed the limits of since they were last reconciled. *)
Record QState := mkQState {
  qs_world : MWorld;
  qs_limits : string -> string;
  qs_reset : gset (string * string) }.

Section System.
Context {L : RqLib} (ns0 : string).

(** The annotation [s] asks for the limits [cb] and [mb], at least one of them. *)
Definition asks (s : string) (cb mb : Z) : Prop :=
  (exists nrq, s <> "" /\ lib_nrqUnmarshal s = Some nrq /\
     GetCPUMemoryLimitsFromRancherNamespaceResourceQuota nrq = Ok (cb, mb)) /\
  0 <= cb /\ 0 <= mb /\ (cb <> 0 \/ mb <> 0).

(** A quota that the controller reconciles. *)
Definition managed (rq : ResourceQuota) : bool :=
  isDefaultRQ rq && negb (bool_decide (is_Some (om_DeletionTimestamp (rq_meta rq))))
  && negb (IsResourceQuotaAutoScalingDisabled (Some rq)).

Definition isOk {A} (o : outcome A) : bool := match o with Ok _ => true | _ => false end.

(** A step: one event of one of the three controllers, under any environment (any API call
    may fail), where a reconcile of a managed quota that succeeds settles it; or the rest of
    the cluster: the limits of a quota are written, the namespace asks for other limits, the
    usage of a quota is measured anew, an annotation outside the ledger is written, other
    objects change. *)
Inductive mstep : QState -> QState -> Prop :=
| ms_vmim E vmim w lim D :
    envOk lim E -> (forall v, v ∈ mw_vmis w -> vmiOk v) ->
    mstep (mkQState w lim D) (mkQState (OnVmimChanged E vmim w).2 lim D)
| ms_vmi E vmi w lim D : mstep (mkQState w lim D) (mkQState (OnVmiChanged E vmi w).2 lim D)
| ms_rq E rq w lim D :
    envOk lim E -> rq ∈ mw_rqs w ->
    mstep (mkQState w lim D)
      (mkQState (OnResourceQuotaChanged E (Some rq) w).2 lim
         (if managed rq && isOk (OnResourceQuotaChanged E (Some rq) w).1
          then D ∖ {[ rqKey rq ]} else D))
| ms_hard rq hard w lim D :
    rq ∈ mw_rqs w -> isEmpty (Some (mkRQ (rq_meta rq) hard (rq_Used rq))) = false ->
    mstep (mkQState w lim D)
      (mkQState (set_rqs (replaceRQ (mkRQ (rq_meta rq) hard (rq_Used rq)) (mw_rqs w)) w) lim
         ({[ rqKey rq ]} ∪ D))
| ms_limits w lim lim' D cb mb :
    asks (lim' ns0) cb mb ->
    mstep (mkQState w lim D) (mkQState w lim' (list_to_set (map rqKey (mw_rqs w)) ∪ D))
| ms_used rq used w lim D :
    rq ∈ mw_rqs w ->
    mstep (mkQState w lim D)
      (mkQState (set_rqs (replaceRQ (mkRQ (rq_meta rq) (rq_Hard rq) used) (mw_rqs w)) w) lim D)
| ms_annotate rq k v w lim D :
    rq ∈ mw_rqs w -> migKey k = None -> k <> AnnotationMigratingCompensation ->
    k <> AnnotationMigratingScalingResyncNeeded ->
    mstep (mkQState w lim D)
      (mkQState (set_rqs (replaceRQ (rq_set_Annotations (Some (<[k := v]> (annots rq))) rq)
                            (mw_rqs w)) w) lim D)
| ms_other w w' lim D :
    mw_rqs w' = mw_rqs w -> mstep (mkQState w lim D) (mkQState w' lim D).

Hypothesis overhead_ok : forall v r, 0 <= lib_GetMemoryOverhead v r.

(** A quota as rancher creates it: the namespace's limits and no migrations. *)
Definition fresh (cb mb : Z) (rq : ResourceQuota) : Prop :=
  rq_Hard rq <> None /\ rl_Name (rq_Hard rq) ResourceLimitsCPU = cb /\
  rl_Name (rq_Hard rq) ResourceLimitsMemory = mb /\ rq_Annotations rq = None.

Definition minit (q : QState) : Prop :=
  NoDup (map rqKey (mw_rqs (qs_world q))) /\
  exists cb mb, asks (qs_limits q ns0) cb mb /\
    forall rq, rq ∈ mw_rqs (qs_world q) -> om_Namespace (rq_meta rq) = ns0 -> fresh cb mb rq.

(** What holds of a quota of the namespace. *)
Definition quotaOk (cb mb : Z) (D : gset (string * string)) (rq : ResourceQuota) : Prop :=
  readable rq /\ (rqKey rq ∉ D -> rqInv cb mb rq).

Definition quotasOk (cb mb : Z) (D : gset (string * string)) (w : MWorld) : Prop :=
  NoDup (map rqKey (mw_rqs w)) /\
  forall rq, rq ∈ mw_rqs w -> om_Namespace (rq_meta rq) = ns0 -> quotaOk cb mb D rq.

Definition mInv (q : QState) : Prop :=
  exists cb mb, asks (qs_limits q ns0) cb mb /\ quotasOk cb mb (qs_reset q) (qs_world q).

Lemma fresh_inv cb mb rq : cb <> 0 \/ mb <> 0 -> fresh cb mb rq -> rqInv cb mb rq.
Proof using.
  intros Hb (Hh & Hc & Hm & Ha).
  assert (Hg : annots rq = ∅) by (unfold annots; by rewrite Ha).
  assert (Hz : GetCompensationFromResourceQuota (Some rq) = Ok 0)
    by (apply compensation_none; by rewrite Ha).
  constructor; [constructor|].
  - intros k v. by rewrite Hg, lookup_empty.
  - exists 0. split; [done|lia].
  - split; [done|]. apply not_empty_intro; [done|]. by rewrite Hc, Hm.
  - intros _. unfold synced, compOf. rewrite Hg, Hz, Hc, Hm. unfold migSum.
    rewrite map_to_list_empty. simpl. lia.
Qed.

Lemma rqKey_same r rq : rqKey r = rqKey rq <-> sameObj (rq_meta r) (rq_meta rq) = true.
Proof using.
  unfold rqKey, sameObj. rewrite andb_true_iff, !String.eqb_eq. split; [|intros [-> ->]; done].
  by intros [= -> ->].
Qed.

Lemma replaceRQ_keys rq l : map rqKey (replaceRQ rq l) = map rqKey l.
Proof using.
  unfold replaceRQ. rewrite map_map. apply map_ext. intros r.
  destruct (sameObj _ _) eqn:E; [|done]. symmetry. by apply rqKey_same.
Qed.

Lemma replaceRQ_elem rq l r :
  r ∈ replaceRQ rq l -> r = rq \/ (r ∈ l /\ rqKey r <> rqKey rq).
Proof using.
  unfold replaceRQ. rewrite !list_elem_of_In, in_map_iff. intros (x & Hx & Hin).
  destruct (sameObj _ _) eqn:E; subst; [by left|]. right. split; [done|].
  rewrite rqKey_same. congruence.
Qed.

(** One quota is replaced by one with the same key, and others are dirty no more than before. *)
Lemma quotasOk_replace cb mb D D' w w' rq :
  quotasOk cb mb D w -> mw_rqs w' = replaceRQ rq (mw_rqs w) ->
  (forall k, k ∈ D -> k <> rqKey rq -> k ∈ D') ->
  (om_Namespace (rq_meta rq) = ns0 -> quotaOk cb mb D' rq) -> quotasOk cb mb D' w'.
Proof using.
  intros [Hnd HI] He HD Hrq. split; [by rewrite He, replaceRQ_keys|].
  intros r Hr Hns. rewrite He in Hr. apply replaceRQ_elem in Hr as [->|[Hr Hk]]; [auto|].
  destruct (HI r Hr Hns) as [Hrd Hi]. split; [done|]. intros Hn. apply Hi. auto.
Qed.

Lemma quotasOk_writes lim cb mb D w w' :
  asks (lim ns0) cb mb -> rqWrites lim w w' -> quotasOk cb mb D w -> quotasOk cb mb D w'.
Proof using.
  intros [(nrq & Hstr) Hb].
  induction 1 as [|w1 w2 w3 [Hs|(rq & rq' & Hin & Hc & He)] _ IH]; intros HI; [done| |].
  - apply IH. unfold quotasOk. unfold rqSame in Hs. by rewrite Hs.
  - apply IH. destruct (rqChange_sameObj _ _ _ Hc) as (_ & Hns & _).
    eapply quotasOk_replace; [exact HI|exact He|done|]. intros Hn. rewrite Hns in Hn.
    rewrite Hn in Hc. destruct HI as [_ HI]. destruct (HI rq Hin Hn) as [Hrd _].
    pose proof (rqChange_inv _ nrq cb mb Hstr Hb _ _ Hc Hrd) as Hi. split; [apply Hi|done].
Qed.

(** A reconcile that succeeds finds the limits of a quota in place or puts them there. *)
Lemma reconcile_settles lim cb mb E rq w :
  asks (lim ns0) cb mb -> envOk lim E -> readable rq -> managed rq = true ->
  om_Namespace (rq_meta rq) = ns0 -> isOk (OnResourceQuotaChanged E (Some rq) w).1 = true ->
  (OnResourceQuotaChanged E (Some rq) w).2 = w /\ rqInv cb mb rq \/
  exists rq', mw_rqs (OnResourceQuotaChanged E (Some rq) w).2 = replaceRQ rq' (mw_rqs w) /\
    rqKey rq' = rqKey rq /\ rqInv cb mb rq'.
Proof using.
  intros [(nrq & Hstr) Hb] HE Hrd Hmg Hns Hok.
  unfold managed in Hmg. rewrite !andb_true_iff, !negb_true_iff in Hmg. destruct Hmg as [[Hdef Hdel] Hdis].
  assert (Hlab : om_Labels (rq_meta rq) <> None)
    by (intros Hn; unfold isDefaultRQ in Hdef; by rewrite Hn in Hdef).
  revert Hok. unfold OnResourceQuotaChanged. rewrite Hdel, Hdef, Hdis.
  rewrite bool_decide_eq_false_2 by done. cbn [orb negb].
  unfold mbind at 1 3 5, M_bind at 1 3 5, mapErr, lift at 1 3 5. rewrite Hns.
  destruct (me_nsGet E ns0) as [a| |] eqn:En; [|done|done]. apply HE in En. rewrite En.
  pose proof (rqInv_scale _ nrq cb mb Hstr rq Hrd) as Hsc. rewrite Hsc.
  destruct (CalculateNewResourceQuota_spec rq cb mb (migSum ResourceLimitsCPU (annots rq))
    (migSum ResourceLimitsMemory (annots rq)) (compOf rq) ltac:(apply Hrd))
    as (r & b & Hcalc & _ & _ & _ & Hmeta & _ & Hsame & _ & _).
  rewrite Hcalc in *. cbn [mbind outcome_bind] in *.
  pose proof (rqInv_recompute _ nrq cb mb Hstr Hb rq r b Hrd Hsc) as Hi.
  assert (Hkey : rqKey (ClearAnnotationMigratingScalingResyncNeeded r) = rqKey rq).
  { destruct (rqChange_sameObj (lim ns0) rq (ClearAnnotationMigratingScalingResyncNeeded r)) as [Hso _];
      [by eapply rc_recompute|]. symmetry. by apply rqKey_same. }
  assert (Hwr : isOk ((Some <$> rqs_Update E (ClearAnnotationMigratingScalingResyncNeeded r)) w).1 = true ->
    exists rq', mw_rqs ((Some <$> rqs_Update E (ClearAnnotationMigratingScalingResyncNeeded r)) w).2
      = replaceRQ rq' (mw_rqs w) /\ rqKey rq' = rqKey rq /\ rqInv cb mb rq').
  { unfold fmap, M_fmap, rqs_Update, apiWrite. destruct (me_rqUpdate _ _); [done|]. intros _.
    eexists. split_and!; [reflexivity|exact Hkey|exact Hi]. }
  unfold mbind, M_bind, lift. destruct b; [intros Hok; right; by apply Hwr|].
  specialize (Hsame eq_refl). subst r.
  destruct (IsMigratingScalingResyncNeeded (Some rq)) eqn:Ef; [intros Hok; right; by apply Hwr|].
  intros _. left. split; [done|]. unfold ClearAnnotationMigratingScalingResyncNeeded in Hi.
  unfold IsMigratingScalingResyncNeeded, gm_str in Ef.
  destruct (gm_get (rq_Annotations rq) AnnotationMigratingScalingResyncNeeded) as [x|]; [|done].
  simpl in Ef. by rewrite Ef in Hi.
Qed.

Lemma quotasOk_reconcile lim cb mb D E rq w :
  asks (lim ns0) cb mb -> envOk lim E -> rq ∈ mw_rqs w -> quotasOk cb mb D w ->
  quotasOk cb mb
    (if managed rq && isOk (OnResourceQuotaChanged E (Some rq) w).1 then D ∖ {[ rqKey rq ]} else D)
    (OnResourceQuotaChanged E (Some rq) w).2.
Proof using overhead_ok.
  intros Hask HE Hin HI. destruct (managed rq && _) eqn:Em.
  2: { eapply quotasOk_writes; [done| |exact HI]. by apply OnResourceQuotaChanged_writes. }
  apply andb_true_iff in Em as [Hmg Hok].
  destruct (decide (om_Namespace (rq_meta rq) = ns0)) as [Hns|Hns]; cycle 1.
  { assert (HI' : quotasOk cb mb D (OnResourceQuotaChanged E (Some rq) w).2).
    { eapply quotasOk_writes; [done| |exact HI]. by apply OnResourceQuotaChanged_writes. }
    destruct HI' as [Hnd HI']. split; [done|]. intros r Hr Hn. destruct (HI' r Hr Hn) as [Hrd Hi].
    split; [done|]. intros Hk. apply Hi. rewrite elem_of_difference, elem_of_singleton in Hk.
    intros HD. apply Hk. split; [done|]. intros E'. apply Hns. unfold rqKey in E'. congruence. }
  pose proof HI as [Hnd HI']. destruct (HI' rq Hin Hns) as [Hrd _].
  destruct (reconcile_settles lim cb mb E rq w Hask HE Hrd Hmg Hns Hok) as [[-> Hi]|(rq' & He & Hk & Hi)].
  - split; [done|]. intros r Hr Hn. destruct (decide (rqKey r = rqKey rq)) as [Hk|Hk].
    + rewrite (NoDup_key_eq _ _ _ Hnd Hr Hin Hk). by split.
    + destruct (HI' r Hr Hn) as [Hrd' Hi']. split; [done|]. intros HD. apply Hi'. set_solver.
  - eapply quotasOk_replace; [exact HI|exact He| |intros _; split; [apply Hi|done]].
    intros k HD Hne. apply elem_of_difference. split; [done|]. rewrite elem_of_singleton. congruence.
Qed.

Lemma mstep_inv q q' : mInv q -> mstep q q' -> mInv q'.
Proof using overhead_ok.
  intros (cb & mb & Hask & HI) Hstep. destruct Hstep as [E vmim w lim D HE Hv|E vmi w lim D
    |E rq w lim D HE Hin|rq hard w lim D Hin He|w lim lim' D cb' mb' Hask'
    |rq used w lim D Hin|rq k v w lim D Hin Hk H1 H2|w w' lim D He]; simpl in *.
  - exists cb, mb. split; [done|]. eapply quotasOk_writes; [done| |exact HI]. by apply OnVmimChanged_writes.
  - exists cb, mb. split; [done|]. eapply quotasOk_writes; [done| |exact HI].
    apply effect_same, OnVmiChanged_same.
  - exists cb, mb. split; [done|]. by apply (quotasOk_reconcile lim).
  - exists cb, mb. split; [done|]. pose proof HI as [_ HI'].
    eapply quotasOk_replace; [exact HI|done|intros k HD _; by apply elem_of_union_r|]. intros Hn. split.
    + apply readable_Hard; [exact (proj1 (HI' rq Hin Hn))|done].
    + intros Hd. destruct Hd. apply elem_of_union_l, elem_of_singleton. done.
  - exists cb', mb'. split; [done|]. destruct HI as [Hnd HI]. split; [done|].
    intros r Hr Hn. split; [exact (proj1 (HI r Hr Hn))|]. intros Hd. destruct Hd.
    apply elem_of_union_l, elem_of_list_to_set. by apply list_elem_of_fmap_2.
  - exists cb, mb. split; [done|]. pose proof HI as [_ HI'].
    eapply quotasOk_replace; [exact HI|done|done|]. intros Hn. destruct (HI' rq Hin Hn) as [Hrd Hi].
    split; [by apply readable_Used|]. intros Hd. apply rqInv_Used. by apply Hi.
  - exists cb, mb. split; [done|]. pose proof HI as [_ HI'].
    eapply quotasOk_replace; [exact HI|done|done|]. intros Hn. destruct (HI' rq Hin Hn) as [Hrd Hi].
    split; [by apply readable_set_other|]. intros Hd. apply rqInv_set_other; try done. by apply Hi.
  - exists cb, mb. split; [done|]. unfold quotasOk in *. simpl. by rewrite He.
Qed.

Lemma reachable_mInv q : reachable minit mstep q -> mInv q.
Proof using overhead_ok.
  apply invariant_reachable.
  - intros s (Hnd & cb & mb & Hask & Hf). exists cb, mb. split; [done|]. split; [done|].
    intros rq Hin Hns. pose proof (fresh_inv cb mb rq ltac:(apply Hask) (Hf rq Hin Hns)) as Hi.
    split; [apply Hi|done].
  - intros s s' HI Hs. by eapply mstep_inv.
Qed.

Lemma asks_fun s cb mb cb' mb' : asks s cb mb -> asks s cb' mb' -> cb' = cb /\ mb' = mb.
Proof using. intros [(nrq & _ & H1 & H2) _] [(nrq' & _ & H3 & H4) _]. rewrite H3 in H1. injection H1 as ->. rewrite H4 in H2. by injection H2 as -> ->. Qed.

(** C1: conservation of the quota.  Take any state reached from fresh quotas, with different
    names, by any interleaving of events of the three controllers, with API failures, and of
    writes by others: the limits of a quota reset (as Rancher does) to any that are not
    empty, other limits asked for by the namespace, usage updates, annotations outside the
    ledger.  A quota of the namespace whose resync request is not pending, and which has
    been reconciled successfully since its limits were last reset or the namespace last
    asked for other limits, has exactly the namespace's CPU limit plus the CPU of the
    migrating VMs recorded on it, and the namespace's memory limit plus their memory plus
    the compensation: the controllers lose and leak no quota.  When nothing is recorded,
    these are the namespace's own limits.  The controllers are taken to see the namespace's
    present annotation and to write quotas from their present version (an older one makes
    the write fail), the namespace to limit CPU or memory, and recorded amounts not to be
    negative. *)
Theorem quota_conservation q rq cb mb :
  reachable minit mstep q -> rq ∈ mw_rqs (qs_world q) -> om_Namespace (rq_meta rq) = ns0 ->
  asks (qs_limits q ns0) cb mb ->
  IsMigratingScalingResyncNeeded (Some rq) = false -> rqKey rq ∉ qs_reset q ->
  (cb <> 0 -> rl_Name (rq_Hard rq) ResourceLimitsCPU
              = cb + migSum ResourceLimitsCPU (annots rq)) /\
  (mb <> 0 -> rl_Name (rq_Hard rq) ResourceLimitsMemory
              = mb + migSum ResourceLimitsMemory (annots rq) + compOf rq) /\
  (HasMigratingVM (Some rq) = false -> HasMigratingCompensation (Some rq) = false ->
     (cb <> 0 -> rl_Name (rq_Hard rq) ResourceLimitsCPU = cb) /\
     (mb <> 0 -> rl_Name (rq_Hard rq) ResourceLimitsMemory = mb)).
Proof using overhead_ok.
  intros Hr Hin Hns Hask Hf Hd. destruct (reachable_mInv q Hr) as (cb' & mb' & Hask' & _ & HI).
  destruct (asks_fun _ _ _ _ _ Hask Hask') as [-> ->].
  destruct (HI rq Hin Hns) as [_ Hi]. destruct (ri_sync _ _ _ (Hi Hd) Hf) as [Hc Hm].
  split_and!; [done..|]. intros Hv Hcomp.
  pose proof (HasMigratingVM_none rq Hv) as Hn.
  assert (Hz : compOf rq = 0).
  { unfold compOf. rewrite compensation_none; [done|].
    by apply String.eqb_eq, negb_false_iff. }
  split; intros Hb; [rewrite Hc by done|rewrite Hm by done]; rewrite Hn; lia.
Qed.
End System.

(** C23: refinement of the handlers by the ledger.  Whatever a handler does and
    however it ends, its effect on the quotas is a sequence of the ledger's
    changes applied to quotas of the world: a VM is registered only when it was
    not, a release takes the compensation with it, a compensation is positive and
    only given to a quota without pending resync, and limits only come from
    recomputing them; the handler of VMIs writes no quota. *)
Theorem handlers_refine_ledger {L : RqLib} nsStr E w vmim vmi rq :
  envOk nsStr E -> (forall v r, 0 <= lib_GetMemoryOverhead v r) ->
  (forall v, v ∈ mw_vmis w -> vmiOk v) -> rq ∈ mw_rqs w ->
  rqWrites nsStr w (OnVmimChanged E vmim w).2 /\
  rqWrites nsStr w (OnResourceQuotaChanged E (Some rq) w).2 /\
  mw_rqs (OnVmiChanged E vmi w).2 = mw_rqs w.
Proof.
  intros HE Ho Hv Hin. split_and!.
  - by apply OnVmimChanged_writes.
  - by apply OnResourceQuotaChanged_writes.
  - apply OnVmiChanged_same.
Qed.

(** ** Runs without API failures *)

Section Runs.
Context {L : RqLib} (E : MEnv).

(** No API call fails. *)
Record quiet : Prop := {
  q_vmiGet : forall ns n, me_vmiGet E ns n = None;
  q_vmGet : forall ns n, me_vmGet E ns n = None;
  q_rqList : forall ns, me_rqList E ns = None;
  q_vmiUpdate : forall v, me_vmiUpdate E v = None;
  q_vmUpdate : forall v, me_vmUpdate E v = None;
  q_rqUpdate : forall rq, me_rqUpdate E rq = None }.
Hypothesis Q : quiet.

(** The quota of a namespace the controllers work on: the first default one. *)
Definition defaultRQ (ns : string) (w : MWorld) : option ResourceQuota :=
  List.find (fun rq => String.eqb (om_Namespace (rq_meta rq)) ns && isDefaultRQ rq) (mw_rqs w).

Definition theVMI (ns name : string) (w : MWorld) : option VMI :=
  List.find (fun v => String.eqb (om_Namespace (vmi_meta v)) ns
                      && String.eqb (om_Name (vmi_meta v)) name) (mw_vmis w).

Lemma find_replace {A} (same P : A -> bool) x' l x :
  List.find P l = Some x -> same x = true -> P x' = true ->
  List.find P (map (fun r => if same r then x' else r) l) = Some x'.
Proof.
  intros Hf Hs Hx. induction l as [|a l IH]; simpl in *; [done|].
  destruct (same a) eqn:Ea; simpl; [by rewrite Hx|].
  destruct (P a); [congruence|]. auto.
Qed.

Lemma filter_find {A} (P : A -> bool) l :
  match List.filter P l with
  | [] => List.find P l = None
  | x :: _ => List.find P l = Some x
  end.
Proof. induction l as [|a l IH]; simpl; [done|]. by destruct (P a). Qed.

Lemma defaultRQ_list ns w rq :
  defaultRQ ns w = Some rq ->
  exists rqs, rqCache_List E ns isDefaultRQ w = (Ok (rq :: rqs), w).
Proof using Q.
  intros H. unfold rqCache_List. rewrite (q_rqList Q).
  match goal with |- context [List.filter ?P ?l] => pose proof (filter_find P l) as Hf end.
  destruct (List.filter _ _) as [|x l].
  - unfold defaultRQ in H. congruence.
  - unfold defaultRQ in H. exists l. congruence.
Qed.

Lemma defaultRQ_spec ns w rq :
  defaultRQ ns w = Some rq ->
  rq ∈ mw_rqs w /\ om_Namespace (rq_meta rq) = ns /\ isDefaultRQ rq = true.
Proof.
  intros [Hin [H1%String.eqb_eq H2]%andb_true_iff]%find_some. by rewrite list_elem_of_In.
Qed.

Lemma defaultRQ_managed ns w rq :
  defaultRQ ns w = Some rq -> isNamespaceManagedByResourceQuota E ns w = (Ok true, w).
Proof using Q.
  intros (Hin & Hns & _)%defaultRQ_spec. unfold isNamespaceManagedByResourceQuota.
  unfold mbind, M_bind, rqCache_List. rewrite (q_rqList Q). unfold mret, M_ret.
  do 2 f_equal. apply existsb_exists. exists rq. split; [|done].
  apply filter_In. split; [by apply list_elem_of_In|]. by rewrite Hns, String.eqb_refl.
Qed.

Lemma defaultRQ_replace ns w w' rq rq' s :
  defaultRQ ns w = Some rq -> rqChange s rq rq' ->
  mw_rqs w' = replaceRQ rq' (mw_rqs w) -> defaultRQ ns w' = Some rq'.
Proof.
  intros Hd Hc He. destruct (defaultRQ_spec _ _ _ Hd) as (_ & Hns & Hdef).
  destruct (rqChange_sameObj _ _ _ Hc) as (Hs & Hn & Hl).
  unfold defaultRQ. rewrite He. unfold replaceRQ.
  apply (find_replace (fun r => sameObj (rq_meta r) (rq_meta rq')) _ rq' _ rq Hd Hs).
  unfold isDefaultRQ in *. by rewrite Hn, Hns, String.eqb_refl, Hl, Hdef.
Qed.

Lemma syncVM_run vmi w :
  exists w', syncVM E vmi w = (Ok tt, w') /\ mw_rqs w' = mw_rqs w /\ mw_vmis w' = mw_vmis w.
Proof using Q.
  unfold syncVM, vmCache_Get, vms_Update. m_unfold. rewrite (q_vmGet Q).
  destruct (List.find _ (mw_vms w)); simpl; [|by exists w].
  rewrite (q_vmUpdate Q). by eexists.
Qed.

Lemma theVMI_get ns name w vmi :
  theVMI ns name w = Some vmi -> vmiCache_Get E ns name w = (Ok vmi, w).
Proof using Q.
  intros H. unfold vmiCache_Get. rewrite (q_vmiGet Q). unfold theVMI in H. by rewrite H.
Qed.

Lemma theVMI_replace ns name w vmi a :
  theVMI ns name w = Some vmi ->
  List.find (fun v => String.eqb (om_Namespace (vmi_meta v)) ns
                      && String.eqb (om_Name (vmi_meta v)) name)
    (replaceVMI (vmi_set_Annotations a vmi) (mw_vmis w)) = Some (vmi_set_Annotations a vmi).
Proof.
  intros H. pose proof H as Hsp.
  apply find_some in Hsp as [_ [H1%String.eqb_eq H2%String.eqb_eq]%andb_true_iff].
  unfold replaceVMI. eapply (find_replace _ _ _ _ vmi H); simpl.
  - unfold sameObj. simpl. by rewrite !String.eqb_refl.
  - by rewrite H1, H2, !String.eqb_refl.
Qed.

Lemma resetState_run ns name vmi w :
  theVMI ns name w = Some vmi ->
  exists w' vmi', resetHarvesterMigrationStateInVmiAndSyncVM E vmi w = (Ok tt, w') /\
    mw_rqs w' = mw_rqs w /\ theVMI ns name w' = Some vmi' /\
    forall k, gm_get (vmi_Annotations vmi') k =
      if str_in k [AnnotationMigrationUID; AnnotationMigrationState; AnnotationMigrationTarget]
      then None else gm_get (vmi_Annotations vmi) k.
Proof using Q.
  intros Hv. unfold resetHarvesterMigrationStateInVmiAndSyncVM, resetHarvesterMigrationStateInVMI.
  set (a := gm_delete (gm_delete (gm_delete _ _) _) _).
  assert (Ha : forall k, gm_get a k =
    if str_in k [AnnotationMigrationUID; AnnotationMigrationState; AnnotationMigrationTarget]
    then None else gm_get (vmi_Annotations vmi) k).
  { intros k. unfold a, str_in. rewrite !gm_get_delete.
    case_bool_decide as H; repeat case_decide; subst; try done; set_solver. }
  destruct (Nat.eqb_spec (gm_len (vmi_Annotations vmi)) (gm_len a)) as [El|El].
  - destruct (syncVM_run vmi w) as (w' & Hs & H1 & H2). m_unfold. rewrite Hs.
    exists w', vmi. split_and!; [done..|unfold theVMI; by rewrite H2|].
    intros k. rewrite <- Ha. unfold a in *. rewrite !gm_len_delete in El.
    assert (Hd : forall m k', (gm_len m = gm_len m - (if gm_has (V := string) m k' then 1 else 0))%nat ->
      gm_has m k' = false).
    { intros m k' Hm. destruct (gm_has m k') eqn:Eh; [|done]. apply gm_len_has in Eh. lia. }
    assert (Hid : forall m k', gm_has (V := string) m k' = false -> gm_delete m k' = m).
    { intros m k' Hm. apply gm_delete_id. unfold gm_has in Hm. case_bool_decide as Hc; [done|].
      by destruct (gm_get m k'); [destruct Hc|]. }
    rewrite (Hid (vmi_Annotations vmi)) in * by (apply Hd; lia).
    rewrite (Hid (vmi_Annotations vmi)) in * by (apply Hd; lia).
    rewrite (Hid (vmi_Annotations vmi)) in * by (apply Hd; lia). done.
  - unfold VirtClientUpdateVmi. m_unfold. rewrite (q_vmiUpdate Q).
    match goal with |- context [syncVM E vmi ?w1] =>
      destruct (syncVM_run vmi w1) as (w' & Hs & H1 & H2) end.
    rewrite Hs. exists w', (vmi_set_Annotations a vmi). split_and!; [done|done| |exact Ha].
    unfold theVMI. rewrite H2. simpl. by apply theVMI_replace.
Qed.

Lemma restore_run vmim vmi w rq :
  vmim_Phase vmim ∈ [MigrationFailed; MigrationSucceeded] ->
  defaultRQ (om_Namespace (vmi_meta vmi)) w = Some rq ->
  let d := DeleteMigratingVM rq (om_Name (vmi_meta vmi)) (om_UID (vmi_meta vmi)) in
  restoreResourceQuota E vmim vmi w =
  (Ok tt, if d.2 then set_rqs (replaceRQ (SetAnnotationMigratingScalingResyncNeeded
                                    (DeleteMigratingCompensation d.1).1) (mw_rqs w)) w
          else w).
Proof using Q.
  intros Hp Hd. cbv zeta. unfold restoreResourceQuota.
  assert (negb (String.eqb (vmim_Phase vmim) MigrationFailed)
     && negb (String.eqb (vmim_Phase vmim) MigrationSucceeded) = false) as ->.
  { apply andb_false_iff. rewrite !negb_false_iff, !String.eqb_eq. set_solver. }
  unfold mbind, M_bind, mapErr. rewrite (defaultRQ_managed _ _ _ Hd). simpl.
  unfold restoreResourceQuotaWithVMI, mbind, M_bind.
  destruct (defaultRQ_list _ _ _ Hd) as [rqs ->].
  destruct (DeleteMigratingVM rq _ _) as [rq' del]. simpl. destruct del; [|done].
  unfold rqs_Update, apiWrite. rewrite (q_rqUpdate Q). done.
Qed.
End Runs.

Lemma Contains_Delete rq name uid :
  ContainsMigratingVM (Some (DeleteMigratingVM rq name uid).1) name uid = false.
Proof.
  unfold ContainsMigratingVM, DeleteMigratingVM.
  destruct (rq_Annotations rq) as [g|] eqn:Eg; simpl; [|by rewrite Eg].
  unfold gm_has. simpl. rewrite lookup_delete_ne, !lookup_delete_eq by apply UID_Name_ne.
  by repeat case_bool_decide.
Qed.

(** Nothing removed, nothing changed. *)
Lemma DeleteMigratingVM_false rq name uid :
  (DeleteMigratingVM rq name uid).2 = false -> (DeleteMigratingVM rq name uid).1 = rq.
Proof.
  unfold DeleteMigratingVM. destruct rq as [[] h u]. simpl.
  destruct om_Annotations as [g|]; simpl; [|done]. rewrite negb_false_iff, Nat.eqb_eq.
  rewrite !map_size_delete. set (kn := GenerateAnnotationKeyMigratingVMName name).
  set (ku := GenerateAnnotationKeyMigratingVMUID uid). intros Hs.
  destruct (g !! kn) as [v|] eqn:E1.
  { assert (size g <> 0%nat) by (apply map_size_ne_0_lookup; eauto).
    destruct (delete kn g !! ku); simpl in Hs; lia. }
  rewrite (delete_id g kn E1) in *. destruct (g !! ku) as [v|] eqn:E2.
  { assert (size g <> 0%nat) by (apply map_size_ne_0_lookup; eauto). simpl in Hs. lia. }
  by rewrite (delete_id g ku E2).
Qed.

Lemma DeleteComp_none rq :
  gm_str (rq_Annotations (DeleteMigratingCompensation rq).1) AnnotationMigratingCompensation = "".
Proof.
  unfold DeleteMigratingCompensation. destruct (rq_Annotations rq) eqn:Ea; simpl; [|by rewrite Ea].
  unfold gm_str. simpl. by rewrite lookup_delete_eq.
Qed.

(** The two keys of a VM under writes to other keys. *)
Lemma Contains_other rq rq' name uid :
  (forall k, is_Some (migKey k) -> gm_get (rq_Annotations rq') k = gm_get (rq_Annotations rq) k) ->
  ContainsMigratingVM (Some rq') name uid = ContainsMigratingVM (Some rq) name uid.
Proof.
  intros H. assert (Hc : forall r, ContainsMigratingVM (Some r) name uid =
    gm_has (rq_Annotations r) (GenerateAnnotationKeyMigratingVMName name)
    || gm_has (rq_Annotations r) (GenerateAnnotationKeyMigratingVMUID uid)).
  { intros r. unfold ContainsMigratingVM, gm_has. destruct (rq_Annotations r); [|done].
    by destruct (bool_decide _). }
  rewrite !Hc. unfold gm_has. rewrite !H; [done|by rewrite migKey_UID|by rewrite migKey_Name].
Qed.

Lemma Contains_resync rq name uid :
  ContainsMigratingVM (Some (SetAnnotationMigratingScalingResyncNeeded rq)) name uid =
  ContainsMigratingVM (Some rq) name uid.
Proof.
  apply Contains_other. intros k Hk. simpl. apply gm_get_set_ne. intros <-. by destruct Hk.
Qed.

Lemma Contains_DeleteComp rq name uid :
  ContainsMigratingVM (Some (DeleteMigratingCompensation rq).1) name uid =
  ContainsMigratingVM (Some rq) name uid.
Proof.
  apply Contains_other. intros k Hk. unfold DeleteMigratingCompensation.
  destruct (rq_Annotations rq) eqn:Ea; simpl; [|by rewrite Ea].
  apply lookup_delete_ne. intros <-. by destruct Hk.
Qed.

(** When a migration has failed or succeeded and no API call fails, handling it
    returns and leaves a namespace quota that no longer records the VM, with the
    limits as they were and, when the VM had been recorded, no compensation and a
    resync requested; and the VMI is found with its three migration annotations
    gone and every other annotation kept. *)
Theorem finished_migration_released {L : RqLib} E w vmim vmi rq :
  quiet E -> vmim_Phase vmim ∈ [MigrationFailed; MigrationSucceeded] ->
  theVMI (om_Namespace (vmim_meta vmim)) (vmim_VMIName vmim) w = Some vmi ->
  defaultRQ (om_Namespace (vmi_meta vmi)) w = Some rq ->
  exists w' rq' vmi', OnVmimChanged E (Some vmim) w = (Ok (Some vmim), w') /\
    defaultRQ (om_Namespace (vmi_meta vmi)) w' = Some rq' /\
    ContainsMigratingVM (Some rq') (om_Name (vmi_meta vmi)) (om_UID (vmi_meta vmi)) = false /\
    rq_Hard rq' = rq_Hard rq /\
    (rq' = rq \/ HasMigratingCompensation (Some rq') = false /\
                 IsMigratingScalingResyncNeeded (Some rq') = true) /\
    theVMI (om_Namespace (vmim_meta vmim)) (vmim_VMIName vmim) w' = Some vmi' /\
    forall k, gm_get (vmi_Annotations vmi') k =
      if str_in k [AnnotationMigrationUID; AnnotationMigrationState; AnnotationMigrationTarget]
      then None else gm_get (vmi_Annotations vmi) k.
Proof.
  intros Q Hp Hv Hd. unfold OnVmimChanged, mbind at 1, M_bind at 1, try.
  rewrite (theVMI_get E Q _ _ _ _ Hv).
  assert (Hs : String.eqb (vmim_Phase vmim) MigrationPhaseUnset = false /\
    String.eqb (vmim_Phase vmim) MigrationPending = false /\
    str_in (vmim_Phase vmim) [MigrationScheduling; MigrationScheduled; MigrationPreparingTarget;
      MigrationTargetReady; MigrationRunning] = false /\
    str_in (vmim_Phase vmim) [MigrationFailed; MigrationSucceeded] = true).
  { apply elem_of_cons in Hp as [->|Hp]; [by vm_compute|].
    apply list_elem_of_singleton in Hp as ->. by vm_compute. }
  destruct Hs as (-> & -> & -> & ->). unfold handleFinishedMigration, fmap, M_fmap, mbind, M_bind.
  rewrite (restore_run E Q _ _ _ _ Hp Hd).
  set (d := DeleteMigratingVM rq _ _). set (w1 := if d.2 then _ else _).
  set (rq1 := if d.2 then SetAnnotationMigratingScalingResyncNeeded
                            (DeleteMigratingCompensation d.1).1 else rq).
  assert (Hv1 : theVMI (om_Namespace (vmim_meta vmim)) (vmim_VMIName vmim) w1 = Some vmi)
    by (unfold w1; by destruct d.2).
  destruct (resetState_run E Q _ _ _ _ Hv1) as (w2 & vmi' & -> & Hr & Hv2 & Ha).
  exists w2, rq1, vmi'. split_and!; [done| | | | |done|done].
  - unfold defaultRQ. rewrite Hr. unfold w1, rq1. destruct d.2 eqn:Ed; [|done].
    eapply (defaultRQ_replace _ w _ rq _ ""); [done| |done].
    eapply rc_release. unfold d in *. rewrite <- Ed. apply surjective_pairing.
  - unfold rq1. destruct d.2 eqn:Ed.
    + rewrite Contains_resync, Contains_DeleteComp. apply Contains_Delete.
    + apply DeleteMigratingVM_false in Ed. rewrite <- Ed. apply Contains_Delete.
  - unfold rq1, d, DeleteMigratingVM, DeleteMigratingCompensation.
    destruct (rq_Annotations rq) eqn:Ea; simpl; [|done]. by destruct (negb _).
  - unfold rq1. destruct d.2; [right|by left]. split.
    + unfold HasMigratingCompensation.
      rewrite gm_str_annots, set_resync_annots, lookup_insert_ne, <- gm_str_annots by done.
      by rewrite DeleteComp_none.
    + unfold IsMigratingScalingResyncNeeded.
      by rewrite gm_str_annots, set_resync_annots, lookup_insert_eq.
Qed.

(** Limits that are what they should be are left alone. *)
Lemma calculateNew_fixed rq cb mb cd md comp :
  (cb <> 0 -> rl_Name (rq_Hard rq) ResourceLimitsCPU = cb + cd) ->
  (mb <> 0 -> rl_Name (rq_Hard rq) ResourceLimitsMemory = mb + md + comp) ->
  CalculateNewResourceQuotaFromBaseDelta rq cb mb cd md comp = Ok (rq, false).
Proof.
  intros Hc Hm. unfold CalculateNewResourceQuotaFromBaseDelta, setHardIfChanged.
  destruct (Q_IsZero cb) eqn:E1; simpl; [|apply Q_IsZero_false in E1;
    rewrite (proj2 (Q_Equal_true _ _) (Hc E1)); simpl];
  (destruct (Q_IsZero mb) eqn:E2; simpl; [done|]; apply Q_IsZero_false in E2;
    by rewrite (proj2 (Q_Equal_true _ _) (Hm E2))).
Qed.

Lemma clear_resync_comp {L : RqLib} rq :
  GetCompensationFromResourceQuota (Some (ClearAnnotationMigratingScalingResyncNeeded rq)) =
  GetCompensationFromResourceQuota (Some rq).
Proof.
  apply compensation_get. rewrite !gm_str_annots.
  destruct (clear_resync_annots rq) as [->| ->]; [done|]. by rewrite lookup_insert_ne.
Qed.

Lemma clear_resync_migWF {L : RqLib} rq :
  migWF (annots rq) -> migWF (annots (ClearAnnotationMigratingScalingResyncNeeded rq)).
Proof.
  intros H. destruct (clear_resync_annots rq) as [->| ->]; [done|].
  apply migWF_insert; [done|by intros [? [=]]|by intros [? [=]]].
Qed.

Lemma clear_resync_sum {L : RqLib} rq r :
  migSum r (annots (ClearAnnotationMigratingScalingResyncNeeded rq)) = migSum r (annots rq).
Proof.
  destruct (clear_resync_annots rq) as [->| ->]; [done|]. by apply migSum_insert_other.
Qed.

(** The handler on a quota without limits and without pending resync. *)
Lemma OnResourceQuotaChanged_empty {L : RqLib} E a rq w :
  me_nsGet E (om_Namespace (rq_meta rq)) = Ok a ->
  gm_str a CattleAnnotationResourceQuota <> "" ->
  is_Some (lib_nrqUnmarshal (gm_str a CattleAnnotationResourceQuota)) ->
  isEmpty (Some rq) = true -> IsMigratingScalingResyncNeeded (Some rq) = false ->
  OnResourceQuotaChanged E (Some rq) w = (Ok (Some rq), w).
Proof.
  intros Hns Hne [nrq Hu] He Hf. unfold OnResourceQuotaChanged.
  destruct (_ || _); [done|]. destruct (IsResourceQuotaAutoScalingDisabled _); [done|].
  unfold mbind at 1, M_bind at 1, mapErr, lift at 1. rewrite Hns.
  apply String.eqb_neq in Hne. unfold scaleResourceQuotaOnDemand, IsEmptyResourceQuota.
  rewrite Hne, Hu, He. m_unfold. by rewrite Hf.
Qed.

Lemma clear_resync_meta rq :
  om_Namespace (rq_meta (ClearAnnotationMigratingScalingResyncNeeded rq))
    = om_Namespace (rq_meta rq) /\
  om_Labels (rq_meta (ClearAnnotationMigratingScalingResyncNeeded rq))
    = om_Labels (rq_meta rq) /\
  om_DeletionTimestamp (rq_meta (ClearAnnotationMigratingScalingResyncNeeded rq))
    = om_DeletionTimestamp (rq_meta rq) /\
  IsResourceQuotaAutoScalingDisabled (Some (ClearAnnotationMigratingScalingResyncNeeded rq))
    = IsResourceQuotaAutoScalingDisabled (Some rq).
Proof.
  unfold IsResourceQuotaAutoScalingDisabled. rewrite !gm_str_annots.
  destruct (clear_resync_annots rq) as [->| ->]; rewrite ?lookup_insert_ne by done;
    unfold ClearAnnotationMigratingScalingResyncNeeded;
    (destruct (gm_get _ _); [destruct (negb _)|]); done.
Qed.

(** What the handler does with a readable quota: it computes limits [r], and writes
    them with the flag cleared if it must. *)
Lemma OnResourceQuotaChanged_run {L : RqLib} E rq a nrq cb mb comp w :
  quiet E -> isDefaultRQ rq = true -> om_DeletionTimestamp (rq_meta rq) = None ->
  IsResourceQuotaAutoScalingDisabled (Some rq) = false -> isEmpty (Some rq) = false ->
  migWF (annots rq) -> GetCompensationFromResourceQuota (Some rq) = Ok comp ->
  me_nsGet E (om_Namespace (rq_meta rq)) = Ok a ->
  gm_str a CattleAnnotationResourceQuota <> "" ->
  lib_nrqUnmarshal (gm_str a CattleAnnotationResourceQuota) = Some nrq ->
  GetCPUMemoryLimitsFromRancherNamespaceResourceQuota nrq = Ok (cb, mb) ->
  OnResourceQuotaChanged E (Some rq) w =
  match CalculateNewResourceQuotaFromBaseDelta rq cb mb
          (migSum ResourceLimitsCPU (annots rq)) (migSum ResourceLimitsMemory (annots rq)) comp with
  | Ok (r, update) =>
      if update || IsMigratingScalingResyncNeeded (Some r)
      then let r' := ClearAnnotationMigratingScalingResyncNeeded r in
           (Ok (Some r'), set_rqs (replaceRQ r' (mw_rqs w)) w)
      else (Ok (Some rq), w)
  | Err e => (Err e, w)
  | Panic => (Panic, w)
  end.
Proof.
  intros Q Hdef Hdel Hdis He Hwf Hcomp Hns Hne Hu Hl. unfold OnResourceQuotaChanged.
  assert (Hlab : om_Labels (rq_meta rq) <> None)
    by (intros Hn; unfold isDefaultRQ in Hdef; by rewrite Hn in Hdef).
  rewrite Hdel, Hdef, Hdis. rewrite !bool_decide_eq_false_2 by (done || by intros [? [=]]).
  simpl. unfold mbind at 1, M_bind at 1, mapErr, lift at 1. rewrite Hns.
  apply String.eqb_neq in Hne. unfold scaleResourceQuotaOnDemand, IsEmptyResourceQuota.
  rewrite Hne, Hu, He, Hl, (getVMIM_annots rq Hwf), Hcomp.
  destruct (CalculateNewResourceQuotaFromBaseDelta _ _ _ _ _ _) as [[r b]|e|]; [|done|done].
  unfold mbind, M_bind, lift, outcome_bind, fmap, M_fmap, rqs_Update, apiWrite, mret, M_ret.
  destruct b; simpl; [by rewrite (q_rqUpdate E Q)|].
  destruct (String.eqb (gm_str (rq_Annotations r) _) _); [|done]. by rewrite (q_rqUpdate E Q).
Qed.


(** What the console shows for a migration, by phase and abort request; [None] when
    the state is removed or the phase is unknown. *)
Definition displayState (vmim : VMIM) : option string :=
  if str_in (vmim_Phase vmim) [MigrationPhaseUnset; MigrationPending]
  then Some (if isAbortRequest vmim then StateAbortingMigration else StatePending)
  else if str_in (vmim_Phase vmim) [MigrationScheduling; MigrationScheduled;
            MigrationPreparingTarget; MigrationTargetReady; MigrationRunning]
  then Some (if isAbortRequest vmim then StateAbortingMigration else StateMigrating)
  else None.

Definition sameVMIs (w w' : MWorld) : Prop := mw_vmis w' = mw_vmis w.

#[global] Instance sameVMIs_pre : PreOrder sameVMIs.
Proof. split; [done|]. intros w1 w2 w3. unfold sameVMIs. congruence. Qed.

Section Display.
Context {L : RqLib} (E : MEnv).

Lemma rqs_Update_vmis rq w : effect sameVMIs (rqs_Update E rq) w.
Proof. by apply effect_apiWrite; [apply _|]. Qed.

Lemma scaleResourceQuota_vmis vmi w : effect sameVMIs (scaleResourceQuota E vmi) w.
Proof.
  unfold scaleResourceQuota, scaleResourceQuotaWithVMI. repeat effect_step;
    auto using rqs_Update_vmis; (apply effect_read; [apply _|]);
    auto using isNamespaceManaged_read, rqCache_List_read.
Qed.

Lemma compensate_vmis vmim vmi w : effect sameVMIs (compensatePendingMigration E vmim vmi) w.
Proof.
  unfold compensatePendingMigration, compensateResourceQuotaBase. repeat effect_step;
    auto using rqs_Update_vmis; try by apply effect_modify.
  apply effect_read; [apply _|apply rqCache_List_read].
Qed.

Hypothesis Q : quiet E.

Lemma setVmi_run ns name vmi uid st w :
  theVMI ns name w = Some vmi -> uid <> "" ->
  exists w' vmi', setVmiMigrationUIDAnnotation E vmi uid st w = (Ok tt, w') /\
    mw_rqs w' = mw_rqs w /\ theVMI ns name w' = Some vmi' /\
    gm_str (vmi_Annotations vmi') AnnotationMigrationUID = uid /\
    gm_str (vmi_Annotations vmi') AnnotationMigrationState = st.
Proof using Q.
  intros Hv Hu. unfold setVmiMigrationUIDAnnotation.
  destruct (String.eqb _ uid && _) eqn:Eb.
  - boolify. exists w, vmi. by split_and!.
  - apply String.eqb_neq in Hu. rewrite Hu. simpl.
    set (a := gm_set _ AnnotationMigrationState st).
    unfold VirtClientUpdateVmi, mbind, M_bind, apiWrite. rewrite (q_vmiUpdate E Q).
    match goal with |- context [syncVM E vmi ?w1] =>
      destruct (syncVM_run E Q vmi w1) as (w' & Hs & H1 & H2) end.
    rewrite Hs. exists w', (vmi_set_Annotations a vmi). split_and!; [done|done| | |].
    + unfold theVMI. rewrite H2. simpl. by apply theVMI_replace.
    + unfold gm_str, vmi_Annotations, a. simpl. by rewrite gm_get_set_ne, gm_get_set_eq.
    + unfold gm_str, vmi_Annotations, a. simpl. by rewrite gm_get_set_eq.
Qed.
End Display.

(** While a migration is pending or in flight, or being aborted, handling it
    leaves the VMI annotated with the migration's UID and the state the console
    shows for its phase, whatever happens to the quota afterwards. *)
Theorem migration_state_annotation {L : RqLib} E w vmim vmi st :
  quiet E -> displayState vmim = Some st -> om_UID (vmim_meta vmim) <> "" ->
  theVMI (om_Namespace (vmim_meta vmim)) (vmim_VMIName vmim) w = Some vmi ->
  exists vmi',
    theVMI (om_Namespace (vmim_meta vmim)) (vmim_VMIName vmim)
      (OnVmimChanged E (Some vmim) w).2 = Some vmi' /\
    gm_str (vmi_Annotations vmi') AnnotationMigrationUID = om_UID (vmim_meta vmim) /\
    gm_str (vmi_Annotations vmi') AnnotationMigrationState = st.
Proof.
  intros Q Hst Hu Hv. unfold OnVmimChanged, mbind at 1, M_bind at 1, try.
  rewrite (theVMI_get E Q _ _ _ _ Hv).
  destruct (setVmi_run E Q _ _ _ _ st w Hv Hu) as (w1 & vmi' & Hrun & _ & Hv1 & H1 & H2).
  assert (Hset : forall A (f : unit -> M MWorld A),
     effect sameVMIs (f tt) w1 ->
     theVMI (om_Namespace (vmim_meta vmim)) (vmim_VMIName vmim)
       ((setVmiMigrationUIDAnnotation E vmi (om_UID (vmim_meta vmim)) st ≫= f) w).2 = Some vmi').
  { intros A f Hf. unfold mbind, M_bind. rewrite Hrun. unfold theVMI. by rewrite Hf. }
  exists vmi'. split; [|done]. revert Hst. unfold displayState, str_in.
  destruct (String.eqb_spec (vmim_Phase vmim) MigrationPhaseUnset) as [->|N1].
  { rewrite bool_decide_true by set_solver.
    destruct (isAbortRequest vmim); intros [= <-]; apply Hset; apply effect_ret; apply _. }
  destruct (String.eqb_spec (vmim_Phase vmim) MigrationPending) as [->|N2].
  { rewrite bool_decide_true by set_solver.
    destruct (isAbortRequest vmim); intros [= <-]; [apply Hset; apply effect_ret; apply _|].
    unfold handlePendingMigration, fmap, M_fmap.
    match goal with |- context [match ?m w with _ => _ end] =>
      assert (Hm : theVMI (om_Namespace (vmim_meta vmim)) (vmim_VMIName vmim) (m w).2 = Some vmi')
    end.
    { apply Hset. repeat effect_step; auto using scaleResourceQuota_vmis, compensate_vmis. }
    match goal with |- context [match ?m w with _ => _ end] =>
      by destruct (m w) as [[] ?] end. }
  rewrite bool_decide_false by set_solver. destruct (bool_decide _); [|done].
  destruct (isAbortRequest vmim); intros [= <-]; apply Hset; apply effect_ret; apply _.
Qed.

(** Registration of a VM that the quota does not record yet. *)
Lemma scale_run {L : RqLib} E (Q : quiet E) vmi w rq a :
  Q_IsZero (rl_Memory (vmi_Limits vmi)) && Q_IsZero (rl_Cpu (vmi_Limits vmi)) = false ->
  defaultRQ (om_Namespace (vmi_meta vmi)) w = Some rq ->
  IsResourceQuotaAutoScalingDisabled (Some rq) = false ->
  me_nsGet E (om_Namespace (vmi_meta vmi)) = Ok a ->
  IsResourceQuotaManagedByNamespaceAnnotation (Some rq)
    (gm_str a CattleAnnotationResourceQuota) = Ok true ->
  exists w' rq', scaleResourceQuota E vmi w = (Ok tt, w') /\
    defaultRQ (om_Namespace (vmi_meta vmi)) w' = Some rq' /\
    ContainsMigratingVM (Some rq') (om_Name (vmi_meta vmi)) (om_UID (vmi_meta vmi)) = true.
Proof.
  intros Hl Hd Hdis Hns Hm. unfold scaleResourceQuota, mbind, M_bind, mapErr.
  rewrite (defaultRQ_managed E Q _ _ _ Hd). cbn [negb].
  unfold scaleResourceQuotaWithVMI. rewrite Hl.
  unfold mbind, M_bind, mapErr, lift. destruct (defaultRQ_list E Q _ _ _ Hd) as [rqs ->].
  rewrite Hdis, Hns, Hm. cbn [negb]. destruct (ContainsMigratingVM (Some rq) _ _) eqn:Ec.
  { exists w, rq. by split_and!. }
  assert (Hch : checkResourceQuotaAndVMI (Some rq) (vmi_Limits vmi) = true).
  { unfold checkResourceQuotaAndVMI. rewrite andb_comm in Hl. rewrite Hl.
    unfold IsResourceQuotaManagedByNamespaceAnnotation, IsEmptyResourceQuota in Hm.
    destruct (String.eqb _ ""); [done|]. by destruct (isEmpty (Some rq)). }
  assert (exists rl0, CalculateScaleResourceQuotaWithVMI rq vmi (me_ratio E) = (true, Some rq, rl0))
    as [rl0 ->] by (unfold CalculateScaleResourceQuotaWithVMI; rewrite Hch; by eexists).
  cbn [negb]. destruct (AddMigratingVM (Some rq) _ _ rl0) as [rq1| |] eqn:Ea;
    [|by rewrite AddMigratingVM_Ok in Ea..].
  unfold rqs_Update, apiWrite. rewrite (q_rqUpdate E Q).
  eexists _, (SetAnnotationMigratingScalingResyncNeeded rq1). split; [done|].
  rewrite Contains_resync. rewrite AddMigratingVM_Ok in Ea. injection Ea as <-. split.
  - unfold defaultRQ. simpl. unfold replaceRQ.
    destruct (defaultRQ_spec _ _ _ Hd) as (_ & Hn & Hdef).
    eapply (find_replace _ _ _ _ rq Hd); simpl.
    + unfold sameObj. simpl. by rewrite !String.eqb_refl.
    + unfold isDefaultRQ in *. simpl. by rewrite Hn, String.eqb_refl, Hdef.
  - unfold ContainsMigratingVM, gm_has. simpl. rewrite lookup_insert_eq.
    destruct (bool_decide _); [done|]. apply bool_decide_eq_true_2. by eexists.
Qed.

(** Compensation keeps the record. *)
Lemma compensate_keeps {L : RqLib} E (Q : quiet E) vmim vmi w rq :
  defaultRQ (om_Namespace (vmi_meta vmi)) w = Some rq ->
  exists rq', defaultRQ (om_Namespace (vmi_meta vmi)) (compensatePendingMigration E vmim vmi w).2
                = Some rq' /\
    ContainsMigratingVM (Some rq') (om_Name (vmi_meta vmi)) (om_UID (vmi_meta vmi)) =
    ContainsMigratingVM (Some rq) (om_Name (vmi_meta vmi)) (om_UID (vmi_meta vmi)).
Proof.
  intros Hd. unfold compensatePendingMigration.
  destruct (List.find _ _) as [c|]; [|by exists rq]. destruct (negb _); [by exists rq|].
  unfold compensateResourceQuotaBase. destruct (Q_IsZero _); [by exists rq|].
  unfold mbind, M_bind, mapErr, lift. destruct (defaultRQ_list E Q _ _ _ Hd) as [rqs ->].
  destruct (IsResourceQuotaAutoScalingDisabled _); [by exists rq|].
  destruct (me_nsGet E _) as [ns|e|]; [|by exists rq..].
  destruct (IsResourceQuotaManagedByNamespaceAnnotationWithMemoryLimits _ _) as [b|e|];
    [|by exists rq..].
  destruct (negb b); [by exists rq|].
  destruct (negb (ContainsMigratingVM _ _ _)); [by exists rq|].
  destruct (IsMigratingScalingResyncNeeded _) eqn:Ef; [by exists rq|].
  destruct (CalculateCompensationResourceQuotaWithVMI _ _ _) as [b' rl] eqn:Ec.
  destruct b'; cbn [negb AddMigratingCompensation]; [|by exists rq].
  unfold rqs_Update, apiWrite. rewrite (q_rqUpdate E Q). eexists. split.
  - eapply (defaultRQ_replace _ w _ rq _ ""); [exact Hd| |done].
    eapply rc_compensate; [done|by eapply CalculateCompensation_pos|done].
  - rewrite Contains_resync. apply Contains_other. intros k Hk. simpl.
    apply gm_get_set_ne. intros <-. by destruct Hk.
Qed.

(** A pending migration is charged.  When no API call fails, the migration is not
    being aborted, the VM has a CPU or memory limit, and its namespace's default
    quota is managed and scales, then after handling it the quota records the VM. *)
Theorem pending_migration_registered {L : RqLib} E w vmim vmi rq a :
  quiet E -> vmim_Phase vmim = MigrationPending -> isAbortRequest vmim = false ->
  om_UID (vmim_meta vmim) <> "" ->
  theVMI (om_Namespace (vmim_meta vmim)) (vmim_VMIName vmim) w = Some vmi ->
  Q_IsZero (rl_Memory (vmi_Limits vmi)) && Q_IsZero (rl_Cpu (vmi_Limits vmi)) = false ->
  defaultRQ (om_Namespace (vmi_meta vmi)) w = Some rq ->
  IsResourceQuotaAutoScalingDisabled (Some rq) = false ->
  me_nsGet E (om_Namespace (vmi_meta vmi)) = Ok a ->
  IsResourceQuotaManagedByNamespaceAnnotation (Some rq)
    (gm_str a CattleAnnotationResourceQuota) = Ok true ->
  exists rq', defaultRQ (om_Namespace (vmi_meta vmi)) (OnVmimChanged E (Some vmim) w).2 = Some rq' /\
    ContainsMigratingVM (Some rq') (om_Name (vmi_meta vmi)) (om_UID (vmi_meta vmi)) = true.
Proof.
  intros Q Hp Ha Hu Hv Hl Hd Hdis Hns Hm. unfold OnVmimChanged, mbind at 1, M_bind at 1, try.
  rewrite (theVMI_get E Q _ _ _ _ Hv), Hp, Ha.
  change (String.eqb MigrationPending MigrationPhaseUnset) with false.
  change (String.eqb MigrationPending MigrationPending) with true. cbv iota zeta.
  destruct (setVmi_run E Q _ _ _ _ StatePending w Hv Hu) as (w1 & vmi' & Hrun & Hrq & _).
  unfold handlePendingMigration, fmap, M_fmap. unfold mbind at 1, M_bind at 1. rewrite Hrun.
  assert (Hd1 : defaultRQ (om_Namespace (vmi_meta vmi)) w1 = Some rq)
    by (unfold defaultRQ; by rewrite Hrq).
  destruct (scale_run E Q vmi w1 rq a Hl Hd1 Hdis Hns Hm) as (w2 & rq2 & Hs & Hd2 & Hc2).
  unfold mbind at 1, M_bind at 1, mapErr at 1. rewrite Hs.
  destruct (compensate_keeps E Q vmim vmi w2 rq2 Hd2) as (rq3 & Hd3 & Hc3).
  exists rq3. rewrite Hc3. split; [|done]. rewrite <- Hd3. unfold mbind, M_bind, mapErr.
  by destruct (compensatePendingMigration E vmim vmi w2) as [[]].
Qed.

(** A second compensation replaces the first instead of adding to it.  For a
    synced quota with compensation [old], compensating a VM that does not fit and
    recomputing the limits ends at the memory needed plus 128Mi minus [old]; when
    [old] is more than 128Mi the target pod still does not fit. *)
Theorem recompensation_falls_short {L : RqLib} rqStr nrq cb mb rq vmi ratio rl rq1 rq2 b old :
  rqStr <> "" /\ lib_nrqUnmarshal rqStr = Some nrq /\
    GetCPUMemoryLimitsFromRancherNamespaceResourceQuota nrq = Ok (cb, mb) ->
  0 <= cb /\ 0 <= mb /\ (cb <> 0 \/ mb <> 0) -> mb <> 0 ->
  rqInv cb mb rq -> IsMigratingScalingResyncNeeded (Some rq) = false ->
  GetCompensationFromResourceQuota (Some rq) = Ok old ->
  CalculateCompensationResourceQuotaWithVMI (Some rq) (Some vmi) (Some ratio) = (true, rl) ->
  json_marshal rl <> "" -> AddMigratingCompensation (Some rq) rl = Ok rq1 ->
  scaleResourceQuotaOnDemand (SetAnnotationMigratingScalingResyncNeeded rq1) rqStr
    = Ok (Some (rq2, b)) ->
  let needed := rl_Name (rq_Used rq) ResourceLimitsMemory
                + (rl_Name (vmi_Limits vmi) ResourceMemory
                   + lib_GetMemoryOverhead vmi (Some ratio)) in
  rl_Name (rq_Hard rq2) ResourceLimitsMemory
    = needed + NewQuantity additionalCompensationMemory - old /\
  (NewQuantity additionalCompensationMemory < old ->
     rl_Name (rq_Hard rq2) ResourceLimitsMemory < needed).
Proof.
  intros Hstr Hbase Hmb HI Hf Hold Hcomp Hne Hadd Hs needed.
  assert (HI1 : rqInv cb mb (SetAnnotationMigratingScalingResyncNeeded rq1)).
  { eapply rqChange_inv; [exact Hstr|exact Hbase| |exact (ri_readable _ _ _ HI)].
    eapply rc_compensate; [done|by eapply CalculateCompensation_pos|done]. }
  rewrite (rqInv_scale rqStr nrq cb mb Hstr _ (ri_readable _ _ _ HI1)) in Hs.
  destruct HI as [[_ _ [Hh _]] [_ Hm]]; [done|]. specialize (Hm Hmb).
  unfold compOf in Hm. rewrite Hold in Hm.
  assert (Hadd' : rq1 = rq_set_Annotations
     (Some (<[AnnotationMigratingCompensation := json_marshal rl]> (annots rq))) rq).
  { unfold AddMigratingCompensation in Hadd. injection Hadd as <-.
    unfold annots. by destruct (rq_Annotations rq). }
  assert (Hc1 : compOf (SetAnnotationMigratingScalingResyncNeeded rq1)
                = rl_Name rl ResourceLimitsMemory).
  { unfold compOf, GetCompensationFromResourceQuota, getResourceListOfMigratingCompensation.
    rewrite gm_str_annots, set_resync_annots, lookup_insert_ne, Hadd', annots_set,
      lookup_insert_eq by done. simpl. apply String.eqb_neq in Hne.
    rewrite Hne, json_roundtrip. by destruct rl. }
  destruct (CalculateNewResourceQuota_spec (SetAnnotationMigratingScalingResyncNeeded rq1) cb mb
    (migSum ResourceLimitsCPU (annots (SetAnnotationMigratingScalingResyncNeeded rq1)))
    (migSum ResourceLimitsMemory (annots (SetAnnotationMigratingScalingResyncNeeded rq1)))
    (compOf (SetAnnotationMigratingScalingResyncNeeded rq1)))
    as (r & b' & Er & _ & Hmr & _); [by subst|].
  rewrite Er in Hs. simpl in Hs. injection Hs as <- <-.
  rewrite (proj2 (Q_IsZero_false mb) Hmb), Hc1, set_resync_annots, Hadd', annots_set,
    !migSum_insert_other in Hmr by done.
  destruct (CalculateCompensation_amount _ _ _ _ Hcomp) as [Hrl _].
  rewrite Hmr. unfold needed. lia.
Qed.

(** ** Witnesses *)

Module MigExamples.
Import RqExamples.

Definition env0 : MEnv :=
  mkMEnv (fun _ => Ok (Some {[ CattleAnnotationResourceQuota := "q" ]})) (fun _ _ => None)
    (fun _ _ => None) (fun _ => None) (fun _ => None) (fun _ => None) (fun _ => None)
    (fun _ => None) (fun _ => None) "now" (Some "1.5").

Definition rqD : ResourceQuota :=
  mkRQ (mkMeta "default" "" "ns" "" (Some {[ LabelManagementDefaultResourceQuota := "true" ]})
          None [] 0 None)
    (Some {[ ResourceLimitsCPU := NewQuantity 8; ResourceLimitsMemory := Gi 16 ]})
    (Some {[ ResourceLimitsCPU := NewQuantity 4; ResourceLimitsMemory := Gi 14 ]}).

Definition vmim0 (phase : string) : VMIM :=
  mkVMIM (mkMeta "mig" "" "ns" "mig-uid" None None [] 0 None) "vm" phase [].

(** A VM starts to migrate, the limits follow, the migration ends. *)
Definition w0 : MWorld := mkMWorld [rqD] [vmi0] [] [] [].
Definition w1 : MWorld := (OnVmimChanged env0 (Some (vmim0 MigrationPending)) w0).2.
Definition rq1 : ResourceQuota := default rqD (head (mw_rqs w1)).
Definition w2 : MWorld := (OnResourceQuotaChanged env0 (Some rq1) w1).2.
Definition rq2 : ResourceQuota := default rqD (head (mw_rqs w2)).
Definition vmi2 : VMI := default vmi0 (head (mw_vmis w2)).

Definition cb0 : Z := NewQuantity 8.
Definition mb0 : Z := Gi 16.

Definition nonempty (w : MWorld) : bool := match mw_rqs w with [] => false | _ => true end.

Lemma head_in w : nonempty w = true -> default rqD (head (mw_rqs w)) ∈ mw_rqs w.
Proof. unfold nonempty. destruct (mw_rqs w); [done|]. intros _. by left. Qed.

Lemma env0_quiet : quiet env0.
Proof. by constructor. Qed.

Lemma env0_ok : envOk (fun _ => "q") env0.
Proof. intros ns a [= <-]. by vm_compute. Qed.

Lemma vmi0_ok w : w = w0 -> forall v, v ∈ mw_vmis w -> vmiOk v.
Proof. intros -> v ->%list_elem_of_singleton. split; by vm_compute. Qed.

Lemma overhead0 : forall v r, 0 <= lib_GetMemoryOverhead v r.
Proof. by intros v r. Qed.

Lemma base0 : 0 <= cb0 /\ 0 <= mb0 /\ (cb0 <> 0 \/ mb0 <> 0).
Proof. split_and!; [by vm_compute|by vm_compute|by left]. Qed.

Lemma str0 : "q" <> "" /\ lib_nrqUnmarshal "q" = Some (Some (mkNRQ limit8)) /\
  GetCPUMemoryLimitsFromRancherNamespaceResourceQuota (Some (mkNRQ limit8)) = Ok (cb0, mb0).
Proof. by split_and!. Qed.

Definition lim0 : string -> string := fun _ => "q".
Definition calm (w : MWorld) : QState := mkQState w lim0 ∅.

Lemma asks0 : asks "q" cb0 mb0.
Proof. split; [exists (Some (mkNRQ limit8)); apply str0|apply base0]. Qed.

Lemma settle_step w rq D D' :
  rq ∈ mw_rqs w -> managed rq && isOk (OnResourceQuotaChanged env0 (Some rq) w).1 = true ->
  D ∖ {[ rqKey rq ]} = D' ->
  mstep "ns" (mkQState w lim0 D) (mkQState (OnResourceQuotaChanged env0 (Some rq) w).2 lim0 D').
Proof.
  intros Hin Hok <-. pose proof (ms_rq "ns" env0 rq w lim0 D env0_ok Hin) as Hs. by rewrite Hok in Hs.
Qed.

Lemma w2_reachable : reachable (minit "ns") (mstep "ns") (calm w2).
Proof.
  apply (reach_step _ _ (calm w1)).
  - apply (reach_step _ _ (calm w0)).
    + apply reach_init. split; [by apply NoDup_singleton|]. exists cb0, mb0. split; [exact asks0|].
      intros rq ->%list_elem_of_singleton _. by vm_compute.
    + apply ms_vmim; [apply env0_ok|]. by apply vmi0_ok.
  - apply settle_step; [apply head_in; by_eval|by_eval|set_solver].
Qed.

(** Rancher resets the limits while the VM migrates, and the next reconcile puts them back. *)
Definition hardD : gomap Z := rq_Hard rqD.
Definition w2' : MWorld :=
  set_rqs (replaceRQ (mkRQ (rq_meta rq2) hardD (rq_Used rq2)) (mw_rqs w2)) w2.
Definition rq2' : ResourceQuota := default rqD (head (mw_rqs w2')).
Definition w2'' : MWorld := (OnResourceQuotaChanged env0 (Some rq2') w2').2.
Definition rq2'' : ResourceQuota := default rqD (head (mw_rqs w2'')).

Lemma reset_reachable : reachable (minit "ns") (mstep "ns") (calm w2'').
Proof.
  apply (reach_step _ _ (mkQState w2' lim0 ({[ rqKey rq2 ]} ∪ ∅))).
  - apply (reach_step _ _ (calm w2)); [exact w2_reachable|].
    apply (ms_hard "ns" rq2 hardD w2 lim0 ∅); [apply head_in; by_eval|by_eval].
  - apply settle_step; [apply head_in; by_eval|by_eval|].
    assert (rqKey rq2' = rqKey rq2) as -> by by_eval. set_solver.
Qed.

(** A setting changes and the usage grows: the migration is compensated; then the
    usage grows again. *)
Definition grow (used : Z) (w : MWorld) : MWorld :=
  let rq := default rqD (head (mw_rqs w)) in
  set_rqs (replaceRQ (mkRQ (rq_meta rq) (rq_Hard rq)
    (Some {[ ResourceLimitsMemory := used ]})) (mw_rqs w)) w.
Definition vmimR : VMIM :=
  mkVMIM (mkMeta "mig" "" "ns" "mig-uid" None None [] 0 None) "vm" MigrationPending
    [mkCond VirtualMachineInstanceMigrationRejectedByResourceQuota ConditionTrue "" "" ""].
Definition w3 : MWorld := grow (Gi 17) w2.
Definition w4 : MWorld := (OnVmimChanged env0 (Some vmimR) w3).2.
Definition rq4 : ResourceQuota := default rqD (head (mw_rqs w4)).
Definition w5 : MWorld := (OnResourceQuotaChanged env0 (Some rq4) w4).2.
Definition w6 : MWorld := grow (Gi 20) w5.
Definition rq6 : ResourceQuota := default rqD (head (mw_rqs w6)).
Definition comp6 : gomap Z :=
  (CalculateCompensationResourceQuotaWithVMI (Some rq6) (Some vmi0) (Some "1.5")).2.
Definition rq7 : ResourceQuota :=
  match AddMigratingCompensation (Some rq6) comp6 with Ok r => r | _ => rqD end.
Definition rq8 : ResourceQuota * bool :=
  match scaleResourceQuotaOnDemand (SetAnnotationMigratingScalingResyncNeeded rq7) "q" with
  | Ok (Some r) => r | _ => (rqD, false) end.

Lemma grow_step u w : nonempty w = true -> mstep "ns" (calm w) (calm (grow u w)).
Proof. intros H. apply ms_used. by apply head_in. Qed.

Lemma w6_reachable : reachable (minit "ns") (mstep "ns") (calm w6).
Proof.
  apply (reach_step _ _ (calm w5)); [|apply grow_step; by_eval].
  apply (reach_step _ _ (calm w4)).
  2: { apply settle_step; [apply head_in; by_eval|by_eval|set_solver]. }
  apply (reach_step _ _ (calm w3)); [|apply ms_vmim; [apply env0_ok|]].
  - apply (reach_step _ _ (calm w2)); [exact w2_reachable|apply grow_step; by_eval].
  - intros v Hv. replace (mw_vmis w3) with [vmi2] in Hv by (by_eval).
    apply list_elem_of_singleton in Hv as ->. split; by vm_compute.
Qed.

Lemma calm_inv w rq :
  reachable (minit "ns") (mstep "ns") (calm w) -> rq ∈ mw_rqs w -> om_Namespace (rq_meta rq) = "ns" ->
  rqInv cb0 mb0 rq.
Proof.
  intros Hr Hin Hns. destruct (reachable_mInv "ns" overhead0 _ Hr) as (cb & mb & Hask & _ & HI).
  destruct (asks_fun _ _ _ _ _ asks0 Hask) as [-> ->]. by apply (HI rq Hin Hns), not_elem_of_empty.
Qed.

Lemma rq6_inv : rqInv cb0 mb0 rq6.
Proof. apply (calm_inv w6); [exact w6_reachable|apply head_in; by_eval|by_eval]. Qed.

Lemma rq2_inv : rqInv cb0 mb0 rq2.
Proof. apply (calm_inv w2); [exact w2_reachable|apply head_in; by_eval|by_eval]. Qed.

Lemma rq2_migWF : migWF (annots rq2).
Proof. apply keysOk_migWF. exact (ri_keys _ (ri_readable _ _ _ rq2_inv)). Qed.
End MigExamples.
Import RqExamples MigExamples.

Lemma quota_conservation_witness :
  map (fun rq => rl_Name (rq_Hard rq) ResourceLimitsCPU) [rq2; rq2'; rq2'']
    = [NewQuantity 10; NewQuantity 8; NewQuantity 10] /\
  rl_Name (rq_Hard rq2'') ResourceLimitsCPU = cb0 + migSum ResourceLimitsCPU (annots rq2'').
Proof.
  split; [by_eval|].
  destruct (quota_conservation "ns" overhead0 (calm w2'') rq2'' cb0 mb0
    reset_reachable ltac:(apply head_in; by_eval) ltac:(by_eval) asks0 ltac:(by_eval)
    ltac:(apply not_elem_of_empty)) as [H _].
  apply H. by vm_compute.
Defined.

Lemma handlers_refine_ledger_witness :
  rqWrites (fun _ => "q") w0 w1 /\ mw_rqs (OnVmiChanged env0 (Some vmi0) w0).2 = [rqD].
Proof.
  destruct (handlers_refine_ledger (fun _ => "q") env0 w0 (Some (vmim0 MigrationPending))
    (Some vmi0) rqD env0_ok overhead0 (vmi0_ok w0 eq_refl) ltac:(by left)) as (H1 & _ & H2).
  split; [exact H1|exact H2].
Defined.

Lemma finished_migration_released_witness :
  exists w' rq' vmi', OnVmimChanged env0 (Some (vmim0 MigrationSucceeded)) w2
                        = (Ok (Some (vmim0 MigrationSucceeded)), w') /\
    defaultRQ "ns" w' = Some rq' /\ theVMI "ns" "vm" w' = Some vmi' /\
    ContainsMigratingVM (Some rq2) "vm" "uid" = true /\
    ContainsMigratingVM (Some rq') "vm" "uid" = false.
Proof.
  destruct (finished_migration_released env0 w2 (vmim0 MigrationSucceeded) vmi2 rq2 env0_quiet
    ltac:(by_eval) ltac:(by_eval) ltac:(by_eval))
    as (w' & rq' & vmi' & H1 & H2 & H3 & _ & _ & H4 & _).
  exists w', rq', vmi'. split; [exact H1|]. split; [exact H2|]. split; [exact H4|].
  split; [by_eval|exact H3].
Defined.


Lemma migration_state_annotation_witness :
  exists vmi', theVMI "ns" "vm" w1 = Some vmi' /\
    gm_str (vmi_Annotations vmi') AnnotationMigrationState = StatePending.
Proof.
  destruct (migration_state_annotation env0 w0 (vmim0 MigrationPending) vmi0 StatePending
    env0_quiet eq_refl ltac:(done) eq_refl) as (vmi' & H1 & _ & H2).
  exists vmi'. split; [exact H1|exact H2].
Defined.

Lemma pending_migration_registered_witness :
  exists rq', defaultRQ "ns" w1 = Some rq' /\ ContainsMigratingVM (Some rq') "vm" "uid" = true.
Proof.
  exact (pending_migration_registered env0 w0 (vmim0 MigrationPending) vmi0 rqD
    (Some {[ CattleAnnotationResourceQuota := "q" ]}) env0_quiet eq_refl eq_refl ltac:(done)
    eq_refl eq_refl eq_refl eq_refl eq_refl ltac:(by_eval)).
Defined.

Lemma recompensation_falls_short_witness :
  rl_Name (rq_Hard rq8.1) ResourceLimitsMemory < Gi 20 + (Gi 4 + NewQuantity (200 * 2 ^ 20)).
Proof.
  apply (recompensation_falls_short "q" (Some (mkNRQ limit8)) cb0 mb0 rq6 vmi0 "1.5" comp6 rq7
    rq8.1 rq8.2 (Gi 1 + NewQuantity (128 * 2 ^ 20)) str0 base0 ltac:(by vm_compute) rq6_inv
    ltac:(by_eval) ltac:(by_eval) ltac:(by_eval) ltac:(by_eval)
    ltac:(by_eval) ltac:(by_eval)).
  by_eval.
Defined.
