(* ===== verification/Addon.v ===== *)
(** The addon controller, [pkg/controller/master/addon]: an addon is a helm chart
    that is installed, upgraded and removed as the addon is enabled, changed and
    disabled.  The state machine of [addon.go] and [addon_processing.go], the
    helpers of [common.go], the owner lookup of [helmchart.go], and the handling of
    Grafana's volume in [patch_grafana.go].

    The helm controller, which runs the jobs, is outside: what it does to charts and
    jobs is arbitrary. *)

From S2P Require Import Prelude K8s.

Local Open Scope Z_scope.

(** ** Data *)

Definition AddonEnabling : string := "AddonEnabling".
Definition AddonDeployed : string := "AddonDeploySuccessful".
Definition AddonDisabled : string := "AddonDisabled".
Definition AddonDisabling : string := "AddonDisabling".
Definition AddonUpdating : string := "AddonUpdating".
Definition AddonInitState : string := "".

Definition AddonOperationInProgress : string := "InProgress".
Definition AddonOperationCompleted : string := "Completed".
Definition AddonOperationFailed : string := "OperationFailed".
Definition DefaultJobBackOffLimit : Z := 5.

Definition AddonValuesAnnotation : string := "harvesterhci.io/addon-defaults".
Definition AnnotationGrafanaPVName : string := "harvesterhci.io/grafana-pv-name".
Definition RancherMonitoringName : string := "rancher-monitoring".
Definition CattleMonitoringSystemNamespaceName : string := "cattle-monitoring-system".
Definition GrafanaPVCName : string := "rancher-monitoring-grafana".
Definition managedChartKey : string := "catalog.cattle.io/managed".
Definition helmChartJobDeletePrefix : string := "helm-delete".
Definition additionalApps : list string :=
  ["cattle-system/rancher"; "cattle-system/rancher-webhook"].
Definition enqueueInterval : Z := 5.

Record AddonSpec := mkAddonSpec {
  as_Repo : string; as_Chart : string; as_Version : string;
  as_Enabled : bool; as_ValuesContent : string }.

Record Addon := mkAddon {
  ad_Kind : string;
  ad_APIVersion : string;
  ad_meta : ObjectMeta;
  ad_Spec : AddonSpec;
  ad_Status : string;
  ad_Conditions : list Condition }.

Definition ad_Name (a : Addon) : string := om_Name (ad_meta a).
Definition ad_Namespace (a : Addon) : string := om_Namespace (ad_meta a).
Definition ad_Annotations (a : Addon) : gomap string := om_Annotations (ad_meta a).
Definition set_Status (s : string) (a : Addon) : Addon :=
  mkAddon (ad_Kind a) (ad_APIVersion a) (ad_meta a) (ad_Spec a) s (ad_Conditions a).
Definition set_Conditions (cs : list Condition) (a : Addon) : Addon :=
  mkAddon (ad_Kind a) (ad_APIVersion a) (ad_meta a) (ad_Spec a) (ad_Status a) cs.
Definition ad_set_Annotations (an : gomap string) (a : Addon) : Addon :=
  mkAddon (ad_Kind a) (ad_APIVersion a) (set_Annotations an (ad_meta a)) (ad_Spec a)
    (ad_Status a) (ad_Conditions a).

Record HelmChart := mkHC {
  hc_meta : ObjectMeta;
  hc_Chart : string; hc_Repo : string; hc_ValuesContent : string; hc_Version : string;
  hc_BackOffLimit : option Z;
  hc_JobName : string }.                         (* Status.JobName *)

Definition hc_Name (hc : HelmChart) : string := om_Name (hc_meta hc).
Definition hc_Namespace (hc : HelmChart) : string := om_Namespace (hc_meta hc).

(** An app of the catalog; [Spec.Chart] and its [Metadata] are pointers. *)
Record App := mkApp { app_meta : ObjectMeta; app_Chart : option (option (gomap string)) }.

Record PVC := mkPVC { pvc_meta : ObjectMeta; pvc_VolumeName : string }.
Record PV := mkPV {
  pv_Name : string; pv_ReclaimPolicy : string; pv_Phase : string;
  pv_ClaimRefUID : option string }.              (* ClaimRef, its UID *)

Definition PersistentVolumeReclaimRetain : string := "Retain".
Definition VolumeAvailable : string := "Available".
Definition VolumeReleased : string := "Released".

Record AWorld := mkAWorld {
  aw_addons : list Addon;
  aw_charts : list HelmChart;
  aw_jobs : list Job;
  aw_apps : list App;
  aw_pvcs : list PVC;
  aw_pvs : list PV;
  aw_queue : list (string * string * Z) }.

#[export] Instance AddonSpec_eq : EqDecision AddonSpec.
Proof. solve_decision. Defined.
#[export] Instance Addon_eq : EqDecision Addon.
Proof. solve_decision. Defined.
#[export] Instance HelmChart_eq : EqDecision HelmChart.
Proof. solve_decision. Defined.
#[export] Instance App_eq : EqDecision App.
Proof. solve_decision. Defined.

(** The verdicts of the API server and of the caches, base64, and the clock.
    [ae_afterDelete] is what deleting a chart leaves: nothing, or the chart with its
    deletion time set while its finalizers run. *)
Record AEnv := mkAEnv {
  ae_helmGet : string -> string -> option goerror;
  ae_helmCreate : HelmChart -> option goerror;
  ae_helmDelete : HelmChart -> option goerror;
  ae_helmUpdate : HelmChart -> option goerror;
  ae_afterDelete : HelmChart -> option HelmChart;
  ae_addonGet : string -> string -> option goerror;
  ae_addonUpdate : Addon -> option goerror;
  ae_addonUpdateStatus : Addon -> option goerror;
  ae_jobGet : string -> string -> option goerror;
  ae_appUpdate : App -> option goerror;
  ae_pvcGet : string -> string -> option goerror;
  ae_pvGet : string -> option goerror;
  ae_pvUpdate : PV -> option goerror;
  ae_base64 : string -> option string;
  ae_now : Z }.

Definition isObj (ns name : string) (m : ObjectMeta) : bool :=
  String.eqb (om_Namespace m) ns && String.eqb (om_Name m) name.

Definition findChart (ns name : string) (w : AWorld) : option HelmChart :=
  List.find (fun c => isObj ns name (hc_meta c)) (aw_charts w).
Definition findAddon (ns name : string) (w : AWorld) : option Addon :=
  List.find (fun a => isObj ns name (ad_meta a)) (aw_addons w).
Definition findJob (ns name : string) (w : AWorld) : option Job :=
  List.find (fun j => isObj ns name (job_meta j)) (aw_jobs w).
Definition findPV (name : string) (w : AWorld) : option PV :=
  List.find (fun p => String.eqb (pv_Name p) name) (aw_pvs w).

Definition setAddons (f : list Addon -> list Addon) (w : AWorld) : AWorld :=
  mkAWorld (f (aw_addons w)) (aw_charts w) (aw_jobs w) (aw_apps w) (aw_pvcs w) (aw_pvs w)
    (aw_queue w).
Definition setCharts (f : list HelmChart -> list HelmChart) (w : AWorld) : AWorld :=
  mkAWorld (aw_addons w) (f (aw_charts w)) (aw_jobs w) (aw_apps w) (aw_pvcs w) (aw_pvs w)
    (aw_queue w).
Definition setApps (f : list App -> list App) (w : AWorld) : AWorld :=
  mkAWorld (aw_addons w) (aw_charts w) (aw_jobs w) (f (aw_apps w)) (aw_pvcs w) (aw_pvs w)
    (aw_queue w).
Definition setPVs (f : list PV -> list PV) (w : AWorld) : AWorld :=
  mkAWorld (aw_addons w) (aw_charts w) (aw_jobs w) (aw_apps w) (aw_pvcs w) (f (aw_pvs w))
    (aw_queue w).

(** Objects are replaced by namespace and name; a status update writes the status
    only. *)
Definition putStatus (a : Addon) (l : list Addon) : list Addon :=
  map (fun o => if isObj (ad_Namespace a) (ad_Name a) (ad_meta o)
                then set_Conditions (ad_Conditions a) (set_Status (ad_Status a) o) else o) l.
Definition putAddon (a : Addon) (l : list Addon) : list Addon :=
  map (fun o => if isObj (ad_Namespace a) (ad_Name a) (ad_meta o) then a else o) l.
Definition putChart (c : HelmChart) (l : list HelmChart) : list HelmChart :=
  map (fun o => if isObj (hc_Namespace c) (hc_Name c) (hc_meta o) then c else o) l.
Definition putApp (c : App) (l : list App) : list App :=
  map (fun o => if isObj (om_Namespace (app_meta c)) (om_Name (app_meta c)) (app_meta o)
                then c else o) l.
Definition putPV (c : PV) (l : list PV) : list PV :=
  map (fun o => if String.eqb (pv_Name c) (pv_Name o) then c else o) l.

(** ** [common.go] *)

Definition owns (a : Addon) (v : OwnerReference) : bool :=
  String.eqb (or_Kind v) (ad_Kind a) && String.eqb (or_APIVersion v) (ad_APIVersion a)
  && String.eqb (or_UID v) (om_UID (ad_meta a)) && String.eqb (or_Name v) (ad_Name a).

Definition isJobComplete (j : Job) : bool :=
  bool_decide (is_Some (jst_CompletionTime (job_status j)))
  || existsb (fun v => String.eqb (c_Type v) JobFailed
                       && String.eqb (c_Reason v) "BackoffLimitExceeded")
       (jst_Conditions (job_status j)).

Section Marks.
Context {T : Rfc3339} (t : Z).
Let now : string := time_format t.

Definition markErrorCondition (a : Addon) (msg : string) : Addon :=
  let cs := ad_Conditions a in
  let cs := Cond.SetError now "" msg cs AddonOperationFailed in
  let cs := Cond.setStatus now ConditionTrue cs AddonOperationFailed in
  let cs := Cond.setTS now cs AddonOperationFailed in
  let cs := Cond.setStatus now ConditionFalse cs AddonOperationInProgress in
  let cs := Cond.setStatus now ConditionFalse cs AddonOperationCompleted in
  set_Conditions cs a.

Definition markInProgressCondition (a : Addon) : Addon :=
  let cs := ad_Conditions a in
  let cs := Cond.setStatus now ConditionFalse cs AddonOperationCompleted in
  let cs := Cond.setTS now cs AddonOperationInProgress in
  let cs := Cond.setStatus now ConditionTrue cs AddonOperationInProgress in
  let cs := Cond.setStatus now ConditionFalse cs AddonOperationFailed in
  let cs := Cond.setReason "" cs AddonOperationFailed in
  let cs := Cond.setMessage now "" cs AddonOperationFailed in
  set_Conditions cs a.

Definition markCompletedCondition (a : Addon) : Addon :=
  let cs := ad_Conditions a in
  let cs := Cond.setStatus now ConditionTrue cs AddonOperationCompleted in
  let cs := Cond.setTS now cs AddonOperationCompleted in
  let cs := Cond.setStatus now ConditionFalse cs AddonOperationInProgress in
  let cs := Cond.setStatus now ConditionFalse cs AddonOperationFailed in
  let cs := Cond.setReason "" cs AddonOperationFailed in
  let cs := Cond.setMessage now "" cs AddonOperationFailed in
  set_Conditions cs a.
End Marks.

Definition condTrue (c : string) (a : Addon) : bool := Cond.IsTrue (ad_Conditions a) c.

(** ** The handlers *)

Section Handlers.
Context {T : Rfc3339} (E : AEnv).

Definition helm_Get (ns name : string) : M AWorld HelmChart := fun w =>
  match ae_helmGet E ns name with
  | Some e => (Err e, w)
  | None => match findChart ns name w with
            | Some c => (Ok c, w)
            | None => (Err (ApiNotFound name), w)
            end
  end.

Definition helm_Create (hc : HelmChart) : M AWorld HelmChart :=
  apiWrite (ae_helmCreate E hc) (setCharts (fun l => l ++ [hc])) hc.

Definition helm_Update (hc : HelmChart) : M AWorld HelmChart :=
  apiWrite (ae_helmUpdate E hc) (setCharts (putChart hc)) hc.

Definition dropChart (hc : HelmChart) (l : list HelmChart) : list HelmChart :=
  match ae_afterDelete E hc with
  | Some hc' => putChart hc' l
  | None => List.filter (fun o => negb (isObj (hc_Namespace hc) (hc_Name hc) (hc_meta o))) l
  end.

Definition helm_Delete (hc : HelmChart) : M AWorld unit :=
  apiWrite (ae_helmDelete E hc) (setCharts (dropChart hc)) tt.

Definition addon_UpdateStatus (a : Addon) : M AWorld Addon :=
  apiWrite (ae_addonUpdateStatus E a) (setAddons (putStatus a)) a.

Definition addon_Update (a : Addon) : M AWorld Addon :=
  apiWrite (ae_addonUpdate E a) (setAddons (putAddon a)) a.

Definition jobCache_Get (ns name : string) : M AWorld Job := fun w =>
  match ae_jobGet E ns name with
  | Some e => (Err e, w)
  | None => match findJob ns name w with
            | Some j => (Ok j, w)
            | None => (Err (ApiNotFound name), w)
            end
  end.

(** The chart, if there is one, and whether the addon owns it. *)
Definition getAddonHelmChart (a : Addon) : M AWorld (option HelmChart * bool) :=
  r ← try (helm_Get (ad_Namespace a) (ad_Name a));
  match r with
  | inr err => if IsNotFound err then mret (None, false)
               else throw (ErrText "error querying helmchart")
  | inl hc => mret (Some hc, existsb (owns a) (om_OwnerReferences (hc_meta hc)))
  end.

Definition defaultValues (a : Addon) : outcome string :=
  if negb (String.eqb (as_ValuesContent (ad_Spec a)) "") then Ok (as_ValuesContent (ad_Spec a))
  else match gm_get (ad_Annotations a) AddonValuesAnnotation with
       | Some valsEncoded =>
           match ae_base64 E valsEncoded with
           | Some vals => Ok vals
           | None => Err (ErrText "error decoding addon defaults")
           end
       | None => Ok ""
       end.

Definition isHelmchartUpdateNeeded (a : Addon) (hc : HelmChart) : outcome (bool * string) :=
  match defaultValues a with
  | Ok vals => Ok (negb (String.eqb (hc_ValuesContent hc) vals)
                   || negb (String.eqb (hc_Version hc) (as_Version (ad_Spec a)))
                   || negb (String.eqb (hc_Chart hc) (as_Chart (ad_Spec a)))
                   || negb (String.eqb (hc_Repo hc) (as_Repo (ad_Spec a))), vals)
  | Err _ => Err (ErrText "error generating default values of addon")
  | Panic => Panic
  end.

Definition newHelmChart (a : Addon) (vals : string) : HelmChart :=
  mkHC (mkMeta (ad_Name a) "" (ad_Namespace a) "" None None
          [mkOwner (ad_APIVersion a) (ad_Kind a) (ad_Name a) (om_UID (ad_meta a))] 0 None)
    (as_Chart (ad_Spec a)) (as_Repo (ad_Spec a)) vals (as_Version (ad_Spec a))
    (Some DefaultJobBackOffLimit) "".

Definition deployHelmChart (a : Addon) : M AWorld unit :=
  vals ← lift (defaultValues a);
  _ ← mapErr (fun _ => ErrText "error creating helmchart object")
        (helm_Create (newHelmChart a vals));
  mret tt.

Definition enqueueAfter (a : Addon) : M AWorld Addon :=
  _ ← modify (fun w => mkAWorld (aw_addons w) (aw_charts w) (aw_jobs w) (aw_apps w) (aw_pvcs w)
                         (aw_pvs w)
                         (aw_queue w ++ [(ad_Namespace a, ad_Name a, enqueueInterval)]));
  mret a.

Definition getJob (hc : HelmChart) : M AWorld Job :=
  if String.eqb (hc_JobName hc) ""
  then throw (ErrText "waiting for job to be populated on helmchart")
  else jobCache_Get (hc_Namespace hc) (hc_JobName hc).

(** [After || Equal]: not older.  A chart without deletion time is dereferenced. *)
Definition currentDeletionJob (hc : HelmChart) : M AWorld (Job * bool) :=
  j ← getJob hc;
  match om_DeletionTimestamp (hc_meta hc) with
  | None => lift Panic
  | Some d => mret (j, d <=? om_CreationTimestamp (job_meta j))
  end.

Definition currentInstallationJob (hc : HelmChart) (a : Addon) : M AWorld (Job * bool) :=
  j ← getJob hc;
  match time_parse (Cond.getTS (ad_Conditions a) AddonOperationInProgress) with
  | None => throw (ErrText "error parsing last updated time for AddonOperationInProgress")
  | Some lastUpdatedTime => mret (j, lastUpdatedTime <=? om_CreationTimestamp (job_meta j))
  end.

(** ** [addon_processing.go] *)

Definition reconcileCurrentInstallationJob (hc : HelmChart) (a : Addon) (state : string)
  : M AWorld Addon :=
  '(j, ok) ← currentInstallationJob hc a;
  if negb ok || negb (isJobComplete j) then enqueueAfter a
  else
    let failed := 0 <? jst_Failed (job_status j) in
    if failed && condTrue AddonOperationFailed a then mret a
    else
      let a := if failed
               then markErrorCondition (ae_now E) a
                      ("addon deployment job " +:+ job_Name j +:+ " failed")
               else a in
      let a := if 0 <? jst_Succeeded (job_status j)
               then set_Status state (markCompletedCondition (ae_now E) a) else a in
      addon_UpdateStatus a.

Definition waitForAddonDisable (a : Addon) : M AWorld Addon :=
  '(hc, owned) ← getAddonHelmChart a;
  match hc, owned with
  | None, _ =>
      addon_UpdateStatus (set_Status AddonDisabled (markCompletedCondition (ae_now E) a))
  | Some hc, false =>
      if condTrue AddonOperationFailed a then enqueueAfter a
      else addon_UpdateStatus (markErrorCondition (ae_now E) a
             ("helmChart " +:+ hc_Name hc +:+ " exists and is now owned by Addon "
              +:+ ad_Name a +:+ ". cannot proceed further"))
  | Some hc, true =>
      match om_DeletionTimestamp (hc_meta hc) with
      | None =>
          let a := set_Conditions (Cond.setStatus (time_format (ae_now E)) ConditionTrue
                     (ad_Conditions a) AddonOperationInProgress) a in
          _ ← mapErr (fun _ => ErrText "error deleting helm chart") (helm_Delete hc);
          addon_UpdateStatus a
      | Some _ =>
          if negb (Contains (hc_JobName hc) helmChartJobDeletePrefix) then enqueueAfter a
          else
            '(j, ok) ← currentDeletionJob hc;
            if (ok : bool) then
              if negb (isJobComplete j) then enqueueAfter a
              else
                let a := if 0 <? jst_Failed (job_status j)
                         then markErrorCondition (ae_now E) a
                                ("addon disable job " +:+ job_Name j +:+ " failed")
                         else a in
                let a := if 0 <? jst_Succeeded (job_status j)
                         then set_Status AddonDisabled (markCompletedCondition (ae_now E) a)
                         else a in
                addon_UpdateStatus a
            else enqueueAfter a
      end
  end.

Definition processEnableAddon (a : Addon) : M AWorld Addon :=
  '(hc, owned) ← getAddonHelmChart a;
  match hc with
  | Some c =>
      if owned && bool_decide (is_Some (om_DeletionTimestamp (hc_meta c))) then enqueueAfter a
      else if negb owned then enqueueAfter a
      else if negb (condTrue AddonOperationInProgress a)
      then addon_UpdateStatus (markInProgressCondition (ae_now E) a)
      else addon_UpdateStatus (set_Status AddonEnabling a)
  | None =>
      if negb (condTrue AddonOperationInProgress a)
      then addon_UpdateStatus (markInProgressCondition (ae_now E) a)
      else
        _ ← mapErr (fun _ => ErrText "error deploying helmChart") (deployHelmChart a);
        addon_UpdateStatus (set_Status AddonEnabling a)
  end.

Definition processEnablingAddon (a : Addon) : M AWorld Addon :=
  '(hc, _) ← getAddonHelmChart a;
  if condTrue AddonOperationFailed a then mret a
  else match hc with
       | None =>
           addon_UpdateStatus (set_Status AddonDisabled (markCompletedCondition (ae_now E) a))
       | Some hc => reconcileCurrentInstallationJob hc a AddonDeployed
       end.

Definition processAddonUpgrades (a : Addon) : M AWorld Addon :=
  '(hc, _) ← getAddonHelmChart a;
  match hc with
  | None => _ ← deployHelmChart a; mret a
  | Some hc =>
      '(needed, vals) ← lift (isHelmchartUpdateNeeded a hc);
      if (needed : bool) then
        if negb (String.eqb (ad_Status a) AddonUpdating)
           && negb (condTrue AddonOperationInProgress a)
        then addon_UpdateStatus (markInProgressCondition (ae_now E) a)
        else
          '(hc, _) ← getAddonHelmChart a;
          match hc with
          | None => lift Panic                      (* hc.Spec *)
          | Some hc =>
              _ ← helm_Update (mkHC (hc_meta hc) (as_Chart (ad_Spec a)) (as_Repo (ad_Spec a)) vals
                                 (as_Version (ad_Spec a)) (hc_BackOffLimit hc) (hc_JobName hc));
              if negb (String.eqb (ad_Status a) AddonUpdating)
                 && condTrue AddonOperationInProgress a
              then addon_UpdateStatus (set_Status AddonUpdating a)
              else mret a
          end
      else mret a
  end.

Definition processEnabledAddons (a : Addon) : M AWorld Addon :=
  if str_in (ad_Status a) [AddonDisabled; AddonInitState] then processEnableAddon a
  else if str_in (ad_Status a) [AddonEnabling; AddonUpdating] then processEnablingAddon a
  else if String.eqb (ad_Status a) AddonDeployed then processAddonUpgrades a
  else mret a.

Definition processDisabledAddons (a : Addon) : M AWorld Addon :=
  if String.eqb (ad_Status a) AddonDisabled then mret a
  else if negb (String.eqb (ad_Status a) AddonDisabling) && condTrue AddonOperationInProgress a
  then enqueueAfter a
  else if negb (String.eqb (ad_Status a) AddonDisabling)
  then addon_UpdateStatus (set_Status AddonDisabling a)
  else waitForAddonDisable a.

(** ** [addon.go] *)

Definition MonitorAddonPerStatus (a : option Addon) : M AWorld (option Addon) :=
  match a with
  | None => mret None
  | Some a =>
      if bool_decide (is_Some (om_DeletionTimestamp (ad_meta a))) then mret None
      else Some <$> (if as_Enabled (ad_Spec a) then processEnabledAddons a
                     else processDisabledAddons a)
  end.

Definition addonCache_Get (ns name : string) : M AWorld Addon := fun w =>
  match ae_addonGet E ns name with
  | Some e => (Err e, w)
  | None => match findAddon ns name w with
            | Some c => (Ok c, w)
            | None => (Err (ApiNotFound name), w)
            end
  end.

Definition app_Update (a : App) : M AWorld App :=
  apiWrite (ae_appUpdate E a) (setApps (putApp a)) a.

(** [appCopy.Spec.Chart.Metadata.Annotations[...] = "true"], then a comparison. *)
Definition patchApp (app : App) : M AWorld (option App) :=
  match app_Chart app with
  | Some (Some an) =>
      let appCopy := mkApp (app_meta app) (Some (Some (gm_set an managedChartKey "true"))) in
      if negb (bool_decide (appCopy = app)) then Some <$> app_Update appCopy
      else mret (Some app)
  | _ => lift Panic
  end.

Definition PatchApps (key : string) (app : option App) : M AWorld (option App) :=
  match app with
  | None => mret None
  | Some app =>
      if bool_decide (is_Some (om_DeletionTimestamp (app_meta app))) then mret None
      else if str_in key additionalApps then patchApp app
      else
        r ← try (addonCache_Get (om_Namespace (app_meta app)) (om_Name (app_meta app)));
        match r with
        | inr err => if IsNotFound err then mret (Some app)
                     else throw (ErrText "error fetching app")
        | inl _ => patchApp app
        end
  end.

(** ** [patch_grafana.go] *)

Definition pvcCache_Get (ns name : string) : M AWorld PVC := fun w =>
  match ae_pvcGet E ns name with
  | Some e => (Err e, w)
  | None => match List.find (fun p => isObj ns name (pvc_meta p)) (aw_pvcs w) with
            | Some c => (Ok c, w)
            | None => (Err (ApiNotFound name), w)
            end
  end.

Definition pvCache_Get (name : string) : M AWorld PV := fun w =>
  match ae_pvGet E name with
  | Some e => (Err e, w)
  | None => match findPV name w with
            | Some c => (Ok c, w)
            | None => (Err (ApiNotFound name), w)
            end
  end.

Definition pv_Update (p : PV) : M AWorld PV :=
  apiWrite (ae_pvUpdate E p) (setPVs (putPV p)) p.

Definition patchGrafanaPVReclaimPolicy (ns name : string) : M AWorld (bool * string) :=
  r ← try (pvcCache_Get ns name);
  match r with
  | inr err => if IsNotFound err then mret (false, "")
               else throw (ErrText "error fetching grafana pvc")
  | inl pvc =>
      pv ← mapErr (fun err => if IsNotFound err then ErrText "grafana PV is not found, retry"
                              else ErrText "error fetching grafana pv")
             (pvCache_Get (pvc_VolumeName pvc));
      if String.eqb (pv_ReclaimPolicy pv) PersistentVolumeReclaimRetain
      then mret (false, pvc_VolumeName pvc)
      else
        _ ← mapErr (fun _ => ErrText "grafana PV is failed to patch ReclaimPolicy")
              (pv_Update (mkPV (pv_Name pv) PersistentVolumeReclaimRetain (pv_Phase pv)
                            (pv_ClaimRefUID pv)));
        mret (true, pvc_VolumeName pvc)
  end.

Definition annotateGrafanaPVName (pvname : string) (a : option Addon)
  : M AWorld (option Addon) :=
  match a with
  | None => mret None
  | Some a =>
      if bool_decide (is_Some (om_DeletionTimestamp (ad_meta a))) then mret None
      else if bool_decide (ad_Annotations a <> None)
              && String.eqb (gm_str (ad_Annotations a) AnnotationGrafanaPVName) pvname
      then mret (Some a)
      else Some <$> addon_Update (ad_set_Annotations
                       (gm_set (ad_Annotations a) AnnotationGrafanaPVName pvname) a)
  end.

Definition patchGrafanaPVClaimRef (a : option Addon) : M AWorld (option Addon) :=
  match a with
  | None => mret None
  | Some a =>
      if bool_decide (is_Some (om_DeletionTimestamp (ad_meta a))) then mret None
      else
        let pvname := gm_str (ad_Annotations a) AnnotationGrafanaPVName in
        if String.eqb pvname "" then mret (Some a)
        else
          r ← try (pvCache_Get pvname);
          match r with
          | inr err => if IsNotFound err then mret (Some a)
                       else throw (ErrText "error fetching grafana pv")
          | inl pv =>
              if negb (String.eqb (pv_ReclaimPolicy pv) PersistentVolumeReclaimRetain)
              then mret (Some a)
              else match pv_ClaimRefUID pv with
                   | None => mret (Some a)
                   | Some uid =>
                       if String.eqb uid "" then mret (Some a)
                       else if String.eqb (pv_Phase pv) VolumeAvailable then mret (Some a)
                       else if negb (String.eqb (pv_Phase pv) VolumeReleased) then mret (Some a)
                       else
                         _ ← mapErr (fun _ => ErrText "grafana PV is failed to patch")
                               (pv_Update (mkPV (pv_Name pv) (pv_ReclaimPolicy pv) (pv_Phase pv)
                                             (Some "")));
                         mret (Some a)
                   end
          end
  end.

Definition MonitorAddonRancherMonitoring (a : option Addon) : M AWorld (option Addon) :=
  match a with
  | None => mret None
  | Some a =>
      if bool_decide (is_Some (om_DeletionTimestamp (ad_meta a))) then mret None
      else if negb (String.eqb (ad_Name a) RancherMonitoringName)
              || negb (String.eqb (ad_Namespace a) CattleMonitoringSystemNamespaceName)
      then mret (Some a)
      else if as_Enabled (ad_Spec a) && String.eqb (ad_Status a) AddonDeployed then
        '(_, pvname) ← patchGrafanaPVReclaimPolicy CattleMonitoringSystemNamespaceName
                         GrafanaPVCName;
        if negb (String.eqb pvname "") then annotateGrafanaPVName pvname (Some a)
        else mret (Some a)                          (* the disabled test below is false *)
      else if negb (as_Enabled (ad_Spec a)) && String.eqb (ad_Status a) AddonDisabled
      then patchGrafanaPVClaimRef (Some a)
      else mret (Some a)
  end.
End Handlers.

(** ** [helmchart.go] *)

Definition ascii_lower (c : Ascii.ascii) : Ascii.ascii :=
  let n := Ascii.nat_of_ascii c in
  if (65 <=? n)%nat && (n <=? 90)%nat then Ascii.ascii_of_nat (n + 32) else c.
(** [strings.ToLower] on ASCII. *)
Fixpoint ToLower (s : string) : string :=
  match s with
  | EmptyString => EmptyString
  | String c s => String (ascii_lower c) (ToLower s)
  end.

(** The keys (namespace, name) a chart's change enqueues; [None]: not a chart. *)
Definition ReconcileHelmChartOwners (obj : option HelmChart) : list (string * string) :=
  match obj with
  | None => []
  | Some hc =>
      match List.find (fun v => String.eqb (ToLower (or_Kind v)) "addon")
              (om_OwnerReferences (hc_meta hc)) with
      | Some v => [(hc_Namespace hc, or_Name v)]
      | None => []
      end
  end.

(** ** Lemmas *)

Section Lemmas.
Context {T : Rfc3339} (E : AEnv).

(** What the handlers know about the chart. *)
Lemma getAddonHelmChart_Ok a w hc owned w' :
  getAddonHelmChart E a w = (Ok (hc, owned), w') ->
  w' = w /\
  match hc with
  | Some c => findChart (ad_Namespace a) (ad_Name a) w = Some c /\
              owned = existsb (owns a) (om_OwnerReferences (hc_meta c))
  | None => owned = false /\
            match ae_helmGet E (ad_Namespace a) (ad_Name a) with
            | None => findChart (ad_Namespace a) (ad_Name a) w = None
            | Some e => IsNotFound e = true
            end
  end.
Proof.
  unfold getAddonHelmChart, helm_Get, mbind, M_bind, try.
  destruct (ae_helmGet E _ _) as [e|].
  - simpl. destruct (IsNotFound e) eqn:Ee; intros H; [|discriminate H].
    injection H as <- <- <-. by split_and!.
  - destruct (findChart _ _ w) as [c|] eqn:Ef; simpl; intros H; injection H as <- <- <-;
      by split_and!.
Qed.

Lemma getAddonHelmChart_read a w : (getAddonHelmChart E a w).2 = w.
Proof.
  unfold getAddonHelmChart, helm_Get, mbind, M_bind, try.
  destruct (ae_helmGet E _ _) as [e|]; [by destruct (IsNotFound e)|].
  by destruct (findChart _ _ w).
Qed.

Lemma getJob_Ok hc w j w' :
  getJob E hc w = (Ok j, w') -> w' = w /\ findJob (hc_Namespace hc) (hc_JobName hc) w = Some j.
Proof.
  unfold getJob, jobCache_Get. destruct (String.eqb _ ""); [done|].
  destruct (ae_jobGet E _ _); [done|]. destruct (findJob _ _ w); naive_solver.
Qed.

Lemma getJob_read hc w : (getJob E hc w).2 = w.
Proof.
  unfold getJob, jobCache_Get. destruct (String.eqb _ ""); [done|].
  destruct (ae_jobGet E _ _); [done|]. by destruct (findJob _ _ w).
Qed.

End Lemmas.

(** The three conditions after each mark. *)
Lemma markError_status {T : Rfc3339} t a msg :
  Cond.getStatus (ad_Conditions (markErrorCondition t a msg)) AddonOperationInProgress
    = ConditionFalse /\
  Cond.getStatus (ad_Conditions (markErrorCondition t a msg)) AddonOperationCompleted
    = ConditionFalse /\
  Cond.getStatus (ad_Conditions (markErrorCondition t a msg)) AddonOperationFailed
    = ConditionTrue.
Proof.
  unfold markErrorCondition, Cond.SetError. simpl. split_and!; cond_status; done.
Qed.

Lemma markInProgress_status {T : Rfc3339} t a :
  Cond.getStatus (ad_Conditions (markInProgressCondition t a)) AddonOperationInProgress
    = ConditionTrue /\
  Cond.getStatus (ad_Conditions (markInProgressCondition t a)) AddonOperationCompleted
    = ConditionFalse /\
  Cond.getStatus (ad_Conditions (markInProgressCondition t a)) AddonOperationFailed
    = ConditionFalse.
Proof. unfold markInProgressCondition. simpl. split_and!; cond_status; done. Qed.

Lemma markCompleted_status {T : Rfc3339} t a :
  Cond.getStatus (ad_Conditions (markCompletedCondition t a)) AddonOperationInProgress
    = ConditionFalse /\
  Cond.getStatus (ad_Conditions (markCompletedCondition t a)) AddonOperationCompleted
    = ConditionTrue /\
  Cond.getStatus (ad_Conditions (markCompletedCondition t a)) AddonOperationFailed
    = ConditionFalse.
Proof. unfold markCompletedCondition. simpl. split_and!; cond_status; done. Qed.

(** After each mark exactly one of the three conditions of an addon is true and
    the other two are false, whatever they were. *)
Theorem marks_exclusive {T : Rfc3339} t a msg :
  let status a c := Cond.getStatus (ad_Conditions a) c in
  let only c a :=
    forall c', c' ∈ [AddonOperationInProgress; AddonOperationCompleted; AddonOperationFailed] ->
      status a c' = if decide (c' = c) then ConditionTrue else ConditionFalse in
  only AddonOperationFailed (markErrorCondition t a msg) /\
  only AddonOperationInProgress (markInProgressCondition t a) /\
  only AddonOperationCompleted (markCompletedCondition t a).
Proof.
  cbv zeta. destruct (markError_status t a msg) as (E1 & E2 & E3).
  destruct (markInProgress_status t a) as (I1 & I2 & I3).
  destruct (markCompleted_status t a) as (C1 & C2 & C3).
  split_and!; intros c' Hc'; repeat (apply elem_of_cons in Hc' as [->|Hc']; [by case_decide|]);
    by apply elem_of_nil in Hc'.
Qed.

Section Safety.
Context {T : Rfc3339} (E : AEnv).

(** A successful job of this installation: the job of the addon's chart, complete,
    with a success, and not older than the moment the operation was started. *)
Definition installed (a : Addon) (w : AWorld) : Prop :=
  exists hc j t,
    findChart (ad_Namespace a) (ad_Name a) w = Some hc /\
    findJob (hc_Namespace hc) (hc_JobName hc) w = Some j /\
    time_parse (Cond.getTS (ad_Conditions a) AddonOperationInProgress) = Some t /\
    t <= om_CreationTimestamp (job_meta j) /\ isJobComplete j = true /\
    0 < jst_Succeeded (job_status j).

(** The same for a removal. *)
Definition removed (a : Addon) (w : AWorld) : Prop :=
  exists hc j d,
    findChart (ad_Namespace a) (ad_Name a) w = Some hc /\
    existsb (owns a) (om_OwnerReferences (hc_meta hc)) = true /\
    om_DeletionTimestamp (hc_meta hc) = Some d /\
    findJob (hc_Namespace hc) (hc_JobName hc) w = Some j /\
    d <= om_CreationTimestamp (job_meta j) /\ isJobComplete j = true /\
    0 < jst_Succeeded (job_status j).

(** What one pass of a handler may do to the status of the addon it returns. *)
Definition statusStep (a : Addon) (w : AWorld) (a' : Addon) : Prop :=
  ad_Status a' = ad_Status a
  \/ (ad_Status a' = AddonEnabling /\ as_Enabled (ad_Spec a) = true /\
      ad_Status a ∈ [AddonDisabled; AddonInitState] /\ condTrue AddonOperationInProgress a = true)
  \/ (ad_Status a' = AddonUpdating /\ as_Enabled (ad_Spec a) = true /\
      ad_Status a = AddonDeployed /\ condTrue AddonOperationInProgress a = true)
  \/ (ad_Status a' = AddonDeployed /\ as_Enabled (ad_Spec a) = true /\
      ad_Status a ∈ [AddonEnabling; AddonUpdating] /\ installed a w /\
      condTrue AddonOperationCompleted a' = true /\
      condTrue AddonOperationInProgress a' = false /\
      condTrue AddonOperationFailed a' = false)
  \/ (ad_Status a' = AddonDisabling /\ as_Enabled (ad_Spec a) = false /\
      condTrue AddonOperationInProgress a = false)
  \/ (ad_Status a' = AddonDisabled /\ ad_Status a <> AddonDeployed /\
      (removed a w \/ findChart (ad_Namespace a) (ad_Name a) w = None)).

(** The API server does not report charts missing that are there. *)
Hypothesis honest : forall ns n e, ae_helmGet E ns n = Some e -> IsNotFound e = false.

Lemma no_chart a w w' owned :
  getAddonHelmChart E a w = (Ok (None, owned), w') ->
  findChart (ad_Namespace a) (ad_Name a) w = None.
Proof using honest.
  intros (_ & _ & H)%getAddonHelmChart_Ok. destruct (ae_helmGet E _ _) as [e|] eqn:Ee; [|done].
  apply honest in Ee. congruence.
Qed.

Lemma reconcile_status a w hc a' w' :
  findChart (ad_Namespace a) (ad_Name a) w = Some hc ->
  reconcileCurrentInstallationJob E hc a AddonDeployed w = (Ok a', w') ->
  ad_Status a' = ad_Status a \/
  (ad_Status a' = AddonDeployed /\ installed a w /\
   condTrue AddonOperationCompleted a' = true /\
   condTrue AddonOperationInProgress a' = false /\
   condTrue AddonOperationFailed a' = false).
Proof.
  intros Hc H. unfold reconcileCurrentInstallationJob, currentInstallationJob in H.
  apply bind_Ok in H as ([j' ok] & w1 & Hr & H).
  apply bind_Ok in Hr as (j & w2 & [-> Hj]%getJob_Ok & Hr).
  destruct (time_parse _) as [z|] eqn:Ez; [|done]. apply ret_Ok in Hr as [[= -> ->] ->].
  destruct (negb _ || _) eqn:Eg; [unfold enqueueAfter in H; repeat run_inv H; by left|].
  boolify. destruct (_ && condTrue _ a); [run_inv H; by left|].
  unfold addon_UpdateStatus in H. run_inv H.
  destruct (0 <? jst_Succeeded (job_status j)) eqn:Es; [right|left].
  - split; [done|]. split.
    { exists hc, j, z. split_and!; try done; [by apply Z.leb_le|lia]. }
    match goal with |- context [markCompletedCondition ?t ?b] =>
      destruct (markCompleted_status t b) as (C1 & C2 & C3) end.
    unfold condTrue, Cond.IsTrue. simpl in *. by rewrite C1, C2, C3.
  - by destruct (0 <? jst_Failed (job_status j)).
Qed.

Lemma enqueueAfter_Ok a w a' w' : enqueueAfter a w = (Ok a', w') -> a' = a.
Proof. by intros [= <- _]. Qed.

Lemma UpdateStatus_Ok a w a' w' : addon_UpdateStatus E a w = (Ok a', w') -> a' = a.
Proof. by intros (_ & -> & _)%apiWrite_Ok. Qed.

Lemma enable_status a w a' w' :
  processEnableAddon E a w = (Ok a', w') ->
  ad_Status a' = ad_Status a \/
  (ad_Status a' = AddonEnabling /\ condTrue AddonOperationInProgress a = true).
Proof.
  unfold processEnableAddon. intros H. apply bind_Ok in H as ([hc o] & w1 & _ & H).
  destruct hc as [c|].
  - destruct (_ && _); [apply enqueueAfter_Ok in H as ->; by left|].
    destruct (negb o); [apply enqueueAfter_Ok in H as ->; by left|].
    destruct (condTrue _ a) eqn:Ec; simpl in H; apply UpdateStatus_Ok in H as ->;
      [by right|by left].
  - destruct (condTrue _ a) eqn:Ec; simpl in H.
    + apply bind_Ok in H as (u & w2 & _ & H). apply UpdateStatus_Ok in H as ->. by right.
    + apply UpdateStatus_Ok in H as ->. by left.
Qed.

Lemma upgrade_status a w a' w' :
  processAddonUpgrades E a w = (Ok a', w') ->
  ad_Status a' = ad_Status a \/
  (ad_Status a' = AddonUpdating /\ condTrue AddonOperationInProgress a = true).
Proof.
  unfold processAddonUpgrades. intros H. apply bind_Ok in H as ([hc o] & w1 & _ & H).
  destruct hc as [c|].
  - apply bind_Ok in H as ([needed vals] & w2 & _ & H).
    destruct needed; [|apply ret_Ok in H as [-> _]; by left].
    destruct (negb _ && _); [apply UpdateStatus_Ok in H as ->; by left|].
    apply bind_Ok in H as ([hc' o'] & w3 & _ & H). destruct hc' as [c'|]; [|done].
    apply bind_Ok in H as (c'' & w4 & _ & H).
    destruct (negb _ && _) eqn:Eb.
    + boolify. apply UpdateStatus_Ok in H as ->. by right.
    + apply ret_Ok in H as [-> _]. by left.
  - apply bind_Ok in H as (u & w2 & _ & H). apply ret_Ok in H as [-> _]. by left.
Qed.

Lemma disable_status a w a' w' :
  waitForAddonDisable E a w = (Ok a', w') ->
  ad_Status a' = ad_Status a \/
  (ad_Status a' = AddonDisabled /\
   (removed a w \/ findChart (ad_Namespace a) (ad_Name a) w = None)).
Proof using honest.
  unfold waitForAddonDisable. intros H. apply bind_Ok in H as ([hc o] & w1 & Hr & H).
  destruct hc as [c|].
  2: { apply UpdateStatus_Ok in H as ->. right. split; [done|]. right. by eapply no_chart. }
  apply getAddonHelmChart_Ok in Hr as (-> & Hc & Ho). destruct o.
  2: { destruct (condTrue _ a); [apply enqueueAfter_Ok in H as ->; by left|].
       apply UpdateStatus_Ok in H as ->. by left. }
  destruct (om_DeletionTimestamp (hc_meta c)) as [d|] eqn:Ed.
  2: { apply bind_Ok in H as (u & w2 & _ & H). apply UpdateStatus_Ok in H as ->. by left. }
  destruct (negb _); [apply enqueueAfter_Ok in H as ->; by left|].
  apply bind_Ok in H as ([j ok] & w2 & Hr & H).
  unfold currentDeletionJob in Hr. apply bind_Ok in Hr as (j' & w3 & [-> Hj]%getJob_Ok & Hr).
  rewrite Ed in Hr. apply ret_Ok in Hr as [[= -> ->] ->].
  destruct (d <=? _) eqn:El; [|apply enqueueAfter_Ok in H as ->; by left].
  destruct (isJobComplete j') eqn:Ej; simpl in H; [|apply enqueueAfter_Ok in H as ->; by left].
  apply UpdateStatus_Ok in H as ->.
  destruct (0 <? jst_Succeeded (job_status j')) eqn:Es.
  - right. split; [done|]. left. exists c, j', d. apply Z.leb_le in El. apply Z.ltb_lt in Es.
    by split_and!.
  - left. by destruct (0 <? jst_Failed (job_status j')).
Qed.

(** C17: the state machine of addons.  Whenever a pass over an addon that is not being
    deleted succeeds, the status it returns is the old one, or: Enabling, only from
    Disabled or Init for an enabled addon whose operation was marked in progress
    before; Updating, only from Deployed, likewise; Deployed, only from Enabling or
    Updating, when the job of the addon's chart is complete with a success and is not
    older than the start of the operation, and then only Completed is set; Disabling,
    only for a disabled addon with no operation in progress; Disabled, never from
    Deployed, and only when the chart is gone or the chart is owned, is being deleted
    and a deletion job not older than its deletion has succeeded. *)
Theorem addon_state_machine a w a' w' :
  om_DeletionTimestamp (ad_meta a) = None ->
  MonitorAddonPerStatus E (Some a) w = (Ok (Some a'), w') ->
  statusStep a w a'.
Proof using honest.
  intros Hd H. unfold MonitorAddonPerStatus in H. rewrite Hd in H.
  rewrite bool_decide_eq_false_2 in H by (by intros [? [=]]).
  apply fmap_Ok in H as (b & H & [= <-]). unfold statusStep.
  destruct (as_Enabled (ad_Spec a)) eqn:Een.
  - unfold processEnabledAddons, str_in in H. case_bool_decide as H1.
    { destruct (enable_status _ _ _ _ H) as [?|[? ?]]; naive_solver. }
    case_bool_decide as H2.
    { unfold processEnablingAddon in H. apply bind_Ok in H as ([hc o] & w1 & Hr & H).
      destruct (condTrue AddonOperationFailed a); [apply ret_Ok in H as [-> _]; by left|].
      destruct hc as [hc|].
      - apply getAddonHelmChart_Ok in Hr as (-> & Hc & _).
        destruct (reconcile_status _ _ _ _ _ Hc H) as [?|?]; naive_solver.
      - apply UpdateStatus_Ok in H as ->. do 5 right. split; [done|].
        split; [intros Hs; rewrite Hs in H2; set_solver|]. right. by eapply no_chart. }
    destruct (String.eqb_spec (ad_Status a) AddonDeployed) as [Ed|].
    { destruct (upgrade_status _ _ _ _ H) as [?|[? ?]]; naive_solver. }
    apply ret_Ok in H as [-> _]. by left.
  - unfold processDisabledAddons in H.
    destruct (String.eqb_spec (ad_Status a) AddonDisabled); [apply ret_Ok in H as [-> _]; by left|].
    destruct (String.eqb_spec (ad_Status a) AddonDisabling) as [Ed|]; simpl in H.
    + destruct (disable_status _ _ _ _ H) as [?|[? ?]]; [by left|].
      do 5 right. split; [done|]. split; [|done]. rewrite Ed. done.
    + destruct (condTrue AddonOperationInProgress a) eqn:Ep.
      { apply enqueueAfter_Ok in H as ->. by left. }
      apply UpdateStatus_Ok in H as ->. naive_solver.
Qed.

(** What one pass may do to the charts, however it ends. *)
Inductive chartStep (a : Addon) (w : AWorld) : list HelmChart -> Prop :=
| cs_none : chartStep a w (aw_charts w)
| cs_create vals :
    findChart (ad_Namespace a) (ad_Name a) w = None -> defaultValues E a = Ok vals ->
    as_Enabled (ad_Spec a) = true ->
    ad_Status a ∈ [AddonDisabled; AddonInitState] /\ condTrue AddonOperationInProgress a = true
      \/ ad_Status a = AddonDeployed ->
    chartStep a w (aw_charts w ++ [newHelmChart a vals])
| cs_update hc vals :
    findChart (ad_Namespace a) (ad_Name a) w = Some hc -> defaultValues E a = Ok vals ->
    as_Enabled (ad_Spec a) = true -> ad_Status a = AddonDeployed ->
    condTrue AddonOperationInProgress a = true ->
    isHelmchartUpdateNeeded E a hc = Ok (true, vals) ->
    chartStep a w
      (putChart (mkHC (hc_meta hc) (as_Chart (ad_Spec a)) (as_Repo (ad_Spec a)) vals
                   (as_Version (ad_Spec a)) (hc_BackOffLimit hc) (hc_JobName hc)) (aw_charts w))
| cs_delete hc :
    findChart (ad_Namespace a) (ad_Name a) w = Some hc ->
    existsb (owns a) (om_OwnerReferences (hc_meta hc)) = true ->
    om_DeletionTimestamp (hc_meta hc) = None ->
    as_Enabled (ad_Spec a) = false -> ad_Status a = AddonDisabling ->
    chartStep a w (dropChart E hc (aw_charts w)).

Lemma UpdateStatus_charts a w : aw_charts (addon_UpdateStatus E a w).2 = aw_charts w.
Proof. unfold addon_UpdateStatus, apiWrite. by destruct (ae_addonUpdateStatus E a). Qed.

Lemma isNeeded_values a hc b vals :
  isHelmchartUpdateNeeded E a hc = Ok (b, vals) -> defaultValues E a = Ok vals.
Proof. unfold isHelmchartUpdateNeeded. destruct (defaultValues E a); naive_solver. Qed.

(** Deploying either does nothing to the charts or appends the new one. *)
Lemma deploy_charts a w :
  aw_charts (deployHelmChart E a w).2 = aw_charts w \/
  exists vals, defaultValues E a = Ok vals /\
    aw_charts (deployHelmChart E a w).2 = aw_charts w ++ [newHelmChart a vals].
Proof.
  unfold deployHelmChart, mbind, M_bind, lift. destruct (defaultValues E a) as [vals|e|]; auto.
  unfold mapErr, helm_Create, apiWrite. destruct (ae_helmCreate E _); [by left|].
  right. by exists vals.
Qed.

Lemma deploy_then_charts {A} a w (f : unit -> M AWorld A) (k : goerror -> goerror) :
  (forall w1, aw_charts (f tt w1).2 = aw_charts w1) ->
  aw_charts ((mapErr k (deployHelmChart E a) ≫= f) w).2 = aw_charts (deployHelmChart E a w).2.
Proof.
  intros H. unfold mbind, M_bind, mapErr.
  destruct (deployHelmChart E a w) as [[[]|e|] w1]; simpl; auto.
Qed.

Lemma enable_charts a w :
  as_Enabled (ad_Spec a) = true -> ad_Status a ∈ [AddonDisabled; AddonInitState] ->
  chartStep a w (aw_charts (processEnableAddon E a w).2).
Proof using honest.
  intros He Hs. unfold processEnableAddon.
  apply (bind_read _ _ _ (fun w' => chartStep a w (aw_charts w')));
    [apply getAddonHelmChart_read|exact (cs_none a w)|].
  intros [hc o] Hg. destruct hc as [c|].
  - destruct (_ && _); [exact (cs_none a w)|]. destruct (negb o); [exact (cs_none a w)|].
    destruct (negb _); rewrite UpdateStatus_charts; exact (cs_none a w).
  - destruct (condTrue AddonOperationInProgress a) eqn:Ec; simpl;
      [|rewrite UpdateStatus_charts; exact (cs_none a w)].
    rewrite deploy_then_charts by (intros; apply UpdateStatus_charts).
    destruct (deploy_charts a w) as [->|(vals & Hv & ->)]; [exact (cs_none a w)|].
    apply cs_create; auto. by eapply no_chart.
Qed.

Lemma reconcile_charts a hc st w :
  aw_charts (reconcileCurrentInstallationJob E hc a st w).2 = aw_charts w.
Proof.
  unfold reconcileCurrentInstallationJob, currentInstallationJob.
  apply (bind_read _ _ _ (fun w' => aw_charts w' = aw_charts w)); [|done|].
  - apply (bind_read _ _ _ (fun w' => w' = w)); [apply getJob_read|done|].
    intros j _. by destruct (time_parse _).
  - intros [j ok] _. destruct (_ || _); [done|]. destruct (_ && _); [done|].
    apply UpdateStatus_charts.
Qed.

Lemma upgrade_charts a w :
  as_Enabled (ad_Spec a) = true -> ad_Status a = AddonDeployed ->
  chartStep a w (aw_charts (processAddonUpgrades E a w).2).
Proof using honest.
  intros He Hs. unfold processAddonUpgrades.
  apply (bind_read _ _ _ (fun w' => chartStep a w (aw_charts w')));
    [apply getAddonHelmChart_read|exact (cs_none a w)|].
  intros [hc o] Hg. destruct hc as [c|].
  - apply getAddonHelmChart_Ok in Hg as (_ & Hc & _).
    apply (bind_read _ _ _ (fun w' => chartStep a w (aw_charts w'))); [done|exact (cs_none a w)|].
    intros [needed vals] [Hn _]%lift_Ok. destruct needed; [|exact (cs_none a w)].
    rewrite Hs. change (String.eqb AddonDeployed AddonUpdating) with false. simpl.
    destruct (condTrue AddonOperationInProgress a) eqn:Ec; simpl;
      [|rewrite UpdateStatus_charts; exact (cs_none a w)].
    apply (bind_read _ _ _ (fun w' => chartStep a w (aw_charts w')));
      [apply getAddonHelmChart_read|exact (cs_none a w)|].
    intros [hc' o'] Hg. destruct hc' as [c'|]; [|exact (cs_none a w)].
    apply getAddonHelmChart_Ok in Hg as (_ & Hc' & _).
    assert (c' = c) as -> by congruence.
    apply (bind_write _ _ _ _ _ (fun w' => chartStep a w (aw_charts w'))); [exact (cs_none a w)|].
    intros _. rewrite UpdateStatus_charts. simpl.
    eapply cs_update; eauto using isNeeded_values.
  - assert (Hch : aw_charts ((deployHelmChart E a ≫= (fun _ => mret a)) w).2
                  = aw_charts (deployHelmChart E a w).2).
    { unfold mbind, M_bind. by destruct (deployHelmChart E a w) as [[[]|e|] w1]. }
    rewrite Hch. destruct (deploy_charts a w) as [->|(vals & Hv & ->)]; [exact (cs_none a w)|].
    apply cs_create; auto. by eapply no_chart.
Qed.

Lemma disable_charts a w :
  as_Enabled (ad_Spec a) = false -> ad_Status a = AddonDisabling ->
  chartStep a w (aw_charts (waitForAddonDisable E a w).2).
Proof.
  intros He Hs. unfold waitForAddonDisable.
  apply (bind_read _ _ _ (fun w' => chartStep a w (aw_charts w')));
    [apply getAddonHelmChart_read|exact (cs_none a w)|].
  intros [hc o] Hg. destruct hc as [c|]; [|rewrite UpdateStatus_charts; exact (cs_none a w)].
  apply getAddonHelmChart_Ok in Hg as (_ & Hc & Ho). destruct o.
  2: { destruct (condTrue _ a); [exact (cs_none a w)|rewrite UpdateStatus_charts; exact (cs_none a w)]. }
  destruct (om_DeletionTimestamp (hc_meta c)) as [d|] eqn:Ed.
  - destruct (negb _); [exact (cs_none a w)|].
    apply (bind_read _ _ _ (fun w' => chartStep a w (aw_charts w'))); [|exact (cs_none a w)|].
    + unfold currentDeletionJob. apply (bind_read _ _ _ (fun w' => w' = w));
        [apply getJob_read|done|]. intros j _. by rewrite Ed.
    + intros [j ok] _. destruct ok; [|exact (cs_none a w)]. destruct (negb _); [exact (cs_none a w)|].
      rewrite UpdateStatus_charts. exact (cs_none a w).
  - unfold mbind, M_bind, mapErr, helm_Delete, apiWrite.
    destruct (ae_helmDelete E c); [exact (cs_none a w)|]. rewrite UpdateStatus_charts.
    by apply cs_delete.
Qed.

Lemma monitor_charts a w : chartStep a w (aw_charts (MonitorAddonPerStatus E (Some a) w).2).
Proof using honest.
  unfold MonitorAddonPerStatus. destruct (bool_decide _); [exact (cs_none a w)|].
  match goal with |- context [(Some <$> ?m) w] =>
    assert (Hm : aw_charts ((Some <$> m) w).2 = aw_charts (m w).2)
      by (unfold fmap, M_fmap; by destruct (m w) as [[]]) end.
  rewrite Hm. clear Hm. destruct (as_Enabled (ad_Spec a)) eqn:He.
  - unfold processEnabledAddons, str_in. case_bool_decide; [by apply enable_charts|].
    case_bool_decide.
    { unfold processEnablingAddon.
      apply (bind_read _ _ _ (fun w' => chartStep a w (aw_charts w')));
        [apply getAddonHelmChart_read|exact (cs_none a w)|].
      intros [hc o] _. destruct (condTrue _ a); [exact (cs_none a w)|].
      destruct hc; rewrite ?reconcile_charts, ?UpdateStatus_charts; exact (cs_none a w). }
    destruct (String.eqb_spec (ad_Status a) AddonDeployed); [by apply upgrade_charts|exact (cs_none a w)].
  - unfold processDisabledAddons. destruct (String.eqb _ AddonDisabled); [exact (cs_none a w)|].
    destruct (negb _ && _); [exact (cs_none a w)|].
    destruct (String.eqb_spec (ad_Status a) AddonDisabling); simpl;
      [|rewrite UpdateStatus_charts; exact (cs_none a w)].
    by apply disable_charts.
Qed.

(** What a pass does to helm charts, however it ends: nothing; or it creates the
    addon's own chart, only when there is none and either the operation was marked in
    progress before or the addon is deployed; or it rewrites the chart of a deployed
    addon, in progress, whose spec differs; or it deletes a chart, which is owned by
    the addon and not yet being deleted, for a disabled addon in Disabling.  A chart
    the addon does not own is thus left alone in every state but Deployed. *)
Theorem addon_chart_writes a w :
  chartStep a w (aw_charts (MonitorAddonPerStatus E (Some a) w).2) /\
  (forall hc, findChart (ad_Namespace a) (ad_Name a) w = Some hc ->
     existsb (owns a) (om_OwnerReferences (hc_meta hc)) = false ->
     ad_Status a <> AddonDeployed ->
     aw_charts (MonitorAddonPerStatus E (Some a) w).2 = aw_charts w).
Proof using honest.
  assert (Hstep : chartStep a w (aw_charts (MonitorAddonPerStatus E (Some a) w).2)).
  { apply monitor_charts. }
  split; [done|]. intros hc Hc Ho Hs.
  destruct Hstep as [|vals Hn|hc' vals Hc' _ _ Hd|hc' Hc' Ho']; [done|congruence|done|].
  congruence.
Qed.
End Safety.

(** ** Runs without API failures *)

Record aquiet (E : AEnv) : Prop := {
  aq_helmGet : forall ns n, ae_helmGet E ns n = None;
  aq_helmCreate : forall c, ae_helmCreate E c = None;
  aq_helmDelete : forall c, ae_helmDelete E c = None;
  aq_helmUpdate : forall c, ae_helmUpdate E c = None;
  aq_addonUpdateStatus : forall a, ae_addonUpdateStatus E a = None;
  aq_jobGet : forall ns n, ae_jobGet E ns n = None }.

Section Runs.
Context {T : Rfc3339} (E : AEnv) (Q : aquiet E).

Lemma UpdateStatus_run a w : addon_UpdateStatus E a w = (Ok a, setAddons (putStatus a) w).
Proof using Q. unfold addon_UpdateStatus, apiWrite. by rewrite (aq_addonUpdateStatus E Q). Qed.

Lemma getChart_run a w :
  getAddonHelmChart E a w =
  (Ok (match findChart (ad_Namespace a) (ad_Name a) w with
       | Some c => (Some c, existsb (owns a) (om_OwnerReferences (hc_meta c)))
       | None => (None, false)
       end), w).
Proof using Q.
  unfold getAddonHelmChart, helm_Get, mbind, M_bind, try. rewrite (aq_helmGet E Q).
  by destruct (findChart _ _ w).
Qed.

Lemma monitor_run a w :
  om_DeletionTimestamp (ad_meta a) = None ->
  MonitorAddonPerStatus E (Some a) w =
  (Some <$> (if as_Enabled (ad_Spec a) then processEnabledAddons E a
             else processDisabledAddons E a)) w.
Proof.
  intros Hd. unfold MonitorAddonPerStatus. rewrite Hd.
  by rewrite bool_decide_eq_false_2 by (by intros [? [=]]).
Qed.

(** An addon with an operation to wait for: the job decides. *)
Lemma enabling_run a w hc j t :
  om_DeletionTimestamp (ad_meta a) = None -> as_Enabled (ad_Spec a) = true ->
  ad_Status a ∈ [AddonEnabling; AddonUpdating] -> condTrue AddonOperationFailed a = false ->
  findChart (ad_Namespace a) (ad_Name a) w = Some hc -> hc_JobName hc <> "" ->
  findJob (hc_Namespace hc) (hc_JobName hc) w = Some j ->
  time_parse (Cond.getTS (ad_Conditions a) AddonOperationInProgress) = Some t ->
  t <= om_CreationTimestamp (job_meta j) -> isJobComplete j = true ->
  0 < jst_Succeeded (job_status j) ->
  exists a' w', MonitorAddonPerStatus E (Some a) w = (Ok (Some a'), w') /\
    ad_Status a' = AddonDeployed /\ ad_meta a' = ad_meta a /\ ad_Spec a' = ad_Spec a /\
    condTrue AddonOperationInProgress a' = false /\
    condTrue AddonOperationCompleted a' = true /\
    condTrue AddonOperationFailed a' = false /\ aw_charts w' = aw_charts w.
Proof using Q.
  intros Hd He Hs Hf Hc Hn Hj Ht Hle Hcomp Hsucc. rewrite monitor_run, He by done.
  unfold processEnabledAddons, str_in.
  rewrite (bool_decide_eq_false_2 (_ ∈ [AddonDisabled; AddonInitState]))
    by (intros H; apply elem_of_cons in Hs as [Hs|Hs%list_elem_of_singleton];
        rewrite Hs in H; set_solver).
  rewrite bool_decide_eq_true_2 by done.
  unfold processEnablingAddon, fmap, M_fmap, mbind, M_bind. rewrite getChart_run, Hc, Hf.
  unfold reconcileCurrentInstallationJob, currentInstallationJob, getJob, jobCache_Get,
    mbind, M_bind. apply String.eqb_neq in Hn. rewrite Hn, (aq_jobGet E Q), Hj, Ht.
  unfold mret, M_ret. apply Z.leb_le in Hle. rewrite Hle, Hcomp, Hf, andb_false_r.
  cbn [negb orb]. apply Z.ltb_lt in Hsucc. rewrite Hsucc, UpdateStatus_run.
  match goal with |- context [markCompletedCondition ?t ?b] =>
    destruct (markCompleted_status t b) as (C1 & C2 & C3) end.
  eexists _, _. split; [done|]. unfold condTrue, Cond.IsTrue. simpl in *. rewrite C1, C2, C3.
  split_and!; try done; by destruct (0 <? jst_Failed (job_status j)).
Qed.

Lemma markInProgress_TS t a :
  Cond.getTS (ad_Conditions (markInProgressCondition t a)) AddonOperationInProgress
    = time_format t.
Proof.
  unfold markInProgressCondition. simpl.
  rewrite Cond.getTS_setMessage, Cond.getTS_setReason, Cond.getTS_setStatus by done.
  apply Cond.getTS_setTS_setStatus.
Qed.
End Runs.

Lemma findChart_app ns n l c w :
  findChart ns n w = None -> isObj ns n (hc_meta c) = true ->
  aw_charts l = aw_charts w ++ [c] -> findChart ns n l = Some c.
Proof.
  unfold findChart. intros H Hc ->. induction (aw_charts w) as [|x xs IH]; simpl in *.
  - by rewrite Hc.
  - destruct (isObj ns n (hc_meta x)); [done|]. auto.
Qed.

Lemma isObj_refl m : isObj (om_Namespace m) (om_Name m) m = true.
Proof. unfold isObj. by rewrite !String.eqb_refl. Qed.

(** The first and the second pass over an addon to be enabled. *)
Lemma enable_first {T : Rfc3339} E (Q : aquiet E) a w :
  om_DeletionTimestamp (ad_meta a) = None -> as_Enabled (ad_Spec a) = true ->
  ad_Status a ∈ [AddonDisabled; AddonInitState] -> condTrue AddonOperationInProgress a = false ->
  findChart (ad_Namespace a) (ad_Name a) w = None ->
  exists w', MonitorAddonPerStatus E (Some a) w
               = (Ok (Some (markInProgressCondition (ae_now E) a)), w') /\
    aw_charts w' = aw_charts w.
Proof.
  intros Hd He Hs Hp Hc. rewrite monitor_run, He by done.
  unfold processEnabledAddons, str_in. rewrite bool_decide_eq_true_2 by done.
  unfold processEnableAddon, fmap, M_fmap, mbind, M_bind.
  rewrite getChart_run, Hc, Hp by done. cbn [negb]. rewrite UpdateStatus_run by done.
  by eexists.
Qed.

Lemma enable_second {T : Rfc3339} E (Q : aquiet E) a w vals :
  om_DeletionTimestamp (ad_meta a) = None -> as_Enabled (ad_Spec a) = true ->
  ad_Status a ∈ [AddonDisabled; AddonInitState] -> condTrue AddonOperationInProgress a = true ->
  findChart (ad_Namespace a) (ad_Name a) w = None -> defaultValues E a = Ok vals ->
  exists w', MonitorAddonPerStatus E (Some a) w = (Ok (Some (set_Status AddonEnabling a)), w') /\
    aw_charts w' = aw_charts w ++ [newHelmChart a vals].
Proof.
  intros Hd He Hs Hp Hc Hv. rewrite monitor_run, He by done.
  unfold processEnabledAddons, str_in. rewrite bool_decide_eq_true_2 by done.
  unfold processEnableAddon, fmap, M_fmap, mbind, M_bind. rewrite getChart_run, Hc, Hp by done.
  unfold deployHelmChart, mapErr, mbind, M_bind, lift, helm_Create, apiWrite.
  rewrite Hv, (aq_helmCreate E Q). simpl. rewrite UpdateStatus_run by done. by eexists.
Qed.

(** An enabled addon gets deployed.  Without API failures, for an addon that is
    enabled, new or disabled, idle, and has no chart: the first pass marks the
    operation in progress; the second creates the addon's chart, with the addon's
    spec and values and owned by it, and moves to Enabling; and once the helm
    controller has a complete, successful job for the chart that is not older than
    the first pass, the third pass moves to Deployed with only Completed set. *)
Theorem enable_lifecycle {T : Rfc3339} E1 E2 E3 a w vals :
  aquiet E1 -> aquiet E2 -> aquiet E3 ->
  om_DeletionTimestamp (ad_meta a) = None -> as_Enabled (ad_Spec a) = true ->
  ad_Status a ∈ [AddonDisabled; AddonInitState] -> condTrue AddonOperationInProgress a = false ->
  findChart (ad_Namespace a) (ad_Name a) w = None -> defaultValues E2 a = Ok vals ->
  exists a1 w1 a2 w2,
    MonitorAddonPerStatus E1 (Some a) w = (Ok (Some a1), w1) /\
    MonitorAddonPerStatus E2 (Some a1) w1 = (Ok (Some a2), w2) /\
    ad_Status a2 = AddonEnabling /\
    findChart (ad_Namespace a) (ad_Name a) w2 = Some (newHelmChart a vals) /\
    existsb (owns a) (om_OwnerReferences (hc_meta (newHelmChart a vals))) = true /\
    forall w3 hc j,
      findChart (ad_Namespace a) (ad_Name a) w3 = Some hc -> hc_JobName hc <> "" ->
      findJob (hc_Namespace hc) (hc_JobName hc) w3 = Some j ->
      ae_now E1 <= om_CreationTimestamp (job_meta j) -> isJobComplete j = true ->
      0 < jst_Succeeded (job_status j) ->
      exists a3 w4, MonitorAddonPerStatus E3 (Some a2) w3 = (Ok (Some a3), w4) /\
        ad_Status a3 = AddonDeployed /\ condTrue AddonOperationInProgress a3 = false /\
        condTrue AddonOperationCompleted a3 = true /\ condTrue AddonOperationFailed a3 = false.
Proof.
  intros Q1 Q2 Q3 Hd He Hs Hp Hc Hv.
  destruct (enable_first E1 Q1 a w Hd He Hs Hp Hc) as (w1 & R1 & Hw1).
  destruct (markInProgress_status (ae_now E1) a) as (S1 & _ & S3).
  pose proof (markInProgress_TS (ae_now E1) a) as S4.
  set (a1 := markInProgressCondition (ae_now E1) a) in *.
  destruct (enable_second E2 Q2 a1 w1 vals) as (w2 & R2 & Hw2); try done.
  { unfold condTrue, Cond.IsTrue. by rewrite S1. }
  { unfold findChart. by rewrite Hw1. }
  exists a1, w1, (set_Status AddonEnabling a1), w2. split_and!; try done.
  - eapply findChart_app; [exact Hc| |by rewrite Hw2, Hw1]. unfold isObj. simpl.
    by rewrite !String.eqb_refl.
  - simpl. unfold owns. simpl. by rewrite !String.eqb_refl.
  - intros w3 hc j Hc3 Hn Hj Hle Hcomp Hsucc.
    destruct (enabling_run E3 Q3 (set_Status AddonEnabling a1) w3 hc j (ae_now E1))
      as (a3 & w4 & R3 & H1 & _ & _ & H2 & H3 & H4 & _); try done.
    + by left.
    + unfold condTrue, Cond.IsTrue.
      change (ad_Conditions (set_Status AddonEnabling a1)) with (ad_Conditions a1). by rewrite S3.
    + change (ad_Conditions (set_Status AddonEnabling a1)) with (ad_Conditions a1).
      rewrite S4. apply time_roundtrip.
    + by exists a3, w4.
Qed.

Lemma findChart_put ns n w c c' :
  findChart ns n w = Some c -> hc_meta c' = hc_meta c ->
  List.find (fun o => isObj ns n (hc_meta o)) (putChart c' (aw_charts w)) = Some c'.
Proof.
  unfold findChart, putChart. intros H Hm. pose proof H as [_ Ho]%find_some.
  induction (aw_charts w) as [|x xs IH]; simpl in *; [done|].
  destruct (isObj (hc_Namespace c') (hc_Name c') (hc_meta x)) eqn:Ex; simpl.
  - by rewrite Hm, Ho.
  - destruct (isObj ns n (hc_meta x)) eqn:Ex2; [|auto]. injection H as ->.
    unfold hc_Namespace, hc_Name in Ex. by rewrite Hm, isObj_refl in Ex.
Qed.

(** The spec of a chart after an upgrade. *)
Definition upgraded (a : Addon) (vals : string) (hc : HelmChart) : HelmChart :=
  mkHC (hc_meta hc) (as_Chart (ad_Spec a)) (as_Repo (ad_Spec a)) vals
    (as_Version (ad_Spec a)) (hc_BackOffLimit hc) (hc_JobName hc).

Lemma deployed_run {T : Rfc3339} E (Q : aquiet E) a w :
  om_DeletionTimestamp (ad_meta a) = None -> as_Enabled (ad_Spec a) = true ->
  ad_Status a = AddonDeployed ->
  MonitorAddonPerStatus E (Some a) w = (Some <$> processAddonUpgrades E a) w.
Proof.
  intros Hd He Hs. rewrite monitor_run, He by done. unfold processEnabledAddons.
  rewrite Hs. done.
Qed.

Lemma upgrade_first {T : Rfc3339} E (Q : aquiet E) a w hc vals :
  om_DeletionTimestamp (ad_meta a) = None -> as_Enabled (ad_Spec a) = true ->
  ad_Status a = AddonDeployed -> condTrue AddonOperationInProgress a = false ->
  findChart (ad_Namespace a) (ad_Name a) w = Some hc ->
  isHelmchartUpdateNeeded E a hc = Ok (true, vals) ->
  exists w', MonitorAddonPerStatus E (Some a) w
               = (Ok (Some (markInProgressCondition (ae_now E) a)), w') /\
    aw_charts w' = aw_charts w.
Proof.
  intros Hd He Hs Hp Hc Hn. rewrite deployed_run by done.
  unfold processAddonUpgrades, fmap, M_fmap, mbind, M_bind, lift.
  rewrite getChart_run, Hc, Hn, Hs, Hp by done.
  change (negb (String.eqb AddonDeployed AddonUpdating) && negb false) with true. cbv beta iota.
  rewrite UpdateStatus_run by done. by eexists.
Qed.

Lemma upgrade_second {T : Rfc3339} E (Q : aquiet E) a w hc vals :
  om_DeletionTimestamp (ad_meta a) = None -> as_Enabled (ad_Spec a) = true ->
  ad_Status a = AddonDeployed -> condTrue AddonOperationInProgress a = true ->
  findChart (ad_Namespace a) (ad_Name a) w = Some hc ->
  isHelmchartUpdateNeeded E a hc = Ok (true, vals) ->
  exists w', MonitorAddonPerStatus E (Some a) w = (Ok (Some (set_Status AddonUpdating a)), w') /\
    aw_charts w' = putChart (upgraded a vals hc) (aw_charts w).
Proof.
  intros Hd He Hs Hp Hc Hn. rewrite deployed_run by done.
  unfold processAddonUpgrades, fmap, M_fmap, mbind, M_bind, lift.
  rewrite getChart_run, Hc, Hn, Hs, Hp by done.
  change (negb (String.eqb AddonDeployed AddonUpdating) && negb true) with false.
  change (negb (String.eqb AddonDeployed AddonUpdating) && true) with true. cbv beta iota.
  rewrite getChart_run, Hc by done. unfold helm_Update, apiWrite. rewrite (aq_helmUpdate E Q).
  rewrite UpdateStatus_run by done. by eexists.
Qed.

(** Values and needs depend on the spec, the annotations and the decoder only. *)
Lemma defaultValues_ext E1 E2 a a' :
  (forall s, ae_base64 E1 s = ae_base64 E2 s) -> ad_Spec a' = ad_Spec a -> ad_meta a' = ad_meta a ->
  defaultValues E2 a' = defaultValues E1 a.
Proof.
  intros HB Hsp Hm. unfold defaultValues, ad_Annotations. rewrite Hsp, Hm.
  destruct (negb _); [done|]. destruct (gm_get _ _); [|done]. by rewrite HB.
Qed.

Lemma isNeeded_base64 E1 E2 a a' hc :
  (forall s, ae_base64 E1 s = ae_base64 E2 s) -> ad_Spec a' = ad_Spec a -> ad_meta a' = ad_meta a ->
  isHelmchartUpdateNeeded E2 a' hc = isHelmchartUpdateNeeded E1 a hc.
Proof.
  intros HB Hsp Hm. unfold isHelmchartUpdateNeeded.
  by rewrite (defaultValues_ext E1 E2 a a'), Hsp.
Qed.

Lemma isNeeded_no E1 E2 a a' hc hc0 vals b :
  (forall s, ae_base64 E1 s = ae_base64 E2 s) -> ad_Spec a' = ad_Spec a -> ad_meta a' = ad_meta a ->
  isHelmchartUpdateNeeded E1 a hc0 = Ok (b, vals) -> upgraded a vals hc = hc ->
  isHelmchartUpdateNeeded E2 a' hc = Ok (false, vals).
Proof.
  intros HB Hsp Hm Hv%isNeeded_values <-. unfold isHelmchartUpdateNeeded.
  rewrite (defaultValues_ext E1 E2 a a'), Hv, Hsp by done. simpl. by rewrite !String.eqb_refl.
Qed.

(** A changed addon gets upgraded.  Without API failures, for an enabled, deployed,
    idle addon whose chart differs from its spec: the first pass marks the operation
    in progress, the second writes the addon's chart name, repository, version and
    values to the chart, keeping the rest, and moves to Updating; once a complete,
    successful job not older than the first pass exists, the third moves back to
    Deployed; and with the chart as written, a further pass does nothing. *)
Theorem upgrade_lifecycle {T : Rfc3339} E1 E2 E3 E4 a w hc vals :
  aquiet E1 -> aquiet E2 -> aquiet E3 -> aquiet E4 ->
  (forall s, ae_base64 E1 s = ae_base64 E2 s) -> (forall s, ae_base64 E1 s = ae_base64 E4 s) ->
  om_DeletionTimestamp (ad_meta a) = None -> as_Enabled (ad_Spec a) = true ->
  ad_Status a = AddonDeployed -> condTrue AddonOperationInProgress a = false ->
  findChart (ad_Namespace a) (ad_Name a) w = Some hc ->
  isHelmchartUpdateNeeded E1 a hc = Ok (true, vals) ->
  exists a1 w1 a2 w2,
    MonitorAddonPerStatus E1 (Some a) w = (Ok (Some a1), w1) /\
    MonitorAddonPerStatus E2 (Some a1) w1 = (Ok (Some a2), w2) /\
    ad_Status a2 = AddonUpdating /\
    findChart (ad_Namespace a) (ad_Name a) w2 = Some (upgraded a vals hc) /\
    forall w3 hc' j,
      findChart (ad_Namespace a) (ad_Name a) w3 = Some hc' ->
      upgraded a vals hc' = hc' -> hc_JobName hc' <> "" ->
      findJob (hc_Namespace hc') (hc_JobName hc') w3 = Some j ->
      ae_now E1 <= om_CreationTimestamp (job_meta j) -> isJobComplete j = true ->
      0 < jst_Succeeded (job_status j) ->
      exists a3 w4, MonitorAddonPerStatus E3 (Some a2) w3 = (Ok (Some a3), w4) /\
        ad_Status a3 = AddonDeployed /\ condTrue AddonOperationCompleted a3 = true /\
        condTrue AddonOperationInProgress a3 = false /\
        MonitorAddonPerStatus E4 (Some a3) w4 = (Ok (Some a3), w4).
Proof.
  intros Q1 Q2 Q3 Q4 B2 B4 Hd He Hs Hp Hc Hn.
  destruct (upgrade_first E1 Q1 a w hc vals Hd He Hs Hp Hc Hn) as (w1 & R1 & Hw1).
  destruct (markInProgress_status (ae_now E1) a) as (S1 & _ & S3).
  pose proof (markInProgress_TS (ae_now E1) a) as S4.
  set (a1 := markInProgressCondition (ae_now E1) a) in *.
  destruct (upgrade_second E2 Q2 a1 w1 hc vals) as (w2 & R2 & Hw2); try done.
  { unfold condTrue, Cond.IsTrue. by rewrite S1. }
  { unfold findChart. by rewrite Hw1. }
  { rewrite <- Hn. by apply isNeeded_base64. }
  exists a1, w1, (set_Status AddonUpdating a1), w2. split_and!; try done.
  { unfold findChart. rewrite Hw2, Hw1. by eapply findChart_put. }
  intros w3 hc' j Hc3 Hup Hj0 Hj Hle Hcomp Hsucc.
  destruct (enabling_run E3 Q3 (set_Status AddonUpdating a1) w3 hc' j (ae_now E1))
    as (a3 & w4 & R3 & H1 & Hm & Hsp & H2 & H3 & H4 & Hw4); try done.
  { by right; left. }
  { unfold condTrue, Cond.IsTrue.
    change (ad_Conditions (set_Status AddonUpdating a1)) with (ad_Conditions a1). by rewrite S3. }
  { change (ad_Conditions (set_Status AddonUpdating a1)) with (ad_Conditions a1).
    rewrite S4. apply time_roundtrip. }
  exists a3, w4. split_and!; try done.
  rewrite deployed_run by (by rewrite ?Hm, ?Hsp). unfold processAddonUpgrades, fmap, M_fmap,
    mbind, M_bind. rewrite getChart_run by done. unfold ad_Namespace, ad_Name, findChart.
  rewrite Hm, Hw4. simpl. unfold findChart, ad_Namespace, ad_Name in Hc3. rewrite Hc3.
  unfold lift. by rewrite (isNeeded_no E1 E4 a a3 hc' hc vals true).
Qed.

Lemma disabled_run {T : Rfc3339} E a w :
  om_DeletionTimestamp (ad_meta a) = None -> as_Enabled (ad_Spec a) = false ->
  MonitorAddonPerStatus E (Some a) w = (Some <$> processDisabledAddons E a) w.
Proof. intros Hd He. by rewrite monitor_run, He. Qed.

Lemma disabling_run {T : Rfc3339} E a w :
  om_DeletionTimestamp (ad_meta a) = None -> as_Enabled (ad_Spec a) = false ->
  ad_Status a = AddonDisabling ->
  MonitorAddonPerStatus E (Some a) w = (Some <$> waitForAddonDisable E a) w.
Proof.
  intros Hd He Hs. rewrite disabled_run by done. unfold processDisabledAddons. by rewrite Hs.
Qed.

(** The last pass of a removal. *)
Lemma disable_finish {T : Rfc3339} E (Q : aquiet E) a w :
  om_DeletionTimestamp (ad_meta a) = None -> as_Enabled (ad_Spec a) = false ->
  ad_Status a = AddonDisabling ->
  (findChart (ad_Namespace a) (ad_Name a) w = None \/
   removed a w /\ forall c, findChart (ad_Namespace a) (ad_Name a) w = Some c ->
                     Contains (hc_JobName c) helmChartJobDeletePrefix = true) ->
  exists a' w', MonitorAddonPerStatus E (Some a) w = (Ok (Some a'), w') /\
    ad_Status a' = AddonDisabled /\ condTrue AddonOperationInProgress a' = false /\
    condTrue AddonOperationCompleted a' = true /\ condTrue AddonOperationFailed a' = false.
Proof.
  intros Hd He Hs H. rewrite disabling_run by done.
  unfold waitForAddonDisable, fmap, M_fmap, mbind, M_bind. rewrite getChart_run by done.
  assert (Hmark : forall b w', exists a' w'',
    addon_UpdateStatus E (set_Status AddonDisabled (markCompletedCondition (ae_now E) b)) w'
      = (Ok a', w'') /\
    ad_Status a' = AddonDisabled /\ condTrue AddonOperationInProgress a' = false /\
    condTrue AddonOperationCompleted a' = true /\ condTrue AddonOperationFailed a' = false).
  { intros b w'. rewrite UpdateStatus_run by done. eexists _, _. split; [done|].
    destruct (markCompleted_status (ae_now E) b) as (C1 & C2 & C3).
    unfold condTrue, Cond.IsTrue.
    change (ad_Conditions (set_Status ?s ?x)) with (ad_Conditions x). rewrite C1, C2, C3. done. }
  destruct H as [Hc|[(hc & j & d & Hc & Ho & Hdl & Hj & Hle & Hcomp & Hsucc) Hpre]].
  - rewrite Hc. destruct (Hmark a w) as (a' & w' & -> & H). eauto.
  - rewrite Hc, Ho, Hdl, (Hpre hc Hc). cbn [negb].
    unfold currentDeletionJob, getJob, jobCache_Get, mbind, M_bind.
    assert (Hn : String.eqb (hc_JobName hc) "" = false).
    { apply String.eqb_neq. intros Hn. pose proof (Hpre hc Hc) as Hp. by rewrite Hn in Hp. }
    rewrite Hn, (aq_jobGet E Q), Hj, Hdl. unfold mret, M_ret. apply Z.leb_le in Hle.
    rewrite Hle, Hcomp. cbn [negb]. apply Z.ltb_lt in Hsucc. rewrite Hsucc.
    match goal with |- context [markCompletedCondition _ ?b] =>
      destruct (Hmark b w) as (a' & w' & -> & H) end. eauto.
Qed.

(** A disabled addon gets removed.  Without API failures, for a disabled addon in any
    status but Disabling and Disabled, with no operation in progress and an owned chart
    that is not being deleted: the first pass moves to Disabling, the second deletes
    the chart and sets InProgress; and when later the chart is gone, or is being
    deleted with a complete, successful deletion job that is not older than the
    deletion, a pass moves to Disabled with only Completed set. *)
Theorem disable_lifecycle {T : Rfc3339} E1 E2 E3 a w hc :
  aquiet E1 -> aquiet E2 -> aquiet E3 ->
  om_DeletionTimestamp (ad_meta a) = None -> as_Enabled (ad_Spec a) = false ->
  ad_Status a <> AddonDisabling -> ad_Status a <> AddonDisabled ->
  condTrue AddonOperationInProgress a = false ->
  findChart (ad_Namespace a) (ad_Name a) w = Some hc ->
  existsb (owns a) (om_OwnerReferences (hc_meta hc)) = true ->
  om_DeletionTimestamp (hc_meta hc) = None ->
  exists a1 w1 a2 w2,
    MonitorAddonPerStatus E1 (Some a) w = (Ok (Some a1), w1) /\ ad_Status a1 = AddonDisabling /\
    MonitorAddonPerStatus E2 (Some a1) w1 = (Ok (Some a2), w2) /\
    condTrue AddonOperationInProgress a2 = true /\
    aw_charts w2 = dropChart E2 hc (aw_charts w) /\
    forall w3,
      (findChart (ad_Namespace a) (ad_Name a) w3 = None \/
       removed a w3 /\ forall c, findChart (ad_Namespace a) (ad_Name a) w3 = Some c ->
                         Contains (hc_JobName c) helmChartJobDeletePrefix = true) ->
      exists a3 w4, MonitorAddonPerStatus E3 (Some a2) w3 = (Ok (Some a3), w4) /\
        ad_Status a3 = AddonDisabled /\ condTrue AddonOperationInProgress a3 = false /\
        condTrue AddonOperationCompleted a3 = true /\ condTrue AddonOperationFailed a3 = false.
Proof.
  intros Q1 Q2 Q3 Hd He Hs1 Hs2 Hp Hc Ho Hdel.
  apply String.eqb_neq in Hs1, Hs2.
  set (a1 := set_Status AddonDisabling a).
  set (a2 := set_Conditions (Cond.setStatus (time_format (ae_now E2)) ConditionTrue
                     (ad_Conditions a1) AddonOperationInProgress) a1).
  assert (R1 : MonitorAddonPerStatus E1 (Some a) w
               = (Ok (Some a1), setAddons (putStatus a1) w)).
  { rewrite disabled_run by done. unfold processDisabledAddons, fmap, M_fmap.
    rewrite Hs1, Hs2, Hp. cbn [negb andb]. by rewrite UpdateStatus_run. }
  assert (R2 : exists w2, MonitorAddonPerStatus E2 (Some a1) (setAddons (putStatus a1) w)
               = (Ok (Some a2), w2) /\ aw_charts w2 = dropChart E2 hc (aw_charts w)).
  { rewrite disabling_run by done. unfold waitForAddonDisable, fmap, M_fmap, mbind, M_bind.
    rewrite getChart_run by done. change (findChart _ _ _) with (findChart (ad_Namespace a) (ad_Name a) w).
    rewrite Hc. change (existsb (owns a1)) with (existsb (owns a)). rewrite Ho, Hdel.
    unfold mapErr, helm_Delete, apiWrite. rewrite (aq_helmDelete E2 Q2), UpdateStatus_run by done.
    by eexists. }
  destruct R2 as (w2 & R2 & Hw2). exists a1, (setAddons (putStatus a1) w), a2, w2.
  split_and!; try done.
  { unfold condTrue, Cond.IsTrue, a2. simpl. rewrite Cond.getStatus_setStatus. by case_decide. }
  intros w3 Hw3. eapply (disable_finish E3 Q3 a2); done.
Qed.

(** Two states an addon stays in.  A pass over an enabled addon that is Enabling or
    Updating with OperationFailed set, or that is Disabling, changes nothing, enqueues
    nothing and returns the addon as it is. *)
Lemma stuck_run {T : Rfc3339} E a w :
  aquiet E -> om_DeletionTimestamp (ad_meta a) = None -> as_Enabled (ad_Spec a) = true ->
  ad_Status a ∈ [AddonEnabling; AddonUpdating] /\ condTrue AddonOperationFailed a = true
    \/ ad_Status a = AddonDisabling ->
  MonitorAddonPerStatus E (Some a) w = (Ok (Some a), w).
Proof.
  intros Q Hd He H. rewrite monitor_run, He by done. unfold processEnabledAddons, str_in.
  destruct H as [[Hs Hf]|Hs].
  - rewrite (bool_decide_eq_false_2 (_ ∈ [AddonDisabled; AddonInitState]))
      by (intros H; apply elem_of_cons in Hs as [Hs|Hs%list_elem_of_singleton];
          rewrite Hs in H; set_solver).
    rewrite bool_decide_eq_true_2 by done.
    unfold processEnablingAddon, fmap, M_fmap, mbind, M_bind. rewrite getChart_run by done.
    destruct (findChart _ _ w); by rewrite Hf.
  - by rewrite Hs.
Qed.

(** The reclaim policy of the volume behind a claim. *)
Lemma retain_writes E ns name w :
  aw_pvs (patchGrafanaPVReclaimPolicy E ns name w).2 = aw_pvs w \/
  exists n pv, findPV n w = Some pv /\
    aw_pvs (patchGrafanaPVReclaimPolicy E ns name w).2 =
      putPV (mkPV (pv_Name pv) PersistentVolumeReclaimRetain (pv_Phase pv) (pv_ClaimRefUID pv))
        (aw_pvs w).
Proof.
  unfold patchGrafanaPVReclaimPolicy, mbind, M_bind, try, pvcCache_Get.
  destruct (ae_pvcGet E ns name) as [e|]; [left; by destruct (IsNotFound e)|].
  destruct (List.find _ (aw_pvcs w)) as [pvc|]; [|by left].
  unfold mapErr, pvCache_Get. destruct (ae_pvGet E _); [by left|].
  destruct (findPV _ w) as [pv|] eqn:Ef; [|by left].
  destruct (String.eqb _ _); [by left|]. unfold pv_Update, apiWrite.
  destruct (ae_pvUpdate E _); [by left|]. right. eauto.
Qed.

(** Whatever follows it, the volumes stay. *)
Lemma annotate_pvs E a (r : outcome (bool * string) * AWorld) :
  aw_pvs (match r with
          | (Ok p, s') => (let '(_, pvname) := p in
               if negb (String.eqb pvname "") then annotateGrafanaPVName E pvname (Some a)
               else mret (Some a)) s'
          | (Err e, s') => (Err e, s')
          | (Panic, s') => (Panic, s')
          end).2 = aw_pvs r.2.
Proof.
  destruct r as [[[b pvname]|e|] s]; [|done|done].
  destruct (negb _); [|done]. unfold annotateGrafanaPVName.
  destruct (bool_decide _); [done|]. destruct (_ && _); [done|].
  unfold fmap, M_fmap, addon_Update, apiWrite. by destruct (ae_addonUpdate E _).
Qed.

Lemma gm_set_same {V} (m : gomap V) k v : gm_get m k = Some v -> gm_set m k v = m.
Proof. destruct m as [g|]; simpl; [|done]. intros H. by rewrite insert_id. Qed.

Lemma gm_set_twice {V} (m : gomap V) k v : gm_set (gm_set m k v) k v = gm_set m k v.
Proof. apply gm_set_same. by rewrite gm_get_set_eq. Qed.

Lemma patchApp_run E (Hu : forall x, ae_appUpdate E x = None) app an w :
  app_Chart app = Some (Some an) ->
  exists app' w', patchApp E app w = (Ok (Some app'), w') /\
    app_meta app' = app_meta app /\
    app_Chart app' = Some (Some (gm_set an managedChartKey "true")) /\
    (gm_get an managedChartKey = Some "true" -> app' = app /\ w' = w) /\
    aw_addons w' = aw_addons w /\ patchApp E app' w' = (Ok (Some app'), w').
Proof.
  intros Ec. destruct app as [m ch]. simpl in Ec. subst ch.
  assert (Hfix : forall s, patchApp E (mkApp m (Some (Some (gm_set an managedChartKey "true")))) s
    = (Ok (Some (mkApp m (Some (Some (gm_set an managedChartKey "true"))))), s)).
  { intros s. unfold patchApp. simpl. rewrite gm_set_twice. by rewrite bool_decide_eq_true_2. }
  destruct (decide (gm_get an managedChartKey = Some "true")) as [Hg|Hg].
  - rewrite (gm_set_same _ _ _ Hg) in *. eexists _, w. by split_and!.
  - unfold patchApp. simpl. rewrite bool_decide_eq_false_2.
    + unfold fmap, M_fmap, app_Update, apiWrite. rewrite Hu. eexists _, _.
      split; [done|]. by split_and!.
    + intros [= He]. apply Hg. rewrite <- He. apply gm_get_set_eq.
Qed.

(** The monitoring handler touches at most one volume, and only in two ways: the
    volume behind Grafana's claim is set to be retained, for an enabled and deployed
    addon; or the claim of the recorded volume is released, for a disabled addon, only
    when the volume is retained and Released.  It never makes a volume deletable and
    never frees a bound one. *)
Theorem grafana_volume_writes E a w :
  aw_pvs (MonitorAddonRancherMonitoring E (Some a) w).2 = aw_pvs w \/
  exists name pv, findPV name w = Some pv /\
    (as_Enabled (ad_Spec a) = true /\ ad_Status a = AddonDeployed /\
     aw_pvs (MonitorAddonRancherMonitoring E (Some a) w).2 =
       putPV (mkPV (pv_Name pv) PersistentVolumeReclaimRetain (pv_Phase pv) (pv_ClaimRefUID pv))
         (aw_pvs w)
     \/ as_Enabled (ad_Spec a) = false /\ ad_Status a = AddonDisabled /\
     gm_str (ad_Annotations a) AnnotationGrafanaPVName = name /\
     pv_ReclaimPolicy pv = PersistentVolumeReclaimRetain /\ pv_Phase pv = VolumeReleased /\
     aw_pvs (MonitorAddonRancherMonitoring E (Some a) w).2 =
       putPV (mkPV (pv_Name pv) (pv_ReclaimPolicy pv) (pv_Phase pv) (Some "")) (aw_pvs w)).
Proof.
  unfold MonitorAddonRancherMonitoring. destruct (bool_decide _); [by left|].
  destruct (_ || _); [by left|].
  destruct (as_Enabled (ad_Spec a)) eqn:He; simpl.
  - destruct (String.eqb_spec (ad_Status a) AddonDeployed) as [Hs|]; [|by left].
    unfold mbind at 1 3, M_bind at 1 3.
    destruct (retain_writes E CattleMonitoringSystemNamespaceName GrafanaPVCName w)
      as [Hw|(name & pv & Hf & Hw)].
    + left. rewrite <- Hw. apply annotate_pvs.
    + right. exists name, pv. split; [done|]. left. split_and!; try done. rewrite <- Hw.
      apply annotate_pvs.
  - destruct (String.eqb_spec (ad_Status a) AddonDisabled) as [Hs|]; [|by left].
    unfold patchGrafanaPVClaimRef. destruct (bool_decide _); [by left|].
    destruct (String.eqb _ ""); [by left|]. unfold mbind, M_bind, try, pvCache_Get, mapErr.
    destruct (ae_pvGet E _) as [e|]; [left; by destruct (IsNotFound e)|].
    destruct (findPV _ w) as [pv|] eqn:Ef; [|by left].
    destruct (String.eqb_spec (pv_ReclaimPolicy pv) PersistentVolumeReclaimRetain) as [Hr|];
      [|by left].
    destruct (pv_ClaimRefUID pv); [|by left]. destruct (String.eqb _ ""); [by left|].
    destruct (String.eqb _ VolumeAvailable); [by left|].
    destruct (String.eqb_spec (pv_Phase pv) VolumeReleased) as [Hp|]; [|by left].
    unfold pv_Update, apiWrite. simpl. destruct (ae_pvUpdate E _); [by left|].
    right. eexists _, pv. split; [exact Ef|]. right. by split_and!.
Qed.

(** Apps of addons, and the two apps of rancher, are marked as managed: on an app
    with chart metadata, without API failures, the handler returns the app annotated
    managed with every other annotation kept, writes it if it was not annotated, and
    does nothing the second time; an app without chart metadata makes it panic; an
    app that is neither is returned untouched. *)
Theorem PatchApps_spec E key app w :
  (forall x, ae_appUpdate E x = None) -> (forall ns n, ae_addonGet E ns n = None) ->
  om_DeletionTimestamp (app_meta app) = None ->
  (str_in key additionalApps = true \/
     is_Some (findAddon (om_Namespace (app_meta app)) (om_Name (app_meta app)) w) ->
   match app_Chart app with
   | Some (Some an) =>
       exists app' w', PatchApps E key (Some app) w = (Ok (Some app'), w') /\
         app_meta app' = app_meta app /\
         app_Chart app' = Some (Some (gm_set an managedChartKey "true")) /\
         (gm_get an managedChartKey = Some "true" -> app' = app /\ w' = w) /\
         PatchApps E key (Some app') w' = (Ok (Some app'), w')
   | _ => PatchApps E key (Some app) w = (Panic, w)
   end) /\
  (str_in key additionalApps = false ->
   findAddon (om_Namespace (app_meta app)) (om_Name (app_meta app)) w = None ->
   PatchApps E key (Some app) w = (Ok (Some app), w)).
Proof.
  intros Hu Hg Hd.
  assert (Hrun : forall x s, om_DeletionTimestamp (app_meta x) = None ->
    app_meta x = app_meta app -> aw_addons s = aw_addons w ->
    str_in key additionalApps = true \/
      is_Some (findAddon (om_Namespace (app_meta app)) (om_Name (app_meta app)) w) ->
    PatchApps E key (Some x) s = patchApp E x s).
  { intros x s Hx Hm Ha Hor. unfold PatchApps. rewrite Hx.
    rewrite bool_decide_eq_false_2 by (by intros [? [=]]).
    destruct (str_in key additionalApps); [done|]. destruct Hor as [|[ad Hf]]; [done|].
    unfold mbind, M_bind, try, addonCache_Get. rewrite Hg, Hm. unfold findAddon in *.
    by rewrite Ha, Hf. }
  split.
  - intros Hor. destruct (app_Chart app) as [[an|]|] eqn:Ec;
      [|by rewrite (Hrun app w) by done; unfold patchApp; rewrite Ec..].
    destruct (patchApp_run E Hu app an w Ec) as (app' & w' & R & Hm & Hc & Hid & Hn & R2).
    exists app', w'. split_and!; try done.
    + by rewrite (Hrun app w).
    + rewrite (Hrun app' w'); [done|by rewrite Hm|done|done|done].
  - intros Hk Hf. unfold PatchApps. rewrite Hd.
    rewrite bool_decide_eq_false_2 by (by intros [? [=]]). rewrite Hk.
    unfold mbind, M_bind, try, addonCache_Get. by rewrite Hg, Hf.
Qed.

(** Ownership is not checked on upgrade.  For an enabled, deployed addon with the
    operation marked in progress, a chart that the addon does not own but that has its
    name is rewritten with the addon's spec as soon as it differs from it. *)
Theorem unowned_chart_overwritten {T : Rfc3339} E a w hc vals :
  aquiet E -> om_DeletionTimestamp (ad_meta a) = None -> as_Enabled (ad_Spec a) = true ->
  ad_Status a = AddonDeployed -> condTrue AddonOperationInProgress a = true ->
  findChart (ad_Namespace a) (ad_Name a) w = Some hc ->
  existsb (owns a) (om_OwnerReferences (hc_meta hc)) = false ->
  isHelmchartUpdateNeeded E a hc = Ok (true, vals) ->
  findChart (ad_Namespace a) (ad_Name a) (MonitorAddonPerStatus E (Some a) w).2
    = Some (upgraded a vals hc).
Proof.
  intros Q Hd He Hs Hp Hc _ Hn.
  destruct (upgrade_second E Q a w hc vals Hd He Hs Hp Hc Hn) as (w' & -> & Hw).
  unfold findChart. simpl. rewrite Hw. by eapply findChart_put.
Qed.

(** ** Witnesses *)

Module AddonExamples.
#[export] Instance rfc0 : Rfc3339 := {|
  time_format := @json_marshal Z (countable_codec Z);
  time_parse := @json_unmarshal Z (countable_codec Z);
  time_roundtrip := @json_roundtrip Z (countable_codec Z) |}.

Definition env (t : Z) : AEnv :=
  mkAEnv (fun _ _ => None) (fun _ => None) (fun _ => None) (fun _ => None) (fun _ => None)
    (fun _ _ => None) (fun _ => None) (fun _ => None) (fun _ _ => None) (fun _ => None)
    (fun _ _ => None) (fun _ => None) (fun _ => None) (fun s => Some s) t.

Lemma env_quiet t : aquiet (env t).
Proof. by constructor. Qed.
Lemma env_honest t : forall ns n e, ae_helmGet (env t) ns n = Some e -> IsNotFound e = false.
Proof. done. Qed.

Definition spec0 (enabled : bool) : AddonSpec := mkAddonSpec "repo" "chart" "2" enabled "v: 1".
Definition addon0 (enabled : bool) (status : string) (cs : list Condition) : Addon :=
  mkAddon "Addon" "harvesterhci.io/v1beta1" (mkMeta "mon" "" "ns" "u1" None None [] 0 None)
    (spec0 enabled) status cs.
Definition inProgress (t : Z) : list Condition :=
  [mkCond AddonOperationInProgress ConditionTrue (time_format t) "" ""].
(** A chart of version 1, of the addon or of nobody. *)
Definition chart0 (owned : bool) (del : option Z) (job : string) : HelmChart :=
  mkHC (mkMeta "mon" "" "ns" "" None None
          (if owned then [mkOwner "harvesterhci.io/v1beta1" "Addon" "mon" "u1"] else []) 0 del)
    "chart" "repo" "v: 1" "1" (Some 5) job.
Definition podSpec0 : PodSpec :=
  mkPodSpec false false false "" (mkAff [] []) [] "" [] "" [].
Definition job0 (name : string) (t : Z) : Job :=
  mkJob (mkMeta name "" "ns" "" None None [] t None)
    (mkJobSpec None None None None podSpec0) (mkJobStatus (Some t) [] 0 0 1).
Definition world0 (charts : list HelmChart) (jobs : list Job) : AWorld :=
  mkAWorld [] charts jobs [] [] [] [].
Definition app0 : App :=
  mkApp (mkMeta "mon" "" "ns" "" None None [] 0 None) (Some (Some None)).
End AddonExamples.
Import AddonExamples.

Lemma addon_state_machine_witness :
  exists a' w', MonitorAddonPerStatus (env 50) (Some (addon0 true AddonEnabling (inProgress 10)))
       (world0 [chart0 true None "j"] [job0 "j" 20]) = (Ok (Some a'), w') /\
    statusStep (addon0 true AddonEnabling (inProgress 10))
      (world0 [chart0 true None "j"] [job0 "j" 20]) a' /\ ad_Status a' = AddonDeployed.
Proof.
  destruct (enabling_run (env 50) (env_quiet 50) (addon0 true AddonEnabling (inProgress 10))
    (world0 [chart0 true None "j"] [job0 "j" 20]) (chart0 true None "j") (job0 "j" 20) 10)
    as (a' & w' & H & Hs & _); try done; try by_eval.
  exists a', w'. split; [exact H|]. split; [|exact Hs].
  exact (addon_state_machine (env 50) (env_honest 50) (addon0 true AddonEnabling (inProgress 10))
    (world0 [chart0 true None "j"] [job0 "j" 20]) a' w' eq_refl H).
Defined.

Lemma addon_chart_writes_witness :
  chartStep (env 50) (addon0 true AddonInitState [])
    (world0 [chart0 false None "j"] []) [chart0 false None "j"].
Proof.
  exact (proj1 (addon_chart_writes (env 50) (env_honest 50) (addon0 true AddonInitState [])
    (world0 [chart0 false None "j"] []))).
Defined.

Lemma enable_lifecycle_witness :
  exists a1 w1 a2 w2,
    MonitorAddonPerStatus (env 10) (Some (addon0 true AddonInitState [])) (world0 [] [])
      = (Ok (Some a1), w1) /\
    MonitorAddonPerStatus (env 12) (Some a1) w1 = (Ok (Some a2), w2) /\
    exists a3 w4, MonitorAddonPerStatus (env 50) (Some a2)
                    (world0 [chart0 true None "j"] [job0 "j" 20]) = (Ok (Some a3), w4) /\
      ad_Status a3 = AddonDeployed.
Proof.
  destruct (enable_lifecycle (env 10) (env 12) (env 50) (addon0 true AddonInitState [])
    (world0 [] []) "v: 1" (env_quiet _) (env_quiet _) (env_quiet _) eq_refl eq_refl
    ltac:(by_eval) eq_refl eq_refl eq_refl) as (a1 & w1 & a2 & w2 & H1 & H2 & _ & _ & _ & H3).
  exists a1, w1, a2, w2. split; [exact H1|]. split; [exact H2|].
  destruct (H3 (world0 [chart0 true None "j"] [job0 "j" 20]) (chart0 true None "j") (job0 "j" 20)
    eq_refl ltac:(done) eq_refl ltac:(by_eval) eq_refl ltac:(by_eval)) as (a3 & w4 & H4 & H5 & _).
  exists a3, w4. split; [exact H4|exact H5].
Defined.

Lemma upgrade_lifecycle_witness :
  exists a1 w1 a2 w2,
    MonitorAddonPerStatus (env 10) (Some (addon0 true AddonDeployed []))
      (world0 [chart0 true None "j"] []) = (Ok (Some a1), w1) /\
    MonitorAddonPerStatus (env 12) (Some a1) w1 = (Ok (Some a2), w2) /\
    ad_Status a2 = AddonUpdating.
Proof.
  destruct (upgrade_lifecycle (env 10) (env 12) (env 50) (env 60) (addon0 true AddonDeployed [])
    (world0 [chart0 true None "j"] []) (chart0 true None "j") "v: 1" (env_quiet _) (env_quiet _)
    (env_quiet _) (env_quiet _) ltac:(done) ltac:(done) eq_refl eq_refl eq_refl eq_refl eq_refl
    eq_refl) as (a1 & w1 & a2 & w2 & H1 & H2 & H3 & _).
  exists a1, w1, a2, w2. split; [exact H1|]. split; [exact H2|exact H3].
Defined.

Lemma disable_lifecycle_witness :
  exists a1 w1 a2 w2,
    MonitorAddonPerStatus (env 10) (Some (addon0 false AddonDeployed []))
      (world0 [chart0 true None "j"] []) = (Ok (Some a1), w1) /\
    MonitorAddonPerStatus (env 12) (Some a1) w1 = (Ok (Some a2), w2) /\
    exists a3 w4, MonitorAddonPerStatus (env 50) (Some a2) (world0 [] []) = (Ok (Some a3), w4) /\
      ad_Status a3 = AddonDisabled.
Proof.
  destruct (disable_lifecycle (env 10) (env 12) (env 50) (addon0 false AddonDeployed [])
    (world0 [chart0 true None "j"] []) (chart0 true None "j") (env_quiet _) (env_quiet _)
    (env_quiet _) eq_refl eq_refl ltac:(done) ltac:(done) eq_refl eq_refl eq_refl eq_refl)
    as (a1 & w1 & a2 & w2 & H1 & _ & H2 & _ & _ & H3).
  exists a1, w1, a2, w2. split; [exact H1|]. split; [exact H2|].
  destruct (H3 (world0 [] []) (or_introl eq_refl)) as (a3 & w4 & H4 & H5 & _).
  exists a3, w4. split; [exact H4|exact H5].
Defined.

Lemma PatchApps_spec_witness :
  exists app' w', PatchApps (env 10) "cattle-system/rancher" (Some app0) (world0 [] [])
      = (Ok (Some app'), w') /\
    app_Chart app' = Some (Some (Some {[ managedChartKey := "true" ]})).
Proof.
  destruct (proj1 (PatchApps_spec (env 10) "cattle-system/rancher" app0 (world0 [] [])
    (fun _ => eq_refl) (fun _ _ => eq_refl) eq_refl) (or_introl eq_refl))
    as (app' & w' & H1 & _ & H2 & _).
  exists app', w'. split; [exact H1|exact H2].
Defined.

Lemma unowned_chart_overwritten_witness :
  findChart "ns" "mon" (MonitorAddonPerStatus (env 10)
      (Some (addon0 true AddonDeployed (inProgress 5))) (world0 [chart0 false None "j"] [])).2
    = Some (upgraded (addon0 true AddonDeployed (inProgress 5)) "v: 1" (chart0 false None "j")).
Proof.
  exact (unowned_chart_overwritten (env 10) (addon0 true AddonDeployed (inProgress 5))
    (world0 [chart0 false None "j"] []) (chart0 false None "j") "v: 1" (env_quiet _) eq_refl
    eq_refl eq_refl eq_refl eq_refl eq_refl eq_refl).
Defined.
