(* ===== verification/CpuManager.v ===== *)
(** The CPU manager controller, [pkg/controller/master/node/cpu_manager_controller.go]:
    a requested change of a node's CPU manager policy becomes a job on that node, whose
    end becomes the result in the node's annotation.

    Outside the repository, and parameters here: the JSON encoder of the annotation,
    the image lookup, the name generator, and the validation of label values. *)

From S2P Require Import Prelude K8s NodeUtil.

Local Open Scope Z_scope.

(** ** Data *)

Definition CPUManagerStaticPolicy : string := "static".
Definition CPUManagerNonePolicy : string := "none".
Definition CPUManagerRequestedStatus : string := "requested".
Definition CPUManagerRunningStatus : string := "running".
Definition CPUManagerSuccessStatus : string := "success".
Definition CPUManagerFailedStatus : string := "failed".

Definition CPUManagerRootMountPath : string := "/host".
Definition CPUManagerScriptMountPath : string := "/harvester-helpers".
Definition CPUManagerScriptPath : string := CPUManagerScriptMountPath +:+ "/cpu-manager.sh".
Definition CPUManagerWaitLabelTimeoutInSec : Z := 300.
Definition CPUManagerJobTimeoutInSec : Z := CPUManagerWaitLabelTimeoutInSec * 2.
Definition CPUManagerJobTTLInSec : Z := 86400 * 7.
Definition CPUManagerJobPrefix : string := "update-cpu-manager".

Definition AnnotationCPUManagerUpdateStatus : string := "harvesterhci.io/cpu-manager-update-status".
Definition LabelCPUManagerUpdateNode : string := "harvesterhci.io/cpu-manager-update-node".
Definition LabelCPUManagerUpdatePolicy : string := "harvesterhci.io/cpu-manager-update-policy".
Definition LabelCPUManagerExitCode : string := "harvesterhci.io/cpu-manager-exit-code".
Definition JobNameLabel : string := "batch.kubernetes.io/job-name".

Record CPUManagerUpdateStatus := mkCpuStatus {
  cs_Policy : string; cs_Status : string; cs_JobName : string }.

#[export] Instance CPUManagerUpdateStatus_eq : EqDecision CPUManagerUpdateStatus.
Proof. solve_decision. Defined.
#[export] Instance CPUManagerUpdateStatus_countable : Countable CPUManagerUpdateStatus.
Proof.
  refine (inj_countable' (fun s => (cs_Policy s, cs_Status s, cs_JobName s))
            (fun '(p, s, j) => mkCpuStatus p s j) _).
  by intros [].
Defined.

(** A pod of a job; of its container statuses the name and, when terminated, the exit
    code. *)
Record CPod := mkCPod {
  cp_meta : ObjectMeta; cp_ContainerStatuses : list (string * option Z) }.

Record CWorld := mkCWorld { cw_nodes : list Node; cw_jobs : list Job }.

(** The caches and the answers of the API server.  The informers show nodes and jobs as they
    were at some time before: a view of the stored ones, the identity when it is up to date. *)
Record CEnv := mkCEnv {
  ce_nodeView : list Node -> list Node;    (* what the node cache has *)
  ce_jobView : list Job -> list Job;       (* what the job cache has *)
  ce_nodeGet : string -> option goerror;
  ce_nodeUpdate : Node -> option goerror;
  ce_jobList : option goerror;
  ce_jobGet : string -> string -> option goerror;
  ce_jobCreate : Job -> option goerror;
  ce_jobUpdate : Job -> option goerror;
  ce_image : string + goerror;             (* FetchImageFromHelmValues *)
  ce_safeName : list string -> string;     (* name.SafeConcatName *)
  ce_generate : Job -> list Job -> string; (* the server's suffix for GenerateName *)
  ce_labelOk : string -> bool;             (* labels.NewRequirement accepts the value *)
  ce_namespace : string }.

Definition setNodes (f : list Node -> list Node) (w : CWorld) : CWorld :=
  mkCWorld (f (cw_nodes w)) (cw_jobs w).
Definition setJobs (f : list Job -> list Job) (w : CWorld) : CWorld :=
  mkCWorld (cw_nodes w) (f (cw_jobs w)).

Definition putNode (n : Node) (l : list Node) : list Node :=
  map (fun n' => if String.eqb (node_Name n') (node_Name n) then n else n') l.
Definition sameJob (j j' : Job) : bool :=
  String.eqb (om_Namespace (job_meta j)) (om_Namespace (job_meta j'))
  && String.eqb (job_Name j) (job_Name j').
Definition putJob (j : Job) (l : list Job) : list Job :=
  map (fun j' => if sameJob j' j then j else j') l.

Definition findNode (name : string) (l : list Node) : option Node :=
  List.find (fun n => String.eqb (node_Name n) name) l.

(** ** The handlers *)

Section Handlers.
Context {J : JsonCodec CPUManagerUpdateStatus} (E : CEnv).

Definition nodeClient_Update (n : Node) : M CWorld Node :=
  apiWrite (ce_nodeUpdate E n) (setNodes (putNode n)) n.

Definition nodeCache_Get (name : string) : M CWorld Node := fun w =>
  match ce_nodeGet E name with
  | Some e => (Err e, w)
  | None => match findNode name (ce_nodeView E (cw_nodes w)) with
            | Some n => (Ok n, w)
            | None => (Err (ApiNotFound name), w)
            end
  end.

Definition GetCPUManagerUpdateStatus (jsonString : string) : outcome CPUManagerUpdateStatus :=
  match json_unmarshal jsonString with
  | None => Err (ErrText "json")
  | Some s =>
      if negb (String.eqb (cs_Status s) CPUManagerRequestedStatus)
         && negb (String.eqb (cs_Status s) CPUManagerRunningStatus)
         && negb (String.eqb (cs_Status s) CPUManagerSuccessStatus)
         && negb (String.eqb (cs_Status s) CPUManagerFailedStatus)
      then Err (ErrText "invalid status")
      else if negb (String.eqb (cs_Policy s) CPUManagerNonePolicy)
              && negb (String.eqb (cs_Policy s) CPUManagerStaticPolicy)
      then Err (ErrText "invalid policy")
      else Ok s
  end.

Definition toFailedStatus (s : CPUManagerUpdateStatus) : CPUManagerUpdateStatus :=
  mkCpuStatus (cs_Policy s) CPUManagerFailedStatus (cs_JobName s).

Definition toRunningStatus (s : CPUManagerUpdateStatus) (job : Job) : CPUManagerUpdateStatus :=
  mkCpuStatus (cs_Policy s) CPUManagerRunningStatus (job_Name job).

Definition setUpdateStatus (node : Node) (s : CPUManagerUpdateStatus) : Node :=
  node_set_Annotations
    (gm_set (node_Annotations node) AnnotationCPUManagerUpdateStatus (json_marshal s)) node.

Definition getJob (policy : string) (node : Node) (image : string) : Job :=
  let labels := Some (<[ LabelCPUManagerUpdateNode := node_Name node ]>
                        {[ LabelCPUManagerUpdatePolicy := policy ]}) in
  mkJob
    (mkMeta "" (ce_safeName E [CPUManagerJobPrefix; node_Name node] +:+ "-") (ce_namespace E) ""
       labels None
       [mkOwner (node_APIVersion node) (node_Kind node) (node_Name node)
          (om_UID (node_meta node))] 0 None)
    (mkJobSpec (Some 0) (Some CPUManagerJobTTLInSec) (Some CPUManagerJobTimeoutInSec) labels
       (mkPodSpec false true false ""
          (mkAff [[mkReq LabelHostname "In" [node_Name node]]] [])
          [] "Never"
          [mkVol "host-root" (HostPath "/" "Directory");
           mkVol "helpers" (ConfigMapVolume "harvester-helpers")]
          "harvester"
          [mkContainer "update-cpu-manager" image ["sh"]
             ["-e"; CPUManagerScriptPath; node_Name node; policy]
             [("host-root", CPUManagerRootMountPath); ("helpers", CPUManagerScriptMountPath)]
             "" None []
             [envValue "HOST_DIR" CPUManagerRootMountPath; envValue "WAIT_LABEL_TIMEOUT" "300"]]))
    jobStatus0.

(** The server names the job after [GenerateName]. *)
Definition named (w : CWorld) (j : Job) : Job :=
  let m := job_meta j in
  job_set_meta (mkMeta (om_GenerateName m +:+ ce_generate E j (cw_jobs w)) (om_GenerateName m)
    (om_Namespace m) (om_UID m) (om_Labels m) (om_Annotations m) (om_OwnerReferences m)
    (om_CreationTimestamp m) (om_DeletionTimestamp m)) j.

Definition jobClient_Create (j : Job) : M CWorld Job := fun w =>
  apiWrite (ce_jobCreate E j) (setJobs (fun l => l ++ [named w j])) (named w j) w.

Definition jobClient_Update (j : Job) : M CWorld Job :=
  apiWrite (ce_jobUpdate E j) (setJobs (putJob j)) j.

Definition submitJob (s : CPUManagerUpdateStatus) (node : Node) : M CWorld Job :=
  match ce_image E with
  | inr _ => throw (ErrText "failed to get harvester image")
  | inl image => jobClient_Create (getJob (cs_Policy s) node image)
  end.

Definition isRunning (j : Job) : bool :=
  negb (jobCondIsTrue JobComplete j) && negb (jobCondIsTrue JobFailed j).

(** The jobs whose node label is one of [nodeNames] and that have not ended. *)
Definition onNodes (nodeNames : list string) (j : Job) : bool :=
  match gm_get (job_Labels j) LabelCPUManagerUpdateNode with
  | Some n => str_in n nodeNames
  | None => false
  end.

Definition GetCPUManagerRunningJobsOnNodes (nodeNames : list string) : M CWorld (list Job) :=
  if bool_decide (nodeNames = []) then throw (ErrText "nodeNames size should > 0")
  else if negb (forallb (ce_labelOk E) nodeNames)
  then throw (ErrText "failed to create requirement")
  else fun w =>
    match ce_jobList E with
    | Some e => (Err e, w)
    | None => (Ok (List.filter isRunning (List.filter (onNodes nodeNames)
                                            (ce_jobView E (cw_jobs w)))), w)
    end.

Definition getCPUManagerRunningJobOnNode (nodeName : string) : M CWorld (list Job) :=
  GetCPUManagerRunningJobsOnNodes [nodeName].

Definition OnNodeChanged (node : option Node) : M CWorld (option Node) :=
  match node with
  | None => mret None
  | Some node =>
      if bool_decide (node_Annotations node = None)
         || bool_decide (is_Some (om_DeletionTimestamp (node_meta node)))
      then mret (Some node)
      else
        match gm_get (node_Annotations node) AnnotationCPUManagerUpdateStatus with
        | None => mret (Some node)
        | Some annot =>
            if gm_has (node_Labels node) HarvesterWitnessNodeLabelKey then mret (Some node)
            else
              match GetCPUManagerUpdateStatus annot with
              | Err _ => mret (Some node)
              | Panic => lift Panic
              | Ok status =>
                  if negb (String.eqb (cs_Status status) CPUManagerRequestedStatus)
                  then mret (Some node)
                  else
                    runningJobs ← getCPUManagerRunningJobOnNode (node_Name node);
                    newNode ← match runningJobs with
                              | j :: _ => mret (setUpdateStatus node (toRunningStatus status j))
                              | [] =>
                                  r ← try (submitJob status node);
                                  match r with
                                  | inr _ => mret (setUpdateStatus node (toFailedStatus status))
                                  | inl job => mret (setUpdateStatus node
                                                       (toRunningStatus status job))
                                  end
                              end;
                    if bool_decide (newNode = node) then mret (Some node)
                    else Some <$> nodeClient_Update newNode
              end
        end
  end.

Definition updateCPUManagerStatus (node : Node) (job : Job) (status : string) : M CWorld unit :=
  let updateStatus :=
    mkCpuStatus (gm_str (job_Labels job) LabelCPUManagerUpdatePolicy) status (job_Name job) in
  let newNode := setUpdateStatus node updateStatus in
  if bool_decide (newNode = node) then mret tt
  else _ ← nodeClient_Update newNode; mret tt.

Definition OnJobChanged (job : option Job) : M CWorld (option Job) :=
  match job with
  | None => mret None
  | Some job =>
      match gm_get (job_Labels job) LabelCPUManagerUpdateNode with
      | None => mret (Some job)                    (* nil labels included *)
      | Some nodeName =>
          node ← nodeCache_Get nodeName;
          if jobCondIsTrue JobComplete job
          then _ ← updateCPUManagerStatus node job CPUManagerSuccessStatus; mret None
          else if jobCondIsTrue JobFailed job
          then _ ← updateCPUManagerStatus node job CPUManagerFailedStatus; mret None
          else if bool_decide (is_Some (om_DeletionTimestamp (job_meta job)))
          then _ ← updateCPUManagerStatus node job CPUManagerFailedStatus; mret None
          else mret (Some job)
      end
  end.

Definition jobCache_Get (ns name : string) : M CWorld Job := fun w =>
  match ce_jobGet E ns name with
  | Some e => (Err e, w)
  | None =>
      match List.find (fun j => String.eqb (om_Namespace (job_meta j)) ns
                                && String.eqb (job_Name j) name)
              (ce_jobView E (cw_jobs w)) with
      | Some j => (Ok j, w)
      | None => (Err (ApiNotFound name), w)
      end
  end.

Definition OnPodChanged (pod : option CPod) : M CWorld (option CPod) :=
  match pod with
  | None => mret None
  | Some pod =>
      if bool_decide (om_Labels (cp_meta pod) = None)
         || bool_decide (is_Some (om_DeletionTimestamp (cp_meta pod)))
      then mret (Some pod)
      else
        let exitCode := match cp_ContainerStatuses pod with
                        | (_, Some code) :: _ => code
                        | _ => 0
                        end in
        match gm_get (om_Labels (cp_meta pod)) JobNameLabel with
        | None => mret (Some pod)
        | Some jobName =>
            if HasPrefix jobName CPUManagerJobPrefix && (0 <? exitCode) then
              r ← try (jobCache_Get (ce_namespace E) jobName);
              match r with
              | inr err => if IsNotFound err then mret (Some pod) else throw err
              | inl job =>
                  if bool_decide (is_Some (om_DeletionTimestamp (job_meta job)))
                  then mret (Some pod)
                  else
                    labels ← lift (gm_store (job_Labels job) LabelCPUManagerExitCode
                                     (pretty exitCode));
                    let newJob := job_set_meta (set_Labels labels (job_meta job)) job in
                    if bool_decide (newJob = job) then mret (Some pod)
                    else _ ← jobClient_Update newJob; mret None
              end
            else mret (Some pod)
        end
  end.
End Handlers.

(** ** At most one job per node *)

(** A job that changes the policy of node [n] and has not ended. *)
Definition activeOn (n : string) (j : Job) : bool := isRunning j && onNodes [n] j.
Definition activeJobs (n : string) (l : list Job) : list Job := List.filter (activeOn n) l.

(** No two jobs share namespace and name. *)
Definition uniqueJobs (l : list Job) : Prop :=
  forall j1 j2, j1 ∈ l -> j2 ∈ l -> sameJob j1 j2 = true -> j1 = j2.

Definition cInv (w : CWorld) : Prop :=
  uniqueJobs (cw_jobs w) /\ forall n, (length (activeJobs n (cw_jobs w)) <= 1)%nat.

Lemma sameJob_spec j j' :
  sameJob j j' = true <->
  om_Namespace (job_meta j) = om_Namespace (job_meta j') /\ job_Name j = job_Name j'.
Proof. unfold sameJob. by rewrite andb_true_iff, !String.eqb_eq. Qed.

Lemma sameJob_sym j j' : sameJob j j' = sameJob j' j.
Proof. unfold sameJob. by rewrite (String.eqb_sym (om_Namespace _)), (String.eqb_sym (job_Name _)). Qed.

Lemma sameJob_trans j1 j2 j3 : sameJob j1 j2 = true -> sameJob j2 j3 = true -> sameJob j1 j3 = true.
Proof. rewrite !sameJob_spec. intros [-> ->] [-> ->]. done. Qed.

Lemma putJob_elem j l x : x ∈ putJob j l -> x = j \/ x ∈ l /\ sameJob x j = false.
Proof.
  unfold putJob. rewrite list_elem_of_In, in_map_iff. intros (y & Hy & Hin).
  destruct (sameJob y j) eqn:E; subst; [by left|]. right. by rewrite list_elem_of_In.
Qed.

Lemma putJob_unique j l : uniqueJobs l -> uniqueJobs (putJob j l).
Proof.
  intros Hu j1 j2 H1 H2 Hs.
  apply putJob_elem in H1 as [->|[H1 E1]]; apply putJob_elem in H2 as [->|[H2 E2]]; auto.
  - rewrite sameJob_sym in Hs. congruence.
  - congruence.
Qed.

Lemma filter_unique p l : uniqueJobs l -> uniqueJobs (List.filter p l).
Proof.
  intros Hu j1 j2. rewrite !list_elem_of_In, !filter_In, <- !list_elem_of_In.
  intros [? _] [? _]. by apply Hu.
Qed.

(** Writing a job that satisfies [p] only where the job it replaces did. *)
Lemma putJob_filter (p : Job -> bool) j l :
  (forall x, x ∈ l -> sameJob x j = true -> p j = true -> p x = true) ->
  (length (List.filter p (putJob j l)) <= length (List.filter p l))%nat.
Proof.
  induction l as [|x l IH]; intros H; simpl; [done|].
  assert (IH' : (length (List.filter p (putJob j l)) <= length (List.filter p l))%nat).
  { apply IH. intros y Hy. apply H. by right. }
  unfold putJob in *. simpl. destruct (sameJob x j) eqn:Es.
  - destruct (p j) eqn:Ej; [rewrite (H x) by (done || by left); simpl; lia|].
    destruct (p x); simpl; lia.
  - destruct (p x); simpl; lia.
Qed.

Lemma putJob_active n j l :
  (forall x, x ∈ l -> sameJob x j = true -> activeOn n j = true -> activeOn n x = true) ->
  (length (activeJobs n (putJob j l)) <= length (activeJobs n l))%nat.
Proof. apply putJob_filter. Qed.

Lemma filter_filter_length {A} (p q : A -> bool) l :
  (length (List.filter p (List.filter q l)) <= length (List.filter p l))%nat.
Proof.
  induction l as [|x l IH]; simpl; [done|].
  destruct (q x); simpl; destruct (p x); simpl; lia.
Qed.

Lemma filter_active n p l :
  (length (activeJobs n (List.filter p l)) <= length (activeJobs n l))%nat.
Proof. apply filter_filter_length. Qed.

Section Invariant.
Context {J : JsonCodec CPUManagerUpdateStatus}.

(** The server does not reuse the name of a job. *)
Definition freshNames (E : CEnv) : Prop := forall w j x,
  x ∈ cw_jobs w -> sameJob x (named E w j) = false.

(** The job cache shows an unfinished job of the node whenever there is one. *)
Definition showsActive (E : CEnv) (name : string) (w : CWorld) : Prop :=
  activeJobs name (ce_jobView E (cw_jobs w)) = [] -> activeJobs name (cw_jobs w) = [].

(** A job of the cache is the stored one, or else its update is refused (with a conflict). *)
Definition staleRefused (E : CEnv) (w : CWorld) : Prop :=
  forall j, j ∈ ce_jobView E (cw_jobs w) ->
    j ∈ cw_jobs w \/ forall j', sameJob j j' = true -> ce_jobUpdate E j' <> None.

(** A step: an event of the controller under any environment; or the cluster: nodes
    change (a policy is requested, for instance), a job advances but an ended job
    stays ended, a job is removed.  The job cache may lag behind, but shows the node
    handler an unfinished job of the node when there is one. *)
Inductive cstep : CWorld -> CWorld -> Prop :=
| c_node E node w : freshNames E -> showsActive E (node_Name node) w ->
    cstep w (OnNodeChanged E (Some node) w).2
| c_job E job w : cstep w (OnJobChanged E job w).2
| c_pod E pod w : staleRefused E w -> cstep w (OnPodChanged E pod w).2
| c_nodes nodes w : cstep w (mkCWorld nodes (cw_jobs w))
| c_advance j j' w :
    j ∈ cw_jobs w -> job_meta j' = job_meta j -> (isRunning j' = true -> isRunning j = true) ->
    cstep w (setJobs (putJob j') w)
| c_remove p w : cstep w (setJobs (List.filter p) w).

Lemma activeOn_named E w s node image n :
  activeOn n (named E w (getJob E s node image)) = String.eqb (node_Name node) n.
Proof.
  unfold activeOn, onNodes, isRunning. simpl. rewrite lookup_insert_eq.
  unfold str_in. destruct (String.eqb_spec (node_Name node) n).
  - subst. by rewrite bool_decide_eq_true_2 by (by left).
  - rewrite bool_decide_eq_false_2; [done|]. intros H%list_elem_of_singleton. congruence.
Qed.

Lemma UpdateNode_jobs E n w : cw_jobs (nodeClient_Update E n w).2 = cw_jobs w.
Proof. unfold nodeClient_Update, apiWrite. by destruct (ce_nodeUpdate E n). Qed.

Lemma runningJobs_Ok E name w l w' :
  getCPUManagerRunningJobOnNode E name w = (Ok l, w') ->
  w' = w /\ l = activeJobs name (ce_jobView E (cw_jobs w)).
Proof.
  unfold getCPUManagerRunningJobOnNode, GetCPUManagerRunningJobsOnNodes.
  rewrite bool_decide_eq_false_2 by done. destruct (negb _); [done|].
  destruct (ce_jobList E); [done|]. intros [= <- <-]. split; [done|].
  unfold activeJobs. induction (ce_jobView E (cw_jobs w)) as [|x l IH]; simpl; [done|].
  unfold activeOn at 1. destruct (onNodes [name] x); simpl; rewrite ?andb_true_r, ?andb_false_r;
    [|done]. destruct (isRunning x); simpl; congruence.
Qed.

Lemma runningJobs_read E name w : (getCPUManagerRunningJobOnNode E name w).2 = w.
Proof.
  unfold getCPUManagerRunningJobOnNode, GetCPUManagerRunningJobsOnNodes.
  rewrite bool_decide_eq_false_2 by done. destruct (negb _); [done|]. by destruct (ce_jobList E).
Qed.

(** What an event of a node does to the jobs. *)
Definition nodeEvent (node : Node) (E : CEnv) (w : CWorld) (l : list Job) : Prop :=
  l = cw_jobs w \/
  activeJobs (node_Name node) (ce_jobView E (cw_jobs w)) = [] /\
  exists policy image, l = cw_jobs w ++ [named E w (getJob E policy node image)].

Lemma finish_jobs E node newNode w :
  cw_jobs ((if bool_decide (newNode = node) then mret (Some node)
            else Some <$> nodeClient_Update E newNode) w).2 = cw_jobs w.
Proof.
  destruct (bool_decide _); [done|]. unfold fmap, M_fmap.
  pose proof (UpdateNode_jobs E newNode w) as H.
  by destruct (nodeClient_Update E newNode w) as [[]].
Qed.

Lemma OnNodeChanged_jobs E node w :
  nodeEvent node E w (cw_jobs (OnNodeChanged E (Some node) w).2).
Proof.
  unfold OnNodeChanged. destruct (_ || _); [by left|].
  destruct (gm_get _ _) as [annot|]; [|by left]. destruct (gm_has _ _); [by left|].
  destruct (GetCPUManagerUpdateStatus annot) as [s|e|]; [|by left|by left].
  destruct (negb _); [by left|].
  apply (bind_read _ _ _ (fun w' => nodeEvent node E w (cw_jobs w')));
    [apply runningJobs_read|by left|].
  intros jobs [_ ->]%runningJobs_Ok.
  destruct (activeJobs (node_Name node) (ce_jobView E (cw_jobs w))) as [|j js] eqn:Ea.
  2: { left. apply finish_jobs. }
  unfold mbind, M_bind, try, submitJob.
  destruct (ce_image E) as [image|e]; [|left; apply finish_jobs].
  unfold jobClient_Create, apiWrite. destruct (ce_jobCreate E _); simpl.
  - left. apply finish_jobs.
  - right. split; [done|]. exists (cs_Policy s), image. by rewrite finish_jobs.
Qed.

Lemma OnJobChanged_jobs E job w : cw_jobs (OnJobChanged E job w).2 = cw_jobs w.
Proof.
  unfold OnJobChanged. destruct job as [job|]; [|done].
  destruct (gm_get _ _) as [name|]; [|done].
  assert (Hu : forall n st, cw_jobs ((_ ← updateCPUManagerStatus E n job st;
     mret (None : option Job)) w).2 = cw_jobs w).
  { intros n st. unfold updateCPUManagerStatus. destruct (bool_decide _); [done|].
    unfold mbind, M_bind, nodeClient_Update, apiWrite. by destruct (ce_nodeUpdate E _). }
  apply (bind_read _ _ _ (fun w' => cw_jobs w' = cw_jobs w)); [|done|].
  - unfold nodeCache_Get. destruct (ce_nodeGet E name); [done|]. by destruct (findNode name (ce_nodeView E (cw_nodes w))).
  - intros n _. destruct (jobCondIsTrue JobComplete job); [apply Hu|].
    destruct (jobCondIsTrue JobFailed job); [apply Hu|]. destruct (bool_decide _); [apply Hu|done].
Qed.

(** A pod event changes at most the exit code label of one job of the world. *)
Lemma OnPodChanged_jobs E pod w :
  staleRefused E w ->
  cw_jobs (OnPodChanged E pod w).2 = cw_jobs w \/
  exists j labels, j ∈ cw_jobs w /\
    cw_jobs (OnPodChanged E pod w).2
      = putJob (job_set_meta (set_Labels labels (job_meta j)) j) (cw_jobs w) /\
    gm_get labels LabelCPUManagerUpdateNode = gm_get (job_Labels j) LabelCPUManagerUpdateNode.
Proof.
  intros Hst. unfold OnPodChanged. destruct pod as [pod|]; [|by left]. destruct (_ || _); [by left|].
  destruct (gm_get _ _) as [name|]; [|by left]. destruct (_ && _); [|by left].
  unfold mbind, M_bind, try, jobCache_Get. destruct (ce_jobGet E _ _) as [e|];
    [left; by destruct (IsNotFound e)|].
  destruct (List.find _ (ce_jobView E (cw_jobs w))) as [j|] eqn:Ef; [|by left].
  apply find_some in Ef as [Hin%list_elem_of_In _]. destruct (bool_decide _); [by left|]. unfold lift.
  destruct (gm_store _ _ _) as [labels|e|] eqn:Es; [|by left|by left].
  destruct (bool_decide _); [by left|]. unfold jobClient_Update, apiWrite.
  destruct (ce_jobUpdate E _) eqn:Eu; [by left|]. right. exists j, labels.
  destruct (Hst j Hin) as [Hin'|Hno].
  2:{ destruct (Hno (job_set_meta (set_Labels labels (job_meta j)) j)); [|done].
      by apply sameJob_spec. }
  split_and!; [done|done|]. apply gm_store_Ok in Es as ->.
  by rewrite gm_get_set_ne.
Qed.

Lemma activeOn_meta n j j' :
  gm_get (job_Labels j') LabelCPUManagerUpdateNode
    = gm_get (job_Labels j) LabelCPUManagerUpdateNode ->
  (isRunning j' = true -> isRunning j = true) -> activeOn n j' = true -> activeOn n j = true.
Proof.
  unfold activeOn, onNodes. intros -> H [H1 H2]%andb_true_iff. by rewrite H, H2.
Qed.

Lemma putJob_inv j j' l :
  uniqueJobs l -> (forall n, (length (activeJobs n l) <= 1)%nat) ->
  j ∈ l -> sameJob j j' = true ->
  gm_get (job_Labels j') LabelCPUManagerUpdateNode
    = gm_get (job_Labels j) LabelCPUManagerUpdateNode ->
  (isRunning j' = true -> isRunning j = true) ->
  uniqueJobs (putJob j' l) /\ forall n, (length (activeJobs n (putJob j' l)) <= 1)%nat.
Proof.
  intros Hu Ha Hin Hs Hl Hr. split; [by apply putJob_unique|]. intros n.
  etransitivity; [|apply (Ha n)]. apply putJob_active. intros x Hx Hxs.
  assert (x = j) as ->.
  { apply Hu; [done..|]. eapply sameJob_trans; [exact Hxs|]. by rewrite sameJob_sym. }
  by apply activeOn_meta.
Qed.

Lemma OnNodeChanged_unique E node w :
  freshNames E -> uniqueJobs (cw_jobs w) ->
  uniqueJobs (cw_jobs (OnNodeChanged E (Some node) w).2).
Proof.
  intros Hf Hu. destruct (OnNodeChanged_jobs E node w) as [->|(Hn & pol & im & ->)]; [done|].
  intros j1 j2 [H1|H1%list_elem_of_singleton]%elem_of_app
    [H2|H2%list_elem_of_singleton]%elem_of_app Hs; subst; auto.
  - by rewrite (Hf w) in Hs.
  - rewrite sameJob_sym in Hs. by rewrite (Hf w) in Hs.
Qed.

Lemma cstep_inv w w' : cInv w -> cstep w w' -> cInv w'.
Proof.
  intros [Hu Ha] Hstep. destruct Hstep as [E node w Hf Hsh|E job w|E pod w Hst|nodes w
    |j j' w Hin Hm Hr|p w]; unfold cInv.
  - split; [by apply OnNodeChanged_unique|].
    destruct (OnNodeChanged_jobs E node w) as [->|(Hn%Hsh & pol & im & ->)]; [done|]. intros n.
    unfold activeJobs. rewrite List.filter_app, length_app. simpl.
    rewrite activeOn_named. destruct (String.eqb_spec (node_Name node) n).
    + subst n. unfold activeJobs in Hn. rewrite Hn. simpl. lia.
    + simpl. specialize (Ha n). unfold activeJobs in Ha. lia.
  - by rewrite OnJobChanged_jobs.
  - destruct (OnPodChanged_jobs E pod w Hst) as [->|(j & labels & Hin & -> & Hl)]; [done|].
    eapply putJob_inv; try done. by apply sameJob_spec.
  - done.
  - eapply putJob_inv; try done.
    + apply sameJob_spec. unfold job_Name. by rewrite Hm.
    + unfold job_Labels. by rewrite Hm.
  - split; [by apply filter_unique|]. intros n. etransitivity; [apply filter_active|done].
Qed.

(** C21: in every state reached from a cluster without policy jobs, whatever events of
    nodes, jobs and pods the controller handles in whatever order, with API failures,
    stale nodes, new requests, jobs that advance or are removed in between, there is at
    most one job per node that changes its CPU manager policy and has not ended, as long as
    the job cache, which may lag behind otherwise, shows the handler of a node the
    unfinished job of that node when there is one.  The jobs have generated names, so
    without that condition a second one is created ([late_job_cache_two_jobs]). *)
Theorem one_cpu_job_per_node w n :
  reachable (fun s => cw_jobs s = []) cstep w -> (length (activeJobs n (cw_jobs w)) <= 1)%nat.
Proof.
  intros H. apply (invariant_reachable _ _ cInv) in H as [_ Ha]; [done| |].
  - intros s Hs. unfold cInv. rewrite Hs. split; [intros j1 j2 H1; by apply elem_of_nil in H1|].
    intros n'. simpl. lia.
  - intros s s' Hi Hst. by eapply cstep_inv.
Qed.
End Invariant.

Section Functional.
Context {J : JsonCodec CPUManagerUpdateStatus}.

Definition validStatus (s : CPUManagerUpdateStatus) : Prop :=
  cs_Status s ∈ [CPUManagerRequestedStatus; CPUManagerRunningStatus; CPUManagerSuccessStatus;
                 CPUManagerFailedStatus] /\
  cs_Policy s ∈ [CPUManagerNonePolicy; CPUManagerStaticPolicy].

Lemma GetStatus_Ok str s :
  GetCPUManagerUpdateStatus str = Ok s <-> json_unmarshal str = Some s /\ validStatus s.
Proof.
  unfold GetCPUManagerUpdateStatus, validStatus.
  destruct (json_unmarshal str) as [s'|]; [|naive_solver].
  rewrite !elem_of_cons, !elem_of_nil.
  destruct (String.eqb_spec (cs_Status s') CPUManagerRequestedStatus),
    (String.eqb_spec (cs_Status s') CPUManagerRunningStatus),
    (String.eqb_spec (cs_Status s') CPUManagerSuccessStatus),
    (String.eqb_spec (cs_Status s') CPUManagerFailedStatus),
    (String.eqb_spec (cs_Policy s') CPUManagerNonePolicy),
    (String.eqb_spec (cs_Policy s') CPUManagerStaticPolicy); simpl; naive_solver.
Qed.

(** The status a node carries, read as the controller and the webhook read it. *)
Definition nodeStatus (n : Node) : option CPUManagerUpdateStatus :=
  match gm_get (node_Annotations n) AnnotationCPUManagerUpdateStatus with
  | Some str => match GetCPUManagerUpdateStatus str with Ok s => Some s | _ => None end
  | None => None
  end.

Lemma nodeStatus_set n s : validStatus s -> nodeStatus (setUpdateStatus n s) = Some s.
Proof.
  intros H. unfold nodeStatus, setUpdateStatus, node_Annotations. simpl.
  rewrite gm_get_set_eq. by rewrite (proj2 (GetStatus_Ok _ s)) by (by rewrite json_roundtrip).
Qed.

Lemma GetStatus_total str : GetCPUManagerUpdateStatus str <> Panic.
Proof.
  unfold GetCPUManagerUpdateStatus. destruct (json_unmarshal str); [|done].
  destruct (_ && _); [done|]. by destruct (_ && _).
Qed.

(** A node without a request is left alone. *)
Lemma request_done E node w s :
  nodeStatus node = Some s -> cs_Status s <> CPUManagerRequestedStatus ->
  OnNodeChanged E (Some node) w = (Ok (Some node), w).
Proof.
  intros Hs Hn. unfold OnNodeChanged. destruct (_ || _); [done|]. unfold nodeStatus in Hs.
  destruct (gm_get _ _); [|done]. destruct (gm_has _ _); [done|].
  destruct (GetCPUManagerUpdateStatus _); [|done|done]. injection Hs as ->.
  apply String.eqb_neq in Hn. by rewrite Hn.
Qed.

(** The write at the end of an event: the annotation did change, for the request is
    not its own answer. *)
Lemma setUpdateStatus_ne node str s s' :
  gm_get (node_Annotations node) AnnotationCPUManagerUpdateStatus = Some str ->
  json_unmarshal str = Some s -> cs_Status s' <> cs_Status s -> setUpdateStatus node s' <> node.
Proof.
  intros Ea Eu Hn He. assert (Hg : gm_get (node_Annotations (setUpdateStatus node s'))
    AnnotationCPUManagerUpdateStatus = Some (json_marshal s')).
  { unfold setUpdateStatus, node_Annotations. simpl. by rewrite gm_get_set_eq. }
  rewrite He, Ea in Hg. injection Hg as ->. rewrite json_roundtrip in Eu. congruence.
Qed.

Lemma request_run E node w str s :
  om_DeletionTimestamp (node_meta node) = None ->
  gm_has (node_Labels node) HarvesterWitnessNodeLabelKey = false ->
  gm_get (node_Annotations node) AnnotationCPUManagerUpdateStatus = Some str ->
  GetCPUManagerUpdateStatus str = Ok s -> cs_Status s = CPUManagerRequestedStatus ->
  ce_labelOk E (node_Name node) = true -> ce_jobList E = None ->
  ce_jobView E (cw_jobs w) = cw_jobs w -> (forall n, ce_nodeUpdate E n = None) ->
  OnNodeChanged E (Some node) w =
  let finish s' l := (Ok (Some (setUpdateStatus node s')),
                      mkCWorld (putNode (setUpdateStatus node s') (cw_nodes w)) l) in
  match activeJobs (node_Name node) (cw_jobs w) with
  | j :: _ => finish (toRunningStatus s j) (cw_jobs w)
  | [] => match ce_image E with
          | inr _ => finish (toFailedStatus s) (cw_jobs w)
          | inl im =>
              let job := named E w (getJob E (cs_Policy s) node im) in
              match ce_jobCreate E (getJob E (cs_Policy s) node im) with
              | Some _ => finish (toFailedStatus s) (cw_jobs w)
              | None => finish (toRunningStatus s job) (cw_jobs w ++ [job])
              end
          end
  end.
Proof.
  intros Hd Hw Ea Eg Hr Hl Hj Hvw Hu. unfold OnNodeChanged.
  rewrite (bool_decide_eq_false_2 (node_Annotations node = None)) by (intros H; by rewrite H in Ea).
  rewrite bool_decide_eq_false_2 by (rewrite Hd; by intros [? [=]]). cbn [orb].
  rewrite Ea, Hw, Eg, Hr, String.eqb_refl. cbn [negb].
  assert (Hfin : forall s' w1, cs_Status s' <> cs_Status s ->
    (if bool_decide (setUpdateStatus node s' = node) then mret (Some node)
     else Some <$> nodeClient_Update E (setUpdateStatus node s')) w1 =
    (Ok (Some (setUpdateStatus node s')),
     mkCWorld (putNode (setUpdateStatus node s') (cw_nodes w1)) (cw_jobs w1))).
  { intros s' w1 Hn. rewrite bool_decide_eq_false_2.
    - unfold fmap, M_fmap, nodeClient_Update, apiWrite. by rewrite Hu.
    - apply GetStatus_Ok in Eg as [Eg _]. by eapply setUpdateStatus_ne. }
  assert (Hlist : getCPUManagerRunningJobOnNode E (node_Name node) w
                  = (Ok (activeJobs (node_Name node) (cw_jobs w)), w)).
  { destruct (getCPUManagerRunningJobOnNode E (node_Name node) w) as [[l|e|] w'] eqn:El.
    - apply runningJobs_Ok in El as [-> ->]. by rewrite Hvw.
    - exfalso. revert El. unfold getCPUManagerRunningJobOnNode, GetCPUManagerRunningJobsOnNodes.
      rewrite bool_decide_eq_false_2 by done. simpl. by rewrite Hl, Hj.
    - exfalso. revert El. unfold getCPUManagerRunningJobOnNode, GetCPUManagerRunningJobsOnNodes.
      rewrite bool_decide_eq_false_2 by done. simpl. by rewrite Hl, Hj. }
  unfold mbind at 1, M_bind at 1. rewrite Hlist.
  destruct (activeJobs (node_Name node) (cw_jobs w)) as [|j js];
    unfold mbind, M_bind; [|unfold mret at 1, M_ret at 1; rewrite Hfin by (by rewrite Hr); done].
  unfold try, submitJob. destruct (ce_image E) as [im|e].
  - unfold jobClient_Create, apiWrite. destruct (ce_jobCreate E _); unfold mret at 1, M_ret at 1;
      rewrite Hfin by (by rewrite Hr); done.
  - unfold throw, mret at 1, M_ret at 1. rewrite Hfin by (by rewrite Hr). done.
Qed.

(** What happens to a request.  A valid request on a node that is no witness and is
    not being deleted, when jobs can be listed and nodes written: if a job is already
    active on the node it is recorded as the running job and nothing is created; else,
    if the image is known and the server accepts the job, exactly one job is created,
    pinned to the node by hostname and labelled with node and policy, and recorded as
    running; else the request is recorded as failed and no job exists.  The record can
    be read back, and since its status is no longer "requested", handling the node
    again does nothing. *)
Theorem cpu_request_handled E node w s :
  om_DeletionTimestamp (node_meta node) = None ->
  gm_has (node_Labels node) HarvesterWitnessNodeLabelKey = false ->
  nodeStatus node = Some s -> cs_Status s = CPUManagerRequestedStatus ->
  ce_labelOk E (node_Name node) = true -> ce_jobList E = None ->
  ce_jobView E (cw_jobs w) = cw_jobs w -> (forall n, ce_nodeUpdate E n = None) ->
  exists node' w' s', OnNodeChanged E (Some node) w = (Ok (Some node'), w') /\
    node' = setUpdateStatus node s' /\ nodeStatus node' = Some s' /\
    cs_Policy s' = cs_Policy s /\ cw_nodes w' = putNode node' (cw_nodes w) /\
    OnNodeChanged E (Some node') w' = (Ok (Some node'), w') /\
    match activeJobs (node_Name node) (cw_jobs w), ce_image E with
    | j :: _, _ => s' = toRunningStatus s j /\ cw_jobs w' = cw_jobs w
    | [], inl image =>
        let job := named E w (getJob E (cs_Policy s) node image) in
        match ce_jobCreate E (getJob E (cs_Policy s) node image) with
        | Some _ => s' = toFailedStatus s /\ cw_jobs w' = cw_jobs w
        | None =>
            s' = toRunningStatus s job /\ cw_jobs w' = cw_jobs w ++ [job] /\
            aff_NodeRequired (ps_Affinity (js_PodSpec (job_spec job)))
              = [[mkReq LabelHostname "In" [node_Name node]]] /\
            gm_get (job_Labels job) LabelCPUManagerUpdateNode = Some (node_Name node) /\
            gm_get (job_Labels job) LabelCPUManagerUpdatePolicy = Some (cs_Policy s)
        end
    | [], inr _ => s' = toFailedStatus s /\ cw_jobs w' = cw_jobs w
    end.
Proof.
  intros Hd Hw Hs Hr Hl Hj Hvw Hu. unfold nodeStatus in Hs.
  destruct (gm_get (node_Annotations node) _) as [str|] eqn:Ea; [|done].
  destruct (GetCPUManagerUpdateStatus str) as [s0| |] eqn:Eg; [|done|done].
  injection Hs as ->.
  assert (Hv : validStatus s) by (by apply GetStatus_Ok in Eg as [_ ?]).
  assert (Hrv : forall j, validStatus (toRunningStatus s j))
    by (intros j; split; [set_solver|apply Hv]).
  assert (Hfv : validStatus (toFailedStatus s)) by (split; [set_solver|apply Hv]).
  pose proof (request_run E node w str s Hd Hw Ea Eg Hr Hl Hj Hvw Hu) as Hrun.
  rewrite Hrun. clear Hrun.
  assert (Hdone : forall s' l, validStatus s' -> cs_Status s' <> CPUManagerRequestedStatus ->
    OnNodeChanged E (Some (setUpdateStatus node s'))
      (mkCWorld (putNode (setUpdateStatus node s') (cw_nodes w)) l) =
    (Ok (Some (setUpdateStatus node s')),
     mkCWorld (putNode (setUpdateStatus node s') (cw_nodes w)) l)).
  { intros s' l Hv' Hn'. eapply request_done; [by apply nodeStatus_set|done]. }
  destruct (activeJobs (node_Name node) (cw_jobs w)) as [|j js]; [destruct (ce_image E) as [im|e];
    [destruct (ce_jobCreate E (getJob E (cs_Policy s) node im)) as [e|]|]|];
    eexists _, _, _; (split; [done|]);
    (split; [done|]); (split; [by apply nodeStatus_set|]); (split; [done|]);
    (split; [done|]); (split; [by apply Hdone|]); try done.
Qed.

Lemma request_ignored E node w :
  gm_has (node_Labels node) HarvesterWitnessNodeLabelKey = true \/
  (forall s, nodeStatus node = Some s -> cs_Status s <> CPUManagerRequestedStatus) ->
  OnNodeChanged E (Some node) w = (Ok (Some node), w).
Proof.
  intros H. unfold OnNodeChanged, nodeStatus in *. destruct (_ || _); [done|].
  destruct (gm_get _ _) as [str|]; [|done].
  destruct (gm_has _ _); [done|]. destruct H as [|H]; [done|].
  pose proof (GetStatus_total str). destruct (GetCPUManagerUpdateStatus str) as [s| |]; [|done|done].
  specialize (H s eq_refl). apply String.eqb_neq in H. by rewrite H.
Qed.

(** Requests that are not acted upon: on a witness node, with an annotation that
    cannot be read, with an invalid status or policy, or with a status other than
    "requested", the controller returns the node and changes nothing. *)
Theorem cpu_request_ignored E node w :
  gm_has (node_Labels node) HarvesterWitnessNodeLabelKey = true \/
  (forall s, nodeStatus node = Some s -> cs_Status s <> CPUManagerRequestedStatus) ->
  OnNodeChanged E (Some node) w = (Ok (Some node), w).
Proof. apply request_ignored. Qed.

Lemma findNode_put name l node node' :
  findNode name l = Some node -> node_Name node' = node_Name node ->
  findNode name (putNode node' l) = Some node'.
Proof.
  unfold findNode, putNode. intros H Hn. pose proof H as [_ Hnm%String.eqb_eq]%find_some.
  induction l as [|x l IH]; simpl in *; [done|]. rewrite Hn, Hnm.
  destruct (String.eqb (node_Name x) name) eqn:Ex; simpl.
  - by rewrite Hn, Hnm, String.eqb_refl.
  - rewrite Ex. rewrite Hn, Hnm in IH. auto.
Qed.

(** The result of a job.  For a job of a known node, with a valid policy label, when
    nodes can be written: completed means "success"; failed, or being deleted before it
    ended, means "failed"; the record names the job and the policy and can be read back;
    a job still going changes nothing; and no other annotation of the node changes. *)
Theorem cpu_job_result E job w name node :
  gm_get (job_Labels job) LabelCPUManagerUpdateNode = Some name ->
  gm_str (job_Labels job) LabelCPUManagerUpdatePolicy
    ∈ [CPUManagerNonePolicy; CPUManagerStaticPolicy] ->
  ce_nodeGet E name = None -> ce_nodeView E (cw_nodes w) = cw_nodes w ->
  findNode name (cw_nodes w) = Some node ->
  (forall n, ce_nodeUpdate E n = None) ->
  let status := if jobCondIsTrue JobComplete job then Some CPUManagerSuccessStatus
                else if jobCondIsTrue JobFailed job
                        || bool_decide (is_Some (om_DeletionTimestamp (job_meta job)))
                then Some CPUManagerFailedStatus else None in
  match status with
  | None => OnJobChanged E (Some job) w = (Ok (Some job), w)
  | Some st =>
      exists w' node', OnJobChanged E (Some job) w = (Ok None, w') /\
        findNode name (cw_nodes w') = Some node' /\
        nodeStatus node' = Some (mkCpuStatus (gm_str (job_Labels job) LabelCPUManagerUpdatePolicy)
                                   st (job_Name job)) /\
        (forall k, k <> AnnotationCPUManagerUpdateStatus ->
           gm_get (node_Annotations node') k = gm_get (node_Annotations node) k) /\
        cw_jobs w' = cw_jobs w
  end.
Proof.
  intros Hl Hp Hg Hvw Hf Hu. cbv zeta. unfold OnJobChanged. rewrite Hl.
  assert (Hget : nodeCache_Get E name w = (Ok node, w))
    by (unfold nodeCache_Get; by rewrite Hg, Hvw, Hf).
  rewrite !(bind_run _ _ _ _ _ Hget).
  set (upd st := setUpdateStatus node
     (mkCpuStatus (gm_str (job_Labels job) LabelCPUManagerUpdatePolicy) st (job_Name job))).
  assert (Hrun : forall st,
    st ∈ [CPUManagerRequestedStatus; CPUManagerRunningStatus; CPUManagerSuccessStatus;
          CPUManagerFailedStatus] ->
    exists w', (_ ← updateCPUManagerStatus E node job st; mret (None : option Job)) w = (Ok None, w') /\
      findNode name (cw_nodes w') = Some (upd st) /\ cw_jobs w' = cw_jobs w).
  { intros st _. unfold updateCPUManagerStatus. fold (upd st).
    unfold mbind, M_bind. destruct (decide (upd st = node)) as [He|He].
    - rewrite bool_decide_eq_true_2 by done. exists w. by rewrite He.
    - rewrite bool_decide_eq_false_2 by done. unfold nodeClient_Update, apiWrite. rewrite Hu.
      eexists. split; [done|]. split; [|done]. simpl. by eapply findNode_put. }
  assert (Hst : forall st,
    st ∈ [CPUManagerRequestedStatus; CPUManagerRunningStatus; CPUManagerSuccessStatus;
          CPUManagerFailedStatus] ->
    nodeStatus (upd st) = Some (mkCpuStatus (gm_str (job_Labels job) LabelCPUManagerUpdatePolicy)
                                  st (job_Name job)) /\
    (forall k, k <> AnnotationCPUManagerUpdateStatus ->
       gm_get (node_Annotations (upd st)) k = gm_get (node_Annotations node) k)).
  { intros st Hst. split; [by apply nodeStatus_set|]. intros k Hk.
    unfold upd, setUpdateStatus, node_Annotations. simpl. by rewrite gm_get_set_ne. }
  assert (Hs : CPUManagerSuccessStatus ∈ [CPUManagerRequestedStatus; CPUManagerRunningStatus;
     CPUManagerSuccessStatus; CPUManagerFailedStatus]) by set_solver.
  assert (Hfl : CPUManagerFailedStatus ∈ [CPUManagerRequestedStatus; CPUManagerRunningStatus;
     CPUManagerSuccessStatus; CPUManagerFailedStatus]) by set_solver.
  destruct (jobCondIsTrue JobComplete job).
  { destruct (Hrun _ Hs) as (w' & -> & H1 & H2). destruct (Hst _ Hs). by exists w', (upd CPUManagerSuccessStatus). }
  destruct (jobCondIsTrue JobFailed job); cbn [orb].
  { destruct (Hrun _ Hfl) as (w' & -> & H1 & H2). destruct (Hst _ Hfl). by exists w', (upd CPUManagerFailedStatus). }
  destruct (bool_decide (is_Some (om_DeletionTimestamp (job_meta job)))); [|done].
  destruct (Hrun _ Hfl) as (w' & -> & H1 & H2). destruct (Hst _ Hfl). by exists w', (upd CPUManagerFailedStatus).
Qed.
End Functional.

(** ** Witnesses *)

Module CpuExamples.
#[export] Instance cpuCodec : JsonCodec CPUManagerUpdateStatus :=
  countable_codec CPUManagerUpdateStatus.

(** A suffix longer than every name in use. *)
Fixpoint pad (n : nat) : string := match n with O => "" | S n => "x" +:+ pad n end.
Definition gen (l : list Job) : string :=
  pad (S (foldr (fun j m => String.length (job_Name j) + m)%nat 0%nat l)).

Definition env0 : CEnv :=
  mkCEnv id id (fun _ => None) (fun _ => None) None (fun _ _ => None) (fun _ => None) (fun _ => None)
    (inl "image") (Join "-") (fun _ l => gen l) (fun _ => true) "harvester-system".

Definition node0 (name : string) (labels : gmap string string) (s : CPUManagerUpdateStatus) : Node :=
  mkNode (mkMeta name "" "" "" (Some labels)
            (Some {[ AnnotationCPUManagerUpdateStatus := json_marshal s ]}) [] 0 None)
    "Node" "v1" false [] [] "".
Definition requested : CPUManagerUpdateStatus :=
  mkCpuStatus CPUManagerStaticPolicy CPUManagerRequestedStatus "".
Definition w0 : CWorld := mkCWorld [node0 "n1" ∅ requested] [].
Definition w1 : CWorld := (OnNodeChanged env0 (Some (node0 "n1" ∅ requested)) w0).2.
Definition job1 : Job := default (mkJob (meta0 "" "") (mkJobSpec None None None None
   (mkPodSpec false false false "" (mkAff [] []) [] "" [] "" [])) jobStatus0) (head (cw_jobs w1)).
Definition job1done : Job :=
  mkJob (job_meta job1) (job_spec job1)
    (mkJobStatus None [mkCond JobComplete ConditionTrue "" "" ""] 0 0 1).

Lemma pad_length n : String.length (pad n) = n.
Proof.
  induction n as [|n IH]; [done|]. change (S (String.length (pad n)) = S n). by rewrite IH.
Qed.

Lemma append_length s1 s2 :
  String.length (s1 +:+ s2) = (String.length s1 + String.length s2)%nat.
Proof. induction s1 as [|a s1 IH]; [done|]. simpl. f_equal. exact IH. Qed.

Lemma env0_fresh : freshNames env0.
Proof.
  intros w j x Hx. destruct (sameJob x (named env0 w j)) eqn:Es; [|done]. exfalso.
  apply sameJob_spec in Es as [_ Hn]. apply (f_equal String.length) in Hn.
  change (job_Name (named env0 w j)) with (om_GenerateName (job_meta j) +:+ gen (cw_jobs w)) in Hn.
  rewrite append_length in Hn. unfold gen in Hn. rewrite pad_length in Hn.
  assert (Hle : (String.length (job_Name x)
    <= foldr (fun j m => String.length (job_Name j) + m)%nat 0%nat (cw_jobs w))%nat).
  { revert Hx. generalize (cw_jobs w). intros l. induction l as [|y l IH]; simpl;
      intros Hx; [by apply elem_of_nil in Hx|].
    apply elem_of_cons in Hx as [->|Hx]; [lia|]. specialize (IH Hx). lia. }
  lia.
Qed.
End CpuExamples.
Import CpuExamples.

(** The node is requested again while its job runs. *)
Lemma one_cpu_job_per_node_witness :
  let w2 := (OnNodeChanged env0 (Some (node0 "n1" ∅ requested)) w1).2 in
  map job_Name (cw_jobs w2) = [job_Name job1] /\ (length (activeJobs "n1" (cw_jobs w2)) <= 1)%nat.
Proof.
  intros w2. split; [by vm_compute|].
  apply (one_cpu_job_per_node w2 "n1"). eapply reach_step; [eapply reach_step|].
  - by apply (reach_init _ _ w0).
  - apply (c_node env0 (node0 "n1" ∅ requested)); [apply env0_fresh|done].
  - apply (c_node env0 (node0 "n1" ∅ requested)); [apply env0_fresh|done].
Defined.

(** The handler of the node runs again, with the request it has handled and a job cache that
    lacks the job it has created: a second job is created.  (The update of the node, with the
    stale object, is refused.) *)
Theorem late_job_cache_two_jobs :
  let late := mkCEnv id (fun _ => []) (fun _ => None) (fun _ => Some (ApiConflict "stale")) None
    (fun _ _ => None) (fun _ => None) (fun _ => None)
    (inl "image") (Join "-") (fun _ l => gen l) (fun _ => true) "harvester-system" in
  length (activeJobs "n1" (cw_jobs w1)) = 1%nat /\
  length (activeJobs "n1" (cw_jobs (OnNodeChanged late (Some (node0 "n1" ∅ requested)) w1).2)) = 2%nat.
Proof. by vm_compute. Qed.

Lemma cpu_request_handled_witness :
  exists node' w', OnNodeChanged env0 (Some (node0 "n1" ∅ requested)) w0
                     = (Ok (Some node'), w') /\ length (cw_jobs w') = 1%nat.
Proof.
  destruct (cpu_request_handled env0 (node0 "n1" ∅ requested) w0 requested eq_refl
    ltac:(by_eval) ltac:(by_eval) eq_refl eq_refl eq_refl eq_refl ltac:(done))
    as (node' & w' & s' & H1 & _ & _ & _ & _ & _ & _ & H2 & _).
  exists node', w'. split; [exact H1|]. by rewrite H2.
Defined.

Lemma cpu_request_ignored_witness :
  OnNodeChanged env0 (Some (node0 "n1" {[ HarvesterWitnessNodeLabelKey := "true" ]} requested)) w0
  = (Ok (Some (node0 "n1" {[ HarvesterWitnessNodeLabelKey := "true" ]} requested)), w0).
Proof.
  apply (cpu_request_ignored env0
    (node0 "n1" {[ HarvesterWitnessNodeLabelKey := "true" ]} requested) w0).
  left. by_eval.
Defined.

Lemma cpu_job_result_witness :
  exists w' node', OnJobChanged env0 (Some job1done) w1 = (Ok None, w') /\
    findNode "n1" (cw_nodes w') = Some node' /\
    nodeStatus node' = Some (mkCpuStatus CPUManagerStaticPolicy CPUManagerSuccessStatus
                               (job_Name job1done)).
Proof.
  destruct (cpu_job_result env0 job1done w1 "n1" (default (node0 "n1" ∅ requested)
    (head (cw_nodes w1))) ltac:(by_eval) ltac:(by_eval) eq_refl eq_refl ltac:(by_eval) ltac:(done))
    as (w' & node' & H1 & H2 & H3 & _).
  exists w', node'. split; [exact H1|]. split; [exact H2|exact H3].
Defined.
