(* ===== verification/NodeWebhook.v ===== *)
(** The node admission webhook, [pkg/webhook/resources/node/validator.go]: a node may
    join during an upgrade only when the upgrade allows it, the last available node
    keeps serving, a request to change the CPU manager policy is admitted only when it
    can be carried out, and a witness node keeps its mark.

    The webhook reads the nodes and jobs of [CpuManager.CWorld], the same objects the
    CPU manager controller writes, and changes nothing. *)

From S2P Require Import Prelude K8s NodeUtil Upgrade CpuManager.

(** ** Data *)

Definition LabelHarvesterLatestUpgrade : string := "harvesterhci.io/latestUpgrade".
Definition AnnotationAllowNodeJoin : string := "harvesterhci.io/allow-node-join".
Definition LabelNodeNameKey : string := "kubevirt.io/nodeName".
Definition CPUManagerLabel : string := "kubevirt.io/cpumanager".

(** Of a virtual machine instance: its metadata and [spec.domain.cpu], of which
    [dedicatedCpuPlacement]. *)
Record PinVMI := mkPinVMI { pv_meta : ObjectMeta; pv_CPU : option bool }.

(** The admission request: the user, and the controller's user when options are set. *)
Record Request := mkRequest { rq_Username : string; rq_options : option string }.

(** What the caches answer besides nodes and jobs. *)
Record WEnv := mkWEnv {
  we_cpu : CEnv;                         (* node and job caches, label validation *)
  we_nodeList : option goerror;
  we_upgrades : list Upgrade + goerror;
  we_vmis : list PinVMI + goerror }.

(** ** Helpers of other packages *)

Definition IsFromController (r : Request) : bool :=
  match rq_options r with
  | None => false
  | Some controller => String.eqb (rq_Username r) controller
  end.

(** ** Node join *)

Definition getAllowNodeJoinAnnotationCommand (upgrade : Upgrade) (overwrite : bool) : string :=
  let command := "kubectl annotate upgrade -n " +:+ om_Namespace (up_meta upgrade) +:+ " "
                 +:+ om_Name (up_meta upgrade) +:+ " " +:+ AnnotationAllowNodeJoin +:+ "=true" in
  if overwrite then command +:+ " --overwrite" else command.

Definition invalidAllowNodeJoinAnnotation (node : Node) (upgrade : Upgrade) (value : string)
  : goerror :=
  AdmitConflict ("cannot add node " +:+ quoted (node_Name node)
    +:+ " to the cluster because the upgrade " +:+ quoted (GetNamespacedName (up_meta upgrade))
    +:+ " is currently in progress and has an invalid value " +:+ quoted value
    +:+ " for annotation " +:+ AnnotationAllowNodeJoin
    +:+ ". If you must add this node now, run: "
    +:+ getAllowNodeJoinAnnotationCommand upgrade false).

Definition nodeJoinBlockedByUpgrade (node : Node) (upgrade : Upgrade) (overwrite : bool)
  : goerror :=
  AdmitConflict ("cannot add node " +:+ quoted (node_Name node)
    +:+ " to the cluster because the upgrade " +:+ quoted (GetNamespacedName (up_meta upgrade))
    +:+ " is currently in progress. "
    +:+ "Adding nodes during an upgrade can cause unexpected behavior and is not recommended. "
    +:+ "If you must add this node now, run: "
    +:+ getAllowNodeJoinAnnotationCommand upgrade overwrite).

(** The selector of the call: namespace and label. *)
Definition isLatest (u : Upgrade) : bool :=
  String.eqb (om_Namespace (up_meta u)) HarvesterSystemNamespaceName
  && bool_decide (gm_get (om_Labels (up_meta u)) LabelHarvesterLatestUpgrade = Some "true").

Section Webhook.
Context {J : JsonCodec CPUManagerUpdateStatus} (E : WEnv).

Definition upgradeCache_List : M CWorld (list Upgrade) :=
  match we_upgrades E with
  | inr e => throw e
  | inl l => mret (List.filter isLatest l)
  end.

Definition Create (req : Request) (node : Node) : M CWorld unit :=
  if IsFromController req then mret tt
  else
    existing ← try (nodeCache_Get (we_cpu E) (node_Name node));
    match existing with
    | inl _ => mret tt
    | inr _ =>
        upgrades ← mapErr (fun e => AdmitInternal ("failed to list upgrades: " +:+ error_Error e))
                     upgradeCache_List;
        match upgrades with
        | [] => mret tt
        | latestUpgrade :: _ =>
            if negb (IsUpgradeInProgress (Some latestUpgrade)) then mret tt
            else
              match gm_get (om_Annotations (up_meta latestUpgrade)) AnnotationAllowNodeJoin with
              | None => throw (nodeJoinBlockedByUpgrade node latestUpgrade false)
              | Some value =>
                  match ParseBool value with
                  | None => throw (invalidAllowNodeJoinAnnotation node latestUpgrade value)
                  | Some false => throw (nodeJoinBlockedByUpgrade node latestUpgrade true)
                  | Some true => mret tt
                  end
              end
        end
    end.

(** ** Update *)

Definition nodeCache_List : M CWorld (list Node) :=
  match we_nodeList E with
  | Some e => throw e
  | None => gets (fun w => ce_nodeView (we_cpu E) (cw_nodes w))
  end.

Definition validateCordonAndMaintenanceMode (oldNode newNode : Node) (nodeList : list Node)
  : outcome unit :=
  let newMaintenanceRequest :=
    negb (HasDrainRequest (Some oldNode)) && HasDrainRequest (Some newNode) in
  let newCordon := negb (node_Unschedulable oldNode) && node_Unschedulable newNode in
  if negb newMaintenanceRequest && negb newCordon then Ok tt
  else if IsOtherNodeAvailable (node_Name oldNode) nodeList then Ok tt
  else Err (AdmitBadRequest
              "can't enable maintenance mode or cordon on the last available node").

Fixpoint isWitnessNode (taints : list Taint) : bool :=
  match taints with
  | [] => false
  | t :: ts =>
      if String.eqb (t_Key t) "node-role.kubernetes.io/etcd" && String.eqb (t_Value t) "true"
         && String.eqb (t_Effect t) TaintEffectNoExecute
      then true else isWitnessNode ts
  end.

Definition validateWitnessRoleChange (oldNode newNode : Node) : outcome unit :=
  let isWitnessNodeTaint := isWitnessNode (node_Taints oldNode) in
  let isWitnessNodeLabel := gm_has (node_Labels oldNode) HarvesterWitnessNodeLabelKey in
  if negb isWitnessNodeTaint && negb isWitnessNodeLabel then Ok tt
  else
    let witnessTaintPersist := isWitnessNode (node_Taints newNode) in
    let witnessLabelPersist := gm_has (node_Labels newNode) HarvesterWitnessNodeLabelKey in
    if negb witnessTaintPersist || negb witnessLabelPersist
    then Err (AdmitBadRequest "Cannot remove witness node taint or label from the witness node")
    else Ok tt.

Definition checkCPUManagerLabel (node : Node) (policy : string) : outcome unit :=
  match ParseBool (gm_str (node_Labels node) CPUManagerLabel) with
  | None => Err (AdmitBadRequest "label cpumanager not found")
  | Some cpuManagerLabel =>
      if String.eqb policy CPUManagerStaticPolicy && cpuManagerLabel
         || String.eqb policy CPUManagerNonePolicy && negb cpuManagerLabel
      then Err (AdmitBadRequest
                  ("current cpu manager policy is already the same as requested value: "
                   +:+ policy))
      else Ok tt
  end.

Definition getCPUManagerRunningJobNamesOnNodes (nodeNames : list string)
  : M CWorld (list string) :=
  jobs ← GetCPUManagerRunningJobsOnNodes (we_cpu E) nodeNames; mret (map job_Name jobs).

Definition toInternal (e : goerror) : goerror := AdmitInternal (error_Error e).

Definition checkCurrentNodeCPUManagerJobs (node : Node) : M CWorld unit :=
  jobNames ← mapErr toInternal (getCPUManagerRunningJobNamesOnNodes [node_Name node]);
  match jobNames with
  | [] => mret tt
  | _ => throw (AdmitBadRequest ("there is other job " +:+ Join ", " jobNames
           +:+ " updating the cpu manager policy for this node " +:+ node_Name node))
  end.

(** The loop that collects the names of the other master nodes. *)
Fixpoint otherMasterNames (name : string) (nodes : list Node) : list string :=
  match nodes with
  | [] => []
  | n :: ns =>
      if negb (String.eqb (node_Name n) name) && IsManagementRole n
      then node_Name n :: otherMasterNames name ns
      else otherMasterNames name ns
  end.

Definition checkMasterNodeJobs (node : Node) : M CWorld unit :=
  if negb (IsManagementRole node) then mret tt
  else
    nodes ← mapErr toInternal nodeCache_List;
    match otherMasterNames (node_Name node) nodes with
    | [] => mret tt
    | masterNodeNames =>
        jobNames ← mapErr toInternal (getCPUManagerRunningJobNamesOnNodes masterNodeNames);
        match jobNames with
        | [] => mret tt
        | _ => throw (AdmitBadRequest ("the node you are trying to update the cpu manager policy is a master node, and only one master node can be updated at a time, while job "
                 +:+ Join ", " jobNames +:+ " is updating the policy for other master nodes"))
        end
    end.

(** [virtualmachineinstance.ListByNode] with an empty selector. *)
Definition ListByNode (node : Node) : outcome (list PinVMI) :=
  if negb (ce_labelOk (we_cpu E) (node_Name node)) then Err (ErrText "invalid label value")
  else
    match we_vmis E with
    | inr e => Err (ErrWrap ("failed to list VMIs on node " +:+ node_Name node) e)
    | inl l => Ok (List.filter (fun v => bool_decide
                     (gm_get (om_Labels (pv_meta v)) LabelNodeNameKey = Some (node_Name node))) l)
    end.

Fixpoint pinnedVMI (vmis : list PinVMI) : bool :=
  match vmis with
  | [] => false
  | v :: vs => match pv_CPU v with Some true => true | _ => pinnedVMI vs end
  end.

Definition checkCPUPinningVMIs (node : Node) (policy : string) : M CWorld unit :=
  if negb (String.eqb policy CPUManagerNonePolicy) then mret tt
  else
    vmis ← mapErr toInternal (lift (ListByNode node));
    if pinnedVMI vmis
    then throw (AdmitBadRequest "there should not be any running VMs with CPU pinning when disabling the CPU manager")
    else mret tt.

Definition validateCPUManagerOperation (node : Node) : M CWorld unit :=
  match gm_get (node_Annotations node) AnnotationCPUManagerUpdateStatus with
  | None => mret tt
  | Some annot =>
      if gm_has (node_Labels node) HarvesterWitnessNodeLabelKey
      then throw (AdmitBadRequest
                    "The witness node is unable to update the CPU manager policy.")
      else
        updateStatus ← mapErr (fun e => AdmitBadRequest
            ("Failed to retrieve cpu-manager-update-status from annotation: "
             +:+ error_Error e)) (lift (GetCPUManagerUpdateStatus annot));
        if negb (String.eqb (cs_Status updateStatus) CPUManagerRequestedStatus) then mret tt
        else
          let policy := cs_Policy updateStatus in
          _ ← lift (checkCPUManagerLabel node policy);
          _ ← checkCurrentNodeCPUManagerJobs node;
          _ ← checkMasterNodeJobs node;
          checkCPUPinningVMIs node policy
  end.

Definition Update (oldNode newNode : Node) : M CWorld unit :=
  nodeList ← nodeCache_List;
  _ ← lift (validateCordonAndMaintenanceMode oldNode newNode nodeList);
  _ ← validateCPUManagerOperation newNode;
  lift (validateWitnessRoleChange oldNode newNode).
End Webhook.

(** ** Lemmas *)

Section Lemmas.
Context {J : JsonCodec CPUManagerUpdateStatus}.
Implicit Types (E : WEnv) (w : CWorld).

(** The webhook changes nothing: every part of it keeps the state. *)
Definition reads {A} (m : M CWorld A) : Prop := forall w, (m w).2 = w.

Lemma reads_bind {A B} (m : M CWorld A) (f : A -> M CWorld B) :
  reads m -> (forall a, reads (f a)) -> reads (m ≫= f).
Proof.
  intros H1 H2 w. unfold mbind, M_bind. specialize (H1 w).
  destruct (m w) as [[a|e|] w']; simpl in *; subst; [apply H2|done|done].
Qed.

Lemma reads_try {A} (m : M CWorld A) : reads m -> reads (try m).
Proof. intros H w. specialize (H w). unfold try. by destruct (m w) as [[a|e|] w']. Qed.

Lemma reads_mapErr {A} f (m : M CWorld A) : reads m -> reads (mapErr f m).
Proof. intros H w. specialize (H w). unfold mapErr. by destruct (m w) as [[a|e|] w']. Qed.

Lemma reads_jobs E names : reads (GetCPUManagerRunningJobsOnNodes (we_cpu E) names).
Proof.
  intros w. unfold GetCPUManagerRunningJobsOnNodes. destruct (bool_decide _); [done|].
  destruct (negb _); [done|]. by destruct (ce_jobList _).
Qed.

(** The caches of the webhook are up to date. *)
Definition upToDate E w : Prop :=
  ce_nodeView (we_cpu E) (cw_nodes w) = cw_nodes w /\
  ce_jobView (we_cpu E) (cw_jobs w) = cw_jobs w.

Lemma reads_nodeList E : reads (nodeCache_List E).
Proof. intros w. unfold nodeCache_List. by destruct (we_nodeList E). Qed.

Lemma reads_nodeGet E name : reads (nodeCache_Get (we_cpu E) name).
Proof.
  intros w. unfold nodeCache_Get. destruct (ce_nodeGet _ _); [done|].
  by destruct (findNode name (ce_nodeView (we_cpu E) (cw_nodes w))).
Qed.

Lemma reads_upgrades E : reads (upgradeCache_List E).
Proof. intros w. unfold upgradeCache_List. by destruct (we_upgrades E). Qed.
End Lemmas.

#[export] Hint Resolve reads_jobs reads_nodeList reads_nodeGet reads_upgrades : harv.

Ltac reads_go :=
  repeat match goal with
         | |- reads (mbind _ _) => apply reads_bind; [|intros ?]
         | |- reads (try _) => apply reads_try
         | |- reads (mapErr _ _) => apply reads_mapErr
         | |- reads (match ?x with _ => _ end) => destruct x
         | |- reads (let _ := _ in _) => cbv zeta
         end; auto with harv; try (intros ?; reflexivity).

Section Facts.
Context {J : JsonCodec CPUManagerUpdateStatus}.
Implicit Types (E : WEnv) (w : CWorld).

Lemma checkJobs_reads E node : reads (checkCurrentNodeCPUManagerJobs E node).
Proof. unfold checkCurrentNodeCPUManagerJobs, getCPUManagerRunningJobNamesOnNodes. reads_go. Qed.

Lemma checkMaster_reads E node : reads (checkMasterNodeJobs E node).
Proof. unfold checkMasterNodeJobs, getCPUManagerRunningJobNamesOnNodes. reads_go. Qed.

Lemma validateCPU_reads E node : reads (validateCPUManagerOperation E node).
Proof.
  unfold validateCPUManagerOperation, checkCPUPinningVMIs.
  reads_go; auto using checkJobs_reads, checkMaster_reads.
Qed.

Lemma Create_reads E req node : reads (Create E req node).
Proof. unfold Create. reads_go. Qed.

Lemma Update_reads E old new : reads (Update E old new).
Proof. unfold Update. reads_go. apply validateCPU_reads. Qed.

Lemma Update_Ok E old new w w' :
  Update E old new w = (Ok tt, w') ->
  we_nodeList E = None /\
  validateCordonAndMaintenanceMode old new (ce_nodeView (we_cpu E) (cw_nodes w)) = Ok tt /\
  validateCPUManagerOperation E new w = (Ok tt, w) /\
  validateWitnessRoleChange old new = Ok tt.
Proof.
  unfold Update. intros H. do 3 (run_inv H; cbv beta in H).
  apply lift_Ok in H as [H ->]. apply lift_Ok in Hr0 as [Hr0 ->].
  pose proof (validateCPU_reads E new) as Hv.
  unfold nodeCache_List in Hr. destruct (we_nodeList E); [done|]. injection Hr as <- <-.
  destruct x1, x3. specialize (Hv w). rewrite Hr1 in Hv. simpl in Hv. subst. done.
Qed.

Lemma validateCordon_Ok old new l :
  validateCordonAndMaintenanceMode old new l = Ok tt <->
  (HasDrainRequest (Some new) = true -> HasDrainRequest (Some old) = true) /\
  (node_Unschedulable new = true -> node_Unschedulable old = true) \/
  exists n, n ∈ l /\ node_Name n <> node_Name old /\
    IsMaintenanceModeEngaged (Some n) = false /\ node_Unschedulable n = false.
Proof.
  rewrite <- IsOtherNodeAvailable_spec. unfold validateCordonAndMaintenanceMode.
  destruct (HasDrainRequest (Some old)), (HasDrainRequest (Some new)), (node_Unschedulable old),
    (node_Unschedulable new), (IsOtherNodeAvailable _ _); simpl; naive_solver.
Qed.

Lemma isWitnessNode_spec ts :
  isWitnessNode ts = true <->
  mkTaint "node-role.kubernetes.io/etcd" "true" TaintEffectNoExecute ∈ ts.
Proof.
  induction ts as [|[k v e] ts IH]; cbn [isWitnessNode t_Key t_Value t_Effect].
  - split; [done|]. intros H%elem_of_nil. done.
  - rewrite elem_of_cons. destruct (String.eqb_spec k "node-role.kubernetes.io/etcd"),
      (String.eqb_spec v "true"), (String.eqb_spec e TaintEffectNoExecute); simpl;
      rewrite ?IH; naive_solver.
Qed.

Lemma otherMasterNames_elem name l x :
  x ∈ otherMasterNames name l <->
  x <> name /\ exists n, n ∈ l /\ node_Name n = x /\ IsManagementRole n = true.
Proof.
  induction l as [|n l IH]; cbn [otherMasterNames].
  { split; [by intros ?%elem_of_nil|]. intros (_ & n & ?%elem_of_nil & _). done. }
  rewrite list_exists_cons_iff.
  destruct (String.eqb_spec (node_Name n) name) as [En|En], (IsManagementRole n) eqn:Em; cbn;
    rewrite ?elem_of_cons, IH; clear IH; split; intros H; naive_solver.
Qed.

(** The names the job cache answers are those of the active jobs. *)
Lemma jobNames_empty E names w :
  names <> [] -> forallb (ce_labelOk (we_cpu E)) names = true -> ce_jobList (we_cpu E) = None ->
  upToDate E w ->
  exists l, getCPUManagerRunningJobNamesOnNodes E names w = (Ok l, w) /\
    (l = [] <-> forall n, n ∈ names -> activeJobs n (cw_jobs w) = []).
Proof.
  intros Hn Hl Hj [_ Hvw].
  exists (map job_Name (List.filter isRunning (List.filter (onNodes names) (cw_jobs w)))).
  unfold getCPUManagerRunningJobNamesOnNodes, GetCPUManagerRunningJobsOnNodes.
  rewrite bool_decide_eq_false_2 by done. rewrite Hl. cbn [negb]. split.
  { unfold mbind, M_bind. by rewrite Hj, Hvw. }
  unfold activeJobs. clear Hvw. induction (cw_jobs w) as [|j l IH]; [done|]. simpl.
  assert (Ha : (exists n, n ∈ names /\ activeOn n j = true) <-> onNodes names j && isRunning j = true).
  { unfold activeOn, onNodes. destruct (gm_get (job_Labels j) _) as [m|];
      [|rewrite andb_false_l; split; [intros (n & _ & H); by rewrite andb_false_r in H|done]].
    unfold str_in. rewrite andb_true_iff, bool_decide_eq_true. split.
    - intros (n & H1 & [H2 H3]%andb_true_iff). apply bool_decide_eq_true in H3.
      apply list_elem_of_singleton in H3 as ->. done.
    - intros [H1 H2]. exists m. rewrite H2, bool_decide_eq_true_2 by (by left). done. }
  destruct (onNodes names j && isRunning j) eqn:Eb.
  - apply andb_true_iff in Eb as [-> Er]. cbn. rewrite Er. split; [done|].
    intros H. destruct (proj2 Ha eq_refl) as (n & Hin & Hact). specialize (H n Hin).
    by rewrite Hact in H.
  - assert (Hno : forall n, n ∈ names -> activeOn n j = false).
    { intros n Hin. destruct (activeOn n j) eqn:En; [|done].
      enough (false = true) by done. apply Ha. eauto. }
    assert (List.filter isRunning (if onNodes names j then j :: List.filter (onNodes names) l
              else List.filter (onNodes names) l)
            = List.filter isRunning (List.filter (onNodes names) l)) as ->.
    { destruct (onNodes names j); [|done]. simpl in Eb. simpl. by rewrite Eb. }
    rewrite IH. split; intros H n Hin; specialize (H n Hin); by rewrite (Hno n Hin) in *.
Qed.
End Facts.

(** ** Joining during an upgrade *)

(** The upgrade that decides: the first with the label, if it has not completed. *)
Definition decidingUpgrade (ups : list Upgrade) : option Upgrade :=
  match List.filter isLatest ups with
  | u :: _ => if IsUpgradeInProgress (Some u) then Some u else None
  | [] => None
  end.

Section Join.
Context {J : JsonCodec CPUManagerUpdateStatus}.

Lemma Create_run E req node w ups :
  we_upgrades E = inl ups -> IsFromController req = false ->
  (forall n, (nodeCache_Get (we_cpu E) (node_Name node) w).1 <> Ok n) ->
  Create E req node w =
  match decidingUpgrade ups with
  | None => (Ok tt, w)
  | Some u =>
      match gm_get (om_Annotations (up_meta u)) AnnotationAllowNodeJoin with
      | None => (Err (nodeJoinBlockedByUpgrade node u false), w)
      | Some v => match ParseBool v with
                  | None => (Err (invalidAllowNodeJoinAnnotation node u v), w)
                  | Some false => (Err (nodeJoinBlockedByUpgrade node u true), w)
                  | Some true => (Ok tt, w)
                  end
      end
  end.
Proof.
  intros Hu Hc Hg. unfold Create. rewrite Hc.
  assert (Ht : exists e, try (nodeCache_Get (we_cpu E) (node_Name node)) w = (Ok (inr e), w)).
  { unfold try, nodeCache_Get in *. destruct (ce_nodeGet _ _); [eauto|].
    destruct (findNode _ (ce_nodeView _ _)) as [n|]; [|eauto]. by destruct (Hg n). }
  destruct Ht as [e Ht]. rewrite (bind_run _ _ _ _ _ Ht).
  unfold upgradeCache_List. rewrite Hu. unfold decidingUpgrade.
  unfold mbind, M_bind, mapErr, mret, M_ret.
  destruct (List.filter isLatest ups) as [|u us]; [done|].
  destruct (IsUpgradeInProgress (Some u)); [|done]. simpl.
  destruct (gm_get _ _) as [v|]; [|done]. destruct (ParseBool v) as [[]|]; done.
Qed.

Lemma decidingUpgrade_allows ups :
  (forall u, decidingUpgrade ups = Some u ->
      exists v, gm_get (om_Annotations (up_meta u)) AnnotationAllowNodeJoin = Some v /\
                ParseBool v = Some true) <->
  match decidingUpgrade ups with
  | None => True
  | Some u => gm_get (om_Annotations (up_meta u)) AnnotationAllowNodeJoin ≫= ParseBool = Some true
  end.
Proof.
  destruct (decidingUpgrade ups) as [u|]; [|split; [done|by intros _ u [=]]]. split.
  - intros H. destruct (H u eq_refl) as (v & -> & Hp). exact Hp.
  - intros H u' [= <-]. apply bind_Some in H as (v & Hv & Hp). eauto.
Qed.

(** What the suggested command does to the upgrade. *)
Definition allowJoin (u x : Upgrade) : Upgrade :=
  if decide (x = u)
  then up_set_Annotations (gm_set (om_Annotations (up_meta x)) AnnotationAllowNodeJoin "true") x
  else x.

Lemma decidingUpgrade_allowJoin u ups :
  decidingUpgrade ups = Some u -> decidingUpgrade (map (allowJoin u) ups) = Some (allowJoin u u).
Proof.
  unfold decidingUpgrade.
  assert (Hl : forall x, isLatest (allowJoin u x) = isLatest x)
    by (intros x; unfold allowJoin; by destruct (decide _)).
  induction ups as [|x l IH]; simpl; [done|]. rewrite Hl. destruct (isLatest x); [|exact IH].
  unfold allowJoin. destruct (decide (x = u)) as [->|Hne].
  - rewrite decide_True by done. simpl. by destruct (negb _ && negb _).
  - destruct (negb _ && negb _); [|done]. intros [= ?]. by destruct Hne.
Qed.

(** Which nodes may join.  When upgrades can be listed, creating a node is admitted
    exactly when the request comes from the controller, or the node is known already, or
    no upgrade is in progress, or the upgrade in progress carries an annotation that
    parses as true; every other request is refused as a conflict, and nothing changes
    either way. *)
Theorem node_join_exact E req node w ups :
  we_upgrades E = inl ups ->
  (Create E req node w).2 = w /\
  ((Create E req node w).1 = Ok tt <->
   IsFromController req = true \/
   (exists n, (nodeCache_Get (we_cpu E) (node_Name node) w).1 = Ok n) \/
   (forall u, decidingUpgrade ups = Some u ->
      exists v, gm_get (om_Annotations (up_meta u)) AnnotationAllowNodeJoin = Some v /\
                ParseBool v = Some true)) /\
  ((Create E req node w).1 = Ok tt \/ exists msg, (Create E req node w).1 = Err (AdmitConflict msg)).
Proof.
  intros Hu. split; [apply Create_reads|].
  destruct (IsFromController req) eqn:Ec.
  { unfold Create. rewrite Ec. simpl. tauto. }
  destruct ((nodeCache_Get (we_cpu E) (node_Name node) w).1) as [n|e|] eqn:Eg.
  { unfold Create. rewrite Ec. pose proof (reads_nodeGet E (node_Name node) w) as Hr.
    unfold mbind, M_bind, try. destruct (nodeCache_Get _ _ w) as [o w']; simpl in *. subst.
    split; [|by left]. split; [|done]. right. left. eauto. }
  all: rewrite (Create_run E req node w ups Hu Ec) by (intros n; by rewrite Eg).
  all: assert (Hiff : (forall u, decidingUpgrade ups = Some u ->
      exists v, gm_get (om_Annotations (up_meta u)) AnnotationAllowNodeJoin = Some v /\
                ParseBool v = Some true) <->
     match decidingUpgrade ups with
     | None => True
     | Some u => gm_get (om_Annotations (up_meta u)) AnnotationAllowNodeJoin ≫= ParseBool
                 = Some true
     end) by (apply decidingUpgrade_allows).
  all: rewrite Hiff; clear Hiff; destruct (decidingUpgrade ups) as [u|];
    [|split; [split; [by right; right|done]|by left]].
  all: destruct (gm_get _ _) as [v|]; simpl; [destruct (ParseBool v) as [[]|]|];
    (split; [split; [try done; by right; right|intros [?|[[??]|?]]; done]|]);
    try (by left); right; eexists; reflexivity.
Qed.

(** The command a refusal suggests.  Setting the annotation to true, as the suggested
    command does, admits the same request afterwards; but when the annotation is there
    with a value that is no boolean, the command is printed without --overwrite, unlike
    when it is there with the value false. *)
Theorem join_refusal_command E req node w ups u v :
  we_upgrades E = inl ups -> IsFromController req = false ->
  (forall n, (nodeCache_Get (we_cpu E) (node_Name node) w).1 <> Ok n) ->
  decidingUpgrade ups = Some u ->
  gm_get (om_Annotations (up_meta u)) AnnotationAllowNodeJoin = Some v ->
  ParseBool v <> Some true ->
  (exists msg, (Create E req node w).1 =
     Err (AdmitConflict (msg +:+ getAllowNodeJoinAnnotationCommand u
                           (bool_decide (ParseBool v = Some false))))) /\
  forall E', we_cpu E' = we_cpu E -> we_upgrades E' = inl (map (allowJoin u) ups) ->
    Create E' req node w = (Ok tt, w).
Proof.
  intros Hu Hc Hg Hd Ha Hp. split.
  - rewrite (Create_run E req node w ups Hu Hc Hg), Hd, Ha.
    unfold nodeJoinBlockedByUpgrade, invalidAllowNodeJoinAnnotation.
    generalize (getAllowNodeJoinAnnotationCommand u). intros cmd.
    destruct (ParseBool v) as [[]|] eqn:Ep; [done| |]; rewrite bool_decide_decide; simpl;
      rewrite !append_assoc; eexists; reflexivity.
  - intros E' He Hu'. rewrite (Create_run E' req node w _ Hu' Hc) by (by rewrite He).
    rewrite (decidingUpgrade_allowJoin u ups Hd). unfold allowJoin. rewrite decide_True by done.
    simpl. by rewrite gm_get_set_eq.
Qed.
End Join.

(** ** Cordon, maintenance and the witness mark *)

Section Nodes.
Context {J : JsonCodec CPUManagerUpdateStatus}.

(** A request for maintenance that the drain controller has not taken up yet. *)
Definition waiting (n : Node) : Prop :=
  HasDrainRequest (Some n) = true /\ IsMaintenanceModeEngaged (Some n) = false.

(** The update asks for maintenance of the node or cordons it. *)
Definition takes (old new : Node) : Prop :=
  HasDrainRequest (Some old) = false /\ HasDrainRequest (Some new) = true \/
  node_Unschedulable old = false /\ node_Unschedulable new = true.

(** What happens to the nodes of a cluster.  An update that was admitted is stored: the name
    is immutable, and the status (with its conditions) is not written through [nodes]; the
    webhook's caches are up to date, and it is not asked to take a node while a request for
    another is waiting.  The status of a node changes: it engages in maintenance only when
    that is requested.  A node joins. *)
Inductive node_step : CWorld -> CWorld -> Prop :=
| ns_update E old new w :
    upToDate E w -> old ∈ cw_nodes w -> node_Name new = node_Name old ->
    node_Conditions new = node_Conditions old ->
    (takes old new -> forall n, n ∈ cw_nodes w -> node_Name n <> node_Name old -> ~ waiting n) ->
    Update E old new w = (Ok tt, w) ->
    node_step w (setNodes (putNode new) w)
| ns_status old cs w :
    old ∈ cw_nodes w ->
    (IsMaintenanceModeEngaged (Some (node_set_Conditions cs old)) = true ->
     IsMaintenanceModeEngaged (Some old) = true \/ HasDrainRequest (Some old) = true) ->
    node_step w (setNodes (putNode (node_set_Conditions cs old)) w)
| ns_join n w :
    node_Name n ∉ map node_Name (cw_nodes w) -> node_step w (setNodes (fun l => l ++ [n]) w).

(** Schedulable, not in maintenance and not asked to be. *)
Definition isFree (n : Node) : Prop :=
  node_Unschedulable n = false /\ IsMaintenanceModeEngaged (Some n) = false /\
  HasDrainRequest (Some n) = false.

Definition someFree (w : CWorld) : Prop :=
  NoDup (map node_Name (cw_nodes w)) /\ exists n, n ∈ cw_nodes w /\ isFree n.

Lemma putNode_names n l : map node_Name (putNode n l) = map node_Name l.
Proof.
  unfold putNode. rewrite map_map. apply map_ext. intros x.
  by destruct (String.eqb_spec (node_Name x) (node_Name n)).
Qed.

Lemma putNode_other n l x : x ∈ l -> node_Name x <> node_Name n -> x ∈ putNode n l.
Proof.
  intros Hx Hne. unfold putNode. rewrite list_elem_of_In, in_map_iff. exists x.
  rewrite <- list_elem_of_In. split; [|done]. by destruct (String.eqb_spec (node_Name x) (node_Name n)).
Qed.

Lemma putNode_self n l x : x ∈ l -> node_Name x = node_Name n -> n ∈ putNode n l.
Proof.
  intros Hx He. unfold putNode. rewrite list_elem_of_In, in_map_iff. exists x.
  rewrite <- list_elem_of_In. split; [|done]. by rewrite He, String.eqb_refl.
Qed.

Lemma names_inj l x y :
  NoDup (map node_Name l) -> x ∈ l -> y ∈ l -> node_Name x = node_Name y -> x = y.
Proof.
  induction l as [|z l IH]; simpl; [by intros _ ?%elem_of_nil|].
  intros [Hz Hl]%NoDup_cons [->|Hx]%elem_of_cons [->|Hy]%elem_of_cons He; auto;
    exfalso; apply Hz; [rewrite He|rewrite <- He]; rewrite list_elem_of_In; apply in_map;
    by rewrite <- list_elem_of_In.
Qed.

(** A write to one node, for which a free one stands in. *)
Lemma putNode_free w old new :
  someFree w -> old ∈ cw_nodes w -> node_Name new = node_Name old ->
  (isFree old -> isFree new \/ exists m, m ∈ cw_nodes w /\ node_Name m <> node_Name old /\ isFree m) ->
  someFree (setNodes (putNode new) w).
Proof.
  intros [Hnd (n & Hn & Hf)] Ho Hname Hnew. split; [simpl; by rewrite putNode_names|]. simpl.
  destruct (decide (node_Name n = node_Name old)) as [He|Hne].
  - assert (n = old) as -> by (by eapply names_inj).
    destruct (Hnew Hf) as [Hfn|(m & Hm & Hne & Hfm)].
    + exists new. split; [by eapply putNode_self|done].
    + exists m. split; [|done]. apply putNode_other; [done|]. by rewrite Hname.
  - exists n. split; [|done]. apply putNode_other; [done|]. by rewrite Hname.
Qed.

Lemma node_step_keeps w w' : someFree w -> node_step w w' -> someFree w'.
Proof.
  intros Hs Hst. destruct Hst as [E old new w Hup Ho Hname Hcond Hone Hadm|old cs w Ho He|n w Hn].
  - apply (putNode_free w old new); [done..|]. intros (Hu & He & Hd).
    apply Update_Ok in Hadm as (_ & Hc & _). rewrite (proj1 Hup) in Hc.
    destruct (HasDrainRequest (Some new)) eqn:Hd'; [|destruct (node_Unschedulable new) eqn:Hu'].
    3:{ left. split_and!; [done| |done].
        unfold IsMaintenanceModeEngaged, GetMaintenanceModeCondition in *. by rewrite Hcond. }
    all: assert (Ht : takes old new) by (unfold takes; auto).
    all: right; apply validateCordon_Ok in Hc as [[Hc1 Hc2]|(m & Hm & Hne & Ha & Hs')];
      [rewrite Hd in Hc1; rewrite Hu in Hc2; naive_solver|].
    all: exists m; split_and!; [done..|].
    all: destruct (HasDrainRequest (Some m)) eqn:Hdm; [|done]; by destruct (Hone Ht m Hm Hne).
  - apply (putNode_free w old (node_set_Conditions cs old)); [done..|]. intros (Hu & Hen & Hd).
    left. split_and!; [done| |done]. apply not_true_iff_false. intros [|]%He; congruence.
  - destruct Hs as [Hnd (m & Hm & Hf)]. split.
    + simpl. rewrite map_app. apply NoDup_app. split_and!; [done| |apply NoDup_singleton].
      simpl. intros x Hx ->%list_elem_of_singleton. done.
    + exists m. split; [|done]. simpl. apply elem_of_app. by left.
Qed.

(** C22: Cordons and requests for maintenance never take the last node.  In a cluster that has
    a schedulable node that neither is in maintenance nor has been asked to be, however many
    updates the webhook admits, one after the other, and however the drain controller takes
    up the requests meanwhile, there always is such a node; provided that the webhook sees
    the nodes as they are, no update takes a node while the request for another is waiting
    to be taken up, and no node leaves.  Without that order two requests take two nodes of
    two ([two_requests_take_all]). *)
Theorem schedulable_node_kept w0 w :
  someFree w0 -> reachable (eq w0) node_step w ->
  exists n, n ∈ cw_nodes w /\ node_Unschedulable n = false /\
    IsMaintenanceModeEngaged (Some n) = false /\ HasDrainRequest (Some n) = false.
Proof.
  intros H0 Hr. apply (invariant_reachable _ _ someFree) in Hr as [_ H].
  - destruct H as (n & Hn & Hf). exists n. split; [done|exact Hf].
  - by intros s <-.
  - intros s s' Hs Hst. by eapply node_step_keeps.
Qed.

(** A witness stays a witness.  An update that is admitted leaves a node that had the
    witness label or the etcd taint with both, and a node that carries the label
    afterwards carries no CPU manager status, requested or recorded. *)
Theorem witness_mark_kept E old new w :
  Update E old new w = (Ok tt, w) ->
  let etcd := mkTaint "node-role.kubernetes.io/etcd" "true" TaintEffectNoExecute in
  (gm_has (node_Labels old) HarvesterWitnessNodeLabelKey = true \/ etcd ∈ node_Taints old ->
   gm_has (node_Labels new) HarvesterWitnessNodeLabelKey = true /\ etcd ∈ node_Taints new) /\
  (gm_has (node_Labels new) HarvesterWitnessNodeLabelKey = true ->
   gm_get (node_Annotations new) AnnotationCPUManagerUpdateStatus = None).
Proof.
  intros (_ & _ & Hcpu & Hw)%Update_Ok. cbv zeta. split.
  - intros H. unfold validateWitnessRoleChange in Hw. rewrite <- !isWitnessNode_spec in *.
    destruct (isWitnessNode (node_Taints old)), (gm_has (node_Labels old) _), (isWitnessNode (node_Taints new)),
      (gm_has (node_Labels new) _); simpl in *; naive_solver.
  - intros Hl. unfold validateCPUManagerOperation in Hcpu.
    destruct (gm_get (node_Annotations new) _); [|done]. by rewrite Hl in Hcpu.
Qed.
End Nodes.

(** ** Requests to change the CPU manager policy *)

Section CpuRequests.
Context {J : JsonCodec CPUManagerUpdateStatus}.

Lemma checkLabel_Ok node policy :
  policy ∈ [CPUManagerNonePolicy; CPUManagerStaticPolicy] ->
  checkCPUManagerLabel node policy = Ok tt <->
  ParseBool (gm_str (node_Labels node) CPUManagerLabel)
    = Some (bool_decide (policy = CPUManagerNonePolicy)).
Proof.
  intros H. unfold checkCPUManagerLabel.
  destruct (ParseBool _) as [[]|]; [..|done];
    apply elem_of_cons in H as [->|[->|[]%elem_of_nil]%elem_of_cons]; done.
Qed.

Lemma checkCurrent_Ok E node w :
  ce_labelOk (we_cpu E) (node_Name node) = true -> ce_jobList (we_cpu E) = None ->
  upToDate E w ->
  checkCurrentNodeCPUManagerJobs E node w = (Ok tt, w) <->
  activeJobs (node_Name node) (cw_jobs w) = [].
Proof.
  intros Hl Hj Hud.
  destruct (jobNames_empty E [node_Name node] w) as (l & Hrun & Hiff);
    [done|by simpl; rewrite Hl|done|done|].
  unfold checkCurrentNodeCPUManagerJobs.
  assert (Hm : mapErr toInternal (getCPUManagerRunningJobNamesOnNodes E [node_Name node]) w
               = (Ok l, w)) by (unfold mapErr; by rewrite Hrun).
  rewrite (bind_run _ _ _ _ _ Hm).
  assert (Hl' : l = [] <-> activeJobs (node_Name node) (cw_jobs w) = []).
  { rewrite Hiff. split; [|intros ? n ->%list_elem_of_singleton; done].
    intros H. apply H. by left. }
  rewrite <- Hl'. by destruct l.
Qed.

Definition masterIdle (node : Node) (w : CWorld) : Prop :=
  forall n, n ∈ cw_nodes w -> IsManagementRole n = true -> node_Name n <> node_Name node ->
    activeJobs (node_Name n) (cw_jobs w) = [].

Lemma checkMaster_Ok E node w :
  we_nodeList E = None -> (forall n, ce_labelOk (we_cpu E) n = true) ->
  ce_jobList (we_cpu E) = None -> upToDate E w ->
  checkMasterNodeJobs E node w = (Ok tt, w) <-> (IsManagementRole node = true -> masterIdle node w).
Proof.
  intros Hn Hl Hj Hud. unfold checkMasterNodeJobs. destruct (IsManagementRole node); [|done]. cbn [negb].
  assert (Hm : mapErr toInternal (nodeCache_List E) w = (Ok (cw_nodes w), w))
    by (unfold mapErr, nodeCache_List, gets; rewrite Hn; by rewrite (proj1 Hud)).
  rewrite (bind_run _ _ _ _ _ Hm). clear Hm.
  assert (Hidle : masterIdle node w <->
    forall x, x ∈ otherMasterNames (node_Name node) (cw_nodes w) -> activeJobs x (cw_jobs w) = []).
  { unfold masterIdle. split.
    - intros H x (Hx & n & ? & <- & ?)%otherMasterNames_elem. by apply H.
    - intros H n ???. apply H. rewrite otherMasterNames_elem. eauto. }
  rewrite Hidle. clear Hidle.
  destruct (otherMasterNames _ _) as [|x xs]; [split; [by intros _ _ ? ?%elem_of_nil|done]|].
  destruct (jobNames_empty E (x :: xs) w) as (l & Hrun & Hiff);
    [done|by apply forallb_forall|done|done|].
  assert (Hm : mapErr toInternal (getCPUManagerRunningJobNamesOnNodes E (x :: xs)) w = (Ok l, w))
    by (unfold mapErr; by rewrite Hrun).
  rewrite (bind_run _ _ _ _ _ Hm), <- Hiff. destruct l; naive_solver.
Qed.

Lemma pinnedVMI_spec l : pinnedVMI l = true <-> exists v, v ∈ l /\ pv_CPU v = Some true.
Proof.
  induction l as [|v l IH]; cbn [pinnedVMI].
  - split; [done|]. by intros (v & ?%elem_of_nil & _).
  - rewrite list_exists_cons_iff, <- IH. destruct (pv_CPU v) as [[]|]; naive_solver.
Qed.

Lemma checkPinning_Ok E node policy w vmis :
  we_vmis E = inl vmis -> ce_labelOk (we_cpu E) (node_Name node) = true ->
  checkCPUPinningVMIs E node policy w = (Ok tt, w) <->
  (policy = CPUManagerNonePolicy -> forall v, v ∈ vmis ->
     gm_get (om_Labels (pv_meta v)) LabelNodeNameKey = Some (node_Name node) ->
     pv_CPU v <> Some true).
Proof.
  intros Hv Hl. unfold checkCPUPinningVMIs.
  destruct (String.eqb_spec policy CPUManagerNonePolicy) as [->|]; [|done]. cbn [negb].
  unfold ListByNode. rewrite Hl, Hv. cbn [negb].
  unfold mbind, M_bind, mapErr, lift. set (l := List.filter _ vmis).
  transitivity (pinnedVMI l = false); [by destruct (pinnedVMI l)|].
  rewrite <- not_true_iff_false, pinnedVMI_spec.
  assert (Hin : forall v, v ∈ l <-> v ∈ vmis /\
     gm_get (om_Labels (pv_meta v)) LabelNodeNameKey = Some (node_Name node)).
  { intros v. unfold l. rewrite !list_elem_of_In, filter_In. by rewrite bool_decide_eq_true. }
  setoid_rewrite Hin. naive_solver.
Qed.

(** Which requests for a CPU manager policy are admitted.  When the caches can be
    listed and are up to date, a valid request on a node without the witness label is admitted exactly when
    the node's label says the other policy is in force, no job is changing the policy of
    this node, no job is changing that of another master node when this one is a master,
    and, when pinning is to be switched off, no instance on this node has pinned CPUs. *)
Theorem cpu_request_admission E node w s vmis :
  nodeStatus node = Some s -> cs_Status s = CPUManagerRequestedStatus ->
  gm_has (node_Labels node) HarvesterWitnessNodeLabelKey = false ->
  we_nodeList E = None -> (forall n, ce_labelOk (we_cpu E) n = true) ->
  ce_jobList (we_cpu E) = None -> we_vmis E = inl vmis -> upToDate E w ->
  validateCPUManagerOperation E node w = (Ok tt, w) <->
  ParseBool (gm_str (node_Labels node) CPUManagerLabel)
    = Some (bool_decide (cs_Policy s = CPUManagerNonePolicy)) /\
  activeJobs (node_Name node) (cw_jobs w) = [] /\
  (IsManagementRole node = true -> masterIdle node w) /\
  (cs_Policy s = CPUManagerNonePolicy -> forall v, v ∈ vmis ->
     gm_get (om_Labels (pv_meta v)) LabelNodeNameKey = Some (node_Name node) ->
     pv_CPU v <> Some true).
Proof.
  intros Hs Hr Hw Hn Hl Hj Hv Hud. unfold nodeStatus in Hs. unfold validateCPUManagerOperation.
  destruct (gm_get (node_Annotations node) _) as [str|]; [|done]. rewrite Hw.
  destruct (GetCPUManagerUpdateStatus str) as [s0| |] eqn:Eg; [|done|done]. injection Hs as ->.
  apply GetStatus_Ok in Eg as [_ [_ Hp]].
  rewrite <- (checkLabel_Ok node _ Hp), <- (checkCurrent_Ok E node w (Hl _) Hj Hud),
    <- (checkMaster_Ok E node w Hn Hl Hj Hud), <- (checkPinning_Ok E node _ w vmis Hv (Hl _)).
  unfold mbind at 1, M_bind at 1, mapErr, lift at 1. rewrite Hr, String.eqb_refl. cbn [negb].
  pose proof (checkJobs_reads E node w) as H1. pose proof (checkMaster_reads E node w) as H2.
  unfold mbind, M_bind, lift.
  destruct (checkCPUManagerLabel node (cs_Policy s)) as [[]| |]; [|naive_solver..].
  destruct (checkCurrentNodeCPUManagerJobs E node w) as [[[]| |] w1]; simpl in H1; subst w1;
    [|naive_solver..].
  destruct (checkMasterNodeJobs E node w) as [[[]| |] w1]; simpl in H2; subst w1; naive_solver.
Qed.
End CpuRequests.

(** ** One master node at a time *)

Section Masters.
Context {J : JsonCodec CPUManagerUpdateStatus} (isMaster : string -> bool).

(** The nodes of the cluster have the roles [isMaster] says, and no master is missing. *)
Definition rolesOk (nodes : list Node) : Prop :=
  (forall n, n ∈ nodes -> IsManagementRole n = isMaster (node_Name n)) /\
  (forall name, isMaster name = true -> name ∈ map node_Name nodes).

(** The node carries a request that is still to be handled. *)
Definition pending (n : Node) : Prop :=
  exists s, nodeStatus n = Some s /\ cs_Status s = CPUManagerRequestedStatus.

(** A master whose policy is being changed, or is asked to be. *)
Definition busyMaster (w : CWorld) (name : string) : Prop :=
  isMaster name = true /\
  (activeJobs name (cw_jobs w) <> [] \/
   exists n, n ∈ cw_nodes w /\ node_Name n = name /\ pending n).

(** Updates of nodes that the webhook, with caches that are up to date, admits, runs of the
    controller on nodes as they are stored, and what the cluster does to jobs.  Roles do not
    change, no node leaves, and a master is asked to change its policy only when no other
    master still carries a request. *)
Inductive serial_step : CWorld -> CWorld -> Prop :=
| s_update E old new w :
    upToDate E w -> (forall n, ce_labelOk (we_cpu E) n = true) ->
    old ∈ cw_nodes w -> node_Name new = node_Name old ->
    IsManagementRole new = isMaster (node_Name new) ->
    (pending new -> forall n, n ∈ cw_nodes w -> isMaster (node_Name n) = true -> pending n ->
       node_Name n = node_Name new) ->
    Update E old new w = (Ok tt, w) ->
    serial_step w (setNodes (putNode new) w)
| s_node E n w :
    freshNames E -> showsActive E (node_Name n) w -> n ∈ cw_nodes w ->
    serial_step w (OnNodeChanged E (Some n) w).2
| s_job E job w :
    ce_nodeView E (cw_nodes w) = cw_nodes w -> serial_step w (OnJobChanged E job w).2
| s_pod E pod w : staleRefused E w -> serial_step w (OnPodChanged E pod w).2
| s_advance j j' w :
    j ∈ cw_jobs w -> job_meta j' = job_meta j -> (isRunning j' = true -> isRunning j = true) ->
    serial_step w (setJobs (putJob j') w)
| s_remove p w : serial_step w (setJobs (List.filter p) w).

Definition serialInv (w : CWorld) : Prop :=
  uniqueJobs (cw_jobs w) /\ rolesOk (cw_nodes w) /\
  forall n1 n2, busyMaster w n1 -> busyMaster w n2 -> n1 = n2.

Lemma rolesOk_put n l :
  IsManagementRole n = isMaster (node_Name n) -> rolesOk l -> rolesOk (putNode n l).
Proof.
  intros Hn [H1 H2]. split; [|by rewrite putNode_names]. intros x.
  unfold putNode. rewrite list_elem_of_In, in_map_iff. intros (y & <- & Hy).
  destruct (String.eqb _ _); [done|]. apply H1. by rewrite list_elem_of_In.
Qed.

Lemma putNode_elem n l x : x ∈ putNode n l -> x = n \/ x ∈ l.
Proof.
  unfold putNode. rewrite list_elem_of_In, in_map_iff. intros (y & <- & Hy).
  destruct (String.eqb _ _); [by left|]. right. by rewrite list_elem_of_In.
Qed.

(** Steps after which every busy master was busy before. *)
Lemma serialInv_less w w' :
  serialInv w -> uniqueJobs (cw_jobs w') -> rolesOk (cw_nodes w') ->
  (forall name, busyMaster w' name -> busyMaster w name) -> serialInv w'.
Proof. intros (_ & _ & H) Hu Hr Hb. split_and!; [done..|]. intros n1 n2 H1%Hb H2%Hb. auto. Qed.

Lemma busy_jobs w jobs name :
  (length (activeJobs name jobs) <= length (activeJobs name (cw_jobs w)))%nat ->
  busyMaster (mkCWorld (cw_nodes w) jobs) name -> busyMaster w name.
Proof.
  intros Hle [Hm [Ha|Hp]]; (split; [done|]); [left|by right]. cbn [cw_jobs] in Ha.
  intros H. rewrite H in Hle. destruct (activeJobs name jobs); [done|simpl in Hle; lia].
Qed.

(** What the admission of a request says about jobs. *)
Lemma admitted_idle E node w s :
  we_nodeList E = None -> (forall n, ce_labelOk (we_cpu E) n = true) -> upToDate E w ->
  nodeStatus node = Some s -> cs_Status s = CPUManagerRequestedStatus ->
  validateCPUManagerOperation E node w = (Ok tt, w) ->
  activeJobs (node_Name node) (cw_jobs w) = [] /\
  (IsManagementRole node = true -> masterIdle node w).
Proof.
  intros Hn Hl Hud Hs Hr Hv. unfold nodeStatus in Hs. unfold validateCPUManagerOperation in Hv.
  destruct (gm_get (node_Annotations node) _) as [str|]; [|done].
  destruct (gm_has _ _); [done|].
  destruct (GetCPUManagerUpdateStatus str) as [s0| |]; [|done|done]. injection Hs as ->.
  unfold mbind at 1, M_bind at 1, mapErr, lift at 1 in Hv.
  rewrite Hr, String.eqb_refl in Hv. cbn [negb] in Hv. cbv zeta in Hv.
  do 3 (run_inv Hv; cbv beta in Hv). apply lift_Ok in Hr0 as [_ ->].
  pose proof (checkJobs_reads E node w) as H1. rewrite Hr1 in H1. simpl in H1. subst x2.
  pose proof (checkMaster_reads E node w) as H2. rewrite Hr2 in H2. simpl in H2. subst x4.
  destruct x1, x3.
  assert (Hj : ce_jobList (we_cpu E) = None).
  { destruct (ce_jobList (we_cpu E)) eqn:Ej; [|done]. exfalso. revert Hr1.
    unfold checkCurrentNodeCPUManagerJobs, getCPUManagerRunningJobNamesOnNodes,
      GetCPUManagerRunningJobsOnNodes. rewrite bool_decide_eq_false_2 by done. simpl.
    rewrite Hl. unfold mbind, M_bind, mapErr. simpl. by rewrite Ej. }
  split; [by apply (checkCurrent_Ok E)|by apply (checkMaster_Ok E)].
Qed.

Lemma serial_update E old new w :
  serialInv w -> upToDate E w -> (forall n, ce_labelOk (we_cpu E) n = true) ->
  IsManagementRole new = isMaster (node_Name new) ->
  (pending new -> forall n, n ∈ cw_nodes w -> isMaster (node_Name n) = true -> pending n ->
     node_Name n = node_Name new) ->
  Update E old new w = (Ok tt, w) -> serialInv (setNodes (putNode new) w).
Proof.
  intros Hinv Hud Hl Hrole Hone Hup. pose proof Hinv as (Hu & Hroles & _).
  assert (Hr' : rolesOk (putNode new (cw_nodes w))) by by apply rolesOk_put.
  apply Update_Ok in Hup as (Hn & _ & Hv & _).
  assert (Hother : forall name, ~ pending new \/ isMaster (node_Name new) = false ->
    busyMaster (setNodes (putNode new) w) name -> busyMaster w name).
  { intros name Hno [Hm Hb]. split; [done|]. destruct Hb as [Hb|(n & Hin & Hname & Hp)]; [by left|].
    right. simpl in Hin. apply putNode_elem in Hin as [->|Hin]; [|eauto].
    rewrite Hname in Hno. destruct Hno; [done|congruence]. }
  destruct (isMaster (node_Name new)) eqn:Em.
  2:{ apply (serialInv_less w); [done..|]. intros name. apply Hother. by right. }
  destruct (nodeStatus new) as [s|] eqn:Es; cycle 1.
  { apply (serialInv_less w); [done..|]. intros name. apply Hother. left. intros (s & Hs & _). congruence. }
  destruct (decide (cs_Status s = CPUManagerRequestedStatus)) as [Hreq|Hreq]; cycle 1.
  { apply (serialInv_less w); [done..|]. intros name. apply Hother. left. intros (s' & Hs & ?). congruence. }
  destruct (admitted_idle E new w s Hn Hl Hud Es Hreq Hv) as [Ha Hi].
  assert (Honly : forall name, busyMaster (setNodes (putNode new) w) name -> name = node_Name new).
  { intros name [Hm [Hb|(n & Hin & <- & Hp)]].
    - destruct (decide (name = node_Name new)) as [|Hne]; [done|]. destruct Hb. cbn [cw_jobs setNodes].
      pose proof (proj2 Hroles name Hm) as Hx. rewrite list_elem_of_In, in_map_iff in Hx.
      destruct Hx as (x & <- & Hx%list_elem_of_In). apply (Hi ltac:(congruence)); [done| |done].
      by rewrite (proj1 Hroles).
    - simpl in Hin. apply putNode_elem in Hin as [->|Hin]; [done|]. apply Hone; [|done..].
      by exists s. }
  split_and!; [done..|]. intros n1 n2 ->%Honly ->%Honly. done.
Qed.

(** The controller's write to a node: it keeps name and role. *)
Definition putLike (n : Node) (w w' : CWorld) : Prop :=
  cw_nodes w' = cw_nodes w \/ exists st, cw_nodes w' = putNode (setUpdateStatus n st) (cw_nodes w).

Lemma finish_nodes E node st w :
  putLike node w ((if bool_decide (setUpdateStatus node st = node) then mret (Some node)
                   else Some <$> nodeClient_Update E (setUpdateStatus node st)) w).2.
Proof.
  destruct (bool_decide _); [by left|]. unfold fmap, M_fmap, nodeClient_Update, apiWrite.
  destruct (ce_nodeUpdate E _); [by left|]. right. by exists st.
Qed.

Lemma OnNodeChanged_nodes E n w : putLike n w (OnNodeChanged E (Some n) w).2.
Proof.
  unfold OnNodeChanged. destruct (_ || _); [by left|].
  destruct (gm_get _ _) as [annot|]; [|by left]. destruct (gm_has _ _); [by left|].
  destruct (GetCPUManagerUpdateStatus annot) as [s|e|]; [|by left|by left].
  destruct (negb _); [by left|].
  apply (bind_read _ _ _ (fun w' => putLike n w w')); [apply runningJobs_read|by left|].
  intros jobs _. destruct jobs as [|j js]; [|apply finish_nodes].
  unfold mbind, M_bind, try, submitJob. destruct (ce_image E) as [image|e]; [|apply finish_nodes].
  unfold jobClient_Create, apiWrite. destruct (ce_jobCreate E _); [apply finish_nodes|].
  destruct (finish_nodes E n (toRunningStatus s (named E w (getJob E (cs_Policy s) n image)))
    (setJobs (fun l => l ++ [named E w (getJob E (cs_Policy s) n image)]) w)) as [H|[st H]].
  - left. exact H.
  - right. exists st. exact H.
Qed.

Lemma putLike_roles n w w' : n ∈ cw_nodes w -> rolesOk (cw_nodes w) -> putLike n w w' -> rolesOk (cw_nodes w').
Proof.
  intros Hn Hr [->|[st ->]]; [done|]. apply rolesOk_put; [|done]. exact (proj1 Hr n Hn).
Qed.

(** Only a pending node changes anything, and all that changes is about it. *)
Lemma serial_node E n w :
  serialInv w -> freshNames E -> showsActive E (node_Name n) w -> n ∈ cw_nodes w ->
  serialInv (OnNodeChanged E (Some n) w).2.
Proof.
  intros Hinv Hf Hsh Hn. pose proof Hinv as (Hu & Hr & _).
  assert (Hp : pending n \/ OnNodeChanged E (Some n) w = (Ok (Some n), w)).
  { destruct (nodeStatus n) as [s|] eqn:Es; [|right; apply request_ignored; right; congruence].
    destruct (decide (cs_Status s = CPUManagerRequestedStatus)); [left; by exists s|].
    right. apply request_ignored. right. congruence. }
  destruct Hp as [Hp|Hp]; [|by rewrite Hp]. pose proof (OnNodeChanged_nodes E n w) as Hnodes.
  eapply serialInv_less; [done|by apply OnNodeChanged_unique|by eapply putLike_roles|].
  intros name [Hm Hb]. split; [done|].
  destruct (decide (name = node_Name n)) as [->|Hne]; [right; by exists n|].
  destruct Hb as [Hb|(x & Hx & Hname & Hpx)].
  - left. intros H0. apply Hb.
    destruct (OnNodeChanged_jobs E n w) as [->|(_ & pol & im & ->)]; [done|].
    unfold activeJobs in *. rewrite List.filter_app, H0. simpl. rewrite activeOn_named.
    by destruct (String.eqb_spec (node_Name n) name).
  - right. destruct Hnodes as [Hnd|[st Hnd]]; rewrite Hnd in Hx; [eauto|].
    apply putNode_elem in Hx as [->|Hx]; [|eauto]. by destruct Hne.
Qed.

(** The results of jobs are no requests. *)
Lemma result_not_pending n pol st name :
  st ∈ [CPUManagerSuccessStatus; CPUManagerFailedStatus] ->
  ~ pending (setUpdateStatus n (mkCpuStatus pol st name)).
Proof.
  intros Hst (s & Hs & Hr). unfold nodeStatus, setUpdateStatus, node_Annotations in Hs. simpl in Hs.
  rewrite gm_get_set_eq in Hs.
  destruct (GetCPUManagerUpdateStatus _) as [s'| |] eqn:Eg; [|done|done]. injection Hs as ->.
  apply GetStatus_Ok in Eg as [Eg _]. rewrite json_roundtrip in Eg. injection Eg as <-.
  simpl in Hr. subst. set_solver.
Qed.

Lemma serial_job E job w :
  serialInv w -> ce_nodeView E (cw_nodes w) = cw_nodes w -> serialInv (OnJobChanged E job w).2.
Proof.
  intros Hinv Hvw. pose proof Hinv as (Hu & Hr & _).
  assert (Hn : cw_nodes (OnJobChanged E job w).2 = cw_nodes w \/
    exists n pol st name, n ∈ cw_nodes w /\ st ∈ [CPUManagerSuccessStatus; CPUManagerFailedStatus] /\
      cw_nodes (OnJobChanged E job w).2 = putNode (setUpdateStatus n (mkCpuStatus pol st name)) (cw_nodes w)).
  { unfold OnJobChanged. destruct job as [job|]; [|by left].
    destruct (gm_get _ _) as [name|]; [|by left].
    apply (bind_read _ _ _ (fun w' => cw_nodes w' = cw_nodes w \/
      exists n pol st name, n ∈ cw_nodes w /\ st ∈ [CPUManagerSuccessStatus; CPUManagerFailedStatus] /\
        cw_nodes w' = putNode (setUpdateStatus n (mkCpuStatus pol st name)) (cw_nodes w))); [|by left|].
    { unfold nodeCache_Get. destruct (ce_nodeGet E name); [done|]. by destruct (findNode name _). }
    intros n Hget.
    assert (Hin : n ∈ cw_nodes w).
    { unfold nodeCache_Get in Hget. rewrite Hvw in Hget. destruct (ce_nodeGet E name); [done|].
      destruct (findNode name (cw_nodes w)) eqn:Ef; [|done]. injection Hget as ->.
      apply find_some in Ef as [Hin _]. by rewrite list_elem_of_In. }
    unfold updateCPUManagerStatus.
    destruct (jobCondIsTrue JobComplete job); [|destruct (jobCondIsTrue JobFailed job);
      [|destruct (bool_decide (is_Some _)); [|by left]]].
    all: destruct (bool_decide _); [by left|]; unfold mbind, M_bind, nodeClient_Update, apiWrite;
      destruct (ce_nodeUpdate E _); [by left|]; right; eexists n, _, _, _;
      (split; [done|]); (split; [|reflexivity]); set_solver. }
  eapply serialInv_less; [done|by rewrite OnJobChanged_jobs| |].
  - destruct Hn as [->|(n & pol & st & name & Hin & _ & ->)]; [done|].
    apply rolesOk_put; [|done]. exact (proj1 Hr n Hin).
  - intros name [Hm Hb]. split; [done|]. rewrite OnJobChanged_jobs in Hb.
    destruct Hb as [Hb|(x & Hx & Hname & Hp)]; [by left|right].
    destruct Hn as [Hnd|(n & pol & st & name' & Hin & Hst & Hnd)]; rewrite Hnd in Hx; [eauto|].
    apply putNode_elem in Hx as [->|Hx]; [|eauto]. by destruct (result_not_pending n pol st name' Hst).
Qed.

Lemma OnPodChanged_nodes E pod w : cw_nodes (OnPodChanged E pod w).2 = cw_nodes w.
Proof.
  unfold OnPodChanged. destruct pod as [pod|]; [|done]. destruct (_ || _); [done|].
  destruct (gm_get _ _) as [name|]; [|done]. destruct (_ && _); [|done].
  unfold mbind, M_bind, try, jobCache_Get. destruct (ce_jobGet E _ _) as [e|];
    [by destruct (IsNotFound e)|].
  destruct (List.find _ (ce_jobView E (cw_jobs w))) as [j|]; [|done]. destruct (bool_decide _); [done|].
  unfold lift. destruct (gm_store _ _ _) as [labels|e|]; [|done|done].
  destruct (bool_decide _); [done|]. unfold jobClient_Update, apiWrite.
  by destruct (ce_jobUpdate E _).
Qed.

(** A job replaced by one on the same node that runs only if it did. *)
Lemma serial_putJob j j' w :
  serialInv w -> j ∈ cw_jobs w -> sameJob j j' = true ->
  gm_get (job_Labels j') LabelCPUManagerUpdateNode
    = gm_get (job_Labels j) LabelCPUManagerUpdateNode ->
  (isRunning j' = true -> isRunning j = true) -> serialInv (setJobs (putJob j') w).
Proof.
  intros Hinv Hin Hs Hl Hrun. pose proof Hinv as (Hu & Hr & _).
  eapply serialInv_less; [done|by apply putJob_unique|done|].
  intros name. apply busy_jobs, putJob_active. intros x Hx Hxs.
  assert (x = j) as ->.
  { apply Hu; [done..|]. eapply sameJob_trans; [exact Hxs|]. by rewrite sameJob_sym. }
  by apply activeOn_meta.
Qed.

Lemma serial_step_inv w w' : serialInv w -> serial_step w w' -> serialInv w'.
Proof.
  intros Hinv Hst. destruct Hst as [E old new w Hud Hl Ho Hname Hrole Hone Hup|E n w Hf Hsh Hn
    |E job w Hvw|E pod w Hsr|j j' w Hin Hm Hrun|p w].
  - by eapply serial_update.
  - by apply serial_node.
  - by apply serial_job.
  - pose proof (OnPodChanged_nodes E pod w) as Hn.
    destruct (OnPodChanged E pod w).2 as [nodes jobs] eqn:Ep. simpl in Hn. subst nodes.
    destruct (OnPodChanged_jobs E pod w Hsr) as [Hj|(j & labels & Hin & Hj & Hlb)];
      rewrite Ep in Hj; simpl in Hj; subst jobs; [by destruct w|].
    apply (serial_putJob j); try done. by apply sameJob_spec.
  - apply (serial_putJob j); try done.
    + apply sameJob_spec. unfold job_Name. by rewrite Hm.
    + unfold job_Labels. by rewrite Hm.
  - eapply serialInv_less; [done|apply filter_unique, Hinv|apply Hinv|].
    intros name. apply busy_jobs, filter_active.
Qed.

(** C28: At most one master node at a time has an unfinished job that changes its CPU manager
    policy.  From a cluster without policy jobs and requests, in every state reached by
    updates of nodes the webhook admits, runs of the controller's handlers, and whatever the
    cluster does to jobs; provided that no master is asked to change its policy while another
    still carries a request, that the webhook's caches are up to date and the controller
    handles nodes as they are stored and sees their unfinished jobs, that roles do not change
    and no node leaves.  Without that order of requests two masters are updated at a time
    ([two_masters_updating]). *)
Theorem one_master_at_a_time w n1 n2 :
  reachable (fun s => cw_jobs s = [] /\ rolesOk (cw_nodes s) /\
    forall n, n ∈ cw_nodes s -> ~ pending n) serial_step w ->
  isMaster n1 = true -> isMaster n2 = true ->
  activeJobs n1 (cw_jobs w) <> [] -> activeJobs n2 (cw_jobs w) <> [] -> n1 = n2.
Proof.
  intros H M1 M2 A1 A2. apply (invariant_reachable _ _ serialInv) in H as (_ & _ & Hl).
  - apply Hl; split; auto.
  - intros s (Hj & Hr & Hp). unfold serialInv. rewrite Hj.
    split_and!; [intros j1 j2 H1; by apply elem_of_nil in H1|done|].
    intros m1 m2 [_ [Hb|(n & Hn & _ & Hpn)]]; [by rewrite Hj in Hb|by destruct (Hp n)].
  - intros s s' Hi Hst. by eapply serial_step_inv.
Qed.
End Masters.

(** ** Two masters at a time, and witnesses *)

Module NodeWebhookExamples.
Import CpuExamples.

Definition wenv0 (ups : list Upgrade) : WEnv := mkWEnv env0 None (inl ups) (inl []).

Definition masterLabels : gmap string string :=
  <[ CPUManagerLabel := "false" ]> {[ KubeControlPlaneNodeLabelKey := "true" ]}.
Definition plain (name : string) : Node :=
  mkNode (mkMeta name "" "" "" (Some masterLabels) None [] 0 None) "Node" "v1" false [] [] "".
Definition asked (name : string) : Node := node0 name masterLabels requested.
Definition cluster : CWorld := mkCWorld [plain "m1"; plain "m2"] [].

(** Both requests are stored before either is handled. *)
Definition bothAsked : CWorld :=
  setNodes (putNode (asked "m2")) (setNodes (putNode (asked "m1")) cluster).
Definition bothHandled : CWorld :=
  (OnNodeChanged env0 (Some (asked "m2")) (OnNodeChanged env0 (Some (asked "m1")) bothAsked).2).2.
Definition isM (name : string) : bool := str_in name ["m1"; "m2"].

Definition running (v : option string) : Upgrade :=
  upgrade0 (mkMeta "up" "" HarvesterSystemNamespaceName ""
     (Some {[ LabelHarvesterLatestUpgrade := "true" ]})
     (match v with Some v => Some {[ AnnotationAllowNodeJoin := v ]} | None => None end) [] 0 None)
    (mkUpgradeSpec "" "" true None).
Definition newNode : Node := plain "m3".
Definition user : Request := mkRequest "admin" None.

Lemma cluster_roles : rolesOk isM (cw_nodes cluster).
Proof.
  split.
  - intros n [->|[->|[]%elem_of_nil]%elem_of_cons]%elem_of_cons; by_eval.
  - intros name H. by apply bool_decide_eq_true in H.
Qed.
End NodeWebhookExamples.
Import CpuExamples NodeWebhookExamples.

(** Without that discipline the rule fails: requests for two master nodes, the second
    made before the controller has seen the first, are both admitted, because the check
    counts running jobs and there is none yet; the controller then starts a job on each. *)
Theorem two_masters_updating :
  Update (wenv0 []) (plain "m1") (asked "m1") cluster = (Ok tt, cluster) /\
  (let w1 := setNodes (putNode (asked "m1")) cluster in
   Update (wenv0 []) (plain "m2") (asked "m2") w1 = (Ok tt, w1) /\
   bothAsked = setNodes (putNode (asked "m2")) w1) /\
  length (activeJobs "m1" (cw_jobs bothHandled)) = 1%nat /\
  length (activeJobs "m2" (cw_jobs bothHandled)) = 1%nat.
Proof.
  split; [vm_compute; reflexivity|]. split; [split; [vm_compute; reflexivity|reflexivity]|].
  split; vm_compute; reflexivity.
Qed.

(** Requests for maintenance of both nodes of a cluster, the second made before the drain
    controller has taken up the first, are both admitted: the check looks for another node
    that is schedulable and not in maintenance, and does not mind that one is asked to be. *)
Theorem two_requests_take_all :
  let ask n := default n (SetDrainRequest (Some n) false) in
  let w1 := setNodes (putNode (ask (plain "m1"))) cluster in
  Update (wenv0 []) (plain "m1") (ask (plain "m1")) cluster = (Ok tt, cluster) /\
  Update (wenv0 []) (plain "m2") (ask (plain "m2")) w1 = (Ok tt, w1) /\
  forallb (fun n => HasDrainRequest (Some n))
    (cw_nodes (setNodes (putNode (ask (plain "m2"))) w1)) = true.
Proof. split; [|split]; vm_compute; reflexivity. Qed.

Lemma node_join_exact_witness :
  exists msg, (Create (wenv0 [running None]) user newNode cluster).1 = Err (AdmitConflict msg).
Proof.
  destruct (node_join_exact (wenv0 [running None]) user newNode cluster [running None] eq_refl)
    as (_ & Hiff & [H|H]); [|exact H].
  exfalso. apply Hiff in H as [H|[[n H]|H]]; [discriminate H|discriminate H|].
  destruct (H (running None)) as (v & Hv & _); [reflexivity|discriminate Hv].
Defined.

Lemma join_refusal_command_witness :
  exists msg, (Create (wenv0 [running (Some "yes")]) user newNode cluster).1
    = Err (AdmitConflict
             (msg +:+ getAllowNodeJoinAnnotationCommand (running (Some "yes")) false)).
Proof.
  destruct (join_refusal_command (wenv0 [running (Some "yes")]) user newNode cluster
    [running (Some "yes")] (running (Some "yes")) "yes" eq_refl eq_refl ltac:(intros n; discriminate)
    eq_refl eq_refl ltac:(discriminate)) as [[msg H] _].
  exists msg. exact H.
Defined.

(** Maintenance of m1 is requested and taken up. *)
Lemma schedulable_node_kept_witness :
  let asking := default (plain "m1") (SetDrainRequest (Some (plain "m1")) false) in
  let engaged := node_set_Conditions [mkNodeCond NodeConditionTypeMaintenanceMode ConditionTrue 0 0
                   NodeConditionReasonValidating ""] asking in
  let w := setNodes (putNode engaged) (setNodes (putNode asking) cluster) in
  IsMaintenanceModeEngaged (Some engaged) = true /\
  exists n, n ∈ cw_nodes w /\ node_Unschedulable n = false /\
    IsMaintenanceModeEngaged (Some n) = false /\ HasDrainRequest (Some n) = false.
Proof.
  intros asking engaged w. split; [by_eval|].
  apply (schedulable_node_kept cluster).
  - split; [by_eval|]. exists (plain "m1"). split; [by left|split_and!; reflexivity].
  - eapply reach_step; [eapply reach_step; [by apply reach_init|]|].
    + apply (ns_update (wenv0 []) (plain "m1") asking); [done|by left|reflexivity..| |vm_compute; reflexivity].
      intros _ n [->|[->|[]%elem_of_nil]%elem_of_cons]%elem_of_cons _; intros [Hd _]; discriminate Hd.
    + apply (ns_status asking); [by left|]. intros _. right. reflexivity.
Defined.

Lemma witness_mark_kept_witness :
  let w := node_set_Unschedulable false (mkNode (mkMeta "w1" "" "" ""
     (Some {[ HarvesterWitnessNodeLabelKey := "true" ]}) None [] 0 None) "Node" "v1" false
     [mkTaint "node-role.kubernetes.io/etcd" "true" TaintEffectNoExecute] [] "") in
  mkTaint "node-role.kubernetes.io/etcd" "true" TaintEffectNoExecute ∈ node_Taints w.
Proof.
  intros w. destruct (witness_mark_kept (wenv0 []) w w cluster) as [H _]; [vm_compute; reflexivity|].
  destruct H as [_ H]; [left; by_eval|exact H].
Defined.

Lemma cpu_request_admission_witness :
  validateCPUManagerOperation (wenv0 []) (asked "m1") cluster = (Ok tt, cluster).
Proof.
  apply (cpu_request_admission (wenv0 []) (asked "m1") cluster requested []);
    [by_eval|reflexivity|by_eval|reflexivity|reflexivity|reflexivity|reflexivity|done|].
  split; [by_eval|]. split; [reflexivity|]. split; [|by intros [=]].
  intros _ n _ _ _. reflexivity.
Defined.

(** m1 is asked to change its policy, and the request handled. *)
Lemma one_master_at_a_time_witness :
  let w := (OnNodeChanged env0 (Some (asked "m1")) (setNodes (putNode (asked "m1")) cluster)).2 in
  activeJobs "m1" (cw_jobs w) <> [] /\
  forall n, isM n = true -> activeJobs n (cw_jobs w) <> [] -> n = "m1".
Proof.
  intros w. assert (Ha : activeJobs "m1" (cw_jobs w) <> []) by (vm_compute; discriminate).
  split; [exact Ha|]. intros n Hn Hact.
  apply (one_master_at_a_time isM w n "m1"); [|done|reflexivity|done|done].
  eapply reach_step; [eapply reach_step|].
  - apply (reach_init _ _ cluster). split_and!; [reflexivity|apply cluster_roles|].
    intros x [->|[->|[]%elem_of_nil]%elem_of_cons]%elem_of_cons (s & Hs & _); vm_compute in Hs; discriminate Hs.
  - apply (s_update isM (wenv0 []) (plain "m1") (asked "m1"));
      [done|reflexivity|by left|reflexivity|by_eval| |vm_compute; reflexivity].
    intros _ x [->|[->|[]%elem_of_nil]%elem_of_cons]%elem_of_cons _ (s & Hs & _); vm_compute in Hs; discriminate Hs.
  - apply (s_node isM env0 (asked "m1")); [apply env0_fresh|done|by left].
Defined.
