(* ===== verification/AddonWebhook.v ===== *)
(** The addon admission webhook, [pkg/webhook/resources/addon/validator.go], and the
    dangling-flow check it uses, [pkg/util/logging/logging.go]: one addon per chart, no
    change while an operation is in progress, and no enabling or disabling that would
    break what uses the addon.

    The webhook only reads; its results are outcomes.  The iteration order of Go maps is
    a parameter; IP counts, floats in the source, are integers here. *)

From S2P Require Import Prelude K8s Addon.

(** ** Data *)

Definition RancherLoggingName : string := "rancher-logging".
Definition DeschedulerName : string := "descheduler".
Definition PCIDevicesControllerName : string := "pcidevices-controller".
Definition NvidiaDriverToolkitName : string := "nvidia-driver-toolkit".
Definition KubeOVNOperatorName : string := "kubeovn-operator".
Definition HarvesterCSIDriverLVMName : string := "harvester-csi-driver-lvm".
Definition CSIProvisionerLVM : string := "lvm.driver.harvesterhci.io".
Definition AnnotationSkipRancherLoggingAddonWebhookCheck : string :=
  "harvesterhci.io/skipRancherLoggingAddonWebhookCheck".
Definition AnnotationSkipDeschedulerAddonWebhookCheck : string :=
  "harvesterhci.io/skipDeschedulerAddonWebhookCheck".
Definition AnnotationSkipPCIDevicesControllerAddonWebhookCheck : string :=
  "harvesterhci.io/skipPCIDevicesControllerAddonWebhookCheck".
Definition AnnotationSkipNvidiaDriverToolkitAddonWebhookCheck : string :=
  "harvesterhci.io/skipNvidiaDriverToolkitAddonWebhookCheck".
Definition AddonExperimentalLabel : string := "addon.harvesterhci.io/experimental".
Definition HelmReleaseNameAnnotation : string := "meta.helm.sh/release-name".
Definition HelmReleaseNamespaceAnnotation : string := "meta.helm.sh/release-namespace".
Definition AnnStorageProvisioner : string := "volume.kubernetes.io/storage-provisioner".
Definition AnnBetaStorageProvisioner : string := "volume.beta.kubernetes.io/storage-provisioner".
Definition labelParentSRIOVGPUDevice : string := "harvesterhci.io/parentSRIOVGPUDevice".

Record Flow := mkFlow {
  fl_meta : ObjectMeta; fl_LoggingRef : string;
  fl_GlobalOutputRefs : list string; fl_LocalOutputRefs : list string }.
Record ClusterFlow := mkClusterFlow {
  cf_meta : ObjectMeta; cf_LoggingRef : string; cf_GlobalOutputRefs : list string }.
(** An output or a cluster output. *)
Record Output := mkOutput { out_meta : ObjectMeta; out_LoggingRef : string }.

(** A virtual machine: [spec.template], when there is one, with its host devices' names. *)
Record HostVM := mkHostVM { hv_meta : ObjectMeta; hv_Template : option (list string) }.
Record Subnet := mkSubnet {
  sn_Name : string; sn_Provider : string; sn_V4UsingIPs : Z; sn_V6UsingIPs : Z }.

(** A storage class with its provisioner, or a volume snapshot class with its driver. *)
Record DriverClass := mkClass { dc_meta : ObjectMeta; dc_Driver : string }.
(** A claim with its class name, or a volume snapshot with its class name. *)
Record ClassUser := mkUser { cu_meta : ObjectMeta; cu_ClassName : option string }.

(** The content of an unstructured object. *)
#[local] Set Warnings "-register-all".
Inductive Json :=
| JNull | JBool (b : bool) | JNum (z : Z) | JStr (s : string)
| JArr (l : list Json) | JObj (fields : list (string * Json)).
Record Unstructured := mkUn { un_meta : ObjectMeta; un_Object : list (string * Json) }.

(** The answers of the caches and of the client. *)
Record VEnv := mkVEnv {
  ve_addons : list Addon + goerror;
  ve_flows : list Flow + goerror;
  ve_outputs : list Output + goerror;
  ve_clusterFlows : list ClusterFlow + goerror;
  ve_clusterOutputs : list Output + goerror;
  ve_upgradeLogs : list ObjectMeta + goerror;
  ve_nodes : list Node + goerror;
  ve_vms : list HostVM + goerror;
  ve_subnets : option (list Subnet + goerror);      (* nil when the CRD is gone *)
  ve_storageClasses : list DriverClass + goerror;
  ve_pvcs : list ClassUser + goerror;
  ve_snapshots : list ClassUser + goerror;
  ve_snapshotContents : list DriverClass + goerror;
  ve_snapshotClasses : list DriverClass + goerror;
  ve_vgpus : list ObjectMeta + goerror;
  ve_blockDevices : list Unstructured + goerror;
  ve_isNoMatch : goerror -> bool;                   (* meta.IsNoMatchError *)
  ve_range : gmap string string -> list (string * string) }.   (* for range over a map *)

(** [fmt]'s %v on a slice of strings. *)
Definition showList (l : list string) : string := "[" +:+ Join " " l +:+ "]".

(** ** [pkg/util/logging/logging.go] *)

Definition outputsMap (l : list Output) (m : gmap string string) : gmap string string :=
  foldl (fun m o => <[ om_Name (out_meta o) := out_LoggingRef o ]> m) m l.

(** A nil map when there are none; later outputs of the same name overwrite. *)
Definition getOutputs (outputList : list Output) : gomap string :=
  match outputList with
  | [] => None
  | l => Some (outputsMap l ∅)
  end.

Definition getClusterOutputs (clusterOutputList : list Output) : gomap string :=
  match clusterOutputList with
  | [] => None
  | l => Some (outputsMap l ∅)
  end.

(** One loop over references: the first that names no output, or one of another
    logging, is the error. *)
Fixpoint checkRefs (what : string) (missing : string) (loggingRef : string)
    (outputs : gomap string) (refs : list string) : outcome unit :=
  match refs with
  | [] => Ok tt
  | r :: rs =>
      match gm_get outputs r with
      | None => Err (ErrText (what +:+ r +:+ missing))
      | Some lr =>
          if negb (String.eqb lr loggingRef)
          then Err (ErrText (what +:+ r +:+ ", the LoggingRef is different " +:+ loggingRef
                             +:+ " " +:+ lr))
          else checkRefs what missing loggingRef outputs rs
      end
  end.

Definition objText (kind : string) (m : ObjectMeta) : string :=
  kind +:+ " " +:+ om_Namespace m +:+ "/" +:+ om_Name m.

Definition flowDangling (flow : Flow) (outputs : gomap string) : outcome unit :=
  _ ← checkRefs (objText "flow" (fl_meta flow) +:+ " has a GlobalOutputRefs ")
        ", the Output does not exist" (fl_LoggingRef flow) outputs (fl_GlobalOutputRefs flow);
  checkRefs (objText "flow" (fl_meta flow) +:+ " has a LocalOutputRefs ")
    ", the output does not exist" (fl_LoggingRef flow) outputs (fl_LocalOutputRefs flow).

Definition clusterFlowDangling (flow : ClusterFlow) (outputs : gomap string) : outcome unit :=
  checkRefs (objText "clusterFlow" (cf_meta flow) +:+ " has a GlobalOutputRefs ")
    ", the ClusterOutput does not exist" (cf_LoggingRef flow) outputs (cf_GlobalOutputRefs flow).

Definition inNs (ns : string) (m : ObjectMeta) : bool := String.eqb (om_Namespace m) ns.

Section Validator.
Context (V : VEnv).

Definition FlowsDangling (ns : string) : outcome unit :=
  flows ← answer (ve_flows V);
  match List.filter (fun f => inNs ns (fl_meta f)) flows with
  | [] => Ok tt
  | flowlist =>
      outs ← answer (ve_outputs V);
      let outputs := getOutputs (List.filter (fun o => inNs ns (out_meta o)) outs) in
      firstErr (fun flow => flowDangling flow outputs) flowlist
  end.

Definition ClusterFlowsDangling (ns : string) : outcome unit :=
  flows ← answer (ve_clusterFlows V);
  match List.filter (fun f => inNs ns (cf_meta f)) flows with
  | [] => Ok tt
  | flowlist =>
      outs ← answer (ve_clusterOutputs V);
      let outputs := getClusterOutputs (List.filter (fun o => inNs ns (out_meta o)) outs) in
      firstErr (fun flow => clusterFlowDangling flow outputs) flowlist
  end.

(** ** [validator.go]: rancher-logging, descheduler, devices *)

Definition isUpgradeLogRunning : outcome (bool * string) :=
  logs ← wrapErr (fun e => AdmitBadRequest ("error list upgradeLog objects: " +:+ error_Error e))
           (answer (ve_upgradeLogs V));
  match List.filter (inNs HarvesterSystemNamespaceName) logs with
  | l :: _ => Ok (true, om_Namespace l +:+ "/" +:+ om_Name l)
  | [] => Ok (false, "")
  end.

Definition fixFlow (e : goerror) : goerror :=
  AdmitBadRequest (error_Error e +:+ ", fix or delete it before enabling addon").

Definition validateEnableRancherLoggingAddon (newAddon : Addon) : outcome unit :=
  _ ← wrapErr fixFlow (FlowsDangling (ad_Namespace newAddon));
  _ ← wrapErr fixFlow (ClusterFlowsDangling (ad_Namespace newAddon));
  '(upgradeLogRunning, namespacedName) ← isUpgradeLogRunning;
  if (upgradeLogRunning : bool)
  then Err (AdmitBadRequest (RancherLoggingName +:+ " addon cannot be enabled as upgradeLog "
         +:+ namespacedName +:+ " exists in the cluster, wait until the Harvester upgrade is finished or removed"))
  else Ok tt.

Definition validateDisableRancherLoggingAddon : outcome unit :=
  '(upgradeLogRunning, namespacedName) ← isUpgradeLogRunning;
  if (upgradeLogRunning : bool)
  then Err (AdmitBadRequest (RancherLoggingName +:+ " addon cannot be disabled as upgradeLog "
         +:+ namespacedName +:+ " exists in the cluster, wait until the Harvester upgrade is finished or removed"))
  else Ok tt.

Definition skips (a : Addon) (annotation : string) : bool :=
  String.eqb (gm_str (ad_Annotations a) annotation) "true".

Definition validateRancherLoggingAddonUpdate (newAddon oldAddon : Addon) : outcome unit :=
  if Bool.eqb (as_Enabled (ad_Spec oldAddon)) (as_Enabled (ad_Spec newAddon)) then Ok tt
  else
    let skip := skips newAddon AnnotationSkipRancherLoggingAddonWebhookCheck in
    if as_Enabled (ad_Spec newAddon)
    then if skip then Ok tt else validateEnableRancherLoggingAddon newAddon
    else if skip then Ok tt else validateDisableRancherLoggingAddon.

Definition validateDeschedulerAddon : outcome unit :=
  nodes ← wrapErr (fun e => AdmitBadRequest ("error listing nodes: " +:+ error_Error e))
            (answer (ve_nodes V));
  if (length nodes <=? 1)%nat
  then Err (AdmitBadRequest "descheduler addon cannot be enabled as not enough nodes exist in the cluster")
  else Ok tt.

Definition validateDeschedulerAddonUpdate (newAddon oldAddon : Addon) : outcome unit :=
  if negb (as_Enabled (ad_Spec newAddon)) then Ok tt
  else if skips newAddon AnnotationSkipDeschedulerAddonWebhookCheck then Ok tt
  else validateDeschedulerAddon.

Definition isAddonBeingDisabled (newAddon oldAddon : Addon) : bool :=
  as_Enabled (ad_Spec oldAddon) && negb (as_Enabled (ad_Spec newAddon)).

Definition listVMs : outcome (list HostVM) :=
  wrapErr (fun e => AdmitInternal ("error listing virtual machines: " +:+ error_Error e))
    (answer (ve_vms V)).

Definition vmRef (vm : HostVM) : string := om_Namespace (hv_meta vm) +:+ "/" +:+ om_Name (hv_meta vm).

Fixpoint vmsWithDevices (vms : list HostVM) : list string :=
  match vms with
  | [] => []
  | vm :: vms =>
      match hv_Template vm with
      | None => vmsWithDevices vms
      | Some devices => if (0 <? length devices)%nat then vmRef vm :: vmsWithDevices vms
                        else vmsWithDevices vms
      end
  end.

Definition validatePCIDevicesControllerAddon : outcome unit :=
  vms ← listVMs;
  match vmsWithDevices vms with
  | [] => Ok tt
  | l => Err (AdmitBadRequest ("pcidevices-controller addon cannot be disabled as the following VMs are using passthrough devices: " +:+ showList l))
  end.

Definition validatePCIDevicesControllerAddonUpdate (newAddon oldAddon : Addon) : outcome unit :=
  if negb (isAddonBeingDisabled newAddon oldAddon) then Ok tt
  else if skips newAddon AnnotationSkipPCIDevicesControllerAddonWebhookCheck then Ok tt
  else validatePCIDevicesControllerAddon.

(** [hostDeviceNames[hd.Name] = vm], over all machines. *)
Definition hostDeviceNames (vms : list HostVM) : gmap string string :=
  foldl (fun m vm => match hv_Template vm with
                     | None => m
                     | Some devices => foldl (fun m hd => <[ hd := vmRef vm ]> m) m devices
                     end) ∅ vms.

Definition vgpuDeviceNames (l : list ObjectMeta) : gset string := list_to_set (map om_Name l).

Definition validateNvidiaDriverToolkitAddon : outcome unit :=
  vms ← listVMs;
  let names := hostDeviceNames vms in
  if bool_decide (size names = 0%nat) then Ok tt
  else
    items ← wrapErr (fun e => AdmitInternal ("error listing VGPUDevices: " +:+ error_Error e))
              (answer (ve_vgpus V));
    let vgpus := vgpuDeviceNames
                   (List.filter (fun m => gm_has (om_Labels m) labelParentSRIOVGPUDevice) items) in
    let vmsWithVGPU := map snd (List.filter (fun kv => bool_decide (kv.1 ∈ vgpus))
                                  (ve_range V names)) in
    match vmsWithVGPU with
    | [] => Ok tt
    | l => Err (AdmitBadRequest ("nvidia-driver-toolkit addon cannot be disabled as the following VMs are using vGPU devices: " +:+ showList l))
    end.

Definition validateNvidiaDriverToolkitAddonUpdate (newAddon oldAddon : Addon) : outcome unit :=
  if negb (isAddonBeingDisabled newAddon oldAddon) then Ok tt
  else if skips newAddon AnnotationSkipNvidiaDriverToolkitAddonWebhookCheck then Ok tt
  else validateNvidiaDriverToolkitAddon.

(** ** [validator.go]: the LVM driver *)

(** [unstructured.NestedFieldNoCopy] and the typed accessors. *)
Fixpoint fieldOf (f : string) (m : list (string * Json)) : option Json :=
  match m with
  | [] => None
  | (k, v) :: m => if String.eqb k f then Some v else fieldOf f m
  end.

Fixpoint NestedField (val : Json) (fields : list string) : outcome (option Json) :=
  match fields with
  | [] => Ok (Some val)
  | f :: fs =>
      match val with
      | JNull => Ok None
      | JObj m => match fieldOf f m with
                  | None => Ok None
                  | Some v => NestedField v fs
                  end
      | _ => Err (ErrText "accessor error")
      end
  end.

Definition NestedBool (obj : list (string * Json)) (fields : list string) : outcome (option bool) :=
  v ← NestedField (JObj obj) fields;
  match v with
  | None => Ok None
  | Some (JBool b) => Ok (Some b)
  | Some _ => Err (ErrText "accessor error")
  end.

Definition NestedMap (obj : list (string * Json)) (fields : list string)
  : outcome (option (list (string * Json))) :=
  v ← NestedField (JObj obj) fields;
  match v with
  | None => Ok None
  | Some (JObj m) => Ok (Some m)
  | Some _ => Err (ErrText "accessor error")
  end.

Definition isLVMAddonHelmManaged (m : ObjectMeta) : bool :=
  String.eqb (gm_str (om_Annotations m) HelmReleaseNameAnnotation) HarvesterCSIDriverLVMName
  && String.eqb (gm_str (om_Annotations m) HelmReleaseNamespaceAnnotation)
       HarvesterSystemNamespaceName.

Definition objectNamespacedName (m : ObjectMeta) : string :=
  if String.eqb (om_Namespace m) "" then om_Name m else GetNamespacedName m.

(** The loop shared by [getLVMStorageClasses] and [getLVMVolumeSnapshotClasses]. *)
Fixpoint lvmClasses (l : list DriverClass) : gset string * list string :=
  match l with
  | [] => (∅, [])
  | sc :: l =>
      let '(names, blockers) := lvmClasses l in
      if negb (String.eqb (dc_Driver sc) CSIProvisionerLVM) then (names, blockers)
      else ({[ om_Name (dc_meta sc) ]} ∪ names,
            if isLVMAddonHelmManaged (dc_meta sc) then blockers
            else om_Name (dc_meta sc) :: blockers)
  end.

Definition getLVMStorageClasses : outcome (gset string * list string) :=
  storageClasses ← answer (ve_storageClasses V);
  let '(names, blockers) := lvmClasses storageClasses in
  Ok (names, sortStrings blockers).

Definition getLVMVolumeSnapshotClasses : outcome (gset string * list string) :=
  classes ← answer (ve_snapshotClasses V);
  let '(names, blockers) := lvmClasses classes in
  Ok (names, sortStrings blockers).

Definition isLVMPersistentVolumeClaim (pvc : ClassUser) (lvmStorageClasses : gset string) : bool :=
  match cu_ClassName pvc with
  | Some c => bool_decide (c ∈ lvmStorageClasses)
  | None => false
  end
  || String.eqb (gm_str (om_Annotations (cu_meta pvc)) AnnStorageProvisioner) CSIProvisionerLVM
  || String.eqb (gm_str (om_Annotations (cu_meta pvc)) AnnBetaStorageProvisioner) CSIProvisionerLVM.

Definition getLVMPVCs (lvmStorageClasses : gset string) : outcome (list string) :=
  pvcs ← answer (ve_pvcs V);
  Ok (sortStrings (map (fun p => objectNamespacedName (cu_meta p))
        (List.filter (fun p => isLVMPersistentVolumeClaim p lvmStorageClasses) pvcs))).

Definition getLVMVolumeSnapshots (lvmVolumeSnapshotClasses : gset string) : outcome (list string) :=
  snapshots ← answer (ve_snapshots V);
  Ok (sortStrings (map (fun p => objectNamespacedName (cu_meta p))
        (List.filter (fun s => match cu_ClassName s with
                               | None => false
                               | Some c => bool_decide (c ∈ lvmVolumeSnapshotClasses)
                               end) snapshots))).

Definition getLVMVolumeSnapshotContents : outcome (list string) :=
  contents ← answer (ve_snapshotContents V);
  Ok (sortStrings (map (fun c => om_Name (dc_meta c))
        (List.filter (fun c => String.eqb (dc_Driver c) CSIProvisionerLVM) contents))).

(** A missing resource kind means no devices. *)
Definition listBlockDevices : outcome (list Unstructured) :=
  match ve_blockDevices V with
  | inl l => Ok l
  | inr e => if IsNotFound e || ve_isNoMatch V e then Ok [] else Err e
  end.

Fixpoint lvmBlockDevices (l : list Unstructured) : outcome (list string) :=
  match l with
  | [] => Ok []
  | d :: l =>
      provisioned ← NestedBool (un_Object d) ["spec"; "provision"];
      if negb (default false provisioned) then lvmBlockDevices l
      else
        lvm ← NestedMap (un_Object d) ["spec"; "provisioner"; "lvm"];
        match lvm with
        | None => lvmBlockDevices l
        | Some _ => bs ← lvmBlockDevices l; Ok (objectNamespacedName (un_meta d) :: bs)
        end
  end.

Definition getLVMBlockDevices : outcome (list string) :=
  blockDevices ← listBlockDevices;
  blockers ← lvmBlockDevices blockDevices;
  Ok (sortStrings blockers).

Definition formatLVMBlocker (kind : string) (names : list string) : string :=
  kind +:+ " " +:+ showList names.

Definition formatLVMAddonBlockersError (blockers : list string) : string :=
  HarvesterCSIDriverLVMName +:+ " addon cannot be disabled as LVM resources still exist: "
  +:+ Join "; " blockers +:+ ". Delete these resources before disabling the addon".

Definition listErr (what : string) (e : goerror) : goerror :=
  AdmitInternal (what +:+ ": " +:+ error_Error e).

(** [toBlocker] on names that could be listed. *)
Definition toBlocker (kind : string) (names : list string) : string :=
  match names with [] => "" | _ => formatLVMBlocker kind names end.

Definition validateDisableLVMAddon : outcome unit :=
  '(storageClasses, scs) ← wrapErr (listErr "failed to list storage classes")
                             getLVMStorageClasses;
  pvcs ← wrapErr (listErr "failed to list persistent volume claims") (getLVMPVCs storageClasses);
  '(volumeSnapshotClasses, vscs) ← wrapErr (listErr "failed to list volume snapshot classes")
                                     getLVMVolumeSnapshotClasses;
  vss ← wrapErr (listErr "failed to list volume snapshots")
          (getLVMVolumeSnapshots volumeSnapshotClasses);
  vscons ← wrapErr (listErr "failed to list volume snapshot contents")
             getLVMVolumeSnapshotContents;
  bds ← wrapErr (listErr "failed to list block devices") getLVMBlockDevices;
  let blockers := List.filter (fun b => negb (String.eqb b ""))
    [toBlocker "StorageClass" scs; toBlocker "PersistentVolumeClaim" pvcs;
     toBlocker "VolumeSnapshotClass" vscs; toBlocker "VolumeSnapshot" vss;
     toBlocker "VolumeSnapshotContent" vscons; toBlocker "BlockDevice" bds] in
  match blockers with
  | [] => Ok tt
  | _ => Err (AdmitBadRequest (formatLVMAddonBlockersError blockers))
  end.

Definition validateLVMAddonUpdate (newAddon oldAddon : Addon) : outcome unit :=
  if negb (isAddonBeingDisabled newAddon oldAddon) then Ok tt
  else validateDisableLVMAddon.

(** ** [validator.go]: KubeOVN *)

Fixpoint subnetInUse (l : list Subnet) : option Subnet :=
  match l with
  | [] => None
  | s :: l => if negb (sn_V4UsingIPs s =? 0)%Z || negb (sn_V6UsingIPs s =? 0)%Z then Some s
              else subnetInUse l
  end.

Definition validateKubeOVNAddonUpdate (newAddon oldAddon : Addon) : outcome unit :=
  if negb (isAddonBeingDisabled newAddon oldAddon) then Ok tt
  else
    match ve_subnets V with
    | None => Ok tt
    | Some r =>
        subnets ← wrapErr (fun e => AdmitInternal
                     ("failed to retrieve subnets err=" +:+ error_Error e)) (answer r);
        match subnetInUse subnets with
        | None => Ok tt
        | Some s => Err (AdmitBadRequest ("kubeovn-operator addon cannot be disabled as VMs attached to overlay network "
             +:+ sn_Provider s +:+ " in subnet " +:+ sn_Name s
             +:+ " are still in use, delete the VMs before disabling the addon"))
        end
    end.

(** ** [validator.go]: the operations *)

Definition validateNewAddon (newAddon : Addon) : outcome unit :=
  addonList ← wrapErr (fun e => AdmitInternal ("cannot list addons, err: " +:+ error_Error e))
                (answer (ve_addons V));
  match List.find (fun a => String.eqb (as_Chart (ad_Spec a)) (as_Chart (ad_Spec newAddon)))
          addonList with
  | Some a => Err (AdmitConflict ("addon with Chart " +:+ quoted (as_Chart (ad_Spec a))
                +:+ " has been created, cannot create a new one"))
  | None => Ok tt
  end.

Definition Create (newAddon : Addon) : outcome unit := validateNewAddon newAddon.

Definition validateUpdatedAddon (newAddon oldAddon : Addon) : outcome unit :=
  if negb (String.eqb (as_Chart (ad_Spec newAddon)) (as_Chart (ad_Spec oldAddon)))
  then Err (AdmitBadRequest "chart field cannot be changed.")
  else if condTrue AddonOperationInProgress oldAddon
  then Err (AdmitBadRequest ("cannot perform operation, as an existing operation is in progress on addon "
              +:+ ad_Name oldAddon))
  else if String.eqb (ad_Name newAddon) RancherLoggingName
  then validateRancherLoggingAddonUpdate newAddon oldAddon
  else if String.eqb (ad_Name newAddon) DeschedulerName
  then validateDeschedulerAddonUpdate newAddon oldAddon
  else if String.eqb (ad_Name newAddon) PCIDevicesControllerName
  then validatePCIDevicesControllerAddonUpdate newAddon oldAddon
  else if String.eqb (ad_Name newAddon) NvidiaDriverToolkitName
  then validateNvidiaDriverToolkitAddonUpdate newAddon oldAddon
  else if String.eqb (ad_Name newAddon) KubeOVNOperatorName
  then validateKubeOVNAddonUpdate newAddon oldAddon
  else if String.eqb (ad_Name newAddon) HarvesterCSIDriverLVMName
  then validateLVMAddonUpdate newAddon oldAddon
  else Ok tt.

Definition Update (oldAddon newAddon : Addon) : outcome unit :=
  validateUpdatedAddon newAddon oldAddon.

Definition Delete (oldAddon : option Addon) : outcome unit :=
  match oldAddon with
  | None => Ok tt
  | Some a =>
      if String.eqb (ad_Name a) KubeOVNOperatorName || String.eqb (ad_Name a) RancherLoggingName
         || String.eqb (ad_Name a) RancherMonitoringName
         || negb (String.eqb (gm_str (om_Labels (ad_meta a)) AddonExperimentalLabel) "true")
      then Err (AdmitBadRequest (ad_Namespace a +:+ "/" +:+ ad_Name a +:+ " addon cannot be deleted"))
      else Ok tt
  end.
End Validator.

(** ** Lemmas *)

Lemma checkRefs_Ok what missing lr outputs refs :
  checkRefs what missing lr outputs refs = Ok tt <->
  forall r, r ∈ refs -> gm_get outputs r = Some lr.
Proof.
  induction refs as [|r refs IH]; cbn [checkRefs].
  - split; [by intros _ a ?%elem_of_nil|done].
  - rewrite list_forall_cons_iff, <- IH. destruct (gm_get outputs r) as [lr'|]; [|naive_solver].
    destruct (String.eqb_spec lr' lr); simpl; naive_solver.
Qed.

(** The map of outputs has exactly the outputs listed, names being unique. *)
Lemma outputsMap_lookup l m r lr :
  NoDup (map (fun o => om_Name (out_meta o)) l) ->
  outputsMap l m !! r = Some lr <->
  (exists o, o ∈ l /\ om_Name (out_meta o) = r /\ out_LoggingRef o = lr) \/
  (~ r ∈ map (fun o => om_Name (out_meta o)) l) /\ m !! r = Some lr.
Proof.
  revert m. induction l as [|o l IH]; intros m; simpl.
  - intros _. split; [intros H; right; split; [by apply not_elem_of_nil|done]|].
    intros [(o & Ho & _)|[_ H]]; [by apply elem_of_nil in Ho|done].
  - intros [Hn Hnd]%NoDup_cons. rewrite (IH _ Hnd), list_exists_cons_iff, not_elem_of_cons.
    rewrite lookup_insert. case_decide as E.
    + subst r. split; [intros [H|[_ [= <-]]]; auto|].
      intros [[[_ <-]|(o' & Ho & He & <-)]|[[H _] _]]; [by right| |done].
      exfalso. apply Hn. rewrite <- He. apply list_elem_of_In.
      apply (in_map (fun o => om_Name (out_meta o))). by apply list_elem_of_In.
    + naive_solver.
Qed.

Lemma getOutputs_get l r lr :
  NoDup (map (fun o => om_Name (out_meta o)) l) ->
  gm_get (getOutputs l) r = Some lr <->
  exists o, o ∈ l /\ om_Name (out_meta o) = r /\ out_LoggingRef o = lr.
Proof.
  intros Hnd. destruct l as [|o l].
  - split; [done|]. by intros (o & ?%elem_of_nil & _).
  - unfold getOutputs, gm_get. rewrite outputsMap_lookup by done. rewrite lookup_empty.
    naive_solver.
Qed.

Lemma inNs_true ns m : inNs ns m = true <-> om_Namespace m = ns.
Proof. apply String.eqb_eq. Qed.

(** Every reference of a flow in [ns] names an output there of the same logging. *)
Definition resolved (ns : string) (outs : list Output) (loggingRef : string) (refs : list string)
  : Prop :=
  forall r, r ∈ refs -> exists o, o ∈ outs /\ om_Namespace (out_meta o) = ns /\
    om_Name (out_meta o) = r /\ out_LoggingRef o = loggingRef.

Definition uniqueIn (ns : string) (outs : list Output) : Prop :=
  NoDup (map (fun o => om_Name (out_meta o)) (List.filter (fun o => inNs ns (out_meta o)) outs)).

Lemma checkRefs_resolved what missing lr ns outs refs :
  uniqueIn ns outs ->
  checkRefs what missing lr (getOutputs (List.filter (fun o => inNs ns (out_meta o)) outs)) refs
    = Ok tt <-> resolved ns outs lr refs.
Proof.
  intros Hu. rewrite checkRefs_Ok. unfold resolved.
  setoid_rewrite (getOutputs_get _ _ _ Hu). setoid_rewrite filter_elem.
  setoid_rewrite inNs_true. naive_solver.
Qed.

Lemma FlowsDangling_Ok V ns flows outs :
  ve_flows V = inl flows -> ve_outputs V = inl outs -> uniqueIn ns outs ->
  FlowsDangling V ns = Ok tt <->
  forall f, f ∈ flows -> om_Namespace (fl_meta f) = ns ->
    resolved ns outs (fl_LoggingRef f) (fl_GlobalOutputRefs f) /\
    resolved ns outs (fl_LoggingRef f) (fl_LocalOutputRefs f).
Proof.
  intros Hf Ho Hu. unfold FlowsDangling. rewrite Hf. cbn [answer]. cbv [mbind outcome_bind].
  assert (Hin : forall f, f ∈ List.filter (fun f => inNs ns (fl_meta f)) flows <->
    f ∈ flows /\ om_Namespace (fl_meta f) = ns)
    by (intros f; by rewrite filter_elem, inNs_true).
  destruct (List.filter _ flows) as [|f0 fs].
  - split; [|done]. intros _ f H1 H2. assert (H : f ∈ []) by (by apply Hin). by apply elem_of_nil in H.
  - rewrite Ho. cbn [answer]. rewrite firstErr_Ok. setoid_rewrite Hin.
    assert (Hd : forall f, flowDangling f (getOutputs (List.filter
        (fun o => inNs ns (out_meta o)) outs)) = Ok tt <->
      resolved ns outs (fl_LoggingRef f) (fl_GlobalOutputRefs f) /\
      resolved ns outs (fl_LoggingRef f) (fl_LocalOutputRefs f)).
    { intros f. unfold flowDangling. rewrite obind_Ok.
      rewrite <- !checkRefs_resolved by done. split; [by intros ([] & -> & ->)|].
      intros [H1 H2]. exists tt. eauto. }
    setoid_rewrite Hd. naive_solver.
Qed.

Lemma ClusterFlowsDangling_Ok V ns flows outs :
  ve_clusterFlows V = inl flows -> ve_clusterOutputs V = inl outs -> uniqueIn ns outs ->
  ClusterFlowsDangling V ns = Ok tt <->
  forall f, f ∈ flows -> om_Namespace (cf_meta f) = ns ->
    resolved ns outs (cf_LoggingRef f) (cf_GlobalOutputRefs f).
Proof.
  intros Hf Ho Hu. unfold ClusterFlowsDangling. rewrite Hf. cbn [answer]. cbv [mbind outcome_bind].
  assert (Hin : forall f, f ∈ List.filter (fun f => inNs ns (cf_meta f)) flows <->
    f ∈ flows /\ om_Namespace (cf_meta f) = ns)
    by (intros f; by rewrite filter_elem, inNs_true).
  destruct (List.filter _ flows) as [|f0 fs].
  - split; [|done]. intros _ f H1 H2. assert (H : f ∈ []) by (by apply Hin). by apply elem_of_nil in H.
  - rewrite Ho. cbn [answer]. change getClusterOutputs with getOutputs.
    rewrite firstErr_Ok. setoid_rewrite Hin. unfold clusterFlowDangling.
    setoid_rewrite checkRefs_resolved; [|done]. naive_solver.
Qed.

Lemma isUpgradeLogRunning_spec V logs :
  ve_upgradeLogs V = inl logs ->
  exists b n, isUpgradeLogRunning V = Ok (b, n) /\
    (b = false <-> forall l, l ∈ logs -> om_Namespace l <> HarvesterSystemNamespaceName).
Proof.
  intros Hl. unfold isUpgradeLogRunning. rewrite Hl. cbn.
  assert (Hin : forall l, l ∈ List.filter (inNs HarvesterSystemNamespaceName) logs <->
    l ∈ logs /\ om_Namespace l = HarvesterSystemNamespaceName)
    by (intros l; by rewrite filter_elem, inNs_true).
  destruct (List.filter _ logs) as [|l ls]; do 2 eexists; (split; [done|]).
  - split; [|done]. intros _ l H1 H2. assert (H : l ∈ []) by (by apply Hin). by apply elem_of_nil in H.
  - split; [done|]. intros H. destruct (proj1 (Hin l)) as [H1 H2]; [by left|]. by destruct (H l).
Qed.

(** ** Logging *)

(** When the rancher-logging addon may be enabled.  With the caches listed and output
    names unique in the addon's namespace, enabling is admitted exactly when every
    reference of every flow and cluster flow there resolves to an output of the same
    logging and no upgrade log exists. *)
Theorem logging_enable_exact V a flows outs cflows couts logs :
  ve_flows V = inl flows -> ve_outputs V = inl outs -> ve_clusterFlows V = inl cflows ->
  ve_clusterOutputs V = inl couts -> ve_upgradeLogs V = inl logs ->
  uniqueIn (ad_Namespace a) outs -> uniqueIn (ad_Namespace a) couts ->
  validateEnableRancherLoggingAddon V a = Ok tt <->
  (forall f, f ∈ flows -> om_Namespace (fl_meta f) = ad_Namespace a ->
     resolved (ad_Namespace a) outs (fl_LoggingRef f) (fl_GlobalOutputRefs f) /\
     resolved (ad_Namespace a) outs (fl_LoggingRef f) (fl_LocalOutputRefs f)) /\
  (forall f, f ∈ cflows -> om_Namespace (cf_meta f) = ad_Namespace a ->
     resolved (ad_Namespace a) couts (cf_LoggingRef f) (cf_GlobalOutputRefs f)) /\
  (forall l, l ∈ logs -> om_Namespace l <> HarvesterSystemNamespaceName).
Proof.
  intros Hf Ho Hcf Hco Hl Hu1 Hu2. unfold validateEnableRancherLoggingAddon.
  rewrite <- (FlowsDangling_Ok V _ flows outs) by done.
  rewrite <- (ClusterFlowsDangling_Ok V _ cflows couts) by done.
  destruct (isUpgradeLogRunning_spec V logs Hl) as (b & n & Hrun & <-). rewrite Hrun.
  generalize (FlowsDangling V (ad_Namespace a)) (ClusterFlowsDangling V (ad_Namespace a)).
  intros [[]| |] [[]| |]; destruct b; cbn; naive_solver.
Qed.

(** A flow that refers to a cluster output.  In a namespace with a cluster output and
    no output, a flow whose only reference is to that cluster output, as a global
    reference, keeps the addon from being enabled: global references of flows are looked
    up among the outputs. *)
Theorem flow_global_ref_refused V a f o outs :
  ve_flows V = inl [f] -> ve_clusterOutputs V = inl [o] -> ve_outputs V = inl outs ->
  om_Namespace (fl_meta f) = ad_Namespace a -> om_Namespace (out_meta o) = ad_Namespace a ->
  (forall x, x ∈ outs -> om_Namespace (out_meta x) <> ad_Namespace a) ->
  fl_GlobalOutputRefs f = [om_Name (out_meta o)] -> fl_LoggingRef f = out_LoggingRef o ->
  exists msg, validateEnableRancherLoggingAddon V a = Err (AdmitBadRequest msg).
Proof.
  intros Hf Hco Ho Hn1 Hn2 Hno Hg Hlr. unfold validateEnableRancherLoggingAddon, FlowsDangling.
  rewrite Hf, Ho. cbn. unfold inNs at 1. rewrite Hn1, String.eqb_refl. cbn.
  assert (List.filter (fun o => inNs (ad_Namespace a) (out_meta o)) outs = []) as ->.
  { destruct (List.filter _ outs) as [|x l] eqn:E; [done|].
    assert (Hx : x ∈ x :: l) by (by left). rewrite <- E, filter_elem, inNs_true in Hx.
    destruct Hx as [Hx1 Hx2]. by destruct (Hno x Hx1). }
  unfold flowDangling. rewrite Hg. cbn. eauto.
Qed.

(** ** LVM *)


Lemma lvmClasses_names l c :
  c ∈ (lvmClasses l).1 <->
  exists sc, sc ∈ l /\ om_Name (dc_meta sc) = c /\ dc_Driver sc = CSIProvisionerLVM.
Proof.
  induction l as [|sc l IH]; cbn [lvmClasses].
  - split; [set_solver|]. by intros (sc & ?%elem_of_nil & _).
  - rewrite list_exists_cons_iff, <- IH. destruct (lvmClasses l) as [names bs].
    destruct (String.eqb_spec (dc_Driver sc) CSIProvisionerLVM); simpl; set_solver.
Qed.

Lemma lvmClasses_blockers l :
  (lvmClasses l).2 = map (fun sc => om_Name (dc_meta sc))
    (List.filter (fun sc => String.eqb (dc_Driver sc) CSIProvisionerLVM
                            && negb (isLVMAddonHelmManaged (dc_meta sc))) l).
Proof.
  induction l as [|sc l IH]; cbn [lvmClasses List.filter]; [done|].
  destruct (lvmClasses l) as [names bs]. simpl in IH. subst bs.
  destruct (String.eqb _ _); simpl; [|done]. by destruct (isLVMAddonHelmManaged _).
Qed.

Lemma map_filter_nil {A B} (g : A -> B) (p : A -> bool) l :
  map g (List.filter p l) = [] <-> forall x, x ∈ l -> p x = false.
Proof.
  induction l as [|x l IH]; simpl.
  - split; [by intros _ y ?%elem_of_nil|done].
  - rewrite list_forall_cons_iff, <- IH. destruct (p x); simpl; naive_solver.
Qed.

Lemma toBlocker_empty kind names :
  kind <> "" -> String.eqb (toBlocker kind names) "" = true <-> names = [].
Proof.
  intros Hk. unfold toBlocker, formatLVMBlocker. destruct names; [done|].
  destruct kind; [done|]. split; [|done]. by intros ?%String.eqb_eq.
Qed.

(** A device that is provisioned for LVM; the accessors may fail on malformed objects. *)
Definition wellFormed (d : Unstructured) : Prop :=
  (exists b, NestedBool (un_Object d) ["spec"; "provision"] = Ok b) /\
  (exists m, NestedMap (un_Object d) ["spec"; "provisioner"; "lvm"] = Ok m).
Definition isLvmDevice (d : Unstructured) : bool :=
  match NestedBool (un_Object d) ["spec"; "provision"],
        NestedMap (un_Object d) ["spec"; "provisioner"; "lvm"] with
  | Ok (Some true), Ok (Some _) => true
  | _, _ => false
  end.

Lemma lvmBlockDevices_run l :
  (forall d, d ∈ l -> wellFormed d) ->
  lvmBlockDevices l = Ok (map (fun d => objectNamespacedName (un_meta d)) (List.filter isLvmDevice l)).
Proof.
  induction l as [|d l IH]; cbn [lvmBlockDevices List.filter]; [done|].
  rewrite list_forall_cons_iff. intros [[[b Hb] [m Hm]] Hl]. unfold isLvmDevice at 1.
  rewrite Hb, Hm, (IH Hl). by destruct b as [[]|], m as [m|].
Qed.

(** What the LVM check reads, and the six kinds of names it finds. *)
Record lvmLists (V : VEnv) := {
  ll_sc : list DriverClass; ll_pvc : list ClassUser; ll_vsc : list DriverClass;
  ll_vs : list ClassUser; ll_con : list DriverClass; ll_bd : list Unstructured;
  ll_sc_ok : ve_storageClasses V = inl ll_sc; ll_pvc_ok : ve_pvcs V = inl ll_pvc;
  ll_vsc_ok : ve_snapshotClasses V = inl ll_vsc; ll_vs_ok : ve_snapshots V = inl ll_vs;
  ll_con_ok : ve_snapshotContents V = inl ll_con; ll_bd_ok : listBlockDevices V = Ok ll_bd;
  ll_wf : forall d, d ∈ ll_bd -> wellFormed d }.

Definition freeClass (sc : DriverClass) : bool :=
  String.eqb (dc_Driver sc) CSIProvisionerLVM && negb (isLVMAddonHelmManaged (dc_meta sc)).
Definition lvmSnapshot (classes : gset string) (s : ClassUser) : bool :=
  match cu_ClassName s with None => false | Some c => bool_decide (c ∈ classes) end.
Definition lvmContent (c : DriverClass) : bool := String.eqb (dc_Driver c) CSIProvisionerLVM.

Definition lvmNames {V} (L : lvmLists V) : list (string * list string) :=
  [("StorageClass", map (fun c => om_Name (dc_meta c)) (List.filter freeClass (ll_sc V L)));
   ("PersistentVolumeClaim", map (fun p => objectNamespacedName (cu_meta p))
      (List.filter (fun p => isLVMPersistentVolumeClaim p (lvmClasses (ll_sc V L)).1) (ll_pvc V L)));
   ("VolumeSnapshotClass", map (fun c => om_Name (dc_meta c)) (List.filter freeClass (ll_vsc V L)));
   ("VolumeSnapshot", map (fun p => objectNamespacedName (cu_meta p))
      (List.filter (lvmSnapshot (lvmClasses (ll_vsc V L)).1) (ll_vs V L)));
   ("VolumeSnapshotContent", map (fun c => om_Name (dc_meta c))
      (List.filter lvmContent (ll_con V L)));
   ("BlockDevice", map (fun d => objectNamespacedName (un_meta d))
      (List.filter isLvmDevice (ll_bd V L)))].

Lemma validateDisableLVM_run V (L : lvmLists V) :
  validateDisableLVMAddon V =
  let blockers := List.filter (fun b => negb (String.eqb b ""))
                    (map (fun kn => toBlocker kn.1 (sortStrings kn.2)) (lvmNames L)) in
  match blockers with
  | [] => Ok tt
  | _ => Err (AdmitBadRequest (formatLVMAddonBlockersError blockers))
  end.
Proof.
  unfold validateDisableLVMAddon, getLVMStorageClasses, getLVMVolumeSnapshotClasses, getLVMPVCs,
    getLVMVolumeSnapshots, getLVMVolumeSnapshotContents, getLVMBlockDevices.
  rewrite (ll_sc_ok V L), (ll_pvc_ok V L), (ll_vsc_ok V L), (ll_vs_ok V L), (ll_con_ok V L),
    (ll_bd_ok V L). cbn [answer]. cbv [mbind outcome_bind].
  rewrite (lvmBlockDevices_run _ (ll_wf V L)). unfold lvmNames. cbn [map fst snd].
  fold freeClass. unfold freeClass. rewrite <- !lvmClasses_blockers.
  destruct (lvmClasses (ll_sc V L)) as [n1 b1], (lvmClasses (ll_vsc V L)) as [n2 b2].
  reflexivity.
Qed.

(** A claim that belongs to the driver: by its class or by its annotations. *)
Definition usesLVM (scs : list DriverClass) (p : ClassUser) : Prop :=
  (exists sc, sc ∈ scs /\ cu_ClassName p = Some (om_Name (dc_meta sc)) /\
              dc_Driver sc = CSIProvisionerLVM) \/
  gm_str (om_Annotations (cu_meta p)) AnnStorageProvisioner = CSIProvisionerLVM \/
  gm_str (om_Annotations (cu_meta p)) AnnBetaStorageProvisioner = CSIProvisionerLVM.

Lemma isLVMPVC_spec scs p :
  isLVMPersistentVolumeClaim p (lvmClasses scs).1 = true <-> usesLVM scs p.
Proof.
  unfold isLVMPersistentVolumeClaim, usesLVM. rewrite !orb_true_iff, !String.eqb_eq.
  assert (H : (match cu_ClassName p with
               | Some c => bool_decide (c ∈ (lvmClasses scs).1)
               | None => false end) = true <->
    exists sc, sc ∈ scs /\ cu_ClassName p = Some (om_Name (dc_meta sc)) /\
               dc_Driver sc = CSIProvisionerLVM); [|rewrite H; tauto].
  destruct (cu_ClassName p) as [c|]; [|naive_solver].
  rewrite bool_decide_eq_true, lvmClasses_names. naive_solver.
Qed.

Lemma lvmSnapshot_spec classes s :
  lvmSnapshot (lvmClasses classes).1 s = true <->
  exists sc, sc ∈ classes /\ cu_ClassName s = Some (om_Name (dc_meta sc)) /\
             dc_Driver sc = CSIProvisionerLVM.
Proof.
  unfold lvmSnapshot. destruct (cu_ClassName s) as [c|]; [|naive_solver].
  rewrite bool_decide_eq_true, lvmClasses_names. naive_solver.
Qed.

Lemma freeClass_spec sc :
  freeClass sc = false <->
  (dc_Driver sc = CSIProvisionerLVM -> isLVMAddonHelmManaged (dc_meta sc) = true).
Proof.
  unfold freeClass. destruct (String.eqb_spec (dc_Driver sc) CSIProvisionerLVM),
    (isLVMAddonHelmManaged _); simpl; naive_solver.
Qed.

Lemma blockers_nil (l : list (string * list string)) :
  (forall kn, kn ∈ l -> kn.1 <> "") ->
  List.filter (fun b => negb (String.eqb b ""))
    (map (fun kn => toBlocker kn.1 (sortStrings kn.2)) l) = [] <->
  forall kn, kn ∈ l -> kn.2 = [].
Proof.
  induction l as [|[k n] l IH]; cbn [map List.filter fst snd].
  - split; [by intros _ kn ?%elem_of_nil|done].
  - rewrite !list_forall_cons_iff. intros [Hk Hl]. simpl in Hk. rewrite <- (IH Hl). simpl.
    pose proof (toBlocker_empty k (sortStrings n) Hk) as Ht. rewrite sortStrings_nil in Ht.
    destruct (String.eqb (toBlocker k (sortStrings n)) ""); simpl; naive_solver.
Qed.

(** When the LVM driver may be disabled.  With the caches listed and the block devices
    well formed, disabling is admitted exactly when no storage or snapshot class of the
    driver exists besides those of its chart, no claim belongs to the driver by class or
    annotation, no snapshot is of one of its classes, no snapshot content is its own, and
    no block device is provisioned for it; otherwise it is a bad request. *)
Theorem lvm_disable_exact V (L : lvmLists V) :
  (validateDisableLVMAddon V = Ok tt <->
   (forall sc, sc ∈ ll_sc V L -> dc_Driver sc = CSIProvisionerLVM ->
      isLVMAddonHelmManaged (dc_meta sc) = true) /\
   (forall p, p ∈ ll_pvc V L -> ~ usesLVM (ll_sc V L) p) /\
   (forall sc, sc ∈ ll_vsc V L -> dc_Driver sc = CSIProvisionerLVM ->
      isLVMAddonHelmManaged (dc_meta sc) = true) /\
   (forall s sc, s ∈ ll_vs V L -> sc ∈ ll_vsc V L -> dc_Driver sc = CSIProvisionerLVM ->
      cu_ClassName s <> Some (om_Name (dc_meta sc))) /\
   (forall c, c ∈ ll_con V L -> dc_Driver c <> CSIProvisionerLVM) /\
   (forall d, d ∈ ll_bd V L -> isLvmDevice d = false)) /\
  (validateDisableLVMAddon V = Ok tt \/
   exists msg, validateDisableLVMAddon V = Err (AdmitBadRequest msg)).
Proof.
  rewrite (validateDisableLVM_run V L). cbv zeta.
  set (bs := List.filter _ _). split; [|destruct bs; eauto].
  transitivity (bs = []); [by destruct bs|]. unfold bs. rewrite blockers_nil.
  2: { intros kn H. unfold lvmNames in H. rewrite !elem_of_cons, elem_of_nil in H. naive_solver. }
  unfold lvmNames. rewrite !list_forall_cons_iff. cbn [fst snd]. rewrite !map_filter_nil.
  assert (H1 : forall p, isLVMPersistentVolumeClaim p (lvmClasses (ll_sc V L)).1 = false
                         <-> ~ usesLVM (ll_sc V L) p)
    by (intros p; by rewrite <- isLVMPVC_spec, not_true_iff_false).
  assert (H2 : forall s, lvmSnapshot (lvmClasses (ll_vsc V L)).1 s = false <->
     forall sc, sc ∈ ll_vsc V L -> dc_Driver sc = CSIProvisionerLVM ->
       cu_ClassName s <> Some (om_Name (dc_meta sc))).
  { intros s. rewrite <- not_true_iff_false, lvmSnapshot_spec. naive_solver. }
  assert (H3 : forall c, lvmContent c = false <-> dc_Driver c <> CSIProvisionerLVM)
    by (intros c; apply String.eqb_neq).
  setoid_rewrite freeClass_spec. setoid_rewrite H1. setoid_rewrite H2. setoid_rewrite H3.
  split; [|intros (?&?&?&?&?&?); split_and!; eauto; by intros kn ?%elem_of_nil].
  intros (?&?&?&?&?&?&_). split_and!; eauto.
Qed.

Lemma lvmClasses_perm l l' : l ≡ₚ l' -> (lvmClasses l).1 = (lvmClasses l').1.
Proof.
  intros H. apply set_eq. intros c. rewrite !lvmClasses_names. by setoid_rewrite H.
Qed.

Lemma sorted_names {A} (g : A -> string) p l l' :
  l ≡ₚ l' -> sortStrings (map g (List.filter p l)) = sortStrings (map g (List.filter p l')).
Proof. intros H. by apply sortStrings_Proper, Permutation_map, filter_perm. Qed.

(** The verdict, down to the text of the refusal, does not depend on the order in which
    the caches list classes, claims, snapshots, contents and devices. *)
Theorem lvm_order_independent V V' (L : lvmLists V) (L' : lvmLists V') :
  ll_sc V L ≡ₚ ll_sc V' L' -> ll_pvc V L ≡ₚ ll_pvc V' L' -> ll_vsc V L ≡ₚ ll_vsc V' L' ->
  ll_vs V L ≡ₚ ll_vs V' L' -> ll_con V L ≡ₚ ll_con V' L' -> ll_bd V L ≡ₚ ll_bd V' L' ->
  validateDisableLVMAddon V = validateDisableLVMAddon V'.
Proof.
  intros H1 H2 H3 H4 H5 H6. rewrite (validateDisableLVM_run V L), (validateDisableLVM_run V' L').
  assert (He : map (fun kn => toBlocker kn.1 (sortStrings kn.2)) (lvmNames L)
             = map (fun kn => toBlocker kn.1 (sortStrings kn.2)) (lvmNames L')); [|by rewrite He].
  unfold lvmNames. cbn [map fst snd]. rewrite (lvmClasses_perm _ _ H1), (lvmClasses_perm _ _ H3).
  rewrite (sorted_names _ _ _ _ H1), (sorted_names _ _ _ _ H2), (sorted_names _ _ _ _ H3),
    (sorted_names _ _ _ _ H4), (sorted_names _ _ _ _ H5), (sorted_names _ _ _ _ H6). done.
Qed.

(** ** Devices *)

Lemma devices_lookup devices ref (m : gmap string string) d :
  is_Some (foldl (fun m hd => <[ hd := ref ]> m) m devices !! d) <->
  d ∈ devices \/ is_Some (m !! d).
Proof.
  revert m. induction devices as [|x l IH]; intros m; simpl.
  - rewrite elem_of_nil. tauto.
  - rewrite IH, elem_of_cons, lookup_insert. case_decide as E; [|naive_solver].
    subst. split; [by left; left|]. intros _. right. eauto.
Qed.

Lemma hostDeviceNames_lookup vms d :
  is_Some (hostDeviceNames vms !! d) <->
  exists vm devices, vm ∈ vms /\ hv_Template vm = Some devices /\ d ∈ devices.
Proof.
  unfold hostDeviceNames.
  enough (Hgen : forall (m : gmap string string),
    is_Some (foldl (fun m vm => match hv_Template vm with
       | None => m | Some devices => foldl (fun m hd => <[ hd := vmRef vm ]> m) m devices end) m vms
       !! d) <->
    (exists vm, vm ∈ vms /\ exists devices, hv_Template vm = Some devices /\ d ∈ devices)
    \/ is_Some (m !! d)).
  { rewrite Hgen, lookup_empty. split; [intros [(vm & ? & ds & ?)|[? [=]]]; eauto|].
    intros (vm & ds & ? & ? & ?). left. eauto. }
  induction vms as [|vm l IH]; intros m; cbn [foldl].
  - split; [by right|]. intros [(vm & ?%elem_of_nil & _)|H]; done.
  - rewrite IH, list_exists_cons_iff. destruct (hv_Template vm) as [ds|]; [|naive_solver].
    rewrite devices_lookup. naive_solver.
Qed.

(** When the vGPU driver may be disabled.  With machines and devices listed, and maps
    ranged over in whatever order, disabling is admitted exactly when no machine has a host
    device whose name is that of a labelled vGPU device; that several machines share a
    device name, where the last overwrites the others, hides none of them. *)
Theorem vgpu_disable_exact V vms items :
  ve_vms V = inl vms -> ve_vgpus V = inl items ->
  (forall m, ve_range V m ≡ₚ map_to_list m) ->
  validateNvidiaDriverToolkitAddon V = Ok tt <->
  forall vm devices d item, vm ∈ vms -> hv_Template vm = Some devices -> d ∈ devices ->
    item ∈ items -> gm_has (om_Labels item) labelParentSRIOVGPUDevice = true ->
    om_Name item <> d.
Proof.
  intros Hv Hg Hr. unfold validateNvidiaDriverToolkitAddon, listVMs. rewrite Hv, Hg. cbn.
  set (names := hostDeviceNames vms). set (vg := vgpuDeviceNames _).
  assert (Hvg : forall d, d ∈ vg <-> exists item, item ∈ items /\
    gm_has (om_Labels item) labelParentSRIOVGPUDevice = true /\ om_Name item = d).
  { intros d. unfold vg, vgpuDeviceNames. rewrite elem_of_list_to_set, list_elem_of_In, in_map_iff.
    setoid_rewrite <- list_elem_of_In. setoid_rewrite filter_elem. naive_solver. }
  transitivity (forall d, is_Some (names !! d) -> ~ d ∈ vg).
  2: { unfold names. setoid_rewrite hostDeviceNames_lookup. setoid_rewrite Hvg. split.
       - intros H vm ds d item H1 H2 H3 H4 H5 H6. apply (H d); eauto.
       - intros H d (vm & ds & ? & ? & ?) (item & ? & ? & ?). by eapply H. }
  case_bool_decide as Hs.
  { apply map_size_empty_inv in Hs. rewrite Hs. split; [|done].
    intros _ d. rewrite lookup_empty. by intros [? [=]]. }
  transitivity (map snd (List.filter (fun kv : string * string => bool_decide (kv.1 ∈ vg))
                  (ve_range V names)) = []).
  { by destruct (map snd _). }
  rewrite map_filter_nil. setoid_rewrite Hr. setoid_rewrite bool_decide_eq_false. split.
  - intros H d [ref Hd]. apply (H (d, ref)). by apply elem_of_map_to_list.
  - intros H [d ref] Hd%elem_of_map_to_list. apply H. eauto.
Qed.

(** ** Addons *)

(** Operations on addons that pass the webhook, applied by the server; the webhook sees the
    addons that exist. *)
Inductive admitted : list Addon -> list Addon -> Prop :=
| adm_create V a l : ve_addons V = inl l -> Create V a = Ok tt -> admitted l (l ++ [a])
| adm_change V old new l1 l2 :
    Update V old new = Ok tt -> admitted (l1 ++ old :: l2) (l1 ++ new :: l2)
| adm_delete old l1 l2 : Delete (Some old) = Ok tt -> admitted (l1 ++ old :: l2) (l1 ++ l2).

Definition charts (l : list Addon) : list string := map (fun a => as_Chart (ad_Spec a)) l.

Definition protected (a : Addon) : bool :=
  str_in (ad_Name a) [KubeOVNOperatorName; RancherLoggingName; RancherMonitoringName].

Lemma AddonCreate_Ok V a l :
  ve_addons V = inl l -> Create V a = Ok tt -> ~ as_Chart (ad_Spec a) ∈ charts l.
Proof.
  intros Hl. unfold Create, validateNewAddon. rewrite Hl. cbn.
  destruct (List.find _ l) as [b|] eqn:Ef; [done|]. intros _ Hin.
  unfold charts in Hin. rewrite list_elem_of_In, in_map_iff in Hin. destruct Hin as (b & Hb & Hin).
  apply (find_none _ _ Ef) in Hin. apply String.eqb_neq in Hin. congruence.
Qed.

Lemma AddonUpdate_Ok V old new :
  Update V old new = Ok tt ->
  as_Chart (ad_Spec new) = as_Chart (ad_Spec old) /\
  condTrue AddonOperationInProgress old = false.
Proof.
  unfold Update, validateUpdatedAddon.
  destruct (String.eqb_spec (as_Chart (ad_Spec new)) (as_Chart (ad_Spec old))); [|done].
  by destruct (condTrue AddonOperationInProgress old).
Qed.

(** C29: one addon per chart, and no interference with an operation: in every state reached
    from a cluster without addons by admitted operations no two addons have the same chart;
    an admitted update keeps the chart and finds no operation in progress; and the
    monitoring, logging and KubeOVN addons, and those not marked experimental, are never
    deleted. *)
Theorem one_addon_per_chart l :
  reachable (eq []) admitted l ->
  NoDup (charts l) /\
  forall l', admitted l l' ->
    (exists a, l' = l ++ [a]) \/
    (exists l1 l2 old new, l = l1 ++ old :: l2 /\ l' = l1 ++ new :: l2 /\
       as_Chart (ad_Spec new) = as_Chart (ad_Spec old) /\
       condTrue AddonOperationInProgress old = false) \/
    (exists l1 l2 old, l = l1 ++ old :: l2 /\ l' = l1 ++ l2 /\ protected old = false /\
       gm_get (om_Labels (ad_meta old)) AddonExperimentalLabel = Some "true").
Proof.
  intros Hr. split.
  - revert l Hr. apply (invariant_reachable _ _ (fun l => NoDup (charts l))).
    + intros l <-. by apply NoDup_nil.
    + intros l l' Hnd Hst. destruct Hst as [V a l Hl Hc|V old new l1 l2 Hu|old l1 l2 Hd].
      * unfold charts. rewrite map_app. apply NoDup_app. split_and!; [done| |by apply NoDup_singleton].
        intros x Hx ->%list_elem_of_singleton. by apply (AddonCreate_Ok V a l Hl Hc).
      * apply AddonUpdate_Ok in Hu as [Hc _]. unfold charts in *. rewrite map_app in *. simpl in *.
        by rewrite Hc.
      * unfold charts in *. rewrite map_app in *. simpl in *.
        apply NoDup_app in Hnd as (H1 & H2 & [_ H3]%NoDup_cons). apply NoDup_app.
        split_and!; [done| |done]. intros x Hx Hx2. apply (H2 x Hx). by right.
  - clear Hr. intros l' Hst. destruct Hst as [V a l Hl Hc|V old new l1 l2 Hu|old l1 l2 Hd].
    + left. eauto.
    + right. left. apply AddonUpdate_Ok in Hu. naive_solver.
    + right. right. exists l1, l2, old. split_and!; [done|done| |]; unfold Delete in Hd;
        unfold protected, str_in; revert Hd;
        destruct (String.eqb_spec (ad_Name old) KubeOVNOperatorName); [done| |done|];
        (destruct (String.eqb_spec (ad_Name old) RancherLoggingName); [done|]);
        (destruct (String.eqb_spec (ad_Name old) RancherMonitoringName); [done|]); cbn [orb].
      * intros _. apply bool_decide_eq_false. rewrite !elem_of_cons, elem_of_nil. tauto.
      * unfold gm_str. destruct (gm_get _ _) as [v|]; simpl; [|done].
        destruct (String.eqb_spec v "true"); [by subst|done].
Qed.

(** ** Webhook and controller together *)

Definition enable (a : Addon) : Addon :=
  mkAddon (ad_Kind a) (ad_APIVersion a) (ad_meta a)
    (mkAddonSpec (as_Repo (ad_Spec a)) (as_Chart (ad_Spec a)) (as_Version (ad_Spec a)) true
       (as_ValuesContent (ad_Spec a))) (ad_Status a) (ad_Conditions a).

Definition checkedNames : list string :=
  [RancherLoggingName; DeschedulerName; PCIDevicesControllerName; NvidiaDriverToolkitName;
   KubeOVNOperatorName; HarvesterCSIDriverLVMName].

(** An addon that is enabled again while it is Disabling.  Unless an operation is
    marked in progress, as after a failed removal, the webhook admits enabling an addon
    (one without checks of its own) whose status is Disabling; the controller then changes
    nothing and enqueues nothing, on this and on every later pass, so the addon is enabled
    and never deployed. *)
Theorem reenabled_addon_ignored {T : Rfc3339} V E a w :
  aquiet E -> om_DeletionTimestamp (ad_meta a) = None -> ad_Status a = AddonDisabling ->
  condTrue AddonOperationInProgress a = false -> ~ ad_Name a ∈ checkedNames ->
  Update V a (enable a) = Ok tt /\
  MonitorAddonPerStatus E (Some (enable a)) w = (Ok (Some (enable a)), w).
Proof.
  intros Q Hd Hs Hp Hn. split.
  - unfold Update, validateUpdatedAddon. change (ad_Name (enable a)) with (ad_Name a).
    change (as_Chart (ad_Spec (enable a))) with (as_Chart (ad_Spec a)).
    rewrite String.eqb_refl, Hp. cbn [negb].
    unfold checkedNames in Hn. rewrite !elem_of_cons, elem_of_nil in Hn.
    rewrite !(proj2 (String.eqb_neq (ad_Name a) _)) by tauto. done.
  - apply stuck_run; auto.
Qed.

(** ** Witnesses *)

Module AddonWebhookExamples.
Definition venv0 : VEnv :=
  mkVEnv (inl []) (inl []) (inl []) (inl []) (inl []) (inl []) (inl []) (inl []) None (inl [])
    (inl []) (inl []) (inl []) (inl []) (inl []) (inl []) (fun _ => false) map_to_list.

Definition logAddon : Addon :=
  mkAddon "Addon" "harvesterhci.io/v1beta1" (meta0 "logging" RancherLoggingName)
    (mkAddonSpec "repo" "rancher-logging" "1" false "") AddonDisabled [].
Definition flow1 : Flow := mkFlow (meta0 "logging" "f") "" ["co1"] [].
Definition out1 : Output := mkOutput (meta0 "logging" "co1") "".
Definition venvFlow (outs couts : list Output) : VEnv :=
  mkVEnv (inl []) (inl [flow1]) (inl outs) (inl []) (inl couts) (inl []) (inl []) (inl []) None
    (inl []) (inl []) (inl []) (inl []) (inl []) (inl []) (inl []) (fun _ => false) map_to_list.

Definition sc (name : string) : DriverClass := mkClass (meta0 "" name) CSIProvisionerLVM.
Definition device : Unstructured :=
  mkUn (meta0 "longhorn-system" "d1")
    [("spec", JObj [("provision", JBool true); ("provisioner", JObj [("lvm", JObj [])])])].
Definition venvLvm (scs : list DriverClass) : VEnv :=
  mkVEnv (inl []) (inl []) (inl []) (inl []) (inl []) (inl []) (inl []) (inl []) None (inl scs)
    (inl []) (inl []) (inl []) (inl []) (inl []) (inl [device]) (fun _ => false) map_to_list.

Lemma device_wf d : d ∈ [device] -> wellFormed d.
Proof. intros ->%list_elem_of_singleton. split; eexists; vm_compute; reflexivity. Qed.

Definition lists (scs : list DriverClass) : lvmLists (venvLvm scs) :=
  Build_lvmLists (venvLvm scs) scs [] [] [] [] [device] eq_refl eq_refl eq_refl eq_refl eq_refl
    eq_refl device_wf.

Definition gpuVM : HostVM := mkHostVM (meta0 "default" "vm1") (Some ["gpu-0"]).
Definition gpu : ObjectMeta :=
  mkMeta "gpu-0" "" "" "" (Some {[ labelParentSRIOVGPUDevice := "card" ]}) None [] 0 None.
Definition venvGpu : VEnv :=
  mkVEnv (inl []) (inl []) (inl []) (inl []) (inl []) (inl []) (inl []) (inl [gpuVM]) None
    (inl []) (inl []) (inl []) (inl []) (inl []) (inl [gpu]) (inl []) (fun _ => false) map_to_list.
End AddonWebhookExamples.
Import AddonExamples AddonWebhookExamples.

Lemma logging_enable_exact_witness :
  validateEnableRancherLoggingAddon (venvFlow [out1] []) logAddon = Ok tt.
Proof.
  apply (logging_enable_exact (venvFlow [out1] []) logAddon [flow1] [out1] [] [] []);
    [reflexivity..|by_eval|by_eval|].
  split; [|split; [by intros f ?%elem_of_nil|by intros l ?%elem_of_nil]].
  intros f ->%list_elem_of_singleton _. split; [|by intros r ?%elem_of_nil].
  intros r ->%list_elem_of_singleton. exists out1. split; [by left|]. by_eval.
Defined.

Lemma flow_global_ref_refused_witness :
  exists msg, validateEnableRancherLoggingAddon (venvFlow [] [out1]) logAddon
              = Err (AdmitBadRequest msg).
Proof.
  apply (flow_global_ref_refused (venvFlow [] [out1]) logAddon flow1 out1 []);
    try reflexivity. by intros x ?%elem_of_nil.
Defined.

Lemma lvm_disable_exact_witness :
  exists msg, validateDisableLVMAddon (venvLvm [sc "a"]) = Err (AdmitBadRequest msg).
Proof.
  destruct (lvm_disable_exact (venvLvm [sc "a"]) (lists [sc "a"])) as [Hiff [H|H]]; [|exact H].
  exfalso. apply Hiff in H as (H & _). specialize (H (sc "a") ltac:(by left) eq_refl). discriminate H.
Defined.

Lemma lvm_order_independent_witness :
  validateDisableLVMAddon (venvLvm [sc "a"; sc "b"]) = validateDisableLVMAddon (venvLvm [sc "b"; sc "a"]).
Proof.
  apply (lvm_order_independent _ _ (lists [sc "a"; sc "b"]) (lists [sc "b"; sc "a"]));
    [apply perm_swap|reflexivity..].
Defined.

Lemma vgpu_disable_exact_witness : validateNvidiaDriverToolkitAddon venvGpu <> Ok tt.
Proof.
  intros H. apply (vgpu_disable_exact venvGpu [gpuVM] [gpu]) with
    (vm := gpuVM) (devices := ["gpu-0"]) (d := "gpu-0") (item := gpu) in H;
    [by apply H|reflexivity|reflexivity|reflexivity|by left|reflexivity|by left|by left|by_eval].
Defined.

Lemma one_addon_per_chart_witness : NoDup (charts [logAddon]).
Proof.
  apply (one_addon_per_chart [logAddon]). eapply reach_step; [by apply (reach_init _ _ [])|].
  apply (adm_create venv0 logAddon []); reflexivity.
Defined.

Lemma reenabled_addon_ignored_witness :
  Update venv0 (addon0 false AddonDisabling []) (enable (addon0 false AddonDisabling [])) = Ok tt.
Proof.
  apply (reenabled_addon_ignored venv0 (env 10) (addon0 false AddonDisabling []) (world0 [] [])
    (env_quiet _) eq_refl eq_refl eq_refl). by_eval.
Defined.
