(* ===== verification/ApiServer.v ===== *)
(** The API server as a client sees it: objects with resource versions, calls
    that other clients' work may precede and that may fail, and the conflict
    retry of [k8s.io/client-go/util/retry] the code wraps its
    read-modify-write updates in.

    A write that carries a resource version other than the stored one is
    refused with a Conflict.  The controllers and the API handlers of the later
    files run against this interface, under any interference of other clients
    that only moves resource versions forward. *)

From S2P Require Import Prelude K8s.

Local Open Scope Z_scope.

(** ** Objects and stores *)

Record Obj (A : Type) := mkObj { o_rv : Z; o_val : A }.
Arguments mkObj {A} _ _.
Arguments o_rv {A} _.
Arguments o_val {A} _.

#[export] Instance Obj_eq {A} `{EqDecision A} : EqDecision (Obj A).
Proof. solve_decision. Defined.

(** The objects of one resource and the last resource version handed out. *)
Record Store (K A : Type) `{Countable K} := mkStore {
  st_rv : Z; st_objs : gmap K (Obj A) }.
Arguments mkStore {K A _ _} _ _.
Arguments st_rv {K A _ _} _.
Arguments st_objs {K A _ _} _.

Section Store.
Context {K A : Type} `{Countable K}.
Implicit Types (st : Store K A) (k : K) (o : Obj A).

Definition store_get st k : outcome (Obj A) :=
  match st_objs st !! k with
  | Some o => Ok o
  | None => Err (ApiNotFound "not found")
  end.

(** A write of the object [o] was read as or derived from: refused when the
    object is gone or has moved on, otherwise merged into the stored value (the
    main resource keeps the stored status, the status subresource the rest). *)
Definition store_write (merge : A -> A -> A) k o st : outcome (Obj A) * Store K A :=
  match st_objs st !! k with
  | None => (Err (ApiNotFound "not found"), st)
  | Some cur =>
      if o_rv cur =? o_rv o then
        let o' := mkObj (st_rv st + 1) (merge (o_val cur) (o_val o)) in
        (Ok o', mkStore (st_rv st + 1) (<[k := o']> (st_objs st)))
      else (Err (ApiConflict "the object has been modified"), st)
  end.

(** Every stored version has been handed out. *)
Definition store_wf st : Prop :=
  forall k o, st_objs st !! k = Some o -> o_rv o <= st_rv st.

(** Time passing on a store: versions are handed out in order, and an object
    that was not there before carries a version that was not either. *)
Definition store_ext st st' : Prop :=
  store_wf st ->
  store_wf st' /\ st_rv st <= st_rv st' /\
  forall k o, st_objs st' !! k = Some o -> st_objs st !! k = Some o \/ st_rv st < o_rv o.

#[export] Instance store_ext_preorder : PreOrder store_ext.
Proof.
  split.
  - intros st Hwf. split_and!; [done|lia|auto].
  - intros st1 st2 st3 H12 H23 Hwf.
    destruct (H12 Hwf) as (Hwf2 & Hle & Hin). destruct (H23 Hwf2) as (Hwf3 & Hle' & Hin').
    split_and!; [done|lia|]. intros k o Ho.
    destruct (Hin' _ _ Ho) as [Ho'|]; [|right; lia]. apply Hin in Ho' as [|]; auto.
Qed.

Lemma store_write_ext merge k o st : store_ext st (store_write merge k o st).2.
Proof.
  unfold store_write. destruct (st_objs st !! k) as [cur|] eqn:E; [|reflexivity].
  destruct (_ =? _); [|reflexivity]. simpl. intros Hwf. split_and!; simpl; [|lia|].
  - intros k' o' Ho. simpl in Ho. apply lookup_insert_Some in Ho as [[? <-]|[??]]; simpl; [lia|].
    transitivity (st_rv st); [by eapply Hwf|lia].
  - intros k' o' [[? <-]|[??]]%lookup_insert_Some; simpl; [right; lia|auto].
Qed.

(** Equal versions mean equal objects: what a conflict check establishes. *)
Lemma store_same_version st st' k o o' :
  store_wf st -> store_ext st st' ->
  st_objs st !! k = Some o -> st_objs st' !! k = Some o' -> o_rv o' = o_rv o -> o' = o.
Proof.
  intros Hwf Hext Ho Ho' Hrv. destruct (Hext Hwf) as (_ & _ & Hin).
  destruct (Hin _ _ Ho') as [|Hlt]; [congruence|].
  specialize (Hwf _ _ Ho). lia.
Qed.

Lemma store_write_Ok merge k o st o' st' :
  store_write merge k o st = (Ok o', st') ->
  exists cur, st_objs st !! k = Some cur /\ o_rv cur = o_rv o /\
    o_val o' = merge (o_val cur) (o_val o) /\ st_objs st' = <[k := o']> (st_objs st).
Proof.
  unfold store_write. destruct (st_objs st !! k) as [cur|]; [|done].
  destruct (Z.eqb_spec (o_rv cur) (o_rv o)); [|done]. intros [= <- <-]. eauto.
Qed.

Lemma store_write_Err merge k o st e st' :
  store_write merge k o st = (Err e, st') -> st' = st.
Proof.
  unfold store_write. destruct (st_objs st !! k) as [cur|]; [|by intros [= _ <-]].
  destruct (_ =? _); [done|by intros [= _ <-]].
Qed.

Lemma store_write_no_panic merge k o st st' : store_write merge k o st <> (Panic, st').
Proof.
  unfold store_write. destruct (st_objs st !! k) as [cur|]; [|done]. by destruct (_ =? _).
Qed.
End Store.

(** ** Calls under interference *)

(** What precedes a call: what other clients and the informers did meanwhile,
    and the error the call ends with when it never takes effect. *)
Record Turn (W : Type) := mkTurn { turn_env : W -> W; turn_fault : option goerror }.
Arguments mkTurn {W} _ _.
Arguments turn_env {W} _ _.
Arguments turn_fault {W} _.

(** The system a handler runs in: the world and the turns to come; with none
    left, nobody interferes. *)
Record Sys (W : Type) := mkSys { sys_world : W; sys_turns : list (Turn W) }.
Arguments mkSys {W} _ _.
Arguments sys_world {W} _.
Arguments sys_turns {W} _.

Definition quiet {W} (w : W) : Sys W := mkSys w [].

Section Calls.
Context {W : Type}.

Definition call {A} (f : W -> outcome A * W) : M (Sys W) A := fun s =>
  match sys_turns s with
  | [] => let '(o, w) := f (sys_world s) in (o, mkSys w [])
  | t :: ts =>
      let w := turn_env t (sys_world s) in
      match turn_fault t with
      | Some e => (Err e, mkSys w ts)
      | None => let '(o, w') := f w in (o, mkSys w' ts)
      end
  end.

Definition readCall {A} (f : W -> outcome A) : M (Sys W) A := call (fun w => (f w, w)).

Section Rely.
Context (R : W -> W -> Prop) `{!PreOrder R}.

(** The interference still to come stays within [R]. *)
Definition relies (ts : list (Turn W)) : Prop :=
  Forall (fun t => forall w, R w (turn_env t w)) ts.

(** The system moved within [R], and will, as long as the others keep to it. *)
Definition within (s s' : Sys W) : Prop :=
  relies (sys_turns s) -> R (sys_world s) (sys_world s') /\ relies (sys_turns s').

#[export] Instance within_preorder : PreOrder within.
Proof.
  split.
  - intros s Hs. by split.
  - intros s1 s2 s3 H12 H23 Hs. destruct (H12 Hs) as [HR Hs2].
    destruct (H23 Hs2) as [HR' Hs3]. split; [by etransitivity|done].
Qed.

(** A call moves the system within [R] when its own part does. *)
Lemma within_call {A} (f : W -> outcome A * W) s :
  (forall w, R (sys_world s) w -> R w (f w).2) -> effect within (call f) s.
Proof.
  intros Hf. unfold effect, call, within, relies.
  destruct s as [w [|t ts]]; simpl in *; intros Hs.
  - destruct (f w) as [o w'] eqn:E. simpl. split; [|done].
    specialize (Hf w ltac:(reflexivity)). by rewrite E in Hf.
  - apply Forall_cons in Hs as [Ht Hs]. destruct (turn_fault t); simpl; [by split|].
    specialize (Hf (turn_env t w) (Ht w)).
    destruct (f (turn_env t w)) as [o w']. simpl in *. split; [|done].
    by etransitivity; [apply Ht|].
Qed.

Lemma within_readCall {A} (f : W -> outcome A) s : effect within (readCall f) s.
Proof. apply within_call. intros w _. simpl. reflexivity. Qed.

Lemma call_relies {A} (f : W -> outcome A * W) s :
  relies (sys_turns s) -> relies (sys_turns (call f s).2).
Proof.
  unfold call, relies. destruct s as [w [|t ts]]; simpl; intros Hs.
  - by destruct (f w).
  - apply Forall_cons in Hs as [Ht Hs]. destruct (turn_fault t); [done|]. by destruct (f _).
Qed.

(** A call that returned: the others' part, then its own. *)
Lemma call_Ok {A} (f : W -> outcome A * W) s a s' :
  call f s = (Ok a, s') -> relies (sys_turns s) ->
  exists w, R (sys_world s) w /\ f w = (Ok a, sys_world s') /\ relies (sys_turns s').
Proof.
  unfold call, relies. destruct s as [w [|t ts]]; simpl; intros Hc Hs.
  - destruct (f w) as [o w'] eqn:E. injection Hc as -> <-. simpl.
    exists w. split_and!; [reflexivity|done|done].
  - apply Forall_cons in Hs as [Ht Hs]. destruct (turn_fault t); [done|].
    destruct (f (turn_env t w)) as [o w'] eqn:E. injection Hc as -> <-. simpl.
    eauto.
Qed.

(** One that did not: the others' part, and its own unless it was never made. *)
Lemma call_Err {A} (f : W -> outcome A * W) s e s' :
  call f s = (Err e, s') -> relies (sys_turns s) ->
  exists w, R (sys_world s) w /\ relies (sys_turns s') /\
    (sys_world s' = w \/ f w = (Err e, sys_world s')).
Proof.
  unfold call, relies. destruct s as [w [|t ts]]; simpl; intros Hc Hs.
  - destruct (f w) as [o w'] eqn:E. injection Hc as -> <-. simpl.
    exists w. split_and!; [reflexivity|done|auto].
  - apply Forall_cons in Hs as [Ht Hs]. destruct (turn_fault t).
    + injection Hc as _ <-. simpl. eauto.
    + destruct (f (turn_env t w)) as [o w'] eqn:E. injection Hc as -> <-. simpl. eauto 6.
Qed.
End Rely.

Lemma relies_weaken (R R' : W -> W -> Prop) ts :
  (forall w w', R w w' -> R' w w') -> relies R ts -> relies R' ts.
Proof. intros HR H. eapply Forall_impl; [exact H|]. eauto. Qed.

Lemma call_quiet {A} (f : W -> outcome A * W) w :
  call f (quiet w) = ((f w).1, quiet (f w).2).
Proof. unfold call, quiet. simpl. by destruct (f w). Qed.
End Calls.

#[export] Hint Resolve within_readCall : harv.

(** ** Conflict retry ([k8s.io/client-go/util/retry])

    [fn] is the closure; its result stands for the variable it assigns, whose
    initial value is [zero].  The sleeps between attempts are part of the turns. *)
Section Retry.
Context {S A : Type}.

(** The loop of [wait.ExponentialBackoff] with the bookkeeping of [OnError].  Running
    out of steps is an interruption, and so is an error of a context that [fn] returns:
    both end with the last retriable error seen, and with success when there was none. *)
Fixpoint onError (steps : nat) (retriable : goerror -> bool) (fn : M S A) (last : outcome A)
  : M S A :=
  match steps with
  | O => lift last
  | Datatypes.S n => fun s =>
      match fn s with
      | (Err e, s') =>
          if retriable e then onError n retriable fn (Err e) s'
          else if Interrupted e then (last, s') else (Err e, s')
      | r => r
      end
  end.

Definition OnError (steps : nat) (retriable : goerror -> bool) (zero : A) (fn : M S A) : M S A :=
  onError steps retriable fn (Ok zero).

Definition RetryOnConflict (steps : nat) (zero : A) (fn : M S A) : M S A :=
  OnError steps IsConflict zero fn.

(** [k] attempts in a row that end in a conflict, from [s] to [s'], after which the last
    error seen, [last] at first, is [last']. *)
Inductive conflicts (fn : M S A) : nat -> outcome A -> S -> outcome A -> S -> Prop :=
| conflicts_none last s : conflicts fn 0 last s last s
| conflicts_more k last s e s1 last' s' :
    fn s = (Err e, s1) -> IsConflict e = true -> conflicts fn k (Err e) s1 last' s' ->
    conflicts fn (Datatypes.S k) last s last' s'.

Definition isConflict (o : outcome A) : bool :=
  match o with Err e => IsConflict e | _ => false end.
Definition isInterrupted (o : outcome A) : bool :=
  match o with Err e => Interrupted e | _ => false end.

Lemma conflicts_last fn k last s last' s' :
  conflicts fn k last s last' s' ->
  if Nat.eqb k 0 then last' = last else isConflict last' = true.
Proof.
  induction 1 as [|k last s e s1 last' s' Hf He _ IH]; [done|]. cbn [Nat.eqb].
  destruct k; cbn [Nat.eqb] in IH; [by subst|done].
Qed.

Lemma onError_attempts n fn last s :
  exists k s' last', conflicts fn k last s last' s' /\
    ((k < n)%nat /\ isConflict (fn s').1 = false /\
       onError n IsConflict fn last s =
         (if isInterrupted (fn s').1 then last' else (fn s').1, (fn s').2) \/
     k = n /\ onError n IsConflict fn last s = (last', s')).
Proof.
  revert last s. induction n as [|n IH]; intros last s; cbn [onError].
  - exists 0%nat, s, last. split; [constructor|by right].
  - destruct (fn s) as [[a|e|] s1] eqn:E.
    + exists 0%nat, s, last. split; [constructor|]. left. rewrite E. split_and!; [lia|done..].
    + destruct (IsConflict e) eqn:Ec.
      * destruct (IH (Err e) s1) as (k & s' & last' & Hk & Hr).
        exists (Datatypes.S k), s', last'. split; [by econstructor|].
        destruct Hr as [(Hlt & Hn & Hr)|[-> Hr]]; [left|by right]. split_and!; [lia|done..].
      * exists 0%nat, s, last. split; [constructor|]. left. rewrite E. cbn [fst snd].
        split_and!; [lia|done|]. unfold isInterrupted. by destruct (Interrupted e).
    + exists 0%nat, s, last. split; [constructor|]. left. rewrite E. split_and!; [lia|done..].
Qed.
End Retry.

(** Retrying does what its attempts do. *)
Lemma effect_retry {S A} (R : S -> S -> Prop) `{!PreOrder R} n zero (fn : M S A) s :
  (forall s, effect R fn s) -> effect R (RetryOnConflict n zero fn) s.
Proof.
  intros Hfn. unfold RetryOnConflict, OnError. generalize (Ok zero).
  revert s. induction n as [|n IH]; intros s last; [apply effect_lift, _|].
  pose proof (Hfn s) as H. unfold effect in *. cbn [onError].
  destruct (fn s) as [[a|e|] s']; simpl in *; [done| |done].
  destruct (IsConflict e); [|by destruct (Interrupted e)]. etransitivity; [exact H|apply IH].
Qed.

(** [retry.DefaultRetry.Steps] *)
Definition DefaultRetry : nat := 5.

(** ** Read-modify-write *)

(** A world with a store of [A]s in it, that a write can replace. *)
Class HasStore (W K A : Type) `{Countable K} := {
  the_store : W -> Store K A;
  set_store : Store K A -> W -> W;
  the_set_store : forall st w, the_store (set_store st w) = st;
  set_the_store : forall w, set_store (the_store w) w = w }.

Section Client.
Context {W K A : Type} `{HasStore W K A}.

Definition apiGet (k : K) : M (Sys W) (Obj A) :=
  readCall (fun w => store_get (the_store w) k).

Definition apiUpdate (merge : A -> A -> A) (k : K) (o : Obj A) : M (Sys W) (Obj A) :=
  call (fun w => let '(r, st) := store_write merge k o (the_store w) in (r, set_store st w)).

Lemma apiGet_Ok k s o s' :
  apiGet k s = (Ok o, s') -> st_objs (the_store (sys_world s')) !! k = Some o.
Proof.
  unfold apiGet, readCall, call, store_get. destruct s as [w [|t ts]]; simpl.
  - destruct (_ !! k) eqn:E; [|done]. intros [= -> <-]. done.
  - destruct (turn_fault t); [done|]. destruct (_ !! k) eqn:E; [|done]. by intros [= -> <-].
Qed.

(** ** Single commits

    [commits E C m s]: whatever the others do within [E], [m] leaves the world as
    the others would have, but for at most one step of [C], and for none when it
    ends in an error. *)
Section Commits.
Context (E C : W -> W -> Prop) (I : W -> Prop) `{!PreOrder E}.
Hypothesis I_E : forall w w', I w -> E w w' -> I w'.
Hypothesis I_C : forall w w', I w -> C w w' -> I w'.
Hypothesis I_wf : forall w, I w -> store_wf (the_store w).
Hypothesis E_ext : forall w w', I w -> E w w' -> store_ext (the_store w) (the_store w').

Definition once (w w' : W) : Prop :=
  exists w1, E w w1 /\ (w1 = w' \/ exists w2, C w1 w2 /\ E w2 w').

Definition commits {B} (m : M (Sys W) B) (s : Sys W) : Prop :=
  relies E (sys_turns s) ->
  relies E (sys_turns (m s).2) /\
  (I (sys_world s) ->
   I (sys_world (m s).2) /\
   match (m s).1 with
   | Ok _ => once (sys_world s) (sys_world (m s).2)
   | _ => E (sys_world s) (sys_world (m s).2)
   end).

Lemma once_E w w' : E w w' -> once w w'.
Proof using. intros. exists w'. auto. Qed.

Lemma commits_lift {B} (o : outcome B) s : commits (lift o) s.
Proof using PreOrder0.
  intros Hs. simpl. split; [done|]. intros HI. split; [done|].
  destruct o; [apply once_E|..]; reflexivity.
Qed.

Lemma commits_ret {B} (b : B) s : commits (mret b) s.
Proof using PreOrder0. apply (commits_lift (Ok b)). Qed.

Lemma commits_throw {B} e s : commits (throw (A := B) e) s.
Proof using PreOrder0. apply (commits_lift (Err e)). Qed.

(** The others' part comes first. *)
Lemma once_after w w1 w' : E w w1 -> once w1 w' -> once w w'.
Proof using PreOrder0. intros ? (w2 & ? & ?). exists w2. split; [by etransitivity|done]. Qed.

(** A computation that commits nothing, then the rest with what it returned. *)
Lemma commits_after {B D} (m : M (Sys W) B) (g : B -> M (Sys W) D) s :
  effect (within E) m s ->
  (forall b s', m s = (Ok b, s') -> commits (g b) s') -> commits (m ≫= g) s.
Proof using PreOrder0 I_E.
  intros Hm Hg Hs. destruct (Hm Hs) as [HE Hs'].
  unfold mbind, M_bind. destruct (m s) as [[b|e|] s'] eqn:Er; simpl in *; [|by eauto..].
  destruct (Hg b s' eq_refl Hs') as (Hs'' & Ho). split; [done|]. intros HI.
  destruct (Ho ltac:(by eapply I_E)) as [HI' Ho']. split; [done|].
  destruct (g b s').1; [by eapply once_after| |]; by etransitivity.
Qed.

Lemma commits_get {B} k (g : Obj A -> M (Sys W) B) s :
  (forall o s', st_objs (the_store (sys_world s')) !! k = Some o -> commits (g o) s') ->
  commits (apiGet k ≫= g) s.
Proof using PreOrder0 I_E.
  intros Hg. apply commits_after; [apply within_readCall, _|].
  intros o s' Hr. apply Hg. by eapply apiGet_Ok.
Qed.

(** A write of the object just read: the conflict check makes it a step from a
    world that still holds that object. *)
Lemma commits_write merge k o v s :
  st_objs (the_store (sys_world s)) !! k = Some o ->
  (forall w st o', I w -> st_objs (the_store w) !! k = Some o ->
     store_write merge k (mkObj (o_rv o) v) (the_store w) = (Ok o', st) ->
     C w (set_store st w)) ->
  commits (apiUpdate merge k (mkObj (o_rv o) v)) s.
Proof using PreOrder0 I_E I_C I_wf E_ext.
  intros Ho HC Hs. unfold apiUpdate.
  destruct (call _ s) as [[o'|e|] s'] eqn:Ec; simpl.
  - apply (call_Ok E) in Ec as (w & HE & Hw & Hs'); [|done]. split; [done|]. intros HI.
    destruct (store_write _ _ _ (the_store w)) as [r st] eqn:Ew. injection Hw as -> Hw.
    pose proof Ew as (cur & Hcur & Hrv & _)%store_write_Ok. simpl in Hrv.
    assert (cur = o) as -> by (eapply (store_same_version _ (the_store w)); eauto).
    assert (C w (sys_world s')) by (rewrite <- Hw; eauto).
    split; [by eauto|]. exists w. split; [done|]. right. eexists. split; [done|reflexivity].
  - apply (call_Err E) in Ec as (w & HE & Hs' & Hw); [|done]. split; [done|]. intros HI.
    destruct Hw as [->|Hw]; [by eauto|].
    destruct (store_write _ _ _ (the_store w)) as [r st] eqn:Ew. injection Hw as -> Hw.
    apply store_write_Err in Ew as ->. rewrite set_the_store in Hw. subst. eauto.
  - exfalso. revert Ec. unfold call. destruct (sys_turns s) as [|t ts].
    + destruct (store_write _ _ _ _) as [r st] eqn:Ew. intros [= -> _].
      by apply store_write_no_panic in Ew.
    + destruct (turn_fault t); [done|].
      destruct (store_write _ _ _ _) as [r st] eqn:Ew. intros [= -> _].
      by apply store_write_no_panic in Ew.
Qed.

Lemma commits_fmap {B D} (f : B -> D) (m : M (Sys W) B) s : commits m s -> commits (f <$> m) s.
Proof using.
  intros Hm Hs. specialize (Hm Hs). unfold fmap, M_fmap.
  by destruct (m s) as [[b|e|] s'].
Qed.

(** What follows a commit and returns at once. *)
Lemma commits_then_ret {B D} (m : M (Sys W) B) (d : D) s :
  commits m s -> commits (m ≫= fun _ => mret d) s.
Proof using.
  intros Hm Hs. specialize (Hm Hs). unfold mbind, M_bind.
  by destruct (m s) as [[b|e|] s'].
Qed.

(** Attempts that failed have committed nothing, so retrying commits once. *)
Lemma commits_onError {B} n retriable (fn : M (Sys W) B) last s :
  (forall s, commits fn s) -> commits (onError n retriable fn last) s.
Proof using PreOrder0.
  intros Hfn. revert last s. induction n as [|n IH]; intros last s; [apply commits_lift|].
  intros Hs. cbn [onError]. pose proof (Hfn s Hs) as (Hs' & Ho).
  destruct (fn s) as [[b|e|] s'] eqn:Ef; simpl in *; [done| |done].
  destruct (retriable e).
  2:{ destruct (Interrupted e); [|done]. split; [done|]. intros HI.
      destruct (Ho HI) as [HI' HE]. split; [done|]. cbn [fst snd].
      by destruct last; [apply once_E|..]. }
  destruct (IH (Err e) s' Hs') as (Hs'' & Ho'). split; [done|]. intros HI.
  destruct (Ho HI) as [HI' HE]. destruct (Ho' HI') as [HI'' Hr]. split; [done|].
  destruct (onError n retriable fn (Err e) s').1; [by eapply once_after| |]; by etransitivity.
Qed.

Lemma commits_retry {B} n zero (fn : M (Sys W) B) s :
  (forall s, commits fn s) -> commits (RetryOnConflict n zero fn) s.
Proof using PreOrder0. apply commits_onError. Qed.
End Commits.

(** Commits that the others' relation allows anyway stay within it; the relation
    says nothing of worlds outside the invariant. *)
Lemma commits_within {B} (R C : W -> W -> Prop) (I : W -> Prop) `{!PreOrder R}
    (m : M (Sys W) B) s :
  (forall w w', (I w -> R w w') -> R w w') ->
  (forall w w', I w -> R w w' -> I w') ->
  (forall w w', I w -> C w w' -> R w w') ->
  commits R C I m s -> effect (within R) m s.
Proof.
  intros HR HI HC Hm Hs. destruct (Hm Hs) as (Hs' & Ho). split; [|done]. apply HR. intros Hi.
  destruct (Ho Hi) as [_ Ho']. destruct ((m s).1); [|done..].
  destruct Ho' as (w1 & HE & [<-|(w2 & HC' & HE')]); [done|].
  etransitivity; [exact HE|]. etransitivity; [|done]. apply HC; [|done]. by eapply HI.
Qed.
End Client.

(** ** Reasoning from what is known

    A regime: what the others and the code itself may do to the world, and the worlds it
    says something about. *)
Class Regime (W : Type) := {
  may : W -> W -> Prop;
  sane : W -> Prop;
  may_preorder :: PreOrder may;
  sane_may : forall w w', sane w -> may w w' -> sane w' }.

(** An object in hand is a version the server has handed out: if the stored object has its
    version, it is the same. *)
Definition known {K A} `{Countable K} (st : Store K A) (k : K) (o : Obj A) : Prop :=
  o_rv o <= st_rv st /\ forall cur, st_objs st !! k = Some cur -> o_rv cur = o_rv o -> cur = o.

Lemma known_stored {K A} `{Countable K} (st : Store K A) k o :
  store_wf st -> st_objs st !! k = Some o -> known st k o.
Proof. intros Hwf Ho. split; [by eapply Hwf|naive_solver]. Qed.

Lemma known_ext {K A} `{Countable K} (st st' : Store K A) k o :
  store_wf st -> store_ext st st' -> known st k o -> known st' k o.
Proof.
  intros Hwf Hext [Hle Hk]. destruct (Hext Hwf) as (_ & Hrv & Hin). split; [lia|].
  intros cur Hcur Hv. destruct (Hin _ _ Hcur) as [|Hlt]; [auto|lia].
Qed.

(** The store after a write of [v] over the version [o]. *)
Definition written {K A} `{Countable K} (merge : A -> A -> A) (k : K) (o : Obj A) (v : A)
    (st : Store K A) : Store K A :=
  mkStore (st_rv st + 1) (<[k := mkObj (st_rv st + 1) (merge (o_val o) v)]> (st_objs st)).

Lemma store_write_known {K A} `{Countable K} merge k (o : Obj A) v (st : Store K A) :
  known st k o ->
  (store_write merge k (mkObj (o_rv o) v) st).2 = st /\
    (forall o', fst (store_write merge k (mkObj (o_rv o) v) st) <> Ok o') \/
  st_objs st !! k = Some o /\
    store_write merge k (mkObj (o_rv o) v) st
    = (Ok (mkObj (st_rv st + 1) (merge (o_val o) v)), written merge k o v st).
Proof.
  intros [_ Hk]. unfold store_write. destruct (st_objs st !! k) as [cur|] eqn:E; [|by left].
  simpl. destruct (Z.eqb_spec (o_rv cur) (o_rv o)) as [Hv|]; [|by left].
  right. rewrite (Hk cur eq_refl Hv). done.
Qed.

Lemma written_ext {K A} `{Countable K} merge k (o : Obj A) v (st : Store K A) :
  store_ext st (written merge k o v st).
Proof.
  intros Hwf. split_and!; simpl; [|lia|]; intros k' o' Ho; simpl in Ho;
    apply lookup_insert_Some in Ho as [[? <-]|[? Ho]]; simpl.
  - lia.
  - transitivity (st_rv st); [by eapply Hwf|lia].
  - right. lia.
  - auto.
Qed.

Section Obeys.
Context {W : Type} {RG : Regime W}.

(** What the others leave alone. *)
Definition stable (K : W -> Prop) : Prop := forall w w', sane w -> K w -> may w w' -> K w'.

(** A computation keeps to the regime from worlds of which [K] holds. *)
Definition obeys {A} (K : W -> Prop) (m : M (Sys W) A) (s : Sys W) : Prop :=
  relies may (sys_turns s) -> sane (sys_world s) -> K (sys_world s) ->
  relies may (sys_turns (m s).2) /\ may (sys_world s) (sys_world (m s).2).

Lemma obeys_within {A} K (m : M (Sys W) A) s : effect (within may) m s -> obeys K m s.
Proof. intros Hm Hs _ _. by destruct (Hm Hs). Qed.

Lemma obeys_weaken {A} (K K' : W -> Prop) (m : M (Sys W) A) s :
  (sane (sys_world s) -> K (sys_world s) -> K' (sys_world s)) -> obeys K' m s -> obeys K m s.
Proof. intros HK Hm Hs Hw Hk. auto. Qed.

(** The rest runs with what the first part returned; [Q] is what is known of that. *)
Lemma obeys_bind {A B} K (Q : A -> W -> Prop) (m : M (Sys W) A) (f : A -> M (Sys W) B) s :
  stable K -> obeys K m s ->
  (forall a s', m s = (Ok a, s') -> relies may (sys_turns s) -> sane (sys_world s) ->
     K (sys_world s) -> Q a (sys_world s')) ->
  (forall a s', Q a (sys_world s') -> obeys K (f a) s') ->
  obeys K (m ≫= f) s.
Proof.
  intros HK Hm HQ Hf Hs Hw Hk. destruct (Hm Hs Hw Hk) as [Hs' HR].
  unfold mbind, M_bind. destruct (m s) as [[a|e|] s'] eqn:Er; cbn [fst snd] in *; [|done..].
  specialize (HQ a s' eq_refl Hs Hw Hk). pose proof (sane_may _ _ Hw HR) as Hw'.
  destruct (Hf a s' HQ Hs' Hw' (HK _ _ Hw Hk HR)) as [Hs'' HR']. split; [done|by etransitivity].
Qed.

Lemma obeys_then {A B} K (m : M (Sys W) A) (f : A -> M (Sys W) B) s :
  stable K -> obeys K m s -> (forall a s', obeys K (f a) s') -> obeys K (m ≫= f) s.
Proof. intros HK Hm Hf. apply (obeys_bind K (fun _ _ => True)); auto. Qed.

Lemma obeys_mapErr {A} K g (m : M (Sys W) A) s : obeys K m s -> obeys K (mapErr g m) s.
Proof.
  intros Hm Hs Hw Hk. specialize (Hm Hs Hw Hk). unfold mapErr. by destruct (m s) as [[]].
Qed.

Lemma obeys_try {A} K (m : M (Sys W) A) s : obeys K m s -> obeys K (try m) s.
Proof. intros Hm Hs Hw Hk. specialize (Hm Hs Hw Hk). unfold try. by destruct (m s) as [[]]. Qed.

Lemma obeys_ret {A} K (a : A) s : obeys K (mret a) s.
Proof. apply obeys_within, effect_ret, _. Qed.

Lemma obeys_throw {A} K e s : obeys (A := A) K (throw e) s.
Proof. apply obeys_within, effect_throw, _. Qed.

Lemma obeys_lift {A} K (r : outcome A) s : obeys K (lift r) s.
Proof. apply obeys_within, effect_lift, _. Qed.

Lemma obeys_gets {A} K (g : Sys W -> A) s : obeys K (gets g) s.
Proof. apply obeys_within, effect_read; [apply _|done]. Qed.

Lemma obeys_call {A} K (f : W -> outcome A * W) s :
  stable K -> (forall w, sane w -> K w -> may w (f w).2) -> obeys K (call f) s.
Proof.
  intros HK Hf Hs Hw Hk. split; [by apply call_relies|]. unfold call.
  destruct s as [w [|t ts]]; simpl in *.
  - specialize (Hf w Hw Hk). by destruct (f w).
  - apply Forall_cons in Hs as [Ht Hs]. specialize (Ht w).
    destruct (turn_fault t); [done|]. etransitivity; [exact Ht|].
    specialize (Hf _ (sane_may _ _ Hw Ht) (HK _ _ Hw Hk Ht)). by destruct (f _).
Qed.

Lemma obeys_readCall {A} K (f : W -> outcome A) s : obeys K (readCall f) s.
Proof. apply obeys_within, within_readCall, _. Qed.

(** A call that returned: what was known held when it was made. *)
Lemma obeys_call_Ok {A} K (f : W -> outcome A * W) s a s' :
  stable K -> call f s = (Ok a, s') -> relies may (sys_turns s) -> sane (sys_world s) ->
  K (sys_world s) ->
  exists w, sane w /\ K w /\ may (sys_world s) w /\ f w = (Ok a, sys_world s').
Proof.
  intros HK Hc Hs Hw Hk. apply (call_Ok may) in Hc as (w & HR & Hf & _); [|done].
  exists w. split_and!; [by eapply sane_may|by eapply HK|done|done].
Qed.

(** What a read returned, known for the rest. *)
Lemma obeys_read {A B} K (Q : A -> W -> Prop) (f : W -> outcome A) (g : A -> M (Sys W) B) s :
  stable K -> (forall w a, sane w -> K w -> f w = Ok a -> Q a w) ->
  (forall a s', obeys (fun w => K w /\ Q a w) (g a) s') ->
  obeys K (readCall f ≫= g) s.
Proof.
  intros HK HQ Hg. apply obeys_bind with (Q := Q); [done|apply obeys_readCall| |].
  - intros a s' Hr Hs Hw Hk. unfold readCall in Hr.
    eapply obeys_call_Ok in Hr as (w & Hw' & Hk' & _ & Hf); [|done..].
    injection Hf as Hf <-. auto.
  - intros a s' Ha. eapply obeys_weaken; [|apply Hg]. done.
Qed.

Lemma obeys_try_read {A B} K (Q : A -> W -> Prop) (f : W -> outcome A)
    (g : A + goerror -> M (Sys W) B) s :
  stable K -> (forall w a, sane w -> K w -> f w = Ok a -> Q a w) ->
  (forall a s', obeys (fun w => K w /\ Q a w) (g (inl a)) s') ->
  (forall e s', obeys K (g (inr e)) s') ->
  obeys K (try (readCall f) ≫= g) s.
Proof.
  intros HK HQ Hg He.
  apply obeys_bind with (Q := fun r w => match r with inl a => Q a w | inr _ => True end);
    [done|apply obeys_try, obeys_readCall| |].
  - intros r s' Hr Hs Hw Hk. apply try_Ok in Hr. destruct r as [a|e]; [|done]. unfold readCall in Hr.
    eapply obeys_call_Ok in Hr as (w & Hw' & Hk' & _ & Hf); [|done..].
    injection Hf as Hf <-. auto.
  - intros [a|e] s' Ha; [|apply He]. eapply obeys_weaken; [|apply Hg]. done.
Qed.

(** What holds now may be used. *)
Lemma obeys_now {A} (K : W -> Prop) (m : M (Sys W) A) s :
  (sane (sys_world s) -> K (sys_world s) -> obeys K m s) -> obeys K m s.
Proof. intros Hm Hs Hw Hk. by apply Hm. Qed.

(** Facts that do not mention the world. *)
Lemma stable_pure (P : Prop) : stable (fun _ => P).
Proof. by intros w w' _ HP _. Qed.

Lemma stable_and K K' : stable K -> stable K' -> stable (fun w => K w /\ K' w).
Proof. intros H H' w w' Hw [??] HR. eauto. Qed.

Section Write.
Context {Key A : Type} `{HasStore W Key A}.
Hypothesis sane_wf : forall w, sane w -> store_wf (the_store (A := A) w).
Hypothesis may_ext : forall w w', sane w -> may w w' ->
  store_ext (the_store (A := A) w) (the_store w').

Lemma stable_known (k : Key) (o : Obj A) : stable (fun w => known (the_store w) k o).
Proof using sane_wf may_ext. intros w w' Hw Hk HR. eapply known_ext; eauto. Qed.

(** A write of a version in hand takes effect only on that version. *)
Lemma obeys_update K merge (k : Key) (o : Obj A) v s :
  stable K -> (forall w, sane w -> K w -> known (the_store w) k o) ->
  (forall w, sane w -> K w -> st_objs (the_store w) !! k = Some o ->
     may w (set_store (written merge k o v (the_store w)) w)) ->
  obeys K (apiUpdate merge k (mkObj (o_rv o) v)) s.
Proof using.
  intros HK Hkn Hw. apply obeys_call; [done|]. intros w Hi Hk.
  destruct (store_write_known merge k o v (the_store w)) as [[E _]|[Ho E]]; [by auto| |].
  - destruct (store_write _ _ _ _) as [r st]. cbn [snd] in *. subst st.
    rewrite set_the_store. reflexivity.
  - rewrite E. simpl. auto.
Qed.

Lemma obeys_update_Ok K merge (k : Key) (o : Obj A) v s o' s' :
  stable K -> (forall w, sane w -> K w -> known (the_store w) k o) ->
  apiUpdate merge k (mkObj (o_rv o) v) s = (Ok o', s') ->
  relies may (sys_turns s) -> sane (sys_world s) -> K (sys_world s) ->
  exists w, sane w /\ K w /\ may (sys_world s) w /\ st_objs (the_store w) !! k = Some o /\
    o' = mkObj (st_rv (the_store w) + 1) (merge (o_val o) v) /\
    sys_world s' = set_store (written merge k o v (the_store w)) w.
Proof using.
  intros HK Hkn Hr Hs Hw Hk. unfold apiUpdate in Hr.
  eapply obeys_call_Ok in Hr as (w & Hw' & Hk' & HR & Hf); [|done..].
  exists w. destruct (store_write_known merge k o v (the_store w)) as [[_ E]|[Ho E]]; [by auto| |].
  - destruct (store_write _ _ _ _) as [r st]. injection Hf as -> _. by destruct (E o').
  - rewrite E in Hf. injection Hf as <- <-. done.
Qed.
End Write.
End Obeys.

(** ** Properties *)

(** C27: The conflict retry always comes to an end, after at most five attempts.  It gives
    the result of the first attempt that does not end in a conflict, from the state the
    conflicting attempts before it left, unless that attempt ends in an error of a context:
    then it reports success with nothing assigned when it was the first attempt, and the
    last conflict otherwise.  After five conflicts in a row it ends with the last of them. *)
Theorem RetryOnConflict_attempts {S A} (zero : A) (fn : M S A) s :
  exists k s' last, conflicts fn k (Ok zero) s last s' /\
    (if Nat.eqb k 0 then last = Ok zero else isConflict last = true) /\
    ((k < 5)%nat /\ isConflict (fn s').1 = false /\
       RetryOnConflict DefaultRetry zero fn s =
         (if isInterrupted (fn s').1 then last else (fn s').1, (fn s').2) \/
     k = 5%nat /\ RetryOnConflict DefaultRetry zero fn s = (last, s')).
Proof.
  destruct (onError_attempts DefaultRetry fn (Ok zero) s) as (k & s' & last & Hk & Hr).
  exists k, s', last. split; [done|]. split; [by apply (conflicts_last _ _ _ _ _ _ Hk)|done].
Qed.

