(* ===== verification/Maintenance.v ===== *)
(** Maintenance mode: the conflict-safe condition updates and the VM restarts of
    [pkg/util/maintain.go], the controller that completes maintenance,
    [pkg/controller/master/node/maintain_controller.go], and the life cycle both
    follow.

    The world is what the maintenance code reads and writes: nodes and virtual
    machines on the API server, the informer caches, the clock and the work
    queue.  The handlers run under interference (ApiServer.v). *)

From S2P Require Import Prelude K8s NodeUtil ResourceQuota ApiServer.

Local Open Scope Z_scope.

(** ** Constants ([pkg/util/constants.go], [pkg/util/maintain.go]) *)

Definition LabelNodeNameKey : string := "kubevirt.io/nodeName".
Definition LabelVMName : string := "harvesterhci.io/vmName".
Definition AnnotationRunStrategy : string := "harvesterhci.io/vmRunStrategy".
Definition LabelMaintainModeStrategy : string := "harvesterhci.io/maintain-mode-strategy".
Definition AnnotationMaintainModeStrategyNodeName : string :=
  "harvesterhci.io/maintain-mode-strategy-node-name".
Definition MaintainModeStrategyShutdownAndRestartAfterEnable : string :=
  "ShutdownAndRestartAfterEnable".
Definition MaintainModeStrategyShutdownAndRestartAfterDisable : string :=
  "ShutdownAndRestartAfterDisable".
Definition MaintainModeStrategyShutdown : string := "Shutdown".
Definition MaintainModeStrategyShutdownValues : list string :=
  [MaintainModeStrategyShutdownAndRestartAfterEnable;
   MaintainModeStrategyShutdownAndRestartAfterDisable; MaintainModeStrategyShutdown].
Definition UpgradeNodeDrainTaintKey : string := "kubevirt.io/drain".
Definition RunStrategyRerunOnFailure : string := "RerunOnFailure".

Definition MaintenanceModeMessageValidating : string :=
  "Checking whether the node can enter maintenance mode".
Definition MaintenanceModeMessageDraining : string := "Draining the node".
Definition MaintenanceModeMessageEvacuating : string :=
  "Waiting for VM migration and restart handling to complete".
Definition MaintenanceModeMessageCompleted : string := "Maintenance mode enabled".

Definition requeueDelay : Z := 10 * second.

(** ** The world *)

(** A virtual machine instance, as far as maintenance looks: its selector and
    required node affinity, and its conditions. *)
Record VMInst := mkVMInst {
  vi_meta : ObjectMeta;
  vi_NodeSelector : gomap string;
  vi_NodeAffinity : option (list (list SelectorRequirement));
  vi_Conditions : list Condition }.

(** Longhorn replicas, and volumes with the workloads (type, name) that use them. *)
Record Replica := mkReplica { r_VolumeName : string; r_NodeID : string; r_Started : bool }.
Record LHVolume := mkLHVolume {
  lv_Name : string; lv_Namespace : string; lv_Workloads : list (string * string) }.

(** What the informers hold, in the order they list it. *)
Record Caches := mkCaches {
  c_nodes : list Node;
  c_vms : list (Obj VM);
  c_vmis : list VMInst;
  c_replicas : list Replica;
  c_volumes : list LHVolume }.

Record World := mkWorld {
  w_nodes : Store string Node;
  w_vms : Store (string * string) VM;
  w_cache : Caches;
  w_now : Z;                                    (* nanoseconds *)
  w_enqueued : list (string * Z) }.             (* EnqueueAfter: key, delay *)

#[export] Instance World_nodes : HasStore World string Node.
Proof.
  refine {| the_store := w_nodes;
            set_store st w := mkWorld st (w_vms w) (w_cache w) (w_now w) (w_enqueued w) |}.
  - done.
  - by intros [].
Defined.

#[export] Instance World_vms : HasStore World (string * string) VM.
Proof.
  refine {| the_store := w_vms;
            set_store st w := mkWorld (w_nodes w) st (w_cache w) (w_now w) (w_enqueued w) |}.
  - done.
  - by intros [].
Defined.

Abbreviation Act := (M (Sys World)) (only parsing).

(** [metav1.Now()], as the API server stores it: whole seconds. *)
Definition metaNow : Act Z := gets (fun s => w_now (sys_world s) / second).
Definition timeNow : Act Z := gets (fun s => w_now (sys_world s)).

(** [h.enqueueAfter(name, d)] *)
Definition enqueueAfter (name : string) (d : Z) : Act unit :=
  modify (fun s => let w := sys_world s in
    mkSys (mkWorld (w_nodes w) (w_vms w) (w_cache w) (w_now w) (w_enqueued w ++ [(name, d)]))
          (sys_turns s)).

(** The node client: [Update] keeps the stored status, [UpdateStatus] the rest. *)
Definition mergeNode (cur new : Node) : Node := node_set_Conditions (node_Conditions cur) new.
Definition mergeNodeStatus (cur new : Node) : Node :=
  node_set_Conditions (node_Conditions new) cur.

Definition nodes_Get (name : string) : Act (Obj Node) := apiGet name.
Definition nodes_Update (o : Obj Node) : Act (Obj Node) :=
  apiUpdate mergeNode (node_Name (o_val o)) o.
Definition nodes_UpdateStatus (o : Obj Node) : Act (Obj Node) :=
  apiUpdate mergeNodeStatus (node_Name (o_val o)) o.

(** The virtual machine client; the status of a VM is a subresource too. *)
Definition vmKey (vm : VM) : string * string :=
  (om_Namespace (vm_meta vm), om_Name (vm_meta vm)).
Definition mergeVM (cur new : VM) : VM :=
  mkVM (vm_meta new) (vm_PrintableStatus cur) (vm_Running new) (vm_RunStrategy new)
    (vm_Template new).
Definition vm_Annotations (vm : VM) : gomap string := om_Annotations (vm_meta vm).
Definition vm_Labels (vm : VM) : gomap string := om_Labels (vm_meta vm).
Definition vm_set_annotations (a : gomap string) (vm : VM) : VM :=
  mkVM (set_Annotations a (vm_meta vm)) (vm_PrintableStatus vm) (vm_Running vm)
    (vm_RunStrategy vm) (vm_Template vm).
Definition vm_set_RunStrategy (s : option string) (vm : VM) : VM :=
  mkVM (vm_meta vm) (vm_PrintableStatus vm) (vm_Running vm) s (vm_Template vm).

Definition vms_Get (k : string * string) : Act (Obj VM) := apiGet k.
Definition vms_Update (o : Obj VM) : Act (Obj VM) := apiUpdate mergeVM (vmKey (o_val o)) o.

(** Cached reads. *)
Definition cached {A} (f : Caches -> outcome A) : Act A := readCall (fun w => f (w_cache w)).

Definition vmCache_Get (k : string * string) : Act (Obj VM) :=
  cached (fun c => match List.find (fun o => bool_decide (vmKey (o_val o) = k)) (c_vms c) with
                   | Some o => Ok o
                   | None => Err (ApiNotFound "not found")
                   end).

(** [labels.Set{key: value}.AsSelector()] on the VM cache. *)
Definition hasLabel (key value : string) (labels : gomap string) : bool :=
  bool_decide (gm_get labels key = Some value).
Definition vmCache_List (sel : gomap string -> bool) : Act (list (Obj VM)) :=
  cached (fun c => Ok (List.filter (fun o => sel (vm_Labels (o_val o))) (c_vms c))).

(** ** [pkg/util/maintain.go]: the condition updates *)

Definition UpdateMaintenanceModeCondition (nodeName status reason message : string)
  : Act (option (Obj Node)) :=
  RetryOnConflict DefaultRetry None (
    o ← nodes_Get nodeName;
    now ← metaNow;
    let '(node, changed) := SetMaintenanceModeCondition now (o_val o) status reason message in
    if negb changed then mret (Some (mkObj (o_rv o) node))
    else Some <$> nodes_UpdateStatus (mkObj (o_rv o) node)).

Definition TransitionMaintenanceModeCondition
    (nodeName fromStatus fromReason toStatus toReason message : string)
  : Act (option (Obj Node)) :=
  RetryOnConflict DefaultRetry None (
    o ← nodes_Get nodeName;
    if negb (IsMaintenanceModePhase (Some (o_val o)) fromStatus [fromReason])
    then mret (Some o)
    else
      now ← metaNow;
      let '(node, _) := SetMaintenanceModeCondition now (o_val o) toStatus toReason message in
      Some <$> nodes_UpdateStatus (mkObj (o_rv o) node)).

(** ** [RestartMaintenanceModeVMsOnNode] *)

Definition shutDownFor (nodeName : string) (vm : VM) : bool :=
  String.eqb (gm_str (vm_Annotations vm) AnnotationMaintainModeStrategyNodeName) nodeName
  && bool_decide (is_Some (vm_Annotations vm)).

(** What one attempt makes of the VM it read: the tracking annotation goes, and a
    halted VM gets its recorded run strategy back. *)
Definition restarted (vm : VM) : outcome VM :=
  let toUpdate :=
    vm_set_annotations
      (gm_delete (vm_Annotations vm) AnnotationMaintainModeStrategyNodeName) vm in
  currentStrategy ← RunStrategy toUpdate;
  if String.eqb currentStrategy RunStrategyHalted then
    let rs := gm_str (vm_Annotations toUpdate) AnnotationRunStrategy in
    let rs := if String.eqb rs "" then RunStrategyRerunOnFailure else rs in
    Ok (vm_set_RunStrategy (Some rs) toUpdate)
  else Ok toUpdate.

Definition restartVM (nodeName : string) (k : string * string) : Act unit :=
  RetryOnConflict DefaultRetry tt (
    r ← try (vms_Get k);
    match r with
    | inr e => if IsNotFound e then mret tt else throw e
    | inl latestVM =>
        if negb (shutDownFor nodeName (o_val latestVM)) then mret tt
        else
          toUpdate ← lift (restarted (o_val latestVM));
          vms_Update (mkObj (o_rv latestVM) toUpdate);;
          mret tt
    end).

Fixpoint restartVMs (nodeName : string) (vmList : list (Obj VM)) : Act unit :=
  match vmList with
  | [] => mret tt
  | vm :: vms =>
      if negb (shutDownFor nodeName (o_val vm)) then restartVMs nodeName vms
      else
        mapErr (ErrWrap ("failed to process VM " +:+ GetNamespacedName (vm_meta (o_val vm))
                         +:+ " during restart"))
               (restartVM nodeName (vmKey (o_val vm)));;
        restartVMs nodeName vms
  end.

Definition RestartMaintenanceModeVMsOnNode (nodeName strategy : string) : Act unit :=
  vmList ← mapErr (ErrWrap ("failed to list VMs with labels " +:+ LabelMaintainModeStrategy
                            +:+ "=" +:+ strategy))
                  (vmCache_List (hasLabel LabelMaintainModeStrategy strategy));
  restartVMs nodeName vmList.

(** ** [maintain_controller.go] *)

(** [labels.NewRequirement] refuses a value that is no label value. *)
Class LabelLib := { validLabelValue : string -> bool }.

Section Controller.
Context {LL : LabelLib}.

(** [virtualmachineinstance.ListByNode] *)
Definition ListByNode (node : Node) (selector : gomap string -> bool) : Act (list VMInst) :=
  if negb (validLabelValue (node_Name node)) then throw (ErrText "invalid label value")
  else
    mapErr (ErrWrap ("failed to list VMIs on node " +:+ node_Name node))
      (cached (fun c => Ok (List.filter (fun v =>
          selector (om_Labels (vi_meta v))
          && hasLabel LabelNodeNameKey (node_Name node) (om_Labels (vi_meta v))) (c_vmis c)))).

(** [labels.NewSelector()], which selects everything. *)
Definition everything (_ : gomap string) : bool := true.

Definition deleting (node : Node) : bool :=
  bool_decide (is_Some (om_DeletionTimestamp (node_meta node))).

Definition OnNodeChanged (node : option (Obj Node)) : Act (option (Obj Node)) :=
  match node with
  | None => mret None
  | Some o =>
      let n := o_val o in
      if deleting n then mret (Some o)
      else
        let condition := GetMaintenanceModeCondition (Some n) in
        if negb (IsMaintenanceModeCondition condition ConditionTrue
                   [NodeConditionReasonEvacuating]) then mret (Some o)
        else
          vmiList ← ListByNode n everything;
          match vmiList with
          | _ :: _ =>
              enqueueAfter (node_Name n) requeueDelay;;
              mret (Some o)
          | [] =>
              RestartMaintenanceModeVMsOnNode (node_Name n)
                MaintainModeStrategyShutdownAndRestartAfterEnable;;
              TransitionMaintenanceModeCondition (node_Name n)
                ConditionTrue NodeConditionReasonEvacuating
                ConditionTrue NodeConditionReasonCompleted MaintenanceModeMessageCompleted
          end
  end.

(** The loop of [OnNodeRemoved]: plain updates of the cached VMs. *)
Fixpoint forgetNode (nodeName : string) (vms : list (Obj VM)) : Act unit :=
  match vms with
  | [] => mret tt
  | vm :: vms =>
      if negb (shutDownFor nodeName (o_val vm)) then forgetNode nodeName vms
      else
        vms_Update (mkObj (o_rv vm) (vm_set_annotations
          (gm_delete (vm_Annotations (o_val vm)) AnnotationMaintainModeStrategyNodeName)
          (o_val vm)));;
        forgetNode nodeName vms
  end.

Definition OnNodeRemoved (node : option (Obj Node)) : Act (option (Obj Node)) :=
  match node with
  | None => mret None
  | Some o =>
      if negb (deleting (o_val o)) then mret (Some o)
      else if negb (IsMaintenanceModeEngaged (Some (o_val o))) then mret (Some o)
      else
        vms ← mapErr (ErrWrap "failed to list VMs") (vmCache_List everything);
        forgetNode (node_Name (o_val o)) vms;;
        mret (Some o)
  end.
End Controller.

(** ** The life cycle

    The phases of a node are the status and reason of its maintenance condition.
    [moves] lists the moves the documentation of the conditions gives: a
    request is validated, draining begins, the drained node waits for its VMs to
    leave, and a finished or failed attempt is taken back by the user. *)
Inductive Phase :=
| PAbsent          (* no such node *)
| PIdle            (* no condition *)
| PValidating | PDraining | PEvacuating | PCompleted
| PDrainError      (* True/Error *)
| PPreError        (* False/Error *)
| POther.

#[export] Instance Phase_eq : EqDecision Phase.
Proof. solve_decision. Defined.

Definition condPhase (c : option NodeCondition) : Phase :=
  match c with
  | None => PIdle
  | Some c =>
      if String.eqb (nc_Status c) ConditionTrue then
        if String.eqb (nc_Reason c) NodeConditionReasonValidating then PValidating
        else if String.eqb (nc_Reason c) NodeConditionReasonDraining then PDraining
        else if String.eqb (nc_Reason c) NodeConditionReasonEvacuating then PEvacuating
        else if String.eqb (nc_Reason c) NodeConditionReasonCompleted then PCompleted
        else if String.eqb (nc_Reason c) NodeConditionReasonError then PDrainError
        else POther
      else if String.eqb (nc_Status c) ConditionFalse
              && String.eqb (nc_Reason c) NodeConditionReasonError then PPreError
      else POther
  end.

Definition phaseOf (n : Node) : Phase := condPhase (GetMaintenanceModeCondition (Some n)).

Definition phaseAt (w : World) (name : string) : Phase :=
  match st_objs (w_nodes w) !! name with
  | None => PAbsent
  | Some o => phaseOf (o_val o)
  end.

(** Who moves a node, and how. *)
Inductive Actor := DrainController | MaintainController | User | Cluster.

Inductive moves : Actor -> Phase -> Phase -> Prop :=
| mv_validate : moves DrainController PIdle PValidating
| mv_refuse : moves DrainController PValidating PPreError
| mv_drain : moves DrainController PValidating PDraining
| mv_drained : moves DrainController PDraining PEvacuating
| mv_timeout : moves DrainController PDraining PDrainError
| mv_complete : moves MaintainController PEvacuating PCompleted
| mv_disable p : p ∈ [PEvacuating; PCompleted; PDrainError] -> moves User p PIdle
| mv_clear : moves User PPreError PIdle
| mv_create : moves Cluster PAbsent PIdle
| mv_delete p : moves Cluster p PAbsent.

(** The moves of some of the actors, on any node, and those of one on its node. *)
Definition movesOf (actors : list Actor) (_ : string) (p p' : Phase) : Prop :=
  exists a, a ∈ actors /\ moves a p p'.

(** The phase of every node moved along the relation [L] gives for it. *)
Definition phases (L : string -> Phase -> Phase -> Prop) (w w' : World) : Prop :=
  forall name, rtc (L name) (phaseAt w name) (phaseAt w' name).

(** A stored node carries the name it is stored under, VMs likewise, and versions
    are in order. *)
Definition world_wf (w : World) : Prop :=
  (forall name o, st_objs (w_nodes w) !! name = Some o -> node_Name (o_val o) = name) /\
  (forall k o, st_objs (w_vms w) !! k = Some o -> vmKey (o_val o) = k) /\
  store_wf (w_nodes w) /\ store_wf (w_vms w).

(** What everybody keeps to: well-formed worlds stay so, versions grow, and the
    phases move along [L]. *)
Definition evolves (L : string -> Phase -> Phase -> Prop) (w w' : World) : Prop :=
  world_wf w ->
  world_wf w' /\ store_ext (w_nodes w) (w_nodes w') /\ store_ext (w_vms w) (w_vms w') /\
  phases L w w'.

#[export] Instance evolves_preorder L : PreOrder (evolves L).
Proof.
  split.
  - intros w Hw. split_and!; [done|reflexivity..|]. intros name. constructor.
  - intros w1 w2 w3 H12 H23 Hw. destruct (H12 Hw) as (Hw2 & Hn & Hv & Hp).
    destruct (H23 Hw2) as (Hw3 & Hn' & Hv' & Hp').
    split_and!; [done|by etransitivity..|].
    intros name. etransitivity; [apply Hp|apply Hp'].
Qed.

(** Everything but the phases. *)
Abbreviation keeps := (evolves (fun _ _ _ => True)) (only parsing).

Lemma evolves_weaken (L L' : string -> Phase -> Phase -> Prop) w w' :
  (forall name p p', L name p p' -> L' name p p') -> evolves L w w' -> evolves L' w w'.
Proof.
  intros HL H Hw. destruct (H Hw) as (? & ? & ? & Hp). split_and!; [done..|].
  intros name. eapply rtc_subrel; [|apply Hp]. auto.
Qed.

(** ** What the writes do *)

Definition reasonPhase (status reason : string) : Phase :=
  condPhase (Some (mkNodeCond "" status 0 0 reason "")).

Lemma phaseOf_Set now node st re msg :
  phaseOf (SetMaintenanceModeCondition now node st re msg).1 = reasonPhase st re.
Proof.
  unfold SetMaintenanceModeCondition.
  destruct (setMaintenanceConds _ _ _ _ _) as [cs b] eqn:E. simpl.
  apply setMaintenanceConds_find in E as (c & Hc & <- & <- & _).
  unfold phaseOf, GetMaintenanceModeCondition. simpl. by rewrite Hc.
Qed.

Lemma phaseOf_Remove node : phaseOf (RemoveMaintenanceModeCondition node).1 = PIdle.
Proof.
  unfold phaseOf. by rewrite (proj1 (RemoveMaintenanceModeCondition_spec node)).
Qed.

Lemma Set_status_only now node st re msg :
  node_set_Conditions (node_Conditions (SetMaintenanceModeCondition now node st re msg).1) node
  = (SetMaintenanceModeCondition now node st re msg).1.
Proof. unfold SetMaintenanceModeCondition. by destruct (setMaintenanceConds _ _ _ _ _). Qed.

Lemma Set_Name now node st re msg :
  node_Name (SetMaintenanceModeCondition now node st re msg).1 = node_Name node.
Proof. unfold SetMaintenanceModeCondition. by destruct (setMaintenanceConds _ _ _ _ _). Qed.

(** The world with a new version of a node or of a VM. *)
Definition storeNode (name : string) (n : Node) (w : World) : World :=
  let rv := st_rv (w_nodes w) + 1 in
  set_store (mkStore rv (<[name := mkObj rv n]> (st_objs (w_nodes w)))) w.
Definition storeVM (k : string * string) (vm : VM) (w : World) : World :=
  let rv := st_rv (w_vms w) + 1 in
  set_store (mkStore rv (<[k := mkObj rv vm]> (st_objs (w_vms w)))) w.

Lemma store_insert_wf {K A} `{Countable K} (P : K -> A -> Prop) (st : Store K A) k v :
  store_wf st -> (forall k o, st_objs st !! k = Some o -> P k (o_val o)) -> P k v ->
  let st' := mkStore (st_rv st + 1) (<[k := mkObj (st_rv st + 1) v]> (st_objs st)) in
  store_wf st' /\ store_ext st st' /\
  (forall k o, st_objs st' !! k = Some o -> P k (o_val o)).
Proof.
  intros Hwf HP Hv st'.
  assert (store_wf st') as Hwf'.
  { intros k' o Ho. simpl in Ho. apply lookup_insert_Some in Ho as [[? <-]|[? Ho]]; simpl; [lia|].
    transitivity (st_rv st); [by eapply Hwf|lia]. }
  split_and!; [done| |].
  - intros _. split_and!; simpl; [done|lia|]. intros k' o Ho.
    apply lookup_insert_Some in Ho as [[? <-]|[? Ho]]; simpl; [right; lia|auto].
  - intros k' o Ho. simpl in Ho. apply lookup_insert_Some in Ho as [[<- <-]|[? Ho]]; simpl; auto.
Qed.

Lemma phaseAt_storeNode name n w name' :
  phaseAt (storeNode name n w) name' =
  if decide (name = name') then phaseOf n else phaseAt w name'.
Proof.
  unfold phaseAt, storeNode. simpl. rewrite lookup_insert. by case_decide.
Qed.

Lemma evolves_storeNode L name n w :
  node_Name n = name -> rtc (L name) (phaseAt w name) (phaseOf n) -> evolves L w (storeNode name n w).
Proof.
  intros Hn Hp (Hname & Hkey & Hsn & Hsv).
  destruct (store_insert_wf (fun k n => node_Name n = k) (w_nodes w) name n) as (? & ? & ?);
    [done..|].
  split_and!; simpl; [|done|reflexivity|].
  - split_and!; done.
  - intros name'. rewrite phaseAt_storeNode. case_decide; subst; [done|constructor].
Qed.

Lemma evolves_storeVM L k vm w : vmKey vm = k -> evolves L w (storeVM k vm w).
Proof.
  intros Hk (Hname & Hkey & Hsn & Hsv).
  destruct (store_insert_wf (fun k vm => vmKey vm = k) (w_vms w) k vm) as (? & ? & ?);
    [done..|].
  split_and!; simpl; [|reflexivity|done|].
  - split_and!; done.
  - intros name'. constructor.
Qed.

(** A write either fails and changes nothing or stores the merged object. *)
Lemma store_write_cases {K A} `{Countable K} merge k (o : Obj A) (st : Store K A) :
  (store_write merge k o st).2 = st \/
  exists cur, st_objs st !! k = Some cur /\ o_rv cur = o_rv o /\
    let o' := mkObj (st_rv st + 1) (merge (o_val cur) (o_val o)) in
    store_write merge k o st = (Ok o', mkStore (st_rv st + 1) (<[k := o']> (st_objs st))).
Proof.
  unfold store_write. destruct (st_objs st !! k) as [cur|]; [|by left].
  destruct (Z.eqb_spec (o_rv cur) (o_rv o)); [|by left]. right. eauto.
Qed.

Section Within.
Context (L : string -> Phase -> Phase -> Prop).

Lemma within_nodes_Update o s : effect (within (evolves L)) (nodes_Update o) s.
Proof.
  apply within_call; [apply _|]. intros w _.
  destruct (store_write_cases mergeNode (node_Name (o_val o)) o (the_store w))
    as [E|(cur & Hcur & _ & E)].
  - destruct (store_write _ _ _ _) as [r st]. cbn [snd] in *. subst st.
    rewrite set_the_store. reflexivity.
  - rewrite E. cbv zeta beta iota.
    apply (evolves_storeNode L (node_Name (o_val o)) (mergeNode (o_val cur) (o_val o))); [done|].
    unfold phaseAt. simpl in Hcur. rewrite Hcur. constructor.
Qed.

Lemma within_vms_Update o s : effect (within (evolves L)) (vms_Update o) s.
Proof.
  apply within_call; [apply _|]. intros w _.
  destruct (store_write_cases mergeVM (vmKey (o_val o)) o (the_store w))
    as [E|(cur & Hcur & _ & E)].
  - destruct (store_write _ _ _ _) as [r st]. cbn [snd] in *. subst st.
    rewrite set_the_store. reflexivity.
  - rewrite E. cbv zeta beta iota.
    by apply (evolves_storeVM L (vmKey (o_val o)) (mergeVM (o_val cur) (o_val o))).
Qed.

Lemma within_enqueueAfter name d s : effect (within (evolves L)) (enqueueAfter name d) s.
Proof.
  intros Hs. split; [|done]. intros Hw. split_and!; [done|simpl; reflexivity..|].
  intros n. constructor.
Qed.

Lemma within_cached {A} (f : Caches -> outcome A) s : effect (within (evolves L)) (cached f) s.
Proof. apply within_readCall, _. Qed.

Lemma within_gets {A} (f : Sys World -> A) s : effect (within (evolves L)) (gets f) s.
Proof. apply effect_read; [apply _|done]. Qed.

Lemma within_timeNow s : effect (within (evolves L)) timeNow s.
Proof. apply within_gets. Qed.

Lemma within_nodes_Get name s : effect (within (evolves L)) (nodes_Get name) s.
Proof. apply within_readCall, _. Qed.
Lemma within_vms_Get k s : effect (within (evolves L)) (vms_Get k) s.
Proof. apply within_readCall, _. Qed.
Lemma within_vmCache_Get k s : effect (within (evolves L)) (vmCache_Get k) s.
Proof. apply within_readCall, _. Qed.
Lemma within_vmCache_List sel s : effect (within (evolves L)) (vmCache_List sel) s.
Proof. apply within_readCall, _. Qed.
End Within.

#[export] Hint Resolve within_nodes_Update within_vms_Update within_enqueueAfter within_cached
  within_gets within_timeNow within_nodes_Get within_vms_Get within_vmCache_Get within_vmCache_List : harv.

(** ** Single commits of the condition updates *)

Definition writesCondition (name status reason message : string) (w w' : World) : Prop :=
  exists o now, st_objs (w_nodes w) !! name = Some o /\
    w' = storeNode name (SetMaintenanceModeCondition now (o_val o) status reason message).1 w.

Lemma writesCondition_evolves L name st re msg w w' :
  world_wf w -> writesCondition name st re msg w w' ->
  rtc (L name) (phaseAt w name) (reasonPhase st re) -> evolves L w w'.
Proof.
  intros (Hname & _) (o & now & Ho & ->) HL. apply evolves_storeNode.
  - rewrite Set_Name. by apply Hname.
  - by rewrite phaseOf_Set.
Qed.

Section Commit.
Context (E : World -> World -> Prop) `{!PreOrder E}.
Hypothesis E_keeps : forall w w', E w w' -> keeps w w'.

Lemma E_wf w w' : world_wf w -> E w w' -> world_wf w'.
Proof using E_keeps. intros Hw HE. by apply (E_keeps _ _ HE). Qed.

Lemma E_node_ext w w' : world_wf w -> E w w' -> store_ext (the_store w) (the_store (A := Node) w').
Proof using E_keeps. intros Hw HE. by apply (E_keeps _ _ HE). Qed.

Lemma node_store_wf w : world_wf w -> store_wf (the_store (A := Node) w).
Proof using. by intros (_ & _ & ? & _). Qed.

Lemma writesCondition_wf name st re msg w w' :
  world_wf w -> writesCondition name st re msg w w' -> world_wf w'.
Proof using.
  intros Hw HC. apply (writesCondition_evolves (fun _ _ _ => True) _ _ _ _ _ _ Hw HC); [|done].
  by apply rtc_once.
Qed.

(** A status write of the node just read. *)
Lemma status_write_commits (C : World -> World -> Prop) name o n s :
  st_objs (w_nodes (sys_world s)) !! name = Some o ->
  node_Name n = node_Name (o_val o) -> node_set_Conditions (node_Conditions n) (o_val o) = n ->
  (forall w w', world_wf w -> C w w' -> world_wf w') ->
  (forall w, world_wf w -> st_objs (w_nodes w) !! name = Some o -> C w (storeNode name n w)) ->
  commits E C world_wf (nodes_UpdateStatus (mkObj (o_rv o) n)) s.
Proof using E_keeps PreOrder0.
  intros Ho Hnn Hcs HCwf HC Hs. split; [by apply call_relies|]. intros Hw.
  assert (node_Name (o_val o) = name) as Hn by by apply Hw.
  unfold nodes_UpdateStatus. cbn [o_val]. rewrite Hnn, Hn.
  apply (commits_write E C world_wf E_wf HCwf node_store_wf E_node_ext); [done| |done|done].
  intros w st0 o' Hw' Ho' Ew. unfold store_write in Ew. rewrite Ho', Z.eqb_refl in Ew.
  injection Ew as <- <-. cbn [o_val]. unfold mergeNodeStatus. rewrite Hcs. by apply HC.
Qed.

(** The same, with its condition set. *)
Lemma UpdateStatus_commits (C : World -> World -> Prop) name o now st re msg s :
  st_objs (w_nodes (sys_world s)) !! name = Some o ->
  (forall w w', world_wf w -> C w w' -> world_wf w') ->
  (forall w w', st_objs (w_nodes w) !! name = Some o ->
     writesCondition name st re msg w w' -> C w w') ->
  commits E C world_wf
    (nodes_UpdateStatus (mkObj (o_rv o) (SetMaintenanceModeCondition now (o_val o) st re msg).1)) s.
Proof using E_keeps PreOrder0.
  intros Ho HCwf HC. apply status_write_commits with (name := name);
    [done|apply Set_Name|apply Set_status_only|done|].
  intros w _ Ho'. eapply HC; [exact Ho'|]. by exists o, now.
Qed.

(** The update of the condition: one commit, whatever phase it finds. *)
Lemma Update_commits name st re msg s :
  commits E (writesCondition name st re msg) world_wf
    (UpdateMaintenanceModeCondition name st re msg) s.
Proof using E_keeps PreOrder0.
  apply (commits_retry (W := World)); [apply _|]. intros s1.
  apply (commits_get E _ world_wf E_wf). intros o s2 Ho.
  apply (commits_after (W := World) E _ world_wf E_wf).
  { apply effect_read; [apply _|done]. }
  intros now s3 [= <- <-].
  destruct (SetMaintenanceModeCondition _ _ _ _ _) as [n b] eqn:En.
  destruct b; cbn [negb]; [|apply (commits_ret (W := World)), _].
  apply (commits_fmap (W := World)).
  replace n with (SetMaintenanceModeCondition (w_now (sys_world s2) / second) (o_val o) st re msg).1
    by by rewrite En.
  apply UpdateStatus_commits with (name := name); [done| |done].
  intros w w'. apply writesCondition_wf.
Qed.

(** The guarded transition: one commit, from the source phase. *)
Lemma Transition_commits name fs fr ts tr msg s :
  commits E (fun w w' => writesCondition name ts tr msg w w' /\
      exists o, st_objs (w_nodes w) !! name = Some o /\
        IsMaintenanceModePhase (Some (o_val o)) fs [fr] = true) world_wf
    (TransitionMaintenanceModeCondition name fs fr ts tr msg) s.
Proof using E_keeps PreOrder0.
  apply (commits_retry (W := World)); [apply _|]. intros s1.
  apply (commits_get E _ world_wf E_wf). intros o s2 Ho.
  destruct (IsMaintenanceModePhase _ _ _) eqn:Ep; cbn [negb];
    [|apply (commits_ret (W := World)), _].
  apply (commits_after (W := World) E _ world_wf E_wf).
  { apply effect_read; [apply _|done]. }
  intros now s3 [= <- <-].
  destruct (SetMaintenanceModeCondition _ _ _ _ _) as [n b] eqn:En.
  apply (commits_fmap (W := World)).
  replace n with (SetMaintenanceModeCondition (w_now (sys_world s2) / second) (o_val o) ts tr msg).1
    by by rewrite En.
  apply UpdateStatus_commits with (name := name); [done| |].
  - intros w w' Hw [? _]. by eapply writesCondition_wf.
  - intros w w' Ho' ?. split; [done|]. eauto.
Qed.
End Commit.

(** Commits of the life cycle stay within it. *)
Lemma evolves_guarded L w w' : (world_wf w -> evolves L w w') -> evolves L w w'.
Proof. intros H Hw. by apply H. Qed.

Lemma evolves_wf L w w' : world_wf w -> evolves L w w' -> world_wf w'.
Proof. intros Hw H. by apply H. Qed.

Lemma IsMaintenanceModePhase_phase n fs fr :
  IsMaintenanceModePhase (Some n) fs [fr] = true -> phaseOf n = reasonPhase fs fr.
Proof.
  unfold IsMaintenanceModePhase, IsMaintenanceModeCondition, phaseOf, str_in.
  destruct (GetMaintenanceModeCondition (Some n)) as [c|]; [|done]. intros H. boolify.
  subst. set_unfold. destruct H0; [|done]. by subst.
Qed.

(** The converse, for the phases the transitions start from. *)
Lemma phase_IsMaintenanceModePhase n p re :
  (p, re) ∈ [(PDraining, NodeConditionReasonDraining); (PEvacuating, NodeConditionReasonEvacuating)] ->
  phaseOf n = p -> IsMaintenanceModePhase (Some n) ConditionTrue [re] = true.
Proof.
  intros Hin Hp. unfold IsMaintenanceModePhase, phaseOf, condPhase, IsMaintenanceModeCondition in *.
  destruct (GetMaintenanceModeCondition (Some n)) as [c|]; [|subst; set_solver].
  destruct (String.eqb (nc_Status c) ConditionTrue); cycle 1.
  { destruct (_ && _); subst; set_solver. }
  cbn [andb]. unfold str_in. apply bool_decide_eq_true, list_elem_of_singleton.
  repeat match goal with
         | H : (if String.eqb ?a ?b then _ else _) = _ |- _ =>
             destruct (String.eqb_spec a b); [subst p|]
         end; set_unfold; naive_solver.
Qed.

Lemma Transition_within (L : string -> Phase -> Phase -> Prop) name fs fr ts tr msg s :
  L name (reasonPhase fs fr) (reasonPhase ts tr) ->
  effect (within (evolves L)) (TransitionMaintenanceModeCondition name fs fr ts tr msg) s.
Proof.
  intros HL. eapply (commits_within (W := World));
    [apply _|apply evolves_guarded|apply evolves_wf| |apply Transition_commits; [apply _|]].
  - cbv beta. intros w w' Hw [HC (o & Ho & Hp)].
    apply (writesCondition_evolves L _ _ _ _ _ _ Hw HC). apply rtc_once.
    unfold phaseAt. rewrite Ho. by rewrite (IsMaintenanceModePhase_phase _ _ _ Hp).
  - intros w w'. by apply evolves_weaken.
Qed.

Lemma within_restartVMs L name l s : effect (within (evolves L)) (restartVMs name l) s.
Proof.
  revert s. induction l as [|vm l IH]; intros s; cbn [restartVMs]; [by effect_go|].
  effect_go. apply effect_retry; [apply _|]. intros s'. effect_go.
Qed.

Lemma within_Restart L name st s :
  effect (within (evolves L)) (RestartMaintenanceModeVMsOnNode name st) s.
Proof. unfold RestartMaintenanceModeVMsOnNode. effect_go. apply within_restartVMs. Qed.

#[export] Hint Resolve within_Restart : harv.

Section ControllerProofs.
Context {LL : LabelLib} (L : string -> Phase -> Phase -> Prop).

Lemma within_ListByNode n sel s : effect (within (evolves L)) (ListByNode n sel) s.
Proof. unfold ListByNode. effect_go. Qed.
#[local] Hint Resolve within_ListByNode : harv.

Lemma within_forgetNode name l s : effect (within (evolves L)) (forgetNode name l) s.
Proof.
  revert s. induction l as [|vm l IH]; intros s; cbn [forgetNode]; effect_go.
Qed.
#[local] Hint Resolve within_forgetNode : harv.

(** The maintenance controller only completes evacuations, however stale the node
    it is called with. *)
Lemma within_OnNodeChanged node s :
  (forall o, node = Some o -> L (node_Name (o_val o)) PEvacuating PCompleted) ->
  effect (within (evolves L)) (OnNodeChanged node) s.
Proof.
  intros HL. unfold OnNodeChanged. effect_go. apply Transition_within. by apply HL.
Qed.

Lemma within_OnNodeRemoved node s : effect (within (evolves L)) (OnNodeRemoved node) s.
Proof. unfold OnNodeRemoved. effect_go. Qed.
End ControllerProofs.

#[export] Hint Resolve within_ListByNode within_OnNodeRemoved : harv.

(** ** Moves from a known phase

    The condition update writes over whatever it finds.  It keeps to the life cycle
    when the node is in a phase [p] that nobody else moves it out of. *)
Section Leads.
Context (others L : string -> Phase -> Phase -> Prop) (name : string) (p : Phase).
Hypothesis others_L : forall name p p', others name p p' -> L name p p'.
Hypothesis p_kept : forall p', ~ others name p p'.

Definition leads {A} (m : M (Sys World) A) (s : Sys World) : Prop :=
  relies (evolves others) (sys_turns s) -> world_wf (sys_world s) ->
  phaseAt (sys_world s) name = p ->
  relies (evolves others) (sys_turns (m s).2) /\ evolves L (sys_world s) (sys_world (m s).2).

Lemma others_kept w w' :
  world_wf w -> evolves others w w' -> phaseAt w name = p -> phaseAt w' name = p.
Proof using p_kept.
  intros Hw H Hp. destruct (H Hw) as (_ & _ & _ & Hph). specialize (Hph name).
  rewrite Hp in Hph. inversion Hph as [|? p' ? Hstep]; [done|]. by destruct (p_kept p').
Qed.

Lemma within_leads {A} (m : M (Sys World) A) s :
  effect (within (evolves others)) m s -> leads m s.
Proof using others_L.
  intros Hm Hs Hw Hp. destruct (Hm Hs) as [HE Hs']. split; [done|].
  by eapply evolves_weaken.
Qed.

(** What comes before the move leaves the phase alone, ... *)
Lemma leads_bind {A B} (m : M (Sys World) A) (f : A -> M (Sys World) B) s :
  effect (within (evolves others)) m s ->
  (forall a s', m s = (Ok a, s') -> leads (f a) s') -> leads (m ≫= f) s.
Proof using others_L p_kept.
  intros Hm Hf Hs Hw Hp. destruct (Hm Hs) as [HE Hs']. unfold mbind, M_bind.
  destruct (m s) as [[a|e|] s'] eqn:E; simpl in *;
    [|split; [done|by eapply evolves_weaken]..].
  destruct (Hf a s' eq_refl Hs') as [Hs'' HE'].
  - by eapply evolves_wf.
  - by eapply others_kept.
  - split; [done|]. etransitivity; [by eapply evolves_weaken|done].
Qed.

(** ... and what comes after only does what the others may. *)
Lemma leads_then {A B} (m : M (Sys World) A) (f : A -> M (Sys World) B) s :
  leads m s -> (forall a s', effect (within (evolves others)) (f a) s') -> leads (m ≫= f) s.
Proof using others_L.
  intros Hm Hf Hs Hw Hp. destruct (Hm Hs Hw Hp) as [Hs' HE]. unfold mbind, M_bind.
  destruct (m s) as [[a|e|] s'] eqn:E; simpl in *; [|done..].
  destruct (Hf a s' Hs') as [HE' Hs'']. split; [done|].
  etransitivity; [done|by eapply evolves_weaken].
Qed.

Lemma leads_Update st re msg s :
  L name p (reasonPhase st re) -> leads (UpdateMaintenanceModeCondition name st re msg) s.
Proof using others_L p_kept.
  intros HL Hs Hw Hp.
  destruct (Update_commits (evolves others)
              ltac:(intros w w'; by apply evolves_weaken) name st re msg s Hs) as [Hs' Ho].
  split; [done|]. destruct (Ho Hw) as [_ Ho'].
  destruct ((UpdateMaintenanceModeCondition name st re msg s).1);
    [|by eapply evolves_weaken..].
  destruct Ho' as (w1 & HE & [<-|(w2 & HC & HE')]); [by eapply evolves_weaken|].
  etransitivity; [by eapply evolves_weaken|].
  etransitivity; [|by eapply evolves_weaken].
  apply (writesCondition_evolves L _ _ _ _ _ _ (evolves_wf _ _ _ Hw HE) HC).
  rewrite (others_kept _ _ Hw HE Hp). by apply rtc_once.
Qed.
End Leads.

(** ** Runs without interference *)

Lemma readCall_quiet {W A} (f : W -> outcome A) w : readCall f (quiet w) = (f w, quiet w).
Proof. unfold readCall. by rewrite call_quiet. Qed.

Lemma retry_run {S A} n zero (fn : M S A) s a s' :
  fn s = (Ok a, s') -> RetryOnConflict (Datatypes.S n) zero fn s = (Ok a, s').
Proof. intros H. unfold RetryOnConflict, OnError. cbn [onError]. by rewrite H. Qed.

Section Runs.
Context (w : World) (name : string) (o : Obj Node).
Hypothesis Ho : st_objs (w_nodes w) !! name = Some o.
Hypothesis Hname : node_Name (o_val o) = name.

Lemma nodes_Get_run : nodes_Get name (quiet w) = (Ok o, quiet w).
Proof using Ho.
  unfold nodes_Get, apiGet, store_get. rewrite readCall_quiet. simpl. by rewrite Ho.
Qed.

Lemma nodes_write_run merge n :
  apiUpdate merge name (mkObj (o_rv o) n) (quiet w) =
  (Ok (mkObj (st_rv (w_nodes w) + 1) (merge (o_val o) n)), quiet (storeNode name (merge (o_val o) n) w)).
Proof using Ho.
  unfold apiUpdate. rewrite call_quiet. unfold store_write. simpl. rewrite Ho, Z.eqb_refl. done.
Qed.

Lemma nodes_Update_run n :
  node_Name n = name ->
  nodes_Update (mkObj (o_rv o) n) (quiet w) =
  (Ok (mkObj (st_rv (w_nodes w) + 1) (mergeNode (o_val o) n)), quiet (storeNode name (mergeNode (o_val o) n) w)).
Proof using Ho.
  intros Hn. unfold nodes_Update. cbn [o_val]. rewrite Hn. by apply nodes_write_run.
Qed.

Lemma nodes_UpdateStatus_run now st re msg :
  let n := (SetMaintenanceModeCondition now (o_val o) st re msg).1 in
  nodes_UpdateStatus (mkObj (o_rv o) n) (quiet w) =
  (Ok (mkObj (st_rv (w_nodes w) + 1) n), quiet (storeNode name n w)).
Proof using Ho Hname.
  intros n. unfold nodes_UpdateStatus. cbn [o_val]. unfold n at 1.
  rewrite Set_Name, Hname, nodes_write_run. unfold mergeNodeStatus, n.
  by rewrite Set_status_only.
Qed.

(** The condition update of a node that is there succeeds, whatever its phase. *)
Lemma Update_run st re msg :
  exists o' w', UpdateMaintenanceModeCondition name st re msg (quiet w) = (Ok (Some o'), quiet w') /\
    st_objs (w_nodes w') !! name = Some o' /\
    o_val o' = (SetMaintenanceModeCondition (w_now w / second) (o_val o) st re msg).1 /\
    (w' = w \/ w' = storeNode name (o_val o') w).
Proof using Ho Hname.
  destruct (SetMaintenanceModeCondition (w_now w / second) (o_val o) st re msg) as [n b] eqn:En.
  destruct b.
  - exists (mkObj (st_rv (w_nodes w) + 1) n), (storeNode name n w). split_and!; [|..|by right].
    + apply retry_run. erewrite bind_run by apply nodes_Get_run.
      erewrite bind_run by done. cbn [quiet sys_world]. rewrite En. cbn [negb].
      pose proof (nodes_UpdateStatus_run (w_now w / second) st re msg) as H. cbv zeta in H.
      rewrite En in H. cbn [fst] in H. unfold fmap, M_fmap. by rewrite H.
    + simpl. by rewrite lookup_insert_eq.
    + done.
  - assert (n = o_val o) as ->.
    { unfold SetMaintenanceModeCondition in En. destruct (setMaintenanceConds _ _ _ _ _) as [cs c] eqn:E.
      injection En as <- ->. apply setMaintenanceConds_stable in E as ->. apply node_set_Conditions_id. }
    exists o, w. split_and!; [|done|done|by left]. apply retry_run.
    erewrite bind_run by apply nodes_Get_run. erewrite bind_run by done. cbn [quiet sys_world].
    rewrite En. by destruct o.
Qed.

(** The guarded transition does nothing outside its source phase. *)
Lemma Transition_run fs fr ts tr msg :
  IsMaintenanceModePhase (Some (o_val o)) fs [fr] = true ->
  let n := (SetMaintenanceModeCondition (w_now w / second) (o_val o) ts tr msg).1 in
  TransitionMaintenanceModeCondition name fs fr ts tr msg (quiet w) =
  (Ok (Some (mkObj (st_rv (w_nodes w) + 1) n)), quiet (storeNode name n w)).
Proof using Ho Hname.
  intros Hp n. apply retry_run. erewrite bind_run by apply nodes_Get_run. rewrite Hp. cbn [negb].
  erewrite bind_run by done. cbn [quiet sys_world].
  pose proof (nodes_UpdateStatus_run (w_now w / second) ts tr msg) as H. cbv zeta in H. unfold n.
  destruct (SetMaintenanceModeCondition _ _ _ _ _) as [n' b]. cbn [fst] in *.
  unfold fmap, M_fmap. by rewrite H.
Qed.

Lemma Transition_refused fs fr ts tr msg :
  IsMaintenanceModePhase (Some (o_val o)) fs [fr] = false ->
  TransitionMaintenanceModeCondition name fs fr ts tr msg (quiet w) = (Ok (Some o), quiet w).
Proof using Ho.
  intros Hp. apply retry_run. erewrite bind_run by apply nodes_Get_run. by rewrite Hp.
Qed.
End Runs.

(** ** Restarting VMs *)

Lemma restarted_key vm vm' : restarted vm = Ok vm' -> vmKey vm' = vmKey vm.
Proof.
  unfold restarted. destruct (RunStrategy _) as [s|e|]; simpl; [|done|done].
  destruct (String.eqb s RunStrategyHalted); by intros [= <-].
Qed.

Lemma restarted_merge vm vm' : restarted vm = Ok vm' -> mergeVM vm vm' = vm'.
Proof.
  unfold restarted. destruct (RunStrategy _) as [s|e|]; simpl; [|done|done].
  destruct (String.eqb s RunStrategyHalted); by intros [= <-].
Qed.

Section VMRuns.
Context (w : World) (k : string * string) (o : Obj VM).
Hypothesis Ho : st_objs (w_vms w) !! k = Some o.

Lemma vms_Get_run : vms_Get k (quiet w) = (Ok o, quiet w).
Proof using Ho.
  unfold vms_Get, apiGet, store_get. rewrite readCall_quiet. simpl. by rewrite Ho.
Qed.

Lemma vms_Update_run vm :
  vmKey vm = k ->
  vms_Update (mkObj (o_rv o) vm) (quiet w) =
  (Ok (mkObj (st_rv (w_vms w) + 1) (mergeVM (o_val o) vm)), quiet (storeVM k (mergeVM (o_val o) vm) w)).
Proof using Ho.
  intros Hk. unfold vms_Update, apiUpdate. cbn [o_val]. rewrite Hk, call_quiet.
  unfold store_write. simpl. rewrite Ho, Z.eqb_refl. done.
Qed.

Lemma restartVM_run nodeName vm' :
  vmKey (o_val o) = k -> shutDownFor nodeName (o_val o) = true -> restarted (o_val o) = Ok vm' ->
  restartVM nodeName k (quiet w) = (Ok tt, quiet (storeVM k vm' w)).
Proof using Ho.
  intros Hk Hs Hr. apply retry_run.
  erewrite bind_run by (unfold try; by rewrite vms_Get_run). cbn iota. rewrite Hs. cbn [negb].
  rewrite Hr. erewrite bind_run by done.
  erewrite bind_run by (apply vms_Update_run; rewrite <- Hk; by apply restarted_key).
  by rewrite (restarted_merge _ _ Hr).
Qed.
End VMRuns.

(** What a pass over some VMs makes of each: those shut down for the node restart. *)
Definition restartIf (sel : VM -> bool) (vm : VM) : VM :=
  if sel vm then match restarted vm with Ok vm' => vm' | _ => vm end else vm.

Definition sameButVMs (w w' : World) : Prop :=
  w_nodes w' = w_nodes w /\ w_cache w' = w_cache w /\ w_now w' = w_now w /\
  w_enqueued w' = w_enqueued w.

Lemma restartVMs_run nodeName l w :
  NoDup (map (fun o => vmKey (o_val o)) l) ->
  (forall o, o ∈ l -> st_objs (w_vms w) !! vmKey (o_val o) = Some o) ->
  (forall o, o ∈ l -> shutDownFor nodeName (o_val o) = true ->
     exists vm', restarted (o_val o) = Ok vm') ->
  exists w', restartVMs nodeName l (quiet w) = (Ok tt, quiet w') /\ sameButVMs w w' /\
    (forall k, k ∉ map (fun o => vmKey (o_val o)) l ->
       st_objs (w_vms w') !! k = st_objs (w_vms w) !! k) /\
    (forall o, o ∈ l -> o_val <$> st_objs (w_vms w') !! vmKey (o_val o) =
       Some (restartIf (shutDownFor nodeName) (o_val o))).
Proof.
  revert w. induction l as [|o l IH]; intros w Hnd Hlive Hok.
  { exists w. split_and!; [done..|]. by intros o ?%elem_of_nil. }
  simpl in Hnd. apply NoDup_cons in Hnd as [Hni Hnd]. cbn [restartVMs].
  assert (Hne : forall o', o' ∈ l -> vmKey (o_val o) <> vmKey (o_val o')).
  { intros o' Ho' E. apply Hni. rewrite E. apply list_elem_of_In, in_map_iff.
    exists o'. by rewrite <- list_elem_of_In. }
  assert (Hrest : exists w1, (if negb (shutDownFor nodeName (o_val o)) then mret tt else
      mapErr (ErrWrap ("failed to process VM " +:+ GetNamespacedName (vm_meta (o_val o))
                         +:+ " during restart")) (restartVM nodeName (vmKey (o_val o)))) (quiet w)
      = (Ok tt, quiet w1) /\ sameButVMs w w1 /\
      (forall k, k <> vmKey (o_val o) -> st_objs (w_vms w1) !! k = st_objs (w_vms w) !! k) /\
      o_val <$> st_objs (w_vms w1) !! vmKey (o_val o) =
        Some (restartIf (shutDownFor nodeName) (o_val o))).
  { unfold restartIf. pose proof (Hlive o ltac:(set_solver)) as Hl.
    destruct (shutDownFor nodeName (o_val o)) eqn:Hs; cbn [negb].
    - destruct (Hok o ltac:(set_solver) Hs) as [vm' Hr]. rewrite Hr.
      exists (storeVM (vmKey (o_val o)) vm' w). split_and!; [|done| |].
      + unfold mapErr. by rewrite (restartVM_run w _ o Hl nodeName vm').
      + intros k Hk. simpl. by rewrite lookup_insert_ne.
      + simpl. by rewrite lookup_insert_eq.
    - exists w. split_and!; [done..|]. by rewrite Hl. }
  destruct Hrest as (w1 & Hrun & Hsame & Hoth & Hthis).
  destruct (IH w1 Hnd) as (w' & Hrun' & Hsame' & Hoth' & Hl').
  { intros o' Ho'. rewrite Hoth; [apply Hlive; set_solver|]. intros E. by apply (Hne o'). }
  { intros o' Ho'. apply Hok. set_solver. }
  exists w'. split_and!.
  - destruct (shutDownFor nodeName (o_val o)); cbn [negb] in *.
    + by erewrite bind_run by exact Hrun.
    + by injection Hrun as <-.
  - destruct Hsame as (? & ? & ? & ?), Hsame' as (? & ? & ? & ?). split_and!; congruence.
  - intros k Hk. simpl in Hk. rewrite Hoth', Hoth; set_solver.
  - intros o' [->|Ho']%elem_of_cons; [|by apply Hl']. by rewrite Hoth', Hthis.
Qed.

(** ** Concrete worlds, for evaluation *)

Definition world_wfb (w : World) : bool :=
  bool_decide (map_Forall (fun name o => node_Name (o_val o) = name
                 /\ o_rv o <= st_rv (w_nodes w)) (st_objs (w_nodes w)))
  && bool_decide (map_Forall (fun k o => vmKey (o_val o) = k
                 /\ o_rv o <= st_rv (w_vms w)) (st_objs (w_vms w))).
Lemma world_wfb_ok w : world_wfb w = true -> world_wf w.
Proof.
  intros [H1%bool_decide_eq_true H2%bool_decide_eq_true]%andb_true_iff. split_and!.
  - intros name o Ho. by apply (H1 name o).
  - intros k o Ho. by apply (H2 k o).
  - intros name o Ho. by apply (H1 name o).
  - intros k o Ho. by apply (H2 k o).
Qed.

Definition demoNode (name : string) (labels annotations : list (string * string)) : Node :=
  mkNode (mkMeta name "" "" "" (Some (list_to_map labels)) (Some (list_to_map annotations)) [] 0
            None) "Node" "v1" false []
    [mkNodeCond NodeReady ConditionTrue 0 0 "KubeletReady" ""] "".

Definition demoWorld (nodes : list Node) (vms : list VM) (vmis : list VMInst) : World :=
  mkWorld (mkStore 1 (list_to_map (map (fun n => (node_Name n, mkObj 1 n)) nodes)))
    (mkStore 1 (list_to_map (map (fun v => (vmKey v, mkObj 1 v)) vms)))
    (mkCaches nodes (map (mkObj 1) vms) vmis [] []) 0 [].

(** ** Properties *)

(** The VM cache shows the VMs as they are. *)
Definition freshVMs (w : World) : Prop :=
  NoDup (map (fun o => vmKey (o_val o)) (c_vms (w_cache w))) /\
  (forall o, o ∈ c_vms (w_cache w) -> st_objs (w_vms w) !! vmKey (o_val o) = Some o) /\
  (forall k o, st_objs (w_vms w) !! k = Some o -> o ∈ c_vms (w_cache w)).

#[export] Instance VM_eq : EqDecision VM.
Proof. solve_decision. Defined.

Definition freshVMsb (w : World) : bool :=
  bool_decide (NoDup (map (fun o => vmKey (o_val o)) (c_vms (w_cache w)))) &&
  forallb (fun o => bool_decide (st_objs (w_vms w) !! vmKey (o_val o) = Some o)) (c_vms (w_cache w)) &&
  bool_decide (map_Forall (fun _ o => o ∈ c_vms (w_cache w)) (st_objs (w_vms w))).
Lemma freshVMsb_ok w : freshVMsb w = true -> freshVMs w.
Proof.
  intros [[H1%bool_decide_eq_true H2]%andb_true_iff H3%bool_decide_eq_true]%andb_true_iff.
  split_and!; [done| |done]. intros o Ho. rewrite forallb_forall in H2.
  apply (bool_decide_eq_true _), H2. by apply list_elem_of_In.
Qed.

(** [Running] and [RunStrategy] are not both set. *)
Definition hasRunStrategy (vm : VM) : Prop := exists s, RunStrategy vm = Ok s.

Definition toRestart (nodeName strategy : string) (vm : VM) : bool :=
  hasLabel LabelMaintainModeStrategy strategy (vm_Labels vm) && shutDownFor nodeName vm.

Lemma restarted_total vm : hasRunStrategy vm -> exists vm', restarted vm = Ok vm'.
Proof.
  intros [s Hs]. unfold restarted.
  assert (forall a, RunStrategy (vm_set_annotations a vm) = RunStrategy vm) as -> by done.
  rewrite Hs. simpl. destruct (String.eqb s RunStrategyHalted); eauto.
Qed.

Lemma Restart_run nodeName strategy w :
  world_wf w -> freshVMs w ->
  (forall k o, st_objs (w_vms w) !! k = Some o -> hasRunStrategy (o_val o)) ->
  exists w', RestartMaintenanceModeVMsOnNode nodeName strategy (quiet w) = (Ok tt, quiet w') /\
    sameButVMs w w' /\
    forall k, o_val <$> st_objs (w_vms w') !! k =
      restartIf (toRestart nodeName strategy) <$> (o_val <$> st_objs (w_vms w) !! k).
Proof.
  intros Hw (Hnd & Hin & Hall) Hrs. unfold RestartMaintenanceModeVMsOnNode.
  erewrite bind_run by (unfold mapErr, vmCache_List, cached; by rewrite readCall_quiet).
  set (sel := fun o : Obj VM => hasLabel LabelMaintainModeStrategy strategy (vm_Labels (o_val o))).
  set (l := List.filter sel (c_vms (w_cache w))).
  destruct (restartVMs_run nodeName l w) as (w' & Hrun & Hsame & Hoth & Hl).
  - by apply NoDup_map_filter.
  - intros o [Ho _]%filter_elem. by apply Hin.
  - intros o [Ho _]%filter_elem _. apply restarted_total. by eapply Hrs, Hin.
  - exists w'. split_and!; [done..|]. intros k.
    destruct (st_objs (w_vms w) !! k) as [o|] eqn:Ho; cycle 1.
    { rewrite Hoth; [by rewrite Ho|]. rewrite list_elem_of_In, in_map_iff.
      intros (o & <- & [Hc _]%list_elem_of_In%filter_elem). by rewrite Hin in Ho. }
    assert (vmKey (o_val o) = k) as <- by by apply Hw.
    unfold restartIf, toRestart. simpl. destruct (hasLabel _ _ (vm_Labels (o_val o))) eqn:Hs; simpl.
    + rewrite Hl; [done|]. apply filter_elem. eauto.
    + rewrite Hoth; [by rewrite Ho|]. rewrite list_elem_of_In, in_map_iff.
      intros (o' & Hk & [Hc Hs']%list_elem_of_In%filter_elem).
      apply Hin in Hc. rewrite Hk, Ho in Hc. injection Hc as <-. unfold sel in Hs'. congruence.
Qed.

(** Restarting the VMs of a strategy touches exactly the VMs with that strategy that were
    shut down for the node: each loses its tracking annotation and, if halted, gets its
    recorded run strategy (RerunOnFailure without a record); every other VM, every node and
    the rest of the world stay as they were. *)
Theorem RestartMaintenanceModeVMsOnNode_exact nodeName strategy w :
  world_wf w -> freshVMs w ->
  (forall k o, st_objs (w_vms w) !! k = Some o -> hasRunStrategy (o_val o)) ->
  exists w', RestartMaintenanceModeVMsOnNode nodeName strategy (quiet w) = (Ok tt, quiet w') /\
    sameButVMs w w' /\
    forall k vm, o_val <$> st_objs (w_vms w) !! k = Some vm ->
      o_val <$> st_objs (w_vms w') !! k =
      Some (if toRestart nodeName strategy vm then
              let vm' := vm_set_annotations
                (gm_delete (vm_Annotations vm) AnnotationMaintainModeStrategyNodeName) vm in
              if bool_decide (RunStrategy vm = Ok RunStrategyHalted) then
                let rs := gm_str (vm_Annotations vm) AnnotationRunStrategy in
                vm_set_RunStrategy (Some (if String.eqb rs "" then RunStrategyRerunOnFailure else rs)) vm'
              else vm'
            else vm).
Proof.
  intros Hw Hf Hrs. destruct (Restart_run nodeName strategy w Hw Hf Hrs) as (w' & Hr & Hs & Hvm).
  exists w'. split_and!; [done..|]. intros k vm Hk. rewrite Hvm, Hk. simpl. f_equal.
  unfold restartIf. destruct (toRestart nodeName strategy vm); [|done].
  assert (hasRunStrategy vm) as [s Hst].
  { destruct (st_objs (w_vms w) !! k) as [o|] eqn:E; [|done]. injection Hk as <-. eauto. }
  unfold restarted.
  assert (forall a, RunStrategy (vm_set_annotations a vm) = RunStrategy vm) as -> by done.
  rewrite Hst. unfold mbind, outcome_bind. cbv zeta.
  assert (gm_str (vm_Annotations (vm_set_annotations (gm_delete (vm_Annotations vm)
    AnnotationMaintainModeStrategyNodeName) vm)) AnnotationRunStrategy
    = gm_str (vm_Annotations vm) AnnotationRunStrategy) as ->.
  { unfold gm_str, vm_Annotations. simpl. by rewrite gm_get_delete_ne. }
  destruct (String.eqb_spec s RunStrategyHalted) as [->|Hne].
  - by rewrite bool_decide_eq_true_2.
  - rewrite bool_decide_eq_false_2 by congruence. done.
Qed.

(** A VM halted for node a, and one that only carries the strategy. *)
Definition demoVM (name strategy : string) (ann : list (string * string)) (rs : string) : VM :=
  mkVM (mkMeta name "" "default" "" (Some {[LabelMaintainModeStrategy := strategy]})
          (Some (list_to_map ann)) [] 0 None) "" None (Some rs) None.

Definition twoVMs : World :=
  demoWorld [] [demoVM "v1" MaintainModeStrategyShutdownAndRestartAfterEnable
                  [(AnnotationMaintainModeStrategyNodeName, "a"); (AnnotationRunStrategy, "Always")]
                  RunStrategyHalted;
                demoVM "v2" MaintainModeStrategyShutdownAndRestartAfterEnable
                  [(AnnotationMaintainModeStrategyNodeName, "b")] RunStrategyHalted] [].

Lemma demo_hasRunStrategy w :
  forallb (fun ko => match RunStrategy (o_val ko.2) with Ok _ => true | _ => false end)
    (map_to_list (st_objs (w_vms w))) = true ->
  forall k o, st_objs (w_vms w) !! k = Some o -> hasRunStrategy (o_val o).
Proof.
  intros H k o Ho. rewrite forallb_forall in H.
  specialize (H (k, o) ltac:(by apply list_elem_of_In, elem_of_map_to_list)). simpl in H.
  unfold hasRunStrategy. destruct (RunStrategy (o_val o)); [eauto|done|done].
Qed.

Lemma RestartMaintenanceModeVMsOnNode_exact_witness :
  exists w', RestartMaintenanceModeVMsOnNode "a" MaintainModeStrategyShutdownAndRestartAfterEnable
               (quiet twoVMs) = (Ok tt, quiet w') /\
    vm_RunStrategy <$> (o_val <$> st_objs (w_vms w') !! ("default", "v1")) = Some (Some "Always") /\
    o_val <$> st_objs (w_vms w') !! ("default", "v2") =
      Some (demoVM "v2" MaintainModeStrategyShutdownAndRestartAfterEnable
             [(AnnotationMaintainModeStrategyNodeName, "b")] RunStrategyHalted).
Proof.
  destruct (RestartMaintenanceModeVMsOnNode_exact "a"
    MaintainModeStrategyShutdownAndRestartAfterEnable twoVMs) as (w' & Hr & _ & Hvm).
  - apply world_wfb_ok. by vm_compute.
  - apply freshVMsb_ok. by vm_compute.
  - apply demo_hasRunStrategy. by vm_compute.
  - exists w'. split_and!; [done| |].
    + by rewrite (Hvm ("default", "v1") (demoVM "v1" MaintainModeStrategyShutdownAndRestartAfterEnable
        [(AnnotationMaintainModeStrategyNodeName, "a"); (AnnotationRunStrategy, "Always")]
        RunStrategyHalted)) by by vm_compute.
    + by rewrite (Hvm ("default", "v2") (demoVM "v2" MaintainModeStrategyShutdownAndRestartAfterEnable
        [(AnnotationMaintainModeStrategyNodeName, "b")] RunStrategyHalted)) by by vm_compute.
Defined.

(** A heartbeat: the node is written again, with its conditions' content. *)
Definition touch (name : string) (w : World) : World :=
  match st_objs (w_nodes w) !! name with
  | Some o => storeNode name (o_val o) w
  | None => w
  end.

Lemma evolves_touch L name w : evolves L w (touch name w).
Proof.
  apply evolves_guarded. intros Hw. unfold touch.
  destruct (st_objs (w_nodes w) !! name) as [o|] eqn:Ho; [|reflexivity].
  apply evolves_storeNode; [by apply Hw|]. unfold phaseAt. rewrite Ho. constructor.
Qed.

(** C20: A guarded transition takes effect at one point or not at all.  Whatever the other
    clients do meanwhile (any relation [E] that keeps names and versions in order), the
    world it leaves is theirs but for at most one status write; that write starts from a
    node in the source phase and sets its maintenance condition and nothing else; and an
    error means that nothing was written. *)
Theorem TransitionMaintenanceModeCondition_once (E : World -> World -> Prop) `{!PreOrder E}
    name fs fr ts tr msg s :
  (forall w w', E w w' -> keeps w w') -> relies E (sys_turns s) -> world_wf (sys_world s) ->
  let '(r, s') := TransitionMaintenanceModeCondition name fs fr ts tr msg s in
  match r with
  | Ok _ =>
      exists w1, E (sys_world s) w1 /\
        (w1 = sys_world s' \/
         exists o now, st_objs (w_nodes w1) !! name = Some o /\
           IsMaintenanceModePhase (Some (o_val o)) fs [fr] = true /\
           E (storeNode name (SetMaintenanceModeCondition now (o_val o) ts tr msg).1 w1)
             (sys_world s'))
  | _ => E (sys_world s) (sys_world s')
  end.
Proof.
  intros HE Hs Hw. destruct (Transition_commits E HE name fs fr ts tr msg s Hs) as [_ Ho].
  destruct (Ho Hw) as [_ Ho'].
  destruct (TransitionMaintenanceModeCondition name fs fr ts tr msg s) as [[r|e|] s']; [|done..].
  cbn [fst snd] in Ho'. destruct Ho' as (w1 & HE1 & [<-|(w2 & (HC & o & Ho1 & Hp) & HE2)]); [by eauto|].
  destruct HC as (o' & now & Ho2 & ->). rewrite Ho1 in Ho2. injection Ho2 as <-.
  exists w1. split; [done|]. right. eauto.
Qed.

(** A draining node, and a heartbeat between the read and the write of the first attempt. *)
Definition drainingWorld : World :=
  demoWorld [(SetMaintenanceModeCondition 0 (demoNode "a" [] []) ConditionTrue
                NodeConditionReasonDraining MaintenanceModeMessageDraining).1] [] [].
Definition oneConflict : Sys World :=
  mkSys drainingWorld [mkTurn id None; mkTurn (touch "a") None].

Lemma TransitionMaintenanceModeCondition_once_witness :
  let '(r, s') := TransitionMaintenanceModeCondition "a" ConditionTrue NodeConditionReasonDraining
                    ConditionTrue NodeConditionReasonEvacuating "done" oneConflict in
  match r with
  | Ok _ => phaseAt (sys_world s') "a" = PEvacuating /\ keeps drainingWorld (sys_world s')
  | _ => False
  end.
Proof.
  pose proof (TransitionMaintenanceModeCondition_once keeps "a" ConditionTrue
    NodeConditionReasonDraining ConditionTrue NodeConditionReasonEvacuating "done" oneConflict)
    as H.
  assert (Hr : relies keeps (sys_turns oneConflict)).
  { apply Forall_cons. split; [intros w; simpl; reflexivity|].
    apply Forall_cons. split; [intros w; apply evolves_touch|constructor]. }
  specialize (H ltac:(done) Hr ltac:(apply world_wfb_ok; by vm_compute)).
  destruct (TransitionMaintenanceModeCondition _ _ _ _ _ _ oneConflict) as [r s'] eqn:E.
  assert (r = (TransitionMaintenanceModeCondition "a" ConditionTrue NodeConditionReasonDraining
                    ConditionTrue NodeConditionReasonEvacuating "done" oneConflict).1) as Er
    by by rewrite E.
  assert (s' = (TransitionMaintenanceModeCondition "a" ConditionTrue NodeConditionReasonDraining
                    ConditionTrue NodeConditionReasonEvacuating "done" oneConflict).2) as Es
    by by rewrite E.
  destruct r as [r|e|]; [|by vm_compute in Er..].
  split; [rewrite Es; by vm_compute|].
  destruct H as (w1 & H1 & [<-|(o & now & Ho & Hp & H2)]); [done|].
  etransitivity; [exact H1|]. etransitivity; [|exact H2].
  apply evolves_guarded. intros Hw. eapply writesCondition_evolves; [done|by do 2 eexists|].
  by apply rtc_once.
Defined.

Section MaintainProps.
Context {LL : LabelLib}.

(** The VM instances the cache has on a node. *)
Definition vmisOn (w : World) (name : string) : list VMInst :=
  List.filter (fun v => hasLabel LabelNodeNameKey name (om_Labels (vi_meta v)))
    (c_vmis (w_cache w)).

Lemma ListByNode_run n w :
  validLabelValue (node_Name n) = true ->
  ListByNode n everything (quiet w) = (Ok (vmisOn w (node_Name n)), quiet w).
Proof.
  intros Hv. unfold ListByNode. rewrite Hv. cbn [negb]. unfold mapErr, cached.
  by rewrite readCall_quiet.
Qed.

Section Evacuating.
Context (w : World) (name : string) (o : Obj Node).
Hypothesis Hw : world_wf w.
Hypothesis Hf : freshVMs w.
Hypothesis Hrs : forall k o, st_objs (w_vms w) !! k = Some o -> hasRunStrategy (o_val o).
Hypothesis Hv : validLabelValue name = true.
Hypothesis Ho : st_objs (w_nodes w) !! name = Some o.
Hypothesis Hd : deleting (o_val o) = false.
Hypothesis Hp : phaseOf (o_val o) = PEvacuating.

Lemma OnNodeChanged_lists :
  OnNodeChanged (Some o) (quiet w) =
  match vmisOn w name with
  | _ :: _ => enqueueAfter name requeueDelay;; mret (Some o)
  | [] =>
      RestartMaintenanceModeVMsOnNode name MaintainModeStrategyShutdownAndRestartAfterEnable;;
      TransitionMaintenanceModeCondition name ConditionTrue NodeConditionReasonEvacuating
        ConditionTrue NodeConditionReasonCompleted MaintenanceModeMessageCompleted
  end (quiet w).
Proof using Hw Hf Hrs Hv Ho Hd Hp.
  assert (node_Name (o_val o) = name) as Hn by by apply Hw.
  pose proof (phase_IsMaintenanceModePhase (o_val o) PEvacuating NodeConditionReasonEvacuating
    ltac:(set_solver) Hp) as He. unfold IsMaintenanceModePhase in He.
  unfold OnNodeChanged. rewrite Hd. cbv zeta. rewrite He. cbn [negb].
  rewrite <- Hn in Hv. by rewrite (bind_run _ _ _ _ _ (ListByNode_run _ _ Hv)), Hn.
Qed.

Lemma OnNodeChanged_run :
  vmisOn w name = [] ->
  exists r w', OnNodeChanged (Some o) (quiet w) = (Ok r, quiet w') /\
    phaseAt w' name = PCompleted /\ (forall n, n <> name -> phaseAt w' n = phaseAt w n) /\
    w_enqueued w' = w_enqueued w /\
    forall k, o_val <$> st_objs (w_vms w') !! k =
      restartIf (toRestart name MaintainModeStrategyShutdownAndRestartAfterEnable)
        <$> (o_val <$> st_objs (w_vms w) !! k).
Proof using Hw Hf Hrs Hv Ho Hd Hp.
  intros Hl. assert (node_Name (o_val o) = name) as Hn by by apply Hw.
  rewrite OnNodeChanged_lists, Hl.
  destruct (Restart_run name MaintainModeStrategyShutdownAndRestartAfterEnable w)
    as (w1 & Hr & (Hsn & _ & Hnow & Hq) & Hvm); [done..|].
  rewrite (bind_run _ _ _ _ _ Hr).
  rewrite (Transition_run w1 name o); [|by rewrite Hsn|done|].
  2: { eapply phase_IsMaintenanceModePhase; [|exact Hp]. set_solver. }
  eexists _, _. split_and!; [reflexivity|..|done|done].
  - rewrite phaseAt_storeNode, phaseOf_Set. by case_decide.
  - intros n Hne. rewrite phaseAt_storeNode. case_decide; [done|]. unfold phaseAt. by rewrite Hsn.
Qed.
End Evacuating.

(** The controller on an evacuating node.  While the node has VM instances, it only asks
    to be called again ten seconds later; without, it restarts the VMs that were waiting
    for the node to be in maintenance, then moves the node, and no other, to Completed. *)
Theorem OnNodeChanged_maintain_exact w name o :
  world_wf w -> freshVMs w ->
  (forall k o, st_objs (w_vms w) !! k = Some o -> hasRunStrategy (o_val o)) ->
  validLabelValue name = true ->
  st_objs (w_nodes w) !! name = Some o -> deleting (o_val o) = false ->
  phaseOf (o_val o) = PEvacuating ->
  (vmisOn w name <> [] ->
   OnNodeChanged (Some o) (quiet w) =
   (Ok (Some o), quiet (mkWorld (w_nodes w) (w_vms w) (w_cache w) (w_now w)
                          (w_enqueued w ++ [(name, 10 * second)])))) /\
  (vmisOn w name = [] ->
   exists r w', OnNodeChanged (Some o) (quiet w) = (Ok r, quiet w') /\
     phaseAt w' name = PCompleted /\ (forall n, n <> name -> phaseAt w' n = phaseAt w n) /\
     w_enqueued w' = w_enqueued w /\
     forall k, o_val <$> st_objs (w_vms w') !! k =
       restartIf (toRestart name MaintainModeStrategyShutdownAndRestartAfterEnable)
         <$> (o_val <$> st_objs (w_vms w) !! k)).
Proof.
  intros Hw Hf Hrs Hv Ho Hd Hp. split; [|by apply OnNodeChanged_run].
  intros Hne. rewrite (OnNodeChanged_lists w name o) by done.
  destruct (vmisOn w name); [done|]. by erewrite bind_run by done.
Qed.
End MaintainProps.

(** An evacuating node and the two halted VMs above. *)
Definition evacuatingNode : Node :=
  (SetMaintenanceModeCondition 0 (demoNode "a" [] []) ConditionTrue
     NodeConditionReasonEvacuating MaintenanceModeMessageEvacuating).1.
Definition evacuatingWorld (vmis : list VMInst) : World :=
  demoWorld [evacuatingNode] (map o_val (c_vms (w_cache twoVMs))) vmis.

Lemma OnNodeChanged_maintain_exact_witness :
  let LL := {| validLabelValue s := Nat.leb (String.length s) 63 |} in
  let busy := evacuatingWorld [mkVMInst (mkMeta "v9" "" "default" ""
                (Some {[LabelNodeNameKey := "a"]}) None [] 0 None) None None []] in
  w_enqueued (sys_world (OnNodeChanged (Some (mkObj 1 evacuatingNode)) (quiet busy)).2)
    = [("a", 10 * second)] /\
  exists r w', OnNodeChanged (Some (mkObj 1 evacuatingNode)) (quiet (evacuatingWorld []))
                 = (Ok r, quiet w') /\ phaseAt w' "a" = PCompleted.
Proof.
  intros LL busy.
  assert (Hex : forall w, world_wfb w = true -> freshVMsb w = true ->
    forallb (fun ko => match RunStrategy (o_val ko.2) with Ok _ => true | _ => false end)
      (map_to_list (st_objs (w_vms w))) = true ->
    st_objs (w_nodes w) !! "a" = Some (mkObj 1 evacuatingNode) -> _)
    by exact (fun w H1 H2 H3 H4 => OnNodeChanged_maintain_exact w "a" (mkObj 1 evacuatingNode)
      (world_wfb_ok w H1) (freshVMsb_ok w H2) (demo_hasRunStrategy w H3) eq_refl H4 eq_refl
      ltac:(by vm_compute)).
  split.
  - destruct (Hex busy) as [H _]; [by vm_compute..|]. by rewrite H by by vm_compute.
  - destruct (Hex (evacuatingWorld [])) as [_ H]; [by vm_compute..|].
    destruct H as (r & w' & Hr & Hp & _); [by vm_compute|]. eauto.
Defined.
