(* ===== verification/NodeDrain.v ===== *)
(** The drain controller, [pkg/controller/master/nodedrain/nodedrain_controller.go], and the
    drain checks of [pkg/util/drainhelper/helper.go]: a requested node is validated, the VMs
    that cannot move are stopped, the node is drained, and each stage is recorded in the
    maintenance condition.

    [drainNode] (kubectl's drain) is a parameter: a computation that acts on the world and
    ends in an outcome.  Contexts reduce to the question whether the deadline has fired. *)

From Stdlib Require Import Ascii.
From S2P Require Import Prelude K8s NodeUtil ResourceQuota ApiServer Maintenance.

Local Open Scope Z_scope.

(** ** Constants *)

Definition defaultWorkloadType : string := "VirtualMachineInstance".
Definition NodeSchedulingRequirementsNotMetKey : string := "NodeSchedulingRequirementsNotMet".
Definition MaintainModeStrategyKey : string := "MaintainModeStrategy".
Definition LastHealthyReplicaKey : string := "LastHealthyReplica".
Definition VirtualMachineInstanceIsMigratable : string := "LiveMigratable".
Definition defaultSingleCPCount : nat := 1.
Definition defaultHACPCount : nat := 3.

(** ** What the controller does not see the inside of *)

(** [nodeaffinity.NewNodeSelector] and the matcher it returns. *)
Class NodeAffinity := {
  NewNodeSelector : list (list SelectorRequirement) -> outcome (Node -> bool) }.

(** The setting, kubectl's drain, and whether the drain's context has met its
    deadline once the drain is over. *)
Record DrainEnv := mkDrainEnv {
  de_timeoutMinutes : Z;
  de_drainNode : Node -> Z -> M (Sys World) unit;
  de_deadlineExceeded : bool }.

(** ** [drainhelper.DrainPossible] *)

Definition ErrNodeDrainNotPossible : string := "draining of this node is not possible".
Definition errSingleControlPlaneNode : goerror :=
  ErrText (ErrNodeDrainNotPossible +:+
    ": single controlplane cluster, cannot place controlplane in maintenance mode").
Definition errHAControlPlaneNode : goerror :=
  ErrText (ErrNodeDrainNotPossible +:+
    ": another controlplane is already in maintenance mode, cannot place current node in maintenance mode").

(** [errors.Is(err, ErrNodeDrainNotPossible)]: the two errors that wrap it. *)
Definition isDrainNotPossible (e : goerror) : bool :=
  bool_decide (e = errSingleControlPlaneNode \/ e = errHAControlPlaneNode).

Definition nodeCache_List (key : string) : Act (list Node) :=
  cached (fun c => Ok (List.filter (fun n => gm_has (node_Labels n) key) (c_nodes c))).

Definition byName (nodes : list Node) (m : gmap string Node) : gmap string Node :=
  foldl (fun m n => <[node_Name n := n]> m) m nodes.

(** The other nodes of the map that are not in maintenance. *)
Definition availableNodes (node : Node) (nodeMap : gmap string Node) : list Node :=
  List.filter (fun n => negb (String.eqb (node_Name n) (node_Name node))
                        && negb (IsMaintenanceModeEngaged (Some n)))
    (map snd (map_to_list nodeMap)).

Definition listErr (key : string) (e : goerror) : goerror :=
  ErrText ("error listing nodes matching selector " +:+ key +:+ ": " +:+ error_Error e).

Definition DrainPossible (node : Node) : Act unit :=
  let cpLabelOK := gm_has (node_Labels node) KubeControlPlaneNodeLabelKey in
  let etcdLabelOK := gm_has (node_Labels node) KubeEtcdNodeLabelKey in
  if negb cpLabelOK && negb etcdLabelOK then mret tt
  else
    cpNodeList ← mapErr (listErr KubeControlPlaneNodeLabelKey)
                        (nodeCache_List KubeControlPlaneNodeLabelKey);
    etcdNodeList ← mapErr (listErr KubeEtcdNodeLabelKey) (nodeCache_List KubeEtcdNodeLabelKey);
    let nodeMap := byName etcdNodeList (byName cpNodeList ∅) in
    if Nat.eqb (size nodeMap) defaultSingleCPCount then throw errSingleControlPlaneNode
    else if negb (Nat.eqb (length (availableNodes node nodeMap)) (defaultHACPCount - 1))
    then throw errHAControlPlaneNode
    else mret tt.

(** The pod filter of the drain: pods of VMs with a shutdown strategy are skipped. *)
Inductive PodDeleteStatus := PodDeleteOkay | PodDeleteSkip.
Definition maintainModeStrategyFilter (podLabels : gomap string) : PodDeleteStatus :=
  if gm_has podLabels LabelVMName then
    match gm_get podLabels LabelMaintainModeStrategy with
    | Some value => if str_in value MaintainModeStrategyShutdownValues
                    then PodDeleteSkip else PodDeleteOkay
    | None => PodDeleteOkay
    end
  else PodDeleteOkay.

(** ** Names *)

Definition slashed (ns name : string) : string := ns +:+ String "/"%char name.
Definition vi_Namespace (v : VMInst) : string := om_Namespace (vi_meta v).
Definition vi_Name (v : VMInst) : string := om_Name (vi_meta v).
Definition vi_Labels (v : VMInst) : gomap string := om_Labels (vi_meta v).

Definition namespacedVMName (vmi : VMInst) : string := slashed (vi_Namespace vmi) (vi_Name vmi).

(** The first two fields; one field makes the index panic. *)
Definition splitNamespacedName (namespacedName : string) : outcome (string * string) :=
  match Split "/"%char namespacedName with
  | ns :: name :: _ => Ok (ns, name)
  | _ => Panic
  end.

(** The VM that owns an instance. *)
Definition findVM (vmi : VMInst) : outcome string :=
  match List.find (fun owner => String.eqb (or_Kind owner) "VirtualMachine"
                                && String.eqb (or_APIVersion owner) "kubevirt.io/v1")
          (om_OwnerReferences (vi_meta vmi)) with
  | Some owner => Ok (or_Name owner)
  | None => Err (ErrText ("no valid VM owner found for VMI " +:+ vi_Name vmi))
  end.

(** ** VMs that cannot migrate *)

Record internalVolumeDetails := mkDetails {
  vd_healthy : nat; vd_unhealthy : nat; vd_replicas : list Replica }.

Definition addReplica (m : gmap string internalVolumeDetails) (r : Replica)
  : gmap string internalVolumeDetails :=
  let v := default (mkDetails 0 0 []) (m !! r_VolumeName r) in
  <[r_VolumeName r :=
      mkDetails (if r_Started r then S (vd_healthy v) else vd_healthy v)
                (if r_Started r then vd_unhealthy v else S (vd_unhealthy v))
                (vd_replicas v ++ [r])]> m.

Definition volumeMap (replicaList : list Replica) : gmap string internalVolumeDetails :=
  foldl addReplica ∅ replicaList.

Section Find.
Context {LL : LabelLib} {MO : MapOrder} {NA : NodeAffinity}.

(** A name per started replica on the node, of the volumes with at most one
    started replica. *)
Definition possibleVolumeNames (node : Node) (m : gmap string internalVolumeDetails)
  : list string :=
  concat (map (fun '(pvcName, replicaState) =>
    if Nat.leb (vd_healthy replicaState) 1 then
      map (fun _ => pvcName)
        (List.filter (fun r => r_Started r && String.eqb (r_NodeID r) (node_Name node))
           (vd_replicas replicaState))
    else []) (range m)).

Definition volumeCache_Get (name : string) : Act LHVolume :=
  cached (fun c => match List.find (fun v => String.eqb (lv_Name v) name) (c_volumes c) with
                   | Some v => Ok v
                   | None => Err (ApiNotFound "not found")
                   end).
Definition vmiCache_Get (ns name : string) : Act VMInst :=
  cached (fun c => match List.find (fun v => String.eqb (vi_Namespace v) ns
                                             && String.eqb (vi_Name v) name) (c_vmis c) with
                   | Some v => Ok v
                   | None => Err (ApiNotFound "not found")
                   end).

Definition listVolumeNames (node : Node) : Act (list LHVolume) :=
  replicaList ← cached (fun c => Ok (c_replicas c));
  mapM volumeCache_Get (possibleVolumeNames node (volumeMap replicaList)).

(** The workloads of a volume that are VM instances. *)
Definition instanceNames (v : LHVolume) : list string :=
  map snd (List.filter (fun w => String.eqb w.1 defaultWorkloadType) (lv_Workloads v)).

Definition textErr (what : string) (e : goerror) : goerror :=
  ErrText (what +:+ ": " +:+ error_Error e).

Definition listVMI (node : Node) : Act (list VMInst) :=
  volList ← mapErr (textErr "error in listVolumeNames") (listVolumeNames node);
  vmis ← mapM (fun v => mapM (vmiCache_Get (lv_Namespace v)) (instanceNames v)) volList;
  mret (concat vmis).

(** [IdentifyNonMigratableVMS]: by the reason of each false migratable condition. *)
Definition notMigratable (c : Condition) : bool :=
  String.eqb (c_Type c) VirtualMachineInstanceIsMigratable
  && String.eqb (c_Status c) ConditionFalse.

Definition IdentifyNonMigratableVMS (vmiList : list VMInst) : gmap string (list string) :=
  foldl (fun m vmi =>
    foldl (fun m c =>
      if notMigratable c
      then <[c_Reason c := default [] (m !! c_Reason c) ++ [namespacedVMName vmi]]> m
      else m) m (vi_Conditions vmi)) ∅ vmiList.

Definition isNodeReady (node : Node) : bool :=
  if node_Unschedulable node || IsMaintenanceModeEngaged (Some node) then false
  else existsb (fun c => String.eqb (nc_Type c) NodeReady
                         && String.eqb (nc_Status c) ConditionTrue) (node_Conditions node).

(** [labels.SelectorFromSet(sel).Matches(labels)] *)
Definition matchesSet (sel : gmap string string) (labels : gomap string) : bool :=
  bool_decide (map_Forall (fun k v => gm_get labels k = Some v) sel).

Definition filterNodesForNodeSelector (possibleNodes : list Node) (vmi : VMInst) : list Node :=
  match vi_NodeSelector vmi with
  | Some sel => if Nat.ltb 0 (size sel)
                then List.filter (fun n => matchesSet sel (node_Labels n)) possibleNodes
                else possibleNodes
  | None => possibleNodes
  end.

(** The nodes an instance could go to. *)
Definition matchingNodes (validNodes : list Node) (vmi : VMInst) : outcome (list Node) :=
  possibleNodes ← match vi_NodeAffinity vmi with
                  | Some sel =>
                      match NewNodeSelector sel with
                      | Ok nodeMatch => Ok (List.filter nodeMatch validNodes)
                      | Err e => Err (textErr "error generating nodeAffinitySelector from node scheduling requirements" e)
                      | Panic => Panic
                      end
                  | None => Ok validNodes
                  end;
  Ok (filterNodesForNodeSelector possibleNodes vmi).

Fixpoint unschedulable (validNodes : list Node) (vmiList : list VMInst) : outcome (list string) :=
  match vmiList with
  | [] => Ok []
  | vmi :: vmis =>
      ns ← matchingNodes validNodes vmi;
      rest ← unschedulable validNodes vmis;
      Ok (match ns with [] => namespacedVMName vmi :: rest | _ => rest end)
  end.

Definition CheckVMISchedulingRequirements (originalNode : Node) (vmiList : list VMInst)
  : Act (list string) :=
  nodeList ← mapErr (textErr "error listing nodes from nodeCache")
                    (cached (fun c => Ok (c_nodes c)));
  let validNodes := List.filter (fun v => negb (String.eqb (node_Name v) (node_Name originalNode))
                                          && isNodeReady v) nodeList in
  lift (unschedulable validNodes vmiList).

Definition FindNonMigratableVMS (node : Node) : Act (gmap string (list string)) :=
  shutdownVMs ← mapErr (textErr "error listing VMI") (listVMI node);
  impacted ← lift (mapM (fun v => vmName ← findVM v; Ok (slashed (vi_Namespace v) vmName))
                        shutdownVMs);
  let result : gmap string (list string) :=
    match impacted with [] => ∅ | _ => {[LastHealthyReplicaKey := impacted]} end in
  vmiList ← mapErr (textErr "error listing VMI")
    (cached (fun c => Ok (List.filter (fun v =>
       hasLabel LabelNodeNameKey (node_Name node) (vi_Labels v)) (c_vmis c))));
  let result := IdentifyNonMigratableVMS vmiList ∪ result in
  unschedulableVMs ← mapErr (textErr "error while checking vmi scheduling requirements")
                            (CheckVMISchedulingRequirements node vmiList);
  mret (match unschedulableVMs with
        | [] => result
        | _ => <[NodeSchedulingRequirementsNotMetKey := unschedulableVMs]> result
        end).

Definition nonMigratableVMsMessage (nonMigratableVMs : gmap string (list string)) : string :=
  let reasons := map (fun condition =>
    Join "," (default [] (nonMigratableVMs !! condition)) +:+ " cannot be migrated due to "
      +:+ condition) (sortStrings (map fst (range nonMigratableVMs))) in
  "enabling maintenance mode is impossible. Non-migratable VMs found: " +:+ Join "; " reasons
  +:+ ". Use 'force drain' to perform a collective shutdown".

Definition getUniqueVMSfromConditionMap (vms : gmap string (list string)) : list string :=
  compact (sortStrings (concat (map snd (range vms)))).

(** ** The controller *)

Definition stringInShutdown (labels : gomap string) : bool :=
  match gm_get labels LabelMaintainModeStrategy with
  | Some v => str_in v MaintainModeStrategyShutdownValues
  | None => false
  end.

Definition listVMILabelMaintainModeStrategy (node : Node) : Act (list VMInst) :=
  ListByNode node stringInShutdown.

Definition clearDrainRequest (node : option (Obj Node)) : Act (option (Obj Node)) :=
  match node with
  | None => mret None
  | Some o =>
      match ClearDrainRequest (Some (o_val o)) with
      | (Some n, true) => Some <$> mapErr (ErrWrap "failed to clean up drain request")
                                          (nodes_Update (mkObj (o_rv o) n))
      | _ => mret (Some o)
      end
  end.

Definition failPreCheck (node : Obj Node) (message : string) : Act (option (Obj Node)) :=
  updated ← UpdateMaintenanceModeCondition (node_Name (o_val node)) ConditionFalse
              NodeConditionReasonError message;
  clearDrainRequest updated.

Definition validate (node : Obj Node) : Act (option (Obj Node)) :=
  let n := o_val node in
  let forced := IsForcedDrainRequested (Some n) in
  r ← try (DrainPossible n);
  match r with
  | inr e =>
      if isDrainNotPossible e
      then failPreCheck node ("enabling maintenance mode is impossible: " +:+ error_Error e)
      else throw e
  | inl _ =>
      nonMigratableVMs ← mapErr (ErrWrap "error getting non-migratable VMs")
                                (FindNonMigratableVMS n);
      if negb forced && Nat.ltb 0 (size nonMigratableVMs)
      then failPreCheck node (nonMigratableVMsMessage nonMigratableVMs)
      else UpdateMaintenanceModeCondition (node_Name n) ConditionTrue
             NodeConditionReasonDraining MaintenanceModeMessageDraining
  end.

Definition optNode (o : option (Obj Node)) : option Node := o_val <$> o.

Definition failDrainTimeout (node : Obj Node) (timeoutMinutes : Z) (drainErr : string)
  : Act (option (Obj Node)) :=
  let name := node_Name (o_val node) in
  let message := "Maintenance mode timed out while draining node " +:+ name +:+ " after "
    +:+ pretty timeoutMinutes +:+ " minutes: " +:+ drainErr
    +:+ ". The node remains cordoned and drain-related taints are unchanged. Disable maintenance mode before starting a new attempt." in
  updated ← TransitionMaintenanceModeCondition name
              ConditionTrue NodeConditionReasonDraining
              ConditionTrue NodeConditionReasonError message;
  if negb (IsMaintenanceModeError (GetMaintenanceModeCondition (optNode updated)))
  then mret updated
  else clearDrainRequest updated.

(** The pass over the instances with a shutdown strategy: their VMs' names, and the
    tracking annotation on the VMs that are to be restarted. *)
Definition restartStrategies : list string :=
  [MaintainModeStrategyShutdownAndRestartAfterEnable;
   MaintainModeStrategyShutdownAndRestartAfterDisable].

Definition annotateVM (node : Node) (ns vmName : string) : Act unit :=
  r ← try (vmCache_Get (ns, vmName));
  match r with
  | inr e => if IsNotFound e then mret tt
             else throw (ErrWrap ("error looking up VM " +:+ slashed ns vmName) e)
  | inl vm =>
      if negb (shutDownFor (node_Name node) (o_val vm)) then
        vms_Update (mkObj (o_rv vm) (vm_set_annotations
          (gm_set (vm_Annotations (o_val vm)) AnnotationMaintainModeStrategyNodeName
                  (node_Name node)) (o_val vm)));;
        mret tt
      else mret tt
  end.

Fixpoint annotateVMs (node : Node) (vmis : list VMInst) : Act (list string) :=
  match vmis with
  | [] => mret []
  | vmi :: vmis =>
      vmName ← lift (findVM vmi);
      (if str_in (gm_str (vi_Labels vmi) LabelMaintainModeStrategy) restartStrategies
       then annotateVM node (vi_Namespace vmi) vmName
       else mret tt);;
      names ← annotateVMs node vmis;
      mret (slashed (vi_Namespace vmi) vmName :: names)
  end.

Definition findAndStopVM (vmiName : string) : Act unit :=
  '(ns, name) ← lift (splitNamespacedName vmiName);
  vmObj ← mapErr (textErr "error fetching vm during findAndStopVM") (vmCache_Get (ns, name));
  runStrategy ← lift (RunStrategy (o_val vmObj));
  if String.eqb runStrategy RunStrategyHalted then mret tt
  else
    mapErr (textErr ("error updating run strategy for vm " +:+ om_Name (vm_meta (o_val vmObj))
                     +:+ " in namespace " +:+ om_Namespace (vm_meta (o_val vmObj))))
      (vms_Update (mkObj (o_rv vmObj) (vm_set_RunStrategy (Some RunStrategyHalted) (o_val vmObj))));;
    mret tt.

Fixpoint stopVMs (names : list string) : Act unit :=
  match names with
  | [] => mret tt
  | v :: vs =>
      r ← try (findAndStopVM v);
      match r with
      | inr e => if IsNotFound e then stopVMs vs else throw e
      | inl _ => lift (splitNamespacedName v);; stopVMs vs
      end
  end.

Definition contextDeadlineExceeded : string := "context deadline exceeded".

Section Controller.
Context (D : DrainEnv).

(** [condition.LastTransitionTime.Add(time.Duration(timeoutMinutes) * time.Minute)] *)
Definition drainDeadline (condition : NodeCondition) : Z :=
  nc_LastTransitionTime condition * second + int64 (de_timeoutMinutes D * minute).

Definition shutdownList (strategyVMs : list string) (nonMigratableVMs : gmap string (list string))
  : list string :=
  getUniqueVMSfromConditionMap
    (nonMigratableVMs ∪
     match strategyVMs with [] => ∅ | l => {[MaintainModeStrategyKey := l]} end).

(** The last part of [drain]: the drain itself and what follows from its result. *)
Definition runDrain (node : Obj Node) (deadline : Z) : Act (option (Obj Node)) :=
  now ← timeNow;
  let drainTimeout := if 0 <? de_timeoutMinutes D then timeSub deadline now else 0 in
  r ← try (de_drainNode D (o_val node) drainTimeout);
  match r with
  | inr e =>
      if (0 <? de_timeoutMinutes D) && de_deadlineExceeded D
      then failDrainTimeout node (de_timeoutMinutes D) (error_Error e)
      else throw e
  | inl _ =>
      updated ← TransitionMaintenanceModeCondition (node_Name (o_val node))
                  ConditionTrue NodeConditionReasonDraining
                  ConditionTrue NodeConditionReasonEvacuating MaintenanceModeMessageEvacuating;
      if negb (IsMaintenanceModeDrainComplete (GetMaintenanceModeCondition (optNode updated)))
      then mret updated
      else clearDrainRequest updated
  end.

Definition drain (node : Obj Node) (condition : NodeCondition) : Act (option (Obj Node)) :=
  let n := o_val node in
  now ← timeNow;
  if (0 <? de_timeoutMinutes D) && negb (now <? drainDeadline condition)
  then failDrainTimeout node (de_timeoutMinutes D) contextDeadlineExceeded
  else
    nonMigratableVMs ←
      (if IsForcedDrainRequested (Some n)
       then mapErr (ErrWrap "error getting non-migratable VMs") (FindNonMigratableVMS n)
       else mret ∅);
    maintainModeStrategyVMIs ←
      mapErr (ErrWrap "error in the listing of VMIs that are to be administratively stopped before migration")
             (listVMILabelMaintainModeStrategy n);
    strategyVMs ← annotateVMs n maintainModeStrategyVMIs;
    stopVMs (shutdownList strategyVMs nonMigratableVMs);;
    runDrain node (drainDeadline condition).

Definition OnNodeChange (node : option (Obj Node)) : Act (option (Obj Node)) :=
  match node with
  | None => mret None
  | Some o =>
      let n := o_val o in
      if deleting n then mret (Some o)
      else
        let requested := HasDrainRequest (Some n) in
        match GetMaintenanceModeCondition (Some n) with
        | None =>
            if negb requested then mret (Some o)
            else UpdateMaintenanceModeCondition (node_Name n) ConditionTrue
                   NodeConditionReasonValidating MaintenanceModeMessageValidating
        | Some condition =>
            let reason := nc_Reason condition in
            if String.eqb reason NodeConditionReasonValidating then
              if negb requested then mret (Some o) else validate o
            else if String.eqb reason NodeConditionReasonDraining then drain o condition
            else if str_in reason [NodeConditionReasonEvacuating; NodeConditionReasonCompleted;
                                   NodeConditionReasonError] then
              if requested || IsForcedDrainRequested (Some n) then clearDrainRequest (Some o)
              else mret (Some o)
            else mret (Some o)
        end
  end.
End Controller.
End Find.

(** ** The life cycle *)

Section Lifecycle.
Context {LL : LabelLib} {MO : MapOrder} {NA : NodeAffinity} (D : DrainEnv).

Section AnyL.
Context (L : string -> Phase -> Phase -> Prop).
Abbreviation W := (effect (within (evolves L))) (only parsing).

Lemma within_nodeCache_List key s : W (nodeCache_List key) s.
Proof. apply within_cached. Qed.
Lemma within_volumeCache_Get name s : W (volumeCache_Get name) s.
Proof. apply within_cached. Qed.
Lemma within_vmiCache_Get ns name s : W (vmiCache_Get ns name) s.
Proof. apply within_cached. Qed.
#[local] Hint Resolve within_nodeCache_List within_volumeCache_Get within_vmiCache_Get : harv.

Lemma within_DrainPossible n s : W (DrainPossible n) s.
Proof. unfold DrainPossible. effect_go. Qed.

Lemma within_FindNonMigratableVMS n s : W (FindNonMigratableVMS n) s.
Proof.
  unfold FindNonMigratableVMS, listVMI, listVolumeNames, CheckVMISchedulingRequirements.
  effect_go.
Qed.

Lemma within_clearDrainRequest o s : W (clearDrainRequest o) s.
Proof. unfold clearDrainRequest. effect_go. Qed.

Lemma within_annotateVMs n l s : W (annotateVMs n l) s.
Proof.
  revert s. induction l as [|v l IH]; intros s; cbn [annotateVMs annotateVM]; effect_go.
  unfold annotateVM. effect_go.
Qed.

Lemma within_stopVMs l s : W (stopVMs l) s.
Proof.
  revert s. induction l as [|v l IH]; intros s; cbn [stopVMs]; effect_go.
  unfold findAndStopVM. effect_go.
Qed.
#[local] Hint Resolve within_DrainPossible within_FindNonMigratableVMS within_clearDrainRequest
  within_annotateVMs within_stopVMs : harv.

Hypothesis L_drainNode : forall n t s, W (de_drainNode D n t) s.

Lemma within_failDrainTimeout o t e s :
  L (node_Name (o_val o)) PDraining PDrainError -> W (failDrainTimeout o t e) s.
Proof. intros HL. unfold failDrainTimeout. effect_go. by apply Transition_within. Qed.
#[local] Hint Resolve within_failDrainTimeout : harv.

(** Draining, with any node and condition, however stale: the only moves are out of
    Draining. *)
Lemma within_drain o c s :
  L (node_Name (o_val o)) PDraining PEvacuating -> L (node_Name (o_val o)) PDraining PDrainError ->
  W (drain D o c) s.
Proof using L_drainNode.
  intros. unfold drain, runDrain, listVMILabelMaintainModeStrategy.
  effect_go. by apply Transition_within.
Qed.
End AnyL.

Section Fresh.
(** The others' moves, and those of all with the drain controller's on one node. *)
Context (others : string -> Phase -> Phase -> Prop) (name : string).
Hypothesis idle_kept : forall p', ~ others name PIdle p'.
Hypothesis validating_kept : forall p', ~ others name PValidating p'.

Definition with_drain (name' : string) (p p' : Phase) : Prop :=
  others name' p p' \/ name' = name /\ moves DrainController p p'.

Lemma others_all name' p p' : others name' p p' -> with_drain name' p p'.
Proof using. by left. Qed.
Lemma drains_all p p' : moves DrainController p p' -> with_drain name p p'.
Proof using. by right. Qed.

#[local] Hint Resolve within_DrainPossible within_FindNonMigratableVMS within_clearDrainRequest
  : harv.

Lemma leads_failPreCheck o msg s :
  node_Name (o_val o) = name ->
  leads others with_drain name PValidating (failPreCheck o msg) s.
Proof using validating_kept.
  intros Hn. apply (leads_then _ _ _ _ others_all); [|auto with harv]. rewrite Hn.
  apply (leads_Update _ _ _ _ others_all validating_kept), drains_all. constructor.
Qed.

Lemma leads_validate o s :
  node_Name (o_val o) = name -> leads others with_drain name PValidating (validate o) s.
Proof using validating_kept.
  intros Hn. apply (leads_bind _ _ _ _ others_all validating_kept).
  { apply effect_try. auto with harv. }
  intros [[]|e] s' _.
  - apply (leads_bind _ _ _ _ others_all validating_kept).
    { apply effect_mapErr. auto with harv. }
    intros vms s'' _. destruct (negb _ && _); [by apply leads_failPreCheck|]. rewrite Hn.
    apply (leads_Update _ _ _ _ others_all validating_kept), drains_all. constructor.
  - destruct (isDrainNotPossible e); [by apply leads_failPreCheck|].
    apply (within_leads _ _ _ _ others_all), effect_throw, _.
Qed.
(** kubectl's drain evicts and cordons; it does not write maintenance conditions. *)
Definition drain_keeps : Prop :=
  forall L n t s, effect (within (evolves L)) (de_drainNode D n t) s.

Lemma validating_phase n c :
  GetMaintenanceModeCondition (Some n) = Some c -> nc_Reason c = NodeConditionReasonValidating ->
  phaseOf n <> POther -> phaseOf n = PValidating.
Proof using.
  intros Hc Hr. unfold phaseOf. rewrite Hc. unfold condPhase. rewrite Hr.
  destruct (String.eqb _ ConditionTrue); [done|]. by destruct (String.eqb _ ConditionFalse).
Qed.

(** A reconcile of the node as it is: it moves this node along the drain controller's
    part of the life cycle, and no other. *)
Lemma OnNodeChange_moves o s :
  drain_keeps -> node_Name (o_val o) = name -> phaseOf (o_val o) <> POther ->
  leads others with_drain name (phaseOf (o_val o)) (OnNodeChange D (Some o)) s \/
  effect (within (evolves with_drain)) (OnNodeChange D (Some o)) s.
Proof using idle_kept validating_kept.
  intros HD Hn Hp. unfold OnNodeChange. set (n := o_val o) in *.
  destruct (deleting n); [right; by effect_go|].
  destruct (GetMaintenanceModeCondition (Some n)) as [c|] eqn:Hc; cycle 1.
  { destruct (negb _); [right; by effect_go|]. left. rewrite Hn.
    assert (phaseOf n = PIdle) as -> by (unfold phaseOf; by rewrite Hc).
    apply (leads_Update _ _ _ _ others_all idle_kept), drains_all. constructor. }
  destruct (String.eqb_spec (nc_Reason c) NodeConditionReasonValidating) as [Hr|].
  { destruct (negb _); [right; by effect_go|]. left.
    rewrite (validating_phase n c) by done. by apply leads_validate. }
  right. destruct (String.eqb _ NodeConditionReasonDraining).
  - apply within_drain; [by apply HD| |]; fold n; rewrite Hn; apply drains_all; constructor.
  - destruct (str_in _ _); [|by effect_go].
    destruct (_ || _); [apply within_clearDrainRequest|by effect_go].
Qed.

Lemma OnNodeChange_evolves o s :
  drain_keeps -> node_Name (o_val o) = name -> phaseOf (o_val o) <> POther ->
  relies (evolves others) (sys_turns s) -> world_wf (sys_world s) ->
  phaseAt (sys_world s) name = phaseOf (o_val o) ->
  evolves with_drain (sys_world s) (sys_world (OnNodeChange D (Some o) s).2).
Proof using idle_kept validating_kept.
  intros HD Hn Hp Hs Hw Hph. destruct (OnNodeChange_moves o s HD Hn Hp) as [H|H].
  - by apply H.
  - apply H. eapply relies_weaken; [|exact Hs]. intros w w'. apply evolves_weaken. by left.
Qed.
End Fresh.
End Lifecycle.

(** ** Control planes *)

Definition isControlPlane (n : Node) : bool :=
  gm_has (node_Labels n) KubeControlPlaneNodeLabelKey || gm_has (node_Labels n) KubeEtcdNodeLabelKey.

(** Past validation, and still in maintenance. *)
Definition engagedPhase (p : Phase) : bool :=
  bool_decide (p ∈ [PDraining; PEvacuating; PCompleted; PDrainError]).

Lemma byName_lookup l m k :
  byName l m !! k =
  match List.find (fun n => String.eqb (node_Name n) k) (rev l) with
  | Some n => Some n
  | None => m !! k
  end.
Proof.
  induction l as [|n l IH] using rev_ind; [done|]. unfold byName.
  rewrite foldl_app, rev_app_distr. simpl. rewrite lookup_insert. fold (byName l m).
  destruct (String.eqb_spec (node_Name n) k), (decide (node_Name n = k)); naive_solver.
Qed.

Lemma byName_Some l m k n :
  byName l m !! k = Some n -> n ∈ l /\ node_Name n = k \/ m !! k = Some n.
Proof.
  rewrite byName_lookup. destruct (List.find _ _) as [n'|] eqn:E; [|auto].
  intros [= ->]. apply List.find_some in E as [Hin Hk]. boolify. left.
  apply List.in_rev, list_elem_of_In in Hin. auto.
Qed.

Lemma byName_is_Some l m n : n ∈ l -> is_Some (byName l m !! node_Name n).
Proof.
  intros Hn. rewrite byName_lookup. destruct (List.find _ _) as [n'|] eqn:E; [by eexists|].
  exfalso. eapply List.find_none in E.
  - by rewrite String.eqb_refl in E.
  - apply (proj1 (List.in_rev _ _)). by apply list_elem_of_In.
Qed.

Lemma byName_keep l m k : is_Some (m !! k) -> is_Some (byName l m !! k).
Proof. intros Hm. rewrite byName_lookup. destruct (List.find _ _); [by eexists|done]. Qed.

(** The map of [DrainPossible] and the candidates among a list of nodes. *)
Definition cpMap (nodes : list Node) : gmap string Node :=
  byName (List.filter (fun n => gm_has (node_Labels n) KubeEtcdNodeLabelKey) nodes)
    (byName (List.filter (fun n => gm_has (node_Labels n) KubeControlPlaneNodeLabelKey) nodes) ∅).

Lemma cpMap_Some nodes k n :
  cpMap nodes !! k = Some n -> n ∈ nodes /\ node_Name n = k /\ isControlPlane n = true.
Proof.
  unfold cpMap, isControlPlane. intros [[Hn <-]|[[Hn <-]|Hn]%byName_Some]%byName_Some.
  - rewrite filter_elem in Hn.
    destruct Hn as [? ->]. by rewrite orb_true_r.
  - rewrite filter_elem in Hn. by destruct Hn as [? ->].
  - by rewrite lookup_empty in Hn.
Qed.

Lemma cpMap_is_Some nodes n :
  n ∈ nodes -> isControlPlane n = true -> is_Some (cpMap nodes !! node_Name n).
Proof.
  unfold cpMap, isControlPlane. intros Hn [Hl|Hl]%orb_true_iff.
  - apply byName_keep, byName_is_Some.
    by rewrite filter_elem.
  - apply byName_is_Some. by rewrite filter_elem.
Qed.

(** [DrainPossible] without interference: a node outside the control plane is let
    through, one of the control plane needs exactly two others out of maintenance. *)
Lemma DrainPossible_run node w :
  DrainPossible node (quiet w) =
  (if negb (isControlPlane node) then Ok tt
   else if Nat.eqb (size (cpMap (c_nodes (w_cache w)))) 1 then Err errSingleControlPlaneNode
   else if Nat.eqb (length (availableNodes node (cpMap (c_nodes (w_cache w))))) 2 then Ok tt
   else Err errHAControlPlaneNode, quiet w).
Proof.
  unfold DrainPossible, isControlPlane. rewrite <- negb_orb.
  destruct (_ || _); [|done]. cbn [negb].
  unfold mbind, M_bind, mapErr, nodeCache_List, cached, readCall. rewrite !call_quiet.
  cbn [fst snd]. rewrite call_quiet. cbn [fst snd]. fold (cpMap (c_nodes (w_cache w))).
  unfold defaultSingleCPCount, defaultHACPCount. change (3 - 1)%nat with 2%nat.
  destruct (Nat.eqb (size _) 1); [done|]. by destruct (Nat.eqb (length _) 2).
Qed.

(** With at most three in the map, two entries other than the available ones leave
    too few. *)
Lemma available_le (m : gmap string Node) n n' k k' :
  m !! k = Some n -> m !! k' = Some n' -> k <> k' -> (size m <= 3)%nat ->
  forall f : Node -> bool, f n = false -> f n' = false ->
  (length (List.filter f (map snd (map_to_list m))) <= 1)%nat.
Proof.
  intros Hk Hk' Hne Hsize f Hf Hf'.
  assert (map_to_list m ≡ₚ (k, n) :: (k', n') :: map_to_list (delete k' (delete k m))) as Hp.
  { rewrite (map_to_list_delete (delete k m) k' n') by (by rewrite lookup_delete_ne).
    by rewrite map_to_list_delete. }
  apply Permutation_length in Hp as Hlen. simpl in Hlen.
  rewrite length_map_to_list in Hlen.
  apply (Permutation_map snd) in Hp. apply (filter_perm f) in Hp.
  rewrite (Permutation_length Hp). simpl. rewrite Hf, Hf'.
  etransitivity; [apply List.filter_length_le|]. rewrite length_map. lia.
Qed.

Section OneControlPlane.
Context {LL : LabelLib} {MO : MapOrder} {NA : NodeAffinity} (D : DrainEnv).
Context (cp : gset string).

(** The node cache shows the nodes as they are. *)
Definition fresh (w : World) : Prop :=
  forall n, n ∈ c_nodes (w_cache w) <->
    exists name o, st_objs (w_nodes w) !! name = Some o /\ o_val o = n.

(** The control plane of the cluster is [cp]. *)
Definition labelled (w : World) : Prop :=
  forall name o, st_objs (w_nodes w) !! name = Some o ->
    isControlPlane (o_val o) = bool_decide (name ∈ cp).

(** The cluster: the drain controller reconciles any node, and the maintenance
    controller, the users and everything that leaves phases alone act in between. *)
Inductive cluster_step : World -> World -> Prop :=
| cl_drain w name o :
    fresh w -> labelled w -> st_objs (w_nodes w) !! name = Some o ->
    cluster_step w (sys_world (OnNodeChange D (Some o) (quiet w)).2)
| cl_others w w' :
    evolves (movesOf [MaintainController; User]) w w' -> cluster_step w w'.

Definition cluster_init (w : World) : Prop :=
  world_wf w /\ forall name, phaseAt w name = PAbsent \/ phaseAt w name = PIdle.

Definition nobody (_ : string) (_ _ : Phase) : Prop := False.

(** Nobody newly engaged. *)
Definition calm (_ : string) (p p' : Phase) : Prop :=
  engagedPhase p' = true -> engagedPhase p = true.

Lemma calm_rtc name p p' : rtc (calm name) p p' -> calm name p p'.
Proof. unfold calm. induction 1; auto. Qed.

Lemma quiet_relies {W} (R : W -> W -> Prop) (w : W) : relies R (sys_turns (quiet w)).
Proof. constructor. Qed.

Lemma calm_leads {A} name p (m : M (Sys World) A) w :
  world_wf w -> phaseAt w name = p -> leads nobody calm name p m (quiet w) ->
  engagedPhase (phaseAt (sys_world (m (quiet w)).2) name) = true -> engagedPhase p = true.
Proof.
  intros Hw Hp Hl. destruct (Hl (quiet_relies _ _) Hw Hp) as [_ HE].
  destruct (HE Hw) as (_ & _ & _ & Hph). specialize (Hph name). cbn [quiet sys_world] in Hph.
  rewrite Hp in Hph. by apply calm_rtc in Hph.
Qed.

Lemma calm_Update name p st re msg s :
  engagedPhase (reasonPhase st re) = false ->
  leads nobody calm name p (UpdateMaintenanceModeCondition name st re msg) s.
Proof.
  intros He. apply leads_Update; [by intros ? ? ? []|by intros ? []|].
  intros He'. by rewrite He in He'.
Qed.

(** A reconcile engages a node only when the drain is possible. *)
Lemma OnNodeChange_engages name o w :
  world_wf w -> st_objs (w_nodes w) !! name = Some o -> phaseOf (o_val o) <> POther ->
  engagedPhase (phaseAt (sys_world (OnNodeChange D (Some o) (quiet w)).2) name) = true ->
  engagedPhase (phaseOf (o_val o)) = true \/ (DrainPossible (o_val o) (quiet w)).1 = Ok tt.
Proof.
  intros Hw Ho Hp. set (n := o_val o).
  assert (node_Name n = name) as Hn by by apply Hw.
  assert (phaseAt w name = phaseOf n) as Hph by (unfold phaseAt; by rewrite Ho).
  assert (Hkeep : forall m : M (Sys World) (option (Obj Node)),
    effect (within (evolves nobody)) m (quiet w) ->
    engagedPhase (phaseAt (sys_world (m (quiet w)).2) name) = true ->
    engagedPhase (phaseOf n) = true).
  { intros m Hm. apply calm_leads; [done..|]. apply within_leads; [by intros ? ? ? []|done]. }
  assert (Hret : engagedPhase (phaseAt w name) = true ->
    engagedPhase (phaseOf n) = true \/ (DrainPossible n (quiet w)).1 = Ok tt).
  { rewrite Hph. auto. }
  unfold OnNodeChange. fold n.
  destruct (deleting n); [by apply Hret|].
  destruct (GetMaintenanceModeCondition (Some n)) as [c|] eqn:Hc; cycle 1.
  { destruct (negb _); [by apply Hret|]. rewrite Hn. intros He. left. revert He.
    apply calm_leads; [done..|]. by apply calm_Update. }
  destruct (String.eqb_spec (nc_Reason c) NodeConditionReasonValidating) as [Hr|].
  { destruct (negb _); [by apply Hret|]. unfold validate. fold n.
    pose proof (DrainPossible_run n w) as Hrun. rewrite Hrun. cbn [fst].
    destruct (if negb (isControlPlane n) then _ else _) as [[]|e|] eqn:Edp; [by auto| |].
    - unfold mbind, M_bind, try. rewrite Hrun. cbn iota. intros He. left. revert He.
      destruct (isDrainNotPossible e); [|by apply (Hkeep (throw e)), effect_throw, _].
      apply (calm_leads name _ (failPreCheck o _)); [done..|]. unfold failPreCheck. fold n.
      rewrite Hn. apply leads_then; [by intros ? ? ? []|by apply calm_Update|].
      intros; apply within_clearDrainRequest.
    - by break_in Edp. }
  destruct (String.eqb_spec (nc_Reason c) NodeConditionReasonDraining) as [Hr|].
  { intros _. left. revert Hp. fold n. unfold phaseOf. rewrite Hc. unfold condPhase. rewrite Hr.
    destruct (String.eqb _ ConditionTrue); [done|]. by destruct (String.eqb _ ConditionFalse). }
  destruct (str_in _ _); [|by apply Hret].
  destruct (_ || _); [|by apply Hret]. intros He. left. revert He.
  apply Hkeep, within_clearDrainRequest.
Qed.

(** The drain of a control-plane node is not possible beside an engaged one. *)
Lemma DrainPossible_alone w name o name' o' :
  world_wf w -> fresh w -> labelled w -> (size cp <= 3)%nat ->
  st_objs (w_nodes w) !! name = Some o -> st_objs (w_nodes w) !! name' = Some o' ->
  name ∈ cp -> name' ∈ cp -> name <> name' ->
  IsMaintenanceModeEngaged (Some (o_val o')) = true ->
  (DrainPossible (o_val o) (quiet w)).1 <> Ok tt.
Proof.
  intros Hw Hf Hl Hcp Ho Ho' Hin Hin' Hne He. rewrite DrainPossible_run. cbn [fst].
  assert (Hcpn : forall name o, name ∈ cp -> st_objs (w_nodes w) !! name = Some o ->
    cpMap (c_nodes (w_cache w)) !! name = Some (o_val o)).
  { intros k ok Hk Hok. assert (node_Name (o_val ok) = k) as <- by by apply Hw.
    destruct (cpMap_is_Some (c_nodes (w_cache w)) (o_val ok)) as [n Hn].
    - apply Hf. eauto.
    - rewrite (Hl _ _ Hok). by apply bool_decide_eq_true.
    - rewrite Hn. f_equal. apply cpMap_Some in Hn as (Hn & Heq & _).
      apply Hf in Hn as (k2 & o2 & Ho2 & <-).
      assert (node_Name (o_val o2) = k2) as Hk2 by by apply Hw. congruence. }
  rewrite (Hl _ _ Ho), bool_decide_eq_true_2 by done. cbn [negb].
  destruct (Nat.eqb (size _) 1); [done|].
  enough (length (availableNodes (o_val o) (cpMap (c_nodes (w_cache w)))) <= 1)%nat.
  { destruct (Nat.eqb_spec (length (availableNodes (o_val o) (cpMap (c_nodes (w_cache w))))) 2);
      [lia|done]. }
  apply (available_le _ (o_val o) (o_val o') name name'); [by apply Hcpn..|done| | |].
  - etransitivity; [|exact Hcp]. rewrite <- size_dom. apply subseteq_size.
    intros k [n Hn]%elem_of_dom. apply cpMap_Some in Hn as (Hn & <- & Hc).
    apply Hf in Hn as (k & ok & Hok & <-). rewrite (Hl _ _ Hok) in Hc.
    assert (node_Name (o_val ok) = k) as -> by by apply Hw. by apply bool_decide_eq_true in Hc.
  - by rewrite String.eqb_refl.
  - by rewrite He, andb_false_r.
Qed.

Lemma engaged_phase n : engagedPhase (phaseOf n) = true -> IsMaintenanceModeEngaged (Some n) = true.
Proof.
  unfold phaseOf, IsMaintenanceModeEngaged, condPhase.
  destruct (GetMaintenanceModeCondition (Some n)) as [c|]; [|done].
  destruct (String.eqb _ ConditionTrue); [done|]. by destruct (_ && _).
Qed.

(** Everyone else only ends maintenance. *)
Lemma rest_calm name p p' : movesOf [MaintainController; User] name p p' -> calm name p p'.
Proof. intros (a & Ha & Hm) He. inversion Hm; subst; set_solver. Qed.

Lemma moves_known a p p' : moves a p p' -> p' <> POther.
Proof. by inversion 1. Qed.

Lemma rtc_known (L : string -> Phase -> Phase -> Prop) name p p' :
  (forall p p', L name p p' -> p' <> POther) -> p <> POther -> rtc (L name) p p' -> p' <> POther.
Proof. intros HL Hp. induction 1; eauto. Qed.

Definition cluster_ok (w : World) : Prop :=
  world_wf w /\ (forall name, phaseAt w name <> POther) /\
  forall n1 n2, n1 ∈ cp -> n2 ∈ cp ->
    engagedPhase (phaseAt w n1) = true -> engagedPhase (phaseAt w n2) = true -> n1 = n2.

Lemma evolves_calm L w w' :
  (forall name p p', L name p p' -> calm name p p') ->
  (forall name p p', L name p p' -> p' <> POther) ->
  evolves L w w' -> cluster_ok w -> cluster_ok w'.
Proof.
  intros HL HO HE (Hw & Hk & Hone). destruct (HE Hw) as (Hw' & _ & _ & Hp).
  split_and!; [done| |].
  - intros name. eapply rtc_known; [apply HO|apply (Hk name)|apply Hp].
  - intros n1 n2 H1 H2 He1 He2.
    assert (Hc : forall k, calm k (phaseAt w k) (phaseAt w' k)).
    { intros k. apply calm_rtc. eapply rtc_subrel; [apply HL|apply Hp]. }
    apply Hone; [done..| |]; by apply Hc.
Qed.

Lemma cluster_ok_drain w name o :
  drain_keeps D -> (size cp <= 3)%nat -> fresh w -> labelled w ->
  st_objs (w_nodes w) !! name = Some o -> cluster_ok w ->
  cluster_ok (sys_world (OnNodeChange D (Some o) (quiet w)).2).
Proof.
  intros HD Hcp Hf Hl Ho (Hw & Hk & Hone).
  assert (node_Name (o_val o) = name) as Hn by by apply Hw.
  assert (phaseAt w name = phaseOf (o_val o)) as Hph by (unfold phaseAt; by rewrite Ho).
  assert (phaseOf (o_val o) <> POther) as Hp by (rewrite <- Hph; apply Hk).
  pose proof (OnNodeChange_evolves D nobody name ltac:(by intros ? []) ltac:(by intros ? [])
    o (quiet w) HD Hn Hp (quiet_relies _ _) Hw Hph Hw) as (Hw' & _ & _ & Hmv).
  pose proof (OnNodeChange_engages name o w Hw Ho Hp) as Heng.
  set (w' := sys_world (OnNodeChange D (Some o) (quiet w)).2) in *. cbn [sys_world quiet] in Hmv.
  assert (Hother : forall k, k <> name -> phaseAt w' k = phaseAt w k).
  { intros k Hne. specialize (Hmv k). inversion Hmv as [|? p ? [[]|[? _]]]; [done|].
    by destruct Hne. }
  assert (Hexcl : forall k, k ∈ cp -> name ∈ cp -> k <> name ->
    engagedPhase (phaseAt w' name) = true -> engagedPhase (phaseAt w k) = true -> k = name).
  { intros k Hck Hcn Hne He Hek. destruct (Heng He) as [He'|Hok].
    - rewrite <- Hph in He'. by apply Hone.
    - exfalso. revert Hek. unfold phaseAt. destruct (st_objs (w_nodes w) !! k) as [ok|] eqn:Hk';
        [|done]. intros He'%engaged_phase.
      by apply (DrainPossible_alone w name o k ok). }
  split_and!; [done| |].
  - intros k. eapply rtc_known; [|apply (Hk k)|apply Hmv].
    intros p p' [[]|[_ Hm]]. by eapply moves_known.
  - intros n1 n2 H1 H2 He1 He2.
    destruct (decide (n1 = name)) as [->|N1], (decide (n2 = name)) as [->|N2]; [done|..].
    + symmetry. apply Hexcl; [done..|]. by rewrite <- Hother.
    + apply Hexcl; [done..|]. by rewrite <- Hother.
    + rewrite Hother in He1, He2 by done. by apply Hone.
Qed.
End OneControlPlane.

(** ** Volumes with one working replica *)

Definition replicasOf (rs : list Replica) (v : string) : list Replica :=
  List.filter (fun r => String.eqb (r_VolumeName r) v) rs.
Definition startedOf (rs : list Replica) : list Replica := List.filter r_Started rs.

Lemma volumeMap_lookup rs v :
  volumeMap rs !! v =
  match replicasOf rs v with
  | [] => None
  | l => Some (mkDetails (length (startedOf l))
                 (length (List.filter (fun r => negb (r_Started r)) l)) l)
  end.
Proof.
  unfold volumeMap, replicasOf, startedOf.
  induction rs as [|r rs IH] using rev_ind; [done|].
  rewrite foldl_app, List.filter_app. cbn [foldl List.filter]. unfold addReplica at 1.
  rewrite lookup_insert.
  destruct (String.eqb_spec (r_VolumeName r) v) as [->|Hne]; case_decide; try done.
  - rewrite IH. destruct (List.filter _ rs) as [|x l]; cbn [default from_option app vd_healthy
      vd_unhealthy vd_replicas].
    + cbn [List.filter]. by destruct (r_Started r).
    + cbn [List.filter]. rewrite !List.filter_app. cbn [List.filter].
      by destruct (r_Started r), (r_Started x); simpl;
        rewrite ?length_app; simpl; f_equal; f_equal; lia.
  - by rewrite app_nil_r.
Qed.

Section Volumes.
Context {MO : MapOrder}.

Lemma elem_range {V} (m : gmap string V) k v : (k, v) ∈ range m <-> m !! k = Some v.
Proof. by rewrite range_perm, elem_of_map_to_list. Qed.

(** The names given for one volume. *)
Definition volumeHits (node : Node) (v : string) (d : internalVolumeDetails) : list string :=
  if Nat.leb (vd_healthy d) 1 then
    map (fun _ => v) (List.filter (fun r => r_Started r && String.eqb (r_NodeID r) (node_Name node))
                        (vd_replicas d))
  else [].

(** At most one name, and one exactly when the only started replica is on the node. *)
Lemma volumeHits_spec node rs v d :
  volumeMap rs !! v = Some d ->
  volumeHits node v d =
  match startedOf (replicasOf rs v) with
  | [r] => if String.eqb (r_NodeID r) (node_Name node) then [v] else []
  | _ => []
  end.
Proof.
  rewrite volumeMap_lookup. intros Hd.
  assert (d = mkDetails (length (startedOf (replicasOf rs v)))
    (length (List.filter (fun r => negb (r_Started r)) (replicasOf rs v))) (replicasOf rs v)) as ->.
  { destruct (replicasOf rs v); [done|congruence]. }
  unfold volumeHits. cbn [vd_healthy vd_replicas].
  rewrite <- (filter_filter (fun r => String.eqb (r_NodeID r) (node_Name node)) r_Started).
  fold (startedOf (replicasOf rs v)).
  destruct (startedOf (replicasOf rs v)) as [|r [|r' l]]; [done| |done].
  simpl. by destruct (String.eqb (r_NodeID r) (node_Name node)).
Qed.

Lemma concat_hits_NoDup {V} (f : string * V -> list string) (l : list (string * V)) :
  NoDup (map fst l) -> (forall p, p ∈ l -> f p = [] \/ f p = [p.1]) ->
  NoDup (concat (map f l)).
Proof.
  induction l as [|p l IH]; simpl; [constructor|]. intros [Hp Hnd]%NoDup_cons Hf.
  assert (NoDup (concat (map f l))) as Hl by (apply IH; [done|]; set_solver).
  destruct (Hf p ltac:(set_solver)) as [-> | ->]; [done|]. simpl. constructor; [|done].
  intros (x & Hx & Hin)%concat_elem. apply list_elem_of_fmap in Hx as (q & -> & Hq).
  destruct (Hf q ltac:(set_solver)) as [E|E]; rewrite E in Hin; [set_solver|].
  apply list_elem_of_singleton in Hin. apply Hp. rewrite Hin. by apply list_elem_of_fmap_2.
Qed.
End Volumes.

Lemma possibleVolumeNames_spec `{MapOrder} node rs :
  NoDup (possibleVolumeNames node (volumeMap rs)) /\
  forall v, v ∈ possibleVolumeNames node (volumeMap rs) <->
    exists r, List.filter (fun r => String.eqb (r_VolumeName r) v && r_Started r) rs = [r] /\
      r_NodeID r = node_Name node.
Proof.
  assert (Heq : possibleVolumeNames node (volumeMap rs) =
    concat (map (fun p => volumeHits node p.1 p.2) (range (volumeMap rs)))).
  { unfold possibleVolumeNames. f_equal. apply map_ext. by intros [v d]. }
  rewrite Heq. split.
  - assert (NoDup (map fst (range (volumeMap rs)))) as Hnd.
    { rewrite range_perm. apply NoDup_fst_map_to_list. }
    assert (Hin : forall p, p ∈ range (volumeMap rs) -> volumeMap rs !! p.1 = Some p.2).
    { intros [v d]. apply elem_range. }
    revert Hnd Hin. generalize (range (volumeMap rs)). intros l Hnd Hin.
    apply concat_hits_NoDup; [done|]. intros p Hp. rewrite (volumeHits_spec node rs) by auto.
    destruct (startedOf _) as [|r [|]]; [by left| |by left].
    destruct (String.eqb _ _); [by right|by left].
  - intros v. rewrite concat_elem. setoid_rewrite list_elem_of_fmap. split.
    + intros (l & ([v' d] & -> & Hp%elem_range) & Hv). simpl in Hv.
      rewrite (volumeHits_spec node rs) in Hv by done.
      unfold startedOf, replicasOf in Hv. rewrite filter_filter in Hv.
      destruct (List.filter _ rs) as [|r [|]] eqn:Ef; [set_solver| |set_solver].
      destruct (String.eqb_spec (r_NodeID r) (node_Name node)); [|set_solver].
      apply list_elem_of_singleton in Hv as ->. eauto.
    + intros (r & Hr & Hn).
      assert (Hs : startedOf (replicasOf rs v) = [r]).
      { unfold startedOf, replicasOf. by rewrite filter_filter. }
      destruct (volumeMap rs !! v) as [d|] eqn:Hd.
      * exists (volumeHits node v d). split; [exists (v, d); by rewrite elem_range|].
        rewrite (volumeHits_spec node rs) by done. rewrite Hs, Hn, String.eqb_refl. by left.
      * rewrite volumeMap_lookup in Hd. by destruct (replicasOf rs v).
Qed.

(** ** Concrete clusters, for evaluation *)

Definition refreshNodes (w : World) : World :=
  let c := w_cache w in
  mkWorld (w_nodes w) (w_vms w)
    (mkCaches (map (fun kv => o_val kv.2) (map_to_list (st_objs (w_nodes w))))
       (c_vms c) (c_vmis c) (c_replicas c) (c_volumes c)) (w_now w) (w_enqueued w).

Lemma fresh_refreshNodes w : fresh (refreshNodes w).
Proof.
  intros n. simpl. rewrite list_elem_of_fmap. split.
  - intros ([k o] & -> & Hin%elem_of_map_to_list). eauto.
  - intros (k & o & Ho & <-). exists (k, o). by rewrite elem_of_map_to_list.
Qed.

Lemma evolves_refreshNodes L w : evolves L w (refreshNodes w).
Proof. intros Hw. split_and!; [done|simpl; reflexivity..|]. intros name. constructor. Qed.

Definition labelledb (cp : gset string) (w : World) : bool :=
  bool_decide (map_Forall (fun name o => isControlPlane (o_val o) = bool_decide (name ∈ cp))
                 (st_objs (w_nodes w))).
Lemma labelledb_ok cp w : labelledb cp w = true -> labelled cp w.
Proof. intros H%bool_decide_eq_true name o Ho. by apply (H name o). Qed.

(** A drain that cordons the node and finds nothing to evict. *)
Definition cordon (n : Node) (_ : Z) : M (Sys World) unit :=
  o ← nodes_Get (node_Name n);
  nodes_Update (mkObj (o_rv o) (node_set_Unschedulable true (o_val o)));;
  mret tt.

Definition demoEnv : DrainEnv := mkDrainEnv 15 cordon false.

Lemma demoEnv_keeps : drain_keeps demoEnv.
Proof. intros L n t s. simpl. unfold cordon. effect_go. Qed.

Module Demo.
#[export] Instance demoLabels : LabelLib := {| validLabelValue s := Nat.leb (String.length s) 63 |}.
#[export] Instance demoRange : MapOrder :=
  {| range V m := map_to_list m; range_perm V m := reflexivity _ |}.
#[export] Instance demoAffinity : NodeAffinity :=
  {| NewNodeSelector sel := Ok (fun n => bool_decide (sel = [])) |}.
End Demo.

Section Evaluate.
Import Demo.

(** A reconcile of the node [name] as the fresh cache shows it. *)
Definition reconcile (name : string) (w : World) : World :=
  let w := refreshNodes w in
  match st_objs (w_nodes w) !! name with
  | Some o => sys_world (OnNodeChange demoEnv (Some o) (quiet w)).2
  | None => w
  end.

Definition cpNode (name : string) (requested : bool) : Node :=
  demoNode name [(KubeControlPlaneNodeLabelKey, "true"); (KubeEtcdNodeLabelKey, "true")]
    (if requested then [(DrainAnnotation, "true")] else []).

Definition threeNodes : World := demoWorld [cpNode "a" true; cpNode "b" false; cpNode "c" false] [] [].

Example three_drain :
  map (phaseAt (reconcile "a" (reconcile "a" threeNodes))) ["a"; "b"; "c"]
  = [PDraining; PIdle; PIdle].
Proof. vm_compute. reflexivity. Qed.

Example three_evacuate :
  phaseAt (Nat.iter 3 (reconcile "a") threeNodes) "a" = PEvacuating.
Proof. vm_compute. reflexivity. Qed.

Definition fourNodes : World :=
  demoWorld [cpNode "a" true; cpNode "b" true; cpNode "c" false; cpNode "d" false] [] [].

Example four_drain :
  map (phaseAt (reconcile "b" (reconcile "a" (reconcile "b" (reconcile "a" fourNodes)))))
    ["a"; "b"; "c"; "d"] = [PDraining; PDraining; PIdle; PIdle].
Proof. vm_compute. reflexivity. Qed.

Lemma reachable_reconcile cp w name :
  labelledb cp (refreshNodes w) = true ->
  reachable cluster_init (cluster_step demoEnv cp) w ->
  reachable cluster_init (cluster_step demoEnv cp) (reconcile name w).
Proof.
  intros Hl Hr. unfold reconcile.
  assert (reachable cluster_init (cluster_step demoEnv cp) (refreshNodes w)) as Hr'.
  { eapply reach_step; [exact Hr|]. apply cl_others, evolves_refreshNodes. }
  destruct (st_objs _ !! name) as [o|] eqn:Ho; [|done].
  eapply reach_step; [exact Hr'|]. eapply cl_drain; [apply fresh_refreshNodes| |exact Ho].
  by apply labelledb_ok.
Qed.

Lemma phaseAt_cases w :
  forallb (fun kv => bool_decide (phaseOf (o_val kv.2) = PIdle)) (map_to_list (st_objs (w_nodes w)))
    = true ->
  forall name, phaseAt w name = PAbsent \/ phaseAt w name = PIdle.
Proof.
  intros H name. unfold phaseAt. destruct (st_objs (w_nodes w) !! name) as [o|] eqn:E; [|by left].
  right. rewrite forallb_forall in H. apply (bool_decide_eq_true _), (H (name, o)).
  by apply list_elem_of_In, elem_of_map_to_list.
Qed.
End Evaluate.

(** ** Properties *)

(** C19: In a cluster with up to three control-plane nodes, at most one of them is ever past
    validation and in maintenance, whatever the order of requests, reconciles, completions
    and withdrawals, as long as the checks see the nodes as they are. *)
Theorem one_control_plane_in_maintenance `{LabelLib} `{MapOrder} `{NodeAffinity} D cp w :
  drain_keeps D -> (size cp <= 3)%nat ->
  reachable cluster_init (cluster_step D cp) w ->
  forall n1 n2, n1 ∈ cp -> n2 ∈ cp ->
    engagedPhase (phaseAt w n1) = true -> engagedPhase (phaseAt w n2) = true -> n1 = n2.
Proof.
  intros HD Hcp Hr. enough (cluster_ok cp w) by by destruct H2 as (_ & _ & ?).
  revert w Hr. apply invariant_reachable.
  - intros w (Hw & Hp). split_and!; [done|..].
    + intros name. by destruct (Hp name) as [-> | ->].
    + intros n1 n2 _ _ He. by destruct (Hp n1) as [E|E]; rewrite E in He.
  - intros w w' Hok Hs. destruct Hs as [w name o Hf Hl Ho|w w' HE].
    { by apply (cluster_ok_drain D cp w name o). }
    eapply evolves_calm; [apply rest_calm| |exact HE|done].
    intros name p p' (a & _ & Hm). by eapply moves_known.
Qed.

(** The cluster after two reconciles of the requested node: only that one is draining. *)
Lemma one_control_plane_in_maintenance_witness :
  let w := reconcile "a" (reconcile "a" threeNodes) in
  engagedPhase (phaseAt w "a") = true /\
  forall n, n ∈ ({[ "a"; "b"; "c" ]} : gset string) ->
    engagedPhase (phaseAt w n) = true -> n = "a".
Proof.
  intros w. split; [by vm_compute|]. intros n Hn He. symmetry.
  apply (one_control_plane_in_maintenance (H := Demo.demoLabels) (H0 := Demo.demoRange)
           (H1 := Demo.demoAffinity) demoEnv {[ "a"; "b"; "c" ]} w);
    [apply demoEnv_keeps|by vm_compute| |set_solver|done|by vm_compute|done].
  apply reachable_reconcile; [by vm_compute|].
  apply reachable_reconcile; [by vm_compute|].
  apply reach_init. split; [by apply world_wfb_ok; vm_compute|].
  apply phaseAt_cases. by vm_compute.
Defined.

(** The limit of three is needed: with four control-plane nodes a request for one is
    refused, but two requests at a time let each other pass, because each takes the other
    for the one node that may be missing. *)
Theorem four_control_planes :
  (exists w, reachable cluster_init (cluster_step (LL := Demo.demoLabels) (MO := Demo.demoRange)
       (NA := Demo.demoAffinity) demoEnv {[ "a"; "b"; "c"; "d" ]}) w /\
     phaseAt w "a" = PDraining /\ phaseAt w "b" = PDraining) /\
  phaseAt (Nat.iter 2 (reconcile "a")
    (demoWorld [cpNode "a" true; cpNode "b" false; cpNode "c" false; cpNode "d" false] [] [])) "a"
  = PPreError.
Proof.
  split; [|by vm_compute].
  exists (reconcile "b" (reconcile "a" (reconcile "b" (reconcile "a" fourNodes)))).
  split; [|by vm_compute].
  do 4 (apply reachable_reconcile; [by vm_compute|]).
  apply reach_init. split; [by apply world_wfb_ok; vm_compute|].
  apply phaseAt_cases. by vm_compute.
Qed.

(** The volumes whose VMs must stop before a drain are exactly those whose only started
    replica is on the node, each named once, in whatever order the replicas are listed
    and the map is walked. *)
Theorem last_replica_volumes_exact `{MapOrder} node rs :
  NoDup (possibleVolumeNames node (volumeMap rs)) /\
  forall v, v ∈ possibleVolumeNames node (volumeMap rs) <->
    exists r, List.filter (fun r => String.eqb (r_VolumeName r) v && r_Started r) rs = [r] /\
      r_NodeID r = node_Name node.
Proof. apply possibleVolumeNames_spec. Qed.

(** A reconcile of a node as it is keeps to the life cycle.  The maintenance controller and
    the users may act on any node in between, and the drain itself may change anything but
    maintenance conditions: this node moves along the documented steps of the drain
    controller (and those others make), and no other node is moved by it. *)
Theorem OnNodeChange_lifecycle `{LabelLib} `{MapOrder} `{NodeAffinity} D o s :
  drain_keeps D -> relies (evolves (movesOf [MaintainController; User])) (sys_turns s) ->
  world_wf (sys_world s) ->
  phaseAt (sys_world s) (node_Name (o_val o)) = phaseOf (o_val o) -> phaseOf (o_val o) <> POther ->
  forall name,
    rtc (fun p p' => movesOf [MaintainController; User] name p p' \/
                     name = node_Name (o_val o) /\ moves DrainController p p')
      (phaseAt (sys_world s) name) (phaseAt (sys_world (OnNodeChange D (Some o) s).2) name).
Proof.
  intros HD Hs Hw Hp Ho. apply (OnNodeChange_evolves D (movesOf [MaintainController; User])
    (node_Name (o_val o))); try done.
  - intros p' (a & Ha & Hm). inversion Hm; subst; set_solver.
  - intros p' (a & Ha & Hm). inversion Hm; subst; set_solver.
Qed.

(** The requested node of the three, with heartbeats before each call. *)
Lemma OnNodeChange_lifecycle_witness :
  let s := mkSys threeNodes [mkTurn (touch "a") None; mkTurn (touch "a") None] in
  phaseAt (sys_world (OnNodeChange (LL := Demo.demoLabels) (MO := Demo.demoRange)
    (NA := Demo.demoAffinity) demoEnv (Some (mkObj 1 (cpNode "a" true))) s).2) "a" = PValidating /\
  rtc (fun p p' => movesOf [MaintainController; User] "a" p p' \/
                   "a" = "a" /\ moves DrainController p p') PIdle PValidating.
Proof.
  intros s. split; [by vm_compute|].
  apply (OnNodeChange_lifecycle (H := Demo.demoLabels) (H0 := Demo.demoRange)
    (H1 := Demo.demoAffinity) demoEnv (mkObj 1 (cpNode "a" true)) s);
    [apply demoEnv_keeps| |apply world_wfb_ok; by vm_compute|by vm_compute|by vm_compute].
  do 2 (apply Forall_cons; split; [intros w; apply evolves_touch|]). constructor.
Defined.

(** ** Runs without interference *)

Section Quiet.
Context {LL : LabelLib} {MO : MapOrder} {NA : NodeAffinity}.

(** A node that an instance could go to. *)
Definition accepts (v : VMInst) (n : Node) : Prop :=
  (forall sel, vi_NodeAffinity v = Some sel ->
     exists nodeMatch, NewNodeSelector sel = Ok nodeMatch /\ nodeMatch n = true) /\
  (forall sel, vi_NodeSelector v = Some sel -> matchesSet sel (node_Labels n) = true).

(** An instance that can leave the node: it does not say that it cannot migrate, another
    node that is ready accepts it, and it is not to be shut down instead. *)
Record movable (w : World) (name : string) (v : VMInst) : Prop := {
  mv_migratable : forall c, c ∈ vi_Conditions v -> notMigratable c = false;
  mv_target : exists n, n ∈ c_nodes (w_cache w) /\ node_Name n <> name /\ isNodeReady n = true /\
    accepts v n;
  mv_strategy : stringInShutdown (vi_Labels v) = false }.

(** Nothing on the node keeps it from draining: every instance on it can leave, and no volume
    has its only started replica there. *)
Definition evacuable (w : World) (name : string) : Prop :=
  (forall v, v ∈ vmisOn w name -> movable w name v) /\
  forall volume r,
    List.filter (fun r => String.eqb (r_VolumeName r) volume && r_Started r) (c_replicas (w_cache w))
      = [r] -> r_NodeID r <> name.

Lemma evacuable_volumes w n :
  evacuable w (node_Name n) -> possibleVolumeNames n (volumeMap (c_replicas (w_cache w))) = [].
Proof.
  intros [_ Hr]. destruct (possibleVolumeNames _ _) as [|v l] eqn:E; [done|]. exfalso.
  destruct (possibleVolumeNames_spec n (c_replicas (w_cache w))) as [_ Hv].
  destruct (proj1 (Hv v) ltac:(rewrite E; by left)) as (r & Hf & Hn). by apply (Hr v r).
Qed.

Lemma IdentifyNonMigratableVMS_none l :
  (forall v c, v ∈ l -> c ∈ vi_Conditions v -> notMigratable c = false) ->
  IdentifyNonMigratableVMS l = ∅.
Proof.
  unfold IdentifyNonMigratableVMS. generalize (∅ : gmap string (list string)).
  induction l as [|v l IH]; intros m H; [done|]. cbn [foldl].
  assert (Hv : forall c, c ∈ vi_Conditions v -> notMigratable c = false) by (intros; apply (H v); set_solver).
  rewrite <- (IH m) at 2 by (intros; eapply H; set_solver). f_equal.
  clear IH H. induction (vi_Conditions v) as [|c cs IH]; [done|]. cbn [foldl].
  rewrite (Hv c) by set_solver. apply IH. set_solver.
Qed.

Lemma matchingNodes_accepts valid v n :
  n ∈ valid -> accepts v n -> exists ns, matchingNodes valid v = Ok ns /\ n ∈ ns.
Proof.
  intros Hn [Ha Hs]. unfold matchingNodes.
  assert (exists possible, match vi_NodeAffinity v with
    | Some sel => match NewNodeSelector sel with
                  | Ok nodeMatch => Ok (List.filter nodeMatch valid)
                  | Err e => Err (textErr "error generating nodeAffinitySelector from node scheduling requirements" e)
                  | Panic => Panic
                  end
    | None => Ok valid end = Ok possible /\ n ∈ possible) as (possible & -> & Hp).
  { destruct (vi_NodeAffinity v) as [sel|]; [|by exists valid].
    destruct (Ha sel eq_refl) as (f & -> & Hf). eexists. split; [done|]. by apply filter_elem. }
  eexists. split; [reflexivity|]. unfold filterNodesForNodeSelector.
  destruct (vi_NodeSelector v) as [sel|]; [|done]. case_match; [|done]. apply filter_elem. auto.
Qed.

Lemma unschedulable_none valid l :
  (forall v, v ∈ l -> exists n, n ∈ valid /\ accepts v n) -> unschedulable valid l = Ok [].
Proof.
  induction l as [|v l IH]; intros H; [done|]. cbn [unschedulable].
  destruct (H v ltac:(set_solver)) as (n & Hn & Ha).
  destruct (matchingNodes_accepts valid v n Hn Ha) as (ns & -> & Hin).
  rewrite IH by set_solver. by destruct ns; [set_solver|].
Qed.

Lemma FindNonMigratableVMS_evacuable n w :
  evacuable w (node_Name n) -> FindNonMigratableVMS n (quiet w) = (Ok ∅, quiet w).
Proof.
  intros He. unfold FindNonMigratableVMS, listVMI, listVolumeNames, CheckVMISchedulingRequirements.
  assert (Hrep : cached (fun c => Ok (c_replicas c)) (quiet w) =
    (Ok (c_replicas (w_cache w)), quiet w))
    by apply (readCall_quiet (fun w => Ok (c_replicas (w_cache w)))).
  assert (Hl : (volList ← mapErr (textErr "error in listVolumeNames")
      (replicaList ← cached (fun c => Ok (c_replicas c));
       mapM volumeCache_Get (possibleVolumeNames n (volumeMap replicaList)));
    vmis ← mapM (fun v => mapM (vmiCache_Get (lv_Namespace v)) (instanceNames v)) volList;
    mret (concat vmis)) (quiet w) = (Ok ([] : list VMInst), quiet w)).
  { rewrite (bind_run _ _ _ [] (quiet w)); [done|]. unfold mapErr.
    rewrite (bind_run _ _ _ _ _ Hrep). by rewrite evacuable_volumes. }
  erewrite bind_run by (apply mapErr_run, Hl). erewrite bind_run by done.
  erewrite bind_run by (unfold mapErr, cached; by rewrite readCall_quiet).
  destruct He as [He _]. unfold vi_Labels. fold (vmisOn w (node_Name n)).
  rewrite IdentifyNonMigratableVMS_none by (intros v c Hv; by apply He).
  rewrite (bind_run _ _ _ [] (quiet w)).
  { unfold mret, M_ret. by rewrite (left_id_L ∅ (∪)). }
  unfold mapErr at 1. erewrite bind_run by (unfold mapErr, cached; by rewrite readCall_quiet).
  rewrite unschedulable_none; [done|]. intros v Hv.
  destruct (mv_target _ _ _ (He v Hv)) as (m & Hin & Hne & Hr & Ha). exists m. split; [|done].
  apply filter_elem. split; [done|]. by rewrite (proj2 (String.eqb_neq _ _) Hne), Hr.
Qed.

(** [clearDrainRequest] of the live node removes the request, and nothing else of note. *)
Lemma clearDrainRequest_run w name o :
  st_objs (w_nodes w) !! name = Some o -> node_Name (o_val o) = name ->
  exists o' w', clearDrainRequest (Some o) (quiet w) = (Ok (Some o'), quiet w') /\
    st_objs (w_nodes w') !! name = Some o' /\ phaseOf (o_val o') = phaseOf (o_val o) /\
    node_Name (o_val o') = name /\ deleting (o_val o') = deleting (o_val o) /\
    HasDrainRequest (Some (o_val o')) = false /\
    w_cache w' = w_cache w /\ w_vms w' = w_vms w /\ w_now w' = w_now w.
Proof.
  intros Ho Hn. destruct o as [rv n]. simpl in Hn. unfold clearDrainRequest, ClearDrainRequest. simpl.
  destruct (node_Annotations n) as [a|] eqn:Ha; cycle 1.
  { eexists _, w. split_and!; [done|done|done|done|done| |done..]. simpl. by rewrite Ha. }
  assert (Hgone : forall k, gm_delete (gm_delete (Some a) DrainAnnotation) ForcedDrain = k ->
    negb (String.eqb (gm_str k DrainAnnotation) "") = false).
  { intros k <-. unfold gm_str. by rewrite gm_get_delete_ne, gm_get_delete_eq. }
  destruct (negb (Nat.eqb _ _)) eqn:Hb.
  - set (n' := node_set_Annotations (gm_delete (gm_delete (Some a) DrainAnnotation) ForcedDrain) n).
    eexists _, (storeNode name (mergeNode n n') w). split_and!.
    + unfold fmap, M_fmap, mapErr, nodes_Update. cbn [o_val].
      replace (node_Name n') with name by done.
      rewrite (nodes_write_run w name (mkObj rv n) Ho). done.
    + simpl. by rewrite lookup_insert_eq.
    + done.
    + done.
    + done.
    + by apply Hgone.
    + done.
    + done.
    + done.
  - eexists _, w. split_and!; [done|done|done|done|done| |done..].
    cbn [o_val HasDrainRequest]. rewrite Ha.
    apply negb_false_iff, Nat.eqb_eq in Hb. apply Hgone.
    change (gm_delete (gm_delete (Some a) DrainAnnotation) ForcedDrain) with
      (Some (delete ForcedDrain (delete DrainAnnotation a))). simpl in Hb. f_equal.
    assert (Hkeep : forall k (m : gmap string string), size (delete k m) = size m -> delete k m = m).
    { intros k m Hm. apply delete_id. rewrite map_size_delete in Hm.
      destruct (m !! k) eqn:E; [|done]. exfalso.
      assert (size m <> 0)%nat by (eapply map_size_ne_0_lookup_2; eauto). simpl in Hm. lia. }
    assert (size (delete DrainAnnotation a) = size a /\
            size (delete ForcedDrain (delete DrainAnnotation a)) = size (delete DrainAnnotation a))
      as [H1 H2].
    { assert (Hle : forall k (m : gmap string string), (size (delete k m) <= size m)%nat).
      { intros k m. apply map_subseteq_size, delete_subseteq. }
      pose proof (Hle ForcedDrain (delete DrainAnnotation a)). pose proof (Hle DrainAnnotation a).
      lia. }
    rewrite (Hkeep _ _ H2). by apply Hkeep.
Qed.
End Quiet.

(** ** A maintenance attempt that completes *)

Section Completes.
Context {LL : LabelLib} {MO : MapOrder} {NA : NodeAffinity} (D : DrainEnv).

(** The drain of a node that nothing keeps from draining succeeds, takes its instances away,
    and leaves the node there, not deleted and in its phase, and the VMs as they are. *)
Definition drain_succeeds : Prop :=
  forall n t w o, world_wf w -> st_objs (w_nodes w) !! node_Name n = Some o ->
    evacuable w (node_Name n) ->
    exists o' w', de_drainNode D n t (quiet w) = (Ok tt, quiet w') /\ world_wf w' /\
      st_objs (w_nodes w') !! node_Name n = Some o' /\ phaseOf (o_val o') = phaseOf (o_val o) /\
      deleting (o_val o') = deleting (o_val o) /\ vmisOn w' (node_Name n) = [] /\
      c_vms (w_cache w') = c_vms (w_cache w) /\ w_vms w' = w_vms w.

(** A node in some phase, with a request, that nothing keeps from draining. *)
Record candidate (w : World) (name : string) (p : Phase) (o : Obj Node) : Prop := {
  cd_wf : world_wf w;
  cd_node : st_objs (w_nodes w) !! name = Some o;
  cd_live : deleting (o_val o) = false;
  cd_phase : phaseOf (o_val o) = p;
  cd_request : HasDrainRequest (Some (o_val o)) = true;
  cd_evacuable : evacuable w name;
  cd_possible : (DrainPossible (o_val o) (quiet w)).1 = Ok tt;
  cd_label : validLabelValue name = true }.

Lemma cd_name w name p o : candidate w name p o -> node_Name (o_val o) = name.
Proof. intros []. by apply cd_wf0. Qed.

Lemma Set_meta now n st re msg :
  node_meta (SetMaintenanceModeCondition now n st re msg).1 = node_meta n.
Proof. unfold SetMaintenanceModeCondition. by destruct (setMaintenanceConds _ _ _ _ _). Qed.

(** The update of the condition keeps a candidate one, in the new phase. *)
Lemma candidate_Update w name p o st re msg :
  candidate w name p o ->
  exists o' w', UpdateMaintenanceModeCondition name st re msg (quiet w) = (Ok (Some o'), quiet w') /\
    candidate w' name (reasonPhase st re) o' /\ w_cache w' = w_cache w /\ w_vms w' = w_vms w /\
    w_now w' = w_now w /\
    o_val o' = (SetMaintenanceModeCondition (w_now w / second) (o_val o) st re msg).1.
Proof.
  intros Hc. pose proof (cd_name _ _ _ _ Hc) as Hn. destruct Hc.
  destruct (Update_run w name o cd_node0 Hn st re msg) as (o' & w' & Hr & Ho' & Hv & Hw').
  assert (node_meta (o_val o') = node_meta (o_val o)) as Hm by (rewrite Hv; apply Set_meta).
  assert (Hn' : node_Name (o_val o') = name) by (unfold node_Name; by rewrite Hm).
  assert (w_cache w' = w_cache w /\ w_vms w' = w_vms w /\ w_now w' = w_now w /\ world_wf w')
    as (Ec & Ev & Enow & Hwf).
  { destruct Hw' as [->| ->]; [done|]. split_and!; [done..|].
    eapply (evolves_wf (fun _ _ _ => True)); [done|]. apply evolves_storeNode; [done|].
    by apply rtc_once. }
  exists o', w'. split_and!; [done| |done..]. split; [done|done|..].
  - unfold deleting. by rewrite Hm.
  - rewrite Hv. apply phaseOf_Set.
  - unfold HasDrainRequest, node_Annotations. by rewrite Hm.
  - split; [intros v Hon|by rewrite Ec; apply cd_evacuable0].
    unfold vmisOn in Hon. rewrite Ec in Hon. destruct (proj1 cd_evacuable0 v Hon) as [? ? ?].
    split; [done|by rewrite Ec|done].
  - rewrite DrainPossible_run in *. cbn [fst] in *. rewrite Ec.
    unfold isControlPlane, availableNodes, node_Labels, node_Name in *. by rewrite Hm.
  - done.
Qed.

(** First reconcile: the request is taken up. *)
Lemma candidate_requested w name o :
  candidate w name PIdle o ->
  exists o' w', OnNodeChange D (Some o) (quiet w) = (Ok (Some o'), quiet w') /\
    candidate w' name PValidating o' /\ w_cache w' = w_cache w /\ w_vms w' = w_vms w /\
    w_now w' = w_now w.
Proof.
  intros Hc. pose proof (cd_name _ _ _ _ Hc) as Hn.
  destruct (candidate_Update w name PIdle o ConditionTrue NodeConditionReasonValidating
    MaintenanceModeMessageValidating Hc) as (o' & w' & Hr & Hc' & ? & ? & ? & _).
  exists o', w'. split_and!; [|done..]. unfold OnNodeChange. rewrite (cd_live _ _ _ _ Hc).
  pose proof (cd_phase _ _ _ _ Hc) as Hp. unfold phaseOf in Hp.
  destruct (GetMaintenanceModeCondition (Some (o_val o))) as [c|]; cycle 1.
  { rewrite (cd_request _ _ _ _ Hc). cbn [negb]. by rewrite Hn. }
  exfalso. revert Hp. unfold condPhase. repeat destruct (String.eqb _ _); simpl; done.
Qed.

(** The condition of a candidate that is validating or draining. *)
Lemma candidate_condition w name p re o :
  (p, re) ∈ [(PValidating, NodeConditionReasonValidating); (PDraining, NodeConditionReasonDraining)] ->
  candidate w name p o ->
  exists c, GetMaintenanceModeCondition (Some (o_val o)) = Some c /\ nc_Reason c = re.
Proof.
  intros Hin Hc. pose proof (cd_phase _ _ _ _ Hc) as Hp. unfold phaseOf, condPhase in Hp.
  destruct (GetMaintenanceModeCondition (Some (o_val o))) as [c|]; [|subst; set_solver].
  exists c. split; [done|].
  repeat match goal with
         | H : (if String.eqb ?a ?b then _ else _) = _ |- _ =>
             destruct (String.eqb_spec a b)
         | H : (if _ && _ then _ else _) = _ |- _ => destruct (_ && _)
         end; clear Hc; subst; set_unfold in Hin; destruct_or?; by simplify_eq.
Qed.

(** Second reconcile: the checks pass. *)
Lemma candidate_validated w name o :
  candidate w name PValidating o ->
  exists o' w', OnNodeChange D (Some o) (quiet w) = (Ok (Some o'), quiet w') /\
    candidate w' name PDraining o' /\ w_cache w' = w_cache w /\ w_vms w' = w_vms w /\
    w_now w' = w_now w /\
    exists c, GetMaintenanceModeCondition (Some (o_val o')) = Some c /\
      nc_LastTransitionTime c = w_now w / second.
Proof.
  intros Hc. pose proof (cd_name _ _ _ _ Hc) as Hn.
  destruct (candidate_Update w name PValidating o ConditionTrue NodeConditionReasonDraining
    MaintenanceModeMessageDraining Hc) as (o' & w' & Hr & Hc' & ? & ? & ? & Hv).
  destruct (candidate_condition w name PValidating NodeConditionReasonValidating o
    ltac:(set_solver) Hc) as (c & Hcc & Hre).
  exists o', w'. split_and!; [|done..|].
  - unfold OnNodeChange. rewrite (cd_live _ _ _ _ Hc), Hcc, Hre, (cd_request _ _ _ _ Hc).
    cbn [negb]. change (String.eqb NodeConditionReasonValidating NodeConditionReasonValidating)
      with true. cbn iota. unfold validate.
    assert (Hdp : DrainPossible (o_val o) (quiet w) = (Ok tt, quiet w)).
    { pose proof (cd_possible _ _ _ _ Hc) as Hok. rewrite DrainPossible_run in *.
      cbn [fst] in Hok. by rewrite Hok. }
    rewrite (bind_run _ _ _ _ _ (try_run _ _ _ _ Hdp)).
    pose proof (FindNonMigratableVMS_evacuable (o_val o) w) as Hf. rewrite Hn in Hf.
    rewrite (bind_run _ _ _ _ _ (mapErr_run _ _ _ _ _ (Hf (cd_evacuable _ _ _ _ Hc)))).
    rewrite map_size_empty, andb_false_r. by rewrite Hn.
  - rewrite Hv. unfold SetMaintenanceModeCondition, GetMaintenanceModeCondition in *. clear -Hcc Hre.
    revert Hcc. induction (node_Conditions (o_val o)) as [|c' cs IH]; simpl; [done|].
    destruct (String.eqb (nc_Type c') NodeConditionTypeMaintenanceMode) eqn:Et; simpl.
    + intros [= ->]. rewrite Hre.
      rewrite andb_false_r. simpl. rewrite Et. eexists. split; [done|]. simpl.
      by rewrite orb_true_r.
    + intros Hcc. destruct (IH Hcc) as (c2 & Hc2 & Ht).
      destruct (setMaintenanceConds _ _ _ _ cs) as [cs' b]. simpl in *. rewrite Et. eauto.
Qed.

(** The deadline of a drain that has just begun lies ahead. *)
Lemma deadline_ahead c now :
  1 <= de_timeoutMinutes D <= 153722867 -> nc_LastTransitionTime c = now / second ->
  now < drainDeadline D c.
Proof.
  intros Ht Hc. unfold drainDeadline. rewrite Hc, int64_id.
  - pose proof (Z.mod_pos_bound now second ltac:(done)).
    pose proof (Z.div_mod now second ltac:(done)). unfold minute in *.
    assert (second = 1000000000) by done. nia.
  - unfold minute, second. lia.
Qed.

Lemma shutdownList_nil : shutdownList [] ∅ = [].
Proof.
  unfold shutdownList, getUniqueVMSfromConditionMap. rewrite (left_id_L ∅ (∪)).
  assert (range (∅ : gmap string (list string)) = []) as ->; [|done].
  apply Permutation_nil_r. by rewrite range_perm, map_to_list_empty.
Qed.

Lemma listStrategyVMIs_none n w :
  validLabelValue (node_Name n) = true -> evacuable w (node_Name n) ->
  listVMILabelMaintainModeStrategy n (quiet w) = (Ok [], quiet w).
Proof.
  intros Hl [Hv _]. unfold listVMILabelMaintainModeStrategy, ListByNode. rewrite Hl. cbn [negb].
  apply mapErr_run. unfold cached. rewrite readCall_quiet. do 2 f_equal.
  match goal with |- ?f = [] => destruct f as [|v l] eqn:E; [done|] end. exfalso.
  assert (v ∈ v :: l) as Hin by by left. rewrite <- E, filter_elem in Hin.
  destruct Hin as [Hin [Hst Hlab]%andb_true_iff].
  assert (v ∈ vmisOn w (node_Name n)) as Hon by by apply filter_elem.
  pose proof (mv_strategy _ _ _ (Hv v Hon)) as Hno. unfold vi_Labels in Hno. congruence.
Qed.

Lemma Set_DrainComplete now n msg :
  IsMaintenanceModeDrainComplete (GetMaintenanceModeCondition
    (Some (SetMaintenanceModeCondition now n ConditionTrue NodeConditionReasonEvacuating msg).1))
  = true.
Proof.
  unfold SetMaintenanceModeCondition. destruct (setMaintenanceConds _ _ _ _ _) as [cs b] eqn:E.
  apply setMaintenanceConds_find in E as (c & Hc & Hs & Hr & _).
  unfold IsMaintenanceModeDrainComplete, IsMaintenanceModeCondition, GetMaintenanceModeCondition.
  simpl. rewrite Hc, Hs, Hr. done.
Qed.

(** The hand-over to the maintenance controller, from the live node. *)
Lemma handover_run w name o :
  world_wf w -> st_objs (w_nodes w) !! name = Some o -> phaseOf (o_val o) = PDraining ->
  exists o' w',
    (updated ← TransitionMaintenanceModeCondition name
       ConditionTrue NodeConditionReasonDraining
       ConditionTrue NodeConditionReasonEvacuating MaintenanceModeMessageEvacuating;
     if negb (IsMaintenanceModeDrainComplete (GetMaintenanceModeCondition (optNode updated)))
     then mret updated else clearDrainRequest updated) (quiet w) = (Ok (Some o'), quiet w') /\
    world_wf w' /\ st_objs (w_nodes w') !! name = Some o' /\ phaseOf (o_val o') = PEvacuating /\
    deleting (o_val o') = deleting (o_val o) /\ HasDrainRequest (Some (o_val o')) = false /\
    w_cache w' = w_cache w /\ w_vms w' = w_vms w.
Proof.
  intros Hw Ho Hp. assert (node_Name (o_val o) = name) as Hn by by apply Hw.
  set (n2 := (SetMaintenanceModeCondition (w_now w / second) (o_val o) ConditionTrue
               NodeConditionReasonEvacuating MaintenanceModeMessageEvacuating).1).
  set (w2 := storeNode name n2 w). set (o2 := mkObj (st_rv (w_nodes w) + 1) n2).
  assert (Ho2 : st_objs (w_nodes w2) !! name = Some o2) by apply lookup_insert_eq.
  assert (Hn2 : node_Name (o_val o2) = name) by (unfold o2, n2; cbn [o_val]; by rewrite Set_Name).
  assert (Hw2 : world_wf w2).
  { eapply (evolves_wf (fun _ _ _ => True)); [exact Hw|]. apply evolves_storeNode; [done|].
    by apply rtc_once. }
  destruct (clearDrainRequest_run w2 name o2 Ho2 Hn2)
    as (o3 & w3 & Hr3 & Ho3 & Hp3 & Hn3 & Hd3 & Hq3 & Ec3 & Ev3 & _).
  exists o3, w3. split_and!; [| |done| | |done|done|done].
  - rewrite (bind_run _ _ _ _ _ (Transition_run w name o Ho Hn ConditionTrue
      NodeConditionReasonDraining ConditionTrue NodeConditionReasonEvacuating
      MaintenanceModeMessageEvacuating
      (phase_IsMaintenanceModePhase _ PDraining NodeConditionReasonDraining ltac:(set_solver) Hp))).
    fold n2 w2 o2. replace (IsMaintenanceModeDrainComplete _) with true; [done|].
    symmetry. apply Set_DrainComplete.
  - pose proof (within_clearDrainRequest (fun _ _ _ => True) (Some o2) (quiet w2)
      (quiet_relies _ _)) as [H _]. rewrite Hr3 in H. by apply H.
  - rewrite Hp3. apply phaseOf_Set.
  - rewrite Hd3. unfold deleting, o2, n2. cbn [o_val]. by rewrite Set_meta.
Qed.

(** Third reconcile: the drain and the hand-over. *)
Lemma candidate_drained w name o c :
  drain_succeeds -> 0 <= de_timeoutMinutes D <= 153722867 ->
  candidate w name PDraining o ->
  GetMaintenanceModeCondition (Some (o_val o)) = Some c -> nc_LastTransitionTime c = w_now w / second ->
  exists o' w', OnNodeChange D (Some o) (quiet w) = (Ok (Some o'), quiet w') /\
    world_wf w' /\ st_objs (w_nodes w') !! name = Some o' /\ phaseOf (o_val o') = PEvacuating /\
    deleting (o_val o') = false /\ HasDrainRequest (Some (o_val o')) = false /\
    vmisOn w' name = [] /\ c_vms (w_cache w') = c_vms (w_cache w) /\ w_vms w' = w_vms w.
Proof.
  intros Hds Ht Hc Hcc Hlt. pose proof (cd_name _ _ _ _ Hc) as Hn.
  destruct (candidate_condition w name PDraining NodeConditionReasonDraining o
    ltac:(set_solver) Hc) as (c' & Hcc' & Hre). rewrite Hcc in Hcc'. injection Hcc' as <-.
  set (t := if 0 <? de_timeoutMinutes D then timeSub (drainDeadline D c) (w_now w) else 0).
  destruct (Hds (o_val o) t w o (cd_wf _ _ _ _ Hc) ltac:(rewrite Hn; apply (cd_node _ _ _ _ Hc))
    ltac:(rewrite Hn; apply (cd_evacuable _ _ _ _ Hc)))
    as (o1 & w1 & Hrun & Hw1 & Ho1 & Hp1 & Hd1 & Hon1 & Ec1 & Ev1).
  rewrite Hn in Ho1, Hon1. rewrite (cd_phase _ _ _ _ Hc) in Hp1. rewrite (cd_live _ _ _ _ Hc) in Hd1.
  destruct (handover_run w1 name o1 Hw1 Ho1 Hp1)
    as (o3 & w3 & Hr & Hw3 & Ho3 & Hp3 & Hd3 & Hq3 & Ec3 & Ev3).
  exists o3, w3. split_and!; [|done|done|done|congruence|done|..|congruence].
  2: { unfold vmisOn in *. by rewrite Ec3. }
  2: { by rewrite Ec3. }
  unfold OnNodeChange. rewrite (cd_live _ _ _ _ Hc), Hcc, Hre.
  change (String.eqb NodeConditionReasonDraining NodeConditionReasonValidating) with false.
  change (String.eqb NodeConditionReasonDraining NodeConditionReasonDraining) with true.
  cbn iota zeta. unfold drain. erewrite bind_run by done. cbn [quiet sys_world].
  replace ((0 <? de_timeoutMinutes D) && negb (w_now w <? drainDeadline D c)) with false.
  2: { symmetry. destruct (Z.ltb_spec 0 (de_timeoutMinutes D)); [|done].
       pose proof (deadline_ahead c (w_now w) ltac:(lia) Hlt) as Ha.
       by rewrite (proj2 (Z.ltb_lt _ _) Ha). }
  rewrite (bind_run _ _ _ ∅ (quiet w)); cycle 1.
  { destruct (IsForcedDrainRequested _); [|done]. apply mapErr_run.
    apply FindNonMigratableVMS_evacuable. rewrite Hn. apply (cd_evacuable _ _ _ _ Hc). }
  rewrite (bind_run _ _ _ [] (quiet w)); cycle 1.
  { apply mapErr_run, listStrategyVMIs_none; rewrite Hn.
    - apply (cd_label _ _ _ _ Hc).
    - apply (cd_evacuable _ _ _ _ Hc). }
  erewrite bind_run by done. rewrite shutdownList_nil. erewrite bind_run by done.
  unfold runDrain. erewrite bind_run by done. cbn [quiet sys_world]. fold t.
  rewrite (bind_run _ _ _ _ _ (try_run _ _ _ _ Hrun)), Hn. exact Hr.
Qed.
(** One reconcile of the live node by either controller. *)
Definition drainStep (name : string) (w : World) : World :=
  match st_objs (w_nodes w) !! name with
  | Some o => sys_world (OnNodeChange D (Some o) (quiet w)).2
  | None => w
  end.
Definition maintainStep (name : string) (w : World) : World :=
  match st_objs (w_nodes w) !! name with
  | Some o => sys_world (OnNodeChanged (Some o) (quiet w)).2
  | None => w
  end.

Lemma drainStep_run name w o r w' :
  st_objs (w_nodes w) !! name = Some o ->
  OnNodeChange D (Some o) (quiet w) = (r, quiet w') -> drainStep name w = w'.
Proof. intros Ho Hr. unfold drainStep. by rewrite Ho, Hr. Qed.
End Completes.

(** C18: A request is carried to its end.  Take a node, with a request and no maintenance
    condition yet, that nothing keeps from draining: the control plane allows it; each VM
    instance on it does not say that it cannot migrate, is accepted by another node that is
    ready, and is not to be shut down by its strategy; and no volume has its only started
    replica there.  When the drain of such a node succeeds and takes its instances away, no
    call fails, nobody interferes and the VM cache is up to date, three reconciles of the
    drain controller and one of the maintenance controller complete the maintenance, with
    the request gone, for any setting of the timeout from zero to 153722867 minutes, the
    largest a Duration holds. *)
Theorem maintenance_completes `{LabelLib} `{MapOrder} `{NodeAffinity} D w name o :
  drain_succeeds D -> 0 <= de_timeoutMinutes D <= 153722867 ->
  candidate w name PIdle o -> freshVMs w ->
  (forall k o, st_objs (w_vms w) !! k = Some o -> hasRunStrategy (o_val o)) ->
  let w3 := Nat.iter 3 (drainStep D name) w in
  phaseAt w3 name = PEvacuating /\
  (exists o', st_objs (w_nodes w3) !! name = Some o' /\ HasDrainRequest (Some (o_val o')) = false) /\
  phaseAt (maintainStep name w3) name = PCompleted.
Proof.
  intros Hds Ht Hc Hf Hrs. simpl.
  destruct (candidate_requested D w name o Hc) as (o1 & w1 & Hr1 & Hc1 & Ec1 & Ev1 & Hnow1).
  destruct (candidate_validated D w1 name o1 Hc1)
    as (o2 & w2 & Hr2 & Hc2 & Ec2 & Ev2 & Hnow2 & c & Hcc & Hlt).
  rewrite <- Hnow2 in Hlt.
  destruct (candidate_drained D w2 name o2 c Hds Ht Hc2 Hcc Hlt)
    as (o3 & w3 & Hr3 & Hw3 & Ho3 & Hp3 & Hd3 & Hq3 & Hon3 & Ec3 & Ev3).
  rewrite (drainStep_run D name w o _ w1 (cd_node _ _ _ _ Hc) Hr1).
  rewrite (drainStep_run D name w1 o1 _ w2 (cd_node _ _ _ _ Hc1) Hr2).
  rewrite (drainStep_run D name w2 o2 _ w3 (cd_node _ _ _ _ Hc2) Hr3).
  split_and!; [unfold phaseAt; by rewrite Ho3|by eauto|].
  destruct (OnNodeChanged_run w3 name o3 Hw3) as (r & w4 & Hr4 & Hp4 & _).
  - unfold freshVMs. by rewrite Ec3, Ec2, Ec1, Ev3, Ev2, Ev1.
  - by rewrite Ev3, Ev2, Ev1.
  - apply (cd_label _ _ _ _ Hc).
  - done.
  - done.
  - done.
  - done.
  - unfold maintainStep. by rewrite Ho3, Hr4.
Qed.

(** A drain that cordons the node and after which its instances run elsewhere. *)
Definition moveAway (n : Node) : M (Sys World) unit := fun s =>
  let w := sys_world s in
  let c := w_cache w in
  (Ok tt, mkSys (mkWorld (w_nodes w) (w_vms w)
     (mkCaches (c_nodes c) (c_vms c)
        (List.filter (fun v => negb (hasLabel LabelNodeNameKey (node_Name n) (om_Labels (vi_meta v))))
           (c_vmis c)) (c_replicas c) (c_volumes c)) (w_now w) (w_enqueued w)) (sys_turns s)).
Definition evict (n : Node) (t : Z) : M (Sys World) unit := cordon n t;; moveAway n.

Definition evictEnv : DrainEnv := mkDrainEnv 15 evict false.

Lemma evictEnv_succeeds `{NodeAffinity} : drain_succeeds evictEnv.
Proof.
  intros n t w o Hw Ho _. set (n' := node_set_Unschedulable true (o_val o)).
  assert (node_Name (o_val o) = node_Name n) as Hn by by apply Hw.
  set (w1 := storeNode (node_Name n) (mergeNode (o_val o) n') w).
  assert (Hw1 : world_wf w1).
  { eapply (evolves_wf (fun _ _ _ => True)); [exact Hw|]. apply evolves_storeNode; [done|].
    by apply rtc_once. }
  eexists (mkObj _ (mergeNode (o_val o) n')), _. split_and!.
  - simpl. unfold evict. rewrite (bind_run _ _ _ tt (quiet w1)); [reflexivity|].
    unfold cordon. rewrite (bind_run _ _ _ _ _ (nodes_Get_run w _ o Ho)).
    fold n'. unfold nodes_Update. cbn [o_val]. replace (node_Name n') with (node_Name n) by done.
    by rewrite (bind_run _ _ _ _ _ (nodes_write_run w _ o Ho mergeNode n')).
  - exact Hw1.
  - apply lookup_insert_eq.
  - done.
  - done.
  - unfold vmisOn. cbn [w_cache c_vmis quiet sys_world]. clear. induction (c_vmis _) as [|v l IH]; [done|].
    simpl. destruct (hasLabel _ _ _) eqn:E; simpl; [done|]. by rewrite E.
  - done.
  - done.
Qed.

(** The three nodes, with an instance on the first that must stay on a control plane, and a
    volume with replicas on two of them. *)
Definition busyNodes : World :=
  let w := demoWorld [cpNode "a" true; cpNode "b" false; cpNode "c" false] []
    [mkVMInst (mkMeta "vm" "" "default" "" (Some {[ LabelNodeNameKey := "a" ]}) None [] 0 None)
       (Some {[ KubeControlPlaneNodeLabelKey := "true" ]}) None
       [mkCond VirtualMachineInstanceIsMigratable ConditionTrue "" "" ""]] in
  let c := w_cache w in
  mkWorld (w_nodes w) (w_vms w)
    (mkCaches (c_nodes c) (c_vms c) (c_vmis c)
       [mkReplica "disk" "a" true; mkReplica "disk" "b" true; mkReplica "old" "a" false] [])
    (w_now w) (w_enqueued w).

Lemma busyNodes_evacuable :
  evacuable (NA := Demo.demoAffinity) busyNodes "a".
Proof.
  split.
  - intros v Hv. vm_compute in Hv. apply list_elem_of_singleton in Hv as ->. split.
    + intros c Hc. apply list_elem_of_singleton in Hc as ->. reflexivity.
    + exists (cpNode "b" false). split_and!; [by right; left|done|by vm_compute|].
      split; [done|]. intros sel [= <-]. by vm_compute.
    + by vm_compute.
  - intros volume r. destruct (String.eqb_spec "disk" volume) as [<-|Hne]; [done|].
    cbn [busyNodes w_cache c_replicas List.filter r_VolumeName r_Started].
    apply String.eqb_neq in Hne. by rewrite Hne, andb_false_r.
Qed.

Lemma maintenance_completes_witness :
  let w3 := Nat.iter 3 (drainStep (LL := Demo.demoLabels) (MO := Demo.demoRange)
              (NA := Demo.demoAffinity) evictEnv "a") busyNodes in
  vmisOn busyNodes "a" <> [] /\
  phaseAt w3 "a" = PEvacuating /\
  phaseAt (maintainStep (LL := Demo.demoLabels) "a" w3) "a" = PCompleted.
Proof.
  destruct (maintenance_completes (H := Demo.demoLabels) (H0 := Demo.demoRange)
    (H1 := Demo.demoAffinity) evictEnv busyNodes "a" (mkObj 1 (cpNode "a" true)))
    as (H1 & _ & H2); [apply evictEnv_succeeds|done| | | |by split_and!].
  - split; [apply world_wfb_ok; by vm_compute|by vm_compute|by vm_compute|by vm_compute|
      by vm_compute|exact busyNodes_evacuable|by vm_compute|by vm_compute].
  - apply freshVMsb_ok. by vm_compute.
  - apply demo_hasRunStrategy. by vm_compute.
Defined.

(** ** Behaviour at the edges *)

(** The validation stage writes over whatever phase it finds.  When a reconcile still sees
    the node as validating although its check has failed meanwhile and the request has been
    cleaned up, and the checks now pass, the node is drained all the same: the update is not
    guarded by the source phase as the later stages' transitions are. *)
Theorem stale_validation_overwrites `{LabelLib} `{MapOrder} `{NodeAffinity} D w name o live c :
  world_wf w -> st_objs (w_nodes w) !! name = Some live ->
  node_Name (o_val o) = name -> deleting (o_val o) = false ->
  GetMaintenanceModeCondition (Some (o_val o)) = Some c ->
  nc_Reason c = NodeConditionReasonValidating ->
  HasDrainRequest (Some (o_val o)) = true -> evacuable w name ->
  (DrainPossible (o_val o) (quiet w)).1 = Ok tt ->
  phaseAt (sys_world (OnNodeChange D (Some o) (quiet w)).2) name = PDraining.
Proof.
  intros Hw Hl Hn Hd Hc Hr Hq Hv Hp. unfold OnNodeChange. rewrite Hd, Hc, Hr, Hq.
  change (String.eqb NodeConditionReasonValidating NodeConditionReasonValidating) with true.
  cbn [negb]. cbn iota zeta. unfold validate.
  assert (Hdp : DrainPossible (o_val o) (quiet w) = (Ok tt, quiet w)).
  { rewrite DrainPossible_run in *. cbn [fst] in Hp. by rewrite Hp. }
  rewrite (bind_run _ _ _ _ _ (try_run _ _ _ _ Hdp)).
  rewrite <- Hn in Hv.
  rewrite (bind_run _ _ _ _ _ (mapErr_run _ _ _ _ _ (FindNonMigratableVMS_evacuable _ _ Hv))).
  rewrite map_size_empty, andb_false_r, Hn.
  destruct (Update_run w name live Hl ltac:(by apply Hw) ConditionTrue NodeConditionReasonDraining
    MaintenanceModeMessageDraining) as (o' & w' & -> & Ho' & Hv' & _).
  cbn [fst snd quiet sys_world]. unfold phaseAt. rewrite Ho', Hv'. apply phaseOf_Set.
Qed.

(** The live node: its pre-check has failed and its request is gone. *)
Definition refusedNode : Node :=
  (SetMaintenanceModeCondition 0 (cpNode "a" false) ConditionFalse NodeConditionReasonError "busy").1.
Definition staleNode : Node :=
  (SetMaintenanceModeCondition 0 (cpNode "a" true) ConditionTrue NodeConditionReasonValidating "").1.
Definition refusedWorld : World :=
  demoWorld [refusedNode; cpNode "b" false; cpNode "c" false] [] [].

Lemma stale_validation_overwrites_witness :
  phaseAt refusedWorld "a" = PPreError /\ HasDrainRequest (Some refusedNode) = false /\
  phaseAt (sys_world (OnNodeChange (LL := Demo.demoLabels) (MO := Demo.demoRange)
    (NA := Demo.demoAffinity) demoEnv (Some (mkObj 1 staleNode)) (quiet refusedWorld)).2) "a"
  = PDraining.
Proof.
  split; [by vm_compute|]. split; [by vm_compute|].
  eapply (stale_validation_overwrites (H := Demo.demoLabels) (H0 := Demo.demoRange)
    (H1 := Demo.demoAffinity) demoEnv refusedWorld "a" (mkObj 1 staleNode) (mkObj 1 refusedNode));
    [apply world_wfb_ok; by vm_compute|by vm_compute|by vm_compute|by vm_compute|
     by vm_compute|by vm_compute|by vm_compute| |by vm_compute].
  split; [|done]. intros v Hv. vm_compute in Hv. by apply elem_of_nil in Hv.
Defined.

Lemma splitNamespacedName_slashed ns name :
  hasByte "/"%char ns = false -> hasByte "/"%char name = false ->
  splitNamespacedName (slashed ns name) = Ok (ns, name).
Proof.
  intros H1 H2. unfold splitNamespacedName, slashed. by rewrite Split_app, Split_none.
Qed.

(** A VM that is to be stopped and no longer exists stops the drain instead: the lookup
    error is wrapped as text, so the test for NotFound that should skip it never holds. *)
Theorem missing_vm_blocks_drain ns name vs w :
  hasByte "/"%char ns = false -> hasByte "/"%char name = false ->
  (forall o, o ∈ c_vms (w_cache w) -> vmKey (o_val o) <> (ns, name)) ->
  exists e, stopVMs (slashed ns name :: vs) (quiet w) = (Err e, quiet w) /\
    e = ErrText "error fetching vm during findAndStopVM: not found".
Proof.
  intros H1 H2 Hno. cbn [stopVMs]. unfold findAndStopVM.
  assert (Hg : vmCache_Get (ns, name) (quiet w) = (Err (ApiNotFound "not found"), quiet w)).
  { unfold vmCache_Get, cached. rewrite readCall_quiet.
    destruct (List.find _ _) as [o|] eqn:E; [|done]. exfalso.
    apply List.find_some in E as [Hin Hk]. boolify. by apply (Hno o); [apply list_elem_of_In|]. }
  eexists. split; [|reflexivity]. unfold mbind at 1, M_bind at 1, try at 1.
  rewrite (bind_run _ _ _ (ns, name) (quiet w));
    [|unfold lift; by rewrite splitNamespacedName_slashed].
  cbn iota beta. unfold mbind at 1, M_bind at 1, mapErr at 1. by rewrite Hg.
Qed.

Lemma missing_vm_blocks_drain_witness :
  exists e, stopVMs [slashed "default" "gone"] (quiet threeNodes) = (Err e, quiet threeNodes) /\
    IsNotFound e = false.
Proof.
  destruct (missing_vm_blocks_drain "default" "gone" [] threeNodes) as (e & He & ->);
    [done|done|by intros o ?%elem_of_nil|]. by eexists.
Defined.

(** C36: The deadline is exact for timeouts of up to 153722867 minutes.  One minute more, which
    the setting accepts, makes the product of the Duration wrap around: the deadline is then
    some 292 years in the past, and every drain fails at once with a timeout. *)
Theorem drain_deadline_bounds `{LabelLib} `{MapOrder} `{NodeAffinity} D c :
  (0 <= de_timeoutMinutes D <= 153722867 ->
   drainDeadline D c = nc_LastTransitionTime c * second + de_timeoutMinutes D * minute) /\
  (de_timeoutMinutes D = 153722868 ->
   drainDeadline D c < nc_LastTransitionTime c * second - 290 * 365 * 24 * 60 * minute /\
   forall o w, nc_LastTransitionTime c * second <= w_now w ->
     drain D o c (quiet w) =
     failDrainTimeout o 153722868 contextDeadlineExceeded (quiet w)).
Proof.
  split.
  - intros Ht. unfold drainDeadline. rewrite int64_id; [done|]. unfold minute, second. lia.
  - intros Ht.
    assert (drainDeadline D c < nc_LastTransitionTime c * second - 290 * 365 * 24 * 60 * minute) as Hd.
    { unfold drainDeadline. rewrite Ht.
      assert (int64 (153722868 * minute) < - 290 * 365 * 24 * 60 * minute) by by vm_compute. lia. }
    split; [done|]. intros o w Hw. unfold drain. erewrite bind_run by done. cbn [quiet sys_world].
    rewrite Ht. cbn [Z.ltb Z.compare]. simpl (_ && _).
    assert (0 <= minute) by done.
    rewrite (proj2 (Z.ltb_ge _ _)) by lia. done.
Qed.

(** ** Stopping and restarting a VM *)

Definition refreshVMs (w : World) : World :=
  let c := w_cache w in
  mkWorld (w_nodes w) (w_vms w)
    (mkCaches (c_nodes c) (map snd (map_to_list (st_objs (w_vms w)))) (c_vmis c) (c_replicas c)
       (c_volumes c)) (w_now w) (w_enqueued w).

Lemma freshVMs_refresh w : world_wf w -> freshVMs (refreshVMs w).
Proof.
  intros Hw. unfold freshVMs. simpl. split_and!.
  - assert (map (fun o : Obj VM => vmKey (o_val o)) (map snd (map_to_list (st_objs (w_vms w))))
      = map fst (map_to_list (st_objs (w_vms w)))) as ->; [|apply NoDup_fst_map_to_list].
    rewrite map_map. apply map_ext_in. intros [k o] Hin%list_elem_of_In%elem_of_map_to_list.
    by apply Hw.
  - intros o Ho. rewrite list_elem_of_In, in_map_iff in Ho.
    destruct Ho as ([k o'] & <- & Hin%list_elem_of_In%elem_of_map_to_list). simpl.
    assert (vmKey (o_val o') = k) as -> by by apply Hw. done.
  - intros k o Ho. apply list_elem_of_In, in_map_iff. exists (k, o). split; [done|].
    by apply list_elem_of_In, elem_of_map_to_list.
Qed.

Lemma vmCache_fresh w k o :
  freshVMs w -> st_objs (w_vms w) !! k = Some o -> vmKey (o_val o) = k ->
  vmCache_Get k (quiet w) = (Ok o, quiet w).
Proof.
  intros (Hnd & Hin & Hall) Ho Hk. unfold vmCache_Get, cached. rewrite readCall_quiet.
  destruct (List.find _ _) as [o'|] eqn:E.
  - apply List.find_some in E as [Hin' Hk']. boolify. apply list_elem_of_In, Hin in Hin'.
    rewrite Hk', Ho in Hin'. by injection Hin' as ->.
  - exfalso. eapply List.find_none in E; [|apply list_elem_of_In; eapply Hall; exact Ho].
    by rewrite bool_decide_eq_true_2 in E.
Qed.

Lemma storeVM_wf k vm w : world_wf w -> vmKey vm = k -> world_wf (storeVM k vm w).
Proof.
  intros Hw Hk. eapply (evolves_wf (fun _ _ _ => True)); [exact Hw|]. by apply evolves_storeVM.
Qed.

Section StopRestart.
Context (ns name : string).
Hypothesis Hns : hasByte "/"%char ns = false.
Hypothesis Hnm : hasByte "/"%char name = false.

(** What the two writes of the drain make of a VM. *)
Definition tracked (nodeName : string) (vm : VM) : VM :=
  vm_set_annotations (gm_set (vm_Annotations vm) AnnotationMaintainModeStrategyNodeName nodeName) vm.
Definition halted (vm : VM) : VM := vm_set_RunStrategy (Some RunStrategyHalted) vm.

Lemma annotateVM_run node w o :
  freshVMs w -> st_objs (w_vms w) !! (ns, name) = Some o -> vmKey (o_val o) = (ns, name) ->
  shutDownFor (node_Name node) (o_val o) = false ->
  annotateVM node ns name (quiet w) =
  (Ok tt, quiet (storeVM (ns, name) (tracked (node_Name node) (o_val o)) w)).
Proof using.
  intros Hf Ho Hk Hs. unfold annotateVM.
  rewrite (bind_run _ _ _ _ _ (try_run _ _ _ _ (vmCache_fresh w (ns, name) o Hf Ho Hk))).
  rewrite Hs. cbn [negb]. fold (tracked (node_Name node) (o_val o)).
  by rewrite (bind_run _ _ _ _ _ (vms_Update_run w (ns, name) o Ho (tracked _ _) Hk)).
Qed.

(** The stop, with the VM the cache shows. *)
Lemma findAndStopVM_cached w o rs :
  vmCache_Get (ns, name) (quiet w) = (Ok o, quiet w) ->
  RunStrategy (o_val o) = Ok rs -> rs <> RunStrategyHalted ->
  findAndStopVM (slashed ns name) (quiet w) =
  (mapErr (textErr ("error updating run strategy for vm " +:+ om_Name (vm_meta (o_val o))
                    +:+ " in namespace " +:+ om_Namespace (vm_meta (o_val o))))
     (vms_Update (mkObj (o_rv o) (halted (o_val o))));; mret tt) (quiet w).
Proof using Hns Hnm.
  intros Hc Hr Hne. unfold findAndStopVM.
  rewrite (bind_run _ _ _ (ns, name) (quiet w)); cycle 1.
  { unfold lift. by rewrite splitNamespacedName_slashed. }
  cbn iota beta. rewrite (bind_run _ _ _ _ _ (mapErr_run _ _ _ _ _ Hc)).
  rewrite (bind_run _ _ _ rs (quiet w)) by (unfold lift; by rewrite Hr).
  destruct (String.eqb_spec rs RunStrategyHalted); [done|]. done.
Qed.

Lemma findAndStopVM_run w o rs :
  freshVMs w -> st_objs (w_vms w) !! (ns, name) = Some o -> vmKey (o_val o) = (ns, name) ->
  RunStrategy (o_val o) = Ok rs -> rs <> RunStrategyHalted ->
  findAndStopVM (slashed ns name) (quiet w) = (Ok tt, quiet (storeVM (ns, name) (halted (o_val o)) w)).
Proof using Hns Hnm.
  intros Hf Ho Hk Hr Hne.
  rewrite (findAndStopVM_cached w o rs (vmCache_fresh w _ o Hf Ho Hk) Hr Hne).
  by rewrite (bind_run _ _ _ _ _ (mapErr_run _ _ _ _ _ (vms_Update_run w _ o Ho (halted (o_val o)) Hk))).
Qed.

(** With a cache that shows an older version, nothing is written. *)
Lemma findAndStopVM_stale w o live rs :
  vmCache_Get (ns, name) (quiet w) = (Ok o, quiet w) -> vmKey (o_val o) = (ns, name) ->
  st_objs (w_vms w) !! (ns, name) = Some live -> o_rv o <> o_rv live ->
  RunStrategy (o_val o) = Ok rs -> rs <> RunStrategyHalted ->
  (findAndStopVM (slashed ns name) (quiet w)).2 = quiet w.
Proof using Hns Hnm.
  intros Hc Hk Hl Hrv Hr Hne. rewrite (findAndStopVM_cached w o rs Hc Hr Hne).
  unfold mbind, M_bind, mapErr, vms_Update, apiUpdate. rewrite call_quiet. unfold store_write.
  cbn [o_val o_rv]. change (vmKey (halted (o_val o))) with (vmKey (o_val o)). rewrite Hk.
  cbn [the_store World_vms]. rewrite Hl. destruct (Z.eqb_spec (o_rv live) (o_rv o)); [congruence|].
  simpl. by destruct w.
Qed.

(** The run strategy a halted VM is started with: the one on record, by default
    RerunOnFailure. *)
Definition recordedStrategy (vm : VM) : string :=
  let rs := gm_str (vm_Annotations vm) AnnotationRunStrategy in
  if String.eqb rs "" then RunStrategyRerunOnFailure else rs.

(** The VM with that strategy, and a map of annotations where it had none. *)
Definition resumed (vm : VM) : VM :=
  vm_set_RunStrategy (Some (recordedStrategy vm))
    (vm_set_annotations (Some (default ∅ (vm_Annotations vm))) vm).

Lemma resumed_same vm :
  vm_Annotations vm <> None -> vm_RunStrategy vm = Some (recordedStrategy vm) -> resumed vm = vm.
Proof using.
  unfold resumed. intros Ha <-. destruct vm as [[] ps r st t]. unfold vm_Annotations in *. simpl in *.
  by destruct om_Annotations.
Qed.

(** Restarting undoes tracking and halting, up to the run strategy on record. *)
Lemma restarted_halted nodeName vm :
  gm_get (vm_Annotations vm) AnnotationMaintainModeStrategyNodeName = None ->
  vm_Running vm = None ->
  restarted (halted (tracked nodeName vm)) = Ok (resumed vm) /\
  shutDownFor nodeName (halted (tracked nodeName vm)) = true.
Proof using.
  intros Htr Hrun. split.
  - set (vm' := vm_set_annotations (gm_delete (vm_Annotations (halted (tracked nodeName vm)))
                  AnnotationMaintainModeStrategyNodeName) (halted (tracked nodeName vm))).
    assert (Ha : vm_Annotations vm' = Some (default ∅ (vm_Annotations vm))).
    { change (vm_Annotations vm') with (gm_delete (gm_set (vm_Annotations vm)
        AnnotationMaintainModeStrategyNodeName nodeName) AnnotationMaintainModeStrategyNodeName).
      destruct (vm_Annotations vm) as [a|]; simpl in *; f_equal; by rewrite delete_insert_id. }
    assert (Hr : RunStrategy vm' = Ok RunStrategyHalted) by (unfold RunStrategy; simpl; by rewrite Hrun).
    unfold restarted. fold vm'. cbv zeta. rewrite Hr, Ha.
    change (String.eqb RunStrategyHalted RunStrategyHalted) with true. cbn [mbind outcome_bind]. f_equal.
    unfold resumed, recordedStrategy, gm_str.
    replace (gm_get (Some (default ∅ (vm_Annotations vm))) AnnotationRunStrategy)
      with (gm_get (vm_Annotations vm) AnnotationRunStrategy) by (by destruct (vm_Annotations vm)).
    unfold vm_set_RunStrategy, vm_set_annotations. f_equal. rewrite <- Ha.
    destruct vm as [[] ? ? ? ?]. reflexivity.
  - unfold shutDownFor. change (vm_Annotations (halted (tracked nodeName vm)))
      with (gm_set (vm_Annotations vm) AnnotationMaintainModeStrategyNodeName nodeName).
    unfold gm_str. rewrite gm_get_set_eq. simpl. rewrite String.eqb_refl.
    by destruct (vm_Annotations vm).
Qed.
End StopRestart.

(** C35: A VM that the drain stops comes back.  Take a VM with a maintenance strategy and a run
    strategy other than Halted (the older running field unset), that no node has stopped
    yet.  Without failures or interference the drain annotates it with the node and halts
    it; with the cache still showing the VM as it was before the annotation, the halt fails
    on a conflict and changes nothing, to be tried again.  When the node reaches the point
    the strategy waits for, the VM runs with the strategy that its run-strategy annotation
    has on record, RerunOnFailure when there is none, and is otherwise what it was; when the
    record is the strategy it had, it is exactly the VM from before. *)
Theorem vm_maintenance_roundtrip node strategy ns name w o rs :
  world_wf w -> freshVMs w ->
  (forall k o, st_objs (w_vms w) !! k = Some o -> hasRunStrategy (o_val o)) ->
  hasByte "/"%char ns = false -> hasByte "/"%char name = false ->
  st_objs (w_vms w) !! (ns, name) = Some o ->
  gm_get (vm_Annotations (o_val o)) AnnotationMaintainModeStrategyNodeName = None ->
  vm_Running (o_val o) = None -> vm_RunStrategy (o_val o) = Some rs -> rs <> RunStrategyHalted ->
  hasLabel LabelMaintainModeStrategy strategy (vm_Labels (o_val o)) = true ->
  node_Name node <> "" ->
  exists w1 w2 w3 o2,
    annotateVM node ns name (quiet w) = (Ok tt, quiet w1) /\
    (findAndStopVM (slashed ns name) (quiet w1)).2 = quiet w1 /\
    findAndStopVM (slashed ns name) (quiet (refreshVMs w1)) = (Ok tt, quiet w2) /\
    st_objs (w_vms w2) !! (ns, name) = Some o2 /\
    RunStrategy (o_val o2) = Ok RunStrategyHalted /\ shutDownFor (node_Name node) (o_val o2) = true /\
    RestartMaintenanceModeVMsOnNode (node_Name node) strategy (quiet (refreshVMs w2))
      = (Ok tt, quiet w3) /\
    o_val <$> st_objs (w_vms w3) !! (ns, name) = Some (resumed (o_val o)) /\
    (vm_Annotations (o_val o) <> None -> recordedStrategy (o_val o) = rs -> resumed (o_val o) = o_val o).
Proof.
  intros Hw Hf Hall Hns Hnm Ho Htr Hrun Hstr Hnh Hlab Hnn.
  set (nn := node_Name node) in *. set (vm := o_val o) in *.
  assert (vmKey vm = (ns, name)) as Hk by by apply Hw.
  set (w1 := storeVM (ns, name) (tracked nn vm) w).
  set (vm2 := halted (tracked nn vm)). set (w2 := storeVM (ns, name) vm2 (refreshVMs w1)).
  assert (Hw1 : world_wf w1) by by apply storeVM_wf.
  assert (Hw2 : world_wf w2) by by apply storeVM_wf.
  assert (Hst : RunStrategy vm = Ok rs) by (unfold RunStrategy; by rewrite Hrun, Hstr).
  assert (Hst2 : RunStrategy vm2 = Ok RunStrategyHalted) by (unfold RunStrategy; simpl; by rewrite Hrun).
  assert (Hs0 : shutDownFor nn vm = false).
  { unfold shutDownFor, gm_str. rewrite Htr. revert Hnn. generalize nn. by intros []. }
  destruct (restarted_halted nn vm Htr Hrun) as [Hres Hs2].
  assert (Ho1 : st_objs (w_vms w1) !! (ns, name) = Some (mkObj (st_rv (w_vms w) + 1) (tracked nn vm)))
    by apply lookup_insert_eq.
  destruct (Restart_run nn strategy (refreshVMs w2)) as (w3 & Hr3 & _ & Hvm3);
    [done|by apply freshVMs_refresh| |].
  { intros k o' Ho'. simpl in Ho'. apply lookup_insert_Some in Ho' as [[_ <-]|[_ Ho']]; [by eexists|].
    apply lookup_insert_Some in Ho' as [[_ <-]|[_ Ho']]; [by exists rs|eauto]. }
  exists w1, w2, w3, (mkObj (st_rv (w_vms w1) + 1) vm2). split_and!; [| | | |done|done|done| |].
  - by apply annotateVM_run.
  - assert (Hc : vmCache_Get (ns, name) (quiet w1) = (Ok o, quiet w1)).
    { pose proof (vmCache_fresh w (ns, name) o Hf Ho Hk) as Hc. unfold vmCache_Get, cached in *.
      rewrite readCall_quiet in *. change (w_cache w1) with (w_cache w). injection Hc as Hc.
      by rewrite Hc. }
    eapply findAndStopVM_stale; [done|done|exact Hc|done|exact Ho1| |exact Hst|done]. simpl.
    destruct Hw as (_ & _ & _ & Hsv). specialize (Hsv _ _ Ho). lia.
  - by apply (findAndStopVM_run ns name Hns Hnm (refreshVMs w1) (mkObj _ (tracked nn vm)) rs
      (freshVMs_refresh _ Hw1) Ho1).
  - apply lookup_insert_eq.
  - rewrite Hvm3. simpl. rewrite lookup_insert_eq. simpl. f_equal. unfold restartIf, toRestart.
    replace (hasLabel LabelMaintainModeStrategy strategy (vm_Labels vm2)) with true
      by (symmetry; exact Hlab). fold vm2 in Hs2, Hres. rewrite Hs2. simpl. by rewrite Hres.
  - intros Ha <-. by apply resumed_same.
Qed.

(** A running VM that restarts after enabling, with its run strategy on record and without. *)
Definition runningVM (annotations : list (string * string)) : VM :=
  demoVM "v1" MaintainModeStrategyShutdownAndRestartAfterEnable annotations "Always".

Lemma vm_maintenance_roundtrip_witness :
  (exists w1 w2 w3 o2,
     annotateVM (demoNode "a" [] []) "default" "v1"
       (quiet (demoWorld [] [runningVM [(AnnotationRunStrategy, "Always")]] [])) = (Ok tt, quiet w1) /\
     findAndStopVM "default/v1" (quiet (refreshVMs w1)) = (Ok tt, quiet w2) /\
     st_objs (w_vms w2) !! ("default", "v1") = Some o2 /\
     RunStrategy (o_val o2) = Ok RunStrategyHalted /\
     RestartMaintenanceModeVMsOnNode "a" MaintainModeStrategyShutdownAndRestartAfterEnable
       (quiet (refreshVMs w2)) = (Ok tt, quiet w3) /\
     o_val <$> st_objs (w_vms w3) !! ("default", "v1")
       = Some (runningVM [(AnnotationRunStrategy, "Always")])) /\
  exists w3, vm_RunStrategy ∘ o_val <$> st_objs (w_vms w3) !! ("default", "v1")
    = Some (Some RunStrategyRerunOnFailure).
Proof.
  split.
  - destruct (vm_maintenance_roundtrip (demoNode "a" [] [])
      MaintainModeStrategyShutdownAndRestartAfterEnable "default" "v1"
      (demoWorld [] [runningVM [(AnnotationRunStrategy, "Always")]] [])
      (mkObj 1 (runningVM [(AnnotationRunStrategy, "Always")])) "Always")
      as (w1 & w2 & w3 & o2 & Ha & _ & Hh & Ho2 & Hs2 & _ & Hr & Hb & Hsame);
      [apply world_wfb_ok; by vm_compute|apply freshVMsb_ok; by vm_compute
      |apply demo_hasRunStrategy; by vm_compute|by vm_compute..|].
    exists w1, w2, w3, o2. split_and!; [exact Ha|exact Hh|exact Ho2|exact Hs2|exact Hr|].
    rewrite Hb, Hsame; [done|by vm_compute..].
  - destruct (vm_maintenance_roundtrip (demoNode "a" [] [])
      MaintainModeStrategyShutdownAndRestartAfterEnable "default" "v1"
      (demoWorld [] [runningVM []] []) (mkObj 1 (runningVM [])) "Always")
      as (w1 & w2 & w3 & o2 & _ & _ & _ & _ & _ & _ & _ & Hb & _);
      [apply world_wfb_ok; by vm_compute|apply freshVMsb_ok; by vm_compute
      |apply demo_hasRunStrategy; by vm_compute|by vm_compute..|].
    exists w3. destruct (st_objs (w_vms w3) !! ("default", "v1")) as [o3|]; [|done].
    injection Hb as Hb. simpl. by rewrite Hb.
Defined.
