(* ===== verification/NodeActions.v ===== *)
(** The node actions of the API, [pkg/api/node/formatter.go]: which actions a node offers
    and what they do.  Enabling, disabling and clearing maintenance mode are the users' part
    of the life cycle of Maintenance.v; this file proves that they keep to it and that what
    is offered is what is accepted, and puts the three parts together. *)

From S2P Require Import Prelude K8s NodeUtil ResourceQuota CpuManager NodeWebhook AddonWebhook ApiServer.
From S2P Require Import Maintenance NodeDrain.

Local Open Scope Z_scope.

(** ** Actions *)

Definition enableMaintenanceModeAction : string := "enableMaintenanceMode".
Definition disableMaintenanceModeAction : string := "disableMaintenanceMode".
Definition clearMaintenanceModeAction : string := "clearMaintenanceMode".
Definition cordonAction : string := "cordon".
Definition uncordonAction : string := "uncordon".
Definition listUnhealthyVMAction : string := "listUnhealthyVM".
Definition maintenancePossibleAction : string := "maintenancePossible".
Definition powerActionAction : string := "powerAction".
Definition powerActionPossibleAction : string := "powerActionPossible".
Definition enableCPUManagerAction : string := "enableCPUManager".
Definition disableCPUManagerAction : string := "disableCPUManager".

(** [Formatter]: the actions added to the resource, in order.  [decoded] is the node the raw
    resource decodes to. *)
Definition Formatter (canUpdate : bool) (decoded : option Node) : list string :=
  [listUnhealthyVMAction; maintenancePossibleAction; powerActionPossibleAction] ++
  if negb canUpdate then []
  else
    [enableCPUManagerAction; disableCPUManagerAction] ++
    match decoded with
    | None => []
    | Some node =>
        let condition := GetMaintenanceModeCondition (Some node) in
        let intentCleanupComplete :=
          negb (HasDrainRequest (Some node)) && negb (IsForcedDrainRequested (Some node)) in
        match condition with
        | None => if negb (HasDrainRequest (Some node)) then [enableMaintenanceModeAction] else []
        | Some _ =>
            if IsMaintenanceModeCondition condition ConditionFalse [NodeConditionReasonError]
            then if intentCleanupComplete then [clearMaintenanceModeAction] else []
            else if IsMaintenanceModeCondition condition ConditionTrue [NodeConditionReasonError]
            then [disableMaintenanceModeAction]
            else if IsMaintenanceModeDrainComplete condition
            then [disableMaintenanceModeAction; powerActionAction]
            else []
        end ++
        (if node_Unschedulable node then [uncordonAction] else [cordonAction])
    end.

(** [httperror.NewAPIError(httperror.InvalidAction, msg)] *)
Definition InvalidAction (msg : string) : goerror := ErrText ("InvalidAction: " +:+ msg).

Definition errAlreadyRequested : goerror :=
  InvalidAction "Maintenance mode was already requested for this node, please refresh and check the node status".
Definition errCannotDisable : goerror :=
  InvalidAction "Maintenance mode cannot be disabled in the current state".
Definition errNotCleanedUp : goerror :=
  InvalidAction "Maintenance mode error cannot be cleared until the previous request is cleaned up".
Definition errOnlyPreCheck : goerror :=
  InvalidAction "Only a maintenance mode pre-check error can be cleared".
Definition errConcurrent : goerror :=
  InvalidAction "Maintenance mode state was modified concurrently, please refresh and check the node status".

(** ** Maintenance mode *)

(** [enableMaintenanceMode]; [force] is the field of the decoded body. *)
Definition enableMaintenanceMode (force : option string) (nodeName : string) : Act unit :=
  match force with
  | None => throw (ErrText "InvalidBodyContent: Failed to decode request body")
  | Some force =>
      RetryOnConflict DefaultRetry tt (
        o ← nodes_Get nodeName;
        let node := Some (o_val o) in
        if bool_decide (is_Some (GetMaintenanceModeCondition node)) || HasDrainRequest node
        then throw errAlreadyRequested
        else
          match SetDrainRequest node (String.eqb force "true") with
          | None => lift Panic
          | Some n => nodes_Update (mkObj (o_rv o) n);; mret tt
          end)
  end.

Definition retryMaintenanceModeUpdate (nodeName : string) (updateFunc : Node -> Node) : Act unit :=
  RetryOnConflict DefaultRetry tt (
    o ← nodes_Get nodeName;
    nodes_Update (mkObj (o_rv o) (updateFunc (o_val o)));;
    mret tt).

Definition removeMaintenanceModeCondition (nodeName : string) (preCheckErrorOnly : bool)
  : Act unit :=
  RetryOnConflict DefaultRetry tt (
    o ← nodes_Get nodeName;
    let node := Some (o_val o) in
    let condition := GetMaintenanceModeCondition node in
    match condition with
    | None => mret tt
    | Some _ =>
        if preCheckErrorOnly && (HasDrainRequest node || IsForcedDrainRequested node)
        then throw errNotCleanedUp
        else if preCheckErrorOnly
                && negb (IsMaintenanceModeCondition condition ConditionFalse
                           [NodeConditionReasonError])
        then throw errOnlyPreCheck
        else if negb preCheckErrorOnly
                && (negb (CanDisableMaintenanceMode condition) || HasDrainRequest node)
        then throw errConcurrent
        else
          nodes_UpdateStatus (mkObj (o_rv o) (RemoveMaintenanceModeCondition (o_val o)).1);;
          mret tt
    end).

(** The closure of [disableMaintenanceMode]. *)
Definition disableMaintenanceModeFunc (node : Node) : Node :=
  let n := node_set_Unschedulable false node in
  let n := node_set_Taints (List.filter (fun t => negb (String.eqb (t_Key t) UpgradeNodeDrainTaintKey))
                              (node_Taints n)) n in
  default n (ClearDrainRequest (Some n)).1.

Definition disableMaintenanceMode (nodeName : string) : Act unit :=
  o ← nodes_Get nodeName;
  if negb (CanNodeDisableMaintenanceMode (Some (o_val o))) then throw errCannotDisable
  else
    retryMaintenanceModeUpdate nodeName disableMaintenanceModeFunc;;
    RestartMaintenanceModeVMsOnNode nodeName MaintainModeStrategyShutdownAndRestartAfterDisable;;
    removeMaintenanceModeCondition nodeName false.

Definition clearMaintenanceMode (nodeName : string) : Act unit :=
  removeMaintenanceModeCondition nodeName true.

(** ** The other actions on nodes *)

Definition cordonUncordonNode (node : Obj Node) (actionName : string) (cordon : bool) : Act unit :=
  if Bool.eqb cordon (node_Unschedulable (o_val node))
  then throw (InvalidAction ("Node " +:+ node_Name (o_val node) +:+ " already " +:+ actionName +:+ "ed"))
  else nodes_Update (mkObj (o_rv node) (node_set_Unschedulable cordon (o_val node)));; mret tt.

Section Actions.
Context {LL : LabelLib} {MO : MapOrder} {NA : NodeAffinity} {J : JsonCodec CPUManagerUpdateStatus}.

Definition requestCPUManager (nodeName policy : string) : Act unit :=
  let bytes := json_marshal (mkCpuStatus policy CPUManagerRequestedStatus "") in
  RetryOnConflict DefaultRetry tt (
    o ← nodes_Get nodeName;
    nodes_Update (mkObj (o_rv o) (node_set_Annotations
      (gm_set (node_Annotations (o_val o)) AnnotationCPUManagerUpdateStatus bytes) (o_val o)));;
    mret tt).

(** [listUnhealthyVM]: a message and the VMs per reason. *)
Definition listUnhealthyVM (node : Node) : Act (list (string * list string)) :=
  nonMigratable ← FindNonMigratableVMS node;
  mret (map (fun '(condition, vms) =>
               ("The following VMs cannot be migrated due to " +:+ condition +:+ " condition", vms))
            (range nonMigratable)).

Definition maintenancePossible (node : Node) : Act unit := DrainPossible node.

(** The part of [Do] that works on nodes: the node is looked up in the cache first.  The
    power actions are below. *)
Definition Do (action : string) (force : option string) (name : string) (cachedNode : outcome (Obj Node))
  : Act unit :=
  o ← lift cachedNode;
  if String.eqb action enableMaintenanceModeAction then enableMaintenanceMode force name
  else if String.eqb action disableMaintenanceModeAction then disableMaintenanceMode name
  else if String.eqb action clearMaintenanceModeAction then clearMaintenanceMode name
  else if String.eqb action cordonAction then cordonUncordonNode o cordonAction true
  else if String.eqb action uncordonAction then cordonUncordonNode o uncordonAction false
  else if String.eqb action listUnhealthyVMAction then listUnhealthyVM (o_val o);; mret tt
  else if String.eqb action maintenancePossibleAction then maintenancePossible (o_val o)
  else if String.eqb action enableCPUManagerAction then requestCPUManager name CPUManagerStaticPolicy
  else if String.eqb action disableCPUManagerAction then requestCPUManager name CPUManagerNonePolicy
  else throw (ErrText "InvalidAction: Unsupported action").
End Actions.

(** ** Power actions

    They write the inventory object of the node, an unstructured object of the seeder addon. *)

Definition seederAddonName : string := "harvester-seeder".
Definition nodeReadyStatus : string := "inventoryNodeReady".
Definition possiblePowerActions : list string := ["shutdown"; "poweron"; "reboot"].

Definition StatusNoContent : Z := 204.
Definition StatusConflict : Z := 409.
Definition StatusFailedDependency : Z := 424.

Abbreviation Fields := (list (string * Json)) (only parsing).

(** [m[f] = v] on the fields of an object. *)
Fixpoint setField (f : string) (v : Json) (m : Fields) : Fields :=
  match m with
  | [] => [(f, v)]
  | (k, x) :: m => if String.eqb k f then (k, v) :: m else (k, x) :: setField f v m
  end.

(** [unstructured.SetNestedField] with a path that is not empty. *)
Fixpoint SetNestedField (m : Fields) (v : Json) (field : string) (fields : list string)
  : outcome Fields :=
  match fields with
  | [] => Ok (setField field v m)
  | f :: fs =>
      match fieldOf field m with
      | Some (JObj sub) => sub' ← SetNestedField sub v f fs; Ok (setField field (JObj sub') m)
      | Some _ => Err (ErrText "value cannot be set")
      | None => sub' ← SetNestedField [] v f fs; Ok (setField field (JObj sub') m)
      end
  end.

Definition NestedString (obj : Fields) (fields : list string) : outcome (option string) :=
  v ← NestedField (JObj obj) fields;
  match v with
  | None => Ok None
  | Some (JStr s) => Ok (Some s)
  | Some _ => Err (ErrText "accessor error")
  end.

(** The answers of the node client, the addon cache and the dynamic client, whose updates
    return what the server stored. *)
Record PowerEnv := mkPowerEnv {
  pe_node : outcome Node;
  pe_addonEnabled : outcome bool;
  pe_inventoryGet : option goerror;
  pe_update : Fields -> option goerror;
  pe_updateStatus : Fields -> option goerror }.

(** The inventory object of the node, when there is one. *)
Abbreviation Inventory := (option Fields) (only parsing).

Section Power.
Context (E : PowerEnv).

Definition fetchInventoryObject : M Inventory Fields := fun inv =>
  match pe_inventoryGet E, inv with
  | Some e, _ => (Err e, inv)
  | None, Some obj => (Ok obj, inv)
  | None, None => (Err (ApiNotFound "inventory not found"), inv)
  end.

(** [powerActionPossible]: the status code written to the response, none on an error that
    leaves it to the caller. *)
Definition powerActionPossible (node : string) : M Inventory (option Z * option goerror) :=
  match pe_addonEnabled E with
  | Panic => lift Panic
  | Err e => mret (if IsNotFound e then (Some StatusFailedDependency, None) else (None, Some e))
  | Ok false => mret (Some StatusFailedDependency, None)
  | Ok true =>
      r ← try fetchInventoryObject;
      match r with
      | inr e => mret (if IsNotFound e then (Some StatusFailedDependency, None) else (None, Some e))
      | inl obj =>
          match NestedString obj ["status"; "status"] with
          | Panic => lift Panic
          | Err e => mret (Some StatusConflict, Some e)
          | Ok None => mret (Some StatusConflict,
              Some (ErrText ("no field .status.status present in inventory object: " +:+ node)))
          | Ok (Some val) =>
              if negb (String.eqb val nodeReadyStatus)
              then mret (Some StatusConflict,
                Some (ErrText ("expected to find inventory " +:+ node +:+ " status "
                  +:+ nodeReadyStatus +:+ ", but current status is: " +:+ val)))
              else mret (Some StatusNoContent, None)
          end
      end
  end.

(** The last request has a status: [val, completed := m["actionStatus"]; !completed || val == ""]. *)
Definition actionPending (powerActionMap : Fields) : bool :=
  match fieldOf "actionStatus" powerActionMap with
  | None => true
  | Some (JStr s) => String.eqb s ""
  | Some _ => false
  end.

Definition powerAction (operation : string) : M Inventory unit :=
  liveNode ← lift (pe_node E);
  if negb (IsNodeMaintenanceModeDrainComplete (Some liveNode))
  then throw (InvalidAction "Power actions are unavailable in the current maintenance mode state")
  else if negb (str_in operation possiblePowerActions)
  then throw (ErrText ("operation " +:+ operation +:+ " is not a valid power opreation. valid values need to be in "
                       +:+ showList possiblePowerActions))
  else
    iObj ← fetchInventoryObject;
    powerActionMap ← lift (NestedMap iObj ["status"; "powerAction"]);
    oldPowerAction ← lift (NestedString iObj ["spec"; "powerActionRequested"]);
    let powerActionMap := default [] powerActionMap in
    (match oldPowerAction with
     | Some old =>
         if actionPending powerActionMap
         then throw (ErrText ("waiting for power action status for action " +:+ old +:+ " for node "
                              +:+ node_Name liveNode +:+ " to be populated"))
         else mret tt
     | None => mret tt
     end);;
    iObj ← lift (SetNestedField iObj (JStr operation) "spec" ["powerActionRequested"]);
    iObjUpdate ← apiWrite (pe_update E iObj) (fun _ => Some iObj) iObj;
    iObjUpdate ← lift (SetNestedField iObjUpdate
                        (JObj (setField "lastJobName" (JStr "") powerActionMap))
                        "status" ["powerAction"]);
    apiWrite (pe_updateStatus E iObjUpdate) (fun _ => Some iObjUpdate) tt.
End Power.

(** ** The users' part of the life cycle *)

Definition removesCondition (name : string) (w w' : World) : Prop :=
  exists o, st_objs (w_nodes w) !! name = Some o /\
    w' = storeNode name (RemoveMaintenanceModeCondition (o_val o)).1 w.

Lemma Remove_Name n : node_Name (RemoveMaintenanceModeCondition n).1 = node_Name n.
Proof. unfold RemoveMaintenanceModeCondition. by destruct (Nat.eqb _ _). Qed.

Lemma Remove_status_only n :
  node_set_Conditions (node_Conditions (RemoveMaintenanceModeCondition n).1) n
  = (RemoveMaintenanceModeCondition n).1.
Proof.
  unfold RemoveMaintenanceModeCondition. destruct (Nat.eqb _ _); [|done].
  apply node_set_Conditions_id.
Qed.

Lemma removesCondition_evolves L name w w' :
  world_wf w -> removesCondition name w w' -> rtc (L name) (phaseAt w name) PIdle ->
  evolves L w w'.
Proof.
  intros (Hname & _) (o & Ho & ->) HL. apply evolves_storeNode.
  - rewrite Remove_Name. by apply Hname.
  - by rewrite phaseOf_Remove.
Qed.

(** What the removal requires of the node it finds. *)
Definition removable (preCheckErrorOnly : bool) (n : Node) : bool :=
  if preCheckErrorOnly
  then negb (HasDrainRequest (Some n) || IsForcedDrainRequested (Some n)) &&
       IsMaintenanceModeCondition (GetMaintenanceModeCondition (Some n)) ConditionFalse
         [NodeConditionReasonError]
  else CanDisableMaintenanceMode (GetMaintenanceModeCondition (Some n))
       && negb (HasDrainRequest (Some n)).

Section RemoveCommits.
Context (E : World -> World -> Prop) `{!PreOrder E}.
Hypothesis E_keeps : forall w w', E w w' -> keeps w w'.

Lemma Remove_commits name b s :
  commits E (fun w w' => removesCondition name w w' /\
      exists o, st_objs (w_nodes w) !! name = Some o /\ removable b (o_val o) = true) world_wf
    (removeMaintenanceModeCondition name b) s.
Proof using E_keeps PreOrder0.
  apply (commits_retry (W := World)); [apply _|]. intros s1.
  apply (commits_get E _ world_wf (E_wf E E_keeps)). intros o s2 Ho. cbv zeta.
  destruct (GetMaintenanceModeCondition (Some (o_val o))) as [c|] eqn:Hc;
    [|apply (commits_ret (W := World)), _].
  destruct (b && (_ || _)) eqn:E1; [apply (commits_throw (W := World)), _|].
  destruct (b && negb _) eqn:E2; [apply (commits_throw (W := World)), _|].
  destruct (negb b && _) eqn:E3; [apply (commits_throw (W := World)), _|].
  apply commits_then_ret. apply status_write_commits with (name := name);
    [done|done|done|apply Remove_Name|apply Remove_status_only| |].
  - intros w w' Hw [HC _]. eapply (evolves_wf (fun _ _ _ => True)); [exact Hw|].
    eapply removesCondition_evolves; [done|exact HC|]. by apply rtc_once.
  - intros w Hw Ho'. split; [by exists o|]. exists o. split; [done|]. unfold removable. rewrite Hc.
    destruct b; cbn [andb negb] in *.
    + apply negb_false_iff in E2. by rewrite E1, E2.
    + apply orb_false_iff in E3 as [E3%negb_false_iff E4]. by rewrite E3, E4.
Qed.
End RemoveCommits.

(** What clearing and what disabling takes back. *)
Definition removablePhases (preCheckErrorOnly : bool) : list Phase :=
  if preCheckErrorOnly then [PPreError] else [PEvacuating; PCompleted; PDrainError].

Lemma removable_phase b n : removable b n = true -> phaseOf n ∈ removablePhases b.
Proof.
  unfold removablePhases, removable, CanDisableMaintenanceMode, IsMaintenanceModeCondition, phaseOf, condPhase, str_in.
  destruct (GetMaintenanceModeCondition (Some n)) as [c|]; cycle 1.
  { destruct b; [by rewrite andb_false_r|done]. }
  destruct b; intros H; boolify.
  - apply list_elem_of_singleton in H1. rewrite H0, H1. by left.
  - repeat match goal with
           | H : nc_Status c = _ |- _ => rewrite H; clear H
           | H : nc_Reason c ∈ _ |- _ =>
               rewrite !elem_of_cons, elem_of_nil in H; destruct_or? H; try done; rewrite H
           end; vm_compute; set_solver.
Qed.

Section Users.
Context (L : string -> Phase -> Phase -> Prop) (name : string).

Lemma within_remove b s :
  (forall p, p ∈ removablePhases b -> L name p PIdle) ->
  effect (within (evolves L)) (removeMaintenanceModeCondition name b) s.
Proof.
  intros HL. eapply (commits_within (W := World));
    [apply _|apply evolves_guarded|apply evolves_wf| |apply Remove_commits; [apply _|]].
  - cbv beta. intros w w' Hw [HC (o & Ho & Hr)].
    apply (removesCondition_evolves L name w w' Hw HC), rtc_once, HL.
    unfold phaseAt. rewrite Ho. by apply removable_phase.
  - intros w w'. by apply evolves_weaken.
Qed.

Lemma within_retryUpdate f s : effect (within (evolves L)) (retryMaintenanceModeUpdate name f) s.
Proof. apply effect_retry; [apply _|]. intros s'. effect_go. Qed.

Lemma within_enable force s : effect (within (evolves L)) (enableMaintenanceMode force name) s.
Proof.
  unfold enableMaintenanceMode. destruct force; [|effect_go].
  apply effect_retry; [apply _|]. intros s'. effect_go.
Qed.

Lemma within_disable s :
  (forall p, p ∈ removablePhases false -> L name p PIdle) ->
  effect (within (evolves L)) (disableMaintenanceMode name) s.
Proof.
  intros HL. unfold disableMaintenanceMode. effect_go.
  - apply within_retryUpdate.
  - by apply within_remove.
Qed.

Lemma within_requestCPUManager {J : JsonCodec CPUManagerUpdateStatus} policy s :
  effect (within (evolves L)) (requestCPUManager name policy) s.
Proof. apply effect_retry; [apply _|]. intros s'. effect_go. Qed.
End Users.

(** ** Runs without interference *)

Lemma ClearDrainRequest_gone n :
  exists n', (ClearDrainRequest (Some n)).1 = Some n' /\ HasDrainRequest (Some n') = false /\
    node_Conditions n' = node_Conditions n /\ node_Name n' = node_Name n /\
    node_Unschedulable n' = node_Unschedulable n /\ node_Taints n' = node_Taints n.
Proof.
  unfold ClearDrainRequest. destruct (node_Annotations n) as [a|] eqn:Ha; simpl.
  - eexists. split; [done|]. split_and!; try done. simpl. unfold gm_str. simpl.
    by rewrite lookup_delete_ne, lookup_delete_eq.
  - eexists. split; [done|]. split_and!; try done. simpl. by rewrite Ha.
Qed.

Lemma disableFunc_spec n :
  let n' := disableMaintenanceModeFunc n in
  HasDrainRequest (Some n') = false /\ node_Conditions n' = node_Conditions n /\
  node_Name n' = node_Name n /\ node_Unschedulable n' = false /\
  forall t, t ∈ node_Taints n' -> t_Key t <> UpgradeNodeDrainTaintKey.
Proof.
  unfold disableMaintenanceModeFunc. cbv zeta.
  destruct (ClearDrainRequest_gone (node_set_Taints (List.filter
    (fun t => negb (String.eqb (t_Key t) UpgradeNodeDrainTaintKey))
    (node_Taints (node_set_Unschedulable false n))) (node_set_Unschedulable false n)))
    as (n' & -> & Hr & Hc & Hn & Hu & Ht). simpl.
  split_and!; [done..|]. rewrite Ht. intros t [_ Hk]%filter_elem. boolify. done.
Qed.

Section ActionRuns.
Context (w : World) (name : string) (o : Obj Node).
Hypothesis Hw : world_wf w.
Hypothesis Ho : st_objs (w_nodes w) !! name = Some o.

Lemma action_name : node_Name (o_val o) = name.
Proof using Hw Ho. by apply Hw. Qed.

Lemma retryUpdate_run f :
  node_Name (f (o_val o)) = name ->
  retryMaintenanceModeUpdate name f (quiet w) =
  (Ok tt, quiet (storeNode name (mergeNode (o_val o) (f (o_val o))) w)).
Proof using Ho.
  intros Hn. apply retry_run. rewrite (bind_run _ _ _ _ _ (nodes_Get_run w name o Ho)).
  by rewrite (bind_run _ _ _ _ _ (nodes_Update_run w name o Ho (f (o_val o)) Hn)).
Qed.

End ActionRuns.

Section RemoveRuns.
Context (w : World) (name : string) (o : Obj Node).
Hypothesis Hw : world_wf w.
Hypothesis Ho : st_objs (w_nodes w) !! name = Some o.

Lemma remove_run b :
  GetMaintenanceModeCondition (Some (o_val o)) <> None -> removable b (o_val o) = true ->
  removeMaintenanceModeCondition name b (quiet w) =
  (Ok tt, quiet (storeNode name (RemoveMaintenanceModeCondition (o_val o)).1 w)).
Proof using Hw Ho.
  intros Hc Hr. apply retry_run. rewrite (bind_run _ _ _ _ _ (nodes_Get_run w name o Ho)).
  cbv zeta. unfold removable in Hr.
  destruct (GetMaintenanceModeCondition (Some (o_val o))) as [c|] eqn:Hcc; [|done].
  assert (Hwr : nodes_UpdateStatus (mkObj (o_rv o) (RemoveMaintenanceModeCondition (o_val o)).1) (quiet w)
    = (Ok (mkObj (st_rv (w_nodes w) + 1) (RemoveMaintenanceModeCondition (o_val o)).1),
       quiet (storeNode name (RemoveMaintenanceModeCondition (o_val o)).1 w))).
  { unfold nodes_UpdateStatus. cbn [o_val]. rewrite Remove_Name, (action_name w name o Hw Ho).
    rewrite (nodes_write_run w name o Ho). unfold mergeNodeStatus. by rewrite Remove_status_only. }
  destruct b; cbn [andb negb] in *.
  - apply andb_true_iff in Hr as [H1%negb_true_iff H2]. rewrite H1, H2. cbn [negb].
    by rewrite (bind_run _ _ _ _ _ Hwr).
  - apply andb_true_iff in Hr as [H1 H2%negb_true_iff]. rewrite H1, H2. cbn [negb orb].
    by rewrite (bind_run _ _ _ _ _ Hwr).
Qed.

Lemma remove_refused b :
  GetMaintenanceModeCondition (Some (o_val o)) <> None -> removable b (o_val o) = false ->
  exists e, removeMaintenanceModeCondition name b (quiet w) = (Err e, quiet w).
Proof using Ho.
  intros Hc Hr. unfold removeMaintenanceModeCondition, RetryOnConflict, OnError, DefaultRetry.
  cbn [onError]. rewrite (bind_run _ _ _ _ _ (nodes_Get_run w name o Ho)). cbv zeta.
  unfold removable in Hr. destruct (GetMaintenanceModeCondition (Some (o_val o))) as [c|]; [|done].
  destruct b; cbn [andb negb] in *.
  - destruct (_ || _); [by eexists|]. cbn [negb andb] in Hr. rewrite Hr. by eexists.
  - destruct (CanDisableMaintenanceMode _); cbn [negb orb andb] in *; [|by eexists].
    apply negb_false_iff in Hr. rewrite Hr. by eexists.
Qed.

End RemoveRuns.

Section MoreRuns.
Context (w : World) (name : string) (o : Obj Node).
Hypothesis Hw : world_wf w.
Hypothesis Ho : st_objs (w_nodes w) !! name = Some o.

Lemma enable_run force :
  let n := o_val o in
  enableMaintenanceMode (Some force) name (quiet w) =
  if bool_decide (is_Some (GetMaintenanceModeCondition (Some n))) || HasDrainRequest (Some n)
  then (Err errAlreadyRequested, quiet w)
  else (Ok tt, quiet (storeNode name (mergeNode n
          (default n (SetDrainRequest (Some n) (String.eqb force "true")))) w)).
Proof using Hw Ho.
  unfold enableMaintenanceMode, RetryOnConflict, OnError, DefaultRetry. cbn [onError].
  rewrite (bind_run _ _ _ _ _ (nodes_Get_run w name o Ho)). cbv zeta.
  destruct (_ || _); [done|].
  set (n := default (o_val o) (SetDrainRequest (Some (o_val o)) (String.eqb force "true"))).
  assert (node_Name n = name) as Hn by apply (action_name w name o Hw Ho).
  cbn [SetDrainRequest]. rewrite (bind_run _ _ _ _ _ (nodes_Update_run w name o Ho n Hn)). done.
Qed.

(** A disabled node: taken up again, its request and condition gone. *)
Lemma disable_run :
  freshVMs w ->
  (forall k o, st_objs (w_vms w) !! k = Some o -> hasRunStrategy (o_val o)) ->
  CanNodeDisableMaintenanceMode (Some (o_val o)) = true ->
  exists w' o', disableMaintenanceMode name (quiet w) = (Ok tt, quiet w') /\
    st_objs (w_nodes w') !! name = Some o' /\ phaseOf (o_val o') = PIdle /\
    HasDrainRequest (Some (o_val o')) = false /\ node_Unschedulable (o_val o') = false /\
    (forall t, t ∈ node_Taints (o_val o') -> t_Key t <> UpgradeNodeDrainTaintKey).
Proof using Hw Ho.
  intros Hf Hrs Hcan. destruct (disableFunc_spec (o_val o)) as (Hr & Hc & Hn & Hu & Ht).
  rewrite (action_name w name o Hw Ho) in Hn.
  set (n1 := mergeNode (o_val o) (disableMaintenanceModeFunc (o_val o))).
  assert (n1 = disableMaintenanceModeFunc (o_val o)) as Hn1.
  { unfold n1, mergeNode. rewrite <- Hc. apply node_set_Conditions_id. }
  set (w1 := storeNode name n1 w).
  assert (Hw1 : world_wf w1).
  { eapply (evolves_wf (fun _ _ _ => True)); [exact Hw|]. apply evolves_storeNode; [by rewrite Hn1|].
    by apply rtc_once. }
  destruct (Restart_run name MaintainModeStrategyShutdownAndRestartAfterDisable w1 Hw1 Hf Hrs)
    as (w2 & Hr2 & (Hsn & _) & _).
  assert (Ho2 : st_objs (w_nodes w2) !! name = Some (mkObj (st_rv (w_nodes w) + 1) n1)).
  { rewrite Hsn. apply lookup_insert_eq. }
  assert (Hw2 : world_wf w2).
  { pose proof (within_Restart (fun _ _ _ => True) name
      MaintainModeStrategyShutdownAndRestartAfterDisable (quiet w1) (quiet_relies _ _)) as [H _].
    rewrite Hr2 in H. by apply H. }
  assert (Hgc : GetMaintenanceModeCondition (Some n1) = GetMaintenanceModeCondition (Some (o_val o))).
  { unfold GetMaintenanceModeCondition. by rewrite Hn1, Hc. }
  unfold CanNodeDisableMaintenanceMode in Hcan.
  exists (storeNode name (RemoveMaintenanceModeCondition n1).1 w2), (mkObj (st_rv (w_nodes w2) + 1)
    (RemoveMaintenanceModeCondition n1).1).
  split; [|split; [apply lookup_insert_eq|]].
  - unfold disableMaintenanceMode. rewrite (bind_run _ _ _ _ _ (nodes_Get_run w name o Ho)).
    unfold CanNodeDisableMaintenanceMode. rewrite Hcan. cbn [negb].
    rewrite (bind_run _ _ _ _ _ (retryUpdate_run w name o Ho disableMaintenanceModeFunc Hn)). fold n1 w1.
    rewrite (bind_run _ _ _ _ _ Hr2).
    apply (remove_run w2 name _ Hw2 Ho2); cbn [o_val].
    + rewrite Hgc. unfold CanDisableMaintenanceMode, IsMaintenanceModeCondition in Hcan.
      by destruct (GetMaintenanceModeCondition (Some (o_val o))).
    + unfold removable. rewrite Hgc, Hcan, Hn1, Hr. done.
  - cbn [o_val]. rewrite phaseOf_Remove, <- (Remove_status_only n1), Hn1. done.
Qed.
End MoreRuns.

(** ** All handlers together *)

Section Handlers.
Context {LL : LabelLib} {MO : MapOrder} {NA : NodeAffinity} {J : JsonCodec CPUManagerUpdateStatus}.
Context (D : DrainEnv).

(** The handlers, each with whatever object the informer, however late, calls it with:
    the drain controller from the drain stage on, the maintenance controller, and the
    actions of the API. *)
Inductive Handler :=
| HDrain (o : Obj Node) (c : NodeCondition)
| HMaintain (o : option (Obj Node))
| HRemoved (o : option (Obj Node))
| HAction (action : string) (force : option string) (name : string) (node : outcome (Obj Node)).

Definition handle (h : Handler) : Act unit :=
  match h with
  | HDrain o c => drain D o c;; mret tt
  | HMaintain o => OnNodeChanged o;; mret tt
  | HRemoved o => OnNodeRemoved o;; mret tt
  | HAction action force name node => Do action force name node
  end.

(** The moves each handler is there to make, on the node it is called for. *)
Definition ownMoves (h : Handler) (name : string) (p p' : Phase) : Prop :=
  match h with
  | HDrain o _ => name = node_Name (o_val o) /\ p = PDraining /\ p' ∈ [PEvacuating; PDrainError]
  | HMaintain (Some o) => name = node_Name (o_val o) /\ p = PEvacuating /\ p' = PCompleted
  | HMaintain None | HRemoved _ => False
  | HAction action _ node _ =>
      name = node /\ p' = PIdle /\
      (action = disableMaintenanceModeAction /\ p ∈ [PEvacuating; PCompleted; PDrainError] \/
       action = clearMaintenanceModeAction /\ p = PPreError)
  end.

Section Moves.
Context (others : string -> Phase -> Phase -> Prop).

Definition ownOr (h : Handler) (name : string) (p p' : Phase) : Prop :=
  others name p p' \/ ownMoves h name p p'.

Lemma within_Do action force name node s :
  effect (within (evolves (ownOr (HAction action force name node)))) (Do action force name node) s.
Proof using.
  unfold Do. effect_go.
  - apply within_enable.
  - apply within_disable. intros p Hp. right. cbn [ownMoves]. boolify. auto.
  - apply within_remove. intros p Hp. right. cbn [ownMoves]. boolify.
    apply list_elem_of_singleton in Hp. auto.
  - unfold cordonUncordonNode. effect_go.
  - unfold cordonUncordonNode. effect_go.
  - unfold listUnhealthyVM. effect_go. apply within_FindNonMigratableVMS.
  - apply within_DrainPossible.
  - apply within_requestCPUManager.
  - apply within_requestCPUManager.
Qed.

Lemma within_handle h s : drain_keeps D -> effect (within (evolves (ownOr h))) (handle h) s.
Proof using.
  intros HD. destruct h; cbn [handle].
  - effect_go. apply within_drain; [by apply HD|..]; right; cbn [ownMoves]; set_solver.
  - effect_go. apply within_OnNodeChanged. intros o' ->. by right.
  - effect_go.
  - apply within_Do.
Qed.
End Moves.
End Handlers.

(** C2: Each handler moves only the node it is called for, and only along its own moves:
    the drain stage from draining to evacuating or failed, the maintenance controller from
    evacuating to completed, disabling from the three phases it may be disabled in and
    clearing from a failed pre-check to none; nothing else moves a node.  This holds
    whatever moves [others] make between its calls (an arbitrary relation), as long as they
    keep names and versions in order, with failing calls and with whatever stale object the
    handler is called with.  The validation stage is not covered: it needs the node as it
    is. *)
Theorem handlers_keep_lifecycle `{LabelLib} `{MapOrder} `{NodeAffinity}
    `{JsonCodec CPUManagerUpdateStatus} D (others : string -> Phase -> Phase -> Prop) h s :
  drain_keeps D -> relies (evolves others) (sys_turns s) -> world_wf (sys_world s) ->
  world_wf (sys_world (handle D h s).2) /\
  forall name,
    rtc (fun p p' => others name p p' \/ ownMoves h name p p')
      (phaseAt (sys_world s) name) (phaseAt (sys_world (handle D h s).2) name).
Proof.
  intros HD Hs Hw. destruct (within_handle D others h s HD) as [HE _].
  - eapply Forall_impl; [exact Hs|]. intros t Ht w. eapply evolves_weaken; [|apply Ht].
    intros. by left.
  - by destruct (HE Hw) as (Hw' & _ & _ & Hp).
Qed.

Definition demoCodec : JsonCodec CPUManagerUpdateStatus := countable_codec _.

(** A node that has completed maintenance. *)
Definition completedNode : Node :=
  node_set_Unschedulable true
    (SetMaintenanceModeCondition 0 (demoNode "a" [] []) ConditionTrue NodeConditionReasonCompleted
       MaintenanceModeMessageCompleted).1.
Definition completedWorld : World := demoWorld [completedNode] [] [].

(** Disabled amid heartbeats: nobody else moves a node, so the one move is its own. *)
Lemma handlers_keep_lifecycle_witness :
  let s := mkSys completedWorld [mkTurn id None; mkTurn (touch "a") None; mkTurn (touch "a") None] in
  let h := HAction disableMaintenanceModeAction None "a" (Ok (mkObj 1 completedNode)) in
  let s' := (handle (LL := Demo.demoLabels) (MO := Demo.demoRange) (NA := Demo.demoAffinity)
               (J := demoCodec) demoEnv h s).2 in
  phaseAt (sys_world s') "a" = PIdle /\
  rtc (fun p p' => False \/ ownMoves h "a" p p') PCompleted PIdle.
Proof.
  intros s h s'. split; [by vm_compute|].
  pose proof (handlers_keep_lifecycle (H := Demo.demoLabels) (H0 := Demo.demoRange)
    (H1 := Demo.demoAffinity) (H2 := demoCodec) demoEnv (fun _ _ _ => False) h s) as Hh.
  destruct Hh as [_ Hh].
  - apply demoEnv_keeps.
  - apply Forall_cons. split; [intros w; simpl; reflexivity|].
    do 2 (apply Forall_cons; split; [intros w; apply evolves_touch|]). constructor.
  - apply world_wfb_ok. by vm_compute.
  - exact (Hh "a").
Defined.

(** ** What is offered *)

Lemma offered_enable n :
  str_in enableMaintenanceModeAction (Formatter true (Some n)) =
  negb (bool_decide (is_Some (GetMaintenanceModeCondition (Some n)))) && negb (HasDrainRequest (Some n)).
Proof.
  unfold Formatter. cbv zeta. cbn [negb]. rewrite !str_in_app.
  replace (str_in _ (if node_Unschedulable n then _ else _)) with false
    by by destruct (node_Unschedulable n).
  destruct (GetMaintenanceModeCondition (Some n)) as [c|].
  - by break_goal.
  - by destruct (HasDrainRequest (Some n)).
Qed.

Lemma offered_disable n :
  str_in disableMaintenanceModeAction (Formatter true (Some n)) = CanNodeDisableMaintenanceMode (Some n).
Proof.
  unfold Formatter. cbv zeta. cbn [negb]. rewrite !str_in_app.
  replace (str_in _ (if node_Unschedulable n then _ else _)) with false
    by by destruct (node_Unschedulable n).
  unfold CanNodeDisableMaintenanceMode, CanDisableMaintenanceMode, IsMaintenanceModeDrainComplete,
    IsMaintenanceModeCondition.
  destruct (GetMaintenanceModeCondition (Some n)) as [c|]; cycle 1.
  { by destruct (HasDrainRequest (Some n)). }
  rewrite !str_in_cons.
  destruct (String.eqb_spec (nc_Status c) ConditionFalse) as [->|]; cbn [andb].
  - destruct (negb (HasDrainRequest _) && _), (String.eqb (nc_Reason c) NodeConditionReasonError); done.
  - destruct (String.eqb _ ConditionTrue), (String.eqb _ NodeConditionReasonError),
      (String.eqb _ NodeConditionReasonEvacuating), (String.eqb _ NodeConditionReasonCompleted); done.
Qed.

Lemma offered_clear n :
  str_in clearMaintenanceModeAction (Formatter true (Some n)) = removable true n.
Proof.
  unfold Formatter, removable. cbv zeta. cbn [negb]. rewrite !str_in_app, negb_orb.
  replace (str_in _ (if node_Unschedulable n then _ else _)) with false
    by by destruct (node_Unschedulable n).
  destruct (GetMaintenanceModeCondition (Some n)) as [c|]; cycle 1.
  { cbn [IsMaintenanceModeCondition]. rewrite andb_false_r. by destruct (HasDrainRequest (Some n)). }
  destruct (IsMaintenanceModeCondition _ ConditionFalse _).
  - rewrite andb_true_r. by destruct (negb _ && _).
  - rewrite andb_false_r.
    by break_goal.
Qed.

Lemma removable_cond b n : removable b n = true -> GetMaintenanceModeCondition (Some n) <> None.
Proof.
  unfold removable. destruct (GetMaintenanceModeCondition (Some n)); [done|].
  destruct b; [by rewrite andb_false_r|done].
Qed.

Lemma disable_refused w name o :
  st_objs (w_nodes w) !! name = Some o -> CanNodeDisableMaintenanceMode (Some (o_val o)) = false ->
  disableMaintenanceMode name (quiet w) = (Err errCannotDisable, quiet w).
Proof.
  intros Ho Hc. unfold disableMaintenanceMode.
  rewrite (bind_run _ _ _ _ _ (nodes_Get_run w name o Ho)). by rewrite Hc.
Qed.

Lemma remove_none w name o b :
  st_objs (w_nodes w) !! name = Some o -> GetMaintenanceModeCondition (Some (o_val o)) = None ->
  removeMaintenanceModeCondition name b (quiet w) = (Ok tt, quiet w).
Proof.
  intros Ho Hc. apply retry_run. rewrite (bind_run _ _ _ _ _ (nodes_Get_run w name o Ho)).
  cbv zeta. by rewrite Hc.
Qed.

(** The update of the node that enabling sends to the API server. *)
Definition enableRequested (force : string) (n : Node) : Node :=
  default n (SetDrainRequest (Some n) (String.eqb force "true")).

(** The nodes as stored, as the node webhook lists them when its cache is up to date. *)
Definition storedNodes (w : World) : list Node := o_val <$> (map_to_list (st_objs (w_nodes w))).*2.

Lemma storedNodes_elem w n :
  n ∈ storedNodes w <-> exists name o, st_objs (w_nodes w) !! name = Some o /\ o_val o = n.
Proof.
  unfold storedNodes. rewrite list_elem_of_fmap. split.
  - intros (o & -> & Ho). apply list_elem_of_fmap in Ho as ([name o'] & -> & Ho).
    apply elem_of_map_to_list in Ho. by exists name, o'.
  - intros (name & o & Ho & <-). exists o. split; [done|]. apply list_elem_of_fmap.
    exists (name, o). split; [done|]. by apply elem_of_map_to_list.
Qed.

(** What the webhook makes of the two updates. *)
Lemma enable_admitted force n l :
  HasDrainRequest (Some n) = false ->
  validateCordonAndMaintenanceMode n (enableRequested force n) l = Ok tt <->
  exists m, m ∈ l /\ node_Name m <> node_Name n /\
    IsMaintenanceModeEngaged (Some m) = false /\ node_Unschedulable m = false.
Proof.
  intros Hd. rewrite validateCordon_Ok. split; [|by right]. intros [[Hr _]|?]; [|done].
  destruct (drain_request_roundtrip n (String.eqb force "true")) as [H _].
  rewrite Hd in Hr. discriminate (Hr H).
Qed.

Lemma disable_admitted n l :
  validateCordonAndMaintenanceMode n (disableMaintenanceModeFunc n) l = Ok tt.
Proof.
  apply validateCordon_Ok. left. destruct (disableFunc_spec n) as (Hr & _ & _ & Hu & _).
  rewrite Hr, Hu. done.
Qed.

(** C32: What the API offers for a node is what its handlers then accept.  When no call fails,
    nobody interferes, the cache of virtual machines is up to date and their run strategies
    can be read: enabling and disabling are offered exactly when the handlers carry them out
    on the node as shown, clearing only when it removes the condition; an action that is not
    offered changes nothing.  Disabling leaves the node schedulable, without the drain taint,
    without request and without condition.  The handlers send their updates past the node
    webhook: its check lets the update of enabling through exactly when another stored node
    is schedulable and not in maintenance, and that of disabling always. *)
Theorem offered_actions_accepted w name o force :
  world_wf w -> st_objs (w_nodes w) !! name = Some o -> freshVMs w ->
  (forall k o, st_objs (w_vms w) !! k = Some o -> hasRunStrategy (o_val o)) ->
  let offered a := str_in a (Formatter true (Some (o_val o))) in
  (offered enableMaintenanceModeAction = true <->
     (enableMaintenanceMode (Some force) name (quiet w)).1 = Ok tt) /\
  (offered disableMaintenanceModeAction = true <->
     (disableMaintenanceMode name (quiet w)).1 = Ok tt) /\
  (offered disableMaintenanceModeAction = true ->
   exists o', st_objs (w_nodes (sys_world (disableMaintenanceMode name (quiet w)).2)) !! name = Some o' /\
     phaseOf (o_val o') = PIdle /\ HasDrainRequest (Some (o_val o')) = false /\
     node_Unschedulable (o_val o') = false /\
     forall t, t ∈ node_Taints (o_val o') -> t_Key t <> UpgradeNodeDrainTaintKey) /\
  (offered clearMaintenanceModeAction = true ->
     (clearMaintenanceMode name (quiet w)).1 = Ok tt /\
     phaseAt (sys_world (clearMaintenanceMode name (quiet w)).2) name = PIdle) /\
  (offered enableMaintenanceModeAction = false ->
     (enableMaintenanceMode (Some force) name (quiet w)).2 = quiet w) /\
  (offered disableMaintenanceModeAction = false ->
     (disableMaintenanceMode name (quiet w)).2 = quiet w) /\
  (offered clearMaintenanceModeAction = false ->
     (clearMaintenanceMode name (quiet w)).2 = quiet w) /\
  (offered enableMaintenanceModeAction = true ->
     sys_world (enableMaintenanceMode (Some force) name (quiet w)).2
       = storeNode name (mergeNode (o_val o) (enableRequested force (o_val o))) w /\
     (validateCordonAndMaintenanceMode (o_val o) (enableRequested force (o_val o)) (storedNodes w)
        = Ok tt <->
      exists name' o', st_objs (w_nodes w) !! name' = Some o' /\ name' <> name /\
        IsMaintenanceModeEngaged (Some (o_val o')) = false /\
        node_Unschedulable (o_val o') = false)) /\
  validateCordonAndMaintenanceMode (o_val o) (disableMaintenanceModeFunc (o_val o)) (storedNodes w)
    = Ok tt.
Proof.
  intros Hw Ho Hf Hrs offered. subst offered. cbv beta.
  rewrite offered_enable, offered_disable, offered_clear.
  rewrite (enable_run w name o Hw Ho force). cbv zeta.
  split_and!.
  - destruct (bool_decide _), (HasDrainRequest _); simpl; naive_solver.
  - split.
    + intros Hc. by destruct (disable_run w name o Hw Ho Hf Hrs Hc) as (w' & o' & -> & _).
    + intros Hr. destruct (CanNodeDisableMaintenanceMode _) eqn:Hc; [done|].
      by rewrite (disable_refused w name o Ho Hc) in Hr.
  - intros Hc. destruct (disable_run w name o Hw Ho Hf Hrs Hc) as (w' & o' & -> & Hrest). eauto.
  - intros Hr. unfold clearMaintenanceMode. rewrite (remove_run w name o Hw Ho true); [|by apply (removable_cond true)|done].
    split; [done|]. cbn [snd quiet sys_world]. rewrite phaseAt_storeNode, phaseOf_Remove. by case_decide.
  - destruct (bool_decide _), (HasDrainRequest _); naive_solver.
  - intros Hc. by rewrite (disable_refused w name o Ho Hc).
  - intros Hr. unfold clearMaintenanceMode.
    destruct (GetMaintenanceModeCondition (Some (o_val o))) as [c|] eqn:Hc.
    + destruct (remove_refused w name o Ho true) as [e ->]; [congruence|done|done].
    + by rewrite (remove_none w name o true Ho Hc).
  - intros [H1%negb_true_iff H2%negb_true_iff]%andb_true_iff. rewrite H1, H2. split; [done|].
    rewrite (enable_admitted force (o_val o)) by done. setoid_rewrite storedNodes_elem.
    assert (Hn : forall k x, st_objs (w_nodes w) !! k = Some x -> node_Name (o_val x) = k) by apply Hw.
    rewrite (Hn _ _ Ho). split.
    + intros (m & (k & x & Hx & <-) & Hne & ? & ?). exists k, x. by rewrite (Hn _ _ Hx) in Hne.
    + intros (k & x & Hx & Hne & ? & ?). exists (o_val x). rewrite (Hn _ _ Hx). split_and!; eauto.
  - apply disable_admitted.
Qed.

(** A node in maintenance may be taken back; a healthy node may be put in maintenance, but the
    webhook stops it when it is the only one. *)
Lemma offered_actions_accepted_witness :
  (str_in disableMaintenanceModeAction (Formatter true (Some completedNode)) = true /\
   (disableMaintenanceMode "a" (quiet completedWorld)).1 = Ok tt /\
   (enableMaintenanceMode (Some "") "a" (quiet completedWorld)).2 = quiet completedWorld) /\
  let alone := demoWorld [demoNode "a" [] []] [] [] in
  (enableMaintenanceMode (Some "") "a" (quiet alone)).1 = Ok tt /\
  validateCordonAndMaintenanceMode (demoNode "a" [] []) (enableRequested "" (demoNode "a" [] []))
    (storedNodes alone) <> Ok tt.
Proof.
  split.
  - destruct (offered_actions_accepted completedWorld "a" (mkObj 1 completedNode) "")
      as (_ & Hd & _ & _ & He & _).
    + apply world_wfb_ok. by vm_compute.
    + by vm_compute.
    + apply freshVMsb_ok. by vm_compute.
    + apply demo_hasRunStrategy. by vm_compute.
    + split_and!; [by vm_compute|apply Hd; by vm_compute|apply He; by vm_compute].
  - intros alone.
    destruct (offered_actions_accepted alone "a" (mkObj 1 (demoNode "a" [] [])) "")
      as (He & _ & _ & _ & _ & _ & _ & Hadm & _).
    + apply world_wfb_ok. by vm_compute.
    + by vm_compute.
    + apply freshVMsb_ok. by vm_compute.
    + apply demo_hasRunStrategy. by vm_compute.
    + split; [apply He; by vm_compute|]. destruct Hadm as [_ Hadm]; [by vm_compute|].
      rewrite Hadm. intros (k & x & Hx & Hne & _).
      assert (H : map_Forall (fun k _ => k = "a") (st_objs (w_nodes alone))) by by_eval.
      by apply Hne, (H k x).
Defined.

(** ** A disable overtaken by a new request *)

(** What happens between the first and the second call of one disable: another disable runs
    to its end, maintenance is requested anew and taken up by the drain controller. *)
Definition meanwhile (w : World) : World :=
  let w := sys_world (disableMaintenanceMode "a" (quiet w)).2 in
  let w := sys_world (enableMaintenanceMode (Some "") "a" (quiet w)).2 in
  reconcile "a" w.

Definition overtaken : World :=
  sys_world (disableMaintenanceMode "a"
    (mkSys completedWorld [mkTurn id None; mkTurn meanwhile None])).2.

(** The check at the start of a disable is not repeated before its first write, so a disable
    that is overtaken by a new attempt drops the request of that attempt and then fails.  The
    node is left validating without a request: no reconcile moves it on, and no action of the
    API is offered to get it out of there. *)
Theorem overtaken_disable_strands_node :
  phaseAt (meanwhile completedWorld) "a" = PValidating /\
  (disableMaintenanceMode "a" (mkSys completedWorld [mkTurn id None; mkTurn meanwhile None])).1
    = Err errConcurrent /\
  exists o, st_objs (w_nodes overtaken) !! "a" = Some o /\
    phaseOf (o_val o) = PValidating /\ HasDrainRequest (Some (o_val o)) = false /\
    (forall s, OnNodeChange (LL := Demo.demoLabels) (MO := Demo.demoRange) (NA := Demo.demoAffinity)
       demoEnv (Some o) s = (Ok (Some o), s)) /\
    (forall s, OnNodeChanged (LL := Demo.demoLabels) (Some o) s = (Ok (Some o), s)) /\
    forall a, a ∈ [enableMaintenanceModeAction; disableMaintenanceModeAction;
                   clearMaintenanceModeAction] -> a ∉ Formatter true (Some (o_val o)).
Proof.
  split; [by vm_compute|]. split; [by vm_compute|].
  destruct (st_objs (w_nodes overtaken) !! "a") as [o|] eqn:Ho; [|by vm_compute in Ho].
  exists o. assert (Some o = st_objs (w_nodes overtaken) !! "a") as Ho' by done.
  vm_compute in Ho'. injection Ho' as ->. clear Ho. split_and!; [done|..].
  - by vm_compute.
  - by vm_compute.
  - intros s. reflexivity.
  - intros s. reflexivity.
  - intros a Ha Hin. set_unfold. destruct_or? Ha; subst a; revert Hin;
      apply (bool_decide_unpack _); by vm_compute.
Qed.

(** ** Power actions *)

(** A power action writes the inventory only for a node that has been drained, only for an
    operation it knows, and only once the previous request has a status.  Whatever it is
    called with, on any refusal or error before that the inventory stays as it is. *)
Theorem powerAction_guarded E operation inv inv' r :
  powerAction E operation inv = (r, inv') -> inv' <> inv ->
  (exists n, pe_node E = Ok n /\ IsNodeMaintenanceModeDrainComplete (Some n) = true) /\
  operation ∈ possiblePowerActions /\
  exists obj, inv = Some obj /\
    forall old, NestedString obj ["spec"; "powerActionRequested"] = Ok (Some old) ->
      exists m, NestedMap obj ["status"; "powerAction"] = Ok (Some m) /\
        exists s, fieldOf "actionStatus" m = Some s /\ s <> JStr "".
Proof.
  unfold powerAction. unfold mbind, M_bind, lift.
  destruct (pe_node E) as [n|e|]; [|by intros [= <- <-]..].
  destruct (IsNodeMaintenanceModeDrainComplete (Some n)) eqn:Hd; cbn [negb]; [|by intros [= <- <-]].
  destruct (str_in operation possiblePowerActions) eqn:Hop; cbn [negb]; [|by intros [= <- <-]].
  unfold fetchInventoryObject. destruct (pe_inventoryGet E); [by intros [= <- <-]|].
  destruct inv as [obj|]; [|by intros [= <- <-]].
  destruct (NestedMap obj ["status"; "powerAction"]) as [m|e|] eqn:Hm; [|by intros [= <- <-]..].
  destruct (NestedString obj ["spec"; "powerActionRequested"]) as [old|e|] eqn:Hs;
    [|by intros [= <- <-]..].
  intros Hr Hne. split; [by eauto|]. split; [by apply bool_decide_eq_true in Hop|].
  exists obj. split; [done|]. intros old' Hold.
  rewrite Hs in Hold. injection Hold as ->.
  destruct (actionPending (default [] m)) eqn:Hp.
  { cbv [throw] in Hr. destruct Hne. by injection Hr. }
  unfold actionPending in Hp. destruct m as [m|]; [|done]. exists m. split; [done|].
  simpl in Hp. destruct (fieldOf "actionStatus" m) as [s|]; [|done]. exists s. split; [done|].
  intros ->. by rewrite String.eqb_refl in Hp.
Qed.

Definition demoInventory : list (string * Json) :=
  [("spec", JObj [("powerActionRequested", JStr "shutdown")]);
   ("status", JObj [("status", JStr nodeReadyStatus);
                    ("powerAction", JObj [("actionStatus", JStr "complete")])])].

Lemma powerAction_guarded_witness :
  let E := mkPowerEnv (Ok completedNode) (Ok true) None (fun _ => None) (fun _ => None) in
  let '(r, inv') := powerAction E "reboot" (Some demoInventory) in
  r = Ok tt /\ inv' <> Some demoInventory /\ "reboot" ∈ possiblePowerActions.
Proof.
  intros E. destruct (powerAction E "reboot" (Some demoInventory)) as [r inv'] eqn:Hr.
  assert (r = (powerAction E "reboot" (Some demoInventory)).1) as -> by by rewrite Hr.
  assert (Hi : inv' = (powerAction E "reboot" (Some demoInventory)).2) by by rewrite Hr.
  assert (inv' <> Some demoInventory) as Hne by (rewrite Hi; by vm_compute).
  split; [by vm_compute|]. split; [done|].
  apply (powerAction_guarded E "reboot" (Some demoInventory) inv' _ Hr Hne).
Defined.
