(* ===== verification/NodeDown.v ===== *)
(** Nodes that stop reporting: [pkg/controller/master/node/node_down_controller.go] with the
    policy of [pkg/settings/settings_helper.go], and the annotations
    [pkg/controller/master/node/condition_annotations.go] derives from it.

    A node whose kubelet is silent gets KubeVirt's drain taint, so that its VMs migrate, and
    a Drained condition; when the migration timeout is over it gets the out-of-service taint,
    so that what is left is deleted by force.  A node that is back loses all three.  The
    handlers run on the world of Maintenance.v, under interference. *)

From S2P Require Import Prelude K8s NodeUtil ApiServer Maintenance NodeDrain NodeActions.

Local Open Scope Z_scope.

(** ** The policy ([settings_helper.go]) *)

Record VMForceResetPolicy := mkPolicy {
  Enable : bool; Period : Z; VMMigrationTimeout : Z }.

Section Policy.
Context {JP : JsonCodec VMForceResetPolicy}.

Definition InitVMForceResetPolicy : string := json_marshal (mkPolicy true 15 180).

Definition DecodeVMForceResetPolicy (value : string) : outcome VMForceResetPolicy :=
  match json_unmarshal value with
  | None => Err (ErrText ("unmarshal failed, value: " +:+ value))
  | Some policy =>
      if Period policy <=? 0 then
        Err (ErrText ("period value should be greater than 0, value: " +:+ pretty (Period policy)))
      else if VMMigrationTimeout policy <? 0 then
        Err (ErrText ("vmMigrationTimeout value should be greater than 0, value: "
                      +:+ pretty (VMMigrationTimeout policy)))
      else if VMMigrationTimeout policy =? 0 then
        Ok (mkPolicy (Enable policy) (Period policy) 180)
      else Ok policy
  end.
End Policy.

(** ** Upgrades in progress *)

Definition LabelHarvesterUpgradeState : string := "harvesterhci.io/upgradeState".
Definition StateSucceeded : string := "Succeeded".
Definition StateFailed : string := "Failed".
Definition upgradePlanPhaseSucceeded : string := "Succeeded".
Definition upgradePlanPhaseFailed : string := "Failed".

(** What the handler asks outside the node store: the setting, the labels of the Upgrade
    objects, and the phases of the UpgradePlans ([None] without a dynamic client; a plan
    without a phase reads as the empty string). *)
Record DownEnv := mkDownEnv {
  dn_policy : string;
  dn_upgrades : outcome (list (gomap string));
  dn_plans : option (outcome (list (option string))) }.

(** The selector [upgradeState notin (Succeeded, Failed)], which an absent label meets. *)
Definition ongoing (labels : gomap string) : bool :=
  match gm_get labels LabelHarvesterUpgradeState with
  | None => true
  | Some v => negb (str_in v [StateSucceeded; StateFailed])
  end.

Definition isOnUpgradeV1 (D : DownEnv) : bool :=
  match dn_upgrades D with
  | Ok items => match List.filter ongoing items with [] => false | _ :: _ => true end
  | _ => false
  end.

Fixpoint planInProgress (plans : list (option string)) : bool :=
  match plans with
  | [] => false
  | plan :: plans =>
      let phase := default "" plan in
      if String.eqb phase upgradePlanPhaseSucceeded || String.eqb phase upgradePlanPhaseFailed
      then planInProgress plans else true
  end.

Definition isOnUpgradeV2 (D : DownEnv) : bool :=
  match dn_plans D with
  | Some (Ok plans) => planInProgress plans
  | _ => false
  end.

Definition isOnUpgrade (D : DownEnv) : bool :=
  if isOnUpgradeV1 D then true else isOnUpgradeV2 D.

(** ** The controller *)

Definition NodeDrainTaintDefaultKey : string := "kubevirt.io/drain".
Definition TaintNodeOutOfService : string := "node.kubernetes.io/out-of-service".
Definition kubevirtDrainTaint : Taint := mkTaint NodeDrainTaintDefaultKey "" TaintEffectNoSchedule.
Definition nonGracefulTaint : Taint := mkTaint TaintNodeOutOfService "" TaintEffectNoExecute.
Definition HarvesterNodeCondDrained : string := "Drained".
Definition HarvesterNodeDrainedCondReasonDraining : string := "HarvesterNodeIsDraining".
Definition HarvesterNodeDrainedCondReasonDrained : string := "HarvesterNodeIsDrained".
Definition HarvesterNodeDrainedCondMsg : string :=
  "Node is draining due to kubelet/node not ready.".

Fixpoint getNodeTaint (taints : list Taint) (taintKey : string) : option Taint :=
  match taints with
  | [] => None
  | t :: ts => if String.eqb (t_Key t) taintKey then Some t else getNodeTaint ts taintKey
  end.

Definition addTaints (node : Obj Node) (taints : list Taint) : Act (Obj Node) :=
  let newTaints := node_Taints (o_val node) ++ taints in
  if bool_decide (node_Taints (o_val node) = newTaints) then mret node
  else nodes_Update (mkObj (o_rv node) (node_set_Taints newTaints (o_val node))).

Definition removeTaints (node : Obj Node) (taintKeys : list string) : Act unit :=
  let newTaints := List.filter (fun t => negb (str_in (t_Key t) taintKeys))
                     (node_Taints (o_val node)) in
  if bool_decide (node_Taints (o_val node) = newTaints) then mret tt
  else nodes_Update (mkObj (o_rv node) (node_set_Taints newTaints (o_val node)));; mret tt.

Definition createOrUpdateNodeCondition (node : Obj Node) (condType status reason message : string)
  : Act (Obj Node) :=
  now ← metaNow;
  nodes_UpdateStatus
    (mkObj (o_rv node) (SetNodeStatusCondition now (o_val node) condType status reason message)).

Definition notDrained (c : NodeCondition) : bool :=
  negb (String.eqb (nc_Type c) HarvesterNodeCondDrained).

Definition removeHarvesterNodeDrainedCond (node : Obj Node) : Act unit :=
  nodes_UpdateStatus (mkObj (o_rv node)
    (node_set_Conditions (List.filter notDrained (node_Conditions (o_val node))) (o_val node)));;
  mret tt.

(** [time.Until(cond.LastTransitionTime.Add(time.Duration(timeout) * time.Second))] *)
Definition requeueInterval (cond : NodeCondition) (timeout now : Z) : Z :=
  timeSub (nc_LastTransitionTime cond * second + int64 (timeout * second)) now.

(** The condition is a pointer the code assumes is not nil. *)
Definition calculateRequeueInterval (cond : option NodeCondition) (timeout : Z) : Act Z :=
  match cond with
  | None => lift Panic
  | Some c => now ← timeNow; mret (requeueInterval c timeout now)
  end.

Definition triggerMigration (node : Obj Node) : Act unit :=
  nodeObj ← mapErr (ErrWrap ("failed to add kubevirt drain taint to node "
                             +:+ node_Name (o_val node)))
                   (addTaints node [kubevirtDrainTaint]);
  mapErr (ErrWrap ("failed to create or update HarvesterNodeDrained condition (draining) for node "
                   +:+ node_Name (o_val node)))
    (createOrUpdateNodeCondition nodeObj HarvesterNodeCondDrained ConditionFalse
       HarvesterNodeDrainedCondReasonDraining HarvesterNodeDrainedCondMsg);;
  mret tt.

Definition forceNodeCleanup (node : Obj Node) : Act unit :=
  mapErr (ErrWrap ("failed to add non-graceful taint to node " +:+ node_Name (o_val node)))
    (addTaints node [nonGracefulTaint]);;
  mret tt.

Definition addKubevirtTaintAfterExtraTimeout (node : Obj Node) (cond : option NodeCondition)
    (extraTime : Z) : Act unit :=
  match getNodeTaint (node_Taints (o_val node)) NodeDrainTaintDefaultKey with
  | Some _ => mret tt
  | None =>
      requeue ← calculateRequeueInterval cond extraTime;
      if 0 <? requeue then enqueueAfter (node_Name (o_val node)) requeue
      else triggerMigration node
  end.

Definition waitAndAddOutOfServiceTaint (node : Obj Node) (cond : option NodeCondition)
    (vmMigrationTimeout : Z) : Act unit :=
  requeue ← calculateRequeueInterval cond vmMigrationTimeout;
  if 0 <? requeue then enqueueAfter (node_Name (o_val node)) requeue
  else
    mapErr (ErrWrap ("failed to cleanup stuck resources for node " +:+ node_Name (o_val node)))
      (forceNodeCleanup node);;
    createOrUpdateNodeCondition node HarvesterNodeCondDrained ConditionTrue
      HarvesterNodeDrainedCondReasonDrained HarvesterNodeDrainedCondMsg;;
    mret tt.

Section Handler.
Context {JP : JsonCodec VMForceResetPolicy} (D : DownEnv).

Definition fetchVMForceResetPolicy : Act VMForceResetPolicy :=
  mapErr (ErrWrap "failed to decode VMForceResetPolicy setting")
    (lift (DecodeVMForceResetPolicy (dn_policy D))).

(** The branch of [checkNodeReady] for a silent kubelet. *)
Definition nodeUnknown (node : Obj Node) (cond : NodeCondition) : Act unit :=
  let taints := node_Taints (o_val node) in
  vmForceResetPolicy ← mapErr (ErrWrap "failed to fetch VMForceResetPolicy setting")
                              fetchVMForceResetPolicy;
  if negb (Enable vmForceResetPolicy) then mret tt
  else
    let drainCondition :=
      FindNodeStatusCondition (node_Conditions (o_val node)) HarvesterNodeCondDrained in
    let hasKubevirtDrainTaint :=
      bool_decide (is_Some (getNodeTaint taints NodeDrainTaintDefaultKey)) in
    let hasOutOfServiceTaint :=
      bool_decide (is_Some (getNodeTaint taints TaintNodeOutOfService)) in
    let goOn :=
      match getNodeTaint taints NodeDrainTaintDefaultKey with
      | None => addKubevirtTaintAfterExtraTimeout node (Some cond) (Period vmForceResetPolicy)
      | Some _ =>
          match getNodeTaint taints TaintNodeOutOfService with
          | None => waitAndAddOutOfServiceTaint node drainCondition
                      (VMMigrationTimeout vmForceResetPolicy)
          | Some _ => mret tt
          end
      end in
    if hasKubevirtDrainTaint && hasOutOfServiceTaint then
      match drainCondition with
      | None => lift Panic
      | Some c =>
          if String.eqb (nc_Status c) ConditionFalse then
            createOrUpdateNodeCondition node HarvesterNodeCondDrained ConditionTrue
              HarvesterNodeDrainedCondReasonDrained HarvesterNodeDrainedCondMsg;;
            mret tt
          else goOn
      end
    else goOn.

(** The branch for a node that is well again. *)
Definition nodeReady (node : Obj Node) : Act unit :=
  mapErr (ErrWrap ("failed to remove taints from node " +:+ node_Name (o_val node)))
    (removeTaints node [NodeDrainTaintDefaultKey; TaintNodeOutOfService]);;
  match FindNodeStatusCondition (node_Conditions (o_val node)) HarvesterNodeCondDrained with
  | None => mret tt
  | Some _ =>
      mapErr (ErrWrap ("failed to reset HarvesterNodeFailure condition for node "
                       +:+ node_Name (o_val node)))
        (removeHarvesterNodeDrainedCond node)
  end.

Definition checkNodeReady (node : Obj Node) : Act unit :=
  match FindNodeStatusCondition (node_Conditions (o_val node)) NodeReady with
  | None => throw (ErrText ("can't find Ready condition in node " +:+ node_Name (o_val node)))
  | Some cond =>
      if isOnUpgrade D then mret tt
      else if String.eqb (nc_Status cond) ConditionFalse then mret tt
      else if String.eqb (nc_Status cond) ConditionUnknown then nodeUnknown node cond
      else if String.eqb (nc_Status cond) ConditionTrue then nodeReady node
      else throw (ErrText ("unknown status " +:+ nc_Status cond
                           +:+ " for condition Ready in node " +:+ node_Name (o_val node)))
  end.

Definition OnNodeChanged (node : option (Obj Node)) : Act (option (Obj Node)) :=
  match node with
  | None => mret None
  | Some o =>
      if deleting (o_val o) then mret (Some o)
      else
        mapErr (ErrWrap ("failed to check node ready for node " +:+ node_Name (o_val o)))
          (checkNodeReady o);;
        mret (Some o)
  end.
End Handler.

(** ** [condition_annotations.go] *)

Definition HarvesterReportedConditionKey : string := "harvesterhci.io/condition".
Definition HarvesterReportedConditionMessageKey : string := "harvesterhci.io/condition-message".

(** The annotations the node should carry; a nil map is made an empty one. *)
Definition reportedAnnotations (node : Node) : gomap string :=
  let cond := FindNodeStatusCondition (node_Conditions node) HarvesterNodeCondDrained in
  let a := Some (default ∅ (node_Annotations node)) in
  match cond with
  | None =>
      gm_delete (gm_delete a HarvesterReportedConditionKey) HarvesterReportedConditionMessageKey
  | Some c =>
      let a := if String.eqb (nc_Status c) ConditionFalse
               then gm_delete (gm_delete a HarvesterReportedConditionKey)
                      HarvesterReportedConditionMessageKey
               else a in
      if String.eqb (nc_Status c) ConditionTrue
      then gm_set (gm_set a HarvesterReportedConditionKey HarvesterNodeCondDrained)
             HarvesterReportedConditionMessageKey (nc_Message c)
      else a
  end.

(** The copy of a nil node is nil, and its conditions are read at once. *)
Definition UpdateStatusAnnotations (node : option (Obj Node)) : Act (option (Obj Node)) :=
  match node with
  | None => lift Panic
  | Some o =>
      let a := reportedAnnotations (o_val o) in
      if negb (bool_decide (node_Annotations (o_val o) = a))
      then Some <$> nodes_Update (mkObj (o_rv o) (node_set_Annotations a (o_val o)))
      else mret (Some o)
  end.

(** ** What a pass should do

    The decision of the controller for a silent node, from what the node shows: the two
    taints and the Drained condition are the state, the clock and the policy the guards. *)
Inductive DownAct :=
| Nothing
| Wait (d : Z)         (* come back after [d] *)
| StartMigration       (* drain taint, then Drained=False *)
| ForceCleanup         (* out-of-service taint *)
| MarkDrained          (* Drained=True *)
| Crash.               (* the Drained condition the code relies on is missing *)

Definition hasTaint (key : string) (n : Node) : bool :=
  bool_decide (is_Some (getNodeTaint (node_Taints n) key)).
Definition drainedCond (n : Node) : option NodeCondition :=
  FindNodeStatusCondition (node_Conditions n) HarvesterNodeCondDrained.
Definition readyCond (n : Node) : option NodeCondition :=
  FindNodeStatusCondition (node_Conditions n) NodeReady.

Definition waitOr (d : Z) (act : DownAct) : DownAct := if 0 <? d then Wait d else act.

Definition downAct (p : VMForceResetPolicy) (now : Z) (ready : NodeCondition) (n : Node) : DownAct :=
  if hasTaint NodeDrainTaintDefaultKey n then
    match drainedCond n with
    | None => Crash
    | Some c =>
        if hasTaint TaintNodeOutOfService n then
          if String.eqb (nc_Status c) ConditionFalse then MarkDrained else Nothing
        else waitOr (requeueInterval c (VMMigrationTimeout p) now) ForceCleanup
    end
  else waitOr (requeueInterval ready (Period p) now) StartMigration.

Definition withTaint (t : Taint) (n : Node) : Node := node_set_Taints (node_Taints n ++ [t]) n.
Definition withDrained (now : Z) (status reason : string) (n : Node) : Node :=
  SetNodeStatusCondition (now / second) n HarvesterNodeCondDrained status reason
    HarvesterNodeDrainedCondMsg.
Definition draining : Z -> Node -> Node :=
  fun now => withDrained now ConditionFalse HarvesterNodeDrainedCondReasonDraining.
Definition drained : Z -> Node -> Node :=
  fun now => withDrained now ConditionTrue HarvesterNodeDrainedCondReasonDrained.

Definition enqueued (name : string) (d : Z) (w : World) : World :=
  mkWorld (w_nodes w) (w_vms w) (w_cache w) (w_now w) (w_enqueued w ++ [(name, d)]).

(** How a pass that decides so ends, and what it leaves. *)
Definition carriesOut (act : DownAct) (name : string) (o : Obj Node) (w : World)
    (r : outcome (option (Obj Node))) (w' : World) : Prop :=
  let n := o_val o in
  let tainted := withTaint kubevirtDrainTaint n in
  match act with
  | Nothing => r = Ok (Some o) /\ w' = w
  | Wait d => r = Ok (Some o) /\ w' = enqueued name d w
  | StartMigration =>
      r = Ok (Some o) /\
      w' = storeNode name (draining (w_now w) tainted) (storeNode name tainted w)
  | ForceCleanup =>
      (exists e, r = Err e /\ IsConflict e = true) /\
      w' = storeNode name (withTaint nonGracefulTaint n) w
  | MarkDrained => r = Ok (Some o) /\ w' = storeNode name (drained (w_now w) n) w
  | Crash => r = Panic /\ w' = w
  end.

(** ** Lemmas on taints and conditions *)

Lemma getNodeTaint_app ts ts' key :
  getNodeTaint (ts ++ ts') key =
  match getNodeTaint ts key with Some t => Some t | None => getNodeTaint ts' key end.
Proof. induction ts as [|t ts IH]; simpl; [done|]. by destruct (String.eqb _ _). Qed.

Lemma hasTaint_with key t n :
  hasTaint key (withTaint t n) = hasTaint key n || String.eqb (t_Key t) key.
Proof.
  unfold hasTaint, withTaint. simpl. rewrite getNodeTaint_app.
  destruct (getNodeTaint (node_Taints n) key); simpl; [done|]. by destruct (String.eqb _ _).
Qed.

Lemma getNodeTaint_filter ts keys key :
  getNodeTaint (List.filter (fun t => negb (str_in (t_Key t) keys)) ts) key =
  if str_in key keys then None else getNodeTaint ts key.
Proof.
  induction ts as [|t ts IH]; simpl; [by destruct (str_in key keys)|].
  destruct (str_in (t_Key t) keys) eqn:Et; simpl; destruct (String.eqb_spec (t_Key t) key) as [Ek|Ek];
    rewrite ?IH; try done.
  - subst. by rewrite Et.
  - subst. by rewrite Et.
Qed.

Lemma FindNodeStatusCondition_app cs cs' ty :
  FindNodeStatusCondition (cs ++ cs') ty =
  match FindNodeStatusCondition cs ty with
  | Some c => Some c
  | None => FindNodeStatusCondition cs' ty
  end.
Proof. induction cs as [|c cs IH]; simpl; [done|]. by destruct (String.eqb _ _). Qed.

(** The condition written is the one read, and the others are left alone. *)
Lemma Find_SetNodeStatusCondition now n ty st re msg ty' :
  FindNodeStatusCondition (node_Conditions (SetNodeStatusCondition now n ty st re msg)) ty' =
  if decide (ty = ty') then
    Some (mkNodeCond ty st
            (match FindNodeStatusCondition (node_Conditions n) ty with
             | Some c => if String.eqb (nc_Status c) st then nc_LastTransitionTime c else now
             | None => now
             end) now re msg)
  else FindNodeStatusCondition (node_Conditions n) ty'.
Proof.
  unfold SetNodeStatusCondition.
  destruct (FindNodeStatusCondition (node_Conditions n) ty) as [c|] eqn:Ec; simpl.
  - pose proof (FindNodeStatusCondition_in _ _ _ Ec) as [_ Ht]. rewrite Ht.
    set (cond := mkNodeCond _ _ _ _ _ _).
    assert (cond = mkNodeCond ty st
      (if String.eqb (nc_Status c) st then nc_LastTransitionTime c else now) now re msg) as <-.
    { unfold cond. by destruct (String.eqb _ _). }
    assert (nc_Type cond = ty) as Hty by done. clearbody cond. clear Ht.
    revert Ec. induction (node_Conditions n) as [|c' cs IH]; simpl; [done|].
    destruct (String.eqb_spec (nc_Type c') ty) as [E|E]; simpl.
    + intros _. rewrite Hty, E. case_decide as Et.
      * by rewrite Et, String.eqb_refl.
      * destruct (String.eqb_spec ty ty'); [done|].
        clear -Hty Et. induction cs as [|c' cs IH]; simpl; [done|].
        destruct (String.eqb_spec (nc_Type c') ty) as [E|]; simpl; [|by rewrite IH].
        rewrite Hty, E. by destruct (String.eqb_spec ty ty').
    + intros Ec. rewrite IH by done.
      destruct (String.eqb_spec (nc_Type c') ty'); [|done]. by case_decide; simplify_eq.
  - rewrite FindNodeStatusCondition_app. simpl. case_decide as E.
    + subst. by rewrite Ec, String.eqb_refl.
    + destruct (String.eqb_spec ty ty'); [done|]. by destruct (FindNodeStatusCondition _ ty').
Qed.

Lemma SetNodeStatusCondition_status_only now n ty st re msg :
  node_set_Conditions (node_Conditions (SetNodeStatusCondition now n ty st re msg)) n
  = SetNodeStatusCondition now n ty st re msg.
Proof. unfold SetNodeStatusCondition. by destruct (FindNodeStatusCondition _ _). Qed.

Lemma SetNodeStatusCondition_Name now n ty st re msg :
  node_Name (SetNodeStatusCondition now n ty st re msg) = node_Name n.
Proof. unfold SetNodeStatusCondition. by destruct (FindNodeStatusCondition _ _). Qed.

Lemma SetNodeStatusCondition_Taints now n ty st re msg :
  node_Taints (SetNodeStatusCondition now n ty st re msg) = node_Taints n.
Proof. unfold SetNodeStatusCondition. by destruct (FindNodeStatusCondition _ _). Qed.

Lemma Find_removed cs ty :
  FindNodeStatusCondition (List.filter notDrained cs) ty =
  if decide (ty = HarvesterNodeCondDrained) then None else FindNodeStatusCondition cs ty.
Proof.
  unfold notDrained. induction cs as [|c cs IH]; simpl; [by case_decide|].
  destruct (String.eqb_spec (nc_Type c) HarvesterNodeCondDrained) as [E|E]; simpl.
  - rewrite IH. case_decide; [done|]. destruct (String.eqb_spec (nc_Type c) ty); congruence.
  - rewrite IH. destruct (String.eqb_spec (nc_Type c) ty) as [<-|]; [|done].
    by rewrite decide_False.
Qed.

Lemma app_neq {A} (l : list A) x : l <> l ++ [x].
Proof. intros H%(f_equal length). rewrite length_app in H. simpl in H. lia. Qed.

(** ** Passes without interference *)

(** A node write goes through when it carries the stored version, and is refused with a
    conflict, leaving the world alone, when it carries another. *)
Lemma call_undisturbed {W A} (f : W -> outcome A * W) w ts :
  call f (mkSys w (mkTurn id None :: ts)) =
  let '(r, s) := call f (quiet w) in (r, mkSys (sys_world s) ts).
Proof. unfold call, quiet. simpl. by destruct (f w). Qed.

Section Writes.
Context (w : World) (name : string) (o : Obj Node).
Hypothesis Ho : st_objs (w_nodes w) !! name = Some o.

Lemma spec_write_run n :
  node_Name n = name -> node_Conditions n = node_Conditions (o_val o) ->
  nodes_Update (mkObj (o_rv o) n) (quiet w) =
  (Ok (mkObj (st_rv (w_nodes w) + 1) n), quiet (storeNode name n w)).
Proof using Ho.
  intros Hn Hc. rewrite (nodes_Update_run w name o Ho n Hn). unfold mergeNode. by rewrite <- Hc, node_set_Conditions_id.
Qed.

Lemma nodes_status_run n :
  node_Name n = name -> node_set_Conditions (node_Conditions n) (o_val o) = n ->
  nodes_UpdateStatus (mkObj (o_rv o) n) (quiet w) =
  (Ok (mkObj (st_rv (w_nodes w) + 1) n), quiet (storeNode name n w)).
Proof using Ho.
  intros Hn Hc. unfold nodes_UpdateStatus. cbn [o_val]. rewrite Hn, (nodes_write_run w name o Ho).
  unfold mergeNodeStatus. by rewrite Hc.
Qed.

Lemma stale_status_run n rv :
  node_Name n = name -> rv <> o_rv o ->
  nodes_UpdateStatus (mkObj rv n) (quiet w) =
  (Err (ApiConflict "the object has been modified"), quiet w).
Proof using Ho.
  intros Hn Hrv. unfold nodes_UpdateStatus, apiUpdate. cbn [o_val]. rewrite Hn, call_quiet.
  unfold store_write. simpl. rewrite Ho. cbn [o_rv].
  destruct (Z.eqb_spec (o_rv o) rv); [congruence|]. by destruct w.
Qed.
End Writes.

Lemma storeNode_lookup name n w :
  st_objs (w_nodes (storeNode name n w)) !! name = Some (mkObj (st_rv (w_nodes w) + 1) n).
Proof. apply lookup_insert_eq. Qed.

(** The version stored last differs from every one handed out before. *)
Lemma storeNode_fresh name w (o : Obj Node) :
  store_wf (w_nodes w) -> st_objs (w_nodes w) !! name = Some o ->
  o_rv o <> st_rv (w_nodes w) + 1.
Proof. intros Hwf Ho. specialize (Hwf _ _ Ho). lia. Qed.

Section Passes.
Context (w : World) (name : string) (o : Obj Node).
Hypothesis Hwf : world_wf w.
Hypothesis Ho : st_objs (w_nodes w) !! name = Some o.

Lemma pass_name : node_Name (o_val o) = name.
Proof using Hwf Ho. by apply Hwf. Qed.

Lemma addTaints_run t :
  addTaints o [t] (quiet w) =
  (Ok (mkObj (st_rv (w_nodes w) + 1) (withTaint t (o_val o))),
   quiet (storeNode name (withTaint t (o_val o)) w)).
Proof using Hwf Ho.
  unfold addTaints. rewrite bool_decide_eq_false_2 by apply app_neq.
  by apply (spec_write_run w name o Ho); [apply pass_name|].
Qed.

Lemma addTaints_turn t ts :
  addTaints o [t] (mkSys w (mkTurn id None :: ts)) =
  (Ok (mkObj (st_rv (w_nodes w) + 1) (withTaint t (o_val o))),
   mkSys (storeNode name (withTaint t (o_val o)) w) ts).
Proof using Hwf Ho.
  pose proof (addTaints_run t) as H. unfold addTaints in *.
  rewrite bool_decide_eq_false_2 in * by apply app_neq.
  unfold nodes_Update, apiUpdate in *. by rewrite call_undisturbed, H.
Qed.

Lemma condition_run st re :
  createOrUpdateNodeCondition o HarvesterNodeCondDrained st re HarvesterNodeDrainedCondMsg (quiet w) =
  (Ok (mkObj (st_rv (w_nodes w) + 1) (withDrained (w_now w) st re (o_val o))),
   quiet (storeNode name (withDrained (w_now w) st re (o_val o)) w)).
Proof using Hwf Ho.
  unfold createOrUpdateNodeCondition. erewrite bind_run by done. cbn [quiet sys_world].
  apply (nodes_status_run w name o Ho); unfold withDrained.
  - rewrite SetNodeStatusCondition_Name. apply pass_name.
  - apply SetNodeStatusCondition_status_only.
Qed.
End Passes.

Section UnknownPass.
Context (p : VMForceResetPolicy) (w : World) (name : string) (o : Obj Node).
Hypothesis Hwf : world_wf w.
Hypothesis Ho : st_objs (w_nodes w) !! name = Some o.

Lemma triggerMigration_run :
  let tainted := withTaint kubevirtDrainTaint (o_val o) in
  triggerMigration o (quiet w) =
  (Ok tt, quiet (storeNode name (draining (w_now w) tainted) (storeNode name tainted w))).
Proof using Hwf Ho.
  intros tainted. unfold triggerMigration.
  erewrite bind_run by (apply mapErr_run; by apply addTaints_run).
  assert (Hwf' : world_wf (storeNode name tainted w)).
  { apply (evolves_storeNode (fun _ _ _ => True)); [|apply rtc_once; done|done].
    by apply (pass_name w name o Hwf Ho). }
  erewrite bind_run; [done|]. apply mapErr_run.
  exact (condition_run (storeNode name tainted w) name _ Hwf' (storeNode_lookup _ _ _) _ _).
Qed.

Lemma cleanup_run c :
  (0 <? requeueInterval c (VMMigrationTimeout p) (w_now w)) = false ->
  waitAndAddOutOfServiceTaint o (Some c) (VMMigrationTimeout p) (quiet w) =
  (Err (ApiConflict "the object has been modified"),
   quiet (storeNode name (withTaint nonGracefulTaint (o_val o)) w)).
Proof using Hwf Ho.
  intros Hd. unfold waitAndAddOutOfServiceTaint, calculateRequeueInterval.
  erewrite bind_run; [|by erewrite bind_run]. cbn [quiet sys_world]. rewrite Hd.
  unfold forceNodeCleanup. erewrite bind_run; cycle 1.
  { apply mapErr_run. erewrite bind_run by (apply mapErr_run; by apply addTaints_run). done. }
  unfold createOrUpdateNodeCondition. unfold mbind at 1, M_bind at 1. erewrite bind_run by done.
  erewrite stale_status_run; [done|apply storeNode_lookup| |].
  - rewrite SetNodeStatusCondition_Name. by apply (pass_name w name o Hwf Ho).
  - simpl. eapply storeNode_fresh; [apply Hwf|exact Ho].
Qed.

Lemma waitOr_run c timeout act (m : Act unit) :
  m = (requeue ← calculateRequeueInterval (Some c) timeout;
       if 0 <? requeue then enqueueAfter (node_Name (o_val o)) requeue else act) ->
  m (quiet w) =
  if 0 <? requeueInterval c timeout (w_now w)
  then (Ok tt, quiet (enqueued (node_Name (o_val o)) (requeueInterval c timeout (w_now w)) w))
  else act (quiet w).
Proof using.
  intros ->. unfold calculateRequeueInterval. erewrite bind_run; [|by erewrite bind_run].
  cbn [quiet sys_world]. by destruct (0 <? _).
Qed.
End UnknownPass.

Lemma hasTaint_get key n :
  hasTaint key n = match getNodeTaint (node_Taints n) key with Some _ => true | None => false end.
Proof. unfold hasTaint. by destruct (getNodeTaint _ _). Qed.

Section Exact.
Context {JP : JsonCodec VMForceResetPolicy} (D : DownEnv) (p : VMForceResetPolicy).
Context (w : World) (name : string) (o : Obj Node) (ready : NodeCondition).

(** A silent node, a policy in force, no upgrade. *)
Definition silent : Prop :=
  world_wf w /\ st_objs (w_nodes w) !! name = Some o /\ deleting (o_val o) = false /\
  isOnUpgrade D = false /\ readyCond (o_val o) = Some ready /\
  nc_Status ready = ConditionUnknown /\
  DecodeVMForceResetPolicy (dn_policy D) = Ok p /\ Enable p = true.

Lemma silent_run :
  silent ->
  OnNodeChanged D (Some o) (quiet w) =
  ((_ ← mapErr (ErrWrap ("failed to check node ready for node " +:+ node_Name (o_val o)))
        (nodeUnknown D o ready); mret (Some o)) (quiet w)).
Proof.
  intros (Hwf & Ho & Hdel & Hup & Hr & Hs & Hp & He). unfold OnNodeChanged, checkNodeReady.
  unfold readyCond in Hr. by rewrite Hdel, Hr, Hup, Hs.
Qed.

Lemma nodeUnknown_exact :
  silent ->
  exists r w', OnNodeChanged D (Some o) (quiet w) = (r, quiet w') /\
    carriesOut (downAct p (w_now w) ready (o_val o)) name o w r w'.
Proof.
  intros Hs. rewrite (silent_run Hs). destruct Hs as (Hwf & Ho & Hdel & Hup & Hr & Hs & Hp & He).
  assert (Hn : node_Name (o_val o) = name) by by apply Hwf.
  unfold nodeUnknown, fetchVMForceResetPolicy. rewrite Hp.
  unfold downAct, waitOr. rewrite !hasTaint_get.
  unfold mbind at 1, M_bind at 1, mapErr at 1. erewrite bind_run by done. rewrite He. cbn [negb].
  fold (drainedCond (o_val o)).
  assert (Hmig : getNodeTaint (node_Taints (o_val o)) NodeDrainTaintDefaultKey = None ->
    addKubevirtTaintAfterExtraTimeout o (Some ready) (Period p) (quiet w) =
    if 0 <? requeueInterval ready (Period p) (w_now w)
    then (Ok tt, quiet (enqueued name (requeueInterval ready (Period p) (w_now w)) w))
    else triggerMigration o (quiet w)).
  { intros Et. unfold addKubevirtTaintAfterExtraTimeout. rewrite Et.
    erewrite waitOr_run by done. by rewrite Hn. }
  destruct (getNodeTaint (node_Taints (o_val o)) NodeDrainTaintDefaultKey) as [t|] eqn:Et;
    destruct (getNodeTaint (node_Taints (o_val o)) TaintNodeOutOfService) as [t'|] eqn:Et'; simpl;
    destruct (drainedCond (o_val o)) as [c|] eqn:Ec; try (by eexists _, _).
  3-6: rewrite Hmig by done; clear Hmig; destruct (0 <? _); [by eexists _, _|];
    erewrite triggerMigration_run by done; by eexists _, _.
  - destruct (String.eqb (nc_Status c) ConditionFalse); [|by eexists _, _].
    erewrite bind_run by (by apply condition_run). by eexists _, _.
  - clear Hmig. destruct (0 <? requeueInterval c _ _) eqn:Hd.
    + unfold waitAndAddOutOfServiceTaint.
      erewrite waitOr_run by done. rewrite Hd, Hn. by eexists _, _.
    + erewrite cleanup_run by done. eexists _, _. split; [done|]. split; [|done].
      eexists. split; [done|]. done.
Qed.
End Exact.

(** ** A node that is back *)

(** One pass of the controller over the stored node, undisturbed. *)
Definition pass `{JP : JsonCodec VMForceResetPolicy} (D : DownEnv) (name : string) (w : World)
  : outcome (option (Obj Node)) * World :=
  let '(r, s) := OnNodeChanged D (st_objs (w_nodes w) !! name) (quiet w) in (r, sys_world s).

Definition downKeys : list string := [NodeDrainTaintDefaultKey; TaintNodeOutOfService].
Definition untainted (n : Node) : Node :=
  node_set_Taints (List.filter (fun t => negb (str_in (t_Key t) downKeys)) (node_Taints n)) n.
Definition undrained (n : Node) : Node :=
  node_set_Conditions (List.filter notDrained (node_Conditions n)) n.

Lemma untainted_id n : untainted n = n <-> node_Taints n = node_Taints (untainted n).
Proof. destruct n. unfold untainted, node_set_Taints. simpl. split; congruence. Qed.

Lemma untainted_has key n : key ∈ downKeys -> hasTaint key (untainted n) = false.
Proof.
  intros Hk. rewrite hasTaint_get. unfold untainted. simpl. rewrite getNodeTaint_filter.
  unfold str_in. by rewrite bool_decide_eq_true_2.
Qed.

Lemma undrained_id n : drainedCond n = None -> undrained n = n.
Proof.
  intros Hn. unfold undrained. replace (List.filter _ _) with (node_Conditions n);
    [apply node_set_Conditions_id|].
  revert Hn. unfold drainedCond, notDrained. induction (node_Conditions n) as [|c cs IH]; simpl; [done|].
  destruct (String.eqb _ _); simpl; [done|]. intros. f_equal. auto.
Qed.

Section Recovery.
Context {JP : JsonCodec VMForceResetPolicy} (D : DownEnv) (name : string).

Definition isReady (n : Node) : Prop :=
  deleting n = false /\ exists c, readyCond n = Some c /\ nc_Status c = ConditionTrue.

Lemma isReady_untainted n : isReady n -> isReady (untainted n).
Proof. done. Qed.

Lemma isReady_undrained n : isReady n -> isReady (undrained n).
Proof.
  intros (Hd & c & Hc & Hs). split; [done|]. exists c. split; [|done].
  unfold readyCond, undrained. cbn [node_Conditions node_set_Conditions]. by rewrite Find_removed.
Qed.

Lemma removeTaints_run w o :
  world_wf w -> st_objs (w_nodes w) !! name = Some o ->
  removeTaints o downKeys (quiet w) =
  (Ok tt, quiet (if decide (untainted (o_val o) = o_val o) then w
                 else storeNode name (untainted (o_val o)) w)).
Proof.
  intros Hwf Ho. unfold removeTaints. fold (untainted (o_val o)).
  change (List.filter _ _) with (node_Taints (untainted (o_val o))).
  case_decide as E.
  - by rewrite bool_decide_eq_true_2 by by apply untainted_id.
  - rewrite bool_decide_eq_false_2 by by rewrite <- untainted_id.
    change (node_set_Taints _ (o_val o)) with (untainted (o_val o)).
    erewrite bind_run; [done|]. by apply (spec_write_run w name o Ho); [apply Hwf|].
Qed.

Lemma nodeReady_run w o :
  world_wf w -> st_objs (w_nodes w) !! name = Some o ->
  if decide (untainted (o_val o) = o_val o) then
    nodeReady o (quiet w) =
    (Ok tt, quiet (match drainedCond (o_val o) with
                   | Some _ => storeNode name (undrained (o_val o)) w
                   | None => w
                   end))
  else
    exists r, nodeReady o (quiet w) = (r, quiet (storeNode name (untainted (o_val o)) w)) /\
      match drainedCond (o_val o) with
      | None => r = Ok tt
      | Some _ => exists e, IsConflict e = true /\ r = Err e
      end.
Proof.
  intros Hwf Ho. assert (Hn : node_Name (o_val o) = name) by by apply Hwf.
  unfold nodeReady. fold downKeys (drainedCond (o_val o)).
  erewrite bind_run by (apply mapErr_run; by apply removeTaints_run).
  case_decide as E; destruct (drainedCond (o_val o)) as [c'|] eqn:Ec;
    [|done| |by eexists].
  - apply mapErr_run. unfold removeHarvesterNodeDrainedCond. erewrite bind_run; [done|].
    by apply (nodes_status_run w name o Ho).
  - unfold removeHarvesterNodeDrainedCond, mapErr, mbind, M_bind.
    erewrite stale_status_run; [|apply storeNode_lookup|exact Hn|].
    + eexists. split; [done|]. eexists. by split; [|done].
    + simpl. eapply storeNode_fresh; [apply Hwf|exact Ho].
Qed.

(** What a pass does for a node that is ready: the taints first; the condition only when
    there were no taints, since otherwise the version in hand is out of date. *)
Lemma ready_pass w o :
  world_wf w -> st_objs (w_nodes w) !! name = Some o -> isReady (o_val o) ->
  isOnUpgrade D = false ->
  if decide (untainted (o_val o) = o_val o) then
    pass D name w =
    (Ok (Some o), match drainedCond (o_val o) with
                  | Some _ => storeNode name (undrained (o_val o)) w
                  | None => w
                  end)
  else
    exists r, pass D name w = (r, storeNode name (untainted (o_val o)) w) /\
      match drainedCond (o_val o) with
      | None => r = Ok (Some o)
      | Some _ => exists e, IsConflict e = true /\ r = Err e
      end.
Proof.
  intros Hwf Ho (Hdel & c & Hc & Hs) Hup. unfold pass. rewrite Ho.
  unfold OnNodeChanged, checkNodeReady. unfold readyCond in Hc. rewrite Hdel, Hc, Hup, Hs.
  change (if String.eqb ConditionTrue ConditionFalse then _ else _) with (nodeReady o).
  pose proof (nodeReady_run w o Hwf Ho) as H. case_decide.
  - erewrite bind_run by (by apply mapErr_run). done.
  - destruct H as (r & Hr & Hd). unfold mbind, M_bind, mapErr. rewrite Hr.
    destruct (drainedCond (o_val o)) as [c'|].
    + destruct Hd as (e & He & ->). eexists. split; [done|]. by eexists (ErrWrap _ e).
    + subst. by eexists.
Qed.

(** The node a pass leaves, and that two passes settle it. *)
Definition readyStep (n : Node) : Node :=
  if decide (untainted n = n) then undrained n else untainted n.

Lemma untainted_twice n : untainted (untainted n) = untainted n.
Proof.
  unfold untainted, node_set_Taints. simpl. f_equal. rewrite filter_filter.
  apply List.filter_ext. intros t. by destruct (negb _).
Qed.

Lemma undrained_none n : drainedCond (undrained n) = None.
Proof. unfold drainedCond, undrained. simpl. by rewrite Find_removed, decide_True. Qed.

Lemma undrained_twice n : undrained (undrained n) = undrained n.
Proof. apply undrained_id, undrained_none. Qed.

Lemma untainted_undrained n : untainted (undrained n) = undrained (untainted n).
Proof. done. Qed.

Lemma readyStep_twice n : readyStep (readyStep n) = undrained (untainted n).
Proof.
  unfold readyStep at 2. case_decide as E; unfold readyStep.
  - by rewrite decide_True, undrained_twice, E by by rewrite untainted_undrained, E.
  - by rewrite decide_True by apply untainted_twice.
Qed.

Lemma ready_moves w o :
  world_wf w -> st_objs (w_nodes w) !! name = Some o -> isReady (o_val o) ->
  isOnUpgrade D = false ->
  let w' := (pass D name w).2 in
  world_wf w' /\
  (exists o', st_objs (w_nodes w') !! name = Some o' /\ o_val o' = readyStep (o_val o) /\
     isReady (o_val o')) /\
  (forall name', name' <> name -> st_objs (w_nodes w') !! name' = st_objs (w_nodes w) !! name').
Proof.
  intros Hwf Ho Hr Hup w'. assert (Hn : node_Name (o_val o) = name) by by apply Hwf.
  assert (Hst : forall n, node_Name n = name -> n = readyStep (o_val o) -> isReady n ->
    w' = storeNode name n w -> world_wf w' /\
    (exists o', st_objs (w_nodes w') !! name = Some o' /\ o_val o' = readyStep (o_val o) /\
       isReady (o_val o')) /\
    (forall name', name' <> name -> st_objs (w_nodes w') !! name' = st_objs (w_nodes w) !! name')).
  { intros n Hnn -> Hrn ->. split_and!.
    - apply (evolves_storeNode (fun _ _ _ => True)); [done|by apply rtc_once|done].
    - eexists. by split; [apply storeNode_lookup|].
    - intros name' Hne. simpl. by rewrite lookup_insert_ne. }
  pose proof (ready_pass w o Hwf Ho Hr Hup) as H. unfold readyStep in *. case_decide as Et.
  - destruct (drainedCond (o_val o)) as [c|] eqn:Ec.
    + apply (Hst (undrained (o_val o))); [done|done|by apply isReady_undrained|].
      unfold w'. by rewrite H.
    + unfold w'. rewrite H. rewrite undrained_id by done. by split_and!; [|exists o|].
  - destruct H as (r & H & _). apply (Hst (untainted (o_val o))); [done..|].
    unfold w'. by rewrite H.
Qed.
End Recovery.

(** ** Under interference: why a node is out of service

    [justified T]: a node is out of service only on top of a drain taint and a Drained
    condition, and while the condition says False its age is at least [T] seconds. *)
Definition justified (T now : Z) (n : Node) : Prop :=
  hasTaint TaintNodeOutOfService n = true ->
  hasTaint NodeDrainTaintDefaultKey n = true /\
  exists c, drainedCond n = Some c /\
    (nc_Status c = ConditionFalse -> (nc_LastTransitionTime c + T) * second <= now).

Definition downInv (T : Z) (w : World) : Prop :=
  world_wf w /\
  forall name o, st_objs (w_nodes w) !! name = Some o -> justified T (w_now w) (o_val o).

(** The node in hand is a version the API server has handed out. *)
Definition knows (w : World) (o : Obj Node) : Prop :=
  known (w_nodes w) (node_Name (o_val o)) o.

Lemma knows_stored w name o :
  world_wf w -> st_objs (w_nodes w) !! name = Some o -> knows w o.
Proof.
  intros (Hn & _ & Hs & _) Ho. apply known_stored; [done|]. by rewrite (Hn _ _ Ho).
Qed.

Lemma justified_later T now now' n : now <= now' -> justified T now n -> justified T now' n.
Proof.
  intros Hle H Ht. destruct (H Ht) as (? & c & ? & Hc). split; [done|]. exists c. split; [done|].
  intros Hs. specialize (Hc Hs). lia.
Qed.

Section Interference.
Context (T : Z) (L : string -> Phase -> Phase -> Prop).

(** What the others may do: time passes, versions grow, maintenance moves along [L], and
    nobody makes an unjustified node. *)
Definition downR (w w' : World) : Prop :=
  downInv T w -> downInv T w' /\ evolves L w w' /\ w_now w <= w_now w'.

#[export] Instance downR_preorder : PreOrder downR.
Proof.
  split.
  - intros w Hw. split_and!; [done|reflexivity|lia].
  - intros w1 w2 w3 H12 H23 Hw. destruct (H12 Hw) as (Hw2 & He & Hn).
    destruct (H23 Hw2) as (Hw3 & He' & Hn'). split_and!; [done|by etransitivity|lia].
Qed.

Lemma downR_wf w w' : downInv T w -> downR w w' -> downInv T w'.
Proof. intros Hw H. by apply H. Qed.

#[local] Instance downRegime : Regime World :=
  {| may := downR; sane := downInv T; sane_may := downR_wf |}.

Lemma downR_ext w w' : downInv T w -> downR w w' -> store_ext (w_nodes w) (w_nodes w').
Proof. intros Hw HR. destruct (HR Hw) as (_ & He & _). by destruct (He (proj1 Hw)) as (_ & ? & _). Qed.

Lemma knows_downR w w' o : downInv T w -> downR w w' -> knows w o -> knows w' o.
Proof. intros Hw HR Hk. eapply known_ext; [|by apply downR_ext|done]. apply Hw. Qed.

(** An object overtaken once stays so. *)
Lemma overtaken_downR w w' o :
  downInv T w -> downR w w' -> knows w o ->
  st_objs (w_nodes w) !! node_Name (o_val o) <> Some o ->
  st_objs (w_nodes w') !! node_Name (o_val o) <> Some o.
Proof.
  intros Hw HR [Hle _] Hne Ho. destruct (HR Hw) as (_ & He & _).
  destruct (He (proj1 Hw)) as (_ & Hext & _). destruct (Hext ltac:(apply Hw)) as (_ & _ & Hin).
  destruct (Hin _ _ Ho) as [|Hlt]; [done|lia].
Qed.

Lemma obeys_enqueue K name d s : obeys K (enqueueAfter name d) s.
Proof.
  apply obeys_within. intros Hs. split; [|done]. intros [Hw Hj]. simpl.
  split_and!; [done| |lia]. intros _. split_and!; [done|simpl; reflexivity..|]. intros n. constructor.
Qed.

(** The node store after a write, seen from a world [w] of the invariant. *)
Lemma downR_storeNode w name o n :
  st_objs (w_nodes w) !! name = Some o -> node_Name n = name ->
  phaseOf n = phaseOf (o_val o) -> (downInv T w -> justified T (w_now w) n) ->
  downR w (storeNode name n w).
Proof.
  intros Ho Hn Hp Hj Hw.
  assert (He : evolves L w (storeNode name n w)).
  { apply evolves_storeNode; [done|]. unfold phaseAt. rewrite Ho, Hp. constructor. }
  split_and!; [split|done|simpl; lia].
  - by apply He, Hw.
  - intros name' o' Ho'. simpl in Ho'. apply lookup_insert_Some in Ho' as [[_ <-]|[_ Ho']]; [by apply Hj|].
    by eapply (proj2 Hw).
Qed.

(** A write of a version in hand: it takes effect only on that version. *)
Section Write.
Context (merge : Node -> Node -> Node) (o : Obj Node) (n : Node).
Hypothesis Hmerge : merge (o_val o) n = n.
Hypothesis Hname : node_Name n = node_Name (o_val o).

Lemma obeys_write K s :
  (forall w, K w -> knows w o) -> phaseOf n = phaseOf (o_val o) ->
  (forall w, downInv T w -> K w -> st_objs (w_nodes w) !! node_Name (o_val o) = Some o ->
     justified T (w_now w) n) ->
  stable K -> obeys K (apiUpdate merge (node_Name n) (mkObj (o_rv o) n)) s.
Proof using Hmerge Hname.
  intros Hk Hp Hj HK. apply obeys_update; [done|intros w _ HKw; rewrite Hname; by apply Hk|].
  intros w Hi HKw Ho. unfold written. rewrite Hmerge. simpl in Ho. rewrite Hname in Ho.
  eapply downR_storeNode; [by rewrite Hname|done|done|]. intros _. by apply Hj.
Qed.

(** What a write that went through returns and leaves: the object, stored; and the version
    in hand was the current one. *)
Lemma write_result K s o' s' :
  (forall w, K w -> knows w o) -> stable K ->
  apiUpdate merge (node_Name n) (mkObj (o_rv o) n) s = (Ok o', s') ->
  relies downR (sys_turns s) -> downInv T (sys_world s) -> K (sys_world s) ->
  o_val o' = n /\ st_objs (w_nodes (sys_world s')) !! node_Name n = Some o' /\
  o_rv o < o_rv o' /\
  exists w, downInv T w /\ st_objs (w_nodes w) !! node_Name (o_val o) = Some o.
Proof using Hmerge Hname.
  intros Hk HK Hr Hs Hw HKw.
  eapply (obeys_update_Ok K) in Hr as (w & Hi & HKw' & _ & Ho & -> & ->);
    [|done|intros ? _ ?; rewrite Hname; by apply Hk|done..].
  unfold written. simpl. rewrite lookup_insert_eq. split_and!; [done|done| |].
  - destruct Hi as ((_ & _ & Hsn & _) & _). specialize (Hsn _ _ Ho). lia.
  - exists w. rewrite <- Hname. done.
Qed.
End Write.
End Interference.

Lemma phaseOf_withTaint t n : phaseOf (withTaint t n) = phaseOf n.
Proof. done. Qed.

Lemma phaseOf_withDrained now st re n : phaseOf (withDrained now st re n) = phaseOf n.
Proof.
  unfold phaseOf, GetMaintenanceModeCondition, withDrained.
  by rewrite Find_SetNodeStatusCondition, decide_False.
Qed.

Lemma phaseOf_undrained n : phaseOf (undrained n) = phaseOf n.
Proof.
  unfold phaseOf, GetMaintenanceModeCondition, undrained. cbn [node_Conditions node_set_Conditions].
  by rewrite Find_removed, decide_False.
Qed.

Lemma hasTaint_withDrained key now st re n : hasTaint key (withDrained now st re n) = hasTaint key n.
Proof. unfold hasTaint, withDrained. by rewrite SetNodeStatusCondition_Taints. Qed.

Lemma justified_none T now n : hasTaint TaintNodeOutOfService n = false -> justified T now n.
Proof. intros H Ht. congruence. Qed.

(** Setting the condition to True leaves nothing to be justified. *)
Lemma justified_drained T now t n : justified T now n -> justified T now (drained t n).
Proof.
  intros H. unfold justified, drained. rewrite !hasTaint_withDrained. intros Ht.
  destruct (H Ht) as (? & c & ? & _). split; [done|].
  unfold drainedCond, withDrained. rewrite Find_SetNodeStatusCondition, decide_True by done.
  eexists. by split; [reflexivity|].
Qed.

Lemma requeueInterval_due c timeout now T :
  T <= timeout <= 9223372036 -> 0 <= timeout -> (0 <? requeueInterval c timeout now) = false ->
  (nc_LastTransitionTime c + T) * second <= now.
Proof.
  intros Ht H0 H%Z.ltb_ge. unfold requeueInterval in H. rewrite int64_id in H by (unfold second; lia).
  unfold timeSub, maxDuration, second in *. lia.
Qed.

(** What the policy in force guarantees. *)
Lemma Decode_positive `{JP : JsonCodec VMForceResetPolicy} v p :
  DecodeVMForceResetPolicy v = Ok p -> 0 < Period p /\ 0 < VMMigrationTimeout p.
Proof.
  unfold DecodeVMForceResetPolicy. destruct (json_unmarshal v) as [q|]; [|done].
  destruct (Z.leb_spec (Period q) 0); [done|]. destruct (Z.ltb_spec (VMMigrationTimeout q) 0); [done|].
  destruct (Z.eqb_spec (VMMigrationTimeout q) 0); intros [= <-]; simpl; lia.
Qed.

(** Every policy the setting can decode to waits at least [T] seconds, and no more than a
    Duration holds. *)
Definition waits `{JP : JsonCodec VMForceResetPolicy} (T : Z) (D : DownEnv) : Prop :=
  forall p, DecodeVMForceResetPolicy (dn_policy D) = Ok p -> T <= VMMigrationTimeout p <= 9223372036.

Section Obeys.
Context (T : Z) (L : string -> Phase -> Phase -> Prop).
#[local] Instance regime : Regime World := downRegime T L.

Lemma stable_knows o : stable (fun w => knows w o).
Proof. intros w w' Hw Hk HR. exact (knows_downR T L w w' o Hw HR Hk). Qed.

Lemma stable_since o t : stable (fun w => knows w o /\ t <= w_now w).
Proof.
  intros w w' Hw [Hk Ht] HR. split; [exact (knows_downR T L w w' o Hw HR Hk)|]. destruct (HR Hw) as (_ & _ & ?). lia.
Qed.

Lemma stable_overtaken o :
  stable (fun w => knows w o /\ st_objs (w_nodes w) !! node_Name (o_val o) <> Some o).
Proof.
  intros w w' Hw [Hk Ht] HR. split; [exact (knows_downR T L w w' o Hw HR Hk)|exact (overtaken_downR T L w w' o Hw HR Hk Ht)].
Qed.

Lemma obeys_addTaints K o t s :
  stable K -> (forall w, K w -> knows w o) ->
  (forall w, downInv T w -> K w -> st_objs (w_nodes w) !! node_Name (o_val o) = Some o ->
     justified T (w_now w) (withTaint t (o_val o))) ->
  obeys K (addTaints o [t]) s.
Proof.
  intros HK Hk Hj. unfold addTaints. rewrite bool_decide_eq_false_2 by apply app_neq.
  apply (obeys_write T L mergeNode o (withTaint t (o_val o))); [|done..].
  by rewrite <- (node_set_Conditions_id (withTaint t (o_val o))).
Qed.

Lemma obeys_condition K o st re s :
  stable K -> (forall w, K w -> knows w o) ->
  (forall w t, downInv T w -> K w -> st_objs (w_nodes w) !! node_Name (o_val o) = Some o ->
     justified T (w_now w) (withDrained t st re (o_val o))) ->
  obeys K (createOrUpdateNodeCondition o HarvesterNodeCondDrained st re
             HarvesterNodeDrainedCondMsg) s.
Proof.
  intros HK Hk Hj. unfold createOrUpdateNodeCondition, metaNow.
  apply (obeys_bind K (fun now _ => exists t, now = t / second)); [done|apply obeys_gets| |].
  { intros now s' [= <- <-] _ _ _. by eexists. }
  intros now s' [t ->]. change (SetNodeStatusCondition _ _ _ _ _ _) with (withDrained t st re (o_val o)).
  apply (obeys_write T L mergeNodeStatus o (withDrained t st re (o_val o))); [| |done| |by auto|done].
  - apply SetNodeStatusCondition_status_only.
  - apply SetNodeStatusCondition_Name.
  - apply phaseOf_withDrained.
Qed.

Lemma obeys_triggerMigration o s :
  hasTaint NodeDrainTaintDefaultKey (o_val o) = false ->
  obeys (fun w => knows w o) (triggerMigration o) s.
Proof.
  intros Hnd. pose proof (stable_knows o) as HK.
  assert (Hnone : forall w, downInv T w -> st_objs (w_nodes w) !! node_Name (o_val o) = Some o ->
    hasTaint TaintNodeOutOfService (withTaint kubevirtDrainTaint (o_val o)) = false).
  { intros w Hw Ho. rewrite hasTaint_with, orb_false_r. apply not_true_iff_false. intros Ht.
    apply (proj2 Hw) in Ho. destruct (Ho Ht) as [Hd _]. congruence. }
  unfold triggerMigration.
  apply (obeys_bind _ (fun o' w => st_objs (w_nodes w) !! node_Name (o_val o) = Some o' /\
    node_Name (o_val o') = node_Name (o_val o) /\
    hasTaint TaintNodeOutOfService (o_val o') = false)); [done| | |].
  - apply obeys_mapErr, obeys_addTaints; [done|done|]. intros w Hw _ Ho. by eapply justified_none, Hnone.
  - intros o' s' Hr Hs Hw Hk. apply mapErr_Ok in Hr. unfold addTaints in Hr.
    rewrite bool_decide_eq_false_2 in Hr by apply app_neq.
    eapply (write_result T L mergeNode o (withTaint kubevirtDrainTaint (o_val o))) in Hr
      as (Hv & Ho' & _ & w & Hw' & Ho); [|done|done| |exact HK|done..].
    + rewrite Hv. split_and!; [done|done|by eapply Hnone].
    + done.
  - intros o' s' (Ho' & Hn & Ht). apply obeys_then; [done| |intros; apply obeys_ret].
    apply obeys_mapErr. apply obeys_weaken with (K' := fun w => knows w o').
    { intros [Hw _] _. by eapply knows_stored. }
    apply obeys_condition; [apply stable_knows|done|]. intros w t _ _ _. apply justified_none.
    by rewrite hasTaint_withDrained.
Qed.

Lemma obeys_requeue K c timeout (f : Z -> Act unit) s :
  stable K -> (forall d s', K (sys_world s') -> obeys K (f d) s') ->
  obeys K (calculateRequeueInterval c timeout ≫= f) s.
Proof.
  intros HK Hf. apply (obeys_bind K (fun _ w => K w)); [done| | |by auto].
  - destruct c; [|apply obeys_lift]. apply obeys_then; [done|apply obeys_gets|].
    intros. apply obeys_ret.
  - intros d s' Hr Hs Hw Hk. destruct c; [|done].
    apply bind_Ok in Hr as (t & s1 & Ht & Hr). injection Ht as _ <-. by apply ret_Ok in Hr as [_ ->].
Qed.

Lemma obeys_cleanup o c timeout s :
  T <= timeout <= 9223372036 -> 0 <= timeout ->
  hasTaint NodeDrainTaintDefaultKey (o_val o) = true -> drainedCond (o_val o) = c ->
  obeys (fun w => knows w o) (waitAndAddOutOfServiceTaint o c timeout) s.
Proof.
  intros Ht H0 Hd Hc. pose proof (stable_knows o) as HK. unfold waitAndAddOutOfServiceTaint.
  destruct c as [c|]; cycle 1.
  { apply (obeys_bind _ (fun _ _ => False)); [done|apply obeys_lift|done|done]. }
  apply (obeys_bind _ (fun d w => exists t, d = requeueInterval c timeout t /\ t <= w_now w));
    [done| | |].
  - apply obeys_then; [done|apply obeys_gets|]. intros. apply obeys_ret.
  - intros d s' Hr _ _ _. apply bind_Ok in Hr as (t & s1 & Et & Hr). injection Et as <- <-.
    apply ret_Ok in Hr as [-> ->].
    eexists. split; [done|]. lia.
  - intros d s' (t & -> & Hle). destruct (0 <? _) eqn:Hq; [apply obeys_enqueue|].
    apply obeys_weaken with (K' := fun w => knows w o /\ t <= w_now w); [done|].
    apply obeys_then; [apply stable_since| |].
    + apply obeys_mapErr. unfold forceNodeCleanup.
      apply obeys_then; [apply stable_since| |intros; apply obeys_ret].
      apply obeys_mapErr, obeys_addTaints; [apply stable_since|by intros w []|].
      intros w Hw [_ Htw] Ho _. rewrite hasTaint_with, Hd. split; [done|].
      exists c. split; [done|]. intros _.
      transitivity t; [by eapply requeueInterval_due|done].
    + intros _ s''. apply obeys_then; [apply stable_since| |intros; apply obeys_ret].
      apply obeys_condition; [apply stable_since|by intros w []|].
      intros w t' Hw _ Ho. apply justified_drained. by eapply (proj2 Hw).
Qed.

Lemma obeys_ready o s : obeys (fun w => knows w o) (nodeReady o) s.
Proof.
  pose proof (stable_knows o) as HK. unfold nodeReady. fold downKeys (drainedCond (o_val o)).
  set (rest := match drainedCond (o_val o) with None => _ | Some _ => _ end).
  assert (Hrest : forall K s, stable K -> (forall w, K w -> knows w o) ->
    (forall w, downInv T w -> K w -> st_objs (w_nodes w) !! node_Name (o_val o) = Some o ->
       hasTaint TaintNodeOutOfService (o_val o) = false) -> obeys K rest s).
  { intros K s' HK' Hk Hj. unfold rest. destruct (drainedCond (o_val o)); [|apply obeys_ret].
    apply obeys_mapErr. unfold removeHarvesterNodeDrainedCond.
    apply obeys_then; [done| |intros; apply obeys_ret].
    apply (obeys_write T L mergeNodeStatus o (undrained (o_val o))); [done..| | |done].
    - apply phaseOf_undrained.
    - intros w Hw HKw Ho. apply justified_none. unfold hasTaint, undrained. simpl.
      by apply (Hj w). }
  unfold removeTaints. change (List.filter _ _) with (node_Taints (untainted (o_val o))).
  case_bool_decide as E.
  - apply obeys_then; [done|apply obeys_mapErr, obeys_ret|]. intros _ s'. apply Hrest; [done..|].
    intros w _ _ _. apply untainted_id in E. rewrite <- E. apply untainted_has. set_solver.
  - change (node_set_Taints _ (o_val o)) with (untainted (o_val o)).
    apply (obeys_bind _ (fun _ w => st_objs (w_nodes w) !! node_Name (o_val o) <> Some o)); [done| | |].
    + apply obeys_mapErr, obeys_then; [done| |intros; apply obeys_ret].
      apply (obeys_write T L mergeNode o (untainted (o_val o))); [|done|done|done| |done].
      { by rewrite <- (node_set_Conditions_id (untainted (o_val o))). }
      intros w _ _ _. apply justified_none, untainted_has. set_solver.
    + intros a s' Hr Hs Hw Hk. apply mapErr_Ok in Hr. apply bind_Ok in Hr as (o' & s1 & Hr0 & Hr).
      apply ret_Ok in Hr as [-> ->]. eapply (write_result T L mergeNode o (untainted (o_val o))) in Hr0 as (_ & Ho' & Hlt & _);
        [|by rewrite <- (node_set_Conditions_id (untainted (o_val o)))|done| |exact HK|done..]; [|done].
      change (node_Name (untainted (o_val o))) with (node_Name (o_val o)) in Ho'.
      rewrite Ho'. intros [= ->]. lia.
    + intros _ s' Hne.
      apply obeys_weaken with (K' := fun w => knows w o /\
        st_objs (w_nodes w) !! node_Name (o_val o) <> Some o); [done|].
      apply Hrest; [apply stable_overtaken|by intros w []|]. by intros w _ [_ ?] ?.
Qed.

Context {JP : JsonCodec VMForceResetPolicy} (D : DownEnv).
Hypothesis D_waits : waits T D.

Lemma obeys_unknown o c s : obeys (fun w => knows w o) (nodeUnknown D o c) s.
Proof using D_waits.
  pose proof (stable_knows o) as HK. unfold nodeUnknown.
  apply (obeys_bind _ (fun p _ => DecodeVMForceResetPolicy (dn_policy D) = Ok p)); [done| | |].
  { apply obeys_mapErr, obeys_mapErr, obeys_lift. }
  { intros p s' Hr _ _ _. apply mapErr_Ok, mapErr_Ok, lift_Ok in Hr as [? _]. done. }
  intros p s' Hp. destruct (Enable p); [|apply obeys_ret]. cbn [negb].
  fold (hasTaint NodeDrainTaintDefaultKey (o_val o)) (hasTaint TaintNodeOutOfService (o_val o))
    (drainedCond (o_val o)).
  pose proof (Decode_positive _ _ Hp) as [_ Hpos].
  set (goOn := match getNodeTaint _ NodeDrainTaintDefaultKey with None => _ | Some _ => _ end).
  assert (Hgo : obeys (fun w => knows w o) goOn s').
  { unfold goOn. pose proof (hasTaint_get NodeDrainTaintDefaultKey (o_val o)) as Hh.
    destruct (getNodeTaint _ NodeDrainTaintDefaultKey) as [t|] eqn:Et.
    - destruct (getNodeTaint _ TaintNodeOutOfService); [apply obeys_ret|].
      apply obeys_cleanup; [by apply D_waits|lia|done|done].
    - unfold addKubevirtTaintAfterExtraTimeout. rewrite Et. apply obeys_requeue; [done|].
      intros d s1 _. destruct (0 <? d); [apply obeys_enqueue|by apply obeys_triggerMigration]. }
  destruct (_ && _); [|done]. destruct (drainedCond (o_val o)) as [c'|]; [|apply obeys_lift].
  destruct (String.eqb _ _); [|done]. apply obeys_then; [done| |intros; apply obeys_ret].
  apply obeys_condition; [done|done|]. intros w t Hw _ Ho. apply justified_drained. by eapply (proj2 Hw).
Qed.

Lemma obeys_OnNodeChanged o s : obeys (fun w => knows w o) (OnNodeChanged D (Some o)) s.
Proof using D_waits.
  unfold OnNodeChanged. destruct (deleting _); [apply obeys_ret|].
  apply obeys_then; [apply stable_knows| |intros; apply obeys_ret]. apply obeys_mapErr.
  unfold checkNodeReady. destruct (FindNodeStatusCondition _ _) as [c|]; [|apply obeys_throw].
  destruct (isOnUpgrade D); [apply obeys_ret|]. destruct (String.eqb _ _); [apply obeys_ret|].
  destruct (String.eqb _ _); [apply obeys_unknown|].
  destruct (String.eqb _ _); [apply obeys_ready|apply obeys_throw].
Qed.

Lemma obeys_annotations o s : obeys (fun w => knows w o) (UpdateStatusAnnotations (Some o)) s.
Proof using.
  unfold UpdateStatusAnnotations. destruct (negb _); [|apply obeys_ret].
  intros Hs Hw Hk.
  assert (H : obeys (fun w => knows w o) (nodes_Update (mkObj (o_rv o)
    (node_set_Annotations (reportedAnnotations (o_val o)) (o_val o)))) s).
  { apply (obeys_write T L mergeNode o (node_set_Annotations _ (o_val o))); [|done|done|done| |apply stable_knows].
    - by rewrite <- (node_set_Conditions_id (node_set_Annotations _ (o_val o))).
    - intros w Hi _ Ho. exact (proj2 Hi _ _ Ho). }
  specialize (H Hs Hw Hk). unfold fmap, M_fmap. by destruct (nodes_Update _ s) as [[]].
Qed.
End Obeys.

(** ** Under any interference: the phases of maintenance

    Here the others may do anything that keeps names and versions in order and moves
    phases along [L]: change the two taints and the Drained condition too. *)
Section KeepsPhases.
Context (L : string -> Phase -> Phase -> Prop).
#[local] Instance phaseRegime : Regime World :=
  {| may := evolves L; sane := world_wf; sane_may := evolves_wf L |}.

Lemma stable_held o : stable (fun w => knows w o).
Proof.
  intros w w' Hw Hk HR. eapply known_ext; [apply Hw| |exact Hk]. by apply HR.
Qed.

Lemma keeps_enqueue K name d s : obeys K (enqueueAfter name d) s.
Proof.
  apply obeys_within. intros Hs. split; [|done]. intros Hw. simpl.
  split_and!; [done|reflexivity..|]. intros n. constructor.
Qed.

Section Write.
Context (merge : Node -> Node -> Node) (o : Obj Node) (n : Node).
Hypothesis Hmerge : merge (o_val o) n = n.
Hypothesis Hname : node_Name n = node_Name (o_val o).

Lemma keeps_write s :
  phaseOf n = phaseOf (o_val o) ->
  obeys (fun w => knows w o) (apiUpdate merge (node_Name n) (mkObj (o_rv o) n)) s.
Proof using Hmerge Hname.
  intros Hp. apply obeys_update; [apply stable_held|intros w _ Hk; by rewrite Hname|].
  intros w Hi Hk Ho. unfold written. rewrite Hmerge. simpl in Ho.
  apply (evolves_storeNode L (node_Name n)); [done|]. unfold phaseAt. rewrite Ho, Hp. constructor.
Qed.

(** The object a write returned is in hand for the next one. *)
Lemma write_held s o' s' :
  apiUpdate merge (node_Name n) (mkObj (o_rv o) n) s = (Ok o', s') ->
  relies (evolves L) (sys_turns s) -> world_wf (sys_world s) -> knows (sys_world s) o ->
  knows (sys_world s') o'.
Proof using Hmerge Hname.
  intros Hr Hs Hw Hk.
  eapply (obeys_update_Ok (fun w => knows w o)) in Hr as (w & Hi & _ & _ & Ho & -> & ->);
    [|apply stable_held|intros ? _ ?; by rewrite Hname|done..].
  unfold written, knows. rewrite Hmerge. cbn [o_val]. split; simpl; [lia|].
  rewrite lookup_insert_eq. by intros ? [= <-].
Qed.
End Write.

Lemma keeps_addTaints o t s : obeys (fun w => knows w o) (addTaints o [t]) s.
Proof.
  unfold addTaints. rewrite bool_decide_eq_false_2 by apply app_neq.
  apply (keeps_write mergeNode o (withTaint t (o_val o))); [|done..].
  by rewrite <- (node_set_Conditions_id (withTaint t (o_val o))).
Qed.

Lemma keeps_condition o st re s :
  obeys (fun w => knows w o)
    (createOrUpdateNodeCondition o HarvesterNodeCondDrained st re HarvesterNodeDrainedCondMsg) s.
Proof.
  unfold createOrUpdateNodeCondition, metaNow.
  apply (obeys_bind _ (fun now _ => exists t, now = t / second));
    [apply stable_held|apply obeys_gets| |].
  { intros now s' [= <- <-] _ _ _. by eexists. }
  intros now s' [t ->]. change (SetNodeStatusCondition _ _ _ _ _ _) with (withDrained t st re (o_val o)).
  apply (keeps_write mergeNodeStatus o (withDrained t st re (o_val o))).
  - apply SetNodeStatusCondition_status_only.
  - apply SetNodeStatusCondition_Name.
  - apply phaseOf_withDrained.
Qed.

Lemma keeps_triggerMigration o s : obeys (fun w => knows w o) (triggerMigration o) s.
Proof.
  unfold triggerMigration. apply (obeys_bind _ (fun o' w => knows w o')); [apply stable_held| | |].
  - apply obeys_mapErr, keeps_addTaints.
  - intros o' s' Hr Hs Hw Hk. apply mapErr_Ok in Hr. unfold addTaints in Hr.
    rewrite bool_decide_eq_false_2 in Hr by apply app_neq.
    eapply (write_held mergeNode o (withTaint kubevirtDrainTaint (o_val o))) in Hr; try done.
  - intros o' s' Ho'. apply obeys_then; [apply stable_held| |intros; apply obeys_ret].
    apply obeys_mapErr, obeys_weaken with (K' := fun w => knows w o'); [done|].
    apply keeps_condition.
Qed.

Lemma keeps_requeue o c timeout (f : Z -> Act unit) s :
  (forall d s', obeys (fun w => knows w o) (f d) s') ->
  obeys (fun w => knows w o) (calculateRequeueInterval c timeout ≫= f) s.
Proof.
  intros Hf. apply obeys_then; [apply stable_held| |done].
  destruct c; [|apply obeys_lift]. apply obeys_then; [apply stable_held|apply obeys_gets|].
  intros. apply obeys_ret.
Qed.

Lemma keeps_cleanup o c timeout s :
  obeys (fun w => knows w o) (waitAndAddOutOfServiceTaint o c timeout) s.
Proof.
  apply keeps_requeue. intros d s'. destruct (0 <? d); [apply keeps_enqueue|].
  apply obeys_then; [apply stable_held|apply obeys_mapErr|].
  - apply obeys_then; [apply stable_held|apply obeys_mapErr, keeps_addTaints|intros; apply obeys_ret].
  - intros _ s''. apply obeys_then; [apply stable_held|apply keeps_condition|intros; apply obeys_ret].
Qed.

Lemma keeps_ready o s : obeys (fun w => knows w o) (nodeReady o) s.
Proof.
  unfold nodeReady. apply obeys_then; [apply stable_held|apply obeys_mapErr|].
  - unfold removeTaints. case_bool_decide; [apply obeys_ret|].
    apply obeys_then; [apply stable_held| |intros; apply obeys_ret].
    apply (keeps_write mergeNode o (untainted (o_val o))); [|done..].
    by rewrite <- (node_set_Conditions_id (untainted (o_val o))).
  - intros _ s'. destruct (FindNodeStatusCondition _ _); [|apply obeys_ret].
    apply obeys_mapErr. unfold removeHarvesterNodeDrainedCond.
    apply obeys_then; [apply stable_held| |intros; apply obeys_ret].
    apply (keeps_write mergeNodeStatus o (undrained (o_val o))); [done..|].
    apply phaseOf_undrained.
Qed.

Context {JP : JsonCodec VMForceResetPolicy} (D : DownEnv).

Lemma keeps_unknown o c s : obeys (fun w => knows w o) (nodeUnknown D o c) s.
Proof.
  unfold nodeUnknown. apply obeys_then; [apply stable_held|apply obeys_mapErr, obeys_mapErr, obeys_lift|].
  intros p s'. destruct (Enable p); [|apply obeys_ret]. cbn [negb].
  set (goOn := match getNodeTaint _ NodeDrainTaintDefaultKey with None => _ | Some _ => _ end).
  assert (Hgo : obeys (fun w => knows w o) goOn s').
  { unfold goOn. destruct (getNodeTaint _ NodeDrainTaintDefaultKey) as [t|] eqn:Et.
    - destruct (getNodeTaint _ TaintNodeOutOfService); [apply obeys_ret|apply keeps_cleanup].
    - unfold addKubevirtTaintAfterExtraTimeout. rewrite Et. apply keeps_requeue.
      intros d s1. destruct (0 <? d); [apply keeps_enqueue|apply keeps_triggerMigration]. }
  destruct (_ && _); [|done]. destruct (FindNodeStatusCondition _ _) as [c'|]; [|apply obeys_lift].
  destruct (String.eqb _ _); [|done].
  apply obeys_then; [apply stable_held|apply keeps_condition|intros; apply obeys_ret].
Qed.

Lemma keeps_OnNodeChanged o s : obeys (fun w => knows w o) (OnNodeChanged D (Some o)) s.
Proof.
  unfold OnNodeChanged. destruct (deleting _); [apply obeys_ret|].
  apply obeys_then; [apply stable_held|apply obeys_mapErr|intros; apply obeys_ret].
  unfold checkNodeReady. destruct (FindNodeStatusCondition _ _) as [c|]; [|apply obeys_throw].
  destruct (isOnUpgrade D); [apply obeys_ret|]. destruct (String.eqb _ _); [apply obeys_ret|].
  destruct (String.eqb _ _); [apply keeps_unknown|].
  destruct (String.eqb _ _); [apply keeps_ready|apply obeys_throw].
Qed.

Lemma keeps_annotations o s : obeys (fun w => knows w o) (UpdateStatusAnnotations (Some o)) s.
Proof.
  unfold UpdateStatusAnnotations. destruct (negb _); [|apply obeys_ret].
  intros Hs Hw Hk.
  assert (H : obeys (fun w => knows w o) (nodes_Update (mkObj (o_rv o)
    (node_set_Annotations (reportedAnnotations (o_val o)) (o_val o)))) s).
  { apply (keeps_write mergeNode o (node_set_Annotations _ (o_val o))); [|done..].
    by rewrite <- (node_set_Conditions_id (node_set_Annotations _ (o_val o))). }
  specialize (H Hs Hw Hk). unfold fmap, M_fmap. by destruct (nodes_Update _ s) as [[]].
Qed.
End KeepsPhases.

(** ** Everybody else

    The other clients leave what this controller keeps on a node that is out of service
    alone: the two taints and the Drained condition.  They may put the node in service, do
    anything else, and create nodes that are in service. *)
Definition sameDown (n n' : Node) : Prop :=
  (forall key, key ∈ downKeys -> hasTaint key n' = hasTaint key n) /\
  drainedCond n' = drainedCond n.

Definition handsOff (L : string -> Phase -> Phase -> Prop) (w w' : World) : Prop :=
  evolves L w w' /\ w_now w <= w_now w' /\
  forall name o', st_objs (w_nodes w') !! name = Some o' ->
    hasTaint TaintNodeOutOfService (o_val o') = false \/
    exists o, st_objs (w_nodes w) !! name = Some o /\ sameDown (o_val o) (o_val o').

Lemma handsOff_downR T L w w' : handsOff L w w' -> downR T L w w'.
Proof.
  intros (He & Hn & Ho) Hw. split_and!; [split|done|done].
  - by apply He, Hw.
  - intros name o' Ho'. destruct (Ho _ _ Ho') as [Hno|(o & Ho1 & Ht & Hc)]; [by apply justified_none|].
    apply (proj2 Hw), (justified_later _ _ (w_now w')) in Ho1; [|done].
    unfold justified. rewrite Hc, !Ht by set_solver. done.
Qed.

(** Steps of the cluster: passes of this controller and of the one that reports its
    condition, each with a version that was handed out and disturbed between its calls by the
    others, and steps of the others. *)
Section Steps.
Context {JP : JsonCodec VMForceResetPolicy} (T : Z).
Local Abbreviation others := (handsOff (fun _ _ _ => True)).

Inductive downStep : World -> World -> Prop :=
| ds_pass D o ts w :
    waits T D -> knows w o -> relies others ts ->
    downStep w (sys_world (OnNodeChanged D (Some o) (mkSys w ts)).2)
| ds_report o ts w :
    knows w o -> relies others ts ->
    downStep w (sys_world (UpdateStatusAnnotations (Some o) (mkSys w ts)).2)
| ds_others w w' : others w w' -> downStep w w'.

(** To begin with, every node is in service. *)
Definition inService (w : World) : Prop :=
  world_wf w /\ forall name o, st_objs (w_nodes w) !! name = Some o ->
    hasTaint TaintNodeOutOfService (o_val o) = false.

Lemma downStep_inv w w' : downInv T w -> downStep w w' -> downInv T w'.
Proof.
  intros Hw H. destruct H as [D o ts w HD Hk Hts|o ts w Hk Hts|w w' Ho].
  - eapply (obeys_OnNodeChanged T (fun _ _ _ => True) D HD o (mkSys w ts)); [|done..].
    eapply relies_weaken; [|exact Hts]. intros ??. apply handsOff_downR.
  - eapply (obeys_annotations T (fun _ _ _ => True) o (mkSys w ts)); [|done..].
    eapply relies_weaken; [|exact Hts]. intros ??. apply handsOff_downR.
  - by eapply handsOff_downR.
Qed.

Lemma inService_inv w : inService w -> downInv T w.
Proof. intros [Hw Hn]. split; [done|]. intros name o Ho. by eapply justified_none, Hn. Qed.
End Steps.

(** ** Concrete worlds, for evaluation *)

#[export] Instance VMForceResetPolicy_eq : EqDecision VMForceResetPolicy.
Proof. solve_decision. Defined.
#[export] Instance VMForceResetPolicy_countable : Countable VMForceResetPolicy.
Proof.
  refine (inj_countable' (fun p => (Enable p, Period p, VMMigrationTimeout p))
            (fun x => mkPolicy x.1.1 x.1.2 x.2) _). by intros [].
Defined.

Definition demoPolicies : JsonCodec VMForceResetPolicy := countable_codec _.
Definition demoDown : DownEnv :=
  mkDownEnv (json_marshal (JsonCodec := demoPolicies) (mkPolicy true 15 180)) (Ok [])
    (Some (Ok [Some "Succeeded"; Some "Failed"])).

(** The world at another time, and with the Ready condition of a node rewritten by its
    kubelet or by the node controller of Kubernetes. *)
Definition atTime (t : Z) (w : World) : World :=
  mkWorld (w_nodes w) (w_vms w) (w_cache w) (t * second) (w_enqueued w).

Definition setReady (status : string) (name : string) (w : World) : World :=
  match st_objs (w_nodes w) !! name with
  | None => w
  | Some o => storeNode name (SetNodeStatusCondition (w_now w / second) (o_val o) NodeReady status
                                "NodeStatusUnknown" "") w
  end.

Definition demoPass (t : Z) (w : World) : World :=
  (pass (JP := demoPolicies) demoDown "a" (atTime t w)).2.

Definition silentSince0 : World := setReady ConditionUnknown "a" (demoWorld [demoNode "a" [] []] [] []).

(** What a node shows: the two taints, and status and age of the Drained condition. *)
Definition shows (name : string) (w : World) : option (bool * bool * option (string * Z)) :=
  (fun o => let n := o_val o in
     (hasTaint NodeDrainTaintDefaultKey n, hasTaint TaintNodeOutOfService n,
      (fun c => (nc_Status c, nc_LastTransitionTime c)) <$> drainedCond n))
  <$> st_objs (w_nodes w) !! name.

Example down_timeline :
  let w1 := demoPass 10 silentSince0 in
  let w2 := demoPass 16 w1 in
  let w3 := demoPass 100 w2 in
  let w4 := demoPass 196 w3 in
  let w5 := demoPass 197 w4 in
  map (shows "a") [w1; w2; w3; w4; w5] =
  [Some (false, false, None); Some (true, false, Some (ConditionFalse, 16));
   Some (true, false, Some (ConditionFalse, 16)); Some (true, true, Some (ConditionFalse, 16));
   Some (true, true, Some (ConditionTrue, 197))].
Proof. vm_compute. reflexivity. Qed.

(** ** Properties *)

Section Properties.
Context {JP : JsonCodec VMForceResetPolicy}.

(** C24: For a silent node the controller does what its state calls for.  Without the drain
    taint it waits out the period, to the nanosecond, and then adds the taint and a fresh
    Drained=False; with it, it waits out the migration timeout from that condition and adds
    the out-of-service taint (the pass then ends in a conflict, as it goes on with the old
    version); with both it sets Drained=True, and then rests.  A drain taint without a
    Drained condition is a nil dereference. *)
Theorem silent_pass_exact D p w name o ready :
  silent D p w name o ready ->
  let '(r, w') := pass D name w in
  carriesOut (downAct p (w_now w) ready (o_val o)) name o w r w'.
Proof.
  intros Hs. destruct (nodeUnknown_exact D p w name o ready Hs) as (r & w' & Hr & Hc).
  unfold pass. destruct Hs as (_ & -> & _). by rewrite Hr.
Qed.

(** C39: A node that is ready again is cleaned up in two passes, whatever the failure left, when
    no call fails, nobody interferes and no upgrade is on: both taints (every copy of them)
    and the Drained condition go, everything else and every other node stays, and the third
    pass changes nothing.  The first pass ends in a conflict exactly when there are taints and
    a condition to remove. *)
Theorem recovery_completes D name w o :
  world_wf w -> st_objs (w_nodes w) !! name = Some o -> isReady (o_val o) ->
  isOnUpgrade D = false ->
  let w1 := (pass D name w).2 in
  let w2 := (pass D name w1).2 in
  (exists o2, st_objs (w_nodes w2) !! name = Some o2 /\
     o_val o2 = undrained (untainted (o_val o)) /\ pass D name w2 = (Ok (Some o2), w2)) /\
  (forall name', name' <> name -> st_objs (w_nodes w2) !! name' = st_objs (w_nodes w) !! name') /\
  ((exists e, (pass D name w).1 = Err e) <->
   untainted (o_val o) <> o_val o /\ is_Some (drainedCond (o_val o))).
Proof.
  intros Hwf Ho Hr Hup w1 w2.
  destruct (ready_moves D name w o Hwf Ho Hr Hup) as (Hwf1 & (o1 & Ho1 & E1 & Hr1) & Hn1).
  destruct (ready_moves D name w1 o1 Hwf1 Ho1 Hr1 Hup) as (Hwf2 & (o2 & Ho2 & E2 & Hr2) & Hn2).
  rewrite E1, readyStep_twice in E2. split_and!.
  - exists o2. split_and!; [done|done|].
    pose proof (ready_pass D name w2 o2 Hwf2 Ho2 Hr2 Hup) as H. rewrite E2, undrained_none in H.
    by rewrite decide_True in H by (rewrite untainted_undrained; by rewrite untainted_twice).
  - intros name' Hne. unfold w2. rewrite Hn2 by done. by apply Hn1.
  - pose proof (ready_pass D name w o Hwf Ho Hr Hup) as H. case_decide as Et.
    + rewrite H. split; [by intros [??]|by intros []].
    + destruct H as (r & -> & Hd). destruct (drainedCond (o_val o)) as [c|].
      * destruct Hd as (e & _ & ->). by split; [|eauto].
      * subst r. split; [by intros [??]|by intros [_ [??]]].
Qed.


(** C26: Node failures and maintenance do not get in each other's way.  A pass of this
    controller or of the reporting one, with any version of the node that was ever handed
    out, moves no node from one phase of the maintenance life cycle to another beyond what
    the others do ([L]), and the world stays well formed, although both write the whole
    status of the node.  The others may do anything between its calls, on taints and
    conditions alike, that keeps names and versions in order; calls may fail. *)
Theorem node_down_keeps_maintenance L D o s (h : Act (option (Obj Node))) :
  world_wf (sys_world s) -> knows (sys_world s) o -> relies (evolves L) (sys_turns s) ->
  h ∈ [OnNodeChanged D (Some o); UpdateStatusAnnotations (Some o)] ->
  let w' := sys_world (h s).2 in
  world_wf w' /\ forall name, rtc (L name) (phaseAt (sys_world s) name) (phaseAt w' name).
Proof.
  intros Hw Hk Hs Hh w'.
  assert (HR : evolves L (sys_world s) w').
  { rewrite !elem_of_cons in Hh. unfold w'. destruct Hh as [->|[->|Hh]]; [..|set_solver].
    - by eapply keeps_OnNodeChanged.
    - by eapply keeps_annotations. }
  destruct (HR Hw) as (? & _ & _ & ?). done.
Qed.

(** ** Consecutive passes *)

Definition atNs (t : Z) (w : World) : World :=
  mkWorld (w_nodes w) (w_vms w) (w_cache w) t (w_enqueued w).

(** A silent node stays so under this controller's writes. *)
Lemma silent_next D p w name o ready t n :
  silent D p w name o ready -> node_Name n = name ->
  deleting n = false -> readyCond n = Some ready ->
  silent D p (atNs t (storeNode name n w)) name (mkObj (st_rv (w_nodes w) + 1) n) ready.
Proof.
  intros (Hwf & Ho & Hdel & Hup & Hr & Hs & Hp & He) Hn Hdn Hrn. unfold silent.
  split_and!; [|apply storeNode_lookup|done..].
  assert (world_wf (storeNode name n w)) by
    (apply (evolves_storeNode (fun _ _ _ => True)); [done|by apply rtc_once|done]). done.
Qed.

Lemma readyCond_withDrained now st re n : readyCond (withDrained now st re n) = readyCond n.
Proof. unfold readyCond, withDrained. by rewrite Find_SetNodeStatusCondition, decide_False. Qed.

Lemma deleting_withDrained now st re n : deleting (withDrained now st re n) = deleting n.
Proof.
  unfold deleting, withDrained, SetNodeStatusCondition. by destruct (FindNodeStatusCondition _ _).
Qed.

Lemma drainedCond_withDrained now st re n :
  drainedCond (withDrained now st re n) =
  Some (mkNodeCond HarvesterNodeCondDrained st
          (match drainedCond n with
           | Some c => if String.eqb (nc_Status c) st then nc_LastTransitionTime c else now / second
           | None => now / second
           end) (now / second) re HarvesterNodeDrainedCondMsg).
Proof. unfold drainedCond, withDrained. by rewrite Find_SetNodeStatusCondition, decide_True. Qed.

Lemma silent_name D p w name o ready : silent D p w name o ready -> node_Name (o_val o) = name.
Proof. intros (Hwf & Ho & _). by apply Hwf. Qed.

(** A pass over a silent node, by its decision. *)
Lemma silent_pass D p w name o ready :
  silent D p w name o ready ->
  carriesOut (downAct p (w_now w) ready (o_val o)) name o w (pass D name w).1 (pass D name w).2.
Proof.
  intros Hs. destruct (nodeUnknown_exact D p w name o ready Hs) as (r & w' & Hr & Hc).
  unfold pass. destruct Hs as (_ & -> & _). by rewrite Hr.
Qed.

Lemma requeueInterval_over c timeout now :
  0 <= timeout <= 9223372036 -> (nc_LastTransitionTime c + timeout) * second <= now ->
  (0 <? requeueInterval c timeout now) = false.
Proof.
  intros Ht H. apply Z.ltb_ge. unfold requeueInterval. rewrite int64_id by (unfold second; lia).
  unfold timeSub, maxDuration, second in *. lia.
Qed.

(** The three steps of a failure, each by the pass that makes it. *)
Section Stages.
Context (D : DownEnv) (p : VMForceResetPolicy) (name : string) (w : World) (o : Obj Node)
  (ready : NodeCondition).
Hypothesis Hs : silent D p w name o ready.

Lemma start_step :
  hasTaint NodeDrainTaintDefaultKey (o_val o) = false -> Period p <= 9223372036 ->
  (nc_LastTransitionTime ready + Period p) * second <= w_now w ->
  let tainted := withTaint kubevirtDrainTaint (o_val o) in
  (pass D name w).2 = storeNode name (draining (w_now w) tainted) (storeNode name tainted w).
Proof using Hs.
  intros Hd HP Ht. destruct (Decode_positive _ _ ltac:(by apply Hs)) as [HP0 _].
  pose proof (silent_pass _ _ _ _ _ _ Hs) as H. unfold downAct, waitOr in H.
  rewrite Hd, requeueInterval_over in H by lia. apply H.
Qed.

Lemma cleanup_step c :
  hasTaint NodeDrainTaintDefaultKey (o_val o) = true ->
  hasTaint TaintNodeOutOfService (o_val o) = false -> drainedCond (o_val o) = Some c ->
  VMMigrationTimeout p <= 9223372036 ->
  (nc_LastTransitionTime c + VMMigrationTimeout p) * second <= w_now w ->
  (pass D name w).2 = storeNode name (withTaint nonGracefulTaint (o_val o)) w.
Proof using Hs.
  intros Hd Ho Hc HT Ht. destruct (Decode_positive _ _ ltac:(by apply Hs)) as [_ HT0].
  pose proof (silent_pass _ _ _ _ _ _ Hs) as H. unfold downAct, waitOr in H.
  rewrite Hd, Ho, Hc, requeueInterval_over in H by lia. apply H.
Qed.

Lemma mark_step c :
  hasTaint NodeDrainTaintDefaultKey (o_val o) = true ->
  hasTaint TaintNodeOutOfService (o_val o) = true -> drainedCond (o_val o) = Some c ->
  nc_Status c = ConditionFalse ->
  (pass D name w).2 = storeNode name (drained (w_now w) (o_val o)) w.
Proof using Hs.
  intros Hd Ho Hc Hf. pose proof (silent_pass _ _ _ _ _ _ Hs) as H. unfold downAct in H.
  rewrite Hd, Ho, Hc, Hf in H. apply H.
Qed.
End Stages.

(** C25: A node that stays silent ends up drained.  Once the period is over, one pass starts the
    migration; once the migration timeout is over as well, the next takes the node out of
    service, and the one after that, at any time, declares it drained. *)
Theorem node_down_completes D p name w o ready t2 t3 :
  silent D p w name o ready ->
  Period p <= 9223372036 -> VMMigrationTimeout p <= 9223372036 ->
  hasTaint NodeDrainTaintDefaultKey (o_val o) = false ->
  hasTaint TaintNodeOutOfService (o_val o) = false -> drainedCond (o_val o) = None ->
  (nc_LastTransitionTime ready + Period p) * second <= w_now w ->
  w_now w + VMMigrationTimeout p * second <= t2 ->
  let w1 := (pass D name w).2 in
  let w2 := (pass D name (atNs t2 w1)).2 in
  let w3 := (pass D name (atNs t3 w2)).2 in
  exists o3 c, st_objs (w_nodes w3) !! name = Some o3 /\
    node_Taints (o_val o3) = node_Taints (o_val o) ++ [kubevirtDrainTaint; nonGracefulTaint] /\
    drainedCond (o_val o3) = Some c /\ nc_Status c = ConditionTrue /\
    nc_Reason c = HarvesterNodeDrainedCondReasonDrained.
Proof.
  intros Hs HPm HTm Hd Hoos Hc Ht1 Ht2 w1 w2 w3.
  pose proof (silent_name _ _ _ _ _ _ Hs) as Hn.
  set (n0 := withTaint kubevirtDrainTaint (o_val o)). set (n1 := draining (w_now w) n0).
  set (n2 := withTaint nonGracefulTaint n1).
  assert (E1 : w1 = storeNode name n1 (storeNode name n0 w)) by by eapply start_step.
  assert (Hn1 : node_Name n1 = name) by (transitivity (node_Name n0);
    [apply SetNodeStatusCondition_Name|done]).
  assert (Hr1 : readyCond n1 = Some ready) by (transitivity (readyCond n0);
    [apply readyCond_withDrained|apply Hs]).
  assert (Hd1 : deleting n1 = false) by (transitivity (deleting n0);
    [apply deleting_withDrained|apply Hs]).
  assert (Hc1 : drainedCond n1 = Some (mkNodeCond HarvesterNodeCondDrained ConditionFalse
    (w_now w / second) (w_now w / second) HarvesterNodeDrainedCondReasonDraining
    HarvesterNodeDrainedCondMsg)).
  { unfold n1, draining. rewrite drainedCond_withDrained.
    change (drainedCond n0) with (drainedCond (o_val o)). by rewrite Hc. }
  assert (Hk : forall key, hasTaint key n1 = hasTaint key (o_val o) || String.eqb NodeDrainTaintDefaultKey key).
  { intros key. unfold n1, draining, n0. by rewrite hasTaint_withDrained, hasTaint_with. }
  pose proof (silent_next _ _ _ _ _ _ (w_now w) n0 Hs Hn ltac:(apply Hs) ltac:(apply Hs)) as Hs0.
  pose proof (silent_next _ _ _ _ _ _ t2 n1 Hs0 Hn1 Hd1 Hr1) as Hs1.
  assert (E2 : w2 = storeNode name n2 (atNs t2 w1)).
  { unfold w2. rewrite E1. eapply (cleanup_step _ _ _ _ _ _ Hs1); [by rewrite Hk, orb_true_r| |exact Hc1|done|].
    - by rewrite Hk, Hoos.
    - cbn [w_now atNs nc_LastTransitionTime].
      pose proof (Z.mul_div_le (w_now w) second ltac:(unfold second; lia)). unfold second in *. lia. }
  pose proof (silent_next _ _ _ _ _ _ t3 n2 Hs1 Hn1 Hd1 Hr1) as Hs2.
  assert (E3 : w3 = storeNode name (drained t3 n2) (atNs t3 w2)).
  { unfold w3. rewrite E2, E1. eapply (mark_step _ _ _ _ _ _ Hs2); [..|exact Hc1|done].
    - cbn [o_val]. unfold n2. by rewrite hasTaint_with, Hk, orb_true_r.
    - cbn [o_val]. unfold n2. by rewrite hasTaint_with, orb_true_r. }
  rewrite E3. eexists _, _. split; [apply storeNode_lookup|]. cbn [o_val]. split_and!;
    [|apply drainedCond_withDrained|done|done].
  unfold drained, withDrained. rewrite SetNodeStatusCondition_Taints.
  unfold n2, n1, draining, withDrained. simpl. rewrite SetNodeStatusCondition_Taints. simpl.
  by rewrite <- app_assoc.
Qed.

(** A migration whose second write fails, for any reason, is never taken up again: the pass
    that was to start it ends in an error with the drain taint in place and no Drained
    condition, and from then on every pass over the silent node, at any time and under any
    policy, panics. *)
Theorem interrupted_migration_crashes D p name w o ready e :
  silent D p w name o ready ->
  hasTaint NodeDrainTaintDefaultKey (o_val o) = false -> drainedCond (o_val o) = None ->
  Period p <= 9223372036 -> (nc_LastTransitionTime ready + Period p) * second <= w_now w ->
  let '(r, s) := OnNodeChanged D (Some o) (mkSys w [mkTurn id None; mkTurn id (Some e)]) in
  (exists e', r = Err e') /\
  forall D' p' t, isOnUpgrade D' = false -> DecodeVMForceResetPolicy (dn_policy D') = Ok p' ->
    Enable p' = true ->
    pass D' name (atNs t (sys_world s)) = (Panic, atNs t (sys_world s)).
Proof.
  intros Hs Hd Hc HP Ht. destruct (Decode_positive _ _ ltac:(by apply Hs)) as [HP0 _].
  pose proof (silent_name _ _ _ _ _ _ Hs) as Hn.
  pose proof Hs as (Hwf & Ho & Hdel & Hup & Hr & Hst & Hp & He).
  assert (Hget : getNodeTaint (node_Taints (o_val o)) NodeDrainTaintDefaultKey = None).
  { rewrite hasTaint_get in Hd. by destruct (getNodeTaint _ _). }
  set (n0 := withTaint kubevirtDrainTaint (o_val o)).
  destruct (OnNodeChanged D (Some o) _) as [r s] eqn:E.
  assert ((exists e', r = Err e') /\ sys_world s = storeNode name n0 w) as [Hr' ->].
  { revert E. unfold OnNodeChanged, checkNodeReady. unfold readyCond in Hr. rewrite Hdel, Hr, Hup, Hst.
    cbn -[second]. unfold nodeUnknown, fetchVMForceResetPolicy. rewrite Hp.
    unfold mbind at 1, M_bind at 1, mapErr at 1. erewrite bind_run by done. rewrite He, Hget.
    rewrite (bool_decide_eq_false_2 (is_Some None)) by by intros [].
    unfold addKubevirtTaintAfterExtraTimeout, calculateRequeueInterval. rewrite Hget. cbn [negb andb].
    erewrite bind_run by done. cbn [sys_world]. rewrite requeueInterval_over by lia.
    unfold triggerMigration. erewrite bind_run by (apply mapErr_run; by apply addTaints_turn).
    intros [= <- <-]. split; [by eexists|done]. }
  split; [done|]. intros D' p' t Hup' Hp' He'.
  assert (Hs' : silent D' p' (atNs t (storeNode name n0 w)) name
                  (mkObj (st_rv (w_nodes w) + 1) n0) ready).
  { destruct (silent_next _ _ _ _ _ _ t n0 Hs Hn Hdel Hr) as (? & ? & ? & _ & ? & ? & _).
    by split_and!. }
  pose proof (silent_pass _ _ _ _ _ _ Hs') as H. unfold downAct in H. cbn [o_val] in H.
  unfold n0 in H at 1. rewrite hasTaint_with, orb_true_r in H.
  change (drainedCond n0) with (drainedCond (o_val o)) in H. rewrite Hc in H.
  destruct (pass _ _ _) as [r' w']. cbn [fst snd] in H. by destruct H as [-> ->].
Qed.

(** What the reporting controller writes.  For a node with a Drained condition that is True
    the two annotations show the condition and its message; without the condition, or when it
    is False, neither is there; any other status leaves them as they are.  No other annotation
    is touched, writing once is enough, and a node that already shows the right thing is not
    written.  A node that is gone (nil) is a nil dereference. *)
Theorem reported_annotations_exact n :
  let a := reportedAnnotations n in
  (gm_get a HarvesterReportedConditionKey, gm_get a HarvesterReportedConditionMessageKey) =
    match drainedCond n with
    | None => (None, None)
    | Some c =>
        if String.eqb (nc_Status c) ConditionTrue then
          (Some HarvesterNodeCondDrained, Some (nc_Message c))
        else if String.eqb (nc_Status c) ConditionFalse then (None, None)
        else (gm_get (node_Annotations n) HarvesterReportedConditionKey,
              gm_get (node_Annotations n) HarvesterReportedConditionMessageKey)
    end /\
  (forall k, k ∉ [HarvesterReportedConditionKey; HarvesterReportedConditionMessageKey] ->
     gm_get a k = gm_get (node_Annotations n) k) /\
  reportedAnnotations (node_set_Annotations a n) = a /\
  (forall rv s, UpdateStatusAnnotations (Some (mkObj rv (node_set_Annotations a n))) s =
     (Ok (Some (mkObj rv (node_set_Annotations a n))), s)) /\
  forall s, UpdateStatusAnnotations None s = (Panic, s).
Proof.
  assert (Hd : forall k, gm_get (Some (default ∅ (node_Annotations n))) k = gm_get (node_Annotations n) k).
  { intros k. destruct (node_Annotations n); [done|]. apply lookup_empty. }
  assert (Hidem : reportedAnnotations (node_set_Annotations (reportedAnnotations n) n)
                  = reportedAnnotations n).
  { unfold reportedAnnotations. cbn [node_Conditions node_set_Annotations].
    unfold node_Annotations at 1. cbn [node_meta node_set_Annotations om_Annotations set_Annotations].
    destruct (FindNodeStatusCondition _ _) as [c|]; simpl.
    - destruct (String.eqb (nc_Status c) ConditionFalse), (String.eqb (nc_Status c) ConditionTrue);
        simpl; f_equal; apply map_eq; intros k;
        rewrite ?lookup_insert, ?lookup_delete, ?lookup_insert, ?lookup_delete; by repeat case_decide.
    - f_equal. apply map_eq. intros k. rewrite !lookup_delete. by repeat case_decide. }
  split_and!.
  - unfold reportedAnnotations. fold (drainedCond n). destruct (drainedCond n) as [c|].
    + destruct (String.eqb_spec (nc_Status c) ConditionTrue) as [->|];
        [|destruct (String.eqb (nc_Status c) ConditionFalse)];
        by rewrite ?gm_get_set, ?gm_get_delete, ?Hd; repeat case_decide.
    + by rewrite !gm_get_delete; repeat case_decide.
  - intros k Hk. unfold reportedAnnotations. rewrite !not_elem_of_cons in Hk. destruct Hk as (? & ? & _).
    destruct (FindNodeStatusCondition _ _) as [c|]; [destruct (String.eqb _ _), (String.eqb _ _)|];
      rewrite ?gm_get_set_ne, ?gm_get_delete_ne by done; apply Hd.
  - done.
  - intros rv s. unfold UpdateStatusAnnotations. cbn [o_val]. rewrite Hidem.
    by rewrite bool_decide_eq_true_2.
  - done.
Qed.

End Properties.

(** ** Witnesses *)

(** The node that fell silent at time 0, and the same sixteen seconds later. *)
Definition silentNode : Obj Node :=
  mkObj 2 (SetNodeStatusCondition 0 (demoNode "a" [] []) NodeReady ConditionUnknown
             "NodeStatusUnknown" "").
Definition silentReady : NodeCondition :=
  mkNodeCond NodeReady ConditionUnknown 0 0 "NodeStatusUnknown" "".

Lemma silent_demo t :
  silent (JP := demoPolicies) demoDown (mkPolicy true 15 180) (atTime t silentSince0) "a" silentNode
    silentReady.
Proof.
  split_and!; try (by vm_compute).
  assert (world_wf silentSince0) by (apply world_wfb_ok; by vm_compute). done.
Defined.

Lemma silent_pass_exact_witness :
  silent (JP := demoPolicies) demoDown (mkPolicy true 15 180) (atTime 16 silentSince0) "a" silentNode
    silentReady /\
  downAct (mkPolicy true 15 180) (16 * second) silentReady (o_val silentNode) = StartMigration /\
  let '(r, w') := pass (JP := demoPolicies) demoDown "a" (atTime 16 silentSince0) in
  carriesOut StartMigration "a" silentNode (atTime 16 silentSince0) r w'.
Proof.
  split; [apply silent_demo|]. split; [by vm_compute|].
  exact (silent_pass_exact (JP := demoPolicies) demoDown (mkPolicy true 15 180)
    (atTime 16 silentSince0) "a" silentNode silentReady (silent_demo 16)).
Defined.

(** The node comes back after its migration was started. *)
Definition backWorld : World :=
  setReady ConditionTrue "a" (atTime 20 (demoPass 16 silentSince0)).

Lemma recovery_completes_witness :
  exists o, st_objs (w_nodes backWorld) !! "a" = Some o /\ shows "a" backWorld =
    Some (true, false, Some (ConditionFalse, 16)) /\
  let w2 := (pass (JP := demoPolicies) demoDown "a"
              (pass (JP := demoPolicies) demoDown "a" backWorld).2).2 in
  exists o2, st_objs (w_nodes w2) !! "a" = Some o2 /\ o_val o2 = undrained (untainted (o_val o)).
Proof.
  destruct (st_objs (w_nodes backWorld) !! "a") as [o|] eqn:Ho; [|by vm_compute in Ho].
  exists o. split; [done|]. split; [by vm_compute|].
  assert (Hr : isReady (o_val o)).
  { assert (o = default silentNode (st_objs (w_nodes backWorld) !! "a")) as -> by by rewrite Ho.
    split; [by vm_compute|]. eexists. split; [by vm_compute|done]. }
  destruct (recovery_completes (JP := demoPolicies) demoDown "a" backWorld o) as [(o2 & H2 & E2 & _) _];
    [apply world_wfb_ok; by vm_compute|done|done|by vm_compute|]. by exists o2.
Defined.

(** Every policy of the demonstration waits 180 seconds. *)
Lemma demoDown_waits : waits (JP := demoPolicies) 180 demoDown.
Proof. intros p Hp. vm_compute in Hp. injection Hp as <-. simpl. lia. Defined.

Lemma handsOff_atTime L t w : w_now w <= t * second -> handsOff L w (atTime t w).
Proof.
  intros Ht. split_and!; [|done|].
  - intros Hw. split_and!; [done|simpl; reflexivity..|]. intros name. constructor.
  - intros name o' Ho'. right. exists o'. done.
Qed.

(** A pass as a step of the system. *)
Lemma demoPass_step t w :
  world_wf w -> st_objs (w_nodes w) !! "a" <> None ->
  downStep (JP := demoPolicies) 180 (atTime t w) (demoPass t w).
Proof.
  intros Hw Hs. unfold demoPass, pass. change (w_nodes (atTime t w)) with (w_nodes w).
  destruct (st_objs (w_nodes w) !! "a") as [o|] eqn:Ho; [|done].
  pose proof (ds_pass (JP := demoPolicies) 180 demoDown o [] (atTime t w) demoDown_waits) as H.
  unfold quiet. destruct (OnNodeChanged _ _ _) as [r s]. apply H; [|constructor].
  by apply (knows_stored _ "a").
Qed.


(** The same node in the middle of a drain. *)
Definition silentDraining : World :=
  match st_objs (w_nodes silentSince0) !! "a" with
  | Some o => storeNode "a" (SetMaintenanceModeCondition 0 (o_val o) ConditionTrue
                NodeConditionReasonDraining MaintenanceModeMessageDraining).1 silentSince0
  | None => silentSince0
  end.

(** While the first pass starts the migration, the user takes the drain taint away and moves
    the node along. *)
Definition takenBack (w : World) : World :=
  match st_objs (w_nodes w) !! "a" with
  | Some o => storeNode "a" (node_set_Taints [] (SetMaintenanceModeCondition 0 (o_val o) ConditionTrue
                NodeConditionReasonEvacuating MaintenanceModeMessageEvacuating).1) w
  | None => w
  end.

Lemma takenBack_evolves w :
  evolves (fun _ _ p' => p' = PEvacuating) w (takenBack w).
Proof.
  apply evolves_guarded. intros Hw. unfold takenBack.
  destruct (st_objs (w_nodes w) !! "a") as [o|] eqn:Ho; [|reflexivity].
  apply evolves_storeNode.
  - change (node_Name (node_set_Taints [] ?n)) with (node_Name n). rewrite Set_Name. by apply Hw.
  - apply rtc_once. change (phaseOf (node_set_Taints [] ?n)) with (phaseOf n). by rewrite phaseOf_Set.
Qed.

Lemma node_down_keeps_maintenance_witness :
  let w := atTime 16 silentDraining in
  exists o, st_objs (w_nodes w) !! "a" = Some o /\
  let s' := (OnNodeChanged (JP := demoPolicies) demoDown (Some o)
               (mkSys w [mkTurn id None; mkTurn takenBack None])).2 in
  shows "a" (sys_world s') = Some (false, false, None) /\ phaseAt (sys_world s') "a" = PEvacuating /\
  world_wf (sys_world s') /\
  rtc (fun _ p' => p' = PEvacuating) PDraining (phaseAt (sys_world s') "a").
Proof.
  intros w. destruct (st_objs (w_nodes w) !! "a") as [o|] eqn:Ho; [|by vm_compute in Ho].
  exists o. split; [done|].
  assert (o = default silentNode (st_objs (w_nodes w) !! "a")) as Eo by by rewrite Ho.
  assert (Hw : world_wf w) by (apply world_wfb_ok; by vm_compute).
  destruct (node_down_keeps_maintenance (JP := demoPolicies) (fun _ _ p' => p' = PEvacuating) demoDown o
    (mkSys w [mkTurn id None; mkTurn takenBack None])
    (OnNodeChanged (JP := demoPolicies) demoDown (Some o))) as [Hw' Hp];
    [done|by eapply knows_stored| |by left|].
  - apply Forall_cons. split; [intros w'; simpl; reflexivity|].
    apply Forall_cons. split; [intros w'; apply takenBack_evolves|constructor].
  - intros s'. split; [unfold s'; rewrite Eo; by vm_compute|].
    split; [unfold s'; rewrite Eo; by vm_compute|]. split; [done|].
    specialize (Hp "a"). cbn [sys_world] in Hp.
    replace (phaseAt w "a") with PDraining in Hp by by vm_compute.
    done.
Defined.

Lemma node_down_completes_witness :
  let w1 := (pass (JP := demoPolicies) demoDown "a" (atTime 16 silentSince0)).2 in
  let w2 := (pass (JP := demoPolicies) demoDown "a" (atNs (196 * second) w1)).2 in
  let w3 := (pass (JP := demoPolicies) demoDown "a" (atNs 0 w2)).2 in
  exists o3 c, st_objs (w_nodes w3) !! "a" = Some o3 /\
    node_Taints (o_val o3) = [kubevirtDrainTaint; nonGracefulTaint] /\
    drainedCond (o_val o3) = Some c /\ nc_Status c = ConditionTrue /\
    nc_Reason c = HarvesterNodeDrainedCondReasonDrained.
Proof.
  exact (node_down_completes (JP := demoPolicies) demoDown (mkPolicy true 15 180) "a"
    (atTime 16 silentSince0) silentNode silentReady (196 * second) 0 (silent_demo 16)
    ltac:(done) ltac:(done) ltac:(by vm_compute) ltac:(by vm_compute) ltac:(by vm_compute)
    ltac:(done) ltac:(done)).
Defined.

(** A conflict with a heartbeat of the node, between the two writes. *)
Definition interrupted : World :=
  sys_world (OnNodeChanged (JP := demoPolicies) demoDown (Some silentNode)
    (mkSys (atTime 16 silentSince0) [mkTurn id None; mkTurn id (Some (ApiConflict "modified"))])).2.

Lemma interrupted_migration_crashes_witness :
  shows "a" interrupted = Some (true, false, None) /\
  pass (JP := demoPolicies) demoDown "a" (atNs (17 * second) interrupted)
    = (Panic, atNs (17 * second) interrupted).
Proof.
  split; [by vm_compute|].
  pose proof (interrupted_migration_crashes (JP := demoPolicies) demoDown (mkPolicy true 15 180) "a"
    (atTime 16 silentSince0) silentNode silentReady (ApiConflict "modified") (silent_demo 16)
    ltac:(by vm_compute) ltac:(by vm_compute) ltac:(done) ltac:(done)) as H.
  unfold interrupted. destruct (OnNodeChanged _ _ _) as [r s].
  apply (proj2 H demoDown (mkPolicy true 15 180)); by vm_compute.
Defined.

(** ** A node that comes and goes *)

(** The node falls silent at 0, its migration starts at 16; it is back at 190, and one pass
    runs before it is silent again at 191. *)
Definition flapBack : World := demoPass 190 (setReady ConditionTrue "a" (atTime 190 (demoPass 16 silentSince0))).
Definition flapAgain : World := setReady ConditionUnknown "a" (atTime 191 flapBack).

(** A node that flaps can lose the time its VMs have to migrate.  The pass after the recovery
    removes the taint but, with a version out of date, not the Drained condition; when the node
    falls silent again before the next pass, the condition keeps the time of the first failure,
    and the node is out of service as soon as the drain taint is back, without the 180 seconds
    of the policy (a node without that past still waits then). *)
Theorem flapping_node_loses_grace :
  shows "a" flapBack = Some (false, false, Some (ConditionFalse, 16)) /\
  shows "a" (demoPass 206 flapAgain) = Some (true, false, Some (ConditionFalse, 16)) /\
  shows "a" (demoPass 206 (demoPass 206 flapAgain)) = Some (true, true, Some (ConditionFalse, 16)) /\
  let fresh := setReady ConditionUnknown "a" (atTime 191 (demoWorld [demoNode "a" [] []] [] [])) in
  shows "a" (demoPass 385 (demoPass 206 fresh)) = Some (true, false, Some (ConditionFalse, 206)).
Proof. by vm_compute. Qed.

(** A silent node in maintenance that is out of service and drained. *)
Definition outOfService : World :=
  match st_objs (w_nodes silentSince0) !! "a" with
  | Some o =>
      demoPass 196 (demoPass 196 (demoPass 16
        (storeNode "a" (SetMaintenanceModeCondition 0 (o_val o) ConditionTrue
           NodeConditionReasonCompleted MaintenanceModeMessageCompleted).1 silentSince0)))
  | None => silentSince0
  end.

(** Why the other clients must leave the drain taint of a node that is out of service alone.
    Disabling maintenance mode removes it, together with every other taint of that key; the
    next pass of this controller puts it back and sets the Drained condition to False as of
    now, while the node is still out of service. *)
Theorem disabling_restarts_migration :
  shows "a" outOfService = Some (true, true, Some (ConditionTrue, 196)) /\
  let w := sys_world (disableMaintenanceMode "a" (quiet outOfService)).2 in
  shows "a" w = Some (false, true, Some (ConditionTrue, 196)) /\
  shows "a" (demoPass 300 w) = Some (true, true, Some (ConditionFalse, 300)).
Proof. by vm_compute. Qed.

(** A node whose kubelet reports Ready=False is never touched, for how long it may last. *)
Theorem not_ready_ignored `{JP : JsonCodec VMForceResetPolicy} D o c s :
  deleting (o_val o) = false -> readyCond (o_val o) = Some c -> nc_Status c = ConditionFalse ->
  OnNodeChanged D (Some o) s = (Ok (Some o), s).
Proof.
  intros Hd Hr Hs. unfold OnNodeChanged, checkNodeReady, readyCond in *. rewrite Hd, Hr, Hs.
  by destruct (isOnUpgrade D).
Qed.
