(* ===== verification/VolumeDetach.v ===== *)
(** Two small node controllers and the cache indexes they use:
    [pkg/controller/master/node/node_volume_detach_controller.go], which keeps coming back to
    a node that is drained for an upgrade while a volume on it cannot be detached yet,
    [pkg/controller/master/node/node_remove_controller.go], which deletes the machine of a
    node that was removed, and [pkg/indexeres/indexer.go]. *)

From Stdlib Require Import Ascii.
From S2P Require Import Prelude K8s NodeUtil Upgrade NodeWebhook Maintenance NodeDrain.

Local Open Scope Z_scope.

(** ** Cached objects *)

Record PersistentVolumeClaim := mkPVC {
  pvc_meta : ObjectMeta;
  pvc_DataSource : option (string * string);      (* kind, name *)
  pvc_Phase : string }.

Record Pod := mkPod {
  pod_meta : ObjectMeta;
  pod_NodeName : string;
  pod_Claims : list (option string);              (* per volume: the claim, if it has one *)
  pod_Phase : string }.

Record VolumeSnapshot := mkSnapshot {
  vs_meta : ObjectMeta;
  vs_SourcePVC : option string;
  vs_ReadyToUse : option (option bool) }.         (* status, and its field *)

(** A Longhorn volume: spec.nodeID, status.state, status.kubernetesStatus. *)
Record LVolume := mkLVolume {
  lhv_Name : string; lhv_NodeID : string; lhv_State : string;
  lhv_PVCNamespace : string; lhv_PVCName : string }.

Definition ClaimPending : string := "Pending".
Definition PodRunning : string := "Running".
Definition PodPending : string := "Pending".
Definition VolumeStateCreating : string := "creating".
Definition VolumeStateAttached : string := "attached".
Definition VolumeStateAttaching : string := "attaching".
Definition VolumeStateDetaching : string := "detaching".
Definition UpgradeNodeDrainTaintValue : string := "draining".
Definition nodeVolumeDetachEnqueueInterval : Z := 5 * second.

(** ** The indexes ([indexer.go]) *)

(** Keys are namespace and name joined by a slash ([slashed]). *)

Definition PodByNodeName (obj : Pod) : list string := [pod_NodeName obj].

Fixpoint podClaims (namespace : string) (claims : list (option string)) : list string :=
  match claims with
  | [] => []
  | None :: cs => podClaims namespace cs
  | Some name :: cs => slashed namespace name :: podClaims namespace cs
  end.
Definition PodByPVC (obj : Pod) : list string :=
  podClaims (om_Namespace (pod_meta obj)) (pod_Claims obj).

Definition pvcByDataSourceVolumeSnapshot (obj : PersistentVolumeClaim) : list string :=
  match pvc_DataSource obj with
  | None => []
  | Some (kind, name) =>
      if negb (String.eqb kind "VolumeSnapshot") then []
      else [slashed (om_Namespace (pvc_meta obj)) name]
  end.

Definition volumeSnapshotBySourcePVC (obj : VolumeSnapshot) : list string :=
  match vs_SourcePVC obj with
  | None => []
  | Some name => [slashed (om_Namespace (vs_meta obj)) name]
  end.

Definition VolumeByNodeName (obj : LVolume) : list string := [lhv_NodeID obj].

(** A cache: its objects, or the error its queries end with. *)
Definition GetByIndex {A} (index : A -> list string) (cache : outcome (list A)) (key : string)
  : outcome (list A) :=
  objs ← cache;
  Ok (List.filter (fun a => str_in key (index a)) objs).

(** ** The volume detach controller *)

(** What it reads. *)
Record DetachEnv := mkDetachEnv {
  ve_upgrades : outcome (list Upgrade);
  ve_volumes : outcome (list LVolume);
  ve_pvcs : outcome (list PersistentVolumeClaim);
  ve_pods : outcome (list Pod);
  ve_snapshots : outcome (list VolumeSnapshot) }.

Definition isNodeInDraining (node : Node) : bool :=
  existsb (fun t => String.eqb (t_Key t) UpgradeNodeDrainTaintKey
                    && String.eqb (t_Value t) UpgradeNodeDrainTaintValue
                    && String.eqb (t_Effect t) TaintEffectNoSchedule) (node_Taints node).

Section Detach.
Context (E : DetachEnv).

Definition isInUpgradePreDraining (node : Node) : outcome bool :=
  if negb (isNodeInDraining node) then Ok false
  else
    upgrades ← ve_upgrades E;
    Ok (existsb (fun u => IsUpgradeInProgress (Some u)) upgrades).

Definition getNodePVCVolumes (node : Node) : outcome (list LVolume) :=
  volumes ← GetByIndex VolumeByNodeName (ve_volumes E) (node_Name node);
  Ok (List.filter (fun v => negb (String.eqb (lhv_PVCName v) "")) volumes).

Definition getPVCByVolume (volume : LVolume) : outcome PersistentVolumeClaim :=
  pvcs ← ve_pvcs E;
  match List.find (fun p => String.eqb (om_Namespace (pvc_meta p)) (lhv_PVCNamespace volume)
                            && String.eqb (om_Name (pvc_meta p)) (lhv_PVCName volume)) pvcs with
  | Some p => Ok p
  | None => Err (ApiNotFound "not found")
  end.

Definition wrapped {A} (o : outcome A) : outcome A :=
  match o with Err e => Err (ErrWrap "can't get objects by index" e) | r => r end.

Definition notReady (vs : VolumeSnapshot) : bool :=
  match vs_ReadyToUse vs with Some (Some true) => false | _ => true end.

(** The loop over the snapshots of the claim. *)
Fixpoint snapshotsBusy (snapshots : list VolumeSnapshot) : outcome bool :=
  match snapshots with
  | [] => Ok false
  | vs :: rest =>
      if notReady vs then Ok true
      else
        childPVCs ← wrapped (GetByIndex pvcByDataSourceVolumeSnapshot (ve_pvcs E)
                               (slashed (om_Namespace (vs_meta vs)) (om_Name (vs_meta vs))));
        if existsb (fun child => String.eqb (pvc_Phase child) ClaimPending) childPVCs
        then Ok true else snapshotsBusy rest
  end.

Definition checkDetachVolume (pvc : PersistentVolumeClaim) : outcome bool :=
  if String.eqb (pvc_Phase pvc) ClaimPending then Ok true
  else
    let key := slashed (om_Namespace (pvc_meta pvc)) (om_Name (pvc_meta pvc)) in
    pods ← wrapped (GetByIndex PodByPVC (ve_pods E) key);
    if existsb (fun pod => str_in (pod_Phase pod) [PodRunning; PodPending]) pods then Ok true
    else
      volumeSnapshots ← wrapped (GetByIndex volumeSnapshotBySourcePVC (ve_snapshots E) key);
      snapshotsBusy volumeSnapshots.

(** The names collected by the loop of [OnNodeChanged]. *)
Fixpoint waitVolumeNames (volumes : list LVolume) : outcome (list string) :=
  match volumes with
  | [] => Ok []
  | volume :: rest =>
      if str_in (lhv_State volume)
           [VolumeStateCreating; VolumeStateAttaching; VolumeStateDetaching]
      then names ← waitVolumeNames rest; Ok (lhv_Name volume :: names)
      else if String.eqb (lhv_State volume) VolumeStateAttached then
        pvc ← getPVCByVolume volume;
        wait ← checkDetachVolume pvc;
        names ← waitVolumeNames rest;
        Ok (if (wait : bool) then lhv_Name volume :: names else names)
      else waitVolumeNames rest
  end.

(** The state is the work queue. *)
Definition OnNodeChanged (node : option Node) : M (list (string * Z)) (option Node) :=
  match node with
  | None => mret None
  | Some n =>
      if deleting n then mret (Some n)
      else
        ok ← lift (isInUpgradePreDraining n);
        if negb ok then mret (Some n)
        else
          volumes ← lift (getNodePVCVolumes n);
          names ← lift (waitVolumeNames volumes);
          match names with
          | [] => mret (Some n)
          | _ :: _ =>
              modify (fun q => q ++ [(node_Name n, nodeVolumeDetachEnqueueInterval)]);;
              mret (Some n)
          end
  end.
End Detach.

(** ** The node remove controller *)

Definition MachineAnnotation : string := "cluster.x-k8s.io/machine".
Definition FleetLocalNamespaceName : string := "fleet-local".

(** Machines by namespace and name; the verdicts of the two calls. *)
Record REnv := mkREnv { re_get : option goerror; re_delete : option goerror }.

Definition OnNodeRemoved (E : REnv) (node : option Node)
  : M (gset (string * string)) (option Node) :=
  match node with
  | None => mret None
  | Some n =>
      let name := gm_str (node_Annotations n) MachineAnnotation in
      if negb (deleting n) || bool_decide (node_Annotations n = None) || String.eqb name ""
      then mret (Some n)
      else
        let machine := (FleetLocalNamespaceName, name) in
        found ← gets (fun machines => bool_decide (machine ∈ machines));
        match re_get E with
        | Some e => if IsNotFound e then mret None else throw e
        | None =>
            if negb found then mret None
            else apiWrite (re_delete E) (fun machines => machines ∖ {[machine]}) None
        end
  end.

(** ** Lemmas *)

Lemma slashed_inj ns ns' n n' :
  hasByte "/"%char ns = false -> hasByte "/"%char ns' = false ->
  slashed ns n = slashed ns' n' -> ns = ns' /\ n = n'.
Proof.
  intros H H' E. unfold slashed in E.
  assert (ns = ns') as ->.
  { apply (f_equal (Split "/"%char)) in E. change ("/" +:+ n) with (String "/"%char n) in E.
    change ("/" +:+ n') with (String "/"%char n') in E. rewrite !Split_app in E by done. congruence. }
  split; [done|]. clear H H'.
  induction ns' as [|a s IH]; [by injection E|]. injection E. apply IH.
Qed.

Lemma podClaims_elem ns cs k : k ∈ podClaims ns cs <-> exists c, Some c ∈ cs /\ k = slashed ns c.
Proof.
  induction cs as [|[c|] cs IH]; simpl.
  - set_solver.
  - rewrite elem_of_cons, IH. setoid_rewrite elem_of_cons. naive_solver.
  - rewrite IH. setoid_rewrite elem_of_cons. naive_solver.
Qed.

(** ** When a volume is waited for *)

Section Spec.
Context (E : DetachEnv) (pods : list Pod) (snapshots : list VolumeSnapshot) (pvcs : list PersistentVolumeClaim).

(** A pod uses the claim, a snapshot is taken of it, a claim is restored from a snapshot. *)
Definition uses (pod : Pod) (pvc : PersistentVolumeClaim) : Prop :=
  om_Namespace (pod_meta pod) = om_Namespace (pvc_meta pvc) /\
  Some (om_Name (pvc_meta pvc)) ∈ pod_Claims pod.
Definition snapshotOf (vs : VolumeSnapshot) (pvc : PersistentVolumeClaim) : Prop :=
  om_Namespace (vs_meta vs) = om_Namespace (pvc_meta pvc) /\
  vs_SourcePVC vs = Some (om_Name (pvc_meta pvc)).
Definition restoredFrom (child : PersistentVolumeClaim) (vs : VolumeSnapshot) : Prop :=
  om_Namespace (pvc_meta child) = om_Namespace (vs_meta vs) /\
  pvc_DataSource child = Some ("VolumeSnapshot", om_Name (vs_meta vs)).

Definition snapshotBusy (vs : VolumeSnapshot) : Prop :=
  notReady vs = true \/
  exists child, child ∈ pvcs /\ restoredFrom child vs /\ pvc_Phase child = ClaimPending.

(** The claim is not bound yet, in use, being copied, or still needed by a copy in progress. *)
Definition busy (pvc : PersistentVolumeClaim) : Prop :=
  pvc_Phase pvc = ClaimPending \/
  (exists pod, pod ∈ pods /\ uses pod pvc /\ pod_Phase pod ∈ [PodRunning; PodPending]) \/
  exists vs, vs ∈ snapshots /\ snapshotOf vs pvc /\ snapshotBusy vs.

Definition slashFree (m : ObjectMeta) : Prop := hasByte "/"%char (om_Namespace m) = false.

Hypothesis E_pods : ve_pods E = Ok pods.
Hypothesis E_snapshots : ve_snapshots E = Ok snapshots.
Hypothesis E_pvcs : ve_pvcs E = Ok pvcs.
Hypothesis pods_slashFree : forall pod, pod ∈ pods -> slashFree (pod_meta pod).
Hypothesis snapshots_slashFree : forall vs, vs ∈ snapshots -> slashFree (vs_meta vs).
Hypothesis pvcs_slashFree : forall pvc, pvc ∈ pvcs -> slashFree (pvc_meta pvc).

Lemma PodByPVC_spec pod pvc :
  pod ∈ pods -> slashFree (pvc_meta pvc) ->
  str_in (slashed (om_Namespace (pvc_meta pvc)) (om_Name (pvc_meta pvc))) (PodByPVC pod) = true
  <-> uses pod pvc.
Proof using All.
  intros Hp Hc. unfold str_in, PodByPVC, uses. rewrite bool_decide_eq_true, podClaims_elem. split.
  - intros (c & Hin & E'). apply slashed_inj in E' as [-> ->]; [done|done|by apply pods_slashFree].
  - intros [-> Hin]. eauto.
Qed.

Lemma snapshotBySource_spec vs pvc :
  vs ∈ snapshots -> slashFree (pvc_meta pvc) ->
  str_in (slashed (om_Namespace (pvc_meta pvc)) (om_Name (pvc_meta pvc)))
    (volumeSnapshotBySourcePVC vs) = true <-> snapshotOf vs pvc.
Proof using All.
  intros Hv Hc. unfold str_in, volumeSnapshotBySourcePVC, snapshotOf. rewrite bool_decide_eq_true.
  destruct (vs_SourcePVC vs) as [name|]; [|set_solver].
  rewrite list_elem_of_singleton. split.
  - intros E'. apply slashed_inj in E' as [-> ->]; [done|done|by apply snapshots_slashFree].
  - intros [-> [= ->]]. done.
Qed.

Lemma childOf_spec child vs :
  child ∈ pvcs -> slashFree (vs_meta vs) ->
  str_in (slashed (om_Namespace (vs_meta vs)) (om_Name (vs_meta vs)))
    (pvcByDataSourceVolumeSnapshot child) = true <-> restoredFrom child vs.
Proof using All.
  intros Hv Hc. unfold str_in, pvcByDataSourceVolumeSnapshot, restoredFrom. rewrite bool_decide_eq_true.
  destruct (pvc_DataSource child) as [[kind name]|]; [|set_solver].
  destruct (String.eqb_spec kind "VolumeSnapshot") as [->|]; simpl; [|set_solver].
  rewrite list_elem_of_singleton. split.
  - intros E'. apply slashed_inj in E' as [-> ->]; [done|done|by apply pvcs_slashFree].
  - intros [-> [= ->]]. done.
Qed.

Lemma snapshotsBusy_spec l :
  (forall vs, vs ∈ l -> vs ∈ snapshots) ->
  exists b, snapshotsBusy E l = Ok b /\ (b = true <-> exists vs, vs ∈ l /\ snapshotBusy vs).
Proof using All.
  induction l as [|vs l IH]; intros Hl; cbn [snapshotsBusy].
  { exists false. split; [done|]. split; [done|]. intros (vs & Hin & _). set_solver. }
  destruct (notReady vs) eqn:Hr.
  { exists true. split; [done|]. split; [|done]. intros _. exists vs. split; [by left|by left]. }
  unfold wrapped, GetByIndex. rewrite E_pvcs. cbn [mbind outcome_bind].
  assert (Hc : existsb (fun child => String.eqb (pvc_Phase child) ClaimPending)
      (List.filter (fun a => str_in (slashed (om_Namespace (vs_meta vs)) (om_Name (vs_meta vs)))
         (pvcByDataSourceVolumeSnapshot a)) pvcs) = true <->
    exists child, child ∈ pvcs /\ restoredFrom child vs /\ pvc_Phase child = ClaimPending).
  { rewrite existsb_elem. setoid_rewrite filter_elem. setoid_rewrite String.eqb_eq.
    assert (Hp : slashFree (vs_meta vs)) by (apply snapshots_slashFree, Hl; by left).
    split.
    - intros (child & [Hin Hk] & Hph). exists child. by split_and!; [|apply childOf_spec|].
    - intros (child & Hin & Hk & Hph). exists child. by split_and!; [|apply childOf_spec|]. }
  destruct (existsb _ _).
  - exists true. split; [done|]. split; [|done]. intros _. exists vs. split; [by left|]. right. by apply Hc.
  - destruct IH as (b & Hb & Hiff); [set_solver|]. exists b. split; [done|]. rewrite Hiff, list_exists_cons_iff.
    unfold snapshotBusy at 2. rewrite Hr, <- Hc. naive_solver.
Qed.

Lemma checkDetachVolume_spec pvc :
  slashFree (pvc_meta pvc) ->
  exists b, checkDetachVolume E pvc = Ok b /\ (b = true <-> busy pvc).
Proof using All.
  intros Hp. unfold checkDetachVolume, busy.
  destruct (String.eqb_spec (pvc_Phase pvc) ClaimPending) as [Hph|Hph].
  { exists true. split; [done|]. tauto. }
  unfold wrapped, GetByIndex. rewrite E_pods, E_snapshots. cbn [mbind outcome_bind].
  set (inUse := existsb _ _).
  assert (Hu : inUse = true <->
    exists pod, pod ∈ pods /\ uses pod pvc /\ pod_Phase pod ∈ [PodRunning; PodPending]).
  { unfold inUse. rewrite existsb_elem. setoid_rewrite filter_elem. split.
    - intros (pod & [Hin Hk%PodByPVC_spec] & Hr); [|done..]. apply bool_decide_eq_true in Hr. eauto.
    - intros (pod & Hin & Hk & Hr). exists pod.
      split_and!; [done|by apply PodByPVC_spec|by apply bool_decide_eq_true]. }
  destruct inUse; [exists true; split; [done|]; tauto|].
  destruct (snapshotsBusy_spec (List.filter (fun a => str_in
    (slashed (om_Namespace (pvc_meta pvc)) (om_Name (pvc_meta pvc))) (volumeSnapshotBySourcePVC a))
    snapshots)) as (b & Hb & Hiff).
  { intros vs [? _]%filter_elem. done. }
  exists b. split; [exact Hb|]. rewrite Hiff. setoid_rewrite filter_elem.
  split.
  - intros (vs & [Hin Hs] & Hbusy). right; right. exists vs. split_and!; [done|by apply snapshotBySource_spec|done].
  - intros [?|[H|(vs & Hin & Hs & Hbusy)]]; [done|by apply Hu in H|].
    exists vs. split_and!; [done|by apply snapshotBySource_spec|done].
Qed.
End Spec.

(** ** Properties *)

Section Properties.
Context (E : DetachEnv) (upgrades : list Upgrade) (volumes : list LVolume) (pods : list Pod)
  (snapshots : list VolumeSnapshot) (pvcs : list PersistentVolumeClaim).

(** The caches answer, and namespaces are names. *)
Definition caches_ok : Prop :=
  ve_upgrades E = Ok upgrades /\ ve_volumes E = Ok volumes /\ ve_pods E = Ok pods /\
  ve_snapshots E = Ok snapshots /\ ve_pvcs E = Ok pvcs /\
  (forall pod, pod ∈ pods -> slashFree (pod_meta pod)) /\
  (forall vs, vs ∈ snapshots -> slashFree (vs_meta vs)) /\
  forall pvc, pvc ∈ pvcs -> slashFree (pvc_meta pvc).

(** The claim of a volume. *)
Definition claimOf (v : LVolume) : option PersistentVolumeClaim :=
  List.find (fun p => String.eqb (om_Namespace (pvc_meta p)) (lhv_PVCNamespace v)
                      && String.eqb (om_Name (pvc_meta p)) (lhv_PVCName v)) pvcs.

(** The volume is on its way, or attached for a claim that is busy. *)
Definition mustWait (v : LVolume) : Prop :=
  lhv_State v ∈ [VolumeStateCreating; VolumeStateAttaching; VolumeStateDetaching] \/
  lhv_State v = VolumeStateAttached /\
  exists pvc, claimOf v = Some pvc /\ busy pods snapshots pvcs pvc.

Lemma waitVolumeNames_spec l :
  caches_ok -> (forall v, v ∈ l -> lhv_State v = VolumeStateAttached -> is_Some (claimOf v)) ->
  exists names, waitVolumeNames E l = Ok names /\
    (names <> [] <-> exists v, v ∈ l /\ mustWait v).
Proof.
  intros (_ & _ & Hpo & Hsn & Hpv & Ppo & Psn & Ppv).
  induction l as [|v l IH]; intros Hl; cbn [waitVolumeNames].
  { exists []. split; [done|]. split; [done|]. intros (v & Hin & _). by apply elem_of_nil in Hin. }
  destruct IH as (names & Hn & Hiff); [intros v' Hv'; apply Hl; by right|].
  setoid_rewrite list_exists_cons_iff. unfold mustWait at 1. unfold str_in. case_bool_decide as Hs.
  { rewrite Hn. exists (lhv_Name v :: names). split; [done|]. split; [|done]. intros _. by left; left. }
  destruct (String.eqb_spec (lhv_State v) VolumeStateAttached) as [Ha|Ha].
  - destruct (Hl v ltac:(by left) Ha) as [pvc Hc]. unfold getPVCByVolume. rewrite Hpv.
    cbn [mbind outcome_bind]. unfold claimOf in Hc. rewrite Hc.
    assert (Hin : pvc ∈ pvcs) by by apply list_elem_of_In; apply List.find_some in Hc as [? _].
    destruct (checkDetachVolume_spec E pods snapshots pvcs Hpo Hsn Hpv Ppo Psn Ppv pvc (Ppv _ Hin))
      as (b & Hb & Hbusy).
    cbn [mbind outcome_bind]. rewrite Hb. cbn [mbind outcome_bind]. rewrite Hn. eexists. split; [done|].
    destruct b.
    + split; [|done]. intros _. left. right. split; [done|]. exists pvc. split; [done|]. by apply Hbusy.
    + rewrite Hiff. split; [by right|]. intros [[?|(_ & pvc' & Hc' & Hb')]|H]; [done| |done].
      unfold claimOf in Hc'. rewrite Hc in Hc'. injection Hc' as <-. by apply Hbusy in Hb'.
  - exists names. split; [done|]. rewrite Hiff. split; [by right|].
    by intros [[?|[? _]]|H].
Qed.

(** C37: The controller comes back to a node exactly while there is something to wait for: the node
    is drained for an upgrade that is in progress and one of the volumes on it that belong to a
    claim is on its way, or attached while its claim is unbound, in use by a pod that runs or
    will, being copied by a snapshot, or the source of a claim still being restored.  It then
    queues the node once, five seconds on, and it changes nothing else. *)
Theorem volume_detach_exact n q :
  caches_ok ->
  (forall v, v ∈ volumes -> lhv_NodeID v = node_Name n -> lhv_PVCName v <> "" ->
     lhv_State v = VolumeStateAttached -> is_Some (claimOf v)) ->
  exists q', OnNodeChanged E (Some n) q = (Ok (Some n), q ++ q') /\
    q' ⊆ [(node_Name n, nodeVolumeDetachEnqueueInterval)] /\
    (q' <> [] <->
     deleting n = false /\ isNodeInDraining n = true /\
     (exists u, u ∈ upgrades /\ IsUpgradeInProgress (Some u) = true) /\
     exists v, v ∈ volumes /\ lhv_NodeID v = node_Name n /\ lhv_PVCName v <> "" /\ mustWait v).
Proof.
  intros Hok Hcl. unfold OnNodeChanged.
  assert (Hno : forall P : Prop, ~ P -> exists q', (Ok (Some n), q) = (Ok (Some n), q ++ q') /\
    q' ⊆ [(node_Name n, nodeVolumeDetachEnqueueInterval)] /\ (q' <> [] <-> P)).
  { intros P HP. exists []. rewrite app_nil_r. split_and!; [done|set_solver|]. by split; [intros []|]. }
  destruct (deleting n) eqn:Hd; [apply Hno; by intros (? & _)|].
  unfold isInUpgradePreDraining. destruct (isNodeInDraining n) eqn:Hdr; [|apply Hno; by intros (_ & ? & _)].
  pose proof Hok as (Hu & Hv & _). rewrite Hu. cbn [negb mbind outcome_bind].
  pose proof (existsb_elem (fun u => IsUpgradeInProgress (Some u)) upgrades) as Hex.
  erewrite bind_run by done. destruct (existsb _ _); cbn [negb]; cycle 1.
  { apply Hno. intros (_ & _ & H & _). by apply Hex in H. }
  unfold getNodePVCVolumes, GetByIndex. rewrite Hv. cbn [mbind outcome_bind].
  erewrite bind_run by done. rewrite filter_filter. set (vols := List.filter _ _).
  assert (Hin : forall v, v ∈ vols <-> v ∈ volumes /\ lhv_NodeID v = node_Name n /\ lhv_PVCName v <> "").
  { intros v. unfold vols. rewrite filter_elem, andb_true_iff, negb_true_iff, String.eqb_neq.
    unfold str_in, VolumeByNodeName. rewrite bool_decide_eq_true, list_elem_of_singleton. naive_solver. }
  destruct (waitVolumeNames_spec vols Hok) as (names & Hn & Hiff).
  { intros v (? & ? & ?)%Hin. by apply Hcl. }
  rewrite Hn. erewrite bind_run by done. setoid_rewrite Hin in Hiff.
  destruct names as [|x names].
  - apply Hno. intros (_ & _ & _ & v & H1 & H2 & H3 & H4). destruct Hiff as [_ Hiff].
    by apply Hiff; [exists v|].
  - eexists [_]. split; [done|]. split; [done|]. split; [|done]. intros _. split_and!; [done|done|by apply Hex|].
    destruct Hiff as [Hiff _]. destruct (Hiff ltac:(done)) as (v & (H1 & H2 & H3) & H4). eauto.
Qed.
End Properties.

(** Removing a node removes its machine and nothing else.  A node that is being deleted and
    names a machine loses exactly that one, unless the API refuses; a machine that is already
    gone is not an error; in every other case no machine is touched. *)
Theorem OnNodeRemoved_exact E n machines :
  let name := gm_str (node_Annotations n) MachineAnnotation in
  let '(r, machines') := OnNodeRemoved E (Some n) machines in
  (machines' = machines \/ machines' = machines ∖ {[(FleetLocalNamespaceName, name)]}) /\
  (deleting n = true -> name <> "" -> re_get E = None -> re_delete E = None ->
     r = Ok None /\ (FleetLocalNamespaceName, name) ∉ machines') /\
  ((exists e, r = Err e) -> machines' = machines /\ (is_Some (re_get E) \/ is_Some (re_delete E))) /\
  (deleting n = false \/ name = "" -> r = Ok (Some n) /\ machines' = machines).
Proof.
  intros name. unfold OnNodeRemoved. fold name.
  assert (Hnil : node_Annotations n = None -> name = "") by (unfold name, gm_str; by intros ->).
  destruct (deleting n) eqn:Hd; cbn [negb orb]; [|by split_and!; [left|..|split]; intros; try done; destruct H].
  case_bool_decide as Ha; cbn [orb].
  { apply Hnil in Ha. split_and!; [by left|done|by intros [??]|done]. }
  destruct (String.eqb_spec name "") as [Hn|Hn].
  { split_and!; [by left|done|by intros [??]|done]. }
  unfold mbind, M_bind, gets, apiWrite, throw, mret, M_ret.
  destruct (re_get E) as [e|].
  { destruct (IsNotFound e); split_and!; try (by left); try done; try (by intros [??]); try (by intros [?|?]).
    intros _. eauto. }
  case_bool_decide as Hin; cbn [negb].
  - destruct (re_delete E) as [e|]; split_and!; try (by left); try (by right); try done;
      try (by intros [??]); try (by intros [?|?]).
    + intros _. eauto.
    + intros _ _ _ _. split; [done|]. set_solver.
  - split_and!; [by left|done|by intros [??]|by intros [?|?]].
Qed.

(** A volume in use, on a node drained for an upgrade. *)
Definition demoClaim : PersistentVolumeClaim := mkPVC (meta0 "default" "data") None "Bound".
Definition demoPod : Pod := mkPod (meta0 "default" "vm") "a" [None; Some "data"] PodRunning.
Definition demoVolume : LVolume := mkLVolume "pvc-1" "a" VolumeStateAttached "default" "data".
Definition demoUpgrade : Upgrade := 
  upgrade0 (meta0 "harvester-system" "up") (mkUpgradeSpec "" "" true None).
Definition detachEnv : DetachEnv := mkDetachEnv (Ok [demoUpgrade]) (Ok [demoVolume]) (Ok [demoClaim]) (Ok [demoPod]) (Ok []).
Definition drainedForUpgrade : Node :=
  mkNode (meta0 "" "a") "Node" "v1" false
    [mkTaint UpgradeNodeDrainTaintKey UpgradeNodeDrainTaintValue TaintEffectNoSchedule] [] "".

Lemma volume_detach_exact_witness :
  exists q', OnNodeChanged detachEnv (Some drainedForUpgrade) [] = (Ok (Some drainedForUpgrade), q') /\
    q' <> [] /\
    exists v, v ∈ [demoVolume] /\ mustWait [demoPod] [] [demoClaim] v.
Proof.
  destruct (volume_detach_exact detachEnv [demoUpgrade] [demoVolume] [demoPod] [] [demoClaim]
    drainedForUpgrade []) as (q' & Hr & _ & Hiff).
  - split_and!; try done; intros x Hx;
      rewrite ?list_elem_of_singleton in Hx; by subst || by apply elem_of_nil in Hx.
  - intros v Hv _ _ _. apply list_elem_of_singleton in Hv as ->. by eexists.
  - exists q'. split; [done|].
    assert (Hq : q' <> []) by (intros ->; by vm_compute in Hr).
    split; [done|]. apply Hiff in Hq as (_ & _ & _ & v & Hv & _ & _ & Hw). by exists v.
Defined.
