(* ===== verification/UpgradeJobs.v ===== *)
(** The jobs and plans an upgrade creates: the builders of
    [pkg/controller/master/upgrade/common.go], the repository information of
    [repoinfo/repoinfo.go] and the upgrade configuration of
    [pkg/settings/settings_helper.go].

    A job is recognised later by its labels alone; [UpgradeNodes] reads them.
    The shell scripts the plans carry are data here ([Scripts]). *)

From S2P Require Import Prelude K8s NodeUtil Upgrade.

Local Open Scope Z_scope.

(** ** Constants *)

Definition nodeComponent : string := "node".
Definition manifestComponent : string := "manifest".
Definition cleanupComponent : string := "cleanup".
Definition skipManifestsApplyComponent : string := "apply-skip-rke2-manifests".
Definition skipManifestsRemoveComponent : string := "remove-skip-rke2-manifests".

Definition upgradeNamespace : string := HarvesterSystemNamespaceName.
Definition sucNamespace : string := "cattle-system".
Definition upgradeServiceAccount : string := "system-upgrade-controller".

Definition upgradePlanLabel : string := "upgrade.cattle.io/plan".
Definition upgradeNodeLabel : string := "upgrade.cattle.io/node".
Definition upgradeJobTypeLabel : string := "harvesterhci.io/upgradeJobType".
Definition upgradeJobTypePreDrain : string := "pre-drain".
Definition upgradeJobTypePostDrain : string := "post-drain".
Definition upgradeJobTypeRestoreVM : string := "restore-vm".
Definition upgradeJobTypeSingleNodeUpgrade : string := "single-node-upgrade".
Definition harvesterManagedLabel : string := HarvesterManagedNodeLabelKey.
Definition harvesterNodeLabel : string := "harvesterhci.io/node".
Definition shutdownVMOnMigrationFailureAnnotation : string :=
  "harvesterhci.io/shutdown-vm-on-migration-failure".

Definition labelArch : string := "kubernetes.io/arch".
Definition labelCriticalAddonsOnly : string := "CriticalAddonsOnly".
Definition TaintNodeNotReady : string := "node.kubernetes.io/not-ready".
Definition TaintNodeUnreachable : string := "node.kubernetes.io/unreachable".
Definition TaintNodeUnschedulable : string := "node.kubernetes.io/unschedulable".
Definition TaintNodeNetworkUnavailable : string := "node.kubernetes.io/network-unavailable".

Definition defaultTTLSecondsAfterFinished : Z := 604800.
Definition defaultPrepareDeadlineSeconds : Z := 3600.

(** [strconv.FormatBool] *)
Definition FormatBool (b : bool) : string := if b then "true" else "false".

(** ** Repository information *)

Record HarvesterRelease := mkRelease {
  rel_Harvester : string;
  rel_HarvesterChart : string;
  rel_HarvesterSystemDefaultRegistry : string;
  rel_OS : string;
  rel_Kubernetes : string;
  rel_Rancher : string;
  rel_RancherSystemDefaultRegistry : string;
  rel_ServerFlavor : string;
  rel_MonitoringChart : string;
  rel_MinUpgradableVersion : string }.
Record RepoInfo := mkRepoInfo { ri_Release : HarvesterRelease }.

(** What the code takes from libraries: YAML of the repository information and of a release,
    name shortening, RFC 3339 times (in nanoseconds), what [labels.NewRequirement] has
    against a requirement, which errors of the network stack [IsRetriableNetworkError]
    recognises; and the two scripts (package-level string constants). *)
Class UpgradeLib := {
  yaml_load : string -> option RepoInfo;
  yaml_marshal : option RepoInfo -> option string;
  yaml_release : string -> option HarvesterRelease;
  parseRFC3339 : string -> option Z;
  IsRetriableNetworkError : goerror -> bool;
  SafeConcatName : list string -> string;
  requirementError : SelectorRequirement -> option goerror;
  skipManifestScript : string;
  imageCleanupScript : string }.

(** ** Upgrade configuration *)

Record PreloadStrategy := mkPreload { pls_Type : string; pls_Concurrency : Z }.
Record NodeUpgradeStrategy := mkNodeStrategy {
  nst_Mode : option string; nst_PauseNodes : list string }.
Record UpgradeConfig := mkUpgradeConfig {
  uc_Preload : PreloadStrategy;
  uc_RestoreVM : bool;
  uc_ShutdownVMOnMigrationFailure : bool;
  uc_LogReadyTimeout : string;
  uc_NodeUpgradeOption : option (option NodeUpgradeStrategy) }.

#[export] Instance PreloadStrategy_eq : EqDecision PreloadStrategy.
Proof. solve_decision. Defined.
#[export] Instance NodeUpgradeStrategy_eq : EqDecision NodeUpgradeStrategy.
Proof. solve_decision. Defined.
#[export] Instance UpgradeConfig_eq : EqDecision UpgradeConfig.
Proof. solve_decision. Defined.

Definition upgradeConfig0 : UpgradeConfig :=
  mkUpgradeConfig (mkPreload "" 0) false false "" None.

(** [settings.DecodeConfig[UpgradeConfig]]: the empty string is the zero value. *)
Definition DecodeUpgradeConfig `{!JsonCodec UpgradeConfig} (value : string)
  : outcome UpgradeConfig :=
  if negb (String.eqb value "") then
    match json_unmarshal value with
    | Some c => Ok c
    | None => Err (ErrWrap "unmarshal failed, error" (ErrText value))
    end
  else Ok upgradeConfig0.

(** ** Plans of the system upgrade controller *)

Record ContainerSpec := mkContainerSpec {
  cs_Image : string; cs_Command : list string; cs_Args : list string; cs_Env : list EnvVar }.

Record LabelSelector := mkSelector {
  ls_MatchLabels : gomap string; ls_MatchExpressions : list SelectorRequirement }.

Record PlanSpec := mkPlanSpec {
  pl_Concurrency : Z;
  pl_JobActiveDeadlineSecs : Z;
  pl_Version : string;
  pl_NodeSelector : option LabelSelector;
  pl_ServiceAccountName : string;
  pl_Tolerations : list Toleration;
  pl_Upgrade : ContainerSpec }.

Record Plan := mkPlan { plan_meta : ObjectMeta; plan_spec : PlanSpec; plan_LatestHash : string }.

Section Builders.
Context {UL : UpgradeLib}.

Definition upgradeReference (upgrade : Upgrade) : OwnerReference :=
  mkOwner (up_APIVersion upgrade) (up_Kind upgrade) (up_Name upgrade) (om_UID (up_meta upgrade)).

Definition tolExists (key effect : string) : Toleration := mkTol key "Exists" effect "".
Definition tolArch (arch : string) : Toleration :=
  mkTol labelArch "Equal" TaintEffectNoSchedule arch.

(** The tolerations the three plans list. *)
Definition planTolerations : list Toleration :=
  [tolExists labelCriticalAddonsOnly ""; tolExists "kubevirt.io/drain" TaintEffectNoSchedule;
   tolExists KubeControlPlaneNodeLabelKey TaintEffectNoExecute;
   tolExists KubeEtcdNodeLabelKey TaintEffectNoExecute;
   tolArch "amd64"; tolArch "arm64"; tolArch "arm"].

Definition managedNodes : LabelSelector :=
  mkSelector (Some {[ harvesterManagedLabel := "true" ]}) [].

Definition planMeta (name component : string) (upgrade : Upgrade) : ObjectMeta :=
  mkMeta name "" sucNamespace ""
    (Some {[ harvesterUpgradeLabel := up_Name upgrade;
             harvesterUpgradeComponentLabel := component ]}) None [] 0 None.

Definition nodeCount (upgrade : Upgrade) : Z := Z.of_nat (gm_len (up_NodeStatuses upgrade)).

Definition prepareSkipManifestPlan (upgrade : Upgrade) (manifests : list string) (skip : bool)
  : Plan :=
  let '(action, componentLabel) :=
    if skip then ("apply", skipManifestsApplyComponent)
    else ("remove", skipManifestsRemoveComponent) in
  mkPlan (planMeta (up_Name upgrade +:+ "-skip-manifests-" +:+ action) componentLabel upgrade)
    (mkPlanSpec (nodeCount upgrade) 0 (up_Name upgrade) (Some managedNodes)
       upgradeServiceAccount
       (planTolerations ++
          [tolExists TaintNodeNotReady TaintEffectNoSchedule;
           tolExists TaintNodeNetworkUnavailable TaintEffectNoSchedule])
       (mkContainerSpec (GetUpgradeImage upgrade (GetPreviousUpgradeImage upgrade))
          ["sh"; "-c"; skipManifestScript] []
          [envValue "MANIFESTS" (Join " " manifests); envValue "SKIP_ACTION" action]))
    "".

Definition prepareCleanupPlan (upgrade : Upgrade) (imageList : list string) : Plan :=
  mkPlan (planMeta (up_Name upgrade +:+ "-cleanup") cleanupComponent upgrade)
    (mkPlanSpec (nodeCount upgrade) 0 (up_Name upgrade) (Some managedNodes)
       upgradeServiceAccount planTolerations
       (mkContainerSpec (GetUpgradeImage upgrade (GetPreviousUpgradeImage upgrade))
          ["bash"; "-c"; imageCleanupScript] []
          [envValue "IMAGES" (Join " " imageList)]))
    "".

Definition preparePlan (upgrade : Upgrade) (concurrency : Z) : Plan :=
  mkPlan (planMeta (up_Name upgrade +:+ "-prepare") nodeComponent upgrade)
    (mkPlanSpec concurrency defaultPrepareDeadlineSeconds (up_Name upgrade) (Some managedNodes)
       upgradeServiceAccount planTolerations
       (mkContainerSpec (GetUpgradeImage upgrade (GetPreviousUpgradeImage upgrade))
          ["do_upgrade_node.sh"] ["prepare"]
          [envValue "HARVESTER_UPGRADE_NAME" (up_Name upgrade)]))
    "".

(** ** Jobs *)

Definition getTargetUpgradeImage (repoInfo : RepoInfo) : string :=
  GetHarvesterUpgradeImage (rel_HarvesterSystemDefaultRegistry (ri_Release repoInfo))
    (rel_Harvester (ri_Release repoInfo)).

Definition getDefaultTolerations : list Toleration :=
  [tolExists TaintNodeUnschedulable TaintEffectNoSchedule;
   tolExists KubeControlPlaneNodeLabelKey TaintEffectNoExecute;
   tolExists KubeEtcdNodeLabelKey TaintEffectNoExecute;
   tolExists "kubevirt.io/drain" TaintEffectNoSchedule;
   tolExists labelCriticalAddonsOnly "";
   tolExists TaintNodeUnreachable TaintEffectNoExecute;
   tolArch "amd64"; tolArch "arm64"; tolArch "arm"].

Definition jobMeta (name : string) (upgrade : Upgrade) (labels : gmap string string)
  : ObjectMeta :=
  mkMeta name "" (up_Namespace upgrade) "" (Some labels) None [upgradeReference upgrade] 0 None.

Definition onNode (nodeName : string) : Affinity :=
  mkAff [[mkReq LabelHostname "In" [nodeName]]] [].

Definition applyNodeJob (upgrade : Upgrade) (repoInfo : RepoInfo) (nodeName jobType : string)
  : Job :=
  mkJob
    (jobMeta (SafeConcatName [up_Name upgrade; jobType; nodeName]) upgrade
       {[ harvesterUpgradeLabel := up_Name upgrade;
          harvesterUpgradeComponentLabel := nodeComponent;
          harvesterNodeLabel := nodeName;
          upgradeJobTypeLabel := jobType ]})
    (mkJobSpec None (Some defaultTTLSecondsAfterFinished) None
       (Some {[ harvesterUpgradeLabel := up_Name upgrade;
                harvesterUpgradeComponentLabel := nodeComponent;
                upgradeJobTypeLabel := jobType ]})
       (mkPodSpec true true true "ClusterFirstWithHostNet" (onNode nodeName)
          getDefaultTolerations "Never"
          [mkVol "host-root" (HostPath "/" "Directory")]
          "harvester"
          [mkContainer "apply" (GetUpgradeImage upgrade (getTargetUpgradeImage repoInfo))
             ["do_upgrade_node.sh"] [jobType] [("host-root", "/host")] "" (Some true)
             ["CAP_SYS_BOOT"]
             [envValue "HARVESTER_UPGRADE_NAME" (up_Name upgrade);
              envValue "HARVESTER_UPGRADE_NODE_NAME" nodeName;
              envValue "HARVESTER_SHUTDOWN_VM_ON_MIGRATION_FAILURE"
                (FormatBool (String.eqb
                   (gm_str (up_Annotations upgrade) shutdownVMOnMigrationFailureAnnotation)
                   "true"));
              mkEnv "HARVESTER_UPGRADE_POD_NAME" "" (Some "metadata.name")]]))
    jobStatus0.

Definition applyRestoreVMJob (upgrade : Upgrade) (repoInfo : RepoInfo) (nodeName : string) : Job :=
  let jobType := upgradeJobTypeRestoreVM in
  mkJob
    (jobMeta (SafeConcatName [up_Name upgrade; jobType; nodeName]) upgrade
       {[ harvesterUpgradeLabel := up_Name upgrade;
          harvesterNodeLabel := nodeName;
          upgradeJobTypeLabel := jobType ]})
    (mkJobSpec None (Some defaultTTLSecondsAfterFinished) None
       (Some {[ harvesterUpgradeLabel := up_Name upgrade; upgradeJobTypeLabel := jobType ]})
       (mkPodSpec false false false "" (onNode nodeName) getDefaultTolerations "Never" []
          "harvester"
          [mkContainer "apply" (GetUpgradeImage upgrade (getTargetUpgradeImage repoInfo))
             ["upgrade-helper"]
             ["restore-vm"; "--node"; nodeName; "--upgrade"; up_Name upgrade]
             [] "" None [] []]))
    jobStatus0.

Definition applyManifestsJob (upgrade : Upgrade) (repoInfo : RepoInfo) : Job :=
  mkJob
    (jobMeta (SafeConcatName [up_Name upgrade; "apply-manifests"]) upgrade
       {[ harvesterUpgradeLabel := up_Name upgrade;
          harvesterUpgradeComponentLabel := manifestComponent ]})
    (mkJobSpec None (Some defaultTTLSecondsAfterFinished) None
       (Some {[ harvesterUpgradeLabel := up_Name upgrade;
                harvesterUpgradeComponentLabel := manifestComponent ]})
       (mkPodSpec false false false "" (mkAff [] []) getDefaultTolerations "Never" []
          "harvester"
          [mkContainer "apply" (GetUpgradeImage upgrade (getTargetUpgradeImage repoInfo))
             ["upgrade_manifests.sh"] [] [] "" None []
             [envValue "HARVESTER_UPGRADE_NAME" (up_Name upgrade)]]))
    jobStatus0.
End Builders.
