(* ===== verification/UpgradeWorld.v ===== *)
(** What the controllers of an upgrade share ([pkg/controller/master/upgrade]): the
    resources they read and write, the API server and the informer caches, which may be
    stale, as one [World], and the clients and caches as calls on it.

    Upgrades, nodes, secrets, addons and whatever else a handler updates carry resource
    versions; what is only created and deleted does not.  What only the handler of the
    Upgrade resource touches is the [Infra] part. *)

From Stdlib Require Import Ascii.
From S2P Require Import Prelude K8s NodeUtil Addon ApiServer Upgrade UpgradeJobs.

Local Open Scope Z_scope.

(** ** Constants *)

Definition harvesterNodePendingOSImage : string := "harvesterhci.io/pendingOSImage".
Definition preDrainAnnotation : string := "harvesterhci.io/pre-hook".
Definition postDrainAnnotation : string := "harvesterhci.io/post-hook".
Definition rke2PreDrainAnnotation : string := "rke.cattle.io/pre-drain".
Definition rke2PostDrainAnnotation : string := "rke.cattle.io/post-drain".
Definition upgradeComponentRepo : string := "repo".
Definition skipManifestsApplyPlanCompletedAnnotation : string :=
  "harvesterhci.io/apply-skip-rke2-manifests-plan-completed".
Definition skipManifestsRemovePlanCompletedAnnotation : string :=
  "harvesterhci.io/remove-skip-rke2-manifests-plan-completed".
Definition imageCleanupPlanCompletedAnnotation : string :=
  "harvesterhci.io/image-cleanup-plan-completed".
Definition reenableDeschedulerAddonAnnotation : string :=
  "harvesterhci.io/reenable-descheduler-addon".
Definition FleetLocalNamespaceName : string := "fleet-local".
Definition rancherMachineNamespace : string := "fleet-local".
Definition rancherPlanSecretNamespace : string := "fleet-local".
Definition rancherPlanSecretType : string := "rke.cattle.io/machine-plan".
Definition rancherPlanSecretMachineLabel : string := "rke.cattle.io/machine-name".
Definition MachineAnnotation : string := "cluster.x-k8s.io/machine".
Definition DeschedulerName : string := "descheduler".
Definition UpgradeConfigSettingName : string := "upgrade-config".
Definition RestoreVMConfigMap : string := "restore-vm".
Definition ImageImported : string := "Imported".
Definition ImageRetryLimitExceeded : string := "RetryLimitExceeded".
Definition DeploymentAvailable : string := "Available".
Definition LabelPlanName (name : string) : string := "plan.upgrade.cattle.io/" +:+ name.
Definition upgradeCommonRequeueInterval : Z := 20.      (* seconds *)
Definition upgradeHeartbeatInterval : Z := 120.
Definition skipVersionCheckAnnotation : string := "harvesterhci.io/skip-version-check".
Definition replicaReplenishmentWaitIntervalSetting : string :=
  "replica-replenishment-wait-interval".
Definition replicaReplenishmentAnnotation : string :=
  "harvesterhci.io/" +:+ replicaReplenishmentWaitIntervalSetting.
Definition extendedReplicaReplenishmentWaitInterval : Z := 1800.
Definition longhornSettingsRestoredAnnotation : string :=
  "harvesterhci.io/longhorn-settings-restored".
Definition kubevirtWorkloadUpdateMethodsAnnotation : string :=
  "harvesterhci.io/kubevirt-workload-update-methods".
Definition allowSameVersionFlavorSwitchAnnotation : string :=
  "harvesterhci.io/allow-same-version-flavor-switch".
Definition versionSourceLabel : string := "harvesterhci.io/versionSource".
Definition versionSourceUpgradeChecker : string := "upgrade-checker".
Definition defaultImagePreloadConcurrency : Z := 1.
Definition vmReady : string := "Ready".
Definition InfraReady : string := "InfraReady".
Definition UpgradeEnded : string := "Stopped".
Definition LocalClusterName : string := "local".
Definition LonghornSystemNamespaceName : string := "longhorn-system".
Definition KubeSystemNamespace : string := "kube-system".
Definition HarvesterManagedChart : string := "harvester".
Definition AnnotationUpgradeImage : string := "harvesterhci.io/os-upgrade-image".
Definition RemovedPVCsAnnotationKey : string := "harvesterhci.io/removedPersistentVolumeClaims".
Definition LabelVMCreator : string := "harvesterhci.io/creator".
Definition StorageClassLonghornStatic : string := "longhorn-static".

(** ** Resources *)

Record Secret := mkSecret { sec_meta : ObjectMeta; sec_Type : string }.
Record Machine := mkMachine { mach_meta : ObjectMeta; mach_NodeRef : option string }.
Record ConfigMap := mkConfigMap { cm_meta : ObjectMeta; cm_Data : gomap string }.
Record Setting := mkSetting { set_Name : string; set_Value : string; set_Default : string }.

(** The repository: an image served by a deployment behind a service. *)
Record ImageSpec := mkImageSpec {
  is_DisplayName : string; is_SourceType : string; is_URL : string; is_Checksum : string;
  is_Retry : Z; is_TargetStorageClassName : string; is_Backend : string }.
Record VMImage := mkVMImage {
  img_meta : ObjectMeta; img_Spec : ImageSpec; img_Conditions : list Condition }.

Record RepoContainer := mkRepoContainer {
  rc_Name : string; rc_Image : string; rc_ImagePullPolicy : string; rc_Command : list string;
  rc_Args : list string; rc_Port : Z; rc_Privileged : bool;
  rc_VolumeMounts : list (string * string);
  rc_Liveness : list string;                    (* the command *)
  rc_Readiness : string * Z * string;           (* path, port, scheme *)
  rc_TerminationMessagePath : string; rc_TerminationMessagePolicy : string }.
Record DeploymentSpec := mkDeploymentSpec {
  ds_Replicas : Z;
  ds_Selector : gomap string;
  ds_TemplateLabels : gomap string;
  ds_AntiAffinity : Z * gomap string * string;  (* weight, labels, topology key *)
  ds_Container : RepoContainer;
  ds_DNSPolicy : string;
  ds_Volumes : list (string * string) }.        (* name, claim *)
Record Deployment := mkDeployment {
  dep_meta : ObjectMeta; dep_Spec : option DeploymentSpec; dep_Conditions : list Condition }.
Record Service := mkService {
  svc_meta : ObjectMeta; svc_Selector : gomap string;
  svc_Ports : list (string * Z * Z) }.          (* protocol, port, target port *)
Record RepoVM := mkRepoVM { rvm_meta : ObjectMeta; rvm_Conditions : list Condition }.
Record PVC := mkPVC { pvc_meta : ObjectMeta; pvc_Kind : string; pvc_APIVersion : string }.

(** Rancher's cluster; [rke_rest] stands for the fields of the configuration the code
    only resets, [""] for their zero values. *)
Record DrainOptions := mkDrainOptions {
  do_Enabled : bool; do_Force : bool; do_IgnoreDaemonSets : option bool;
  do_DeleteEmptyDirData : bool;
  do_PreDrainHooks : list string; do_PostDrainHooks : list string;   (* annotations *)
  do_rest : string }.
Record UpgradeStrategy := mkStrategy {
  ust_ControlPlaneConcurrency : string; ust_ControlPlaneDrainOptions : DrainOptions;
  ust_WorkerConcurrency : string; ust_WorkerDrainOptions : DrainOptions }.
Record RKEConfig := mkRKEConfig {
  rke_ProvisionGeneration : Z; rke_Registries : option string;
  rke_UpgradeStrategy : UpgradeStrategy; rke_rest : string }.
Record Cluster := mkCluster {
  cl_meta : ObjectMeta; cl_KubernetesVersion : string; cl_RKEConfig : option RKEConfig }.

#[export] Instance DrainOptions_eq : EqDecision DrainOptions.
Proof. solve_decision. Defined.
#[export] Instance UpgradeStrategy_eq : EqDecision UpgradeStrategy.
Proof. solve_decision. Defined.
#[export] Instance RKEConfig_eq : EqDecision RKEConfig.
Proof. solve_decision. Defined.
#[export] Instance Cluster_eq : EqDecision Cluster.
Proof. solve_decision. Defined.

Record LhSetting := mkLhSetting { lhs_meta : ObjectMeta; lhs_Value : string }.
#[export] Instance LhSetting_eq : EqDecision LhSetting.
Proof. solve_decision. Defined.

Record UpgradeLog := mkUpgradeLog {
  ul_meta : ObjectMeta; ul_UpgradeName : string; ul_Conditions : list Condition }.
#[export] Instance UpgradeLog_eq : EqDecision UpgradeLog.
Proof. solve_decision. Defined.

Record Version := mkVersion {
  ver_meta : ObjectMeta; ver_ISOURL : string; ver_ISOChecksum : string }.

(** The values of a chart: decoded JSON. *)
#[local] Set Warnings "-register-all".
Inductive Value :=
| VNull
| VBool (b : bool)
| VNum (n : Z)
| VString (s : string)
| VList (l : list Value)
| VMap (m : list (string * Value)).
(** The values, with those inside lists and maps. *)
Lemma Value_nested_ind (Q : Value -> Prop) :
  Q VNull -> (forall b, Q (VBool b)) -> (forall n, Q (VNum n)) -> (forall s, Q (VString s)) ->
  (forall l, Forall Q l -> Q (VList l)) -> (forall m, Forall (fun kv => Q kv.2) m -> Q (VMap m)) ->
  forall v, Q v.
Proof.
  intros Hn Hb Hz Hs Hl Hm. fix IH 1. intros [|b|n|s|l|m]; [done|apply Hb|apply Hz|apply Hs| |].
  - apply Hl. induction l as [|v l IHl]; constructor; [apply IH|apply IHl].
  - apply Hm. induction m as [|[k v] m IHm]; constructor; [apply IH|apply IHm].
Qed.

Fixpoint Value_tree (v : Value) : gen_tree (bool + Z + string) :=
  match v with
  | VNull => GenNode 0 []
  | VBool b => GenLeaf (inl (inl b))
  | VNum n => GenLeaf (inl (inr n))
  | VString s => GenLeaf (inr s)
  | VList l => GenNode 1 (map Value_tree l)
  | VMap m => GenNode 2 (map (fun '(k, v) => GenNode 3 [GenLeaf (inr k); Value_tree v]) m)
  end.
Fixpoint tree_Value (t : gen_tree (bool + Z + string)) : Value :=
  match t with
  | GenLeaf (inl (inl b)) => VBool b
  | GenLeaf (inl (inr n)) => VNum n
  | GenLeaf (inr s) => VString s
  | GenNode 1 l => VList (map tree_Value l)
  | GenNode 2 l => VMap (map (fun t => match t with
                                       | GenNode _ [GenLeaf (inr k); t] => (k, tree_Value t)
                                       | _ => ("", VNull)
                                       end) l)
  | GenNode _ _ => VNull
  end.
Lemma tree_Value_tree v : tree_Value (Value_tree v) = v.
Proof.
  induction v as [| | | |l IH|m IH] using Value_nested_ind; simpl; [done..| |]; f_equal.
  - induction IH as [|v l Hv _ IHl]; simpl; congruence.
  - induction IH as [|[k v] m Hv _ IHm]; simpl in *; congruence.
Qed.
#[export] Instance Value_eq : EqDecision Value.
Proof.
  intros v w. destruct (decide (Value_tree v = Value_tree w)) as [E|E]; [left|right; congruence].
  by rewrite <- (tree_Value_tree v), E, tree_Value_tree.
Defined.
#[export] Instance Value_countable : Countable Value :=
  inj_countable' Value_tree tree_Value tree_Value_tree.

Record ManagedChart := mkManagedChart {
  mc_meta : ObjectMeta; mc_Paused : bool;
  mc_Values : option (option (list (string * Value))) }.   (* nil, or with a nil Data *)

(** The answer of a web server: none, or a status and a body that may break off. *)
Inductive HttpAnswer :=
| HttpError (e : goerror)
| HttpResponse (code : Z) (status : string) (body : string) (bodyError : option goerror).

(** ** The world *)

Record Caches := mkCaches {
  c_upgrades : list (Obj Upgrade);
  c_nodes : list (Obj Node);
  c_jobs : list Job;
  c_plans : list Plan;
  c_machines : list Machine;
  c_configMaps : list ConfigMap;
  c_settings : list Setting;
  c_addons : list (Obj Addon.Addon);
  c_images : list (Obj VMImage);
  c_vms : list RepoVM;
  c_deployments : list Deployment;
  c_clusters : list (Obj Cluster);
  c_lhSettings : list (Obj LhSetting);
  c_upgradeLogs : list (Obj UpgradeLog);
  c_managedCharts : list (Obj ManagedChart);
  c_versions : list Version }.

Abbreviation key := (string * string)%type (only parsing).

Record Infra := mkInfra {
  in_plans : gmap key Plan;
  in_images : Store key VMImage;
  in_deployments : gmap key Deployment;
  in_services : gmap key Service;
  in_vms : gmap key RepoVM;
  in_storageClasses : gmap string unit;
  in_pvcs : gmap key PVC;
  in_clusters : Store key Cluster;
  in_lhSettings : Store key LhSetting;
  in_upgradeLogs : Store key UpgradeLog;
  in_managedCharts : Store key ManagedChart;
  in_versions : gmap key Version;
  in_started : list key;                        (* VMs asked to start *)
  in_http : string -> HttpAnswer }.

Record World := mkWorld {
  w_upgrades : Store key Upgrade;
  w_nodes : Store string Node;
  w_secrets : Store string Secret;                  (* of the machine plans *)
  w_addons : Store key Addon.Addon;
  w_jobs : gmap key Job;
  w_infra : Infra;
  w_cache : Caches;
  w_enqueued : list (string * string * Z) }.        (* EnqueueAfter: resource, key, delay *)

#[export] Instance World_upgrades : HasStore World key Upgrade.
Proof.
  refine {| the_store := w_upgrades;
            set_store st w := mkWorld st (w_nodes w) (w_secrets w) (w_addons w) (w_jobs w) (w_infra w) (w_cache w) (w_enqueued w) |}.
  - done.
  - by intros [].
Defined.

#[export] Instance World_nodes : HasStore World string Node.
Proof.
  refine {| the_store := w_nodes;
            set_store st w := mkWorld (w_upgrades w) st (w_secrets w) (w_addons w) (w_jobs w) (w_infra w) (w_cache w) (w_enqueued w) |}.
  - done.
  - by intros [].
Defined.

#[export] Instance World_secrets : HasStore World string Secret.
Proof.
  refine {| the_store := w_secrets;
            set_store st w := mkWorld (w_upgrades w) (w_nodes w) st (w_addons w) (w_jobs w) (w_infra w) (w_cache w) (w_enqueued w) |}.
  - done.
  - by intros [].
Defined.

#[export] Instance World_addons : HasStore World key Addon.Addon.
Proof.
  refine {| the_store := w_addons;
            set_store st w := mkWorld (w_upgrades w) (w_nodes w) (w_secrets w) st (w_jobs w) (w_infra w) (w_cache w) (w_enqueued w) |}.
  - done.
  - by intros [].
Defined.

Definition w_set_infra (i : Infra) (w : World) : World :=
  mkWorld (w_upgrades w) (w_nodes w) (w_secrets w) (w_addons w) (w_jobs w) i (w_cache w)
    (w_enqueued w).

(** The resources of [Infra] that are created and deleted, and those that are updated. *)
Class InfraMap (K A : Type) `{Countable K} := {
  the_map : Infra -> gmap K A;
  set_map : gmap K A -> Infra -> Infra }.
Class InfraStore (A : Type) := {
  in_store : Infra -> Store key A;
  in_set_store : Store key A -> Infra -> Infra }.

#[export] Instance Infra_plans : InfraMap key Plan :=
  {| the_map := in_plans;
     set_map x i := mkInfra x (in_images i) (in_deployments i) (in_services i) (in_vms i)
                   (in_storageClasses i) (in_pvcs i) (in_clusters i) (in_lhSettings i)
                   (in_upgradeLogs i) (in_managedCharts i) (in_versions i) (in_started i) (in_http
                   i) |}.
#[export] Instance Infra_deployments : InfraMap key Deployment :=
  {| the_map := in_deployments;
     set_map x i := mkInfra (in_plans i) (in_images i) x (in_services i) (in_vms i)
                   (in_storageClasses i) (in_pvcs i) (in_clusters i) (in_lhSettings i)
                   (in_upgradeLogs i) (in_managedCharts i) (in_versions i) (in_started i) (in_http
                   i) |}.
#[export] Instance Infra_services : InfraMap key Service :=
  {| the_map := in_services;
     set_map x i := mkInfra (in_plans i) (in_images i) (in_deployments i) x (in_vms i)
                   (in_storageClasses i) (in_pvcs i) (in_clusters i) (in_lhSettings i)
                   (in_upgradeLogs i) (in_managedCharts i) (in_versions i) (in_started i) (in_http
                   i) |}.
#[export] Instance Infra_vms : InfraMap key RepoVM :=
  {| the_map := in_vms;
     set_map x i := mkInfra (in_plans i) (in_images i) (in_deployments i) (in_services i) x
                   (in_storageClasses i) (in_pvcs i) (in_clusters i) (in_lhSettings i)
                   (in_upgradeLogs i) (in_managedCharts i) (in_versions i) (in_started i) (in_http
                   i) |}.
#[export] Instance Infra_storageClasses : InfraMap string unit :=
  {| the_map := in_storageClasses;
     set_map x i := mkInfra (in_plans i) (in_images i) (in_deployments i) (in_services i) (in_vms
                   i) x (in_pvcs i) (in_clusters i) (in_lhSettings i) (in_upgradeLogs i)
                   (in_managedCharts i) (in_versions i) (in_started i) (in_http i) |}.
#[export] Instance Infra_versions : InfraMap key Version :=
  {| the_map := in_versions;
     set_map x i := mkInfra (in_plans i) (in_images i) (in_deployments i) (in_services i) (in_vms
                   i) (in_storageClasses i) (in_pvcs i) (in_clusters i) (in_lhSettings i)
                   (in_upgradeLogs i) (in_managedCharts i) x (in_started i) (in_http i) |}.
#[export] Instance Infra_images : InfraStore VMImage :=
  {| in_store := in_images;
     in_set_store x i := mkInfra (in_plans i) x (in_deployments i) (in_services i) (in_vms i)
                   (in_storageClasses i) (in_pvcs i) (in_clusters i) (in_lhSettings i)
                   (in_upgradeLogs i) (in_managedCharts i) (in_versions i) (in_started i) (in_http
                   i) |}.
#[export] Instance Infra_clusters : InfraStore Cluster :=
  {| in_store := in_clusters;
     in_set_store x i := mkInfra (in_plans i) (in_images i) (in_deployments i) (in_services i)
                   (in_vms i) (in_storageClasses i) (in_pvcs i) x (in_lhSettings i)
                   (in_upgradeLogs i) (in_managedCharts i) (in_versions i) (in_started i) (in_http
                   i) |}.
#[export] Instance Infra_lhSettings : InfraStore LhSetting :=
  {| in_store := in_lhSettings;
     in_set_store x i := mkInfra (in_plans i) (in_images i) (in_deployments i) (in_services i)
                   (in_vms i) (in_storageClasses i) (in_pvcs i) (in_clusters i) x (in_upgradeLogs
                   i) (in_managedCharts i) (in_versions i) (in_started i) (in_http i) |}.
#[export] Instance Infra_upgradeLogs : InfraStore UpgradeLog :=
  {| in_store := in_upgradeLogs;
     in_set_store x i := mkInfra (in_plans i) (in_images i) (in_deployments i) (in_services i)
                   (in_vms i) (in_storageClasses i) (in_pvcs i) (in_clusters i) (in_lhSettings i)
                   x (in_managedCharts i) (in_versions i) (in_started i) (in_http i) |}.
#[export] Instance Infra_managedCharts : InfraStore ManagedChart :=
  {| in_store := in_managedCharts;
     in_set_store x i := mkInfra (in_plans i) (in_images i) (in_deployments i) (in_services i)
                   (in_vms i) (in_storageClasses i) (in_pvcs i) (in_clusters i) (in_lhSettings i)
                   (in_upgradeLogs i) x (in_versions i) (in_started i) (in_http i) |}.
Definition in_start (k : key) (i : Infra) : Infra :=
 mkInfra (in_plans i) (in_images i) (in_deployments i) (in_services i) (in_vms i)
                   (in_storageClasses i) (in_pvcs i) (in_clusters i) (in_lhSettings i)
                   (in_upgradeLogs i) (in_managedCharts i) (in_versions i) (in_started i ++ [k])
                   (in_http i).

Abbreviation Act := (M (Sys World)) (only parsing).

Definition onInfra {A} (f : Infra -> outcome A * Infra) : Act A :=
  call (fun w => let '(r, i) := f (w_infra w) in (r, w_set_infra i w)).

Section InfraClients.
Context {K A : Type} `{InfraMap K A}.

Definition mapCreate (k : K) (a : A) : Act A :=
  onInfra (fun i => match the_map i !! k with
                    | Some _ => (Err (ApiAlreadyExists "already exists"), i)
                    | None => (Ok a, set_map (<[k := a]> (the_map i)) i)
                    end).
Definition mapDelete (k : K) : Act unit :=
  onInfra (fun i => match the_map (A := A) i !! k with
                    | Some _ => (Ok tt, set_map (delete k (the_map (A := A) i)) i)
                    | None => (Err (ApiNotFound "not found"), i)
                    end).
End InfraClients.

Section InfraStoreClients.
Context {A : Type} `{!InfraStore A}.

Definition storeCreate (k : key) (a : A) : Act (Obj A) :=
  onInfra (fun i => let st := in_store i in
    match st_objs st !! k with
    | Some _ => (Err (ApiAlreadyExists "already exists"), i)
    | None => let o := mkObj (st_rv st + 1) a in
              (Ok o, in_set_store (mkStore (st_rv st + 1) (<[k := o]> (st_objs st))) i)
    end).
Definition storeUpdate (k : key) (o : Obj A) : Act (Obj A) :=
  onInfra (fun i => let '(r, st) := store_write (fun _ new => new) k o (in_store i) in
                    (r, in_set_store st i)).
Definition storeGet (k : key) : Act (Obj A) :=
  readCall (fun w => store_get (in_store (w_infra w)) k).
Definition storeDelete (k : key) : Act unit :=
  onInfra (fun i => let st := in_store (A := A) i in
    match st_objs st !! k with
    | Some _ => (Ok tt, in_set_store (mkStore (st_rv st) (delete k (st_objs st))) i)
    | None => (Err (ApiNotFound "not found"), i)
    end).
End InfraStoreClients.

(** ** Clients and caches *)

Definition upKey (u : Upgrade) : string * string := (up_Namespace u, up_Name u).
Definition metaIs (ns name : string) (m : ObjectMeta) : bool :=
  String.eqb (om_Namespace m) ns && String.eqb (om_Name m) name.
Definition deleted (m : ObjectMeta) : bool := bool_decide (is_Some (om_DeletionTimestamp m)).

(** The upgrade has no status subresource: [Update] writes all of it. *)
Definition upgradeClient_Update (o : Obj Upgrade) : Act (Obj Upgrade) :=
  apiUpdate (fun _ new => new) (upKey (o_val o)) o.
Definition nodeClient_Update (o : Obj Node) : Act (Obj Node) :=
  apiUpdate node_keep_status (node_Name (o_val o)) o.
Definition secretClient_Update (o : Obj Secret) : Act (Obj Secret) :=
  apiUpdate (fun _ new => new) (om_Name (sec_meta (o_val o))) o.
Definition addonClient_Update (o : Obj Addon.Addon) : Act (Obj Addon.Addon) :=
  apiUpdate (fun _ new => new) (ad_Namespace (o_val o), ad_Name (o_val o)) o.

(** [secretClient.List] with the label selector of the machine and the type as field
    selector. *)
Definition machineSecret (machineName : string) (s : Secret) : bool :=
  bool_decide (gm_get (om_Labels (sec_meta s)) rancherPlanSecretMachineLabel = Some machineName)
  && String.eqb (sec_Type s) rancherPlanSecretType.
Definition secretClient_List (machineName : string) : Act (list (Obj Secret)) :=
  readCall (fun w => Ok (List.filter (fun o => machineSecret machineName (o_val o))
                           (map_to_list (st_objs (w_secrets w))).*2)).

Definition w_set_jobs (jobs : gmap key Job) (w : World) : World :=
  mkWorld (w_upgrades w) (w_nodes w) (w_secrets w) (w_addons w) jobs (w_infra w) (w_cache w)
    (w_enqueued w).
Definition jobKey (j : Job) : string * string := (om_Namespace (job_meta j), job_Name j).
Definition jobClient_Create (j : Job) : Act Job :=
  call (fun w =>
    match w_jobs w !! jobKey j with
    | Some _ => (Err (ApiAlreadyExists "already exists"), w)
    | None => (Ok j, w_set_jobs (<[jobKey j := j]> (w_jobs w)) w)
    end).
Definition jobClient_Delete (k : key) : Act unit :=
  call (fun w =>
    match w_jobs w !! k with
    | Some _ => (Ok tt, w_set_jobs (delete k (w_jobs w)) w)
    | None => (Err (ApiNotFound "not found"), w)
    end).

Definition enqueueAfter (resource key : string) (d : Z) : Act unit :=
  modify (fun s => let w := sys_world s in
    mkSys (mkWorld (w_upgrades w) (w_nodes w) (w_secrets w) (w_addons w) (w_jobs w) (w_infra w)
             (w_cache w) (w_enqueued w ++ [(resource, key, d)])) (sys_turns s)).

Definition cached {A} (f : Caches -> outcome A) : Act A := readCall (fun w => f (w_cache w)).
Definition cacheGet {A} (sel : Caches -> list A) (p : A -> bool) : Act A :=
  cached (fun c => match List.find p (sel c) with
                   | Some a => Ok a
                   | None => Err (ApiNotFound "not found")
                   end).

Definition upgradeCache_Get (ns name : string) : Act (Obj Upgrade) :=
  cacheGet c_upgrades (fun o => metaIs ns name (up_meta (o_val o))).
Definition nodeCache_Get (name : string) : Act (Obj Node) :=
  cacheGet c_nodes (fun o => String.eqb (node_Name (o_val o)) name).
Definition planCache_Get (ns name : string) : Act Plan :=
  cacheGet c_plans (fun p => metaIs ns name (plan_meta p)).
Definition machineCache_Get (ns name : string) : Act Machine :=
  cacheGet c_machines (fun m => metaIs ns name (mach_meta m)).
Definition configMapCache_Get (ns name : string) : Act ConfigMap :=
  cacheGet c_configMaps (fun c => metaIs ns name (cm_meta c)).
Definition jobCache_Get (ns name : string) : Act Job :=
  cacheGet c_jobs (fun j => metaIs ns name (job_meta j)).
Definition settingCache_Get (name : string) : Act Setting :=
  cacheGet c_settings (fun s => String.eqb (set_Name s) name).

Definition hasLabel (key value : string) (m : ObjectMeta) : bool :=
  bool_decide (gm_get (om_Labels m) key = Some value).

(** [strings.TrimSpace(s) == ""], for ASCII text. *)
Definition isSpace (a : ascii) : bool :=
  let n := nat_of_ascii a in Nat.eqb n 32 || (Nat.leb 9 n && Nat.leb n 13).
Fixpoint isBlank (s : string) : bool :=
  match s with
  | EmptyString => true
  | String a s => isSpace a && isBlank s
  end.

Definition addonCache_Get (ns name : string) : Act (Obj Addon.Addon) :=
  cacheGet c_addons (fun o => metaIs ns name (ad_meta (o_val o))).
Definition vmImageCache_Get (ns name : string) : Act (Obj VMImage) :=
  cacheGet c_images (fun o => metaIs ns name (img_meta (o_val o))).
Definition vmCache_Get (ns name : string) : Act RepoVM :=
  cacheGet c_vms (fun v => metaIs ns name (rvm_meta v)).
Definition deploymentCache_Get (ns name : string) : Act Deployment :=
  cacheGet c_deployments (fun d => metaIs ns name (dep_meta d)).
Definition clusterCache_Get (ns name : string) : Act (Obj Cluster) :=
  cacheGet c_clusters (fun o => metaIs ns name (cl_meta (o_val o))).
Definition lhSettingCache_Get (ns name : string) : Act (Obj LhSetting) :=
  cacheGet c_lhSettings (fun o => metaIs ns name (lhs_meta (o_val o))).
Definition upgradeLogCache_Get (ns name : string) : Act (Obj UpgradeLog) :=
  cacheGet c_upgradeLogs (fun o => metaIs ns name (ul_meta (o_val o))).
Definition managedChartCache_Get (ns name : string) : Act (Obj ManagedChart) :=
  cacheGet c_managedCharts (fun o => metaIs ns name (mc_meta (o_val o))).
Definition versionCache_Get (ns name : string) : Act Version :=
  cacheGet c_versions (fun v => metaIs ns name (ver_meta v)).

(** The process: its namespace, the time (as a time stamp of conditions and in nanoseconds),
    the random seconds of a requeue, and the settings it reads. *)
Record Proc := mkProc {
  pr_namespace : string;
  pr_now : string;
  pr_clock : Z;
  pr_jitter : Z;
  pr_ServerVersion : string;
  pr_ServerFlavor : string;
  pr_HarvesterSystemDefaultRegistry : string;
  pr_UpgradeConfigSet : string }.
