(* ===== verification/UpgradeNodes.v ===== *)
(** The controllers that carry an upgrade through its nodes
    ([pkg/controller/master/upgrade]: [secret_controller.go], [job_controller.go],
    [node_controller.go], [plan_controller.go], [deployment_controller.go],
    [image_controller.go], [addon_controller.go] and the watch of [register.go]).

    Rancher drains one node after the other and announces each drain on the
    secret of the node's machine plan.  The secret handler answers with a job,
    the job handler records its result on the upgrade and acknowledges it on the
    secret, and the node handler does so once a node has rebooted.

    They run under interference (ApiServer.v); the lock they share is not needed for
    what is proved here. *)

From S2P Require Import Prelude K8s NodeUtil Addon ApiServer Upgrade UpgradeJobs UpgradeWorld.

Local Open Scope Z_scope.

Section Handlers.
Context {UL : UpgradeLib} `{!JsonCodec (gomap string)} `{!JsonCodec UpgradeConfig} (P : Proc).
Abbreviation now := (pr_now P) (only parsing).

(** ** Shared helpers ([upgrade_controller.go], [pkg/util/setting.go]) *)

Definition upgradeCache_List : Act (list (Obj Upgrade)) :=
  cached (fun c => Ok (List.filter (fun o =>
    String.eqb (up_Namespace (o_val o)) (pr_namespace P)
    && hasLabel harvesterLatestUpgradeLabel "true" (up_meta (o_val o))) (c_upgrades c))).

Definition ensureSingleUpgrade : Act (Obj Upgrade) :=
  onGoingUpgrades ← upgradeCache_List;
  match onGoingUpgrades with
  | [u] => mret u
  | _ => throw (ErrText ("there are " +:+ pretty (length onGoingUpgrades) +:+ " on-going upgrades"))
  end.

Definition getCachedRepoInfo (upgrade : Upgrade) : outcome RepoInfo :=
  match yaml_load (ust_RepoInfo (up_status upgrade)) with
  | Some info => Ok info
  | None => Err (ErrText "yaml: unmarshal errors")
  end.

Definition GetRestoreVMConfigMapName (upgradeName : string) : string :=
  SafeConcatName [upgradeName; RestoreVMConfigMap].

Definition IsRestoreVM : Act bool :=
  s ← settingCache_Get UpgradeConfigSettingName;
  let value := set_Value s in
  let value := if String.eqb value "" then set_Default s else value in
  upgradeConfig ← lift (DecodeUpgradeConfig value);
  mret (uc_RestoreVM upgradeConfig).

(** ** The secret handler *)

Definition isUnderPreDrain (secret : Secret) : bool :=
  let a := om_Annotations (sec_meta secret) in
  negb (String.eqb (gm_str a rke2PreDrainAnnotation) (gm_str a preDrainAnnotation)).

(** The loop ranges over a map, so which node the error names is not determined:
    the first in the order of the map is taken. *)
Fixpoint firstBusy (nodeName : string) (l : list (string * NodeUpgradeStatus))
  : option (string * NodeUpgradeStatus) :=
  match l with
  | [] => None
  | (name, status) :: l =>
      if String.eqb name nodeName then firstBusy nodeName l
      else if String.eqb (nus_State status) StateSucceeded
              || String.eqb (nus_State status) nodeStateImagesPreloaded then firstBusy nodeName l
      else Some (name, status)
  end.

(** A [NodeUpgradeStatus] under [%s]. *)
Definition printedStatus (s : NodeUpgradeStatus) : string :=
  "{" +:+ Join " " [nus_State s; nus_Reason s; nus_Message s] +:+ "}".

Definition checkEligibleToDrain (upgrade : Upgrade) (nodeName : string) : outcome unit :=
  match firstBusy nodeName (map_to_list (default ∅ (up_NodeStatuses upgrade))) with
  | None => Ok tt
  | Some (name, status) =>
      Err (ErrText (name +:+ " is in " +:+ dquote +:+ printedStatus status +:+ dquote +:+ " state so " +:+ nodeName
                    +:+ " is not allowed to run any kind of job"))
  end.

Fixpoint pendingJob (jobs : list Job) : outcome unit :=
  match jobs with
  | [] => Ok tt
  | job :: jobs =>
      if jst_Succeeded (job_status job) =? 0
      then Err (ErrText ("there are pending jobs: (" +:+ om_Namespace (job_meta job) +:+ "/"
                         +:+ job_Name job +:+ ")"))
      else pendingJob jobs
  end.

Definition checkPendingHookJobs (upgrade : string) : Act unit :=
  jobs ← cached (fun c => Ok (List.filter (fun j =>
    String.eqb (om_Namespace (job_meta j)) (pr_namespace P)
    && hasLabel harvesterUpgradeLabel upgrade (job_meta j)) (c_jobs c)));
  lift (pendingJob jobs).

Definition createHookJob (o : Obj Upgrade) (nodeName jobType nextState : string) : Act unit :=
  let upgrade := o_val o in
  checkPendingHookJobs (up_Name upgrade);;
  repoInfo ← lift (getCachedRepoInfo upgrade);
  r ← try (jobClient_Create (applyNodeJob upgrade repoInfo nodeName jobType));
  match r with
  | inr e => if IsAlreadyExists e then mret tt else throw e
  | inl _ => mret tt
  end;;
  upgradeClient_Update (mkObj (o_rv o) (setNodeUpgradeStatus now nodeName nextState "" "" upgrade));;
  mret tt.

Definition pausedReason : string := "AdministrativelyPaused".
Definition pausedMessage : string := "Node upgrade paused as requested by the user".

Definition secret_OnChanged (secret : option (Obj Secret)) : Act unit :=
  match secret with
  | None => mret tt
  | Some os =>
      let secret := o_val os in
      let a := om_Annotations (sec_meta secret) in
      if deleted (sec_meta secret)
         || negb (String.eqb (om_Namespace (sec_meta secret)) rancherPlanSecretNamespace)
         || bool_decide (a = None) || negb (String.eqb (sec_Type secret) rancherPlanSecretType)
      then mret tt
      else if String.eqb (gm_str a rke2PreDrainAnnotation) ""
              && String.eqb (gm_str a rke2PostDrainAnnotation) "" then mret tt
      else if String.eqb (gm_str a rke2PreDrainAnnotation) (gm_str a preDrainAnnotation)
              && String.eqb (gm_str a rke2PostDrainAnnotation) (gm_str a postDrainAnnotation)
      then mret tt
      else
        o ← ensureSingleUpgrade;
        let upgrade := o_val o in
        if negb (String.eqb (stateOf upgrade) StateUpgradingNodes) then mret tt
        else
          match gm_get (om_Labels (sec_meta secret)) rancherPlanSecretMachineLabel with
          | None => mret tt
          | Some machineName =>
              r ← try (machineCache_Get rancherMachineNamespace machineName);
              match r with
              | inr _ => mret tt
              | inl machine =>
                  match mach_NodeRef machine with
                  | None => mret tt
                  | Some nodeName =>
                      let state := nodeState upgrade nodeName in
                      if String.eqb state nodeStateImagesPreloaded then
                        if negb (isUnderPreDrain secret) then mret tt
                        else if shouldPauseNodeUpgrade upgrade nodeName then
                          upgradeClient_Update (mkObj (o_rv o)
                            (setNodeUpgradeStatus now nodeName nodeStateUpgradePaused
                               pausedReason pausedMessage upgrade));;
                          mret tt
                        else
                          lift (checkEligibleToDrain upgrade nodeName);;
                          createHookJob o nodeName upgradeJobTypePreDrain nodeStatePreDraining
                      else if String.eqb state nodeStateUpgradePaused then
                        if negb (isUnderPreDrain secret) then mret tt
                        else if shouldPauseNodeUpgrade upgrade nodeName then mret tt
                        else
                          upgradeClient_Update (mkObj (o_rv o)
                            (setNodeUpgradeStatus now nodeName nodeStateImagesPreloaded "" ""
                               upgrade));;
                          enqueueAfter "secret"
                            (NamespacedName (om_Namespace (sec_meta secret))
                               (om_Name (sec_meta secret))) 5
                      else if String.eqb state nodeStatePreDrained then
                        if negb (String.eqb (gm_str a rke2PostDrainAnnotation)
                                   (gm_str a postDrainAnnotation)) then
                          lift (checkEligibleToDrain upgrade nodeName);;
                          createHookJob o nodeName upgradeJobTypePostDrain nodeStatePostDraining
                        else mret tt
                      else mret tt
                  end
              end
          end
  end.

(** ** The job handler *)

Definition setNodeWaitRebootLabel (o : Obj Node) (repoInfo : RepoInfo) : Act unit :=
  nodeClient_Update (mkObj (o_rv o) (node_set_Annotations
    (gm_set (node_Annotations (o_val o)) harvesterNodePendingOSImage
       (rel_OS (ri_Release repoInfo))) (o_val o)));;
  mret tt.

Definition sendRestoreVMJob (upgrade : Upgrade) (node : Node) (repoInfo : RepoInfo) : Act unit :=
  r ← try IsRestoreVM;
  match r with
  | inr _ => mret tt
  | inl false => mret tt
  | inl true =>
      if gm_has (node_Labels node) HarvesterWitnessNodeLabelKey then mret tt
      else
        let cmName := GetRestoreVMConfigMapName (up_Name upgrade) in
        r ← try (configMapCache_Get (up_Namespace upgrade) cmName);
        match r with
        | inr e => if IsNotFound e then mret tt
                   else throw (ErrWrap ("failed to get ConfigMap " +:+ cmName) e)
        | inl cm =>
            if isBlank (gm_str (cm_Data cm) (node_Name node)) then mret tt
            else
              let restoreVMJob := applyRestoreVMJob upgrade repoInfo (node_Name node) in
              r ← try (jobCache_Get (om_Namespace (job_meta restoreVMJob)) (job_Name restoreVMJob));
              match r with
              | inl _ => mret tt
              | inr e =>
                  if negb (IsNotFound e)
                  then throw (ErrWrap ("failed to get restore VM job for node "
                                       +:+ node_Name node) e)
                  else
                    r ← try (jobClient_Create restoreVMJob);
                    match r with
                    | inl _ => mret tt
                    | inr e => if IsAlreadyExists e then mret tt
                               else throw (ErrWrap ("failed to create restore VM job for node "
                                                    +:+ node_Name node) e)
                    end
              end
        end
  end.

(** What the conditions of a node job make of the upgrade, and whether its drain is
    to be acknowledged.  The state of the node is that of the upgrade as read. *)
Record JobResult := mkResult { jr_upgrade : Upgrade; jr_preDrained : bool; jr_postDrained : bool }.

Definition isCond (type : string) (c : Condition) : bool :=
  String.eqb (c_Type c) type && String.eqb (c_Status c) ConditionTrue.

(** The OS is in place, or the node has to reboot into it. *)
Definition osInstalled (node : Node) (repoInfo : RepoInfo) : bool :=
  String.eqb (rel_OS (ri_Release repoInfo)) (node_OSImage node).

Fixpoint nodeJobConditions (upgrade : Upgrade) (node : Obj Node) (repoInfo : RepoInfo)
    (jobType : string) (conditions : list Condition) (acc : JobResult) : Act JobResult :=
  let nodeName := node_Name (o_val node) in
  match conditions with
  | [] => mret acc
  | condition :: conditions =>
      acc ←
        (if isCond JobFailed condition then
           mret (mkResult (setNodeUpgradeStatus now nodeName StateFailed (c_Reason condition)
                             (c_Message condition) (jr_upgrade acc))
                   (jr_preDrained acc) (jr_postDrained acc))
         else if isCond JobComplete condition then
           let state := nodeState upgrade nodeName in
           if String.eqb jobType upgradeJobTypePreDrain && String.eqb state nodeStatePreDraining
           then mret (mkResult (setNodeUpgradeStatus now nodeName nodeStatePreDrained "" ""
                                  (jr_upgrade acc)) true (jr_postDrained acc))
           else if String.eqb jobType upgradeJobTypePostDrain
                   && String.eqb state nodeStatePostDraining then
             if osInstalled (o_val node) repoInfo then
               sendRestoreVMJob upgrade (o_val node) repoInfo;;
               mret (mkResult (setNodeUpgradeStatus now nodeName StateSucceeded "" ""
                                 (jr_upgrade acc)) (jr_preDrained acc) true)
             else
               setNodeWaitRebootLabel node repoInfo;;
               mret (mkResult (setNodeUpgradeStatus now nodeName nodeStateWaitingReboot "" ""
                                 (jr_upgrade acc)) (jr_preDrained acc) (jr_postDrained acc))
           else if String.eqb jobType upgradeJobTypeSingleNodeUpgrade then
             if osInstalled (o_val node) repoInfo then
               sendRestoreVMJob upgrade (o_val node) repoInfo;;
               mret (mkResult (setNodeUpgradeStatus now nodeName StateSucceeded "" ""
                                 (jr_upgrade acc)) (jr_preDrained acc) (jr_postDrained acc))
             else
               setNodeWaitRebootLabel node repoInfo;;
               mret (mkResult (setNodeUpgradeStatus now nodeName nodeStateWaitingReboot "" ""
                                 (jr_upgrade acc)) (jr_preDrained acc) (jr_postDrained acc))
           else mret acc
         else mret acc);
      nodeJobConditions upgrade node repoInfo jobType conditions acc
  end.

(** [if !reflect.DeepEqual(upgrade, toUpdate) { Update(toUpdate) }] *)
Definition updateIfChanged (o : Obj Upgrade) (toUpdate : Upgrade) : Act unit :=
  if bool_decide (o_val o = toUpdate) then mret tt
  else upgradeClient_Update (mkObj (o_rv o) toUpdate);; mret tt.

(** Copies Rancher's announcement into the acknowledgement. *)
Definition acknowledged (ack announced : string) (secret : Secret) : Secret :=
  let a := om_Annotations (sec_meta secret) in
  mkSecret (set_Annotations (gm_set a ack (gm_str a announced)) (sec_meta secret))
    (sec_Type secret).
Definition acknowledge (ack announced : string) (os : Obj Secret) : Act unit :=
  secretClient_Update (mkObj (o_rv os) (acknowledged ack announced (o_val os)));;
  mret tt.

(** The one secret of a machine. *)
Definition machinePlanSecret (machineName : string) : Act (Obj Secret) :=
  secrets ← secretClient_List machineName;
  match secrets with
  | [secret] => mret secret
  | _ => throw (ErrText ("found " +:+ pretty (length secrets) +:+ " plan secret for machine "
                         +:+ machineName))
  end.

Definition syncNodeJob (job : Job) : Act unit :=
  match gm_get (job_Labels job) upgradeJobTypeLabel with
  | None => throw (ErrText "sync a job without type")
  | Some jobType =>
      match gm_get (job_Labels job) harvesterNodeLabel with
      | None => mret tt
      | Some nodeName =>
          r ← try (nodeCache_Get nodeName);
          match r with
          | inr _ => mret tt
          | inl node =>
              match gm_get (node_Annotations (o_val node)) MachineAnnotation,
                    gm_get (job_Labels job) harvesterUpgradeLabel with
              | Some machineName, Some upgradeName =>
                  o ← upgradeCache_Get (pr_namespace P) upgradeName;
                  repoInfo ← lift (getCachedRepoInfo (o_val o));
                  res ← nodeJobConditions (o_val o) node repoInfo jobType
                          (jst_Conditions (job_status job)) (mkResult (o_val o) false false);
                  updateIfChanged o (jr_upgrade res);;
                  secret ← machinePlanSecret machineName;
                  (if jr_preDrained res
                   then acknowledge preDrainAnnotation rke2PreDrainAnnotation secret
                   else mret tt);;
                  (if jr_postDrained res
                   then acknowledge postDrainAnnotation rke2PostDrainAnnotation secret
                   else mret tt)
              | _, _ => mret tt
              end
          end
      end
  end.

Fixpoint planJobConditions (nodeName : string) (conditions : list Condition) (toUpdate : Upgrade)
  : Upgrade :=
  match conditions with
  | [] => toUpdate
  | condition :: conditions =>
      planJobConditions nodeName conditions
        (if isCond JobFailed condition then
           setNodeUpgradeStatus now nodeName StateFailed (c_Reason condition)
             (c_Message condition) toUpdate
         else if isCond JobComplete condition then
           setNodeUpgradeStatus now nodeName nodeStateImagesPreloaded "" "" toUpdate
         else toUpdate)
  end.

Definition syncPlanJob (job : Job) (planName nodeName : string) : Act unit :=
  plan ← planCache_Get sucNamespace planName;
  match gm_get (om_Labels (plan_meta plan)) harvesterUpgradeLabel with
  | None => mret tt
  | Some upgradeName =>
      o ← upgradeCache_Get (pr_namespace P) upgradeName;
      if negb (String.eqb (stateOf (o_val o)) StatePreparingNodes) then mret tt
      else
        let toUpdate :=
          if 0 <? jst_Active (job_status job)
          then setNodeUpgradeStatus now nodeName nodeStateImagesPreloading "" "" (o_val o)
          else o_val o in
        updateIfChanged o (planJobConditions nodeName (jst_Conditions (job_status job)) toUpdate)
  end.

Fixpoint manifestJobConditions (conditions : list Condition) (toUpdate : Upgrade) : Upgrade :=
  match conditions with
  | [] => toUpdate
  | condition :: conditions =>
      manifestJobConditions conditions
        (if isCond JobFailed condition then
           setHelmChartUpgradeStatus now ConditionFalse (c_Reason condition)
             (c_Message condition) toUpdate
         else if isCond JobComplete condition then
           setHelmChartUpgradeStatus now ConditionTrue "" "" toUpdate
         else toUpdate)
  end.

Definition syncManifestJob (job : Job) : Act unit :=
  match gm_get (job_Labels job) harvesterUpgradeLabel with
  | None => mret tt
  | Some upgradeName =>
      r ← try (upgradeCache_Get (pr_namespace P) upgradeName);
      match r with
      | inr e => if IsNotFound e then mret tt else throw e
      | inl o =>
          if negb (String.eqb (gm_str (up_Labels (o_val o)) harvesterLatestUpgradeLabel) "true")
          then mret tt
          else if negb (condUnknown (o_val o) SystemServicesUpgraded)
                  || (0 <? jst_Active (job_status job)) then mret tt
          else updateIfChanged o
                 (manifestJobConditions (jst_Conditions (job_status job)) (o_val o))
      end
  end.

Definition job_OnChanged (job : option Job) : Act unit :=
  match job with
  | None => mret tt
  | Some job =>
      let ns := om_Namespace (job_meta job) in
      if deleted (job_meta job) || bool_decide (job_Labels job = None)
         || (negb (String.eqb ns upgradeNamespace) && negb (String.eqb ns sucNamespace))
      then mret tt
      else
        let planName := gm_str (job_Labels job) upgradePlanLabel in
        let nodeName := gm_str (job_Labels job) upgradeNodeLabel in
        let component := gm_str (job_Labels job) harvesterUpgradeComponentLabel in
        if negb (String.eqb planName "") && negb (String.eqb nodeName "")
        then syncPlanJob job planName nodeName
        else if String.eqb component nodeComponent then syncNodeJob job
        else if String.eqb component manifestComponent then syncManifestJob job
        else mret tt
  end.

(** ** The node handler *)

(** [retryUpdateNodeOnConflict]: [for i := 1; i < 3; i++]; [attempts] is 2. *)
Fixpoint retryUpdateNode (attempts : nat) (nodeName : string) (updateFunc : Node -> Node)
  : Act unit :=
  match attempts with
  | O => throw (ErrText "fail to update node")
  | S attempts =>
      current ← nodeCache_Get nodeName;
      if deleted (node_meta (o_val current)) then mret tt
      else
        let toUpdate := updateFunc (o_val current) in
        if bool_decide (o_val current = toUpdate) then mret tt
        else
          r ← try (nodeClient_Update (mkObj (o_rv current) toUpdate));
          match r with
          | inl _ => mret tt
          | inr e => if negb (IsConflict e) then throw e
                     else retryUpdateNode attempts nodeName updateFunc
          end
  end.
Definition retryUpdateNodeOnConflict := retryUpdateNode 2.

Definition forgetPendingOSImage (n : Node) : Node :=
  node_set_Annotations (gm_delete (node_Annotations n) harvesterNodePendingOSImage) n.

Definition node_OnChanged (node : option Node) : Act unit :=
  match node with
  | None => mret tt
  | Some node =>
      if deleted (node_meta node) then mret tt
      else
        match gm_get (node_Annotations node) harvesterNodePendingOSImage with
        | None => mret tt
        | Some expectedVersion =>
            o ← ensureSingleUpgrade;
            let upgrade := o_val o in
            if negb (String.eqb (stateOf upgrade) StateUpgradingNodes) then mret tt
            else if negb (String.eqb (nodeState upgrade (node_Name node)) nodeStateWaitingReboot)
            then mret tt
            else
              match gm_get (node_Annotations node) MachineAnnotation with
              | None => mret tt
              | Some machineName =>
                  secret ← machinePlanSecret machineName;
                  if String.eqb expectedVersion (node_OSImage node) then
                    match getCachedRepoInfo upgrade with
                    | Ok repoInfo => sendRestoreVMJob upgrade node repoInfo
                    | _ => mret tt
                    end;;
                    upgradeClient_Update (mkObj (o_rv o)
                      (setNodeUpgradeStatus now (node_Name node) StateSucceeded "" "" upgrade));;
                    (if String.eqb (up_SingleNode upgrade) ""
                     then acknowledge postDrainAnnotation rke2PostDrainAnnotation secret
                     else mret tt);;
                    retryUpdateNodeOnConflict (node_Name node) forgetPendingOSImage
                  else enqueueAfter "node" (node_Name node) upgradeCommonRequeueInterval
              end
        end
  end.

(** ** The plan handler *)

(** A requirement of a label selector, on the labels of a node. *)
Definition matchesReq (labels : gomap string) (r : SelectorRequirement) : bool :=
  let v := gm_get labels (sr_Key r) in
  if String.eqb (sr_Operator r) "In" then
    match v with Some v => str_in v (sr_Values r) | None => false end
  else if String.eqb (sr_Operator r) "NotIn" then
    match v with Some v => negb (str_in v (sr_Values r)) | None => true end
  else if String.eqb (sr_Operator r) "Exists" then bool_decide (is_Some v)
  else if String.eqb (sr_Operator r) "DoesNotExist" then negb (bool_decide (is_Some v))
  else false.

(** [labels.NewRequirement], one after the other. *)
Fixpoint newRequirements (rs : list SelectorRequirement) : outcome unit :=
  match rs with
  | [] => Ok tt
  | r :: rs => match requirementError r with Some e => Err e | None => newRequirements rs end
  end.

(** [metav1.LabelSelectorAsSelector] *)
Definition selectorRequirements (s : LabelSelector) : list SelectorRequirement :=
  map (fun '(k, v) => mkReq k "In" [v]) (map_to_list (default ∅ (ls_MatchLabels s)))
  ++ ls_MatchExpressions s.

Definition notAtLatestHash (plan : Plan) : SelectorRequirement :=
  mkReq (LabelPlanName (om_Name (plan_meta plan))) "NotIn" ["disabled"; plan_LatestHash plan].

Definition allAtLatestHash (plan : Plan) (selector : LabelSelector) : Act bool :=
  lift (newRequirements (notAtLatestHash plan :: selectorRequirements selector));;
  nodes ← cached (fun c => Ok (List.filter (fun n =>
             forallb (matchesReq (node_Labels (o_val n)))
               (selectorRequirements selector ++ [notAtLatestHash plan])) (c_nodes c)));
  mret (match nodes with [] => true | _ => false end).

Definition componentAnnotation (component : string) : option string :=
  if String.eqb component skipManifestsApplyComponent
  then Some skipManifestsApplyPlanCompletedAnnotation
  else if String.eqb component skipManifestsRemoveComponent
  then Some skipManifestsRemovePlanCompletedAnnotation
  else if String.eqb component cleanupComponent then Some imageCleanupPlanCompletedAnnotation
  else None.

Definition plan_OnChanged (plan : option Plan) : Act unit :=
  match plan with
  | None => mret tt
  | Some plan =>
      let labels := om_Labels (plan_meta plan) in
      match pl_NodeSelector (plan_spec plan) with
      | None => mret tt
      | Some selector =>
          if deleted (plan_meta plan) || String.eqb (gm_str labels harvesterUpgradeLabel) ""
          then mret tt
          else
            nodesAtLatestHash ← allAtLatestHash plan selector;
            if negb nodesAtLatestHash then
              enqueueAfter "plan" (GetNamespacedName (plan_meta plan))
                (upgradeCommonRequeueInterval + pr_jitter P)
            else
              r ← try (upgradeCache_Get (pr_namespace P) (gm_str labels harvesterUpgradeLabel));
              match r with
              | inr e => if IsNotFound e then mret tt else throw e
              | inl o =>
                  let upgrade := o_val o in
                  let component := gm_str labels harvesterUpgradeComponentLabel in
                  match componentAnnotation component with
                  | Some annotation =>
                      upgradeClient_Update (mkObj (o_rv o) (up_set_Annotations
                        (gm_set (up_Annotations upgrade) annotation (FormatBool true)) upgrade));;
                      mret tt
                  | None => mret tt
                  end;;
                  if negb (condTrue upgrade NodesPrepared) && String.eqb component nodeComponent
                  then
                    upgradeClient_Update (mkObj (o_rv o)
                      (setNodesPreparedCondition now ConditionTrue "" "" upgrade));;
                    mret tt
                  else mret tt
              end
      end
  end.

(** ** The deployment, image and addon handlers *)

Definition isDeploymentReady (deployment : Deployment) : bool :=
  existsb (isCond DeploymentAvailable) (dep_Conditions deployment).

Definition deployment_OnChanged (deployment : option Deployment) : Act unit :=
  match deployment with
  | None => mret tt
  | Some deployment =>
      let m := dep_meta deployment in
      if deleted m || negb (String.eqb (om_Namespace m) upgradeNamespace)
         || String.eqb (gm_str (om_Labels m) harvesterUpgradeLabel) "" then mret tt
      else
        r ← try (upgradeCache_Get upgradeNamespace (gm_str (om_Labels m) harvesterUpgradeLabel));
        match r with
        | inr e => if IsNotFound e then mret tt else throw e
        | inl o =>
            if String.eqb (stateOf (o_val o)) StatePreparingRepo
               && String.eqb (gm_str (om_Labels m) harvesterUpgradeComponentLabel)
                    upgradeComponentRepo
               && isDeploymentReady deployment
            then
              upgradeClient_Update (mkObj (o_rv o)
                (setRepoProvisionedCondition now ConditionTrue "" ""
                   (setLabel upgradeStateLabel StateRepoPrepared (o_val o))));;
              mret tt
            else mret tt
        end
  end.

Definition condReason (cs : list Condition) (name : string) : string :=
  match Cond.findCond cs name with Some c => c_Reason c | None => "" end.
Definition condMessage (cs : list Condition) (name : string) : string :=
  match Cond.findCond cs name with Some c => c_Message c | None => "" end.

Definition isUponRetryFailure (image : VMImage) (upgrade : Upgrade) : bool :=
  let cs := img_Conditions image in
  Cond.IsFalse cs ImageRetryLimitExceeded
  && (negb (String.eqb (condReason cs ImageRetryLimitExceeded)
              (condReason (up_Conditions upgrade) ImageReady))
      || negb (String.eqb (condMessage cs ImageRetryLimitExceeded)
                 (condMessage (up_Conditions upgrade) ImageReady))).

(** What the image's conditions make of the upgrade; none for the default case. *)
Definition imageResult (image : VMImage) (upgrade : Upgrade) : option Upgrade :=
  let cs := img_Conditions image in
  if Cond.IsTrue cs ImageImported
  then Some (setImageReadyCondition now ConditionTrue "" "" upgrade)
  else if Cond.IsFalse cs ImageImported
  then Some (setImageReadyCondition now ConditionFalse (condReason cs ImageImported)
               (condMessage cs ImageImported) upgrade)
  else if Cond.IsTrue cs ImageRetryLimitExceeded
  then Some (setImageReadyCondition now ConditionFalse (condReason cs ImageRetryLimitExceeded)
               (condMessage cs ImageRetryLimitExceeded) upgrade)
  else if isUponRetryFailure image upgrade
  then Some (setImageReadyCondition now ConditionUnknown (condReason cs ImageRetryLimitExceeded)
               (condMessage cs ImageRetryLimitExceeded) upgrade)
  else None.

Definition image_OnChanged (image : option VMImage) : Act unit :=
  match image with
  | None => mret tt
  | Some image =>
      let m := img_meta image in
      if deleted m || negb (String.eqb (om_Namespace m) upgradeNamespace)
         || String.eqb (gm_str (om_Labels m) harvesterUpgradeLabel) "" then mret tt
      else
        r ← try (upgradeCache_Get upgradeNamespace (gm_str (om_Labels m) harvesterUpgradeLabel));
        match r with
        | inr e => if IsNotFound e then mret tt else throw e
        | inl o =>
            match imageResult image (o_val o) with
            | Some toUpdate => updateIfChanged o toUpdate
            | None => mret tt
            end
        end
  end.

Definition addon_disabled (a : Addon.Addon) : Addon.Addon :=
  let s := ad_Spec a in
  mkAddon (ad_Kind a) (ad_APIVersion a) (ad_meta a)
    (mkAddonSpec (as_Repo s) (as_Chart s) (as_Version s) false (as_ValuesContent s))
    (ad_Status a) (ad_Conditions a).

Definition addon_OnChanged (addon : option (Obj Addon.Addon)) : Act unit :=
  match addon with
  | None => mret tt
  | Some oa =>
      let addon := o_val oa in
      let m := ad_meta addon in
      if deleted m || negb (String.eqb (om_Name m) DeschedulerName)
         || bool_decide (om_Labels m = None) || negb (as_Enabled (ad_Spec addon)) then mret tt
      else
        r ← try (upgradeCache_Get upgradeNamespace (gm_str (om_Labels m) harvesterUpgradeLabel));
        match r with
        | inr e => if IsNotFound e then mret tt else throw e
        | inl o =>
            if String.eqb (gm_str (up_Annotations (o_val o)) reenableDeschedulerAddonAnnotation)
                 "true"
            then addonClient_Update (mkObj (o_rv oa) (addon_disabled addon));; mret tt
            else mret tt
        end
  end.

(** ** The watch of [register.go]

    The keys of the secrets to look at again; the slice starts with as many empty
    keys as the pause map has entries. *)
Fixpoint unpausedKeys (upgrade : Upgrade) (pauses : list (string * string))
  : Act (list (string * string)) :=
  match pauses with
  | [] => mret []
  | (nodeName, state) :: pauses =>
      if negb (String.eqb state NodeUnpause) then unpausedKeys upgrade pauses
      else if negb (String.eqb (nodeState upgrade nodeName) nodeStateUpgradePaused)
      then unpausedKeys upgrade pauses
      else
        r ← try (nodeCache_Get nodeName);
        match r with
        | inr e => if IsNotFound e then unpausedKeys upgrade pauses else throw e
        | inl node =>
            match gm_get (node_Annotations (o_val node)) MachineAnnotation with
            | None => throw (ErrText ("machine name not found on node " +:+ node_Name (o_val node)))
            | Some machineName =>
                keys ← unpausedKeys upgrade pauses;
                mret ((FleetLocalNamespaceName, machineName +:+ "-machine-plan") :: keys)
            end
        end
  end.

Definition NotifyUnpausedMachinePlanSecret (upgrade : Upgrade) : Act (list (string * string)) :=
  if deleted (up_meta upgrade)
     || negb (String.eqb (gm_str (up_Labels upgrade) harvesterLatestUpgradeLabel) "true")
  then mret []
  else
    pauseMap ← lift (getNodeUpgradePauseMap upgrade);
    match pauseMap with
    | None => mret []
    | Some m =>
        keys ← unpausedKeys upgrade (map_to_list m);
        mret (replicate (size m) ("", "") ++ keys)
    end.
End Handlers.
