(* ===== verification/UpgradeVersion.v ===== *)
(** Which release a cluster may be upgraded to: [pkg/upgradehelper/versionguard], the checks
    of flavor, registries and version in [upgrade_controller.go], and the versions of
    [github.com/harvester/go-common/version] they compare.

    Semantic versions themselves come from a library: parsing and constraint checks are
    parameters ([SemverLib]), with their documented order as laws ([SemverOrder]).  Under
    these an upgrade that is found eligible is an upgrade. *)

From S2P Require Import Prelude K8s Upgrade UpgradeJobs UpgradeWorld UpgradeNodes.

(** ** Semantic versions *)

Class SemverLib := {
  Semver : Type;
  StrictNewVersion : string -> option Semver;
  sv_Prerelease : Semver -> string;
  sv_Stable : Semver -> Semver;                   (* major, minor and patch only *)
  sv_Original : Semver -> string;
  (** [NewConstraint] and [Check]; none for a constraint that does not parse. *)
  sv_Check : string -> Semver -> option bool }.

(** [errors.Is] *)
Fixpoint errorsIs (target e : goerror) : bool :=
  bool_decide (e = target) ||
  match e with ErrWrap _ e' => errorsIs target e' | _ => false end.

Definition ErrInvalidVersion : goerror := ErrText "invalid version string".
Definition ErrIncomparableVersion : goerror := ErrText "incomparable: dev version".
Definition ErrMinUpgradeRequirement : goerror :=
  ErrText "current version does not meet minimum upgrade requirement".
Definition ErrDowngrade : goerror := ErrText "downgrading is prohibited".
Definition ErrDevUpgrade : goerror :=
  ErrText "upgrading from dev versions to non-dev versions is prohibited".
Definition ErrPrereleaseCrossVersionUpgrade : goerror :=
  ErrText "cross-version upgrades from/to any prerelease version are prohibited".

Definition ServerFlavorCommunity : string := "community".
Definition ServerFlavorPrime : string := "prime".

Section Version.
Context {SV : SemverLib}.

(** ** [version.HarvesterVersion] *)

Record HarvesterVersion := mkHV {
  hv_version : option Semver; hv_rawVersion : string; hv_isDev : bool; hv_isPrerelease : bool }.

Definition NewHarvesterVersion (versionStr : string) : outcome HarvesterVersion :=
  let trimmedVersionStr := TrimPrefix versionStr "v" in
  if String.eqb trimmedVersionStr "" then Err ErrInvalidVersion
  else
    let v := StrictNewVersion trimmedVersionStr in
    let isReleaseCandidate :=
      match v with Some v => negb (String.eqb (sv_Prerelease v) "") | None => false end in
    Ok (mkHV v versionStr (match v with Some _ => false | None => true end) isReleaseCandidate).

(** The stable version of a dev version would be that of a nil pointer. *)
Definition GetStableVersion (v : HarvesterVersion) : outcome HarvesterVersion :=
  match hv_version v with
  | None => Panic
  | Some s => Ok (mkHV (Some (sv_Stable s)) (sv_Original (sv_Stable s)) false false)
  end.

Definition improperConstraint : goerror := ErrText "improper constraint".

Definition checkConstraint (constraint : string) (v : HarvesterVersion) : outcome bool :=
  match hv_version v with
  | None => Err ErrInvalidVersion
  | Some s => match sv_Check constraint s with
              | None => Err improperConstraint
              | Some b => Ok b
              end
  end.

(** The methods are never called with a nil version. *)
Definition IsNewer (v version : HarvesterVersion) : outcome bool :=
  if hv_isDev v || hv_isDev version then Err ErrIncomparableVersion
  else
    let constraint :=
      if hv_isPrerelease v && negb (hv_isPrerelease version)
      then "> " +:+ hv_rawVersion version +:+ "-z"
      else "> " +:+ hv_rawVersion version in
    checkConstraint constraint v.

Definition IsEqual (v version : HarvesterVersion) : outcome bool :=
  if hv_isDev v || hv_isDev version then
    if String.eqb (hv_rawVersion v) (hv_rawVersion version) then Ok true
    else Err ErrIncomparableVersion
  else checkConstraint (hv_rawVersion version) v.

Definition IsOlder (v version : HarvesterVersion) : outcome bool :=
  if hv_isDev v || hv_isDev version then Err ErrIncomparableVersion
  else
    isNewer ← IsNewer v version;
    isEqual ← IsEqual v version;
    Ok (negb isNewer && negb isEqual).

(** ** [version.HarvesterUpgradeVersion] *)

Record HarvesterUpgradeVersion := mkHUV {
  huv_current : HarvesterVersion;
  huv_upgrade : HarvesterVersion;
  huv_minUpgradable : option HarvesterVersion }.

Definition IsUpgrade (u : HarvesterUpgradeVersion) : outcome unit :=
  isDowngrade ← IsNewer (huv_current u) (huv_upgrade u);
  if isDowngrade : bool then Err ErrDowngrade else Ok tt.

Definition IsUpgradable (u : HarvesterUpgradeVersion) : outcome unit :=
  match huv_minUpgradable u with
  | None => Ok tt
  | Some m => isOlder ← IsOlder (huv_current u) m;
              if isOlder : bool then Err ErrMinUpgradeRequirement else Ok tt
  end.

Definition CheckUpgradeEligibility (u : HarvesterUpgradeVersion) (strictMode : bool)
  : outcome unit :=
  if hv_isDev (huv_upgrade u) then Ok tt
  else if hv_isDev (huv_current u) then if strictMode then Err ErrDevUpgrade else Ok tt
  else
    isSameVersion ← IsEqual (huv_current u) (huv_upgrade u);
    if isSameVersion : bool then Ok tt
    else
      _ ← IsUpgrade u;
      _ ← IsUpgradable u;
      if hv_isPrerelease (huv_current u) then
        currentStableVersion ← GetStableVersion (huv_current u);
        upgradeStableVersion ← GetStableVersion (huv_upgrade u);
        match IsEqual currentStableVersion upgradeStableVersion with
        | Ok true => Ok tt
        | Panic => Panic
        | _ => Err ErrPrereleaseCrossVersionUpgrade
        end
      else Ok tt.

(** ** [versionguard.Check] *)

Context {UL : UpgradeLib}.

Definition versionguard_Check (upgrade : Upgrade) (strictMode : bool)
    (minUpgradableVersionStr : string) : outcome unit :=
  repoInfo ← getCachedRepoInfo upgrade;
  upgradeVersion ← NewHarvesterVersion (rel_Harvester (ri_Release repoInfo));
  currentVersion ← NewHarvesterVersion (ust_PreviousVersion (up_status upgrade));
  minUpgradableVersion ←
    (if negb (String.eqb minUpgradableVersionStr "") then
       v ← NewHarvesterVersion minUpgradableVersionStr; Ok (Some v)
     else
       match NewHarvesterVersion (rel_MinUpgradableVersion (ri_Release repoInfo)) with
       | Ok v => Ok (Some v)
       | Err e => if errorsIs ErrInvalidVersion e then Ok None else Err e
       | Panic => Panic
       end);
  CheckUpgradeEligibility (mkHUV currentVersion upgradeVersion minUpgradableVersion) strictMode.

(** ** Flavors and registries ([upgrade_controller.go]) *)

Definition validateRegistry (name registry : string) : outcome unit :=
  if String.eqb registry "" then Ok tt
  else if Contains registry "://" then Err (ErrText (name +:+ " must not include a URL scheme"))
  else if HasSuffix registry "/" then Err (ErrText (name +:+ " must not end with '/'"))
  else Ok tt.

Definition isDevVersion (v : HarvesterVersion) : bool :=
  match IsNewer v v with Err e => errorsIs ErrIncomparableVersion e | _ => false end.

Definition validateFlavorSwitchVersion (currentVersion targetVersion : string)
    (allowSameVersion : bool) : outcome unit :=
  target ← wrapErr (ErrWrap ("invalid target version " +:+ quoted targetVersion))
             (NewHarvesterVersion targetVersion);
  current ← wrapErr (ErrWrap ("invalid current version " +:+ quoted currentVersion))
              (NewHarvesterVersion currentVersion);
  if isDevVersion target || isDevVersion current then Ok tt
  else
    same ← IsEqual target current;
    if same : bool then
      if allowSameVersion then Ok tt
      else Err (ErrText ("switching from community to Prime at the same version is not supported "
                         +:+ "(version " +:+ currentVersion +:+ ")"))
    else
      newer ← IsNewer target current;
      if newer : bool then Ok tt
      else Err (ErrText ("switching from community to Prime requires a newer version (current "
                         +:+ currentVersion +:+ ", target " +:+ targetVersion +:+ ")")).

(** An empty flavor is the community one. *)
Definition flavorOr (flavor : string) : string :=
  if String.eqb flavor "" then ServerFlavorCommunity else flavor.
Definition isFlavor (flavor : string) : bool :=
  String.eqb flavor ServerFlavorCommunity || String.eqb flavor ServerFlavorPrime.

Definition validateUpgradeFlavor (currentFlavor currentVersion targetFlavor targetVersion : string)
    (allowSameVersion : bool) : outcome unit :=
  let currentFlavor := flavorOr currentFlavor in
  let targetFlavor := flavorOr targetFlavor in
  if negb (isFlavor currentFlavor)
  then Err (ErrText ("unsupported current server flavor " +:+ quoted currentFlavor))
  else if negb (isFlavor targetFlavor)
  then Err (ErrText ("unsupported target server flavor " +:+ quoted targetFlavor))
  else if String.eqb currentFlavor ServerFlavorPrime
          && String.eqb targetFlavor ServerFlavorCommunity
  then Err (ErrText "upgrading from a Prime release to a community release is not supported")
  else if String.eqb currentFlavor ServerFlavorCommunity
          && String.eqb targetFlavor ServerFlavorPrime
  then validateFlavorSwitchVersion currentVersion targetVersion allowSameVersion
  else Ok tt.

Definition validateUpgradeRepo (currentFlavor currentVersion : string) (allowSameVersion : bool)
    (repoInfo : RepoInfo) : outcome unit :=
  let release := ri_Release repoInfo in
  _ ← validateRegistry "rancherSystemDefaultRegistry" (rel_RancherSystemDefaultRegistry release);
  _ ← validateRegistry "harvesterSystemDefaultRegistry"
        (rel_HarvesterSystemDefaultRegistry release);
  validateUpgradeFlavor currentFlavor currentVersion (rel_ServerFlavor release)
    (rel_Harvester release) allowSameVersion.

(** Eligible, or the reason why not. *)
Definition upgradeEligibilityCheck (serverFlavor : string) (upgrade : Upgrade)
    (allowSameVersionFlavorSwitch : bool) : outcome (bool * string) :=
  let orReason (o : outcome unit) (k : outcome (bool * string)) :=
    match o with Ok _ => k | Err e => Ok (false, error_Error e) | Panic => Panic end in
  match getCachedRepoInfo upgrade with
  | Err e => Ok (false, error_Error e)
  | Panic => Panic
  | Ok repoInfo =>
      orReason (validateUpgradeRepo serverFlavor (ust_PreviousVersion (up_status upgrade))
                  allowSameVersionFlavorSwitch repoInfo)
        (if bool_decide (gm_get (up_Annotations upgrade) skipVersionCheckAnnotation ≫= ParseBool
                         = Some true)
         then Ok (true, "")
         else orReason (versionguard_Check upgrade true "") (Ok (true, "")))
  end.
End Version.

(** ** What semantic versions promise

    [Compare] orders versions; a constraint without an operator or with [>] compares
    with the version it names; a prerelease version satisfies no constraint on a release. *)
Class SemverOrder {SV : SemverLib} := {
  sv_Compare : Semver -> Semver -> comparison;
  so_greater : forall raw r v, StrictNewVersion (TrimPrefix raw "v") = Some r ->
    sv_Prerelease v = "" \/ sv_Prerelease r <> "" ->
    sv_Check ("> " +:+ raw) v = Some (bool_decide (sv_Compare v r = Gt));
  so_equal : forall raw r v, StrictNewVersion (TrimPrefix raw "v") = Some r ->
    sv_Prerelease v = "" \/ sv_Prerelease r <> "" ->
    sv_Check raw v = Some (bool_decide (sv_Compare v r = Eq));
  so_mixed : forall raw r v, StrictNewVersion (TrimPrefix raw "v") = Some r ->
    sv_Prerelease v <> "" -> sv_Prerelease r = "" -> sv_Check raw v = Some false;
  so_Stable : forall v, sv_Prerelease (sv_Stable v) = "";
  so_Original : forall v,
    StrictNewVersion (TrimPrefix (sv_Original (sv_Stable v)) "v") = Some (sv_Stable v) }.
#[global] Hint Mode SemverOrder + : typeclass_instances.

(** The version a text stands for, if it is a semantic one. *)
Definition semverOf {SV : SemverLib} (s : string) : option Semver :=
  StrictNewVersion (TrimPrefix s "v").

Section Sound.
Context {SV : SemverLib} {SO : SemverOrder}.

(** A version made from text. *)
Definition madeFrom (s : string) (v : HarvesterVersion) : Prop :=
  hv_version v = semverOf s /\ hv_rawVersion v = s /\
  hv_isDev v = match semverOf s with Some _ => false | None => true end /\
  hv_isPrerelease v =
    match semverOf s with Some r => negb (String.eqb (sv_Prerelease r) "") | None => false end.

Lemma NewHarvesterVersion_Ok s v : NewHarvesterVersion s = Ok v -> madeFrom s v.
Proof.
  unfold NewHarvesterVersion. case_match; [done|]. intros [= <-]. unfold madeFrom, semverOf.
  done.
Qed.

Lemma IsEqual_releases s t v w r q :
  madeFrom s v -> madeFrom t w -> semverOf s = Some r -> semverOf t = Some q ->
  IsEqual v w = Ok (if bool_decide (sv_Prerelease r <> "" /\ sv_Prerelease q = "") then false
                    else bool_decide (sv_Compare r q = Eq)).
Proof.
  intros (Hv & _ & Hdv & _) (_ & Hraw & Hdw & _) Hr Hq. unfold IsEqual, checkConstraint.
  rewrite Hdv, Hdw, Hr, Hq, Hv, Hr, Hraw. simpl. case_bool_decide as Hp.
  - by rewrite (so_mixed _ q) by (done || apply Hp).
  - rewrite (so_equal _ q); [done|done|]. destruct (decide (sv_Prerelease r = "")); [by left|].
    right. tauto.
Qed.

(** What the library compares [c] with when asked about the version [o] written [raw]: a
    release a prerelease is compared with stands for the end of its prereleases. *)
Definition comparedWith (c : Semver) (raw : string) (o b : Semver) : Prop :=
  if bool_decide (sv_Prerelease c <> "" /\ sv_Prerelease o = "")
  then semverOf (raw +:+ "-z") = Some b /\ sv_Prerelease b <> ""
  else b = o.

(** Equal, where a prerelease and a release never are. *)
Definition sameVersion (c o : Semver) : Prop :=
  sv_Compare c o = Eq /\ ~ (sv_Prerelease c <> "" /\ sv_Prerelease o = "").

Lemma IsEqual_true s t v w r q :
  madeFrom s v -> madeFrom t w -> semverOf s = Some r -> semverOf t = Some q ->
  IsEqual v w = Ok (bool_decide (sameVersion r q)).
Proof.
  intros Hv Hw Hr Hq. rewrite (IsEqual_releases s t v w r q) by done. f_equal. unfold sameVersion.
  case_bool_decide as Hp; [|apply bool_decide_ext; tauto].
  symmetry. apply bool_decide_eq_false_2. tauto.
Qed.

Lemma IsNewer_compared s t v w r q n b :
  madeFrom s v -> madeFrom t w -> semverOf s = Some r -> semverOf t = Some q ->
  IsNewer v w = Ok n -> comparedWith r t q b -> n = bool_decide (sv_Compare r b = Gt).
Proof.
  intros (Hv & _ & Hdv & Hpv) (_ & Hraw & Hdw & Hpw) Hr Hq. unfold IsNewer, checkConstraint, comparedWith.
  rewrite Hdv, Hdw, Hpv, Hpw, Hr, Hq, Hv, Hr, Hraw. cbn [orb].
  destruct (String.eqb_spec (sv_Prerelease r) "") as [Hp|Hp]; cbn [negb andb].
  - rewrite (so_greater _ q) by auto. rewrite (bool_decide_eq_false_2 (_ /\ _)) by tauto. by intros [= <-] ->.
  - destruct (String.eqb_spec (sv_Prerelease q) "") as [Hz|Hz]; cbn [negb].
    + rewrite (bool_decide_eq_true_2 (_ /\ _)) by done. intros Hn [Hb Hpb].
      rewrite (so_greater _ b) in Hn by auto. by injection Hn as <-.
    + rewrite (so_greater _ q) by auto. rewrite (bool_decide_eq_false_2 (_ /\ _)) by tauto. by intros [= <-] ->.
Qed.

Lemma GetStableVersion_Ok s v w r :
  madeFrom s v -> semverOf s = Some r -> GetStableVersion v = Ok w ->
  madeFrom (sv_Original (sv_Stable r)) w /\
  semverOf (sv_Original (sv_Stable r)) = Some (sv_Stable r).
Proof.
  intros (Hv & _) Hr. unfold GetStableVersion. rewrite Hv, Hr. intros [= <-].
  unfold madeFrom, semverOf. rewrite so_Original, so_Stable. done.
Qed.

(** What the versions of an upgrade that passes the check are to each other, when the new one
    is a semantic version: the old one is a semantic version too; it is the same, or not
    newer than the new one, not older than the minimum (which is empty or a semantic version)
    and, when a prerelease, one of the version that the new one is or is a prerelease of. *)
Definition properUpgrade (current target minimum : string) : Prop :=
  forall t, semverOf target = Some t ->
  exists c, semverOf current = Some c /\
    (sameVersion c t \/
     (forall b, comparedWith c target t b -> sv_Compare c b <> Gt) /\
     (TrimPrefix minimum "v" = "" \/
      exists m, semverOf minimum = Some m /\
        (sameVersion c m \/ forall b, comparedWith c minimum m b -> sv_Compare c b = Gt)) /\
     (sv_Prerelease c <> "" -> sv_Compare (sv_Stable c) (sv_Stable t) = Eq)).

Lemma bind_outcome_Ok {A B} (o : outcome A) (f : A -> outcome B) b :
  o ≫= f = Ok b -> exists a, o = Ok a /\ f a = Ok b.
Proof. destruct o; simpl; [eauto|done..]. Qed.

(** A prerelease version is upgraded within its release. *)
Lemma prerelease_sameStable sc st c t r q :
  madeFrom sc c -> madeFrom st t -> semverOf sc = Some r -> semverOf st = Some q ->
  (if hv_isPrerelease c then
     currentStableVersion ← GetStableVersion c;
     upgradeStableVersion ← GetStableVersion t;
     match IsEqual currentStableVersion upgradeStableVersion with
     | Ok true => Ok tt
     | Panic => Panic
     | _ => Err ErrPrereleaseCrossVersionUpgrade
     end
   else Ok tt) = Ok tt ->
  sv_Prerelease r <> "" -> sv_Compare (sv_Stable r) (sv_Stable q) = Eq.
Proof.
  intros Hc Ht Hr Hq H Hp.
  replace (hv_isPrerelease c) with true in H.
  2:{ destruct Hc as (_ & _ & _ & ->). rewrite Hr. by rewrite (proj2 (String.eqb_neq _ _)). }
  apply bind_outcome_Ok in H as (cs & Hcs & H). apply bind_outcome_Ok in H as (ts & Hts & H).
  destruct (GetStableVersion_Ok _ _ _ _ Hc Hr Hcs) as [Hc' Hr'].
  destruct (GetStableVersion_Ok _ _ _ _ Ht Hq Hts) as [Ht' Hq'].
  rewrite (IsEqual_true _ _ _ _ _ _ Hc' Ht' Hr' Hq') in H. case_bool_decide as He; [apply He|done].
Qed.

Lemma IsUpgradable_sound sc sm c m r :
  madeFrom sc c -> semverOf sc = Some r -> madeFrom sm m ->
  (isOlder ← IsOlder c m; if isOlder : bool then Err ErrMinUpgradeRequirement else Ok tt) = Ok tt ->
  exists m', semverOf sm = Some m' /\
    (sameVersion r m' \/ forall b, comparedWith r sm m' b -> sv_Compare r b = Gt).
Proof.
  intros Hc Hr Hm H. apply bind_outcome_Ok in H as (old & Hold & H). destruct old; [done|].
  unfold IsOlder in Hold. destruct (semverOf sm) as [m'|] eqn:Hm'.
  2:{ destruct Hm as (_ & _ & Hdm & _). rewrite Hm' in Hdm. by rewrite Hdm, orb_true_r in Hold. }
  exists m'. split; [done|]. destruct (_ || _); [done|].
  apply bind_outcome_Ok in Hold as (newer & Hn & Hold).
  rewrite (IsEqual_true sc sm c m r m') in Hold by done. injection Hold as Hold.
  destruct newer.
  - right. intros b Hb. pose proof (IsNewer_compared sc sm c m r m' true b Hc Hm Hr Hm' Hn Hb) as Hg.
    by case_bool_decide.
  - left. by case_bool_decide.
Qed.

Lemma CheckUpgradeEligibility_sound sc st sm c t m :
  madeFrom sc c -> madeFrom st t ->
  match m with Some m => madeFrom sm m | None => TrimPrefix sm "v" = "" end ->
  CheckUpgradeEligibility (mkHUV c t m) true = Ok tt -> properUpgrade sc st sm.
Proof.
  intros Hc Ht Hm. unfold CheckUpgradeEligibility. cbn [huv_current huv_upgrade]. intros H q Hq.
  assert (Hdt : hv_isDev t = false) by (destruct Ht as (_ & _ & -> & _); by rewrite Hq).
  rewrite Hdt in H. destruct (semverOf sc) as [r|] eqn:Hr.
  2:{ destruct Hc as (_ & _ & Hdc & _). rewrite Hr in Hdc. by rewrite Hdc in H. }
  assert (Hdc : hv_isDev c = false) by (destruct Hc as (_ & _ & -> & _); by rewrite Hr).
  rewrite Hdc, (IsEqual_true sc st c t r q) in H by done. exists r. split; [done|].
  cbn [mbind outcome_bind] in H. case_bool_decide as He; [by left|right].
  apply bind_outcome_Ok in H as ([] & Hup & H). apply bind_outcome_Ok in H as ([] & Hmin & H).
  split_and!.
  - intros b Hb. apply bind_outcome_Ok in Hup as (n & Hn & Hup).
    rewrite (IsNewer_compared sc st c t r q n b Hc Ht Hr Hq Hn Hb) in Hup. by case_bool_decide.
  - unfold IsUpgradable in Hmin. cbn [huv_minUpgradable huv_current] in Hmin.
    destruct m as [m|]; [|by left]. right.
    by apply (IsUpgradable_sound sc sm c m r).
  - by apply (prerelease_sameStable sc st c t r q).
Qed.

Context {UL : UpgradeLib}.

Lemma versionguard_sound u info :
  getCachedRepoInfo u = Ok info -> versionguard_Check u true "" = Ok tt ->
  properUpgrade (ust_PreviousVersion (up_status u)) (rel_Harvester (ri_Release info))
    (rel_MinUpgradableVersion (ri_Release info)).
Proof.
  intros Hi H. unfold versionguard_Check in H. rewrite Hi in H. cbn [mbind outcome_bind] in H.
  apply bind_outcome_Ok in H as (t & Ht%NewHarvesterVersion_Ok & H).
  apply bind_outcome_Ok in H as (c & Hc%NewHarvesterVersion_Ok & H).
  apply bind_outcome_Ok in H as (m & Hm & H). cbn [negb String.eqb] in Hm.
  eapply CheckUpgradeEligibility_sound; [exact Hc|exact Ht| |exact H].
  destruct (NewHarvesterVersion (rel_MinUpgradableVersion (ri_Release info))) as [v|e|] eqn:E;
    [injection Hm as <-; by apply NewHarvesterVersion_Ok| |done].
  destruct (errorsIs _ e); [|done]. injection Hm as <-. unfold NewHarvesterVersion in E.
  destruct (String.eqb_spec (TrimPrefix (rel_MinUpgradableVersion (ri_Release info)) "v") "") as [He|];
    [|done]. done.
Qed.

Definition properRegistry (registry : string) : Prop :=
  registry = "" \/ Contains registry "://" = false /\ HasSuffix registry "/" = false.

Lemma validateRegistry_Ok name r : validateRegistry name r = Ok tt -> properRegistry r.
Proof.
  unfold validateRegistry, properRegistry. destruct (String.eqb_spec r ""); [by left|].
  repeat case_match; try done. by right.
Qed.

(** A change of flavor: only to Prime, and to a newer release or, where that is allowed, to
    the same. *)
Definition properFlavors (currentFlavor targetFlavor current target : string) (allowSame : bool)
  : Prop :=
  isFlavor (flavorOr currentFlavor) = true /\ isFlavor (flavorOr targetFlavor) = true /\
  (flavorOr currentFlavor = ServerFlavorPrime -> flavorOr targetFlavor = ServerFlavorPrime) /\
  (flavorOr currentFlavor = ServerFlavorCommunity -> flavorOr targetFlavor = ServerFlavorPrime ->
   forall c t, semverOf current = Some c -> semverOf target = Some t ->
     sameVersion t c /\ allowSame = true \/
     forall b, comparedWith t current c b -> sv_Compare t b = Gt).

Lemma isDevVersion_dev s v : madeFrom s v -> isDevVersion v = hv_isDev v.
Proof.
  intros (Hv & _ & Hd & _). unfold isDevVersion, IsNewer, checkConstraint. rewrite Hd, Hv.
  destruct (semverOf s) as [r|]; [|done]. simpl. by destruct (sv_Check _ r).
Qed.

Lemma validateFlavorSwitchVersion_Ok current target allowSame c t :
  validateFlavorSwitchVersion current target allowSame = Ok tt ->
  semverOf current = Some c -> semverOf target = Some t ->
  sameVersion t c /\ allowSame = true \/
  forall b, comparedWith t current c b -> sv_Compare t b = Gt.
Proof.
  unfold validateFlavorSwitchVersion, wrapErr. intros H Hc Ht.
  destruct (NewHarvesterVersion target) as [vt| |] eqn:Et; [|done..].
  destruct (NewHarvesterVersion current) as [vc| |] eqn:Ec; [|done..].
  apply NewHarvesterVersion_Ok in Et, Ec. cbn [mbind outcome_bind] in H.
  assert (Hdt : hv_isDev vt = false) by (destruct Et as (_ & _ & -> & _); by rewrite Ht).
  assert (Hdc : hv_isDev vc = false) by (destruct Ec as (_ & _ & -> & _); by rewrite Hc).
  rewrite (isDevVersion_dev target vt), (isDevVersion_dev current vc), Hdt, Hdc in H by done.
  rewrite (IsEqual_true target current vt vc t c) in H by done. cbn [orb mbind outcome_bind] in H.
  case_bool_decide as He; [left; by destruct allowSame|]. right. intros b Hb.
  destruct (IsNewer vt vc) as [newer| |] eqn:Hn; [|done..].
  pose proof (IsNewer_compared target current vt vc t c newer b Et Ec Ht Hc Hn Hb) as ->.
  simpl in H. by case_bool_decide.
Qed.

Lemma validateUpgradeFlavor_Ok cf cv tf tv allowSame :
  validateUpgradeFlavor cf cv tf tv allowSame = Ok tt -> properFlavors cf tf cv tv allowSame.
Proof.
  unfold validateUpgradeFlavor, properFlavors.
  destruct (isFlavor (flavorOr cf)) eqn:Ec; [|done]. destruct (isFlavor (flavorOr tf)) eqn:Et; [|done].
  cbn [negb]. intros H. split_and!; [done|done| |].
  - intros Hp. rewrite Hp in H. unfold isFlavor in Et. apply orb_true_iff in Et as [Et|Et];
      apply String.eqb_eq in Et; [|done]. by rewrite Et in H.
  - intros Hcf Htf. rewrite Hcf, Htf in H. intros c t. by apply validateFlavorSwitchVersion_Ok.
Qed.
End Sound.

(** ** Properties *)

(** C9: An eligible upgrade is an upgrade.  When the check before the nodes are prepared finds
    an upgrade eligible, the release in its repository names registries without scheme and
    trailing slash, the flavor is known and never changes from Prime to community, and it
    changes to Prime between semantic versions only with a newer one (or the same, where that
    is allowed).  Unless the check of versions is skipped by annotation, an upgrade to a
    semantic version starts from a semantic version that is the same, or is not newer, meets
    the minimum version if there is one and, when it is a prerelease, belongs to the version
    upgraded to.  Where a prerelease is compared with a release, the release stands for the
    end of its prereleases, as the library has it.  Upgrades to versions that are not
    semantic ones are always let through by the check of versions. *)
Theorem eligible_upgrade_sound {SV : SemverLib} {SO : SemverOrder} {UL : UpgradeLib}
    flavor u allowSame reason :
  upgradeEligibilityCheck flavor u allowSame = Ok (true, reason) ->
  exists info, getCachedRepoInfo u = Ok info /\
    let rel := ri_Release info in
    let previous := ust_PreviousVersion (up_status u) in
    properRegistry (rel_RancherSystemDefaultRegistry rel) /\
    properRegistry (rel_HarvesterSystemDefaultRegistry rel) /\
    properFlavors flavor (rel_ServerFlavor rel) previous (rel_Harvester rel) allowSame /\
    (gm_get (up_Annotations u) skipVersionCheckAnnotation ≫= ParseBool <> Some true ->
     properUpgrade previous (rel_Harvester rel) (rel_MinUpgradableVersion rel)).
Proof.
  unfold upgradeEligibilityCheck. destruct (getCachedRepoInfo u) as [info| |] eqn:Hi; [|done..].
  intros H. exists info. split; [done|].
  destruct (validateUpgradeRepo _ _ _ _) as [[]| |] eqn:Hv; [|done..]. unfold validateUpgradeRepo in Hv.
  apply bind_outcome_Ok in Hv as ([] & Hr1%validateRegistry_Ok & Hv).
  apply bind_outcome_Ok in Hv as ([] & Hr2%validateRegistry_Ok & Hv%validateUpgradeFlavor_Ok).
  split_and!; [done..|]. intros Hs. rewrite bool_decide_eq_false_2 in H by done.
  destruct (versionguard_Check u true "") as [[]| |] eqn:Hg; [|done..].
  by apply versionguard_sound.
Qed.

(** ** Five versions *)
Module VersionDemo.
Inductive Ver := V18z | V18 | V19rc | V19z | V19.
#[export] Instance Ver_eq : EqDecision Ver.
Proof. solve_decision. Defined.
Definition rank (v : Ver) : Z :=
  match v with V18z => 0 | V18 => 1 | V19rc => 2 | V19z => 3 | V19 => 4 end.
Definition orig (v : Ver) : string :=
  match v with
  | V18z => "1.8.0-z" | V18 => "1.8.0" | V19rc => "1.9.0-rc1" | V19z => "1.9.0-z" | V19 => "1.9.0"
  end.
Definition parse (s : string) : option Ver :=
  List.find (fun v => String.eqb s (orig v)) [V18z; V18; V19rc; V19z; V19].
Definition pre (v : Ver) : string := match v with V19rc => "rc1" | V18z | V19z => "z" | _ => "" end.
Definition check (c : string) (v : Ver) : option bool :=
  let '(greater, raw) := if HasPrefix c "> " then (true, str_drop 2 c) else (false, c) in
  match parse (TrimPrefix raw "v") with
  | None => None
  | Some r => Some (if negb (String.eqb (pre v) "") && String.eqb (pre r) "" then false
                    else if greater : bool then Z.ltb (rank r) (rank v) else Z.eqb (rank v) (rank r))
  end.
#[export] Instance vers : SemverLib :=
  {| Semver := Ver; StrictNewVersion := parse; sv_Prerelease := pre;
     sv_Stable v := match v with V18z => V18 | V19rc | V19z => V19 | v => v end; sv_Original := orig;
     sv_Check := check |}.

Lemma check_equal raw r v :
  parse (TrimPrefix raw "v") = Some r ->
  check raw v = Some (if negb (String.eqb (pre v) "") && String.eqb (pre r) "" then false
                      else Z.eqb (rank v) (rank r)).
Proof.
  intros Hr. unfold check. destruct (HasPrefix raw "> ") eqn:E; [|by rewrite Hr].
  destruct raw as [|a raw]; [done|]. unfold HasPrefix in E. cbn [String.prefix] in E.
  destruct (Ascii.ascii_dec _ a) as [<-|]; [|done]. discriminate Hr.
Qed.

#[export] Instance versOrder : SemverOrder.
Proof.
  refine {| sv_Compare (v r : Semver) := Z.compare (rank v) (rank r) |}.
  - intros raw r v Hr Hp. simpl in Hr, Hp. transitivity (match parse (TrimPrefix raw "v") with
      | None => None
      | Some r => Some (if negb (String.eqb (pre v) "") && String.eqb (pre r) "" then false
                        else Z.ltb (rank r) (rank v)) end); [by destruct raw|].
    rewrite Hr. f_equal. destruct v, r; simpl in *; try reflexivity; by destruct Hp.
  - intros raw r v Hr Hp. simpl in *. rewrite (check_equal raw r v Hr). f_equal.
    destruct v, r; simpl in *; try reflexivity; by destruct Hp.
  - intros raw r v Hr Hp Hq. simpl in *. rewrite (check_equal raw r v Hr). by destruct v, r.
  - by intros [].
  - by intros [].
Defined.

Definition release : HarvesterRelease :=
  mkRelease "v1.9.0" "" "registry.example.com" "Harvester v1.9.0" "v1.34" "" "" "prime" "" "v1.8.0".
#[export] Instance lib : UpgradeLib :=
  {| yaml_load s := if String.eqb s "release" then Some (mkRepoInfo release) else None;
     yaml_marshal _ := Some "release"; yaml_release s := Some release; parseRFC3339 _ := None;
     IsRetriableNetworkError _ := false;
     SafeConcatName := Join "-"; requirementError _ := None;
     skipManifestScript := ""; imageCleanupScript := "" |}.
Definition upgrade (previous : string) : Upgrade :=
  mkUpgrade (meta0 "harvester-system" "up") "Upgrade" "harvesterhci.io/v1beta1"
    (mkUpgradeSpec "v1.9.0" "" true None)
    (mkUpgradeStatus previous "" "release" "" None [] "").
End VersionDemo.

Section Witnesses.
Import VersionDemo.

(** A community cluster at v1.9.0-rc1 may be upgraded to v1.9.0 and to Prime, with v1.8.0 the
    minimum; an unversioned build may not. *)
Lemma eligible_upgrade_sound_witness :
  (exists reason, upgradeEligibilityCheck "" (upgrade "master-head")
     false = Ok (false, reason)) /\
  exists info, getCachedRepoInfo (upgrade "v1.9.0-rc1") = Ok info /\
    comparedWith V19rc "v1.9.0" V19 V19z /\
    properUpgrade "v1.9.0-rc1" (rel_Harvester (ri_Release info)) (rel_MinUpgradableVersion (ri_Release info)).
Proof.
  split; [eexists; vm_compute; reflexivity|].
  destruct (eligible_upgrade_sound "" (upgrade "v1.9.0-rc1") false "")
    as (info & Hi & H).
  - vm_compute. reflexivity.
  - exists info. split; [exact Hi|]. split.
    + unfold comparedWith. rewrite bool_decide_eq_true_2 by by split; vm_compute.
      split; vm_compute; [reflexivity|discriminate].
    + apply H. vm_compute. discriminate.
Defined.
End Witnesses.
