(* ===== verification/UpgradeRepo.v ===== *)
(** The repository an upgrade installs from ([pkg/controller/master/upgrade/upgrade_repo.go]):
    an ISO image served over HTTP inside the cluster, what is read from it, and its removal.

    The web server is a part of the world ([in_http]); a request is a call like any other. *)

From Stdlib Require Import Ascii.
From S2P Require Import Prelude K8s NodeUtil ApiServer Upgrade UpgradeJobs UpgradeWorld.

Local Open Scope Z_scope.

Definition repoVMNamePrefix : string := "upgrade-repo-".
Definition repoServiceNamePrefix : string := "upgrade-repo-".
Definition currentVersion : string := "current".
Definition harvesterSystemNamespace : string := HarvesterSystemNamespaceName.

Definition imageRetainList : list string :=
  ["/harvester-upgrade:"; "longhornio/longhorn-engine"; "longhornio/longhorn-instance-manager";
   "rancher/mirrored-banzaicloud-fluentd"; "rancher/mirrored-fluent-fluent-bit"].

(** [nodeCache.List(labels.Everything())] *)
Definition nodeCache_List : Act (list Node) := cached (fun c => Ok (map o_val (c_nodes c))).

(** [bufio.Scanner] over lines: the last may lack its line end, a trailing carriage return
    is dropped, and a line that does not fit the buffer ends the scan with an error. *)
Definition newline : ascii := ascii_of_nat 10.
Definition carriageReturn : string := String (ascii_of_nat 13) "".
Definition maxLine : Z := 65535.

Definition dropCR (line : string) : string :=
  if HasSuffix line carriageReturn then String.substring 0 (String.length line - 1) line else line.

Fixpoint scanned (lines : list string) : list string * bool :=
  match lines with
  | [] => ([], false)
  | [EmptyString] => ([], false)
  | l :: lines =>
      if maxLine <? Z.of_nat (String.length l) then ([], true)
      else let '(ls, long) := scanned lines in (dropCR l :: ls, long)
  end.

(** [removeItemFromSlice]: the last element takes the place of the one removed. *)
Definition removeItemFromSlice (slice : list string) (i : nat) : list string :=
  take (length slice - 1) (<[i := default "" (last slice)]> slice).

Fixpoint findIndex (p : string -> bool) (l : list string) : option nat :=
  match l with
  | [] => None
  | x :: l => if p x then Some O else S <$> findIndex p l
  end.

Definition applyImageRetainList (imageList : list string) : list string :=
  foldl (fun imageList retainedImage =>
           match findIndex (fun image => Contains image retainedImage) imageList with
           | Some i => removeItemFromSlice imageList i
           | None => imageList
           end) imageList imageRetainList.

(** The keys of one map that are not in the other, in the order of the map, which the
    language leaves open. *)
Definition difference (setA setB : gset string) : list string := elements (setA ∖ setB).

Section Repo.
Context {UL : UpgradeLib}.
Context (upgrade : Upgrade).

Definition getVMName : string := repoVMNamePrefix +:+ up_Name upgrade.
Definition GetVMNamespace : string := upgradeNamespace.
Definition GetDeploymentName : string := repoServiceNamePrefix +:+ up_Name upgrade.
Definition getRepoServiceName : string := repoServiceNamePrefix +:+ up_Name upgrade.
Definition getISODisplayNameImageName (upgradeName version : string) : string :=
  upgradeName +:+ "-" +:+ version.

Definition repoLabels : gomap string :=
  Some {[ harvesterUpgradeLabel := up_Name upgrade;
          harvesterUpgradeComponentLabel := upgradeComponentRepo ]}.

(** [util.GetUpgradeImage]: the image is named by its namespace and name. *)
Definition GetImage (imageName : string) : Act (Obj VMImage) :=
  match Split "/"%char imageName with
  | [ns; name] => vmImageCache_Get ns name
  | _ => throw (ErrText ("invalid image format name: " +:+ imageName))
  end.

Definition isoImage (isoURL checksum : string) : VMImage :=
  mkVMImage
    (mkMeta (up_Name upgrade) "" harvesterSystemNamespace ""
       (Some {[ harvesterUpgradeLabel := up_Name upgrade ]})
       (Some {[ AnnotationUpgradeImage := "True" ]}) [upgradeReference upgrade] 0 None)
    (mkImageSpec (getISODisplayNameImageName (up_Name upgrade) (us_Version (up_spec upgrade)))
       "download" isoURL checksum 3 StorageClassLonghornStatic "cdi") [].

Definition CreateImageFromISO (isoURL checksum : string) : Act (Obj VMImage) :=
  storeCreate (harvesterSystemNamespace, up_Name upgrade) (isoImage isoURL checksum).

(** ** Setting it up *)

Definition getDeploymentReplicaCount : Act Z :=
  nodes ← mapErr (ErrWrap "failed to list nodes") nodeCache_List;
  match ExcludeWitnessNodes nodes with
  | [] => throw (ErrText "no non-witness nodes found in the cluster")
  | [_] => mret 1
  | _ => mret 2
  end.

Definition nginxScript : string :=
  Join (String newline "")
    ["echo " +:+ dquote +:+ "Mounting ISO and starting Nginx..." +:+ dquote;
     "mkdir -p /srv/www/htdocs/harvester-iso";
     "mount -o loop,ro /iso/disk.img /srv/www/htdocs/harvester-iso";
     "echo " +:+ dquote +:+ "iso mounted successfully to /srv/www/htdocs/harvester-iso" +:+ dquote;
     "nginx -g " +:+ dquote +:+ "daemon off;" +:+ dquote].

Definition repoDeployment (replicas : Z) (vmImage : VMImage) : Deployment :=
  mkDeployment
    (mkMeta GetDeploymentName "" upgradeNamespace "" repoLabels None
       [upgradeReference upgrade] 0 None)
    (Some (mkDeploymentSpec replicas repoLabels repoLabels
       (100, repoLabels, "kubernetes.io/hostname")
       (mkRepoContainer "nginx-iso-server" (GetPreviousUpgradeImage upgrade) "IfNotPresent"
          ["sh"; "-c"] [nginxScript] 80 true [("iso", "/iso")]
          ["sh"; "-c"; "cat /srv/www/htdocs/harvester-iso/harvester-release.yaml 2>&1 /dev/null"]
          ("/harvester-iso/harvester-release.yaml", 80, "HTTP")
          "/dev/termination-log" "File")
       "ClusterFirst" [("iso", om_Name (img_meta vmImage))])) [].

Definition CreateDeployment (vmImage : VMImage) : Act Deployment :=
  replicas ← getDeploymentReplicaCount;
  mapCreate (upgradeNamespace, GetDeploymentName) (repoDeployment replicas vmImage).

Definition repoService : Service :=
  mkService
    (mkMeta getRepoServiceName "" upgradeNamespace ""
       (Some {[ LabelVMCreator := "harvester"; harvesterUpgradeLabel := up_Name upgrade;
                harvesterUpgradeComponentLabel := upgradeComponentRepo ]}) None
       [upgradeReference upgrade] 0 None)
    repoLabels [("TCP", 80, 80)].

Definition createService : Act Service :=
  mapCreate (upgradeNamespace, getRepoServiceName) repoService.

Definition Bootstrap : Act unit :=
  let image := ust_ImageID (up_status upgrade) in
  if String.eqb image "" then throw (ErrText "upgrade repo image is not provided")
  else
    upgradeImage ← GetImage image;
    CreateDeployment (o_val upgradeImage);;
    createService;;
    mret tt.

(** ** Reading from it *)

Definition httpGet (url : string) : Act (Z * string * string * option goerror) :=
  readCall (fun w => match in_http (w_infra w) url with
                     | HttpError e => Err e
                     | HttpResponse code status body e => Ok (code, status, body, e)
                     end).

Definition repoURL (path : string) : string :=
  "http://" +:+ getRepoServiceName +:+ "." +:+ upgradeNamespace +:+ path.

Definition unexpectedStatus (status : string) : goerror :=
  ErrText ("unexpected status: " +:+ status).

Definition getInfo : Act RepoInfo :=
  '(code, status, body, bodyError) ← httpGet (repoURL "/harvester-iso/harvester-release.yaml");
  if negb (code =? 200) then throw (unexpectedStatus status)
  else
    match bodyError with
    | Some e => throw e
    | None => match yaml_release body with
              | Some release => mret (mkRepoInfo release)
              | None => throw (ErrText "yaml: unmarshal errors")
              end
    end.

(** The list is filled as far as the body was read, also when it breaks off. *)
Definition getImageList (version : string) (imageList : gset string)
  : Act (gset string * option goerror) :=
  r ← try (httpGet (repoURL ("/harvester-iso/bundle/harvester/images-lists-archive/" +:+ version
                             +:+ "/image_list_all.txt")));
  mret match r with
       | inr e => (imageList, Some e)
       | inl (code, status, body, bodyError) =>
           if negb (code =? 200) then (imageList, Some (unexpectedStatus status))
           else
             let '(lines, tooLong) := scanned (Split newline body) in
             (list_to_set lines ∪ imageList,
              if tooLong : bool then Some (ErrText "bufio.Scanner: token too long") else bodyError)
       end.

(** [retry.OnError] around the two requests, which add to the same two maps in every
    attempt; interrupted, it ends with the last retriable error, or with the maps as they
    are when there was none. *)
Fixpoint fetchImageLists (steps : nat) (previous current : gset string)
    (lastErr : option goerror) : Act (gset string * gset string) :=
  let interrupted previous current :=
    match lastErr with
    | Some e => throw e
    | None => mret (previous, current)
    end in
  match steps with
  | O => interrupted previous current
  | S steps =>
      '(previous, err) ← getImageList (ust_PreviousVersion (up_status upgrade)) previous;
      match err with
      | Some e =>
          if IsRetriableNetworkError e then fetchImageLists steps previous current (Some e)
          else if Interrupted e then interrupted previous current else throw e
      | None =>
          '(current, err) ← getImageList currentVersion current;
          match err with
          | Some e =>
              if IsRetriableNetworkError e then fetchImageLists steps previous current (Some e)
              else if Interrupted e then interrupted previous current else throw e
          | None => mret (previous, current)
          end
      end
  end.

Definition repoRetrySteps : nat := 30.

Definition getImagesDiffList : Act (list string) :=
  '(previousImageList, currentImageList) ←
    fetchImageLists repoRetrySteps ∅ ∅ None;
  mret (applyImageRetainList (difference previousImageList currentImageList)).

(** ** Removing it *)

Definition image_set_Owners (owners : list OwnerReference) (i : VMImage) : VMImage :=
  let m := img_meta i in
  mkVMImage (mkMeta (om_Name m) (om_GenerateName m) (om_Namespace m) (om_UID m) (om_Labels m)
               (om_Annotations m) owners (om_CreationTimestamp m) (om_DeletionTimestamp m))
    (img_Spec i) (img_Conditions i).

Definition imageKey (i : VMImage) : string * string :=
  (om_Namespace (img_meta i), om_Name (img_meta i)).

Definition vmImageClient_Update (o : Obj VMImage) : Act (Obj VMImage) :=
  storeUpdate (imageKey (o_val o)) o.

Definition pvcClient_Get (ns name : string) : Act PVC :=
  readCall (fun w => match in_pvcs (w_infra w) !! (ns, name) with
                     | Some p => Ok p
                     | None => Err (ApiNotFound "not found")
                     end).

Definition deleteImage (pvcName : string) : Act unit :=
  let imageID := ust_ImageID (up_status upgrade) in
  if String.eqb imageID "" then mret tt
  else
    r ← try (GetImage imageID);
    match r with
    | inr e => if IsNotFound e then mret tt else throw e
    | inl image =>
        if String.eqb pvcName "" then storeDelete (A := VMImage) (imageKey (o_val image))
        else
          r ← try (pvcClient_Get upgradeNamespace pvcName);
          match r with
          | inr e => if IsNotFound e then storeDelete (A := VMImage) (imageKey (o_val image))
                     else throw e
          | inl pvc =>
              vmImageClient_Update (mkObj (o_rv image) (image_set_Owners
                [mkOwner (pvc_APIVersion pvc) (pvc_Kind pvc) (om_Name (pvc_meta pvc))
                   (om_UID (pvc_meta pvc))] (o_val image)));;
              mret tt
          end
    end.

(** [err != nil && !IsNotFound(err)] is passed on with a text around it. *)
Definition unlessNotFound (msg : string) (m : Act unit) : Act unit :=
  r ← try m;
  match r with
  | inl _ => mret tt
  | inr e => if IsNotFound e then mret tt else throw (ErrWrap msg e)
  end.

(** The text of an error of the cache is made from the nil machine it comes with. *)
Definition deleteVM : Act unit :=
  r ← try (vmCache_Get upgradeNamespace getVMName);
  match r with
  | inr e => if IsNotFound e then deleteImage "" else lift Panic
  | inl vm =>
      let k := (om_Namespace (rvm_meta vm), om_Name (rvm_meta vm)) in
      match gm_get (om_Annotations (rvm_meta vm)) RemovedPVCsAnnotationKey with
      | Some pvcName => deleteImage pvcName
      | None => mret tt
      end;;
      unlessNotFound ("failed to delete repo vm " +:+ k.1 +:+ "/" +:+ k.2 +:+ " error")
        (mapDelete (A := RepoVM) k)
  end.

Definition deleteDeployment : Act unit :=
  unlessNotFound ("failed to delete deployment " +:+ GetVMNamespace +:+ "/" +:+ GetDeploymentName
                  +:+ " error")
    (mapDelete (A := Deployment) (GetVMNamespace, GetDeploymentName)).

Definition deleteService : Act unit :=
  unlessNotFound ("failed to delete service " +:+ upgradeNamespace +:+ "/" +:+ getRepoServiceName
                  +:+ " error")
    (mapDelete (A := Service) (upgradeNamespace, getRepoServiceName)).

Definition deleteStorageClass : Act unit :=
  unlessNotFound ("failed to delete storage class " +:+ up_Name upgrade +:+ " error")
    (mapDelete (A := unit) (up_Name upgrade)).

Definition Repo_Cleanup : Act unit :=
  deleteVM;;
  deleteDeployment;;
  deleteService;;
  deleteStorageClass.
End Repo.
