(* ===== verification/UpgradeController.v ===== *)
(** The handler of the Upgrade resource ([pkg/controller/master/upgrade/upgrade_controller.go]):
    it starts each phase of an upgrade once the one before is done (logging, image,
    repository, nodes, system services, Kubernetes on the nodes), and cleans up after it. *)

From S2P Require Import Prelude K8s NodeUtil Addon ApiServer Upgrade UpgradeJobs UpgradeWorld.
From S2P Require Import UpgradeNodes UpgradeVersion UpgradeRepo.

Local Open Scope Z_scope.

Definition manifestsToSkip : list string := ["rke2-multus.yaml"].
Definition DefaultUpgradeLogReadyTimeout : Z := 5 * minute.
Definition MinUpgradeLogReadyTimeout : Z := 1 * minute.
Definition MaxUpgradeLogReadyTimeout : Z := 20 * minute.
Definition SkipType : string := "skip".
Definition SequentialType : string := "sequential".
Definition ParallelType : string := "parallel".
Definition targetManagedcharts : list string :=
  ["harvester-crd"; HarvesterManagedChart; "rancher-logging-crd"; "rancher-monitoring-crd"].

(** ** Writes on the upgrade *)

Definition up_set_UpgradeLog (name : string) (u : Upgrade) : Upgrade :=
  let s := up_status u in
  up_set_status (mkUpgradeStatus (ust_PreviousVersion s) (ust_ImageID s) (ust_RepoInfo s)
    (ust_SingleNode s) (ust_NodeStatuses s) (ust_Conditions s) name) u.
Definition up_set_PreviousVersion (v : string) (u : Upgrade) : Upgrade :=
  let s := up_status u in
  up_set_status (mkUpgradeStatus v (ust_ImageID s) (ust_RepoInfo s)
    (ust_SingleNode s) (ust_NodeStatuses s) (ust_Conditions s) (ust_UpgradeLog s)) u.
Definition up_set_ImageID (v : string) (u : Upgrade) : Upgrade :=
  let s := up_status u in
  up_set_status (mkUpgradeStatus (ust_PreviousVersion s) v (ust_RepoInfo s)
    (ust_SingleNode s) (ust_NodeStatuses s) (ust_Conditions s) (ust_UpgradeLog s)) u.
Definition up_set_RepoInfo (v : string) (u : Upgrade) : Upgrade :=
  let s := up_status u in
  up_set_status (mkUpgradeStatus (ust_PreviousVersion s) (ust_ImageID s) v
    (ust_SingleNode s) (ust_NodeStatuses s) (ust_Conditions s) (ust_UpgradeLog s)) u.
Definition up_set_SingleNode (v : string) (u : Upgrade) : Upgrade :=
  let s := up_status u in
  up_set_status (mkUpgradeStatus (ust_PreviousVersion s) (ust_ImageID s) (ust_RepoInfo s)
    v (ust_NodeStatuses s) (ust_Conditions s) (ust_UpgradeLog s)) u.
Definition up_annotate (k v : string) (u : Upgrade) : Upgrade :=
  up_set_Annotations (gm_set (up_Annotations u) k v) u.

(** [upgrade.Labels[upgradeStateLabel] = state], on a map that may be nil. *)
Definition storeState (state : string) (u : Upgrade) : outcome Upgrade :=
  labels ← gm_store (up_Labels u) upgradeStateLabel state;
  Ok (up_set_Labels labels u).

(** ** Values of a chart ([pkg/util/values.go]) *)

Fixpoint vget (m : list (string * Value)) (k : string) : option Value :=
  match m with
  | [] => None
  | (k', v) :: m => if String.eqb k' k then Some v else vget m k
  end.
Fixpoint vput (m : list (string * Value)) (k : string) (v : Value) : list (string * Value) :=
  match m with
  | [] => [(k, v)]
  | (k', v') :: m => if String.eqb k' k then (k, v) :: m else (k', v') :: vput m k v
  end.
Definition vdelete (m : list (string * Value)) (k : string) : list (string * Value) :=
  List.filter (fun '(k', _) => negb (String.eqb k' k)) m.

(** A step through something that is not a map finds an empty one. *)
Fixpoint GetValue (data : list (string * Value)) (keys : list string) : option Value :=
  match keys with
  | [] => None
  | [k] => vget data k
  | k :: keys => GetValue (match vget data k with Some (VMap m) => m | _ => [] end) keys
  end.

(** Maps on the way are made as needed; a value on the way that is not a map ends the call. *)
Fixpoint PutValue (data : list (string * Value)) (val : Value) (keys : list string)
  : list (string * Value) :=
  match keys with
  | [] => data
  | [k] => vput data k val
  | k :: keys =>
      match vget data k with
      | Some (VMap m) => vput data k (VMap (PutValue m val keys))
      | Some _ => data
      | None => vput data k (VMap (PutValue [] val keys))
      end
  end.

(** Removes the last key from the map the others lead to, if they do. *)
Fixpoint deleteValue (data : list (string * Value)) (keys : list string)
  : list (string * Value) :=
  match keys with
  | [] => data
  | [k] => vdelete data k
  | k :: keys =>
      match vget data k with
      | Some (VMap m) => vput data k (VMap (deleteValue m keys))
      | _ => data
      end
  end.

Definition workloadUpdateKeys : list string :=
  ["kubevirt"; "spec"; "workloadUpdateStrategy"; "workloadUpdateMethods"].

(** The values after the restoration, and whether there was something to do. *)
Definition restoreKubevirtWorkloadUpdateMethodsInValues `{!JsonCodec Value}
    (values : option (option (list (string * Value)))) (backupJSON : string) (hasAnnotation : bool)
  : outcome (option (option (list (string * Value))) * bool) :=
  match values with
  | Some (Some data) =>
      let exists_ := bool_decide (is_Some (GetValue data workloadUpdateKeys)) in
      if negb hasAnnotation then
        if negb exists_ then Ok (values, false)
        else Ok (Some (Some (PutValue data (VList [VString "LiveMigrate"]) workloadUpdateKeys)),
                 true)
      else if String.eqb backupJSON "null" then
        if negb exists_ then Ok (values, false)
        else Ok (Some (Some (deleteValue data workloadUpdateKeys)), true)
      else
        match json_unmarshal backupJSON with
        | None => Err (ErrText ("failed to unmarshal kubevirt workload update methods backup "
                                +:+ quoted backupJSON))
        | Some backupValue => Ok (Some (Some (PutValue data backupValue workloadUpdateKeys)), true)
        end
  | _ => Ok (values, false)
  end.

Definition mc_set_Paused (p : bool) (m : ManagedChart) : ManagedChart :=
  mkManagedChart (mc_meta m) p (mc_Values m).
Definition mc_set_Values (v : option (option (list (string * Value)))) (m : ManagedChart)
  : ManagedChart := mkManagedChart (mc_meta m) (mc_Paused m) v.

(** ** Rancher's cluster *)

Definition drainOptions0 : DrainOptions := mkDrainOptions false false None false [] [] "".
Definition strategy0 : UpgradeStrategy := mkStrategy "" drainOptions0 "" drainOptions0.
Definition rkeConfig0 : RKEConfig := mkRKEConfig 0 None strategy0 "".

Definition updateDrainHooks (hooks : list string) (annotation : string) : list string :=
  if existsb (fun hook => String.eqb hook annotation) hooks then hooks else hooks ++ [annotation].

Definition withHooks (o : DrainOptions) : DrainOptions :=
  mkDrainOptions true true (Some true) true
    (updateDrainHooks (do_PreDrainHooks o) preDrainAnnotation)
    (updateDrainHooks (do_PostDrainHooks o) postDrainAnnotation) (do_rest o).

Definition kubernetesUpgraded (kubernetesVersion : string) (cluster : Cluster) : Cluster :=
  let rke := default rkeConfig0 (cl_RKEConfig cluster) in
  let s := rke_UpgradeStrategy rke in
  mkCluster (cl_meta cluster) kubernetesVersion
    (Some (mkRKEConfig (rke_ProvisionGeneration rke + 1) (rke_Registries rke)
       (mkStrategy "1" (withHooks (ust_ControlPlaneDrainOptions s)) "1"
          (withHooks (ust_WorkerDrainOptions s))) (rke_rest rke))).

Definition clusterKey (c : Cluster) : string * string :=
  (om_Namespace (cl_meta c), om_Name (cl_meta c)).

Definition upgradeKubernetes (kubernetesVersion : string) : Act unit :=
  cluster ← mapErr (ErrWrap "failed to get fleet-local/local cluster from cache")
              (clusterCache_Get "fleet-local" "local");
  mapErr (ErrWrap ("failed to update fleet-local/local cluster to kubernetes version "
                   +:+ kubernetesVersion))
    (storeUpdate (clusterKey (o_val cluster))
       (mkObj (o_rv cluster) (kubernetesUpgraded kubernetesVersion (o_val cluster))));;
  mret tt.

(** A configuration reset but for its generation and registries; none to start with is a
    nil dereference. *)
Definition resetRKEConfig (cluster : Cluster) : outcome Cluster :=
  match cl_RKEConfig cluster with
  | None => Panic
  | Some rke =>
      Ok (mkCluster (cl_meta cluster) (cl_KubernetesVersion cluster)
            (Some (mkRKEConfig (rke_ProvisionGeneration rke) (rke_Registries rke) strategy0 "")))
  end.

Section Controller.
Context {UL : UpgradeLib} {SV : SemverLib}.
Context `{!JsonCodec (gomap string)} `{!JsonCodec UpgradeConfig} `{!JsonCodec Value} (P : Proc).
Abbreviation now := (pr_now P) (only parsing).

(** [h.upgradeClient.Update(toUpdate)] of a version of [o]. *)
Definition updateFrom (o : Obj Upgrade) (toUpdate : Upgrade) : Act (Obj Upgrade) :=
  upgradeClient_Update (mkObj (o_rv o) toUpdate).

(** The upgrade is marked failed for a reason, and stored. *)
Definition failUpgrade (o : Obj Upgrade) (toUpdate : Upgrade) (reason : string) : Act unit :=
  u ← lift (setUpgradeCompletedCondition now StateFailed ConditionFalse reason "" toUpdate);
  updateFrom o u;;
  mret tt.

(** ** Starting *)

Definition resetOne (latestUpgradeName : string) (o : Obj Upgrade) : Act unit :=
  if String.eqb (up_Name (o_val o)) latestUpgradeName then mret tt
  else updateFrom o (up_set_Labels (gm_delete (up_Labels (o_val o)) harvesterLatestUpgradeLabel)
                       (o_val o));;
       mret tt.
Fixpoint resetAll (latestUpgradeName : string) (l : list (Obj Upgrade)) : Act unit :=
  match l with
  | [] => mret tt
  | o :: l => resetOne latestUpgradeName o;; resetAll latestUpgradeName l
  end.
Definition resetLatestUpgradeLabel (latestUpgradeName : string) : Act unit :=
  upgrades ← upgradeCache_List P;
  resetAll latestUpgradeName upgrades.

Definition initStatus (upgrade : Upgrade) : Upgrade :=
  let u := createUnknown now UpgradeCompleted upgrade in
  let u := setLabel harvesterLatestUpgradeLabel "true"
             (setLabel upgradeStateLabel StatePreparingLoggingInfra u) in
  let u := up_set_PreviousVersion (pr_ServerVersion P) u in
  up_annotate AnnotationPreviousUpgradeImage
    (GetHarvesterUpgradeImage (pr_HarvesterSystemDefaultRegistry P) (pr_ServerVersion P)) u.

Definition prepareUpgradeLog (upgrade : Upgrade) : UpgradeLog :=
  mkUpgradeLog
    (mkMeta (SafeConcatName [up_Name upgrade; "upgradelog"]) "" upgradeNamespace ""
       (Some {[ harvesterUpgradeLabel := up_Name upgrade ]}) None [upgradeReference upgrade] 0 None)
    (up_Name upgrade) [].

Definition ulKey (l : UpgradeLog) : string * string :=
  (om_Namespace (ul_meta l), om_Name (ul_meta l)).

(** A log that is there already comes back as an empty object. *)
Definition initUpgrade (o : Obj Upgrade) : Act unit :=
  let upgrade := o_val o in
  resetLatestUpgradeLabel (up_Name upgrade);;
  let toUpdate := initStatus upgrade in
  if negb (us_LogEnabled (up_spec upgrade)) then
    updateFrom o (setLabel upgradeStateLabel StateLoggingInfraPrepared
      (setLogReadyCondition now ConditionFalse "Disabled"
         "Upgrade observability is administratively disabled" toUpdate));;
    mret tt
  else
    r ← try (storeCreate (ulKey (prepareUpgradeLog upgrade)) (prepareUpgradeLog upgrade));
    let toUpdate :=
      match r with
      | inl log => up_set_UpgradeLog (om_Name (ul_meta (o_val log))) toUpdate
      | inr e =>
          if IsAlreadyExists e then up_set_UpgradeLog "" toUpdate
          else setLogReadyCondition now ConditionFalse (error_Error e) "" toUpdate
      end in
    let toUpdate := createUnknown now LogReady toUpdate in
    updateFrom o (up_set_Conditions (Cond.setTS now (up_Conditions toUpdate) LogReady) toUpdate);;
    mret tt.

Definition ul_setCond (name status reason message : string) (l : UpgradeLog) : UpgradeLog :=
  mkUpgradeLog (ul_meta l) (ul_UpgradeName l)
    (Cond.setMessage now message
       (Cond.setReason reason (Cond.setStatus now status (ul_Conditions l) name) name) name).

(** The timeout in nanoseconds, kept at 64 bits. *)
Definition logReadyTimeout (timeout : Z) (timeoutStr : string) : Z :=
  let timeoutDuration := int64 (timeout * minute) in
  if String.eqb timeoutStr "" || (timeoutDuration <? MinUpgradeLogReadyTimeout)
     || (MaxUpgradeLogReadyTimeout <? timeoutDuration)
  then DefaultUpgradeLogReadyTimeout else timeoutDuration.

Definition checkLogReadyCondition (o : Obj Upgrade) : Act unit :=
  let upgrade := o_val o in
  upgradeConfig ← lift (DecodeUpgradeConfig (pr_UpgradeConfigSet P));
  let timeoutStr := uc_LogReadyTimeout upgradeConfig in
  match Atoi timeoutStr with
  | None => throw (ErrText ("invalid value for image preload timeout: " +:+ timeoutStr))
  | Some timeout =>
      match parseRFC3339 (Cond.getTS (up_Conditions upgrade) LogReady) with
      | None => mret tt
      | Some t =>
          if logReadyTimeout timeout timeoutStr <=? timeSub (pr_clock P) t then
            let message := "Timed out creating upgrade logging infrastructure" in
            let fail reason msg :=
              u ← lift (setUpgradeCompletedCondition now StateFailed ConditionFalse "Timeout"
                          message (setLogReadyCondition now ConditionFalse reason msg upgrade));
              updateFrom o u;;
              mret tt in
            r ← try (upgradeLogCache_Get HarvesterSystemNamespaceName
                       (ust_UpgradeLog (up_status upgrade)));
            match r with
            | inr _ => fail "UpgradeLogGetFailed" "Failed to get upgrade log"
            | inl log =>
                mapErr (fun e => ErrText ("Failed to update upgradeLog: " +:+ error_Error e))
                  (storeUpdate (ulKey (o_val log)) (mkObj (o_rv log)
                     (ul_setCond InfraReady ConditionFalse "Timeout" message (o_val log))));;
                fail "Timeout" message
            end
          else
            enqueueAfter "upgrade" (NamespacedName (up_Namespace upgrade) (up_Name upgrade)) 5
      end
  end.

(** ** The image and the repository *)

Definition imageID (o : Obj VMImage) : string :=
  om_Namespace (img_meta (o_val o)) +:+ "/" +:+ om_Name (img_meta (o_val o)).

Definition image_set_Labels (l : gomap string) (i : VMImage) : VMImage :=
  mkVMImage (set_Labels l (img_meta i)) (img_Spec i) (img_Conditions i).

Definition imageFromVersion (upgrade : Upgrade) : Act (Obj VMImage) :=
  version ← versionCache_Get (pr_namespace P) (us_Version (up_spec upgrade));
  r ← try (CreateImageFromISO upgrade (ver_ISOURL version) (ver_ISOChecksum version));
  match r with
  | inl image => mret image
  | inr e => if IsAlreadyExists e
             then storeGet (A := VMImage) (harvesterSystemNamespace, up_Name upgrade)
             else throw e
  end.

Definition createRepoImage (o : Obj Upgrade) : Act unit :=
  let upgrade := o_val o in
  let finish image :=
    updateFrom o (createUnknown now ImageReady (up_set_ImageID (imageID image) upgrade));;
    mret tt in
  if String.eqb (us_Image (up_spec upgrade)) "" then
    r ← try (imageFromVersion upgrade);
    match r with
    | inr e => failUpgrade o upgrade (error_Error e)
    | inl image => finish image
    end
  else
    r ← try (GetImage (us_Image (up_spec upgrade)));
    match r with
    | inr e => failUpgrade o upgrade (error_Error e)
    | inl image =>
        vmImageClient_Update (mkObj (o_rv image) (image_set_Labels
          (gm_set (om_Labels (img_meta (o_val image))) harvesterUpgradeLabel (up_Name upgrade))
          (o_val image)));;
        finish image
    end.

Definition startRepo (o : Obj Upgrade) : Act unit :=
  let upgrade := o_val o in
  r ← try (Bootstrap upgrade);
  let proceed :=
    u ← lift (storeState StatePreparingRepo upgrade);
    updateFrom o (createUnknown now RepoProvisioned u);;
    mret tt in
  match r with
  | inl _ => proceed
  | inr e => if IsAlreadyExists e then proceed else failUpgrade o upgrade (error_Error e)
  end.

(** ** The nodes *)

Definition isSingleNodeCluster : Act string :=
  nodes ← nodeCache_List;
  mret match nodes with [n] => node_Name n | _ => "" end.

Definition allowsSameVersionFlavorSwitch (upgrade : Upgrade) : Act bool :=
  let spec := up_spec upgrade in
  if negb (String.eqb (us_Image spec) "") || String.eqb (us_Version spec) "" then mret false
  else
    r ← try (versionCache_Get (pr_namespace P) (us_Version spec));
    mret match r with
         | inr _ => false
         | inl version =>
             bool_decide (ParseBool (gm_str (om_Annotations (ver_meta version))
                                       allowSameVersionFlavorSwitchAnnotation) = Some true)
         end.

(** How many nodes preload images at once. *)
Definition preloadConcurrency (c : UpgradeConfig) (nodes : nat) : outcome Z :=
  let strategy := uc_Preload c in
  if String.eqb (pls_Type strategy) SequentialType then Ok defaultImagePreloadConcurrency
  else if String.eqb (pls_Type strategy) ParallelType then
    let n := pls_Concurrency strategy in
    if n <? 0 then Err (ErrText ("invalid image preload strategy concurrency: " +:+ Itoa n))
    else if (n =? 0) || (Z.of_nat nodes <? n) then Ok (Z.of_nat nodes)
    else Ok n
  else Err (ErrText ("invalid image preload strategy type: " +:+ pls_Type strategy)).

Definition planKey (p : Plan) : string * string :=
  (om_Namespace (plan_meta p), om_Name (plan_meta p)).

(** [toUpdate] is the upgrade with what was found out so far. *)
Definition prepareNodesForUpgrade (o : Obj Upgrade) (toUpdate : Upgrade) (repoInfoStr : string)
  : Act unit :=
  upgradeConfig ← lift (DecodeUpgradeConfig (pr_UpgradeConfigSet P));
  nodes ← nodeCache_List;
  if String.eqb (pls_Type (uc_Preload upgradeConfig)) SkipType then
    let u := foldl (fun u n => setNodeUpgradeStatus now (node_Name n) nodeStateImagesPreloaded "" ""
                                 u) toUpdate nodes in
    u ← lift (storeState StatePreparingNodes u);
    updateFrom o (setNodesPreparedCondition now ConditionTrue "" ""
                    (up_set_RepoInfo repoInfoStr u));;
    mret tt
  else
    imagePreloadConcurrency ← lift (preloadConcurrency upgradeConfig (length nodes));
    let plan := preparePlan toUpdate imagePreloadConcurrency in
    r ← try (mapCreate (planKey plan) plan);
    let proceed :=
      u ← lift (storeState StatePreparingNodes toUpdate);
      updateFrom o (createUnknown now NodesPrepared (up_set_RepoInfo repoInfoStr u));;
      mret tt in
    match r with
    | inl _ => proceed
    | inr e => if IsAlreadyExists e then proceed else failUpgrade o toUpdate (error_Error e)
    end.

Definition prepareNodes (o : Obj Upgrade) : Act unit :=
  let upgrade := o_val o in
  singleNode ← isSingleNodeCluster;
  let toUpdate := up_set_SingleNode singleNode upgrade in
  r ← try (OnError repoRetrySteps IsRetriableNetworkError None
             (info ← getInfo upgrade; mret (Some info)));
  match r with
  | inr e => failUpgrade o toUpdate (error_Error e)
  | inl repoInfo =>
      match yaml_marshal repoInfo with
      | None => failUpgrade o toUpdate "yaml: marshal error"
      | Some repoInfoStr =>
          let toUpdate := up_set_RepoInfo repoInfoStr toUpdate in
          allow ← allowsSameVersionFlavorSwitch toUpdate;
          '(isEligible, reason) ←
            lift (upgradeEligibilityCheck (pr_ServerFlavor P) toUpdate allow);
          if negb isEligible then failUpgrade o toUpdate reason
          else prepareNodesForUpgrade o toUpdate repoInfoStr
      end
  end.

(** ** The system services *)

Definition startSystemServices (o : Obj Upgrade) : Act unit :=
  let upgrade := o_val o in
  match getCachedRepoInfo upgrade with
  | Panic => lift Panic
  | Err e => failUpgrade o upgrade (error_Error e)
  | Ok repoInfo =>
      r ← try (jobClient_Create (applyManifestsJob upgrade repoInfo));
      match r with
      | inl _ => mret tt
      | inr e => if IsAlreadyExists e then mret tt
                 else throw (ErrWrap "failed to create apply-manifests job" e)
      end;;
      u ← lift (storeState StateUpgradingSystemServices upgrade);
      updateFrom o (setHelmChartUpgradeStatus now ConditionUnknown "" "" u);;
      mret tt
  end.

(** ** Kubernetes on the nodes *)

(** Whether the caller has to wait for the plan. *)
Definition ensureSkipManifestPlanCompleted (upgrade : Upgrade) (skip : bool) : Act bool :=
  let annotation := if skip then skipManifestsApplyPlanCompletedAnnotation
                    else skipManifestsRemovePlanCompletedAnnotation in
  if gm_has (up_Annotations upgrade) annotation then mret false
  else
    let plan := prepareSkipManifestPlan upgrade manifestsToSkip skip in
    r ← try (mapCreate (planKey plan) plan);
    match r with
    | inl _ => mret true
    | inr e => if IsAlreadyExists e then mret true else throw e
    end.

Definition atoi (s : string) : Act Z :=
  match Atoi s with
  | Some n => mret n
  | None => throw (ErrText ("strconv.Atoi: parsing " +:+ quoted s))
  end.

Definition lhKey (s : LhSetting) : string * string :=
  (om_Namespace (lhs_meta s), om_Name (lhs_meta s)).
Definition replicaSetting : Act (Obj LhSetting) :=
  lhSettingCache_Get LonghornSystemNamespaceName replicaReplenishmentWaitIntervalSetting.

Definition getReplicaReplenishmentValue : Act Z :=
  s ← replicaSetting;
  atoi (lhs_Value (o_val s)).

Definition setReplicaReplenishmentValue (value : Z) : Act unit :=
  s ← replicaSetting;
  let toUpdate := mkLhSetting (lhs_meta (o_val s)) (Itoa value) in
  if bool_decide (toUpdate = o_val s) then mret tt
  else storeUpdate (lhKey toUpdate) (mkObj (o_rv s) toUpdate);; mret tt.

Definition saveReplicaReplenishmentToUpgradeAnnotation (upgrade : Upgrade) : Act Upgrade :=
  v ← getReplicaReplenishmentValue;
  mret (up_annotate replicaReplenishmentAnnotation (Itoa v) upgrade).

Definition loadReplicaReplenishmentFromUpgradeAnnotation (upgrade : Upgrade) : Act unit :=
  match gm_get (up_Annotations upgrade) replicaReplenishmentAnnotation with
  | None => mret tt
  | Some str => value ← atoi str; setReplicaReplenishmentValue value
  end.

Definition addon_set_Labels (l : gomap string) (a : Addon.Addon) : Addon.Addon :=
  mkAddon (ad_Kind a) (ad_APIVersion a) (set_Labels l (ad_meta a)) (ad_Spec a) (ad_Status a)
    (ad_Conditions a).
Definition addon_enabled (a : Addon.Addon) : Addon.Addon :=
  let s := ad_Spec a in
  mkAddon (ad_Kind a) (ad_APIVersion a) (ad_meta a)
    (mkAddonSpec (as_Repo s) (as_Chart s) (as_Version s) true (as_ValuesContent s))
    (ad_Status a) (ad_Conditions a).

(** The descheduler addon, if there is one. *)
Definition deschedulerAddon : Act (option (Obj Addon.Addon)) :=
  r ← try (addonCache_Get KubeSystemNamespace DeschedulerName);
  match r with
  | inl a => mret (Some a)
  | inr e => if IsNotFound e then mret None else throw e
  end.

Definition addUpgradeLabelToDeschedulerAddons (upgrade : Upgrade) : Act Upgrade :=
  addon ← deschedulerAddon;
  match addon with
  | None => mret upgrade
  | Some oa =>
      if negb (as_Enabled (ad_Spec (o_val oa))) then mret upgrade
      else
        annotations ← lift (gm_store (up_Annotations upgrade) reenableDeschedulerAddonAnnotation
                              "true");
        addonClient_Update (mkObj (o_rv oa) (addon_set_Labels
          (gm_set (om_Labels (ad_meta (o_val oa))) harvesterUpgradeLabel (up_Name upgrade))
          (o_val oa)));;
        mret (up_set_Annotations annotations upgrade)
  end.

Definition saveShutdownVMOnMigrationFailureToUpgradeAnnotation (upgrade : Upgrade) : Upgrade :=
  if gm_has (up_Annotations upgrade) shutdownVMOnMigrationFailureAnnotation then upgrade
  else
    let shutdown :=
      match DecodeUpgradeConfig (pr_UpgradeConfigSet P) with
      | Ok c => uc_ShutdownVMOnMigrationFailure c
      | _ => false
      end in
    up_annotate shutdownVMOnMigrationFailureAnnotation (FormatBool shutdown) upgrade.

Definition nodesStarted (o : Obj Upgrade) (toUpdate : Upgrade) : Act unit :=
  u ← lift (storeState StateUpgradingNodes toUpdate);
  updateFrom o (createUnknown now NodesUpgraded u);;
  mret tt.

Definition startSingleNode (o : Obj Upgrade) (info : RepoInfo) (singleNodeName : string)
  : Act unit :=
  let upgrade := o_val o in
  if String.eqb (nodeState upgrade singleNodeName) nodeStateUpgradePaused then
    if shouldPauseNodeUpgrade upgrade singleNodeName then mret tt
    else
      updateFrom o (setNodeUpgradeStatus now singleNodeName nodeStateImagesPreloaded "" "" upgrade);;
      mret tt
  else if shouldPauseNodeUpgrade upgrade singleNodeName then
    updateFrom o (setNodeUpgradeStatus now singleNodeName nodeStateUpgradePaused pausedReason
                    pausedMessage upgrade);;
    mret tt
  else
    r ← try (jobClient_Create (applyNodeJob upgrade info singleNodeName
                                 upgradeJobTypeSingleNodeUpgrade));
    match r with
    | inl _ => mret tt
    | inr e => if IsAlreadyExists e then mret tt
               else throw (ErrWrap ("failed to create single-node upgrade job for node "
                                    +:+ singleNodeName) e)
    end;;
    nodesStarted o upgrade.

Definition startMultiNode (o : Obj Upgrade) (info : RepoInfo) : Act unit :=
  let upgrade := o_val o in
  waiting ← ensureSkipManifestPlanCompleted upgrade true;
  if waiting : bool then mret tt
  else
    interval ← getReplicaReplenishmentValue;
    toUpdate ←
      (if interval <? extendedReplicaReplenishmentWaitInterval then
         u ← saveReplicaReplenishmentToUpgradeAnnotation upgrade;
         setReplicaReplenishmentValue extendedReplicaReplenishmentWaitInterval;;
         mret u
       else mret upgrade);
    toUpdate ← addUpgradeLabelToDeschedulerAddons toUpdate;
    persisted ← updateFrom o (saveShutdownVMOnMigrationFailureToUpgradeAnnotation toUpdate);
    upgradeKubernetes (rel_Kubernetes (ri_Release info));;
    nodesStarted persisted (o_val persisted).

Definition startNodes (o : Obj Upgrade) : Act unit :=
  info ← lift (getCachedRepoInfo (o_val o));
  let singleNodeName := up_SingleNode (o_val o) in
  if negb (String.eqb singleNodeName "") then startSingleNode o info singleNodeName
  else startMultiNode o info.

(** ** Cleaning up *)

Definition deletePlanJobs (plan : Plan) : Act unit :=
  jobs ← cached (fun c => Ok (List.filter (fun j =>
    String.eqb (om_Namespace (job_meta j)) (om_Namespace (plan_meta plan))
    && hasLabel upgradePlanLabel (om_Name (plan_meta plan)) (job_meta j)) (c_jobs c)));
  (fix go jobs :=
     match jobs with
     | [] => mret tt
     | job :: jobs =>
         (if deleted (job_meta job) then mret tt
          else
            r ← try (jobClient_Delete (jobKey job));
            match r with
            | inl _ => mret tt
            | inr e => if IsNotFound e then mret tt else throw e
            end);;
         go jobs
     end) jobs.

Fixpoint deletePlans (cleanJobs : bool) (plans : list Plan) : Act unit :=
  match plans with
  | [] => mret tt
  | plan :: plans =>
      (if cleanJobs then deletePlanJobs plan else mret tt);;
      (if deleted (plan_meta plan) then mret tt
       else
         r ← try (mapDelete (A := Plan) (planKey plan));
         match r with
         | inl _ => mret tt
         | inr e => if IsNotFound e then mret tt else throw e
         end);;
      deletePlans cleanJobs plans
  end.

Definition resetCluster : Act unit :=
  cluster ← clusterCache_Get FleetLocalNamespaceName LocalClusterName;
  clusterToUpdate ← lift (resetRKEConfig (o_val cluster));
  if bool_decide (clusterToUpdate = o_val cluster) then mret tt
  else storeUpdate (clusterKey clusterToUpdate) (mkObj (o_rv cluster) clusterToUpdate);; mret tt.

Definition restoreLonghornSettings (o : Obj Upgrade) : Act (Obj Upgrade) :=
  let upgrade := o_val o in
  if negb (String.eqb (up_SingleNode upgrade) "")
     || gm_has (up_Annotations upgrade) longhornSettingsRestoredAnnotation then mret o
  else
    loadReplicaReplenishmentFromUpgradeAnnotation upgrade;;
    updateFrom o (up_annotate longhornSettingsRestoredAnnotation (FormatBool true) upgrade).

Definition endUpgradeLog (upgrade : Upgrade) : Act unit :=
  let name := ust_UpgradeLog (up_status upgrade) in
  if condTrue upgrade LogReady && negb (String.eqb name "") then
    r ← try (upgradeLogCache_Get upgradeNamespace name);
    match r with
    | inr e => if IsNotFound e then mret tt else throw e
    | inl log =>
        let toUpdate := ul_setCond UpgradeEnded ConditionTrue "" "" (o_val log) in
        if bool_decide (toUpdate = o_val log) then mret tt
        else storeUpdate (ulKey (o_val log)) (mkObj (o_rv log) toUpdate);; mret tt
    end
  else mret tt.

Definition reenableAddons (o : Obj Upgrade) : Act (Obj Upgrade) :=
  let upgrade := o_val o in
  if negb (bool_decide (gm_get (up_Annotations upgrade) reenableDeschedulerAddonAnnotation
                        = Some "true")) then mret o
  else
    addon ← deschedulerAddon;
    match addon with
    | Some oa =>
        if as_Enabled (ad_Spec (o_val oa)) then mret tt
        else
          addonClient_Update (mkObj (o_rv oa) (addon_enabled (addon_set_Labels
            (gm_delete (om_Labels (ad_meta (o_val oa))) harvesterUpgradeLabel) (o_val oa))));;
          mret tt
    | None => mret tt
    end;;
    updateFrom o (up_set_Annotations
      (gm_delete (up_Annotations upgrade) reenableDeschedulerAddonAnnotation) upgrade).

Definition mcKey (m : ManagedChart) : string * string :=
  (om_Namespace (mc_meta m), om_Name (mc_meta m)).

Definition enableKubevirtWorkloadLiveMigrate (upgrade : Upgrade) : Act unit :=
  r ← try (managedChartCache_Get FleetLocalNamespaceName HarvesterManagedChart);
  match r with
  | inr e => if IsNotFound e then mret tt
             else throw (ErrWrap "failed to get harvester managedchart" e)
  | inl mc =>
      let backupJSON := gm_get (up_Annotations upgrade) kubevirtWorkloadUpdateMethodsAnnotation in
      '(values, restored) ← mapErr (ErrWrap "failed to restore kubevirt workload update methods")
        (lift (restoreKubevirtWorkloadUpdateMethodsInValues (mc_Values (o_val mc))
                 (default "" backupJSON) (bool_decide (is_Some backupJSON))));
      if (restored : bool) && negb (bool_decide (values = mc_Values (o_val mc))) then
        mapErr (ErrWrap "failed to update harvester managedchart")
          (storeUpdate (mcKey (o_val mc)) (mkObj (o_rv mc) (mc_set_Values values (o_val mc))));;
        mret tt
      else mret tt
  end.

Fixpoint resumeCharts (charts : list (Obj ManagedChart)) : Act unit :=
  match charts with
  | [] => mret tt
  | mc :: charts =>
      (if negb (mc_Paused (o_val mc))
          || negb (str_in (om_Name (mc_meta (o_val mc))) targetManagedcharts) then mret tt
       else
         mapErr (ErrWrap ("failed to resume managedchart " +:+ om_Name (mc_meta (o_val mc))))
           (storeUpdate (mcKey (o_val mc)) (mkObj (o_rv mc) (mc_set_Paused false (o_val mc))));;
         mret tt);;
      resumeCharts charts
  end.

(** An error of the list is ignored. *)
Definition resumeManagedCharts : Act unit :=
  r ← try (cached (fun c => Ok (List.filter (fun o =>
         String.eqb (om_Namespace (mc_meta (o_val o))) FleetLocalNamespaceName)
         (c_managedCharts c))));
  match r with
  | inr _ => mret tt
  | inl charts => resumeCharts charts
  end.

(** The upgrade as it is stored afterwards. *)
Definition cleanup (o : Obj Upgrade) (cleanJobs : bool) : Act (Obj Upgrade) :=
  Repo_Cleanup (o_val o);;
  resetCluster;;
  plans ← cached (fun c => Ok (List.filter (fun p =>
    String.eqb (om_Namespace (plan_meta p)) sucNamespace
    && hasLabel harvesterUpgradeLabel (up_Name (o_val o)) (plan_meta p)) (c_plans c)));
  deletePlans cleanJobs plans;;
  o ← restoreLonghornSettings o;
  endUpgradeLog (o_val o);;
  o ← reenableAddons o;
  enableKubevirtWorkloadLiveMigrate (o_val o);;
  resumeManagedCharts;;
  mret o.

Definition deleteUsedVersion (upgrade : Upgrade) : Act unit :=
  let spec := up_spec upgrade in
  if negb (String.eqb (us_Image spec) "") || String.eqb (us_Version spec) "" then mret tt
  else
    r ← try (versionCache_Get (pr_namespace P) (us_Version spec));
    match r with
    | inr e => if IsNotFound e then mret tt else throw e
    | inl version =>
        if String.eqb (gm_str (om_Labels (ver_meta version)) versionSourceLabel)
             versionSourceUpgradeChecker then mret tt
        else
          r ← try (mapDelete (A := Version)
                     (om_Namespace (ver_meta version), om_Name (ver_meta version)));
          match r with
          | inl _ => mret tt
          | inr e => if IsNotFound e then mret tt else throw e
          end
    end.

Definition cleanupImages (upgrade : Upgrade) : Act unit :=
  toBePurgedImageList ← getImagesDiffList upgrade;
  match toBePurgedImageList with
  | [] => mret tt
  | _ =>
      let plan := prepareCleanupPlan upgrade toBePurgedImageList in
      r ← try (mapCreate (planKey plan) plan);
      match r with
      | inl _ => mret tt
      | inr e => if IsAlreadyExists e then mret tt else throw e
      end
  end.

Definition startVM (k : string * string) : Act unit := onInfra (fun i => (Ok tt, in_start k i)).

(** [latest.Labels[upgradeCleanupLabel] = StateSucceeded], and stored. *)
Definition cleanupDone (latest : Obj Upgrade) : Act unit :=
  labels ← lift (gm_store (up_Labels (o_val latest)) upgradeCleanupLabel StateSucceeded);
  updateFrom latest (up_set_Labels labels (o_val latest));;
  mret tt.

(** The files that keep RKE2 manifests from being applied are removed first. *)
Definition unskipManifests (upgrade : Upgrade) : Act bool :=
  if gm_has (up_Annotations upgrade) skipManifestsApplyPlanCompletedAnnotation
  then ensureSkipManifestPlanCompleted upgrade false
  else mret false.

Definition afterSuccess (o : Obj Upgrade) : Act unit :=
  let upgrade := o_val o in
  waiting ← unskipManifests upgrade;
  if waiting : bool then mret tt
  else if gm_has (up_Annotations upgrade) imageCleanupPlanCompletedAnnotation then
    if String.eqb (gm_str (up_Labels upgrade) upgradeCleanupLabel) StateSucceeded then mret tt
    else
      deleteUsedVersion upgrade;;
      latest ← cleanup o (condTrue upgrade UpgradeCompleted);
      cleanupDone latest
  else
    let ns := GetVMNamespace in
    let name := getVMName upgrade in
    vm ← try (vmCache_Get ns name);
    dep ← try (deploymentCache_Get ns name);
    let repoName := ns +:+ "/" +:+ name in
    match vm with
    | inr e =>
        if negb (IsNotFound e)
        then throw (ErrWrap ("failed to get repo VM " +:+ repoName +:+ " from cache") e)
        else mret tt
    | _ => mret tt
    end;;
    match dep with
    | inr e =>
        if negb (IsNotFound e)
        then throw (ErrWrap ("failed to get repo deployment " +:+ repoName +:+ " from cache") e)
        else mret tt
    | _ => mret tt
    end;;
    match vm, dep with
    | inr _, inr _ =>
        throw (ErrText ("both repo VM and Deployment " +:+ repoName +:+ " not found"))
    | inl vm, _ =>
        if Cond.IsTrue (rvm_Conditions vm) vmReady then mret tt
        else mapErr (ErrWrap ("failed to start repo vm " +:+ repoName +:+ " for image pruning"))
               (startVM (om_Namespace (rvm_meta vm), om_Name (rvm_meta vm)))
    | _, _ => mret tt
    end;;
    r ← try (cleanupImages upgrade);
    match r with
    | inl _ => mret tt
    | inr _ =>
        updateFrom o (up_annotate imageCleanupPlanCompletedAnnotation (FormatBool false) upgrade);;
        mret tt
    end.

Definition afterFailure (o : Obj Upgrade) : Act unit :=
  let upgrade := o_val o in
  waiting ← unskipManifests upgrade;
  if waiting : bool then mret tt
  else if String.eqb (gm_str (up_Labels upgrade) upgradeCleanupLabel) StateSucceeded then mret tt
  else
    latest ← cleanup o (condTrue upgrade UpgradeCompleted);
    cleanupDone latest.

(** ** The handler *)

Definition upgrade_OnChanged (upgrade : option (Obj Upgrade)) : Act unit :=
  match upgrade with
  | None => mret tt
  | Some o =>
      let upgrade := o_val o in
      if deleted (up_meta upgrade) then mret tt
      else if String.eqb (condStatus upgrade UpgradeCompleted) "" then initUpgrade o
      else if us_LogEnabled (up_spec upgrade) && condUnknown upgrade LogReady
      then checkLogReadyCondition o
      else if condUnknown upgrade UpgradeCompleted && String.eqb (condStatus upgrade ImageReady) ""
      then createRepoImage o
      else if negb (bool_decide (gm_get (up_Labels upgrade) harvesterLatestUpgradeLabel
                                 = Some "true")) then mret tt
      else if condTrue upgrade UpgradeCompleted then afterSuccess o
      else if condFalse upgrade UpgradeCompleted then afterFailure o
      else if condTrue upgrade ImageReady && String.eqb (condStatus upgrade RepoProvisioned) ""
      then startRepo o
      else if condTrue upgrade RepoProvisioned && String.eqb (condStatus upgrade NodesPrepared) ""
      then prepareNodes o
      else if condTrue upgrade NodesPrepared
              && String.eqb (condStatus upgrade SystemServicesUpgraded) ""
      then startSystemServices o
      else if condTrue upgrade SystemServicesUpgraded
              && String.eqb (condStatus upgrade NodesUpgraded) ""
      then startNodes o
      else if condUnknown upgrade UpgradeCompleted
      then enqueueAfter "upgrade" (NamespacedName (up_Namespace upgrade) (up_Name upgrade))
             upgradeHeartbeatInterval
      else mret tt
  end.

(** The upgrade to go on with. *)
Definition upgrade_OnRemove (o : Obj Upgrade) : Act (Obj Upgrade) :=
  waiting ← unskipManifests (o_val o);
  if waiting : bool then mret o else cleanup o true.

(** The last finalizer goes, and with it the upgrade. *)
Definition removeFinalizer (o : Obj Upgrade) : Act unit :=
  call (fun w =>
    let st := w_upgrades w in
    let k := upKey (o_val o) in
    match st_objs st !! k with
    | None => (Err (ApiNotFound "not found"), w)
    | Some cur =>
        if o_rv cur =? o_rv o
        then (Ok tt, set_store (mkStore (st_rv st) (delete k (st_objs st))) w)
        else (Err (ApiConflict "the object has been modified"), w)
    end).

(** [objectLifecycleAdapter.sync] around the handler, for an upgrade that is being deleted:
    the finalizer is removed when the handler returns without an error. *)
Definition upgrade_removed (o : Obj Upgrade) : Act unit :=
  o ← upgrade_OnRemove o;
  removeFinalizer o.
End Controller.
