(* ===== verification/UpgradeSteps.v ===== *)
(** An upgrade as a state machine: the moves of its nodes, its conditions and its state
    label, one write of one controller at a time, and what holds in every state.

    This is the specification the handlers are measured against in [UpgradeSafety]: a guard
    of a rule is a guard of the code that makes the move. *)

From S2P Require Import Prelude K8s NodeUtil Upgrade UpgradeJobs UpgradeWorld.

(** ** The life cycle of a node *)

(** A node that holds up the others: from its drain to its reboot. *)
Definition active (state : string) : bool :=
  str_in state [nodeStatePreDraining; nodeStatePreDrained; nodeStatePostDraining;
                nodeStateWaitingReboot].

(** Every other node is done or waiting for its turn. *)
Definition othersIdle (u : Upgrade) (n : string) : Prop :=
  forall m st, gm_get (up_NodeStatuses u) m = Some st -> m <> n ->
    nus_State st ∈ [StateSucceeded; nodeStateImagesPreloaded].

(** Which rule moved a condition or the label to the value at hand. *)
Ltac clash :=
  match goal with
  | H1 : ?x = ?a, H2 : ?x = ?b |- _ => exfalso; rewrite H1 in H2; discriminate H2
  | H1 : ?a = ?x, H2 : ?x = ?b |- _ => exfalso; rewrite <- H1 in H2; discriminate H2
  end.
(** Membership in a short list, case by case. *)
Ltac in_cases H :=
  repeat (apply elem_of_cons in H as [H|H]); try (by apply not_elem_of_nil in H);
  try discriminate H; try clash.
Ltac move_inv H := inversion H; clear H; try discriminate; try clash.

(** The condition of the nodes is there, but without a status.  A write leaves that
    condition alone or gives it one. *)
Definition hollow (u : Upgrade) : bool :=
  match Cond.findCond (up_Conditions u) NodesUpgraded with
  | Some c => String.eqb (c_Status c) ""
  | None => false
  end.
Definition fills (u v : Upgrade) : Prop :=
  Cond.findCond (up_Conditions v) NodesUpgraded = Cond.findCond (up_Conditions u) NodesUpgraded \/
  condStatus v NodesUpgraded <> "".

Lemma fills_same u v : up_Conditions v = up_Conditions u -> fills u v.
Proof. intros H. left. by rewrite H. Qed.

Lemma fills_trans u v w : fills u v -> fills v w -> fills u w.
Proof.
  intros Huv [H|H]; [|by right]. destruct Huv as [H'|H']; [left; congruence|right].
  unfold condStatus, Cond.getStatus in *. by rewrite H.
Qed.

Lemma fills_hollow u v : fills u v -> hollow u = false -> hollow v = false.
Proof.
  unfold hollow. intros [->|H] Hu; [done|]. unfold condStatus, Cond.getStatus in H.
  destruct (Cond.findCond _ _); [|done]. by apply String.eqb_neq.
Qed.

Lemma fills_setStatus now name st u :
  (name = NodesUpgraded -> st <> "") -> fills u (setStatus now name st u).
Proof.
  intros Hs. destruct (decide (name = NodesUpgraded)) as [->|Hne].
  - right. unfold condStatus. rewrite status_setStatus, decide_True by done. auto.
  - left. apply Cond.findCond_upd_ne; [|done]. intros c. by destruct (String.eqb _ _).
Qed.

Lemma fills_setCond now name st re msg u :
  (name = NodesUpgraded -> st <> "") -> fills u (setCond now name st re msg u).
Proof.
  intros Hs. destruct (decide (name = NodesUpgraded)) as [->|Hne].
  - right. unfold condStatus. rewrite status_setCond, decide_True by done. auto.
  - left. unfold setCond. cbn [up_Conditions up_set_Conditions up_set_status up_status ust_Conditions].
    unfold Cond.setMessage, Cond.setReason, Cond.setStatus.
    rewrite !Cond.findCond_upd_ne; try done; intros c; by destruct (String.eqb _ _).
Qed.

Lemma fills_mark now name st re msg u :
  (name = NodesUpgraded -> st <> "") -> fills u (setConditionAndMark now name st re msg u).
Proof.
  intros Hs. eapply fills_trans; [by apply (fills_setCond now name st re msg)|].
  unfold setConditionAndMark, markComplete. set (v := setCond _ _ _ _ _ u).
  assert (Hc : forall s st w, fills w (setLabel upgradeCleanupLabel StatePending
    (setLabel upgradeStateLabel s (setStatus now UpgradeCompleted st w)))).
  { intros s st' w. eapply fills_trans; [by apply (fills_setStatus now UpgradeCompleted)|].
    by apply fills_same. }
  set (v0 := up_set_Labels _ v). eapply fills_trans; [by apply (fills_same v v0)|].
  repeat case_match; [eapply fills_trans; apply Hc|apply Hc|apply Hc|by apply fills_same].
Qed.

Section Steps.
(** The upgrades of clusters with a single node, whose node is upgraded by one job. *)
Context (single : string * string -> Prop).

(** The states a node may go to next. *)
Inductive nodeMove (u : Upgrade) (n : string) : string -> Prop :=
| mv_preload s :
    stateOf u = StatePreparingNodes \/ condStatus u NodesPrepared = "" ->
    s ∈ [nodeStateImagesPreloading; nodeStateImagesPreloaded] -> nodeMove u n s
| mv_fail : nodeMove u n StateFailed
| mv_pause : nodeState u n = nodeStateImagesPreloaded -> nodeMove u n nodeStateUpgradePaused
| mv_unpause : nodeState u n = nodeStateUpgradePaused -> nodeMove u n nodeStateImagesPreloaded
| mv_preDrain : stateOf u = StateUpgradingNodes -> nodeState u n = nodeStateImagesPreloaded ->
    othersIdle u n -> nodeMove u n nodeStatePreDraining
| mv_preDrained : nodeState u n = nodeStatePreDraining -> nodeMove u n nodeStatePreDrained
| mv_postDrain : stateOf u = StateUpgradingNodes -> nodeState u n = nodeStatePreDrained ->
    othersIdle u n -> nodeMove u n nodeStatePostDraining
| mv_reboot : nodeState u n = nodeStatePostDraining -> nodeMove u n nodeStateWaitingReboot
| mv_done s : nodeState u n = s -> s ∈ [nodeStatePostDraining; nodeStateWaitingReboot] ->
    nodeMove u n StateSucceeded
| mv_single s : single (upKey u) ->
    s ∈ [nodeStateWaitingReboot; StateSucceeded; nodeStateUpgradePaused;
         nodeStateImagesPreloaded] -> nodeMove u n s.

(** One node moves, or none. *)
Definition moved (n : string) (u v : Upgrade) : Prop :=
  (forall m, m <> n -> nodeState v m = nodeState u m) /\
  (nodeState v n = nodeState u n \/ nodeMove u n (nodeState v n)).

(** ** The phases *)

(** The conditions: each phase is opened once, after the one before it, and closed by its
    result; the verdict on the upgrade follows from the results. *)
Inductive condMove (u v : Upgrade) : string -> string -> Prop :=
| cm_log s : condMove u v LogReady s
| cm_image s : condMove u v ImageReady s
| cm_repo : condStatus u ImageReady = ConditionTrue -> condStatus u RepoProvisioned = "" ->
    condMove u v RepoProvisioned ConditionUnknown
| cm_repoReady : stateOf u = StatePreparingRepo -> condMove u v RepoProvisioned ConditionTrue
| cm_nodes : condStatus u RepoProvisioned = ConditionTrue -> condStatus u NodesPrepared = "" ->
    condMove u v NodesPrepared ConditionUnknown
| cm_nodesReady : condMove u v NodesPrepared ConditionTrue
| cm_services : condStatus u NodesPrepared = ConditionTrue ->
    condStatus u SystemServicesUpgraded = "" ->
    condMove u v SystemServicesUpgraded ConditionUnknown
| cm_servicesDone s : condStatus u SystemServicesUpgraded = ConditionUnknown ->
    s ∈ [ConditionTrue; ConditionFalse] -> condMove u v SystemServicesUpgraded s
| cm_upgrading : condStatus u SystemServicesUpgraded = ConditionTrue ->
    condStatus u NodesUpgraded = "" -> condMove u v NodesUpgraded ConditionUnknown
| cm_upgraded : stateOf u = StateUpgradingNodes ->
    (forall n, active (nodeState v n) = false) ->
    (condStatus v SystemServicesUpgraded = ConditionTrue ->
       stateOf v ∈ [StateFailed; StateSucceeded]) ->
    condMove u v NodesUpgraded ConditionTrue
| cm_nodeFailed : condStatus v UpgradeCompleted = ConditionFalse -> stateOf v = StateFailed ->
    condMove u v NodesUpgraded ConditionFalse
| cm_started : condStatus u UpgradeCompleted = "" ->
    condMove u v UpgradeCompleted ConditionUnknown
| cm_failed : stateOf v = StateFailed -> condMove u v UpgradeCompleted ConditionFalse
| cm_succeeded : condStatus v SystemServicesUpgraded = ConditionTrue ->
    condStatus v NodesUpgraded = ConditionTrue -> condMove u v UpgradeCompleted ConditionTrue.

(** The state label. *)
Inductive labelMove (u v : Upgrade) : string -> Prop :=
| lm_logging s : s ∈ [StatePreparingLoggingInfra; StateLoggingInfraPrepared] -> labelMove u v s
| lm_repo : condStatus u RepoProvisioned = "" -> labelMove u v StatePreparingRepo
| lm_repoPrepared : stateOf u = StatePreparingRepo -> labelMove u v StateRepoPrepared
| lm_nodes : condStatus u NodesPrepared = "" -> labelMove u v StatePreparingNodes
| lm_services : condStatus u SystemServicesUpgraded = "" ->
    labelMove u v StateUpgradingSystemServices
| lm_upgrading : condStatus u SystemServicesUpgraded = ConditionTrue ->
    condStatus u NodesUpgraded = "" ->
    (hollow u = false -> condStatus v NodesUpgraded = ConditionUnknown) ->
    labelMove u v StateUpgradingNodes
| lm_failed : condStatus v UpgradeCompleted = ConditionFalse -> labelMove u v StateFailed
| lm_succeeded : condStatus v UpgradeCompleted = ConditionTrue -> labelMove u v StateSucceeded.

(** ** A step: one write *)

Record step (u v : Upgrade) : Prop := mkStep {
  st_key : upKey v = upKey u;
  st_nodes : exists n, moved n u v;
  st_conds : forall c, condStatus v c = condStatus u c \/ condMove u v c (condStatus v c);
  st_label : stateOf v = stateOf u \/ labelMove u v (stateOf v);
  st_fills : fills u v;
  st_single : up_SingleNode v = up_SingleNode u \/ up_SingleNode v = "" \/ single (upKey u) }.

Abbreviation steps := (rtc step).

(** What is left alone by everything but the changes at hand. *)
Definition sameNodes (u v : Upgrade) : Prop :=
  upKey v = upKey u /\ (forall m, nodeState v m = nodeState u m) /\
  up_SingleNode v = up_SingleNode u.

Lemma sameNodes_refl u : sameNodes u u.
Proof. done. Qed.

Lemma sameNodes_trans u v w : sameNodes u v -> sameNodes v w -> sameNodes u w.
Proof. intros (? & H & ?) (? & H' & ?). split_and!; [congruence| |congruence]. intros m. by rewrite H'. Qed.

Lemma step_phases u v :
  sameNodes u v ->
  (forall c, condStatus v c = condStatus u c \/ condMove u v c (condStatus v c)) ->
  stateOf v = stateOf u \/ labelMove u v (stateOf v) -> fills u v -> step u v.
Proof.
  intros (Hk & Hn & Hs) Hc Hl Hf. split; [done| |done|done|done|by left].
  exists "". split; [by intros|by left].
Qed.

Lemma step_frame u v :
  sameNodes u v -> up_Conditions v = up_Conditions u -> stateOf v = stateOf u -> step u v.
Proof.
  intros Hn Hc Hl. apply step_phases; [done| |by left|by apply fills_same].
  intros c. left. unfold condStatus. by rewrite Hc.
Qed.

(** ** Invariants *)

(** At most one node is active. *)
Definition exclusive (u : Upgrade) : Prop :=
  ~ single (upKey u) ->
  forall n m, active (nodeState u n) = true -> active (nodeState u m) = true -> n = m.

(** The phases come one after the other: nodes are drained and Kubernetes upgraded after the
    system services, these after every node is prepared; the upgrade has succeeded when
    both are done, and so it says. *)
Record ordered (u : Upgrade) : Prop := mkOrdered {
  or_services : condStatus u SystemServicesUpgraded <> "" ->
    condStatus u NodesPrepared = ConditionTrue;
  or_label : stateOf u = StateUpgradingNodes ->
    condStatus u SystemServicesUpgraded = ConditionTrue;
  or_nodes : condStatus u NodesUpgraded ∈ [ConditionTrue; ConditionUnknown] ->
    condStatus u SystemServicesUpgraded = ConditionTrue;
  or_active : ~ single (upKey u) -> forall n, active (nodeState u n) = true ->
    condStatus u SystemServicesUpgraded = ConditionTrue;
  or_done : condStatus u UpgradeCompleted = ConditionTrue ->
    condStatus u SystemServicesUpgraded = ConditionTrue /\
    condStatus u NodesUpgraded = ConditionTrue;
  or_succeeded : stateOf u = StateSucceeded -> condStatus u UpgradeCompleted = ConditionTrue }.

(** An upgrade as users create it: without a status or a state. *)
Definition fresh (u : Upgrade) : Prop :=
  (forall n, nodeState u n = "") /\ up_Conditions u = [] /\ stateOf u = "" /\
  up_SingleNode u = "".

Lemma fresh_status u c : fresh u -> condStatus u c = "".
Proof. intros (_ & Hc & _). unfold condStatus. by rewrite Hc. Qed.

Lemma fresh_exclusive u : fresh u -> exclusive u.
Proof. intros (Hn & _) _ n m. by rewrite Hn. Qed.

Lemma fresh_ordered u : fresh u -> ordered u.
Proof.
  intros Hf. pose proof Hf as (Hn & _ & Hl & _).
  split; rewrite ?fresh_status, ?Hl by done; try done; [set_solver|]. intros _ n. by rewrite Hn.
Qed.

Lemma nodeMove_active u n s :
  ~ single (upKey u) -> nodeMove u n s -> active s = true ->
  active (nodeState u n) = true \/ othersIdle u n /\ stateOf u = StateUpgradingNodes.
Proof.
  intros Hns Hm Ha. destruct Hm as [s _ Hs| | | | |He| |He|s He Hs|s Hk]; try done; auto.
  - set_unfold in Hs. by destruct Hs as [->|[->|[]]].
  - left. by rewrite He.
  - left. by rewrite He.
Qed.

Lemma othersIdle_inactive u n m :
  othersIdle u n -> m <> n -> active (nodeState u m) = false.
Proof.
  intros Ho Hm. unfold nodeState. destruct (gm_get _ m) as [st|] eqn:E; [|done].
  specialize (Ho m st E Hm). set_unfold in Ho. by destruct Ho as [->|[->|[]]].
Qed.

Lemma step_exclusive u v : step u v -> exclusive u -> exclusive v.
Proof.
  intros [Hk (n & Hoth & Hn) _ _ _ _] Hex Hns. rewrite Hk in Hns. specialize (Hex Hns).
  assert (Hn' : active (nodeState v n) = true -> active (nodeState u n) = true \/ othersIdle u n).
  { destruct Hn as [->|Hmv]; [auto|]. intros Ha.
    destruct (nodeMove_active u n _ Hns Hmv Ha) as [|[? _]]; auto. }
  assert (Hm : forall m, active (nodeState v m) = true -> m <> n ->
                 active (nodeState v n) = true -> False).
  { intros m Ha Hne Han. rewrite Hoth in Ha by done. destruct (Hn' Han) as [Hu|Hu].
    - by apply Hne, (Hex m n).
    - by rewrite (othersIdle_inactive u n m) in Ha. }
  intros a b Ha Hb. destruct (decide (a = n)) as [->|Hna], (decide (b = n)) as [->|Hnb];
    [done|by destruct (Hm b)|by destruct (Hm a)|].
  rewrite Hoth in Ha, Hb by done. by apply Hex.
Qed.

(** Results stay. *)
Lemma step_services u v :
  step u v -> condStatus u SystemServicesUpgraded = ConditionTrue ->
  condStatus v SystemServicesUpgraded = ConditionTrue.
Proof.
  intros [_ _ Hc _ _ _] Hs. destruct (Hc SystemServicesUpgraded) as [->|Hm]; [done|].
  by move_inv Hm.
Qed.

Lemma step_prepared u v :
  step u v -> condStatus u NodesPrepared = ConditionTrue ->
  condStatus v NodesPrepared = ConditionTrue.
Proof.
  intros [_ _ Hc _ _ _] Hs. destruct (Hc NodesPrepared) as [->|Hm]; [done|].
  by move_inv Hm.
Qed.

Lemma step_opened u v : step u v -> condStatus u NodesPrepared <> "" ->
  condStatus v NodesPrepared <> "".
Proof.
  intros [_ _ Hc _ _ _] Hs. destruct (Hc NodesPrepared) as [->|Hm]; [done|]. by move_inv Hm.
Qed.

Lemma step_ordered u v : step u v -> ordered u -> ordered v.
Proof.
  intros Hst [H1 H2 H3 H4 H5 H6]. pose proof (step_services u v Hst) as Hss.
  pose proof (step_prepared u v Hst) as Hnp. destruct Hst as [Hk (n & Hoth & Hn) Hc Hl _ _].
  split.
  - destruct (Hc SystemServicesUpgraded) as [->|Hm]; [auto|]. intros _.
    move_inv Hm; apply Hnp; [done|]. apply H1. intros ?. clash.
  - destruct Hl as [->|Hm]; [auto|]. intros Hv. rewrite Hv in Hm. apply Hss.
    move_inv Hm; [|done]. match goal with H : _ ∈ _ |- _ => in_cases H end.
  - destruct (Hc NodesUpgraded) as [->|Hm]; [auto|]. intros Hv. apply Hss.
    move_inv Hm; [done|auto|]. in_cases Hv.
  - rewrite Hk. intros Hns m Ha. apply Hss. destruct (decide (m = n)) as [->|Hne].
    + destruct Hn as [He|Hm]; [rewrite He in Ha; eauto|].
      destruct (nodeMove_active u n _ Hns Hm Ha) as [|[_ ?]]; eauto.
    + rewrite Hoth in Ha by done. eauto.
  - intros Hv. destruct (Hc UpgradeCompleted) as [He|Hm].
    + destruct (H5 ltac:(congruence)) as [Hs Hu]. split; [auto|].
      destruct (Hc NodesUpgraded) as [->|Hm]; [done|]. by move_inv Hm.
    + rewrite Hv in Hm. move_inv Hm. done.
  - intros Hv. destruct Hl as [He|Hm].
    + specialize (H6 ltac:(congruence)). destruct (Hc UpgradeCompleted) as [->|Hm]; [done|].
      by move_inv Hm.
    + rewrite Hv in Hm. move_inv Hm; [|done]. match goal with H : _ ∈ _ |- _ => in_cases H end.
Qed.

(** While a node is active the upgrade of the nodes is under way, or has failed. *)
Record held (u : Upgrade) : Prop := mkHeld {
  hd_solid : hollow u = false;
  hd_label : stateOf u = StateUpgradingNodes -> condStatus u NodesUpgraded = ConditionUnknown;
  hd_active : ~ single (upKey u) -> forall n, active (nodeState u n) = true ->
    condStatus u NodesUpgraded ∈ [ConditionUnknown; ConditionFalse] }.

Lemma fresh_held u : fresh u -> held u.
Proof.
  intros (Hn & Hc & Hl & _). split; [unfold hollow; by rewrite Hc|by rewrite Hl|].
  intros _ n. by rewrite Hn.
Qed.

Lemma step_held_label u v : step u v -> ordered u -> held u ->
  stateOf v = StateUpgradingNodes -> condStatus v NodesUpgraded = ConditionUnknown.
Proof.
  intros Hst Ho [H0 H1 _] Hv. pose proof (step_ordered u v Hst Ho) as [_ Hss _ _ _ _].
  destruct Hst as [_ _ Hc Hl _ _]. specialize (Hss Hv).
  destruct Hl as [He|Hm].
  - specialize (H1 ltac:(congruence)). destruct (Hc NodesUpgraded) as [->|Hm]; [done|].
    move_inv Hm. exfalso.
    match goal with H : _ -> stateOf v ∈ _ |- _ => specialize (H Hss); rewrite Hv in H; in_cases H end.
  - rewrite Hv in Hm. move_inv Hm; [|auto]. match goal with H : _ ∈ _ |- _ => in_cases H end.
Qed.

Lemma step_held u v : step u v -> ordered u -> held u -> held v.
Proof.
  intros Hst Ho Hh. split.
  { eapply fills_hollow; [apply Hst|apply Hh]. }
  { by apply (step_held_label u). }
  destruct Hh as [_ H1 H2]. destruct Hst as [Hk (n & Hoth & Hn) Hc _ _ _]. rewrite Hk. intros Hns m Ha.
  assert (Hu : condStatus u NodesUpgraded ∈ [ConditionUnknown; ConditionFalse]).
  { destruct (decide (m = n)) as [->|Hne]; [|rewrite Hoth in Ha by done; eauto].
    destruct Hn as [He|Hm]; [rewrite He in Ha; eauto|].
    destruct (nodeMove_active u n _ Hns Hm Ha) as [|[_ Hl]]; [eauto|]. rewrite (H1 Hl). set_solver. }
  destruct (Hc NodesUpgraded) as [->|Hm]; [done|]. move_inv Hm.
  - apply elem_of_cons. by left.
  - match goal with H : forall n, active _ = false |- _ => by rewrite H in Ha end.
  - apply elem_of_cons. right. by apply elem_of_cons; left.
Qed.

(** ** The writes are steps *)

(** With another node state, the move is the same or is made while the node is active. *)
Lemma condMove_ext u v v' c s :
  (forall c, condStatus v' c = condStatus v c) -> stateOf v' = stateOf v ->
  (c = NodesUpgraded -> s = ConditionTrue ->
     forall n, active (nodeState v n) = false -> active (nodeState v' n) = false) ->
  condMove u v c s -> condMove u v' c s.
Proof.
  intros Hc Hl Hn Hm. destruct Hm; constructor; rewrite ?Hc, ?Hl; try done. intros n. by apply Hn.
Qed.

Lemma sameNodes_identity u v :
  identity v = identity u -> up_NodeStatuses v = up_NodeStatuses u -> sameNodes u v.
Proof.
  unfold identity. intros Hi Hn. split_and!; [unfold upKey; congruence| |congruence].
  intros m. unfold nodeState. by rewrite Hn.
Qed.

Section Writes.
Context (now : string).

Lemma status_mark name st re msg u c :
  let v := setConditionAndMark now name st re msg u in
  condStatus v c =
  if decide (UpgradeCompleted = c)
  then verdict (setCond now name st re msg u) ConditionFalse ConditionTrue
         (condStatus (setCond now name st re msg u) c)
  else if decide (name = c) then st else condStatus u c.
Proof.
  intros v. unfold v, setConditionAndMark, condStatus. rewrite markComplete_status.
  case_decide; [done|]. apply status_setCond.
Qed.

Lemma state_mark name st re msg u :
  stateOf (setConditionAndMark now name st re msg u) =
  verdict (setCond now name st re msg u) StateFailed StateSucceeded (stateOf u).
Proof. unfold setConditionAndMark. by rewrite markComplete_state. Qed.

Lemma mark_sameNodes name st re msg u : sameNodes u (setConditionAndMark now name st re msg u).
Proof. apply sameNodes_identity; apply setConditionAndMark_frame. Qed.

(** The verdict on the upgrade is a legal move, unless it is the old one. *)
Lemma mark_verdict name st re msg u0 u :
  name <> UpgradeCompleted ->
  let v := setConditionAndMark now name st re msg u in
  (condStatus v UpgradeCompleted = condStatus u UpgradeCompleted /\ stateOf v = stateOf u) \/
  condMove u0 v UpgradeCompleted (condStatus v UpgradeCompleted) /\
  stateOf v ∈ [StateFailed; StateSucceeded] /\ labelMove u0 v (stateOf v).
Proof.
  intros Hne v. set (u1 := setCond now name st re msg u).
  assert (Hc : condStatus v UpgradeCompleted =
    verdict u1 ConditionFalse ConditionTrue (condStatus u UpgradeCompleted)).
  { unfold v. rewrite status_mark. fold u1. unfold verdict. repeat case_match; try done.
    unfold u1, condStatus. by rewrite status_setCond, decide_False. }
  assert (Hl : stateOf v = verdict u1 StateFailed StateSucceeded (stateOf u)) by apply state_mark.
  assert (Ho : forall c s, c <> UpgradeCompleted -> condIs s u1 c = true -> condStatus v c = s).
  { intros c s Hcc H. apply String.eqb_eq in H. rewrite <- H. unfold v, condStatus, setConditionAndMark.
    by rewrite markComplete_status, decide_False. }
  unfold verdict in Hc, Hl. destruct (anyFailed u1) eqn:Ef.
  { right. rewrite Hc. split_and!; [by apply cm_failed|rewrite Hl; set_solver|].
    rewrite Hl. by apply lm_failed. }
  destruct (bothDone u1) eqn:Eb; [|by left].
  apply andb_true_iff in Eb as [E1 E2].
  right. rewrite Hc. split_and!; [apply cm_succeeded; by apply Ho|rewrite Hl; set_solver|].
  rewrite Hl. by apply lm_succeeded.
Qed.

Lemma allSucceeded_inactive u m :
  allSucceeded (up_NodeStatuses u) = true -> active (nodeState u m) = false.
Proof.
  rewrite allSucceeded_spec. intros H. unfold nodeState.
  destruct (gm_get _ m) as [st|] eqn:E; [|done]. by rewrite (H m st E).
Qed.

(** What a handler changes besides a condition: the label, or nothing. *)
Definition relabels (u u1 v : Upgrade) : Prop :=
  sameNodes u u1 /\ up_Conditions u1 = up_Conditions u /\
  (stateOf u1 = stateOf u \/ labelMove u v (stateOf u1)).

Lemma relabels_refl u v : relabels u u v.
Proof. split_and!; [done|done|by left]. Qed.

Lemma relabels_label s u v : labelMove u v s -> relabels u (setLabel upgradeStateLabel s u) v.
Proof. intros Hm. split_and!; [done|done|]. rewrite stateOf_setLabel. by right. Qed.

Lemma step_label s u :
  labelMove u (setLabel upgradeStateLabel s u) s -> step u (setLabel upgradeStateLabel s u).
Proof.
  intros Hm. apply step_phases; [done|by left| |by apply fills_same].
  rewrite stateOf_setLabel. by right.
Qed.

Lemma step_mark_from name st re msg u u1 :
  let v := setConditionAndMark now name st re msg u1 in
  relabels u u1 v -> name <> UpgradeCompleted -> st = condStatus u name \/ condMove u v name st ->
  (name = NodesUpgraded -> st <> "") -> step u v.
Proof.
  intros v (Hn & Hconds & Hls) Hne Hst Hnu.
  assert (Hcs : forall c, condStatus u1 c = condStatus u c)
    by (intros c; unfold condStatus; by rewrite Hconds).
  pose proof (mark_verdict name st re msg u u1 Hne) as Hver. cbv zeta in Hver. fold v in Hver.
  apply step_phases.
  - eapply sameNodes_trans; [done|apply mark_sameNodes].
  - intros c. destruct (decide (c = UpgradeCompleted)) as [->|Hcc].
    { destruct Hver as [[-> _]|(? & _)]; [left; by apply Hcs|by right]. }
    unfold v at 1 3. rewrite status_mark, decide_False by done.
    case_decide as Hd; [subst c|left; by apply Hcs]. by destruct Hst as [->|Hst]; auto.
  - destruct Hver as [[_ ->]|(_ & _ & ?)]; auto.
  - eapply fills_trans; [|by apply fills_mark]. by apply fills_same.
Qed.

Lemma step_mark name st re msg u :
  let v := setConditionAndMark now name st re msg u in
  name <> UpgradeCompleted -> st = condStatus u name \/ condMove u v name st ->
  (name = NodesUpgraded -> st <> "") -> step u v.
Proof. intros v. apply step_mark_from, relabels_refl. Qed.

Lemma status_createUnknown name u c :
  condStatus (createUnknown now name u) c = condStatus u c \/
  c = name /\ condStatus u c = "" /\ condStatus (createUnknown now name u) c = ConditionUnknown.
Proof.
  unfold createUnknown, condStatus.
  destruct (Cond.findCond (up_Conditions u) name) as [k|] eqn:E; [by left|].
  rewrite status_setStatus. case_decide as Hd; [|by left]. subst c. right.
  unfold Cond.getStatus. by rewrite E.
Qed.

Lemma createUnknown_frame name u :
  sameNodes u (createUnknown now name u) /\ stateOf (createUnknown now name u) = stateOf u.
Proof. unfold createUnknown. by case_match. Qed.

Lemma fills_create name u : fills u (createUnknown now name u).
Proof. unfold createUnknown. case_match; [by apply fills_same|by apply fills_setStatus]. Qed.

(** A condition without a status is created, unless it is hollow. *)
Lemma solid_create u u1 :
  up_Conditions u1 = up_Conditions u -> condStatus u NodesUpgraded = "" -> hollow u = false ->
  condStatus (createUnknown now NodesUpgraded u1) NodesUpgraded = ConditionUnknown.
Proof.
  unfold hollow, createUnknown, condStatus, Cond.getStatus. intros -> Hs Hh.
  destruct (Cond.findCond _ _) as [c|] eqn:E; [by rewrite Hs in Hh|].
  fold (Cond.getStatus (up_Conditions (setStatus now NodesUpgraded ConditionUnknown u1)) NodesUpgraded).
  by rewrite status_setStatus.
Qed.

Lemma step_create name u u1 :
  let v := createUnknown now name u1 in
  relabels u u1 v -> (condStatus u name = "" -> condMove u v name ConditionUnknown) -> step u v.
Proof.
  intros v (Hn & Hconds & Hls) Hm. pose proof (createUnknown_frame name u1) as [Hf Hl]. fold v in Hf, Hl.
  assert (Hcs : forall c, condStatus u1 c = condStatus u c)
    by (intros c; unfold condStatus; by rewrite Hconds).
  apply step_phases; [by eapply sameNodes_trans| |rewrite Hl; done|].
  2:{ eapply fills_trans; [|apply fills_create]. by apply fills_same. }
  intros c. destruct (status_createUnknown name u1 c) as [He|(-> & He & Hu)]; fold v in He || fold v in Hu.
  - left. by rewrite He.
  - right. rewrite Hu. apply Hm. by rewrite <- Hcs.
Qed.

(** The upgrade fails. *)
Lemma step_completed re msg u v :
  setUpgradeCompletedCondition now StateFailed ConditionFalse re msg u = Ok v -> step u v.
Proof.
  unfold setUpgradeCompletedCondition. destruct (gm_store _ _ _) as [l| |] eqn:E; [|done..].
  apply gm_store_Ok in E as ->. intros [= Hv].
  change (setCond now UpgradeCompleted ConditionFalse re msg (setLabel upgradeStateLabel StateFailed u)
          = v) in Hv. subst v. set (v := setCond _ _ _ _ _ _).
  assert (Hl : stateOf v = StateFailed) by apply stateOf_setLabel.
  assert (Hc : forall c, condStatus v c = if decide (UpgradeCompleted = c) then ConditionFalse
                                   else condStatus u c).
  { intros c. unfold v, condStatus. by rewrite status_setCond. }
  apply step_phases; [done| | |].
  - intros c. rewrite Hc. case_decide; [subst c; right; by apply cm_failed|by left].
  - right. rewrite Hl. apply lm_failed. by rewrite Hc.
  - eapply fills_trans; [|by apply fills_setCond]. by apply fills_same.
Qed.

(** ** Results of a node *)

(** What recording results of one node amounts to, however many are recorded at once. *)
Definition nodeStep (n : string) (u v : Upgrade) : Prop :=
  upKey v = upKey u /\ moved n u v /\ up_SingleNode v = up_SingleNode u /\
  (forall c, condStatus v c = condStatus u c \/
     c ∈ [NodesUpgraded; UpgradeCompleted] /\ condMove u v c (condStatus v c)) /\
  (stateOf v = stateOf u \/
     stateOf v ∈ [StateFailed; StateSucceeded] /\ labelMove u v (stateOf v)) /\ fills u v.

Lemma nodeStep_step n u v : nodeStep n u v -> step u v.
Proof.
  intros (Hk & Hm & Hs & Hc & Hl & Hf). split; [done|by exists n| | |done|by left].
  - intros c. destruct (Hc c) as [|[_ ?]]; auto.
  - destruct Hl as [|[_ ?]]; auto.
Qed.

Lemma nodeStep_refl n u : nodeStep n u u.
Proof. split_and!; [done|split; [done|by left]|done|by left|by left|by apply fills_same]. Qed.

Lemma setNodeUpgradeStatus_cases n s re msg v :
  let v' := setNodeUpgradeStatus now n s re msg v in
  exists v1, up_Conditions v1 = up_Conditions v /\ stateOf v1 = stateOf v /\
    (forall m, nodeState v1 m = if decide (n = m) then s else nodeState v m) /\
    (v' = v1 \/
     s = StateFailed /\ v' = setConditionAndMark now NodesUpgraded ConditionFalse re msg v1 \/
     (stateOf v = StateUpgradingNodes /\ s <> StateFailed /\
        forall m, active (nodeState v1 m) = false) /\
       v' = setConditionAndMark now NodesUpgraded ConditionTrue "" "" v1).
Proof.
  intros v'. unfold v', setNodeUpgradeStatus. set (v0 := up_set_NodeStatuses _ v).
  assert (Hv0 : forall m, nodeState v0 m = nodeState v m).
  { intros m. unfold nodeState, v0. cbn. by destruct (up_NodeStatuses v). }
  case_bool_decide as Hst.
  { exists v0. split_and!; auto. intros m. rewrite Hv0. case_decide; [subst m|done].
    rewrite <- Hv0. unfold nodeState. by rewrite Hst. }
  set (v1 := up_set_NodeStatuses _ v0). exists v1. split_and!; [done..| |].
  { intros m. rewrite <- Hv0. unfold nodeState, v1. cbn [up_NodeStatuses up_set_NodeStatuses].
    unfold up_set_NodeStatuses, up_NodeStatuses at 1. cbn [up_status ust_NodeStatuses up_set_status].
    rewrite gm_get_set. by case_decide. }
  destruct (String.eqb_spec s StateFailed); [auto|].
  destruct (_ && _) eqn:E; [|auto].
  apply andb_true_iff in E as [E%String.eqb_eq Hall]. right; right. split_and!; [done|done| |done].
  intros m. by apply allSucceeded_inactive.
Qed.

(** A failed node fails the upgrade. *)
Lemma mark_failed re msg u :
  let v := setConditionAndMark now NodesUpgraded ConditionFalse re msg u in
  condStatus v UpgradeCompleted = ConditionFalse /\ stateOf v = StateFailed.
Proof.
  intros v. unfold v. rewrite status_mark, state_mark, decide_True by done.
  unfold verdict, anyFailed. by rewrite !condIs_setCond, orb_true_r.
Qed.

(** Nodes and services done: the upgrade has its verdict. *)
Lemma mark_both u :
  let v := setConditionAndMark now NodesUpgraded ConditionTrue "" "" u in
  condStatus v SystemServicesUpgraded = ConditionTrue -> stateOf v ∈ [StateFailed; StateSucceeded].
Proof.
  intros v. unfold v. rewrite status_mark, !decide_False, state_mark by done. intros Hs.
  unfold verdict. case_match; [set_solver|]. unfold bothDone.
  rewrite !condIs_setCond. cbn. unfold condIs. fold (condStatus u SystemServicesUpgraded).
  rewrite Hs. set_solver.
Qed.

(** Recording a result on top of earlier ones, as far as conditions and label go. *)
Definition resultOk (u v : Upgrade) : Prop :=
  (forall c, condStatus v c = condStatus u c \/
     c ∈ [NodesUpgraded; UpgradeCompleted] /\ condMove u v c (condStatus v c)) /\
  (stateOf v = stateOf u \/
     stateOf v ∈ [StateFailed; StateSucceeded] /\ labelMove u v (stateOf v)).

(** A node that gets active does so before all nodes are reported done. *)
Definition inTime (u v : Upgrade) (s : string) : Prop :=
  active s = true -> condStatus v NodesUpgraded = ConditionTrue ->
  condStatus u NodesUpgraded = ConditionTrue.

Lemma resultOk_ext u v v' n s :
  up_Conditions v' = up_Conditions v -> stateOf v' = stateOf v ->
  (forall m, nodeState v' m = if decide (n = m) then s else nodeState v m) -> inTime u v s ->
  resultOk u v -> resultOk u v'.
Proof.
  intros Hconds Hl Hn Hs [H1 H2].
  assert (Hc : forall c, condStatus v' c = condStatus v c)
    by (intros c; unfold condStatus; by rewrite Hconds).
  split.
  - intros c. rewrite Hc. destruct (H1 c) as [|[? Hm]]; [by left|].
    destruct (active s) eqn:Ea; [destruct (decide (c = NodesUpgraded /\
                condStatus v c = ConditionTrue)) as [[-> Ht]|Hne]|].
    + left. rewrite Ht. symmetry. by apply Hs.
    + right. split; [done|]. eapply condMove_ext; [..|exact Hm]; [done|done|]. tauto.
    + right. split; [done|]. eapply condMove_ext; [..|exact Hm]; [done|done|].
      intros _ _ m. rewrite Hn. by case_decide.
  - rewrite Hl. destruct H2 as [|[? Hm]]; [by left|right]. split; [done|].
    destruct Hm; constructor; rewrite ?Hc; done.
Qed.

Lemma resultOk_failed re msg u v :
  resultOk u v -> resultOk u (setConditionAndMark now NodesUpgraded ConditionFalse re msg v).
Proof.
  intros [H1 _]. pose proof (mark_failed re msg v) as [Hc Hl]. cbv zeta in Hc, Hl.
  set (v' := setConditionAndMark _ _ _ _ _ v) in *. split.
  - intros c. destruct (decide (c = UpgradeCompleted)) as [->|Hne].
    { right. split; [set_solver|]. rewrite Hc. by apply cm_failed. }
    unfold v' at 1 3. rewrite status_mark, decide_False by done.
    case_decide as Hd; [subst c; right; split; [set_solver|by apply cm_nodeFailed]|].
    destruct (H1 c) as [|[Hin _]]; [by left|]. set_unfold in Hin. by destruct Hin as [->|[->|[]]].
  - right. rewrite Hl. split; [set_solver|by apply lm_failed].
Qed.

Lemma resultOk_upgraded u v :
  stateOf v = StateUpgradingNodes -> (forall m, active (nodeState v m) = false) -> resultOk u v ->
  resultOk u (setConditionAndMark now NodesUpgraded ConditionTrue "" "" v).
Proof.
  intros Hst Hia [H1 H2].
  assert (Hu : stateOf u = StateUpgradingNodes).
  { destruct H2 as [<-|[Hl _]]; [done|]. rewrite Hst in Hl. in_cases Hl. }
  pose proof (mark_verdict NodesUpgraded ConditionTrue "" "" u v ltac:(done)) as Hver.
  cbv zeta in Hver. set (v' := setConditionAndMark _ _ _ _ _ v) in *.
  assert (Hnu : condStatus v' NodesUpgraded = ConditionTrue) by (by unfold v'; rewrite status_mark).
  assert (Hss : condStatus v' SystemServicesUpgraded = condStatus v SystemServicesUpgraded)
    by (by unfold v'; rewrite status_mark).
  split.
  - intros c. destruct (decide (c = UpgradeCompleted)) as [->|Hne].
    + destruct Hver as [[Hc Hl]|(Hc & _)]; [|right; split; [set_solver|done]].
      rewrite Hc. destruct (H1 UpgradeCompleted) as [|[? Hm]]; [by left|right].
      split; [done|]. rewrite Hst in Hl. move_inv Hm; [by apply cm_started|].
      by apply cm_succeeded; [rewrite Hss|].
    + unfold v' at 1 3. rewrite status_mark, decide_False by done.
      case_decide as Hd; [subst c; right; split; [set_solver|apply cm_upgraded; [done| |]]|].
      { intros m. unfold v'. by rewrite (proj1 (proj2 (mark_sameNodes _ _ _ _ _))). }
      { intros Hsv. destruct Hver as [[Hc _]|(_ & ? & _)]; [|done]. by apply mark_both. }
      destruct (H1 c) as [|[Hin _]]; [by left|]. set_unfold in Hin. by destruct Hin as [->|[->|[]]].
  - destruct Hver as [[_ ->]|(_ & ? & ?)]; [left; congruence|by right].
Qed.

Lemma resultOk_set n s re msg u v :
  inTime u v s -> resultOk u v -> resultOk u (setNodeUpgradeStatus now n s re msg v).
Proof.
  intros Hs H. destruct (setNodeUpgradeStatus_cases n s re msg v) as (v1 & Hc & Hl & Hn & Hcases).
  pose proof (resultOk_ext u v v1 n s Hc Hl Hn Hs H) as H1.
  destruct Hcases as [->|[[_ ->]|[(Hu & _ & Hin) ->]]];
    [done|by apply resultOk_failed|apply resultOk_upgraded; [congruence|done..]].
Qed.

Lemma fills_set n s re msg v : fills v (setNodeUpgradeStatus now n s re msg v).
Proof.
  destruct (setNodeUpgradeStatus_cases n s re msg v) as (v1 & Hc & _ & _ & Hcases).
  eapply fills_trans; [by apply (fills_same v v1)|].
  destruct Hcases as [->|[[_ ->]|[_ ->]]]; [by apply fills_same|by apply fills_mark..].
Qed.

(** Which result has all nodes reported done. *)
Lemma upgraded_set n s re msg v :
  condStatus (setNodeUpgradeStatus now n s re msg v) NodesUpgraded = ConditionTrue ->
  condStatus v NodesUpgraded = ConditionTrue \/ active s = false /\ s <> StateFailed.
Proof.
  intros H. destruct (setNodeUpgradeStatus_cases n s re msg v) as (v1 & Hc & _ & Hn & Hcases).
  destruct Hcases as [Hv|[[_ Hv]|[(_ & Hf & Hin) Hv]]]; rewrite Hv in H.
  - left. unfold condStatus. by rewrite <- Hc.
  - by rewrite status_mark in H.
  - right. specialize (Hin n). by rewrite Hn, decide_True in Hin.
Qed.

(** Whatever was recorded of the node before, a legal state is recorded now. *)
Lemma nodeStep_set n s re msg u v :
  nodeStep n u v -> nodeMove u n s -> inTime u v s -> nodeStep n u (setNodeUpgradeStatus now n s re msg v).
Proof.
  intros (Hk & [Ho _] & Hsg & Hc & Hl & Hf) Hm Hs. set (v' := setNodeUpgradeStatus now n s re msg v).
  assert (Hid : identity v' = identity v) by apply setNodeUpgradeStatus_frame.
  pose proof (resultOk_set n s re msg u v Hs (conj Hc Hl)) as [Hc' Hl']. unfold identity in Hid.
  split_and!; [unfold upKey in *; congruence| |congruence|done|done|].
  2:{ eapply fills_trans; [exact Hf|apply fills_set]. }
  split; [intros m Hne|right]; unfold v'; rewrite nodeState_set;
    [rewrite decide_False by done; by apply Ho|by rewrite decide_True].
Qed.

Lemma step_set n s re msg u :
  nodeMove u n s -> step u (setNodeUpgradeStatus now n s re msg u).
Proof. intros Hm. eapply nodeStep_step, nodeStep_set; [apply nodeStep_refl|done|by intros _]. Qed.
End Writes.
End Steps.
