(* ===== verification/UpgradeRegime.v ===== *)
(** The handlers that carry an upgrade through its nodes ([UpgradeNodes]) against the state
    machine of [UpgradeSteps], under any interference.

    A handler decides on the upgrade it was given or finds in its cache, which may be
    stale, and writes the upgrade it read with a change.  The conflict check makes that a
    step from the stored upgrade, so the guards of the code are guards of the step. *)

From S2P Require Import Prelude K8s NodeUtil ApiServer Upgrade UpgradeJobs UpgradeWorld.
From S2P Require Import UpgradeNodes UpgradeSteps.

Local Open Scope Z_scope.

Section Worlds.
(** The upgrades of clusters with a single node. *)
Context (single : string * string -> Prop).

(** ** Worlds *)

(** Upgrades and secrets are stored under their names, and the cache holds versions of
    upgrades the server has handed out.  Where the upgrade or the cached nodes say that the
    cluster has one node, the upgrade is one of the [single] ones. *)
Definition secKey (s : Secret) : string := om_Name (sec_meta s).
Definition singleOk (u : Upgrade) : Prop := up_SingleNode u <> "" -> single (upKey u).

Definition wf (w : World) : Prop :=
  store_wf (w_upgrades w) /\
  (forall k o, st_objs (w_upgrades w) !! k = Some o -> upKey (o_val o) = k) /\
  (forall o, o ∈ c_upgrades (w_cache w) -> known (w_upgrades w) (upKey (o_val o)) o) /\
  store_wf (w_secrets w) /\
  (forall k o, st_objs (w_secrets w) !! k = Some o -> secKey (o_val o) = k) /\
  (forall k o, st_objs (w_upgrades w) !! k = Some o -> singleOk (o_val o)) /\
  (length (c_nodes (w_cache w)) = 1%nat -> forall k, single k).

(** What an upgrade comes from: the stored one, or one created since. *)
Definition origin (w : World) (k : string * string) (u : Upgrade) : Prop :=
  (exists o, st_objs (w_upgrades w) !! k = Some o /\ u = o_val o) \/ upKey u = k /\ fresh u.

Abbreviation steps := (rtc (step single)) (only parsing).

Lemma steps_key u v : steps u v -> upKey v = upKey u.
Proof. induction 1 as [|u v w Hs _ IH]; [done|]. by rewrite IH, (st_key _ _ _ Hs). Qed.

Lemma steps_singleOk u v : steps u v -> singleOk u -> singleOk v.
Proof.
  induction 1 as [|u v w Hs _ IH]; [done|]. intros Hu. apply IH. unfold singleOk in *.
  destruct Hs as [Hk _ _ _ _ [->|[->|?]]]; rewrite Hk; auto.
Qed.

Definition evolves (w w' : World) : Prop :=
  wf w ->
  wf w' /\ store_ext (w_upgrades w) (w_upgrades w') /\ store_ext (w_secrets w) (w_secrets w') /\
  forall k o, st_objs (w_upgrades w') !! k = Some o ->
    exists u, origin w k u /\ steps u (o_val o).

#[export] Instance evolves_preorder : PreOrder evolves.
Proof.
  split.
  - intros w Hw. split_and!; [done|reflexivity..|]. intros k o Ho. exists (o_val o).
    split; [left; eauto|constructor].
  - intros w1 w2 w3 H12 H23 Hw1. destruct (H12 Hw1) as (Hw2 & He & Hse & Ho).
    destruct (H23 Hw2) as (Hw3 & He' & Hse' & Ho'). split_and!; [done|by etransitivity..|].
    intros k o Hk. destruct (Ho' k o Hk) as (u & [(o2 & Hk2 & ->)|Hnew] & Hr).
    + destruct (Ho k o2 Hk2) as (u' & Hor & Hr'). exists u'. split; [done|by etransitivity].
    + exists u. split; [by right|done].
Qed.

Lemma upgrade_evolves_wf w w' : wf w -> evolves w w' -> wf w'.
Proof. intros Hw H. by apply H. Qed.

#[export] Instance upgradeRegime : Regime World :=
  {| may := evolves; sane := wf; sane_may := upgrade_evolves_wf |}.

(** Nothing of it concerns the other resources. *)
Lemma evolves_same w w' :
  w_upgrades w' = w_upgrades w -> w_secrets w' = w_secrets w -> w_cache w' = w_cache w ->
  evolves w w'.
Proof.
  intros Hu Hs Hc Hw. unfold wf. rewrite Hu, Hs, Hc.
  split_and!; [apply Hw..|reflexivity|reflexivity|].
  intros k o Ho. exists (o_val o). split; [left; eauto|constructor].
Qed.

(** A write over the stored version. *)
Lemma evolves_write w o v :
  st_objs (w_upgrades w) !! upKey (o_val o) = Some o -> steps (o_val o) v ->
  evolves w (set_store (written (fun _ new => new) (upKey (o_val o)) o v (w_upgrades w)) w).
Proof.
  intros Ho HL (Hs & Hn & Hc & Hss & Hsn & Hsg & Hone).
  pose proof (written_ext (fun _ new => new) (upKey (o_val o)) o v (w_upgrades w)) as Hext.
  destruct (Hext Hs) as (Hs' & _). split_and!; simpl; [|done|reflexivity|].
  - split_and!; simpl; [done| | |done|done| |done].
    + intros k o' [[<- <-]|[_ ?]]%lookup_insert_Some; [by apply steps_key|by apply Hn].
    + intros o' Ho'. eapply known_ext; [exact Hs|exact Hext|by apply Hc].
    + intros k o' [[<- <-]|[_ ?]]%lookup_insert_Some; [|by eapply Hsg].
      eapply steps_singleOk; [done|by eapply Hsg].
  - intros k o' [[<- <-]|[_ Hk']]%lookup_insert_Some.
    + exists (o_val o). split; [left; eauto|done].
    + exists (o_val o'). split; [left; eauto|constructor].
Qed.

(** The upgrade goes. *)
Lemma evolves_delete w k :
  evolves w (set_store (mkStore (st_rv (w_upgrades w)) (delete k (st_objs (w_upgrades w)))) w).
Proof.
  intros (Hs & Hn & Hc & Hss & Hsn & Hsg & Hone).
  assert (Hsub : forall k' o, delete k (st_objs (w_upgrades w)) !! k' = Some o ->
                   st_objs (w_upgrades w) !! k' = Some o)
    by (intros k' o [_ Ho]%lookup_delete_Some; done).
  split_and!; simpl; [split_and!; simpl; eauto| |reflexivity|].
  - intros k' o Ho. simpl in Ho. eauto.
  - intros o Ho. destruct (Hc o Ho) as [Hle Hk]. split; [done|]. simpl. eauto.
  - intros _. split_and!; simpl; [intros k' o Ho; simpl in Ho; eauto|lia|eauto].
  - intros k' o Ho. exists (o_val o). split; [left; eauto|constructor].
Qed.

Lemma evolves_secret w o v :
  secKey v = secKey (o_val o) ->
  evolves w (set_store (written (fun _ new => new) (secKey (o_val o)) o v (w_secrets w)) w).
Proof.
  intros Hk (Hs & Hn & Hc & Hss & Hsn & Hsg & Hone).
  pose proof (written_ext (fun _ new => new) (secKey (o_val o)) o v (w_secrets w)) as Hext.
  destruct (Hext Hss) as (Hss' & _). split_and!; simpl; [|reflexivity|done|].
  - split_and!; simpl; try done.
    intros k o' [[<- <-]|[_ ?]]%lookup_insert_Some; [done|by apply Hsn].
  - intros k o' Ho. exists (o_val o'). split; [left; eauto|constructor].
Qed.

(** What holds of new upgrades and survives the steps holds of all. *)
Lemma evolves_invariant (I : Upgrade -> Prop) w w' :
  (forall u, fresh u -> I u) -> (forall u v, step single u v -> I u -> I v) ->
  wf w -> evolves w w' ->
  (forall k o, st_objs (w_upgrades w) !! k = Some o -> I (o_val o)) ->
  forall k o, st_objs (w_upgrades w') !! k = Some o -> I (o_val o).
Proof.
  intros Hnew HL Hw He HI k o Ho. destruct (He Hw) as (_ & _ & _ & Hor).
  destruct (Hor k o Ho) as (u & Hu & Hr).
  assert (Iu : I u) by (destruct Hu as [(o0 & Ho0 & ->)|[_ ?]]; eauto).
  clear Hu. induction Hr; eauto.
Qed.
End Worlds.

(** ** What the handlers write *)

Section NodeWrites.
Context {UL : UpgradeLib} `{!JsonCodec (gomap string)} `{!JsonCodec UpgradeConfig} (P : Proc).
Context (single : string * string -> Prop).

Lemma planJob_nodeStep n conds u v :
  stateOf u = StatePreparingNodes -> nodeStep single n u v ->
  nodeStep single n u (planJobConditions P n conds v).
Proof.
  intros Hu. revert v. induction conds as [|c conds IH]; intros v Hv; simpl; [done|].
  apply IH. repeat case_match; [apply nodeStep_set; [done|apply mv_fail|done]| |done].
  apply nodeStep_set; [done| |done]. apply mv_preload; [by left|set_solver].
Qed.

(** All nodes are reported done only by a job that leaves its node with the new system. *)
Definition doneBy (u : Upgrade) (node : Node) (info : RepoInfo) (jobType : string) (v : Upgrade)
  : Prop :=
  condStatus v NodesUpgraded = ConditionTrue ->
  condStatus u NodesUpgraded = ConditionTrue \/
  osInstalled node info = true /\ jobType <> upgradeJobTypePreDrain.

Lemma doneBy_set u node info jobType v n s re msg :
  doneBy u node info jobType v ->
  (active s = false -> s <> StateFailed ->
     osInstalled node info = true /\ jobType <> upgradeJobTypePreDrain) ->
  doneBy u node info jobType (setNodeUpgradeStatus (pr_now P) n s re msg v).
Proof. intros Hd Hs [H|[Ha Hf]]%upgraded_set; auto. Qed.

(** What an answer of the node job loop records. *)
Lemma nodeJobConditions_Ok u node info jobType conds acc s res s' :
  let n := node_Name (o_val node) in
  nodeJobConditions P u node info jobType conds acc s = (Ok res, s') ->
  (jobType = upgradeJobTypeSingleNodeUpgrade -> single (upKey u)) ->
  nodeStep single n u (jr_upgrade acc) -> doneBy u (o_val node) info jobType (jr_upgrade acc) ->
  (jr_preDrained acc = true -> nodeState u n = nodeStatePreDraining /\
     nodeState (jr_upgrade acc) n <> nodeStatePreDraining) ->
  nodeStep single n u (jr_upgrade res) /\
  (jr_preDrained res = true -> nodeState u n = nodeStatePreDraining /\
     nodeState (jr_upgrade res) n <> nodeStatePreDraining).
Proof.
  intros n. revert acc s. induction conds as [|c conds IH]; intros acc s Hr Hsg Ha Hd Hp;
    cbn [nodeJobConditions] in Hr; cbv zeta in Hr; [run_inv Hr; done|].
  run_inv Hr. apply IH in Hr; [done|done|..]; clear IH Hr; fold n in Hr0.
  - repeat run_inv Hr0; boolify; subst; try done; apply nodeStep_set; try done;
      try (intros _ [?|[? ?]]%Hd; congruence);
      eauto using nodeMove; try (by apply mv_single; [auto|set_solver]).
    by eapply mv_done; [done|set_solver].
  - repeat run_inv Hr0; boolify; subst; try done; apply doneBy_set; done.
  - intros Hpre. repeat run_inv Hr0; boolify; subst; try (by apply Hp);
      (split; [by auto || by apply Hp|]); cbn [jr_upgrade]; by rewrite nodeState_set, decide_True.
Qed.

Lemma condIs_status s u c : condIs s u c = String.eqb (condStatus u c) s.
Proof. done. Qed.

Lemma setHelmChart_open st re msg u :
  condStatus u SystemServicesUpgraded ∉ [ConditionTrue; ConditionFalse] ->
  setHelmChartUpgradeStatus (pr_now P) st re msg u =
  setConditionAndMark (pr_now P) SystemServicesUpgraded st re msg u.
Proof.
  intros H. unfold setHelmChartUpgradeStatus. rewrite !condIs_status.
  do 2 (rewrite (proj2 (String.eqb_neq _ _)) by (intros E; apply H; rewrite E; set_solver)). done.
Qed.

(** A decided condition of the system services is not changed. *)
Lemma manifestJob_decided conds u :
  condTrue u SystemServicesUpgraded || condFalse u SystemServicesUpgraded = true ->
  manifestJobConditions P conds u = u.
Proof.
  intros Hd. induction conds as [|c conds IH]; [done|]. cbn [manifestJobConditions].
  unfold setHelmChartUpgradeStatus. rewrite Hd. by repeat case_match.
Qed.

Lemma manifestJob_step conds u :
  condUnknown u SystemServicesUpgraded = true -> step single u (manifestJobConditions P conds u).
Proof.
  rewrite condIs_status. intros Hu%String.eqb_eq. induction conds as [|c conds IH]; cbn [manifestJobConditions].
  { by apply step_frame; [apply sameNodes_refl|..]. }
  assert (Hset : forall st re msg, st ∈ [ConditionTrue; ConditionFalse] ->
    step single u (manifestJobConditions P conds (setHelmChartUpgradeStatus (pr_now P) st re msg u))).
  { intros st re msg Hst. rewrite setHelmChart_open by (rewrite Hu; set_solver). rewrite manifestJob_decided.
    - apply step_mark; [done|right; by apply cm_servicesDone|done].
    - rewrite !condIs_status, !status_mark. in_cases Hst; by subst. }
  repeat case_match; [apply Hset; set_solver|apply Hset; set_solver|done].
Qed.

Lemma deployment_step u :
  stateOf u = StatePreparingRepo ->
  step single u (setRepoProvisionedCondition (pr_now P) ConditionTrue "" ""
                   (setLabel upgradeStateLabel StateRepoPrepared u)).
Proof.
  intros Hu. apply step_mark_from; [|done|right; by apply cm_repoReady|done].
  by apply relabels_label, lm_repoPrepared.
Qed.
End NodeWrites.

(** ** Regimes the handlers keep to

    They move the upgrade by [steps], acknowledge a drain (the first acknowledgement only
    after they have moved the node from Pre-draining), and remove the upgrade. *)
Record allows (single : string * string -> Prop) {RG : Regime World} := {
  al_wf : forall w, sane w -> wf single w;
  al_ext : forall w w', sane w -> may w w' ->
    store_ext (w_upgrades w) (w_upgrades w') /\ store_ext (w_secrets w) (w_secrets w');
  al_other : forall w w', w_upgrades w' = w_upgrades w -> w_secrets w' = w_secrets w ->
    w_cache w' = w_cache w -> may w w';
  al_step : forall w o v, sane w -> st_objs (w_upgrades w) !! upKey (o_val o) = Some o ->
    rtc (step single) (o_val o) v ->
    may w (set_store (written (fun _ new => new) (upKey (o_val o)) o v (w_upgrades w)) w);
  al_delete : forall w k, sane w ->
    may w (set_store (mkStore (st_rv (w_upgrades w)) (delete k (st_objs (w_upgrades w)))) w);
  al_post : forall w o, sane w -> st_objs (w_secrets w) !! secKey (o_val o) = Some o ->
    may w (set_store (written (fun _ new => new) (secKey (o_val o)) o
                        (acknowledged postDrainAnnotation rke2PostDrainAnnotation (o_val o))
                        (w_secrets w)) w);
  al_pre : forall w o machine node u w1 w2,
    sane w -> st_objs (w_secrets w) !! secKey (o_val o) = Some o ->
    machineSecret machine (o_val o) = true ->
    sane w1 -> node ∈ c_nodes (w_cache w1) ->
    gm_get (node_Annotations (o_val node)) MachineAnnotation = Some machine ->
    sane w2 -> st_objs (w_upgrades w2) !! upKey (o_val u) = Some u ->
    nodeState (o_val u) (node_Name (o_val node)) = nodeStatePreDraining ->
    may w (set_store (written (fun _ new => new) (secKey (o_val o)) o
                        (acknowledged preDrainAnnotation rke2PreDrainAnnotation (o_val o))
                        (w_secrets w)) w) }.

(** The check of the secret handler. *)
Lemma checkEligibleToDrain_Ok u n : checkEligibleToDrain u n = Ok tt <-> othersIdle u n.
Proof.
  assert (H : forall l, firstBusy n l = None <->
    forall m st, (m, st) ∈ l -> m <> n -> nus_State st ∈ [StateSucceeded; nodeStateImagesPreloaded]).
  { intros l. induction l as [|[m st] l IH]; cbn [firstBusy]; [set_solver|].
    destruct (String.eqb_spec m n) as [->|Hne].
    - rewrite IH. setoid_rewrite elem_of_cons. naive_solver.
    - destruct (_ || _) eqn:E.
      + rewrite IH. setoid_rewrite elem_of_cons.
        apply orb_true_iff in E as [E|E]; apply String.eqb_eq in E; set_solver.
      + boolify. split; [done|]. intros Hl. specialize (Hl m st ltac:(set_solver) Hne). set_solver. }
  unfold checkEligibleToDrain, othersIdle.
  specialize (H (map_to_list (default ∅ (up_NodeStatuses u)))).
  setoid_rewrite elem_of_map_to_list in H.
  assert (Hg : forall m, default ∅ (up_NodeStatuses u) !! m = gm_get (up_NodeStatuses u) m)
    by (intros m; by destruct (up_NodeStatuses u)).
  setoid_rewrite Hg in H. rewrite <- H. destruct (firstBusy _ _) as [[]|]; done.
Qed.

(** Splits a computation that does not touch the upgrade. *)
Ltac obeys_step :=
  match goal with
  | |- obeys _ (mret _) _ => apply obeys_ret
  | |- obeys _ (throw _) _ => apply obeys_throw
  | |- obeys _ (lift _) _ => apply obeys_lift
  | |- obeys _ (try _) _ => apply obeys_try
  | |- obeys _ (mapErr _ _) _ => apply obeys_mapErr
  | |- obeys _ (mbind _ _) _ => apply obeys_then; [solve [auto with harv]| |intros ? ?]
  | |- obeys _ (match ?x with _ => _ end) _ => let E := fresh "E" in destruct x eqn:E
  | |- obeys _ (let _ := _ in _) _ => cbv zeta
  end.
Ltac obeys_go := repeat obeys_step; auto with harv.

Section Handle.
Context {UL : UpgradeLib} `{!JsonCodec (gomap string)} `{!JsonCodec UpgradeConfig} (P : Proc).
Context (single : string * string -> Prop) {RG : Regime World} (AL : allows single).

Abbreviation has o := (fun w => known (w_upgrades w) (upKey (o_val o)) o) (only parsing).
Abbreviation anything := (fun _ : World => True) (only parsing).

Lemma stable_has o : stable (has o).
Proof using AL.
  intros w w' Hw Hk HR. eapply known_ext; [|by apply (al_ext _ AL)|done]. by apply (al_wf _ AL).
Qed.

Lemma stable_hasSecret o : stable (fun w => known (w_secrets w) (secKey (o_val o)) o).
Proof using AL.
  intros w w' Hw Hk HR. eapply known_ext; [|by apply (al_ext _ AL)|done]. by apply (al_wf _ AL).
Qed.

Lemma stable_anything : stable anything.
Proof using. done. Qed.

#[local] Hint Resolve stable_has stable_hasSecret stable_anything stable_pure stable_and : harv.

Lemma obeys_Create K j s : stable K -> obeys K (jobClient_Create j) s.
Proof using AL.
  intros HK. apply obeys_call; [done|]. intros w _ _. destruct (_ !! _); [reflexivity|].
  by apply (al_other _ AL).
Qed.

Lemma obeys_enqueueAfter K r k d s : obeys K (enqueueAfter r k d) s.
Proof using AL. intros Hs Hw Hk. split; [done|]. by apply (al_other _ AL). Qed.

Lemma obeys_nodeUpdate K o s : stable K -> obeys K (nodeClient_Update o) s.
Proof using AL.
  intros HK. apply obeys_call; [done|]. intros w _ _. destruct (store_write _ _ _ _) as [r st].
  by apply (al_other _ AL).
Qed.

Lemma obeys_addonUpdate K o s : stable K -> obeys K (addonClient_Update o) s.
Proof using AL.
  intros HK. apply obeys_call; [done|]. intros w _ _. destruct (store_write _ _ _ _) as [r st].
  by apply (al_other _ AL).
Qed.

Lemma obeys_cached {A} K (f : Caches -> outcome A) s : obeys K (cached f) s.
Proof using. apply obeys_readCall. Qed.

Lemma obeys_onInfra {A} K (f : Infra -> outcome A * Infra) s : stable K -> obeys K (onInfra f) s.
Proof using AL.
  intros HK. apply obeys_call; [done|]. intros w _ _. destruct (f _) as [r i].
  by apply (al_other _ AL).
Qed.

(** A write of the upgrade in hand: what is known of the stored one may be used to justify
    it, since it takes effect on that one only. *)
Lemma obeys_upgradeUpdate' K o v s :
  stable K -> (forall w, K w -> has o w) -> upKey v = upKey (o_val o) ->
  (forall w, sane w -> st_objs (w_upgrades w) !! upKey (o_val o) = Some o ->
     rtc (step single) (o_val o) v) ->
  obeys K (upgradeClient_Update (mkObj (o_rv o) v)) s.
Proof using AL.
  intros HK Hk Hkey Hst. unfold upgradeClient_Update. cbn [o_val]. rewrite Hkey.
  apply obeys_update; [done|by auto|]. intros w Hw _ Ho. apply (al_step _ AL); [done|done|].
  by apply (Hst w).
Qed.

Lemma obeys_upgradeUpdate K o v s :
  stable K -> (forall w, K w -> has o w) -> step single (o_val o) v ->
  obeys K (upgradeClient_Update (mkObj (o_rv o) v)) s.
Proof using AL.
  intros HK Hk Hst. apply obeys_upgradeUpdate'; [done|done|by apply st_key in Hst|].
  intros w _ _. by apply rtc_once.
Qed.

Lemma obeys_updateIfChanged K o v s :
  stable K -> (forall w, K w -> has o w) -> step single (o_val o) v ->
  obeys K (updateIfChanged o v) s.
Proof using AL.
  intros HK Hk Hst. unfold updateIfChanged. case_bool_decide; [apply obeys_ret|].
  apply obeys_then; [done|by apply obeys_upgradeUpdate|intros; apply obeys_ret].
Qed.

(** What the caches give. *)
Lemma cacheGet_Ok {A} (sel : Caches -> list A) p c a :
  match List.find p (sel c) with Some a => Ok a | None => Err (ApiNotFound "not found") end = Ok a ->
  a ∈ sel c /\ p a = true.
Proof using.
  destruct (List.find p (sel c)) as [x|] eqn:E; [|done]. intros [= <-].
  apply find_some in E as [??]. by rewrite list_elem_of_In.
Qed.

Lemma cachedUpgrade_known w o : sane w -> o ∈ c_upgrades (w_cache w) -> has o w.
Proof using AL. intros Hw Ho. by apply (al_wf _ AL). Qed.

Lemma metaIs_key ns name u : metaIs ns name (up_meta u) = true -> upKey u = (ns, name).
Proof using. unfold metaIs. intros H. boolify. unfold upKey, up_Namespace, up_Name. by subst. Qed.

Lemma obeys_upgradeGet {B} ns name (g : Obj Upgrade -> Act B) s :
  (forall o s', upKey (o_val o) = (ns, name) -> obeys (has o) (g o) s') ->
  obeys anything (upgradeCache_Get ns name ≫= g) s.
Proof using AL.
  intros Hg. apply obeys_read with (Q := fun o w => has o w /\ upKey (o_val o) = (ns, name)).
  - done.
  - intros w o Hw _ [Hin Hp]%cacheGet_Ok. split; [by apply cachedUpgrade_known|by apply metaIs_key].
  - intros o s'. apply obeys_now. intros _ (_ & _ & Hk).
    eapply obeys_weaken; [|by apply Hg]. by intros _ (_ & ? & _).
Qed.

Lemma obeys_tryUpgradeGet {B} ns name (g : Obj Upgrade + goerror -> Act B) s :
  (forall o s', upKey (o_val o) = (ns, name) -> obeys (has o) (g (inl o)) s') ->
  (forall e s', obeys anything (g (inr e)) s') ->
  obeys anything (try (upgradeCache_Get ns name) ≫= g) s.
Proof using AL.
  intros Hg He. apply obeys_try_read with (Q := fun o w => has o w /\ upKey (o_val o) = (ns, name)).
  - done.
  - intros w o Hw _ [Hin Hp]%cacheGet_Ok. split; [by apply cachedUpgrade_known|by apply metaIs_key].
  - intros o s'. apply obeys_now. intros _ (_ & _ & Hk).
    eapply obeys_weaken; [|by apply Hg]. by intros _ (_ & ? & _).
  - done.
Qed.

Lemma obeys_ensureSingle {B} (g : Obj Upgrade -> Act B) s :
  (forall o s', obeys (has o) (g o) s') -> obeys anything (ensureSingleUpgrade P ≫= g) s.
Proof using AL.
  intros Hg. apply obeys_bind with (Q := fun o w => has o w); [done| | |].
  - unfold ensureSingleUpgrade. apply obeys_then; [done|apply obeys_cached|].
    intros l s'. repeat case_match; (apply obeys_ret || apply obeys_throw).
  - intros o s' Hr Hs Hw _. unfold ensureSingleUpgrade in Hr. run_inv Hr.
    eapply (obeys_call_Ok anything) in Hr0 as (w & Hw' & _ & _ & Hf); [|done..].
    injection Hf as Hf Hx. destruct x as [|u [|]]; [done| |done]. run_inv Hr.
    apply cachedUpgrade_known; [done|].
    assert (Hin : u ∈ [u]) by set_solver. rewrite <- Hf in Hin. by apply filter_elem in Hin as [? _].
  - intros o s' Ho. eapply obeys_weaken; [|apply Hg]. done.
Qed.
#[local] Hint Extern 5 (obeys _ _ _) => apply obeys_readCall : harv.
#[local] Hint Resolve obeys_Create obeys_enqueueAfter obeys_nodeUpdate obeys_addonUpdate : harv.

Lemma obeys_IsRestoreVM K s : stable K -> obeys K IsRestoreVM s.
Proof using. intros HK. unfold IsRestoreVM, settingCache_Get, cacheGet. obeys_go. Qed.

Lemma obeys_sendRestoreVMJob K u node info s :
  stable K -> obeys K (sendRestoreVMJob u node info) s.
Proof using AL.
  intros HK. unfold sendRestoreVMJob. pose proof obeys_IsRestoreVM.
  unfold configMapCache_Get, jobCache_Get, cacheGet. obeys_go.
Qed.

Lemma obeys_setNodeWaitRebootLabel K o info s :
  stable K -> obeys K (setNodeWaitRebootLabel o info) s.
Proof using AL. intros HK. unfold setNodeWaitRebootLabel. obeys_go. Qed.

#[local] Hint Resolve obeys_sendRestoreVMJob obeys_setNodeWaitRebootLabel : harv.

Lemma obeys_nodeJobConditions K u node info jobType conds acc s :
  stable K -> obeys K (nodeJobConditions P u node info jobType conds acc) s.
Proof using AL.
  intros HK. revert acc s. induction conds as [|c conds IH]; intros acc s;
    cbn [nodeJobConditions]; obeys_go.
Qed.

Lemma obeys_retryUpdateNode n name f s : obeys anything (retryUpdateNode n name f) s.
Proof using AL.
  revert s. induction n as [|n IH]; intros s; cbn [retryUpdateNode]; unfold nodeCache_Get, cacheGet;
    obeys_go.
Qed.

(** ** The secret handler *)

Lemma obeys_createHookJob o n jobType next s :
  nodeMove single (o_val o) n next -> obeys (has o) (createHookJob P o n jobType next) s.
Proof using AL.
  intros Hm. unfold createHookJob, checkPendingHookJobs. obeys_go.
  apply obeys_upgradeUpdate; [auto with harv|done|]. by apply step_set.
Qed.

Lemma obeys_secret secret s : obeys anything (secret_OnChanged P secret) s.
Proof using AL.
  unfold secret_OnChanged. destruct secret as [os|]; [|apply obeys_ret].
  do 3 (case_match; [apply obeys_ret|]). apply obeys_ensureSingle. intros o s'.
  destruct (String.eqb_spec (stateOf (o_val o)) StateUpgradingNodes) as [Hst|]; [|apply obeys_ret].
  cbn [negb]. case_match; [|apply obeys_ret].
  apply obeys_then; [auto with harv|apply obeys_try; unfold machineCache_Get, cacheGet; auto with harv|].
  intros r s1. destruct r as [m|]; [|apply obeys_ret].
  destruct (mach_NodeRef m) as [n|]; [|apply obeys_ret].
  destruct (String.eqb_spec (nodeState (o_val o) n) nodeStateImagesPreloaded) as [He|_].
  { case_match; [apply obeys_ret|]. case_match.
    - apply obeys_then; [auto with harv| |intros; apply obeys_ret].
      apply obeys_upgradeUpdate; [auto with harv|done|]. by apply step_set, mv_pause.
    - apply obeys_bind with (Q := fun _ _ => othersIdle (o_val o) n);
        [auto with harv|apply obeys_lift| |].
      + intros [] s2 Hr _ _ _. run_inv Hr. by apply checkEligibleToDrain_Ok.
      + intros _ s2 Hi. by apply obeys_createHookJob, mv_preDrain. }
  destruct (String.eqb_spec (nodeState (o_val o) n) nodeStateUpgradePaused) as [He|_].
  { case_match; [apply obeys_ret|]. case_match; [apply obeys_ret|].
    apply obeys_then; [auto with harv| |intros; auto with harv].
    apply obeys_upgradeUpdate; [auto with harv|done|]. by apply step_set, mv_unpause. }
  destruct (String.eqb_spec (nodeState (o_val o) n) nodeStatePreDrained) as [He|_];
    [|apply obeys_ret].
  case_match; [|apply obeys_ret].
  apply obeys_bind with (Q := fun _ _ => othersIdle (o_val o) n); [auto with harv|apply obeys_lift| |].
  - intros [] s2 Hr _ _ _. run_inv Hr. by apply checkEligibleToDrain_Ok.
  - intros _ s2 Hi. by apply obeys_createHookJob, mv_postDrain.
Qed.

(** ** Secrets *)

Lemma obeys_machinePlanSecret {B} K machine (g : Obj Secret -> Act B) s :
  stable K ->
  (forall os s', machineSecret machine (o_val os) = true ->
     obeys (fun w => K w /\ known (w_secrets w) (secKey (o_val os)) os) (g os) s') ->
  obeys K (machinePlanSecret machine ≫= g) s.
Proof using AL.
  intros HK Hg.
  apply obeys_bind with (Q := fun os w => known (w_secrets w) (secKey (o_val os)) os /\
                                machineSecret machine (o_val os) = true); [done| | |].
  - unfold machinePlanSecret, secretClient_List. obeys_go.
  - intros os s' Hr Hs Hw Hk. unfold machinePlanSecret, secretClient_List in Hr. run_inv Hr.
    eapply (obeys_call_Ok K) in Hr0 as (w & Hw' & _ & _ & Hf); [|done..].
    injection Hf as Hf Hx. destruct x as [|u [|]]; [done| |done]. run_inv Hr.
    assert (Hin : u ∈ [u]) by set_solver. rewrite <- Hf in Hin. apply filter_elem in Hin as [Hin Hm].
    split; [|done]. apply list_elem_of_fmap in Hin as ([k o] & -> & Hin%elem_of_map_to_list).
    destruct (al_wf _ AL _ Hw') as (_ & _ & _ & Hss & Hsn & _).
    apply known_stored; [done|]. simpl. by rewrite (Hsn _ _ Hin).
  - intros os s' [Hos Hm]. eapply obeys_weaken; [|by apply Hg]. done.
Qed.

Lemma obeys_ackPost K os s :
  stable K -> (forall w, K w -> known (w_secrets w) (secKey (o_val os)) os) ->
  obeys K (acknowledge postDrainAnnotation rke2PostDrainAnnotation os) s.
Proof using AL.
  intros HK Hk. apply obeys_then; [done| |intros; apply obeys_ret].
  apply (obeys_update (A := Secret) K); [done|by auto|].
  intros w Hw _ Ho. by apply (al_post _ AL).
Qed.

Lemma obeys_ackPre K os machine node u w1 w2 s :
  stable K -> (forall w, K w -> known (w_secrets w) (secKey (o_val os)) os) ->
  machineSecret machine (o_val os) = true ->
  sane w1 -> node ∈ c_nodes (w_cache w1) ->
  gm_get (node_Annotations (o_val node)) MachineAnnotation = Some machine ->
  sane w2 -> st_objs (w_upgrades w2) !! upKey (o_val u) = Some u ->
  nodeState (o_val u) (node_Name (o_val node)) = nodeStatePreDraining ->
  obeys K (acknowledge preDrainAnnotation rke2PreDrainAnnotation os) s.
Proof using AL.
  intros HK Hk Hm Hw1 Hn Ha Hw2 Hu Hs. apply obeys_then; [done| |intros; apply obeys_ret].
  apply (obeys_update (A := Secret) K); [done|by auto|].
  intros w Hw _ Ho. exact (al_pre _ AL w os machine node u w1 w2 Hw Ho Hm Hw1 Hn Ha Hw2 Hu Hs).
Qed.

(** ** The job handler *)

(** An update that was needed and went through found the upgrade it was made from. *)
Lemma updateIfChanged_Ok K o v s s' :
  stable K -> (forall w, K w -> has o w) -> upKey v = upKey (o_val o) ->
  updateIfChanged o v s = (Ok tt, s') -> relies may (sys_turns s) -> sane (sys_world s) ->
  K (sys_world s) -> o_val o <> v ->
  exists w, sane w /\ st_objs (w_upgrades w) !! upKey (o_val o) = Some o.
Proof using.
  intros HK Hk Hkey Hr Hs Hw HKw Hne. unfold updateIfChanged in Hr.
  rewrite bool_decide_eq_false_2 in Hr by done. run_inv Hr.
  unfold upgradeClient_Update in Hr0. cbn [o_val] in Hr0. rewrite Hkey in Hr0.
  eapply (obeys_update_Ok (A := Upgrade) K) in Hr0 as (w & Hw' & _ & _ & Ho & _);
    [eauto|done|by auto|done..].
Qed.

Definition jobOk (job : Job) : Prop :=
  gm_get (job_Labels job) upgradeJobTypeLabel = Some upgradeJobTypeSingleNodeUpgrade ->
  forall name, gm_get (job_Labels job) harvesterUpgradeLabel = Some name ->
    single (pr_namespace P, name).

Lemma obeys_syncNodeJob job s : jobOk job -> obeys anything (syncNodeJob P job) s.
Proof using AL.
  intros Hok. unfold syncNodeJob, jobOk in *.
  destruct (gm_get (job_Labels job) upgradeJobTypeLabel) as [jobType|]; [|apply obeys_throw].
  case_match; [|apply obeys_ret].
  apply obeys_try_read with (Q := fun n _ => exists w, sane w /\ n ∈ c_nodes (w_cache w)).
  { done. }
  { intros w n Hw _ [Hin _]%cacheGet_Ok. eauto. }
  2:{ intros; apply obeys_ret. }
  intros node s1. apply obeys_now. intros _ (_ & w1 & Hw1 & Hnode).
  apply obeys_weaken with (K' := anything); [done|].
  destruct (gm_get _ MachineAnnotation) as [machine|] eqn:Hma; [|apply obeys_ret].
  destruct (gm_get _ harvesterUpgradeLabel) as [name|]; [|apply obeys_ret].
  apply obeys_upgradeGet. intros o s2 Hkey.
  apply obeys_then; [auto with harv|apply obeys_lift|]. intros info s3.
  set (n := node_Name (o_val node)).
  apply obeys_bind with (Q := fun res _ => nodeStep single n (o_val o) (jr_upgrade res) /\
    (jr_preDrained res = true -> nodeState (o_val o) n = nodeStatePreDraining /\
       nodeState (jr_upgrade res) n <> nodeStatePreDraining));
    [auto with harv|apply obeys_nodeJobConditions; auto with harv| |].
  { intros res s4 Hr _ _ _. eapply nodeJobConditions_Ok in Hr; [exact Hr| |apply nodeStep_refl|by left|done].
    intros ->. rewrite Hkey. by apply Hok. }
  intros res s4 [Hh Hpre].
  apply obeys_bind with (Q := fun _ _ => o_val o <> jr_upgrade res ->
    exists w, sane w /\ st_objs (w_upgrades w) !! upKey (o_val o) = Some o); [auto with harv| | |].
  { apply obeys_updateIfChanged; [auto with harv|done|by eapply nodeStep_step]. }
  { intros [] s5 Hr Hs Hw Hk. eapply (updateIfChanged_Ok (has o)); [auto with harv|done| |done..].
    apply Hh. }
  intros _ s5 Hst. apply obeys_machinePlanSecret; [auto with harv|]. intros os s6 Hm.
  apply obeys_then; [auto with harv| |].
  - destruct (jr_preDrained res) eqn:Ep; [|apply obeys_ret].
    destruct (Hpre eq_refl) as [Hs1 Hs2].
    destruct Hst as (w2 & Hw2 & Ho); [by intros Heq; rewrite <- Heq in Hs2|].
    apply (obeys_ackPre _ os machine node o w1 w2); [auto with harv|by intros w []|done..].
  - intros _ s7. case_match; [|apply obeys_ret]. apply obeys_ackPost; [auto with harv|by intros w []].
Qed.

Lemma obeys_syncPlanJob job planName n s : obeys anything (syncPlanJob P job planName n) s.
Proof using AL.
  unfold syncPlanJob, planCache_Get, cacheGet. apply obeys_then; [done|auto with harv|].
  intros plan s1. case_match; [|apply obeys_ret]. apply obeys_upgradeGet. intros o s2 _.
  destruct (String.eqb_spec (stateOf (o_val o)) StatePreparingNodes) as [Hst|]; [|apply obeys_ret].
  cbn [negb]. apply obeys_updateIfChanged; [auto with harv|done|].
  apply (nodeStep_step _ n), planJob_nodeStep; [done|].
  case_match; [|apply nodeStep_refl].
  apply nodeStep_set; [apply nodeStep_refl| |done]. apply mv_preload; [by left|set_solver].
Qed.

Lemma obeys_syncManifestJob job s : obeys anything (syncManifestJob P job) s.
Proof using AL.
  unfold syncManifestJob. case_match; [|apply obeys_ret]. apply obeys_tryUpgradeGet.
  - intros o s1 _. case_match; [apply obeys_ret|].
    destruct (condUnknown (o_val o) SystemServicesUpgraded) eqn:Hu; cbn [negb orb]; [|apply obeys_ret].
    case_match; [apply obeys_ret|]. apply obeys_updateIfChanged; [auto with harv|done|].
    by apply manifestJob_step.
  - intros e s1. case_match; [apply obeys_ret|apply obeys_throw].
Qed.

Lemma obeys_job job s : (forall j, job = Some j -> jobOk j) -> obeys anything (job_OnChanged P job) s.
Proof using AL.
  intros Hok. unfold job_OnChanged. destruct job as [job|]; [|apply obeys_ret].
  case_match; [apply obeys_ret|]. cbv zeta. repeat case_match; try apply obeys_ret.
  - apply obeys_syncPlanJob.
  - apply obeys_syncNodeJob. by apply Hok.
  - apply obeys_syncManifestJob.
Qed.

(** ** The other handlers *)

Lemma obeys_node node s : obeys anything (node_OnChanged P node) s.
Proof using AL.
  unfold node_OnChanged. destruct node as [node|]; [|apply obeys_ret].
  case_match; [apply obeys_ret|]. destruct (gm_get _ _) as [expected|]; [|apply obeys_ret].
  apply obeys_ensureSingle. intros o s1. case_match; [apply obeys_ret|].
  destruct (String.eqb_spec (nodeState (o_val o) (node_Name node)) nodeStateWaitingReboot) as [Hst|];
    [|apply obeys_ret].
  cbn [negb]. destruct (gm_get _ _) as [machine|]; [|apply obeys_ret].
  apply obeys_machinePlanSecret; [auto with harv|]. intros os s2 _.
  case_match; [|auto with harv].
  apply obeys_then; [auto with harv|case_match; auto with harv; apply obeys_ret|]. intros _ s3.
  apply obeys_then; [auto with harv| |].
  { apply obeys_upgradeUpdate; [auto with harv|by intros w []|]. apply step_set.
    eapply mv_done; [exact Hst|set_solver]. }
  intros _ s4. apply obeys_then; [auto with harv| |].
  - case_match; [|apply obeys_ret]. apply obeys_ackPost; [auto with harv|by intros w []].
  - intros _ s5. apply obeys_weaken with (K' := anything); [done|]. apply obeys_retryUpdateNode.
Qed.

Lemma obeys_plan plan s : obeys anything (plan_OnChanged P plan) s.
Proof using AL.
  unfold plan_OnChanged. destruct plan as [plan|]; [|apply obeys_ret].
  case_match; [|apply obeys_ret]. case_match; [apply obeys_ret|].
  apply obeys_then; [done|unfold allAtLatestHash; obeys_go|]. intros b s1.
  case_match; [auto with harv|]. apply obeys_tryUpgradeGet.
  - intros o s2 _. apply obeys_then; [auto with harv| |].
    + case_match; [|apply obeys_ret].
      apply obeys_then; [auto with harv| |intros; apply obeys_ret].
      apply obeys_upgradeUpdate; [auto with harv|done|].
      by apply step_frame.
    + intros _ s3. case_match; [|apply obeys_ret].
      apply obeys_then; [auto with harv| |intros; apply obeys_ret].
      apply obeys_upgradeUpdate; [auto with harv|done|].
      apply step_mark; [done|right; apply cm_nodesReady|done].
  - intros e s2. case_match; [apply obeys_ret|apply obeys_throw].
Qed.

Lemma obeys_deployment d s : obeys anything (deployment_OnChanged P d) s.
Proof using AL.
  unfold deployment_OnChanged. destruct d as [d|]; [|apply obeys_ret].
  case_match; [apply obeys_ret|]. apply obeys_tryUpgradeGet.
  - intros o s2 _. case_match; [|apply obeys_ret].
    apply obeys_then; [auto with harv| |intros; apply obeys_ret].
    apply obeys_upgradeUpdate; [auto with harv|done|].
    apply deployment_step. boolify. by match goal with H : stateOf _ = _ |- _ => rewrite H end.
  - intros e s2. case_match; [apply obeys_ret|apply obeys_throw].
Qed.

Lemma obeys_image img s : obeys anything (image_OnChanged P img) s.
Proof using AL.
  unfold image_OnChanged. destruct img as [img|]; [|apply obeys_ret].
  case_match; [apply obeys_ret|]. apply obeys_tryUpgradeGet.
  - intros o s2 _. destruct (imageResult P img (o_val o)) as [u|] eqn:Ei; [|apply obeys_ret].
    apply obeys_updateIfChanged; [auto with harv|done|].
    unfold imageResult in Ei. repeat case_match; simplify_eq;
      (apply step_mark; [done|right; apply cm_image|done]).
  - intros e s2. case_match; [apply obeys_ret|apply obeys_throw].
Qed.

Lemma obeys_addon a s : obeys anything (addon_OnChanged a) s.
Proof using AL.
  unfold addon_OnChanged. destruct a as [a|]; [|apply obeys_ret].
  case_match; [apply obeys_ret|]. apply obeys_tryUpgradeGet.
  - intros o s2 _. obeys_go.
  - intros e s2. case_match; [apply obeys_ret|apply obeys_throw].
Qed.
End Handle.

