(* ===== verification/UpgradeFlow.v ===== *)
(** The handler of the Upgrade resource ([UpgradeController]) against the state machine of
    [UpgradeSteps], under any interference: each of its writes is a step, or a few, from the
    stored upgrade. *)

From S2P Require Import Prelude K8s NodeUtil Addon ApiServer Upgrade UpgradeJobs UpgradeWorld.
From S2P Require Import UpgradeNodes UpgradeVersion UpgradeRepo UpgradeController UpgradeSteps.
From S2P Require Import UpgradeRegime.

Local Open Scope Z_scope.

Section Flow.
Context {UL : UpgradeLib} {SV : SemverLib}.
Context `{!JsonCodec (gomap string)} `{!JsonCodec UpgradeConfig} `{!JsonCodec Value} (P : Proc).
Context (single : string * string -> Prop) {RG : Regime World} (AL : allows single).

Abbreviation has o := (fun w => known (w_upgrades w) (upKey (o_val o)) o) (only parsing).
Abbreviation anything := (fun _ : World => True) (only parsing).
Abbreviation steps := (rtc (step single)) (only parsing).
Abbreviation now := (pr_now P) (only parsing).

#[local] Hint Resolve stable_anything stable_pure stable_and : harv.
#[local] Hint Extern 2 (stable _) => eapply stable_has, AL : harv.
#[local] Hint Extern 5 (obeys _ _ _) => apply obeys_readCall : harv.
#[local] Hint Extern 3 (obeys _ (jobClient_Create _) _) => eapply obeys_Create; [exact AL|] : harv.
#[local] Hint Extern 3 (obeys _ (enqueueAfter _ _ _) _) => eapply obeys_enqueueAfter, AL : harv.
#[local] Hint Extern 3 (obeys _ (addonClient_Update _) _) => eapply obeys_addonUpdate; [exact AL|] : harv.
#[local] Hint Extern 3 (obeys _ (onInfra _) _) => eapply obeys_onInfra; [exact AL|] : harv.
#[local] Hint Extern 3 (obeys _ (mapCreate _ _) _) => eapply obeys_onInfra; [exact AL|] : harv.
#[local] Hint Extern 3 (obeys _ (mapDelete _) _) => eapply obeys_onInfra; [exact AL|] : harv.
#[local] Hint Extern 3 (obeys _ (storeCreate _ _) _) => eapply obeys_onInfra; [exact AL|] : harv.
#[local] Hint Extern 3 (obeys _ (storeUpdate _ _) _) => eapply obeys_onInfra; [exact AL|] : harv.
#[local] Hint Extern 3 (obeys _ (storeDelete _) _) => eapply obeys_onInfra; [exact AL|] : harv.
#[local] Hint Extern 3 (obeys _ (startVM _) _) => eapply obeys_onInfra; [exact AL|] : harv.

(** ** Computations that leave the upgrades alone *)

Lemma obeys_Delete K k s : stable K -> obeys K (jobClient_Delete k) s.
Proof using AL.
  intros HK. apply obeys_call; [done|]. intros w _ _. destruct (_ !! _); [|reflexivity].
  by apply (al_other _ AL).
Qed.
#[local] Hint Resolve obeys_Delete : harv.

Lemma obeys_onError {A} K n retriable (m : M (Sys World) A) last s :
  stable K -> (forall s, obeys K m s) -> obeys K (onError n retriable m last) s.
Proof using AL.
  intros HK Hm. revert last s. induction n as [|n IH]; intros last s; [apply obeys_lift|].
  intros Hs Hw Hk. destruct (Hm s Hs Hw Hk) as [Hs' Hmay]. cbn [onError].
  destruct (m s) as [[a|e|] s'] eqn:E; simpl in *; try done.
  destruct (retriable e); [|by destruct (Interrupted e)].
  destruct (IH (Err e) s' Hs') as [? ?]; [by eapply sane_may|by eapply HK|].
  split; [done|by etransitivity].
Qed.

Lemma obeys_getImageList K u version l s : stable K -> obeys K (getImageList u version l) s.
Proof using AL. intros HK. unfold getImageList, httpGet. obeys_go. Qed.
#[local] Hint Resolve obeys_getImageList : harv.

Lemma obeys_fetchImageLists K u n a b e s : stable K -> obeys K (fetchImageLists u n a b e) s.
Proof using AL.
  intros HK. revert a b e s. induction n as [|n IH]; intros a b e s; cbn [fetchImageLists]; obeys_go.
Qed.
#[local] Hint Resolve obeys_fetchImageLists : harv.

Lemma obeys_GetImage K name s : stable K -> obeys K (GetImage name) s.
Proof using AL. intros HK. unfold GetImage, vmImageCache_Get, cacheGet, cached. obeys_go. Qed.
#[local] Hint Resolve obeys_GetImage : harv.

Lemma obeys_deleteImage K u name s : stable K -> obeys K (deleteImage u name) s.
Proof using AL. intros HK. unfold deleteImage, vmImageClient_Update, pvcClient_Get. obeys_go. Qed.
#[local] Hint Resolve obeys_deleteImage : harv.

Lemma obeys_Repo_Cleanup K u s : stable K -> obeys K (Repo_Cleanup u) s.
Proof using AL.
  intros HK. unfold Repo_Cleanup, deleteVM, deleteDeployment, deleteService, deleteStorageClass,
    unlessNotFound, vmCache_Get, cacheGet, cached. obeys_go.
Qed.

Lemma obeys_Bootstrap K u s : stable K -> obeys K (Bootstrap u) s.
Proof using AL.
  intros HK. unfold Bootstrap, CreateDeployment, createService, getDeploymentReplicaCount,
    nodeCache_List, cached. obeys_go.
Qed.

#[local] Hint Resolve obeys_Repo_Cleanup obeys_Bootstrap : harv.

Lemma obeys_imageFromVersion K u s : stable K -> obeys K (imageFromVersion P u) s.
Proof using AL.
  intros HK. unfold imageFromVersion, versionCache_Get, CreateImageFromISO, storeGet, cacheGet,
    cached. obeys_go.
Qed.

Lemma obeys_ensureSkip K u skip s : stable K -> obeys K (ensureSkipManifestPlanCompleted u skip) s.
Proof using AL. intros HK. unfold ensureSkipManifestPlanCompleted. obeys_go. Qed.
#[local] Hint Resolve obeys_imageFromVersion obeys_ensureSkip : harv.

Lemma obeys_unskip K u s : stable K -> obeys K (unskipManifests u) s.
Proof using AL. intros HK. unfold unskipManifests. obeys_go. Qed.

Lemma obeys_setReplica K v s : stable K -> obeys K (setReplicaReplenishmentValue v) s.
Proof using AL.
  intros HK. unfold setReplicaReplenishmentValue, replicaSetting, lhSettingCache_Get, cacheGet,
    cached. obeys_go.
Qed.

Lemma obeys_getReplica K s : stable K -> obeys K getReplicaReplenishmentValue s.
Proof using AL.
  intros HK. unfold getReplicaReplenishmentValue, replicaSetting, lhSettingCache_Get, cacheGet,
    cached, atoi. obeys_go.
Qed.
#[local] Hint Resolve obeys_unskip obeys_setReplica obeys_getReplica : harv.

Lemma obeys_loadReplica K u s :
  stable K -> obeys K (loadReplicaReplenishmentFromUpgradeAnnotation u) s.
Proof using AL.
  intros HK. unfold loadReplicaReplenishmentFromUpgradeAnnotation, atoi. obeys_go.
Qed.

Lemma obeys_descheduler K s : stable K -> obeys K deschedulerAddon s.
Proof using AL. intros HK. unfold deschedulerAddon, addonCache_Get, cacheGet, cached. obeys_go. Qed.

Lemma obeys_upgradeKubernetes K v s : stable K -> obeys K (upgradeKubernetes v) s.
Proof using AL. intros HK. unfold upgradeKubernetes, clusterCache_Get, cacheGet, cached. obeys_go. Qed.

Lemma obeys_resetCluster K s : stable K -> obeys K resetCluster s.
Proof using AL. intros HK. unfold resetCluster, clusterCache_Get, cacheGet, cached. obeys_go. Qed.

Lemma obeys_deletePlanJobs K plan s : stable K -> obeys K (deletePlanJobs plan) s.
Proof using AL.
  intros HK. unfold deletePlanJobs, cached. apply obeys_then; [done|auto with harv|].
  intros jobs. induction jobs as [|job jobs IH]; intros s'; obeys_go.
Qed.
#[local] Hint Resolve obeys_loadReplica obeys_descheduler obeys_upgradeKubernetes
  obeys_resetCluster obeys_deletePlanJobs : harv.

Lemma obeys_deletePlans K cleanJobs plans s : stable K -> obeys K (deletePlans cleanJobs plans) s.
Proof using AL.
  intros HK. revert s. induction plans as [|plan plans IH]; intros s; cbn [deletePlans]; obeys_go.
Qed.

Lemma obeys_endUpgradeLog K u s : stable K -> obeys K (endUpgradeLog P u) s.
Proof using AL. intros HK. unfold endUpgradeLog, upgradeLogCache_Get, cacheGet, cached. obeys_go. Qed.

Lemma obeys_enableKubevirt K u s : stable K -> obeys K (enableKubevirtWorkloadLiveMigrate u) s.
Proof using AL.
  intros HK. unfold enableKubevirtWorkloadLiveMigrate, managedChartCache_Get, cacheGet, cached. obeys_go.
Qed.

Lemma obeys_resumeCharts K charts s : stable K -> obeys K (resumeCharts charts) s.
Proof using AL.
  intros HK. revert s. induction charts as [|c charts IH]; intros s; cbn [resumeCharts]; obeys_go.
Qed.
#[local] Hint Resolve obeys_deletePlans obeys_endUpgradeLog obeys_enableKubevirt
  obeys_resumeCharts : harv.

Lemma obeys_resumeManagedCharts K s : stable K -> obeys K resumeManagedCharts s.
Proof using AL. intros HK. unfold resumeManagedCharts, cached. obeys_go. Qed.

Lemma obeys_deleteUsedVersion K u s : stable K -> obeys K (deleteUsedVersion P u) s.
Proof using AL. intros HK. unfold deleteUsedVersion, versionCache_Get, cacheGet, cached. obeys_go. Qed.

Lemma obeys_cleanupImages K u s : stable K -> obeys K (cleanupImages u) s.
Proof using AL. intros HK. unfold cleanupImages, getImagesDiffList. obeys_go. Qed.
#[local] Hint Resolve obeys_resumeManagedCharts obeys_deleteUsedVersion obeys_cleanupImages : harv.

(** ** Writes of the upgrade *)

Lemma obeys_updateFrom K o v s :
  stable K -> (forall w, K w -> has o w) -> steps (o_val o) v -> obeys K (updateFrom o v) s.
Proof using AL.
  intros HK Hk Hst. apply (obeys_upgradeUpdate' single AL); [done|done|by eapply steps_key|done].
Qed.

(** A result of [lift] that is there. *)
Lemma obeys_lifted {A B} K (r : outcome A) (g : A -> M (Sys World) B) s :
  (forall a, r = Ok a -> obeys K (g a) s) -> obeys K (lift r ≫= g) s.
Proof using AL.
  intros Hg. destruct r as [a|e|]; [by apply Hg| |].
  - apply (obeys_throw (A := B) K e s).
  - apply (obeys_lift (A := B) K Panic s).
Qed.

(** A computation that gives the upgrade as the server knows it. *)
Definition gives (K : World -> Prop) (m : M (Sys World) (Obj Upgrade)) (s : Sys World) : Prop :=
  obeys K m s /\
  forall o s', m s = (Ok o, s') -> relies may (sys_turns s) -> sane (sys_world s) ->
    K (sys_world s) -> has o (sys_world s').

Lemma gives_ret K o s : (forall w, K w -> has o w) -> gives K (mret o) s.
Proof using AL. intros Hk. split; [apply obeys_ret|]. intros o' s' Hr _ _ HK. run_inv Hr. auto. Qed.

Lemma gives_then {A} K (m : M (Sys World) A) g s :
  stable K -> obeys K m s -> (forall a s', gives K (g a) s') -> gives K (m ≫= g) s.
Proof using AL.
  intros HK Hm Hg. split; [apply obeys_then; [done|done|]; intros a s'; apply Hg|].
  intros o s' Hr Hs Hw Hk. run_inv Hr. destruct (Hm Hs Hw Hk) as [Hs1 Hmay].
  rewrite Hr0 in Hs1, Hmay. simpl in Hs1, Hmay. destruct (Hg x x0) as [_ Hg'].
  eapply Hg'; [done|done|by eapply sane_may|by eapply HK].
Qed.

Lemma gives_update K o v s :
  stable K -> (forall w, K w -> has o w) -> steps (o_val o) v -> gives K (updateFrom o v) s.
Proof using AL.
  intros HK Hk Hst. split; [by apply obeys_updateFrom|]. intros o' s' Hr Hs Hw HKw.
  unfold updateFrom, upgradeClient_Update in Hr. cbn [o_val] in Hr.
  rewrite (steps_key _ _ _ Hst) in Hr.
  eapply (obeys_update_Ok (A := Upgrade) K) in Hr as (w & Hw' & _ & HR & Ho & -> & ->);
    [|done|by auto|done..].
  cbn [o_val]. rewrite (steps_key _ _ _ Hst). apply known_stored.
  - destruct (al_wf _ AL _ Hw') as (Hwf & _). by destruct (written_ext (fun _ new => new)
      (upKey (o_val o)) o v (w_upgrades w) Hwf).
  - simpl. apply lookup_insert_eq.
Qed.

Lemma obeys_given {B} K m (g : Obj Upgrade -> M (Sys World) B) s :
  stable K -> gives K m s -> (forall o s', obeys (has o) (g o) s') -> obeys K (m ≫= g) s.
Proof using AL.
  intros HK [Hm Hgive] Hg. apply obeys_bind with (Q := fun o w => has o w); [done|done|done|].
  intros o s' Ho. eapply obeys_weaken; [|apply Hg]. done.
Qed.

Lemma gives_given K m g s :
  stable K -> gives K m s -> (forall o s', gives (has o) (g o) s') -> gives K (m ≫= g) s.
Proof using AL.
  intros HK [Hm Hgive] Hg. split.
  { apply obeys_given; [done|done|]. intros o s'. apply Hg. }
  intros o s' Hr Hs Hw Hk. run_inv Hr. destruct (Hm Hs Hw Hk) as [Hs1 Hmay].
  pose proof (Hgive _ _ Hr0 Hs Hw Hk) as Hx. rewrite Hr0 in Hs1, Hmay. simpl in Hs1, Hmay.
  destruct (Hg x x0) as [_ Hg']. eapply Hg'; [done|done|by eapply sane_may|done].
Qed.

Lemma storeState_Ok st u v : storeState st u = Ok v -> v = setLabel upgradeStateLabel st u.
Proof using.
  unfold storeState. destruct (gm_store _ _ _) as [l| |] eqn:E; [|done..].
  apply gm_store_Ok in E as ->. by intros [= <-].
Qed.

(** A change of what the state machine does not look at. *)
Lemma steps_frame u v w :
  sameNodes u v -> up_Conditions v = up_Conditions u -> stateOf v = stateOf u ->
  steps v w -> steps u w.
Proof using. intros Hn Hc Hl Hs. eapply rtc_l; [by apply step_frame|done]. Qed.

Lemma obeys_failUpgrade K o v reason s :
  stable K -> (forall w, K w -> has o w) -> steps (o_val o) v ->
  obeys K (failUpgrade P o v reason) s.
Proof using AL.
  intros HK Hk Hst. unfold failUpgrade. apply obeys_lifted. intros u Hu.
  apply obeys_then; [done| |intros; apply obeys_ret]. apply obeys_updateFrom; [done|done|].
  eapply rtc_r; [exact Hst|]. by eapply step_completed.
Qed.

(** ** Starting *)

Lemma obeys_resetAll K name l s :
  stable K -> (forall o w, o ∈ l -> K w -> has o w) -> obeys K (resetAll name l) s.
Proof using AL.
  intros HK. revert s. induction l as [|o l IH]; intros s Hl; cbn [resetAll]; [apply obeys_ret|].
  apply obeys_then; [done| |intros; apply IH; intros; apply Hl; [by right|done]].
  unfold resetOne. case_match; [apply obeys_ret|].
  apply obeys_then; [done| |intros; apply obeys_ret].
  apply obeys_updateFrom; [done|intros; apply Hl; [by left|done]|]. apply rtc_once.
  apply step_frame; [done|done|]. unfold stateOf, gm_str.
  change (up_Labels (up_set_Labels ?l ?u)) with l. by rewrite gm_get_delete.
Qed.

Lemma obeys_resetLatest K name s : stable K -> obeys K (resetLatestUpgradeLabel P name) s.
Proof using AL.
  intros HK. unfold resetLatestUpgradeLabel, upgradeCache_List, cached.
  apply obeys_read with (Q := fun l w => forall o, o ∈ l -> has o w); [done| |].
  - intros w l Hw _ [= <-] o [Ho _]%filter_elem. by apply (cachedUpgrade_known single AL).
  - intros l s'. apply obeys_resetAll; [|by intros o w Ho [_ Hl]; apply Hl].
    apply stable_and; [done|]. intros w w' Hw Hl Hm o Ho. eapply (stable_has single AL); eauto.
Qed.
#[local] Hint Resolve obeys_resetLatest : harv.

Lemma initStatus_step u : condStatus u UpgradeCompleted = "" -> step single u (initStatus P u).
Proof using AL.
  intros Hc.
  assert (Hf : sameNodes (createUnknown now UpgradeCompleted u) (initStatus P u)) by done.
  pose proof (createUnknown_frame now UpgradeCompleted u) as [Hf' _].
  apply step_phases; [by eapply sameNodes_trans| | |].
  - intros c. change (condStatus (initStatus P u) c)
      with (condStatus (createUnknown now UpgradeCompleted u) c).
    destruct (status_createUnknown now UpgradeCompleted u c) as [|(-> & _ & ->)]; [by left|right].
    by apply cm_started.
  - right. replace (stateOf (initStatus P u)) with StatePreparingLoggingInfra;
      [apply lm_logging; set_solver|].
    change (stateOf (initStatus P u)) with (stateOf (setLabel harvesterLatestUpgradeLabel "true"
      (setLabel upgradeStateLabel StatePreparingLoggingInfra (createUnknown now UpgradeCompleted u)))).
    by rewrite !stateOf_setLabel.
  - eapply fills_trans; [apply (fills_create now UpgradeCompleted)|]. by apply fills_same.
Qed.

Lemma step_logTime ts u :
  step single u (up_set_Conditions (Cond.setTS ts (up_Conditions u) LogReady) u).
Proof using.
  apply step_phases; [done| |by left|left; by apply Cond.findCond_upd_ne].
  intros c. destruct (decide (LogReady = c)) as [<-|].
  - right. apply cm_log.
  - left. unfold condStatus. apply Cond.getStatus_setTS. by right.
Qed.

Lemma obeys_initUpgrade o s :
  condStatus (o_val o) UpgradeCompleted = "" -> obeys (has o) (initUpgrade P o) s.
Proof using AL.
  intros Hc. unfold initUpgrade. apply obeys_then; [auto with harv|auto with harv|]. intros _ s1.
  pose proof (initStatus_step _ Hc) as Hi. case_match.
  { apply obeys_then; [auto with harv| |intros; apply obeys_ret].
    apply obeys_updateFrom; [auto with harv|done|].
    eapply rtc_l; [exact Hi|]. eapply rtc_l.
    - by apply step_mark; [|right; apply cm_log|].
    - apply rtc_once, step_label, lm_logging. set_solver. }
  apply obeys_then; [auto with harv|apply obeys_try; auto with harv|]. intros r s2.
  set (u1 := match r with inl _ => _ | inr _ => _ end).
  apply obeys_then; [auto with harv| |intros; apply obeys_ret].
  apply obeys_updateFrom; [auto with harv|done|].
  assert (H1 : step single (initStatus P (o_val o)) u1).
  { unfold u1. repeat case_match; [by apply step_frame..|].
    by apply step_mark; [|right; apply cm_log|]. }
  eapply rtc_l; [exact Hi|]. eapply rtc_l; [exact H1|]. eapply rtc_l.
  - by apply (step_create single now LogReady); [apply relabels_refl|intros _; apply cm_log].
  - apply rtc_once, step_logTime.
Qed.

Lemma obeys_checkLogReady o s : obeys (has o) (checkLogReadyCondition P o) s.
Proof using AL.
  unfold checkLogReadyCondition. apply obeys_then; [auto with harv|apply obeys_lift|].
  intros c s1. cbv zeta. case_match; [|apply obeys_throw]. case_match; [|apply obeys_ret].
  case_match; [|auto with harv].
  assert (Hfail : forall re msg s, obeys (has o)
    (u ← lift (setUpgradeCompletedCondition now StateFailed ConditionFalse "Timeout"
                 "Timed out creating upgrade logging infrastructure"
                 (setLogReadyCondition now ConditionFalse re msg (o_val o)));
     updateFrom o u;; mret tt) s).
  { intros re msg s2. apply obeys_lifted. intros u Hu.
    apply obeys_then; [auto with harv| |intros; apply obeys_ret].
    apply obeys_updateFrom; [auto with harv|done|]. eapply rtc_l.
    - by apply step_mark; [|right; apply cm_log|].
    - apply rtc_once. by eapply step_completed. }
  apply obeys_then; [auto with harv|apply obeys_try; unfold upgradeLogCache_Get, cacheGet, cached;
    auto with harv|].
  intros r s2. case_match; [|apply Hfail].
  apply obeys_then; [auto with harv|apply obeys_mapErr; auto with harv|]. intros _ s3. apply Hfail.
Qed.

(** ** The image and the repository *)

Lemma steps_image v u :
  steps u (createUnknown now ImageReady (up_set_ImageID v u)).
Proof using.
  eapply steps_frame; [..|by apply rtc_once, (step_create single now ImageReady);
    [apply relabels_refl|intros _; apply cm_image]]; done.
Qed.

Lemma obeys_createRepoImage o s : obeys (has o) (createRepoImage P o) s.
Proof using AL.
  unfold createRepoImage. cbv zeta.
  assert (Hfin : forall i s, obeys (has o)
    (updateFrom o (createUnknown now ImageReady (up_set_ImageID (imageID i) (o_val o)));; mret tt) s).
  { intros i s1. apply obeys_then; [auto with harv| |intros; apply obeys_ret].
    apply obeys_updateFrom; [auto with harv|done|]. apply steps_image. }
  case_match; (apply obeys_then; [auto with harv|apply obeys_try; auto with harv|]);
    intros [i|e] s1; try (by apply obeys_failUpgrade; auto with harv); [apply Hfin|].
  apply obeys_then; [auto with harv|unfold vmImageClient_Update; auto with harv|].
  intros _ s2. apply Hfin.
Qed.

Lemma obeys_startRepo o s :
  condStatus (o_val o) ImageReady = ConditionTrue ->
  condStatus (o_val o) RepoProvisioned = "" -> obeys (has o) (startRepo P o) s.
Proof using AL.
  intros Hi Hr. unfold startRepo. apply obeys_then; [auto with harv|apply obeys_try; auto with harv|].
  intros r s1. cbv zeta.
  assert (Hgo : obeys (has o) (u ← lift (storeState StatePreparingRepo (o_val o));
    updateFrom o (createUnknown now RepoProvisioned u);; mret tt) s1).
  { apply obeys_lifted. intros u ->%storeState_Ok.
    apply obeys_then; [auto with harv| |intros; apply obeys_ret].
    apply obeys_updateFrom; [auto with harv|done|]. apply rtc_once, step_create.
    - by apply relabels_label, lm_repo.
    - intros _. by apply cm_repo. }
  repeat case_match; [done|done|by apply obeys_failUpgrade; auto with harv].
Qed.

(** ** The nodes *)

Lemma preload_steps u0 nodes u :
  steps u0 u -> condStatus u NodesPrepared = "" ->
  let v := foldl (fun u n => setNodeUpgradeStatus now (node_Name n) nodeStateImagesPreloaded "" "" u)
             u nodes in
  steps u0 v /\ condStatus v NodesPrepared = "".
Proof using AL.
  revert u. induction nodes as [|n nodes IH]; intros u Hs Hc; [done|]. cbn [foldl]. apply IH.
  - eapply rtc_r; [exact Hs|]. apply step_set, mv_preload; [by right|set_solver].
  - destruct (resultOk_set single now (node_Name n) nodeStateImagesPreloaded "" "" u u) as [H _]; [done|..].
    { split; [by left|by left]. }
    destruct (H NodesPrepared) as [->|[Hin _]]; [done|]. in_cases Hin.
Qed.

Lemma obeys_prepareNodesForUpgrade K o v info s :
  stable K -> (forall w, K w -> has o w) -> steps (o_val o) v ->
  condStatus v RepoProvisioned = ConditionTrue -> condStatus v NodesPrepared = "" ->
  obeys K (prepareNodesForUpgrade P o v info) s.
Proof using AL.
  intros HK Hk Hst Hrp Hnp. unfold prepareNodesForUpgrade.
  apply obeys_then; [done|apply obeys_lift|]. intros c s1.
  apply obeys_then; [done|unfold nodeCache_List, cached; auto with harv|]. intros nodes s2.
  case_match.
  - destruct (preload_steps (o_val o) nodes v Hst Hnp) as [Hst' Hnp'].
    apply obeys_lifted. intros u ->%storeState_Ok.
    apply obeys_then; [done| |intros; apply obeys_ret]. apply obeys_updateFrom; [done|done|].
    eapply rtc_r; [exact Hst'|]. apply step_mark_from; [|done|right; apply cm_nodesReady|done].
    by apply relabels_label, lm_nodes.
  - apply obeys_then; [done|apply obeys_lift|]. intros k s3. cbv zeta.
    apply obeys_then; [done|apply obeys_try; auto with harv|]. intros r s4.
    assert (Hgo : obeys K (u ← lift (storeState StatePreparingNodes v);
      updateFrom o (createUnknown now NodesPrepared (up_set_RepoInfo info u));; mret tt) s4).
    { apply obeys_lifted. intros u ->%storeState_Ok.
      apply obeys_then; [done| |intros; apply obeys_ret]. apply obeys_updateFrom; [done|done|].
      eapply rtc_r; [exact Hst|]. apply step_create; [by apply relabels_label, lm_nodes|].
      intros _. by apply cm_nodes. }
    repeat case_match; [done|done|by apply obeys_failUpgrade].
Qed.

Lemma obeys_prepareNodes o s :
  condStatus (o_val o) RepoProvisioned = ConditionTrue ->
  condStatus (o_val o) NodesPrepared = "" -> obeys (has o) (prepareNodes P o) s.
Proof using AL.
  intros Hrp Hnp. unfold prepareNodes.
  apply obeys_bind with (Q := fun n _ => n = "" \/ single (upKey (o_val o)));
    [auto with harv|unfold isSingleNodeCluster, nodeCache_List, cached; obeys_go| |].
  { intros n s' Hr Hs Hw Hk. unfold isSingleNodeCluster, nodeCache_List in Hr. run_inv Hr.
    eapply (obeys_call_Ok (has o)) in Hr0 as (w & Hw' & _ & _ & Hf); [|auto with harv|done..].
    injection Hf as Hf _. destruct (al_wf _ AL _ Hw') as (_ & _ & _ & _ & _ & _ & Hone).
    destruct x as [|x [|]]; run_inv Hr; auto. right. apply Hone. by rewrite <- (length_map o_val), Hf. }
  intros n s1 Hn.
  assert (Hst : step single (o_val o) (up_set_SingleNode n (o_val o))).
  { split; [done|exists ""; split; [done|by left]|by left|by left|by apply fills_same|].
    by destruct Hn as [->|]; auto. }
  apply obeys_then; [auto with harv|apply obeys_try, obeys_onError; auto with harv|].
  { intros s2. unfold getInfo, httpGet. obeys_go. }
  intros r s2. repeat case_match; try (by apply obeys_failUpgrade; [auto with harv|done|by apply rtc_once]).
  apply obeys_then; [auto with harv|unfold allowsSameVersionFlavorSwitch, versionCache_Get, cacheGet,
    cached; obeys_go|].
  intros allow s3. apply obeys_then; [auto with harv|apply obeys_lift|]. intros [ok reason] s4.
  assert (Hst' : steps (o_val o) (up_set_RepoInfo s0 (up_set_SingleNode n (o_val o)))).
  { eapply rtc_l; [exact Hst|]. by apply rtc_once, step_frame. }
  case_match; [by apply obeys_failUpgrade; auto with harv|].
  by apply obeys_prepareNodesForUpgrade; auto with harv.
Qed.

(** ** The system services *)

Lemma obeys_startSystemServices o s :
  condStatus (o_val o) NodesPrepared = ConditionTrue ->
  condStatus (o_val o) SystemServicesUpgraded = "" -> obeys (has o) (startSystemServices P o) s.
Proof using AL.
  intros Hnp Hss. unfold startSystemServices. cbv zeta.
  case_match; [|by apply obeys_failUpgrade; auto with harv|apply obeys_lift].
  apply obeys_then; [auto with harv|apply obeys_try; auto with harv|]. intros r s1.
  apply obeys_then; [auto with harv|obeys_go|]. intros _ s2.
  apply obeys_lifted. intros u ->%storeState_Ok.
  apply obeys_then; [auto with harv| |intros; apply obeys_ret].
  apply obeys_updateFrom; [auto with harv|done|]. apply rtc_once.
  rewrite setHelmChart_open.
  - apply step_mark_from; [by apply relabels_label, lm_services|done|right; by apply cm_services|done].
  - change (condStatus (setLabel ?k ?v ?u)) with (condStatus u). rewrite Hss. set_solver.
Qed.

(** ** Kubernetes on the nodes *)

Lemma obeys_nodesStarted K o v s :
  stable K -> (forall w, K w -> has o w) -> steps (o_val o) v ->
  condStatus v SystemServicesUpgraded = ConditionTrue -> condStatus v NodesUpgraded = "" ->
  obeys K (nodesStarted P o v) s.
Proof using AL.
  intros HK Hk Hst Hss Hnu. unfold nodesStarted. apply obeys_lifted. intros u ->%storeState_Ok.
  apply obeys_then; [done| |intros; apply obeys_ret]. apply obeys_updateFrom; [done|done|].
  eapply rtc_r; [exact Hst|]. apply step_create; [apply relabels_label, lm_upgrading; [done..|]|].
  - by apply solid_create.
  - intros _. by apply cm_upgrading.
Qed.

Lemma obeys_startSingleNode o info s :
  up_SingleNode (o_val o) <> "" -> condStatus (o_val o) SystemServicesUpgraded = ConditionTrue ->
  condStatus (o_val o) NodesUpgraded = "" ->
  obeys (has o) (startSingleNode P o info (up_SingleNode (o_val o))) s.
Proof using AL.
  intros Hsg Hss Hnu. unfold startSingleNode. cbv zeta. set (n := up_SingleNode _).
  assert (Hset : forall st re msg s, st ∈ [nodeStateWaitingReboot; StateSucceeded;
      nodeStateUpgradePaused; nodeStateImagesPreloaded] -> obeys (has o)
    (updateFrom o (setNodeUpgradeStatus now n st re msg (o_val o));; mret tt) s).
  { intros st re msg s1 Hin. apply obeys_then; [auto with harv| |intros; apply obeys_ret].
    apply (obeys_upgradeUpdate' single AL); [auto with harv|done| |].
    - pose proof (setNodeUpgradeStatus_frame now n st re msg (o_val o)) as Hid.
      unfold identity in Hid. unfold upKey. congruence.
    - intros w Hw Ho. apply rtc_once, step_set, mv_single; [|done].
      destruct (al_wf _ AL _ Hw) as (_ & _ & _ & _ & _ & Hok & _). by apply (Hok _ _ Ho). }
  case_match; [case_match; [apply obeys_ret|apply Hset; set_solver]|].
  case_match; [apply Hset; set_solver|].
  apply obeys_then; [auto with harv|apply obeys_try; auto with harv|]. intros r s1.
  apply obeys_then; [auto with harv|obeys_go|]. intros _ s2.
  by apply obeys_nodesStarted; auto with harv.
Qed.

(** An annotated version of an upgrade. *)
Definition annotated (u v : Upgrade) : Prop := exists a, v = up_set_Annotations a u.

Lemma annotated_step u v : annotated u v -> step single u v.
Proof using. intros [a ->]. by apply step_frame. Qed.

Lemma annotated_trans u v w : annotated u v -> annotated v w -> annotated u w.
Proof using. intros [a ->] [b ->]. by exists b. Qed.

Lemma annotated_self u : annotated u u.
Proof using. exists (up_Annotations u). by destruct u as [[]]. Qed.

(** What the preparations return is the upgrade with annotations. *)
Lemma obeys_annotates {B} K m u (g : Upgrade -> M (Sys World) B) s :
  stable K -> obeys K m s -> (forall v s', m s = (Ok v, s') -> annotated u v) ->
  (forall v s', annotated u v -> obeys K (g v) s') -> obeys K (m ≫= g) s.
Proof using AL.
  intros HK Hm Ha Hg. apply obeys_bind with (Q := fun v _ => annotated u v); auto.
  intros v s' Hr _ _ _. by eapply Ha.
Qed.

Lemma obeys_startMultiNode o info s :
  condStatus (o_val o) SystemServicesUpgraded = ConditionTrue ->
  condStatus (o_val o) NodesUpgraded = "" -> obeys (has o) (startMultiNode P o info) s.
Proof using AL.
  intros Hss Hnu. unfold startMultiNode. cbv zeta.
  apply obeys_then; [auto with harv|auto with harv|]. intros waiting s1.
  destruct waiting; [apply obeys_ret|].
  apply obeys_then; [auto with harv|auto with harv|]. intros interval s2.
  apply obeys_annotates with (u := o_val o); [auto with harv| | |].
  { case_match; [|apply obeys_ret]. unfold saveReplicaReplenishmentToUpgradeAnnotation. obeys_go. }
  { intros v s' Hr. case_match; [|run_inv Hr; apply annotated_self].
    unfold saveReplicaReplenishmentToUpgradeAnnotation in Hr. repeat run_inv Hr. repeat run_inv Hr0.
    by eexists. }
  intros v s3 Hv. apply obeys_annotates with (u := o_val o); [auto with harv| | |].
  { unfold addUpgradeLabelToDeschedulerAddons. obeys_go. }
  { intros v' s' Hr. unfold addUpgradeLabelToDeschedulerAddons in Hr. run_inv Hr.
    repeat case_match; repeat run_inv Hr; try done. eapply annotated_trans; [exact Hv|by eexists]. }
  intros v' s4 Hv'. set (u := saveShutdownVMOnMigrationFailureToUpgradeAnnotation P v').
  assert (Hu : annotated (o_val o) u).
  { eapply annotated_trans; [exact Hv'|]. unfold u, saveShutdownVMOnMigrationFailureToUpgradeAnnotation.
    case_match; [apply annotated_self|by eexists]. }
  apply obeys_bind with (Q := fun o' w => has o' w /\ o_val o' = u); [auto with harv| | |].
  - apply obeys_updateFrom; [auto with harv|done|]. by apply rtc_once, annotated_step.
  - intros o' s' Hr Hs Hw Hk. split.
    + eapply (gives_update (has o)); [..|exact Hr|done|done|done]; [auto with harv|done|].
      by apply rtc_once, annotated_step.
    + unfold updateFrom, upgradeClient_Update, apiUpdate in Hr. cbn [o_val] in Hr.
      apply (obeys_call_Ok (has o)) in Hr as (w & _ & _ & _ & Hf); [|auto with harv|done..].
      unfold store_write in Hf. repeat case_match; simplify_eq; done.
  - intros o' s5 [Ho' He]. apply obeys_weaken with (K' := has o'); [done|].
    apply obeys_then; [auto with harv|auto with harv|]. intros _ s6.
    destruct Hu as [a Hu]. apply obeys_nodesStarted; [auto with harv|done|done|..];
      by rewrite He, Hu.
Qed.

Lemma obeys_startNodes o s :
  condStatus (o_val o) SystemServicesUpgraded = ConditionTrue ->
  condStatus (o_val o) NodesUpgraded = "" ->
  obeys (has o) (startNodes P o) s.
Proof using AL.
  intros Hss Hnu. unfold startNodes. apply obeys_then; [auto with harv|apply obeys_lift|].
  intros info s1. cbv zeta. destruct (String.eqb_spec (up_SingleNode (o_val o)) ""); cbn [negb].
  - by apply obeys_startMultiNode.
  - by apply obeys_startSingleNode.
Qed.

(** ** Cleaning up *)

Lemma gives_restoreLonghorn o s : gives (has o) (restoreLonghornSettings o) s.
Proof using AL.
  unfold restoreLonghornSettings. cbv zeta. case_match; [by apply gives_ret|].
  apply gives_then; [auto with harv|auto with harv|]. intros _ s1.
  apply gives_update; [auto with harv|done|]. apply rtc_once, annotated_step. by eexists.
Qed.

Lemma gives_reenableAddons o s : gives (has o) (reenableAddons o) s.
Proof using AL.
  unfold reenableAddons. cbv zeta. case_match; [by apply gives_ret|].
  apply gives_then; [auto with harv|auto with harv|]. intros a s1.
  apply gives_then; [auto with harv|obeys_go|]. intros _ s2.
  apply gives_update; [auto with harv|done|]. apply rtc_once, annotated_step. by eexists.
Qed.

Lemma gives_cleanup o cleanJobs s : gives (has o) (cleanup P o cleanJobs) s.
Proof using AL.
  unfold cleanup. do 2 (apply gives_then; [auto with harv|auto with harv|]; intros ? ?).
  apply gives_then; [auto with harv|unfold cached; auto with harv|]. intros plans s2.
  apply gives_then; [auto with harv|auto with harv|]. intros _ s3.
  apply gives_given; [auto with harv|apply gives_restoreLonghorn|]. intros o1 s4.
  apply gives_then; [auto with harv|auto with harv|]. intros _ s5.
  apply gives_given; [auto with harv|apply gives_reenableAddons|]. intros o2 s6.
  do 2 (apply gives_then; [auto with harv|auto with harv|]; intros ? ?).
  by apply gives_ret.
Qed.

Lemma obeys_cleanupDone o s : obeys (has o) (cleanupDone o) s.
Proof using AL.
  unfold cleanupDone. apply obeys_lifted. intros l ->%gm_store_Ok.
  apply obeys_then; [auto with harv| |intros; apply obeys_ret].
  apply obeys_updateFrom; [auto with harv|done|].
  change (up_set_Labels (gm_set (up_Labels ?u) ?k ?v) ?u) with (setLabel k v u).
  apply rtc_once, step_frame; [done|done|]. by rewrite stateOf_setLabel.
Qed.

Lemma obeys_cleanThenDone o cleanJobs s :
  obeys (has o) (latest ← cleanup P o cleanJobs; cleanupDone latest) s.
Proof using AL.
  apply obeys_given; [auto with harv|apply gives_cleanup|]. intros. apply obeys_cleanupDone.
Qed.

Lemma obeys_afterSuccess o s : obeys (has o) (afterSuccess P o) s.
Proof using AL.
  unfold afterSuccess. cbv zeta. apply obeys_then; [auto with harv|auto with harv|].
  intros waiting s1. destruct waiting; [apply obeys_ret|]. case_match.
  { case_match; [apply obeys_ret|]. apply obeys_then; [auto with harv|auto with harv|].
    intros _ s2. apply obeys_cleanThenDone. }
  apply obeys_then; [auto with harv|apply obeys_try; unfold vmCache_Get, cacheGet, cached;
    auto with harv|]. intros vm s2.
  apply obeys_then; [auto with harv|apply obeys_try; unfold deploymentCache_Get, cacheGet, cached;
    auto with harv|]. intros dep s3.
  do 2 (apply obeys_then; [auto with harv|obeys_go|]; intros ? ?).
  apply obeys_then; [auto with harv|destruct vm, dep; obeys_go|]. intros _ s4.
  apply obeys_then; [auto with harv|apply obeys_try; auto with harv|]. intros [|e] s5; [apply obeys_ret|].
  apply obeys_then; [auto with harv| |intros; apply obeys_ret].
  apply obeys_updateFrom; [auto with harv|done|]. apply rtc_once, annotated_step. by eexists.
Qed.

Lemma obeys_afterFailure o s : obeys (has o) (afterFailure P o) s.
Proof using AL.
  unfold afterFailure. cbv zeta. apply obeys_then; [auto with harv|auto with harv|].
  intros waiting s1. destruct waiting; [apply obeys_ret|].
  case_match; [apply obeys_ret|apply obeys_cleanThenDone].
Qed.

(** ** The handler *)

Lemma obeys_upgradeChanged o s : obeys (has o) (upgrade_OnChanged P (Some o)) s.
Proof using AL.
  unfold upgrade_OnChanged. cbv zeta. case_match; [apply obeys_ret|].
  destruct (String.eqb_spec (condStatus (o_val o) UpgradeCompleted) ""); [by apply obeys_initUpgrade|].
  case_match; [apply obeys_checkLogReady|]. case_match; [apply obeys_createRepoImage|].
  case_match; [apply obeys_ret|]. case_match; [apply obeys_afterSuccess|].
  case_match; [apply obeys_afterFailure|]. rewrite !condIs_status.
  case_match eqn:E1; [boolify; by apply obeys_startRepo|].
  case_match eqn:E2; [boolify; by apply obeys_prepareNodes|].
  case_match eqn:E3; [boolify; by apply obeys_startSystemServices|].
  case_match eqn:E4; [boolify; by apply obeys_startNodes|].
  case_match; [auto with harv|apply obeys_ret].
Qed.

Lemma obeys_upgradeRemoved o s : obeys (has o) (upgrade_removed P o) s.
Proof using AL.
  unfold upgrade_removed. apply obeys_given; [auto with harv| |].
  - unfold upgrade_OnRemove. apply gives_then; [auto with harv|auto with harv|].
    intros waiting s1. destruct waiting; [by apply gives_ret|apply gives_cleanup].
  - intros o' s1. apply obeys_call; [auto with harv|]. intros w Hw _. cbv zeta.
    case_match; [|reflexivity]. case_match; [|reflexivity]. by apply (al_delete _ AL).
Qed.
End Flow.
