(* ===== verification/UpgradeSafety.v ===== *)
(** What an upgrade of the cluster keeps to, whatever the order of events.

    Runs of the handlers of an upgrade ([UpgradeNodes], [UpgradeController]) from any world,
    with any interference and any failing calls ([UpgradeRegime], [UpgradeFlow]): the phases
    come in order, one node at a time is drained, and a drain that is not acknowledged when
    its job is done is never acknowledged. *)

From S2P Require Import Prelude K8s NodeUtil Addon ApiServer Upgrade UpgradeJobs UpgradeWorld.
From S2P Require Import UpgradeNodes UpgradeVersion UpgradeRepo UpgradeController UpgradeSteps.
From S2P Require Import UpgradeRegime UpgradeFlow.

Local Open Scope Z_scope.

(** ** Events *)

Inductive Event :=
| EvSecret (secret : option (Obj Secret))
| EvJob (job : option Job)
| EvNode (node : option Node)
| EvPlan (plan : option Plan)
| EvDeployment (deployment : option Deployment)
| EvImage (image : option VMImage)
| EvAddon (addon : option (Obj Addon.Addon))
| EvUpgrade (upgrade : option (Obj Upgrade))
| EvRemove (upgrade : Obj Upgrade).

Section Events.
Context {UL : UpgradeLib} {SV : SemverLib}.
Context `{!JsonCodec (gomap string)} `{!JsonCodec UpgradeConfig} `{!JsonCodec Value}.
Context (single : string * string -> Prop).

Definition handle (P : Proc) (e : Event) : M (Sys World) unit :=
  match e with
  | EvSecret x => secret_OnChanged P x
  | EvJob x => job_OnChanged P x
  | EvNode x => node_OnChanged P x
  | EvPlan x => plan_OnChanged P x
  | EvDeployment x => deployment_OnChanged P x
  | EvImage x => image_OnChanged P x
  | EvAddon x => addon_OnChanged x
  | EvUpgrade x => upgrade_OnChanged P x
  | EvRemove x => upgrade_removed P x
  end.

(** Jobs that upgrade a single node are those of the single-node upgrades, and the upgrade
    an event is about is one the server has handed out, however old. *)
Definition eventOk (P : Proc) (e : Event) (w : World) : Prop :=
  match e with
  | EvJob (Some j) => jobOk P single j
  | EvUpgrade (Some o) | EvRemove o => known (w_upgrades w) (upKey (o_val o)) o
  | _ => True
  end.

Lemma obeys_handle {RG : Regime World} (AL : allows single) P e s :
  obeys (eventOk P e) (handle P e) s.
Proof.
  destruct e as [x|x|x|x|x|x|x|[o|]|o]; cbn [handle eventOk].
  2:{ intros Hs Hw Hok. apply (obeys_job P single AL); [|done|done|done].
      intros j ->. exact Hok. }
  all: eauto using obeys_secret, obeys_node, obeys_plan, obeys_deployment, obeys_image,
    obeys_addon, obeys_upgradeChanged, obeys_upgradeRemoved.
  apply obeys_ret.
Qed.

(** A run of the cluster under a regime: the others do something, or a handler runs, with
    whatever the others do before each of its calls. *)
Inductive runs {RG : Regime World} : World -> World -> Prop :=
| run_others w w' : may w w' -> runs w w'
| run_handler P e w ts : relies may ts -> eventOk P e w ->
    runs w (sys_world (handle P e (mkSys w ts)).2).

Lemma runs_may {RG : Regime World} (AL : allows single) w w' : sane w -> runs w w' -> may w w'.
Proof.
  intros Hw Hr. destruct Hr as [|P e w ts Hts Hok]; [done|].
  by apply (obeys_handle AL P e (mkSys w ts)).
Qed.

Lemma runs_sane {RG : Regime World} (AL : allows single) w w' : sane w -> runs w w' -> sane w'.
Proof. intros Hw Hr. eapply sane_may; [done|by apply runs_may]. Qed.

(** ** The regime of the state machine *)

Lemma steps_allows : @allows single (upgradeRegime single).
Proof.
  split.
  - done.
  - intros w w' Hw H. by destruct (H Hw) as (_ & ? & ? & _).
  - intros w w'. apply evolves_same.
  - intros w o v Hw Ho Hs. by apply evolves_write.
  - intros w k Hw. apply evolves_delete.
  - intros w o Hw Ho. by apply evolves_secret.
  - intros w o machine node u w1 w2 Hw Ho _ _ _ _ _ _ _. by apply evolves_secret.
Qed.

(** What holds of every upgrade and survives the steps holds in every reachable world. *)
Lemma reachable_invariant (I : Upgrade -> Prop) w0 w :
  (forall u, fresh u -> I u) -> (forall u v, step single u v -> I u -> I v) ->
  wf single w0 -> (forall k o, st_objs (w_upgrades w0) !! k = Some o -> I (o_val o)) ->
  reachable (eq w0) (@runs (upgradeRegime single)) w ->
  wf single w /\ forall k o, st_objs (w_upgrades w) !! k = Some o -> I (o_val o).
Proof.
  intros Hf HL Hw0 HI Hr. induction Hr as [w <-|w w' Hr [Hw IH] Hstep]; [done|].
  pose proof (@runs_may (upgradeRegime single) steps_allows w w' Hw Hstep) as He.
  split; [by apply He|]. by eapply evolves_invariant.
Qed.

(** ** The regime of a lost acknowledgement

    The drain of node [n] is announced on the secrets of machine [m] and not acknowledged,
    but no upgrade has the node on its way to Pre-drained any more: all have prepared
    their nodes and passed that state. *)
Section Lost.
Context (n m : string).

Definition passed (u : Upgrade) : Prop :=
  (nodeState u n ∉ [nodeStateImagesPreloading; nodeStateImagesPreloaded; nodeStateUpgradePaused;
                    nodeStatePreDraining]) /\
  stateOf u <> StatePreparingNodes /\ condStatus u NodesPrepared <> "" /\ ~ single (upKey u).

Definition lost (w : World) : Prop :=
  wf single w /\
  (forall k o, st_objs (w_upgrades w) !! k = Some o -> passed (o_val o)) /\
  (forall o, o ∈ c_nodes (w_cache w) ->
     gm_get (node_Annotations (o_val o)) MachineAnnotation = Some m -> node_Name (o_val o) = n) /\
  (forall k o, st_objs (w_secrets w) !! k = Some o -> machineSecret m (o_val o) = true ->
     isUnderPreDrain (o_val o) = true).

Definition staysLost (w w' : World) : Prop :=
  lost w -> lost w' /\ store_ext (w_upgrades w) (w_upgrades w') /\
            store_ext (w_secrets w) (w_secrets w').

#[export] Instance staysLost_preorder : PreOrder staysLost.
Proof.
  split.
  - intros w Hw. split_and!; [done|reflexivity..].
  - intros w1 w2 w3 H12 H23 Hw1. destruct (H12 Hw1) as (Hw2 & ? & ?).
    destruct (H23 Hw2) as (Hw3 & ? & ?). split_and!; [done|by etransitivity..].
Qed.

Lemma staysLost_lost w w' : lost w -> staysLost w w' -> lost w'.
Proof. intros Hw H. by apply H. Qed.

Definition lostRegime : Regime World :=
  {| may := staysLost; sane := lost; sane_may := staysLost_lost |}.

Lemma passed_step u v : step single u v -> passed u -> passed v.
Proof.
  intros Hst (Hp & Hl & Hnp & Hns). pose proof (step_opened _ u v Hst Hnp) as Hnp'.
  destruct Hst as [Hk (n' & Ho & Hm) _ Hlab _ _]. split_and!; [| |done|by rewrite Hk].
  - destruct (decide (n = n')) as [<-|Hne]; [|by rewrite Ho].
    destruct Hm as [->|Hm]; [done|]. destruct Hm; first [tauto|set_solver].
  - destruct Hlab as [->|Hlm]; [done|]. intros Hv. rewrite Hv in Hlm. move_inv Hlm; [|done].
    match goal with H : _ ∈ _ |- _ => in_cases H end.
Qed.

Lemma passed_steps u v : rtc (step single) u v -> passed u -> passed v.
Proof. induction 1; eauto using passed_step. Qed.

Lemma lost_store w w' :
  lost w -> wf single w' -> w_cache w' = w_cache w ->
  (forall k o, st_objs (w_upgrades w') !! k = Some o -> passed (o_val o)) ->
  (forall k o, st_objs (w_secrets w') !! k = Some o -> machineSecret m (o_val o) = true ->
     isUnderPreDrain (o_val o) = true) -> lost w'.
Proof. intros (_ & _ & Hc & _) Hw Hcache Hp Hs. split_and!; [done|done| |done]. by rewrite Hcache. Qed.

Lemma lost_secret w o v :
  lost w -> secKey v = secKey (o_val o) ->
  (machineSecret m v = true -> isUnderPreDrain v = true) ->
  staysLost w (set_store (written (fun _ new => new) (secKey (o_val o)) o v (w_secrets w)) w).
Proof.
  intros Hl Hk Hv _. pose proof Hl as (Hw & Hp & _ & Hs).
  destruct (evolves_secret single w o v Hk Hw) as (Hw' & He & Hse & _).
  split_and!; [|done|done]. apply (lost_store w); [done|done|done|done|].
  intros k o' Ho. simpl in Ho. apply lookup_insert_Some in Ho as [[<- <-]|[_ Ho]]; [done|by eapply Hs].
Qed.

Lemma lost_allows : @allows single lostRegime.
Proof.
  split.
  - by intros w [? _].
  - intros w w' Hw H. by destruct (H Hw) as (_ & ? & ?).
  - intros w w' Hu Hs Hc Hl. pose proof Hl as (Hw & Hp & Hn & Hsec).
    split_and!; [|by rewrite Hu|by rewrite Hs].
    apply (lost_store w); [done| |done|by rewrite Hu|by rewrite Hs].
    by apply (evolves_same single w w').
  - intros w o v Hl Ho Hv _. pose proof Hl as (Hw & Hp & Hn & Hsec).
    destruct (evolves_write single w o v Ho Hv Hw) as (Hw' & He & Hse & _).
    split_and!; [|done|done]. apply (lost_store w); [done|done|done| |done].
    intros k o' Ho'. simpl in Ho'. apply lookup_insert_Some in Ho' as [[<- <-]|[_ Ho']]; [|by eapply Hp].
    simpl. eapply passed_steps; [done|by eapply Hp].
  - intros w k Hl _. pose proof Hl as (Hw & Hp & Hn & Hsec).
    destruct (evolves_delete single w k Hw) as (Hw' & He & Hse & _).
    split_and!; [|done|done]. apply (lost_store w); [done|done|done| |done].
    intros k' o' Ho'. simpl in Ho'. apply lookup_delete_Some in Ho' as [_ ?]. by eapply Hp.
  - intros w o Hl Ho. apply lost_secret; [done|done|].
    pose proof Hl as (_ & _ & _ & Hs). specialize (Hs _ _ Ho). unfold isUnderPreDrain, gm_str in *.
    cbn [acknowledged sec_meta set_Annotations om_Annotations].
    by rewrite !gm_get_set_ne by done.
  - intros w o machine node u w1 w2 Hl Ho Hm Hw1 Hnode Ha Hw2 Hu Hst.
    apply lost_secret; [done|done|]. intros Hm'. exfalso.
    unfold machineSecret in Hm, Hm'. boolify. simpl in *.
    assert (machine = m) as -> by congruence.
    destruct Hw1 as (_ & _ & Hn & _). rewrite (Hn node Hnode Ha) in Hst.
    destruct Hw2 as (_ & Hp & _). destruct (Hp _ _ Hu) as [Hp' _]. rewrite Hst in Hp'. set_solver.
Qed.
End Lost.
End Events.

(** ** An upgrade of two nodes *)
Module UpDemo.
#[export] Instance configCountable : Countable UpgradeConfig.
Proof.
  refine (inj_countable'
    (fun c => (pls_Type (uc_Preload c), pls_Concurrency (uc_Preload c), uc_RestoreVM c,
               uc_ShutdownVMOnMigrationFailure c, uc_LogReadyTimeout c,
               option_map (option_map (fun s => (nst_Mode s, nst_PauseNodes s)))
                 (uc_NodeUpgradeOption c)))
    (fun '(t, k, r, sh, l, o) => mkUpgradeConfig (mkPreload t k) r sh l
       (option_map (option_map (fun '(m, p) => mkNodeStrategy m p)) o)) _).
  abstract (by intros [[] ? ? ? [[[]|]|]]).
Defined.
#[export] Instance configCodec : JsonCodec UpgradeConfig := countable_codec UpgradeConfig.
#[export] Instance pauseCodec : JsonCodec (gomap string) := countable_codec (gomap string).

Definition release : HarvesterRelease :=
  mkRelease "v1.9.0" "" "" "Harvester v1.9.0" "v1.34" "" "" "" "" "".
#[export] Instance lib : UpgradeLib :=
  {| yaml_load s := if String.eqb s "release" then Some (mkRepoInfo release) else None;
     yaml_marshal _ := Some "release"; yaml_release s := Some release; parseRFC3339 _ := Some 0;
     IsRetriableNetworkError _ := false;
     SafeConcatName := Join "-"; requirementError _ := None;
     skipManifestScript := ""; imageCleanupScript := "" |}.

#[export] Instance semver : SemverLib :=
  {| Semver := string; StrictNewVersion := Some; sv_Prerelease _ := ""; sv_Stable := id;
     sv_Original := id; sv_Check _ _ := Some true |}.
#[export] Instance valueCodec : JsonCodec Value := countable_codec Value.

Definition proc : Proc :=
  mkProc HarvesterSystemNamespaceName "now" 0 0 "v1.8.0" "" "" "".

Definition upgradeOf (states : list (string * string)) : Upgrade :=
  mkUpgrade
    (mkMeta "up" "" HarvesterSystemNamespaceName "uid"
       (Some {[ harvesterLatestUpgradeLabel := "true"; upgradeStateLabel := StateUpgradingNodes ]})
       None [] 0 None)
    "Upgrade" "harvesterhci.io/v1beta1" (mkUpgradeSpec "v1.9.0" "" true None)
    (mkUpgradeStatus "v1.8.0" "" "release" ""
       (Some (list_to_map (map (fun '(n, s) => (n, mkNodeStatus s "" "")) states)))
       [mkCond UpgradeCompleted ConditionUnknown "" "" ""; mkCond NodesPrepared ConditionTrue "" "" "";
        mkCond SystemServicesUpgraded ConditionTrue "" "" "";
        mkCond NodesUpgraded ConditionUnknown "" "" ""]
       "").

Definition machineOf (n : string) : string := n +:+ "-machine".
Definition nodeOf (n : string) : Node :=
  mkNode (mkMeta n "" "" "" (Some ∅) (Some {[ MachineAnnotation := machineOf n ]}) [] 0 None)
    "Node" "v1" false [] [] "Harvester v1.9.0".
Definition secretOf (n : string) (annotations : gmap string string) : Secret :=
  mkSecret (mkMeta (machineOf n +:+ "-plan") "" rancherPlanSecretNamespace ""
              (Some {[ rancherPlanSecretMachineLabel := machineOf n ]}) (Some annotations) [] 0 None)
    rancherPlanSecretType.
Definition announced (n : string) : Secret := secretOf n {[ rke2PreDrainAnnotation := "hook" ]}.

Definition noInfra : Infra :=
  mkInfra ∅ (mkStore 1 ∅) ∅ ∅ ∅ ∅ ∅ (mkStore 1 ∅) (mkStore 1 ∅) (mkStore 1 ∅) (mkStore 1 ∅) ∅ []
    (fun _ => HttpError (ErrText "no such host")).

Definition world (u : Upgrade) (secrets : list Secret) : World :=
  let o := mkObj 1 u in
  mkWorld (mkStore 1 {[ upKey u := o ]})
    (mkStore 1 (list_to_map (map (fun n => (n, mkObj 1 (nodeOf n))) ["a"; "b"])))
    (mkStore 1 (list_to_map (map (fun s => (secKey s, mkObj 1 s)) secrets)))
    (mkStore 1 ∅) ∅ noInfra
    (mkCaches [o] (map (fun n => mkObj 1 (nodeOf n)) ["a"; "b"]) [] []
       (map (fun n => mkMachine (meta0 rancherMachineNamespace (machineOf n)) (Some n)) ["a"; "b"])
       [] [] [] [] [] [] [] [] [] [] []) [].

Definition ready : World :=
  world (upgradeOf [("a", nodeStateImagesPreloaded); ("b", nodeStateImagesPreloaded)])
    [announced "a"; announced "b"].

Definition run (e : Event) (s : Sys World) : Sys World := (handle proc e s).2.
Definition stateIn (w : World) (n : string) : string :=
  match st_objs (w_upgrades w) !! (HarvesterSystemNamespaceName, "up") with
  | Some o => nodeState (o_val o) n
  | None => ""
  end.
Definition firstDrain : World :=
  sys_world (run (EvSecret (Some (mkObj 1 (announced "a")))) (quiet ready)).

(** The pre-drain job of node a is done, and the job handler loses its connection after
    it has updated the upgrade. *)
Definition draining : World :=
  world (upgradeOf [("a", nodeStatePreDraining); ("b", nodeStateImagesPreloaded)]) [announced "a"].
Definition preDrainJob : Job :=
  let j := applyNodeJob (upgradeOf []) (mkRepoInfo release) "a" upgradeJobTypePreDrain in
  mkJob (job_meta j) (job_spec j)
    (mkJobStatus None [mkCond JobComplete ConditionTrue "" "" ""] 0 0 1).
Definition unacknowledged : World :=
  sys_world (run (EvJob (Some preDrainJob)) (mkSys draining
    [mkTurn id None; mkTurn id None; mkTurn id None; mkTurn id (Some (ErrText "connection lost"))])).
Definition retried : World :=
  sys_world (run (EvJob (Some preDrainJob)) (quiet unacknowledged)).
End UpDemo.

(** ** Checking worlds *)

#[export] Instance Secret_eq : EqDecision Secret.
Proof. solve_decision. Defined.

Definition storeOk {K A} `{Countable K} (key : A -> K) (st : Store K A) : bool :=
  forallb (fun '(k, o) => (o_rv o <=? st_rv st) && bool_decide (key (o_val o) = k))
    (map_to_list (st_objs st)).

Definition knownb {K A} `{Countable K} `{EqDecision A} (st : Store K A) (k : K) (o : Obj A) : bool :=
  (o_rv o <=? st_rv st) &&
  match st_objs st !! k with
  | Some cur => negb (o_rv cur =? o_rv o) || bool_decide (cur = o)
  | None => true
  end.

Definition wfb (w : World) : bool :=
  storeOk upKey (w_upgrades w) && storeOk secKey (w_secrets w)
  && forallb (fun o => knownb (w_upgrades w) (upKey (o_val o)) o) (c_upgrades (w_cache w))
  && forallb (fun '(_, o) => String.eqb (up_SingleNode (o_val o)) "")
       (map_to_list (st_objs (w_upgrades w)))
  && negb (length (c_nodes (w_cache w)) =? 1)%nat.

Lemma storeOk_spec {K A} `{Countable K} (key : A -> K) (st : Store K A) :
  storeOk key st = true ->
  store_wf st /\ forall k o, st_objs st !! k = Some o -> key (o_val o) = k.
Proof.
  intros Hall. unfold storeOk in Hall. rewrite forallb_forall in Hall.
  assert (Hko : forall k o, st_objs st !! k = Some o -> o_rv o <= st_rv st /\ key (o_val o) = k).
  { intros k o Ho%elem_of_map_to_list%list_elem_of_In. specialize (Hall _ Ho).
    apply andb_true_iff in Hall as [Hle Hk]. split; [by apply Z.leb_le|].
    by apply bool_decide_eq_true in Hk. }
  split; intros k o Ho; apply (Hko _ _ Ho).
Qed.

Lemma wfb_ok single w : wfb w = true -> wf single w.
Proof.
  unfold wfb. rewrite !andb_true_iff, !forallb_forall. intros [[[[Hu Hs] Hc] Hsg] Hone].
  apply storeOk_spec in Hu as [??], Hs as [??]. split_and!; [done..| |done|done| |].
  - intros o Ho%list_elem_of_In. specialize (Hc o Ho).
    unfold knownb in Hc. apply andb_true_iff in Hc as [Hle Hk]. split; [by apply Z.leb_le|].
    intros cur Hcur Hv. rewrite Hcur in Hk. apply orb_true_iff in Hk as [Hk|Hk]; boolify; [lia|done].
  - intros k o Ho%elem_of_map_to_list%list_elem_of_In Hne. specialize (Hsg _ Ho). simpl in Hsg.
    by apply String.eqb_eq in Hsg.
  - intros Hlen. rewrite Hlen in Hone. done.
Qed.

Lemma allStored_ok (I : Upgrade -> Prop) (w : World) :
  map_Forall (fun _ o => I (o_val o)) (st_objs (w_upgrades w)) ->
  forall k o, st_objs (w_upgrades w) !! k = Some o -> I (o_val o).
Proof. intros H k o Ho. by apply (H k). Qed.

(** No node of the upgrade is active. *)
Definition inactive (u : Upgrade) : bool :=
  forallb (fun '(_, st) => negb (active (nus_State st)))
    (map_to_list (default ∅ (up_NodeStatuses u))).

Lemma inactive_ok u : inactive u = true -> forall n, active (nodeState u n) = false.
Proof.
  unfold inactive, nodeState. rewrite forallb_forall. intros H n.
  destruct (up_NodeStatuses u) as [m|]; simpl in *; [|done].
  destruct (m !! n) as [st|] eqn:E; [|done].
  apply elem_of_map_to_list, list_elem_of_In, H in E. by apply negb_true_iff.
Qed.

Definition lostb (n m : string) (w : World) : bool :=
  wfb w
  && forallb (fun '(_, o) =>
       negb (str_in (nodeState (o_val o) n)
               [nodeStateImagesPreloading; nodeStateImagesPreloaded; nodeStateUpgradePaused;
                nodeStatePreDraining])
       && negb (String.eqb (stateOf (o_val o)) StatePreparingNodes)
       && negb (String.eqb (condStatus (o_val o) NodesPrepared) ""))
       (map_to_list (st_objs (w_upgrades w)))
  && forallb (fun o => negb (bool_decide
         (gm_get (node_Annotations (o_val o)) MachineAnnotation = Some m))
       || String.eqb (node_Name (o_val o)) n) (c_nodes (w_cache w))
  && forallb (fun '(_, o) => negb (machineSecret m (o_val o)) || isUnderPreDrain (o_val o))
       (map_to_list (st_objs (w_secrets w))).

Lemma lostb_ok n m w : lostb n m w = true -> lost (fun _ => False) n m w.
Proof.
  unfold lostb. rewrite !andb_true_iff, !forallb_forall. intros [[[Hw Hu] Hn] Hs].
  split_and!; [by apply wfb_ok| | |].
  - intros k o Ho%elem_of_map_to_list%list_elem_of_In. specialize (Hu _ Ho). simpl in Hu.
    apply andb_true_iff in Hu as [[H1 H2]%andb_true_iff H3]. boolify. split_and!; [|done|done|by intros []].
    unfold str_in in H1. by apply bool_decide_eq_false in H1.
  - intros o Ho%list_elem_of_In Ha. specialize (Hn _ Ho). simpl in Hn.
    rewrite bool_decide_eq_true_2 in Hn by done. by apply String.eqb_eq.
  - intros k o Ho%elem_of_map_to_list%list_elem_of_In Hm. specialize (Hs _ Ho). simpl in Hs.
    by rewrite Hm in Hs.
Qed.

(** ** Properties *)

Section Properties.
Context {UL : UpgradeLib} {SV : SemverLib}.
Context `{!JsonCodec (gomap string)} `{!JsonCodec UpgradeConfig} `{!JsonCodec Value}.
Context (single : string * string -> Prop).

(** C4: One node is upgraded at a time.  From any world in which no upgrade has two nodes
    between the start of their drain and their reboot, no sequence of runs of the handlers
    leads to one in which an upgrade has, whatever the others do in between, however stale
    the caches and the objects the handlers are called with are, whatever the order of
    events and wherever calls fail; single-node upgrades, whose one node a job of its own
    upgrades, are exempt.  The others keep to the state machine of an upgrade and to
    versions the server has handed out. *)
Theorem one_node_at_a_time w0 w :
  wf single w0 ->
  (forall k o, st_objs (w_upgrades w0) !! k = Some o -> exclusive single (o_val o)) ->
  reachable (eq w0) (@runs _ _ _ _ _ single (upgradeRegime single)) w ->
  forall k o n m, st_objs (w_upgrades w) !! k = Some o -> ~ single k ->
    active (nodeState (o_val o) n) = true -> active (nodeState (o_val o) m) = true -> n = m.
Proof.
  intros Hw0 Hex0 Hr.
  destruct (reachable_invariant single (exclusive single) w0 w) as [Hw Hex]; [| |done..|].
  - apply fresh_exclusive.
  - apply step_exclusive.
  - intros k o n m Ho Hns Hn Hm. eapply (Hex k o Ho); [|done..].
    destruct Hw as (_ & Hkey & _). by rewrite (Hkey _ _ Ho).
Qed.

(** C5: Every handler keeps to the state machine of an upgrade.  A run from any sane world,
    with any interference that keeps to it, any failing calls and any event, takes each
    stored upgrade from the stored one (or from a new one) by steps that move at most one
    node each, along [nodeMove] (preloading while nodes are prepared, pause and unpause
    before the drain, the drains only while the nodes are upgraded and every other node is
    done or waiting, results in order, failure from anywhere), open a condition only after
    the phase before it, and label the upgrade accordingly. *)
Theorem handlers_follow_state_machine P e w ts :
  wf single w -> relies (evolves single) ts -> eventOk single P e w ->
  evolves single w (sys_world (handle P e (mkSys w ts)).2).
Proof.
  intros Hw Hts Hok.
  exact (@runs_may _ _ _ _ _ single (upgradeRegime single) (steps_allows single) w _ Hw
    (@run_handler _ _ _ _ _ single (upgradeRegime single) P e w ts Hts Hok)).
Qed.

(** C6: The phases of an upgrade come in order.  In every world that runs of the handlers
    lead to, for every stored upgrade: the system services are upgraded only after the
    nodes were prepared; nodes are drained, and the upgrade of the nodes is under way or
    done, only after the system services were upgraded; the upgrade counts as completed
    only if services and nodes both are, and it is labelled succeeded only if completed. *)
Theorem phases_in_order w0 w :
  wf single w0 ->
  (forall k o, st_objs (w_upgrades w0) !! k = Some o -> ordered single (o_val o)) ->
  reachable (eq w0) (@runs _ _ _ _ _ single (upgradeRegime single)) w ->
  forall k o, st_objs (w_upgrades w) !! k = Some o -> ordered single (o_val o).
Proof.
  intros Hw0 Hor0 Hr. eapply reachable_invariant; [..|done|done|done].
  - apply fresh_ordered.
  - apply step_ordered.
Qed.

(** C40: A lost acknowledgement is never made up for.  Once a node has passed Pre-draining
    while Rancher's announcement of its drain is still unacknowledged (the job handler
    stores the new state of the node first, and a failure to list or to update the secret
    after that ends the run), the announcement stays unacknowledged through every further
    run of every handler, as long as the others leave it alone and start no new upgrade:
    the drain of that node, and with it the upgrade, waits forever. *)
Theorem lost_drain_ack_is_never_repaired n m w0 w :
  lost single n m w0 ->
  reachable (eq w0) (@runs _ _ _ _ _ single (lostRegime single n m)) w ->
  forall k o, st_objs (w_secrets w) !! k = Some o -> machineSecret m (o_val o) = true ->
    isUnderPreDrain (o_val o) = true.
Proof.
  intros Hl Hr.
  assert (H : lost single n m w).
  { induction Hr as [w <-|w w' Hr IH Hstep]; [done|].
    exact (@runs_sane _ _ _ _ _ single (lostRegime single n m) (lost_allows single n m) w w' IH Hstep). }
  intros k o Ho. by eapply H.
Qed.
End Properties.

Section Witnesses.
Import UpDemo.
Abbreviation noSingle := (fun _ : string * string => False) (only parsing).

Lemma ready_wf : wf noSingle ready.
Proof. apply wfb_ok. vm_compute. reflexivity. Qed.

Lemma one_node_at_a_time_witness :
  stateIn firstDrain "a" = nodeStatePreDraining /\
  forall k o n m, st_objs (w_upgrades firstDrain) !! k = Some o -> ~ noSingle k ->
    active (nodeState (o_val o) n) = true -> active (nodeState (o_val o) m) = true -> n = m.
Proof.
  split; [vm_compute; reflexivity|].
  apply (one_node_at_a_time noSingle ready firstDrain ready_wf).
  - apply allStored_ok. apply map_Forall_singleton. intros _ n m Hn.
    rewrite inactive_ok in Hn; [discriminate Hn|vm_compute; reflexivity].
  - eapply reach_step; [by apply reach_init|].
    apply (run_handler noSingle proc (EvSecret (Some (mkObj 1 (announced "a")))) ready []);
      [constructor|exact I].
Defined.

Lemma handlers_follow_state_machine_witness :
  stateIn firstDrain "a" = nodeStatePreDraining /\ evolves noSingle ready firstDrain.
Proof.
  split; [vm_compute; reflexivity|].
  apply (handlers_follow_state_machine noSingle proc
           (EvSecret (Some (mkObj 1 (announced "a")))) ready []);
    [exact ready_wf|constructor|exact I].
Defined.

Lemma phases_in_order_witness :
  stateIn firstDrain "a" = nodeStatePreDraining /\
  forall k o, st_objs (w_upgrades firstDrain) !! k = Some o -> ordered noSingle (o_val o).
Proof.
  split; [vm_compute; reflexivity|].
  apply (phases_in_order noSingle ready firstDrain ready_wf).
  - apply allStored_ok. apply map_Forall_singleton.
    split; [reflexivity|reflexivity|reflexivity|reflexivity|discriminate|discriminate].
  - eapply reach_step; [by apply reach_init|].
    apply (run_handler noSingle proc (EvSecret (Some (mkObj 1 (announced "a")))) ready []);
      [constructor|exact I].
Defined.

(** The recorded states are exclusive, the jobs are not: the job is created before the
    update of the upgrade is checked, so that two secrets handled with the same cached
    upgrade start the pre-drain jobs of both nodes, and only the second update fails. *)
Example two_drain_jobs :
  let second := handle proc (EvSecret (Some (mkObj 1 (announced "b")))) (quiet firstDrain) in
  IsConflict (match second.1 with Err e => e | _ => ErrText "" end) = true /\
  map (stateIn (sys_world second.2)) ["a"; "b"] = [nodeStatePreDraining; nodeStateImagesPreloaded] /\
  (map (fun j => gm_str (job_Labels j) harvesterNodeLabel)
     (map_to_list (w_jobs (sys_world second.2))).*2) ≡ₚ ["a"; "b"].
Proof. split_and!; [vm_compute; reflexivity..|]. vm_compute. solve_Permutation. Qed.

(** The job handler itself loses the acknowledgement: the call after its update of the
    upgrade fails; and it does not make up for it when it is run again. *)
Lemma lost_drain_ack_witness :
  map (stateIn unacknowledged) ["a"; "b"] = [nodeStatePreDrained; nodeStateImagesPreloaded] /\
  forall k o, st_objs (w_secrets retried) !! k = Some o ->
    machineSecret "a-machine" (o_val o) = true -> isUnderPreDrain (o_val o) = true.
Proof.
  split; [vm_compute; reflexivity|].
  apply (lost_drain_ack_is_never_repaired noSingle "a" "a-machine" unacknowledged retried).
  - apply lostb_ok. vm_compute. reflexivity.
  - eapply reach_step; [by apply reach_init|].
    apply (@run_handler _ _ _ _ _ noSingle (lostRegime noSingle "a" "a-machine") proc
             (EvJob (Some preDrainJob)) unacknowledged []); [constructor|].
    intros Hty. vm_compute in Hty. discriminate Hty.
Defined.
End Witnesses.
