(* ===== verification/UpgradeCleanup.v ===== *)
(** What an upgrade changes for its own sake and gives back: the replica interval of Longhorn,
    the update methods of virtual machines, images on the nodes, and where it does not. *)

From Stdlib Require Import Ascii.
From S2P Require Import Prelude K8s NodeUtil Addon ApiServer Upgrade UpgradeJobs UpgradeWorld.
From S2P Require Import UpgradeNodes UpgradeVersion UpgradeRepo UpgradeController UpgradeFlow.
From S2P Require Import UpgradeSafety.

Local Open Scope Z_scope.

(** ** Runs without interference *)

Section Quiet.
Context {A : Type} (w : World).

Lemma read_quiet (f : World -> outcome A) : readCall f (quiet w) = (f w, quiet w).
Proof. done. Qed.

Lemma cacheGet_quiet (sel : Caches -> list A) p a :
  List.find p (sel (w_cache w)) = Some a -> cacheGet sel p (quiet w) = (Ok a, quiet w).
Proof. intros H. unfold cacheGet, cached. rewrite read_quiet. by rewrite H. Qed.

Lemma cacheGet_none (sel : Caches -> list A) p :
  List.find p (sel (w_cache w)) = None ->
  cacheGet sel p (quiet w) = (Err (ApiNotFound "not found"), quiet w).
Proof. intros H. unfold cacheGet, cached. rewrite read_quiet. by rewrite H. Qed.

Lemma onInfra_quiet (f : Infra -> outcome A * Infra) :
  onInfra f (quiet w) = ((f (w_infra w)).1, quiet (w_set_infra (f (w_infra w)).2 w)).
Proof. unfold onInfra. rewrite call_quiet. by destruct (f _). Qed.
End Quiet.

Lemma storeUpdate_quiet {A} `{!InfraStore A} w k (o : Obj A) v :
  st_objs (in_store (w_infra w)) !! k = Some o ->
  storeUpdate k (mkObj (o_rv o) v) (quiet w) =
  (Ok (mkObj (st_rv (in_store (A := A) (w_infra w)) + 1) v),
   quiet (w_set_infra (in_set_store (written (fun _ new => new) k o v (in_store (w_infra w)))
                         (w_infra w)) w)).
Proof.
  intros Ho. unfold storeUpdate. rewrite onInfra_quiet. unfold store_write. rewrite Ho.
  cbn [o_rv]. by rewrite Z.eqb_refl.
Qed.

Lemma upgradeUpdate_quiet w o v :
  st_objs (w_upgrades w) !! upKey (o_val o) = Some o -> upKey v = upKey (o_val o) ->
  updateFrom o v (quiet w) =
  (Ok (mkObj (st_rv (w_upgrades w) + 1) v),
   quiet (set_store (written (fun _ new => new) (upKey (o_val o)) o v (w_upgrades w)) w)).
Proof.
  intros Ho Hk. unfold updateFrom, upgradeClient_Update, apiUpdate. rewrite call_quiet.
  cbn [o_val the_store World_upgrades]. rewrite Hk. unfold store_write. rewrite Ho. cbn [o_rv].
  by rewrite Z.eqb_refl.
Qed.

Lemma try_err {S A} (m : M S A) s e s' : m s = (Err e, s') -> try m s = (Ok (inr e), s').
Proof. unfold try. by intros ->. Qed.

(** ** The update methods of virtual machines *)

Lemma vget_vput m k v k' :
  vget (vput m k v) k' = if String.eqb k k' then Some v else vget m k'.
Proof.
  induction m as [|[l x] m IH]; simpl; [done|].
  destruct (String.eqb_spec l k) as [->|Hlk]; simpl; [by destruct (String.eqb k k')|].
  rewrite IH. destruct (String.eqb_spec l k') as [->|]; [|done].
  by destruct (String.eqb_spec k k'); [congruence|].
Qed.

Lemma vput_vput m k v x : vput (vput m k x) k v = vput m k v.
Proof.
  induction m as [|[l y] m IH]; simpl; [by rewrite String.eqb_refl|].
  destruct (String.eqb l k) eqn:E; simpl; [by rewrite String.eqb_refl|]. by rewrite E, IH.
Qed.

Lemma vput_same m k v : vget m k = Some v -> vput m k v = m.
Proof.
  induction m as [|[l y] m IH]; simpl; [done|].
  destruct (String.eqb_spec l k) as [->|]; [by intros [= ->]|]. intros H. by rewrite IH.
Qed.

Lemma vdelete_vput m k x : vget m k = None -> vdelete (vput m k x) k = m.
Proof.
  unfold vdelete. induction m as [|[l y] m IH]; simpl; [by rewrite String.eqb_refl|].
  destruct (String.eqb l k) eqn:E; [done|]. simpl. rewrite E. simpl. intros H. by rewrite IH.
Qed.

Definition submap (v : option Value) : list (string * Value) :=
  match v with Some (VMap m) => m | _ => [] end.

Lemma GetValue_cons data k keys :
  keys <> [] -> GetValue data (k :: keys) = GetValue (submap (vget data k)) keys.
Proof. by destruct keys. Qed.

Lemma PutValue_cons data v k keys :
  keys <> [] ->
  PutValue data v (k :: keys) =
  match vget data k with
  | Some (VMap m) => vput data k (VMap (PutValue m v keys))
  | Some _ => data
  | None => vput data k (VMap (PutValue [] v keys))
  end.
Proof. by destruct keys. Qed.

Lemma deleteValue_cons data k keys :
  keys <> [] ->
  deleteValue data (k :: keys) =
  match vget data k with
  | Some (VMap m) => vput data k (VMap (deleteValue m keys))
  | _ => data
  end.
Proof. by destruct keys. Qed.

Lemma GetValue_nil keys : GetValue [] keys = None.
Proof. induction keys as [|k [|]]; [done..|]. by rewrite GetValue_cons. Qed.

(** What was there comes back. *)
Lemma PutValue_back data keys v x :
  GetValue data keys = Some v -> PutValue (PutValue data x keys) v keys = data.
Proof.
  revert data. induction keys as [|k keys IH]; intros data H; [done|].
  destruct (decide (keys = [])) as [->|Hk]; [simpl in *; rewrite vput_vput; by apply vput_same|].
  rewrite GetValue_cons in H by done. rewrite !PutValue_cons by done.
  destruct (vget data k) as [[| | | | |m]|] eqn:E; simpl in H; rewrite ?GetValue_nil in H; try done.
  rewrite vget_vput, String.eqb_refl, vput_vput. rewrite (IH m) by done. by apply vput_same.
Qed.

(** The maps on the way to the last key are there. *)
Fixpoint hasMaps (data : list (string * Value)) (keys : list string) : bool :=
  match keys with
  | [] | [_] => true
  | k :: keys => match vget data k with Some (VMap m) => hasMaps m keys | _ => false end
  end.

Lemma hasMaps_cons data k keys :
  keys <> [] ->
  hasMaps data (k :: keys) =
  match vget data k with Some (VMap m) => hasMaps m keys | _ => false end.
Proof. by destruct keys. Qed.

(** What was not there goes. *)
Lemma deleteValue_back data keys x :
  hasMaps data keys = true -> keys <> [] -> GetValue data keys = None ->
  deleteValue (PutValue data x keys) keys = data.
Proof.
  revert data. induction keys as [|k keys IH]; intros data Hm Hne H; [done|].
  destruct (decide (keys = [])) as [->|Hk]; [by apply vdelete_vput|].
  rewrite hasMaps_cons in Hm by done. rewrite GetValue_cons in H by done.
  rewrite PutValue_cons, deleteValue_cons by done.
  destruct (vget data k) as [[| | | | |m]|] eqn:E; try done. simpl in H.
  rewrite vget_vput, String.eqb_refl, vput_vput, (IH m) by done. by apply vput_same.
Qed.

Lemma GetValue_PutValue data keys x :
  hasMaps data keys = true -> keys <> [] -> GetValue (PutValue data x keys) keys = Some x.
Proof.
  revert data. induction keys as [|k keys IH]; intros data Hm Hne; [done|].
  destruct (decide (keys = [])) as [->|Hk]; [simpl; by rewrite vget_vput, String.eqb_refl|].
  rewrite hasMaps_cons in Hm by done. rewrite GetValue_cons, PutValue_cons by done.
  destruct (vget data k) as [[| | | | |m]|] eqn:E; try done.
  rewrite vget_vput, String.eqb_refl. simpl. by apply IH.
Qed.

Lemma GetValue_hasMaps data keys v : GetValue data keys = Some v -> hasMaps data keys = true.
Proof.
  revert data. induction keys as [|k keys IH]; intros data H; [done|].
  destruct (decide (keys = [])) as [->|Hk]; [done|].
  rewrite GetValue_cons in H by done. rewrite hasMaps_cons by done.
  destruct (vget data k) as [[| | | | |m]|]; simpl in H; rewrite ?GetValue_nil in H; try done. by apply IH.
Qed.

Lemma vget_vdelete m k k' : vget (vdelete m k) k' = if String.eqb k k' then None else vget m k'.
Proof.
  unfold vdelete. induction m as [|[l y] m IH]; simpl; [by destruct (String.eqb k k')|].
  destruct (String.eqb_spec l k) as [->|Hlk]; simpl; rewrite IH; [by destruct (String.eqb k k')|].
  destruct (String.eqb_spec l k') as [->|]; [|done]. by destruct (String.eqb_spec k k'); [congruence|].
Qed.

(** What is deleted is not found, whatever was on the way. *)
Lemma GetValue_deleteValue data keys : keys <> [] -> GetValue (deleteValue data keys) keys = None.
Proof.
  revert data. induction keys as [|k keys IH]; intros data Hne; [done|].
  destruct (decide (keys = [])) as [->|Hk]; [simpl; by rewrite vget_vdelete, String.eqb_refl|].
  rewrite GetValue_cons, deleteValue_cons by done.
  destruct (vget data k) as [[| | | | |m]|] eqn:E; try (rewrite E; simpl; apply GetValue_nil).
  rewrite vget_vput, String.eqb_refl. simpl. by apply IH.
Qed.

(** The entries beside the path are not touched. *)
Lemma vget_PutValue data x k keys k' : k <> k' -> vget (PutValue data x (k :: keys)) k' = vget data k'.
Proof.
  intros Hk. apply String.eqb_neq in Hk. destruct (decide (keys = [])) as [->|Hne].
  - simpl. by rewrite vget_vput, Hk.
  - rewrite PutValue_cons by done. repeat case_match; rewrite ?vget_vput, ?Hk; done.
Qed.

Lemma vget_deleteValue data k keys k' : k <> k' -> vget (deleteValue data (k :: keys)) k' = vget data k'.
Proof.
  intros Hk. apply String.eqb_neq in Hk. destruct (decide (keys = [])) as [->|Hne].
  - simpl. by rewrite vget_vdelete, Hk.
  - rewrite deleteValue_cons by done. repeat case_match; rewrite ?vget_vput, ?Hk; done.
Qed.

(** ** Images on the nodes *)

Section Images.
Context {UL : UpgradeLib} (u : Upgrade) (w : World).

(** The repository serves the list of images of a version. *)
Definition imageListURL (version : string) : string :=
  repoURL u ("/harvester-iso/bundle/harvester/images-lists-archive/" +:+ version
             +:+ "/image_list_all.txt").
Definition serves (version : string) (images : list string) : Prop :=
  exists status body,
    in_http (w_infra w) (imageListURL version) = HttpResponse 200 status body None /\
    scanned (Split newline body) = (images, false).

Lemma getImageList_serves version images l :
  serves version images ->
  getImageList u version l (quiet w) = (Ok (list_to_set images ∪ l, None), quiet w).
Proof.
  intros (status & body & Hh & Hs). unfold getImageList.
  erewrite bind_run; [|apply try_run; unfold httpGet; rewrite read_quiet;
    unfold imageListURL in Hh; rewrite Hh; reflexivity].
  cbn [Z.eqb negb]. by rewrite Hs.
Qed.

Lemma fetchImageLists_serves n e previous current :
  serves (ust_PreviousVersion (up_status u)) previous -> serves currentVersion current ->
  fetchImageLists u (S n) ∅ ∅ e (quiet w) =
  (Ok (list_to_set previous, list_to_set current), quiet w).
Proof.
  intros Hp Hc. cbn [fetchImageLists]. erewrite bind_run; [|by apply getImageList_serves].
  cbv beta iota. erewrite bind_run; [|by apply getImageList_serves]. cbv beta iota.
  by rewrite !(right_id_L ∅ (∪)).
Qed.

Lemma getImagesDiffList_serves previous current :
  serves (ust_PreviousVersion (up_status u)) previous -> serves currentVersion current ->
  getImagesDiffList u (quiet w) =
  (Ok (applyImageRetainList (difference (list_to_set previous) (list_to_set current))), quiet w).
Proof.
  intros Hp Hc. unfold getImagesDiffList. erewrite bind_run; [|by apply (fetchImageLists_serves 29)].
  done.
Qed.

Lemma applyImageRetainList_nil : applyImageRetainList [] = [].
Proof. reflexivity. Qed.

Lemma difference_nil (a b : list string) : a ⊆ b -> difference (list_to_set a) (list_to_set b) = [].
Proof.
  intros Hs. unfold difference. replace (list_to_set a ∖ list_to_set b : gset string) with (∅ : gset string);
    [by rewrite elements_empty|]. set_solver.
Qed.

(** No image to remove: nothing is started. *)
Lemma cleanupImages_none previous current :
  serves (ust_PreviousVersion (up_status u)) previous -> serves currentVersion current ->
  previous ⊆ current -> cleanupImages u (quiet w) = (Ok tt, quiet w).
Proof.
  intros Hp Hc Hs. unfold cleanupImages. erewrite bind_run; [|by apply getImagesDiffList_serves].
  by rewrite difference_nil.
Qed.
End Images.

(** ** The replica interval *)

Definition lhKey0 : string * string :=
  (LonghornSystemNamespaceName, replicaReplenishmentWaitIntervalSetting).
Definition isReplicaSetting (o : Obj LhSetting) : bool :=
  metaIs LonghornSystemNamespaceName replicaReplenishmentWaitIntervalSetting (lhs_meta (o_val o)).

(** The cache has the setting as it is stored. *)
Definition cachedSetting (w : World) (s : Obj LhSetting) : Prop :=
  List.find isReplicaSetting (c_lhSettings (w_cache w)) = Some s /\
  st_objs (in_lhSettings (w_infra w)) !! lhKey0 = Some s.

(** The value that is stored. *)
Definition storedInterval (w : World) : option string :=
  lhs_Value ∘ o_val <$> st_objs (in_lhSettings (w_infra w)) !! lhKey0.

Section Interval.
Context (w : World) (s : Obj LhSetting) (Hs : cachedSetting w s).

Lemma lhKey_setting v : lhKey (mkLhSetting (lhs_meta (o_val s)) v) = lhKey0.
Proof using Hs.
  destruct Hs as [Hf _]. apply find_some in Hf as [_ Hm]. unfold isReplicaSetting, metaIs in Hm.
  boolify. unfold lhKey, lhKey0. simpl. congruence.
Qed.

Lemma getReplica_quiet v :
  Atoi (lhs_Value (o_val s)) = Some v -> getReplicaReplenishmentValue (quiet w) = (Ok v, quiet w).
Proof using Hs.
  intros Hv. unfold getReplicaReplenishmentValue, replicaSetting, lhSettingCache_Get.
  erewrite bind_run; [|apply cacheGet_quiet, Hs]. unfold atoi. by rewrite Hv.
Qed.

(** The world with another interval. *)
Definition withInterval (v : Z) : World :=
  let new := mkLhSetting (lhs_meta (o_val s)) (Itoa v) in
  if bool_decide (new = o_val s) then w
  else w_set_infra (in_set_store (written (fun _ n => n) lhKey0 s new (in_lhSettings (w_infra w)))
                      (w_infra w)) w.

Lemma setReplica_quiet v :
  setReplicaReplenishmentValue v (quiet w) = (Ok tt, quiet (withInterval v)).
Proof using Hs.
  unfold setReplicaReplenishmentValue, replicaSetting, lhSettingCache_Get, withInterval.
  pose proof Hs as [Hf Hst]. erewrite bind_run; [|apply cacheGet_quiet, Hf]. cbv zeta.
  case_bool_decide; [done|]. rewrite lhKey_setting.
  erewrite bind_run; [|by apply storeUpdate_quiet]. done.
Qed.

Lemma withInterval_stored v : storedInterval (withInterval v) = Some (Itoa v).
Proof using Hs.
  unfold storedInterval, withInterval. case_bool_decide as Hd.
  - destruct Hs as [_ ->]. simpl. by rewrite <- Hd.
  - simpl. by rewrite lookup_insert_eq.
Qed.

Lemma withInterval_frame v :
  w_upgrades (withInterval v) = w_upgrades w /\ w_cache (withInterval v) = w_cache w /\
  in_clusters (w_infra (withInterval v)) = in_clusters (w_infra w).
Proof using Hs. unfold withInterval. by case_bool_decide. Qed.
End Interval.

Section Start.
Context {UL : UpgradeLib} `{!JsonCodec UpgradeConfig} (P : Proc).

(** What the start of the node upgrades finds: the upgrade as stored, with its labels and the
    files in place that keep RKE2 manifests from being applied; Rancher's cluster, the
    Longhorn setting and the descheduler, where there is one, cached as they are stored. *)
Definition isDescheduler (a : Obj Addon.Addon) : bool :=
  metaIs KubeSystemNamespace DeschedulerName (ad_meta (o_val a)).
Definition deschedulerStored (w : World) : Prop :=
  forall a, List.find isDescheduler (c_addons (w_cache w)) = Some a ->
    st_objs (w_addons w) !! (ad_Namespace (o_val a), ad_Name (o_val a)) = Some a.

Record startable (w : World) (o : Obj Upgrade) (s : Obj LhSetting) : Prop := {
  sa_stored : st_objs (w_upgrades w) !! upKey (o_val o) = Some o;
  sa_labels : up_Labels (o_val o) <> None;
  sa_skipped : gm_has (up_Annotations (o_val o)) skipManifestsApplyPlanCompletedAnnotation = true;
  sa_setting : cachedSetting w s;
  sa_cluster : exists c,
    List.find (fun c => metaIs "fleet-local" "local" (cl_meta (o_val c))) (c_clusters (w_cache w))
      = Some c /\ st_objs (in_clusters (w_infra w)) !! clusterKey (o_val c) = Some c;
  sa_descheduler : deschedulerStored w }.

(** The descheduler's upgrade label: only annotations of the upgrade, and of the cluster only
    the addon, are touched. *)
Lemma descheduler_quiet w u :
  deschedulerStored w -> up_Annotations u <> None ->
  exists u' w', addUpgradeLabelToDeschedulerAddons u (quiet w) = (Ok u', quiet w') /\
    annotated u u' /\
    gm_get (up_Annotations u') replicaReplenishmentAnnotation
      = gm_get (up_Annotations u) replicaReplenishmentAnnotation /\
    w_upgrades w' = w_upgrades w /\ w_cache w' = w_cache w /\ w_infra w' = w_infra w.
Proof.
  intros Hd Ha. unfold addUpgradeLabelToDeschedulerAddons.
  assert (Hrun : deschedulerAddon (quiet w) = (Ok (List.find isDescheduler (c_addons (w_cache w))), quiet w)).
  { unfold deschedulerAddon, addonCache_Get. change (fun o => metaIs _ _ (ad_meta (o_val o))) with isDescheduler.
    destruct (List.find isDescheduler (c_addons (w_cache w))) as [a|] eqn:Hf.
    - erewrite bind_run; [|by apply try_run, cacheGet_quiet]. done.
    - erewrite bind_run; [|by apply try_err, cacheGet_none]. done. }
  erewrite bind_run; [|exact Hrun].
  destruct (List.find isDescheduler (c_addons (w_cache w))) as [a|] eqn:Hf.
  2:{ exists u, w. split_and!; try done. apply annotated_self. }
  destruct (as_Enabled (ad_Spec (o_val a))) eqn:He; cbn [negb].
  2:{ exists u, w. split_and!; try done. apply annotated_self. }
  eexists _, _. split_and!.
  - rewrite gm_store_set by done. erewrite bind_run; [|reflexivity].
    erewrite bind_run; [reflexivity|]. unfold addonClient_Update, apiUpdate. rewrite call_quiet.
    cbn [o_val the_store World_addons]. unfold store_write.
    change (ad_Namespace (addon_set_Labels ?l ?x), ad_Name (addon_set_Labels ?l ?x))
      with (ad_Namespace x, ad_Name x).
    rewrite (Hd a Hf). cbn [o_rv]. rewrite Z.eqb_refl. reflexivity.
  - by eexists.
  - change (up_Annotations (up_set_Annotations ?a ?u)) with a. by rewrite gm_get_set_ne.
  - done.
  - done.
  - done.
Qed.

Lemma upgradeKubernetes_quiet w version :
  (exists c,
    List.find (fun c => metaIs "fleet-local" "local" (cl_meta (o_val c))) (c_clusters (w_cache w))
      = Some c /\ st_objs (in_clusters (w_infra w)) !! clusterKey (o_val c) = Some c) ->
  exists i, upgradeKubernetes version (quiet w) = (Ok tt, quiet (w_set_infra i w)) /\
    in_lhSettings i = in_lhSettings (w_infra w).
Proof.
  intros (c & Hf & Hc). eexists. split.
  - unfold upgradeKubernetes, clusterCache_Get.
    erewrite bind_run; [|by apply mapErr_run, cacheGet_quiet].
    erewrite bind_run; [|by apply mapErr_run, storeUpdate_quiet]. reflexivity.
  - done.
Qed.

Lemma nodesStarted_quiet w o :
  st_objs (w_upgrades w) !! upKey (o_val o) = Some o -> up_Labels (o_val o) <> None ->
  exists o', nodesStarted P o (o_val o) (quiet w) =
    (Ok tt, quiet (set_store (written (fun _ new => new) (upKey (o_val o)) o (o_val o') (w_upgrades w)) w))
    /\ up_Annotations (o_val o') = up_Annotations (o_val o) /\ stateOf (o_val o') = StateUpgradingNodes.
Proof.
  intros Ho Hl. unfold nodesStarted, storeState. rewrite gm_store_set by done.
  set (u := setLabel upgradeStateLabel StateUpgradingNodes (o_val o)).
  assert (Hf : up_meta (createUnknown (pr_now P) NodesUpgraded u) = up_meta u)
    by (unfold createUnknown; by case_match).
  exists (mkObj (st_rv (w_upgrades w) + 1) (createUnknown (pr_now P) NodesUpgraded u)). split_and!.
  - erewrite bind_run; [|reflexivity].
    change (up_set_Labels (gm_set (up_Labels (o_val o)) upgradeStateLabel StateUpgradingNodes) (o_val o))
      with u.
    erewrite bind_run; [|apply upgradeUpdate_quiet; [done|]]; [done|].
    unfold upKey, up_Namespace, up_Name. by rewrite Hf.
  - cbn [o_val]. unfold up_Annotations. by rewrite Hf.
  - cbn [o_val]. unfold stateOf, up_Labels. rewrite Hf.
    exact (stateOf_setLabel upgradeStateLabel StateUpgradingNodes (o_val o)).
Qed.

(** What the upgrade records of an interval, and what the setting becomes. *)
Definition short (v : Z) : bool := v <? extendedReplicaReplenishmentWaitInterval.
Definition recorded (v : Z) (u : Upgrade) : Upgrade :=
  if short v then up_annotate replicaReplenishmentAnnotation (Itoa v) u else u.
Definition extended (w : World) (s : Obj LhSetting) (v : Z) : World :=
  if short v then withInterval w s extendedReplicaReplenishmentWaitInterval else w.

Lemma extend_quiet w s v u :
  cachedSetting w s -> Atoi (lhs_Value (o_val s)) = Some v ->
  (if v <? extendedReplicaReplenishmentWaitInterval then
     u' ← saveReplicaReplenishmentToUpgradeAnnotation u;
     setReplicaReplenishmentValue extendedReplicaReplenishmentWaitInterval;;
     mret u'
   else mret u) (quiet w) = (Ok (recorded v u), quiet (extended w s v)).
Proof.
  intros Hs Hv. unfold recorded, extended, short. destruct (v <? _); [|done].
  erewrite bind_run; [|unfold saveReplicaReplenishmentToUpgradeAnnotation;
    erewrite bind_run; [reflexivity|by apply (getReplica_quiet w s)]].
  erewrite bind_run; [|by apply setReplica_quiet]. reflexivity.
Qed.

Lemma extended_frame w s v :
  cachedSetting w s ->
  w_upgrades (extended w s v) = w_upgrades w /\ w_cache (extended w s v) = w_cache w /\
  w_addons (extended w s v) = w_addons w /\
  in_clusters (w_infra (extended w s v)) = in_clusters (w_infra w) /\
  storedInterval (extended w s v)
    = Some (if short v then Itoa extendedReplicaReplenishmentWaitInterval else lhs_Value (o_val s)).
Proof.
  intros Hs. unfold extended. destruct (short v).
  - destruct (withInterval_frame w s Hs extendedReplicaReplenishmentWaitInterval) as (? & ? & ?).
    split_and!; [done|done|unfold withInterval; by case_bool_decide|done|by apply withInterval_stored].
  - destruct Hs as [_ Hst]. split_and!; [done..|]. unfold storedInterval. by rewrite Hst.
Qed.

(** The last annotation of the start does not touch the record either. *)
Lemma saveShutdown_annotates u :
  annotated u (saveShutdownVMOnMigrationFailureToUpgradeAnnotation P u) /\
  gm_get (up_Annotations (saveShutdownVMOnMigrationFailureToUpgradeAnnotation P u))
    replicaReplenishmentAnnotation
  = gm_get (up_Annotations u) replicaReplenishmentAnnotation.
Proof.
  unfold saveShutdownVMOnMigrationFailureToUpgradeAnnotation.
  case_match; [split; [apply annotated_self|done]|]. split; [by eexists|].
  unfold up_annotate. change (up_Annotations (up_set_Annotations ?a ?u)) with a.
  by rewrite gm_get_set_ne.
Qed.

Lemma recorded_annotates v u :
  annotated u (recorded v u) /\
  gm_get (up_Annotations (recorded v u)) replicaReplenishmentAnnotation
  = (if short v then Some (Itoa v) else gm_get (up_Annotations u) replicaReplenishmentAnnotation) /\
  (up_Annotations u <> None -> up_Annotations (recorded v u) <> None).
Proof.
  unfold recorded. destruct (short v); [|split_and!; [apply annotated_self|done|done]].
  unfold up_annotate. change (up_Annotations (up_set_Annotations ?a ?u)) with a.
  split_and!; [by eexists|apply gm_get_set_eq|]. by destruct (up_Annotations u).
Qed.

(** A pass that starts the node upgrades extends a short interval and records it first; a
    longer one it leaves, and records nothing. *)
Lemma startMultiNode_quiet w o s v info :
  startable w o s -> Atoi (lhs_Value (o_val s)) = Some v ->
  exists w' o', startMultiNode P o info (quiet w) = (Ok tt, quiet w') /\
    st_objs (w_upgrades w') !! upKey (o_val o) = Some o' /\
    stateOf (o_val o') = StateUpgradingNodes /\
    gm_get (up_Annotations (o_val o')) replicaReplenishmentAnnotation
      = (if short v then Some (Itoa v)
         else gm_get (up_Annotations (o_val o)) replicaReplenishmentAnnotation) /\
    storedInterval w' = Some (if short v then "1800" else lhs_Value (o_val s)).
Proof.
  intros [Ho Hl Hsk Hs Hc Hd] Hv.
  destruct (recorded_annotates v (o_val o)) as (Ha1 & Hr1 & Hn1).
  destruct (extended_frame w s v Hs) as (Hu1 & Hc1 & Had1 & Hcl1 & Hi1).
  set (u1 := recorded v (o_val o)) in *. set (w1 := extended w s v) in *.
  destruct (descheduler_quiet w1 u1) as (u2 & w2 & Hdr & Ha2 & Hr2 & Hu2 & Hc2 & Hin2).
  { unfold deschedulerStored. by rewrite Hc1, Had1. }
  { apply Hn1. intros E. by rewrite E in Hsk. }
  destruct (saveShutdown_annotates u2) as [Ha3 Hr3].
  set (u3 := saveShutdownVMOnMigrationFailureToUpgradeAnnotation P u2) in *.
  assert (Ha : annotated (o_val o) u3) 
    by (exact (annotated_trans _ _ _ (annotated_trans _ _ _ Ha1 Ha2) Ha3)).
  assert (Hk3 : upKey u3 = upKey (o_val o)) by (by destruct Ha as [a ->]).
  set (o3 := mkObj (st_rv (w_upgrades w) + 1) u3).
  set (w3 := set_store (written (fun _ new => new) (upKey (o_val o)) o u3 (w_upgrades w)) w2).
  destruct (upgradeKubernetes_quiet w3 (rel_Kubernetes (ri_Release info))) as (i & Hki & Hi).
  { unfold w3. simpl. by rewrite Hc2, Hin2, Hc1, Hcl1. }
  destruct (nodesStarted_quiet (w_set_infra i w3) o3) as (o4 & Hn & Ha4 & Hst4).
  { simpl. rewrite Hk3. apply lookup_insert_eq. }
  { cbn [o_val o3]. by destruct Ha as [a ->]. }
  eexists _, (mkObj _ (o_val o4)). split_and!; [| |exact Hst4|..].
  - unfold startMultiNode, ensureSkipManifestPlanCompleted. rewrite Hsk.
    erewrite bind_run; [|reflexivity]. cbv beta iota zeta.
    erewrite bind_run; [|by apply (getReplica_quiet w s)].
    erewrite bind_run; [|by apply extend_quiet]. fold u1 w1.
    erewrite bind_run; [|exact Hdr]. fold u3.
    erewrite bind_run; [|apply upgradeUpdate_quiet; [by rewrite Hu2, Hu1|done]].
    rewrite Hu2, Hu1. fold w3 o3. erewrite bind_run; [|exact Hki]. exact Hn.
  - simpl. rewrite Hk3. apply lookup_insert_eq.
  - cbn [o_val]. rewrite Ha4. cbn [o_val o3]. by rewrite Hr3, Hr2, Hr1.
  - unfold storedInterval in *. cbn [w_infra set_store World_upgrades w_set_infra]. rewrite Hi.
    unfold w3. cbn [w_infra set_store World_upgrades]. by rewrite Hin2, Hi1.
Qed.
End Start.

(** The clean-up of a completed upgrade sets what the upgrade recorded, or leaves the
    setting when there is no record. *)
Lemma restoreLonghorn_quiet w o s r :
  st_objs (w_upgrades w) !! upKey (o_val o) = Some o -> up_SingleNode (o_val o) = "" ->
  gm_has (up_Annotations (o_val o)) longhornSettingsRestoredAnnotation = false ->
  gm_get (up_Annotations (o_val o)) replicaReplenishmentAnnotation = Itoa <$> r ->
  (forall v, r = Some v -> - 2 ^ 63 <= v < 2 ^ 63) -> cachedSetting w s ->
  exists w' o', restoreLonghornSettings o (quiet w) = (Ok o', quiet w') /\
    storedInterval w' = match r with Some v => Some (Itoa v) | None => storedInterval w end.
Proof.
  intros Ho Hsn Hr Ha Hv Hs. unfold restoreLonghornSettings. rewrite Hsn, Hr. cbn [negb orb String.eqb].
  unfold loadReplicaReplenishmentFromUpgradeAnnotation, atoi. rewrite Ha.
  destruct r as [v|]; cbn [fmap option_fmap option_map]; eexists _, _; split.
  - specialize (Hv v eq_refl). erewrite bind_run; [|erewrite bind_run; [|by rewrite Atoi_Itoa];
      by apply setReplica_quiet].
    apply upgradeUpdate_quiet; [|done]. by rewrite (proj1 (withInterval_frame w s Hs v)).
  - unfold storedInterval. cbn [w_infra set_store World_upgrades]. by apply withInterval_stored.
  - erewrite bind_run; [|reflexivity]. by apply upgradeUpdate_quiet.
  - done.
Qed.

(** ** Worlds of a small cluster *)
Module CleanDemo.
Import UpDemo.

Definition setting (value : string) : LhSetting :=
  mkLhSetting (meta0 LonghornSystemNamespaceName replicaReplenishmentWaitIntervalSetting) value.
Definition cluster : Cluster :=
  mkCluster (meta0 "fleet-local" "local") "v1.33" (Some rkeConfig0).

(** The system services are upgraded, the nodes come next. *)
Definition servicesDone (conds : list Condition) (annotations : gmap string string) : Upgrade :=
  mkUpgrade
    (mkMeta "up" "" HarvesterSystemNamespaceName "uid"
       (Some {[ harvesterLatestUpgradeLabel := "true";
                upgradeStateLabel := StateUpgradingSystemServices ]})
       (Some annotations) [] 0 None)
    "Upgrade" "harvesterhci.io/v1beta1" (mkUpgradeSpec "v1.9.0" "" false None)
    (mkUpgradeStatus "v1.8.0" "" "release" "" None conds "").

Definition started : Upgrade :=
  servicesDone
    [mkCond UpgradeCompleted ConditionUnknown "" "" ""; mkCond ImageReady ConditionTrue "" "" "";
     mkCond RepoProvisioned ConditionTrue "" "" ""; mkCond NodesPrepared ConditionTrue "" "" "";
     mkCond SystemServicesUpgraded ConditionTrue "" "" ""]
    {[ skipManifestsApplyPlanCompletedAnnotation := "true" ]}.

Definition dkey : string * string := (HarvesterSystemNamespaceName, "upgrade-repo-up").
Definition deployment : Deployment := mkDeployment (meta0 HarvesterSystemNamespaceName "upgrade-repo-up") None [].

(** Caches with what is stored. *)
Definition synced (w : World) : World :=
  let i := w_infra w in
  mkWorld (w_upgrades w) (w_nodes w) (w_secrets w) (w_addons w) (w_jobs w) i
    (mkCaches ((map_to_list (st_objs (w_upgrades w))).*2) (c_nodes (w_cache w)) (c_jobs (w_cache w))
       ((map_to_list (in_plans i)).*2) (c_machines (w_cache w)) (c_configMaps (w_cache w))
       (c_settings (w_cache w)) (c_addons (w_cache w)) (c_images (w_cache w)) (c_vms (w_cache w))
       ((map_to_list (in_deployments i)).*2) ((map_to_list (st_objs (in_clusters i))).*2)
       ((map_to_list (st_objs (in_lhSettings i))).*2) (c_upgradeLogs (w_cache w))
       ((map_to_list (st_objs (in_managedCharts i))).*2) (c_versions (w_cache w)))
    (w_enqueued w).

Definition http (lists : list (string * string)) (url : string) : HttpAnswer :=
  match List.find (fun '(v, _) => String.eqb (imageListURL started v) url) lists with
  | Some (_, body) => HttpResponse 200 "200 OK" body None
  | None => HttpResponse 404 "404 Not Found" "" None
  end.

Definition clusterWorld (u : Upgrade) (lists : list (string * string)) : World :=
  synced (mkWorld (mkStore 1 {[ upKey u := mkObj 1 u ]}) (mkStore 1 ∅) (mkStore 1 ∅) (mkStore 1 ∅) ∅
    (mkInfra ∅ (mkStore 1 ∅) {[ dkey := deployment ]} ∅ ∅ ∅ ∅
       (mkStore 1 {[ clusterKey cluster := mkObj 1 cluster ]})
       (mkStore 1 {[ lhKey0 := mkObj 1 (setting "300") ]}) (mkStore 1 ∅) (mkStore 1 ∅) ∅ [] (http lists))
    (mkCaches [] (map (fun n => mkObj 1 (nodeOf n)) ["a"; "b"]) [] [] [] [] [] [] [] [] [] [] [] [] [] [])
    []).

(** With another interval, and the descheduler on. *)
Definition descheduler : Addon.Addon :=
  mkAddon "Addon" "harvesterhci.io/v1beta1" (meta0 KubeSystemNamespace DeschedulerName)
    (mkAddonSpec "repo" "descheduler" "v1" true "") AddonDeployed [].
Definition intervalWorld (value : string) : World :=
  let w := clusterWorld started [] in
  let i := w_infra w in
  let c := w_cache w in
  synced (mkWorld (w_upgrades w) (w_nodes w) (w_secrets w)
    (mkStore 1 {[ (KubeSystemNamespace, DeschedulerName) := mkObj 1 descheduler ]}) (w_jobs w)
    (in_set_store (mkStore 1 {[ lhKey0 := mkObj 1 (setting value) ]}) i)
    (mkCaches (c_upgrades c) (c_nodes c) (c_jobs c) (c_plans c) (c_machines c) (c_configMaps c)
       (c_settings c) [mkObj 1 descheduler] (c_images c) (c_vms c) (c_deployments c) (c_clusters c)
       (c_lhSettings c) (c_upgradeLogs c) (c_managedCharts c) (c_versions c))
    (w_enqueued w)).

Definition stored (w : World) : Obj Upgrade :=
  default (mkObj 0 started) (st_objs (w_upgrades w) !! (HarvesterSystemNamespaceName, "up")).
Definition pass (turns : list (Turn World)) (w : World) : World :=
  synced (sys_world (upgrade_OnChanged proc (Some (stored w)) (mkSys w turns)).2).

(** The nodes are upgraded, and with them the upgrade is complete. *)
Definition completed (w : World) : World :=
  let o := stored w in
  synced (set_store (written (fun _ new => new) (upKey (o_val o)) o
    (setNodesUpgradedCondition "now" ConditionTrue "" "" (o_val o)) (w_upgrades w)) w).
End CleanDemo.

(** ** Properties *)

(** C34: Restoring the update methods of virtual machines undoes what the upgrade did to them,
    whatever it put in their place.  Reading the methods from the restored values of the
    chart gives what was read before the upgrade, or nothing where there was nothing, and
    the other entries of the values are not touched.  Where the maps on the way to the
    methods were already there the values are exactly the ones from before; where they were
    not, the upgrade has made them and they stay, without the methods.  Methods of which the
    JSON text is null are out: they are restored as if there had been none. *)
Theorem update_methods_roundtrip `{!JsonCodec Value} data x methods backup :
  GetValue data workloadUpdateKeys = methods ->
  backup = match methods with Some v => json_marshal v | None => "null" end ->
  (forall v, methods = Some v -> json_marshal v <> "null") ->
  exists data' restored,
    restoreKubevirtWorkloadUpdateMethodsInValues
      (Some (Some (PutValue data x workloadUpdateKeys))) backup true
    = Ok (Some (Some data'), restored) /\
    GetValue data' workloadUpdateKeys = methods /\
    (forall k, k <> "kubevirt" -> vget data' k = vget data k) /\
    (hasMaps data workloadUpdateKeys = true -> data' = data /\ restored = true).
Proof.
  intros Hg -> Hn. unfold restoreKubevirtWorkloadUpdateMethodsInValues. cbn [negb].
  destruct methods as [v|].
  - rewrite (proj2 (String.eqb_neq _ _)), json_roundtrip, PutValue_back by auto. by exists data, true.
  - rewrite String.eqb_refl. case_bool_decide as He; cbn [negb].
    + eexists _, true. split_and!; [reflexivity|by apply GetValue_deleteValue| |].
      * intros k Hk. unfold workloadUpdateKeys. by rewrite vget_deleteValue, vget_PutValue by congruence.
      * intros Hm. by rewrite deleteValue_back.
    + eexists _, false. split_and!; [reflexivity|by apply eq_None_not_Some| |].
      * intros k Hk. unfold workloadUpdateKeys. by rewrite vget_PutValue by congruence.
      * intros Hm. rewrite GetValue_PutValue in He by done. by destruct He.
Qed.

Section Properties.
Context {UL : UpgradeLib} {SV : SemverLib}.
Context `{!JsonCodec (gomap string)} `{!JsonCodec UpgradeConfig} `{!JsonCodec Value} (P : Proc).

(** C33: The replica interval of Longhorn is extended for an upgrade and given back.  Take a
    pass that starts the upgrades of the nodes with caches that are up to date, for an
    upgrade with nothing on record, in which no call fails and nobody interferes.  It
    succeeds; an interval below half an hour is extended to half an hour and the old one
    recorded on the upgrade, a longer one stays and nothing is recorded.  When the upgrade is
    cleaned up later, again without failures and whatever happened in between as long as the
    upgrade kept its record, an interval that was extended is the old one again, and one
    that was not is left as it is found. *)
Theorem replica_interval_roundtrip w o s v info :
  startable w o s -> Atoi (lhs_Value (o_val s)) = Some v ->
  gm_get (up_Annotations (o_val o)) replicaReplenishmentAnnotation = None ->
  exists w1 o1, startMultiNode P o info (quiet w) = (Ok tt, quiet w1) /\
    st_objs (w_upgrades w1) !! upKey (o_val o) = Some o1 /\
    stateOf (o_val o1) = StateUpgradingNodes /\
    storedInterval w1 = Some (if v <? 1800 then "1800" else lhs_Value (o_val s)) /\
    gm_get (up_Annotations (o_val o1)) replicaReplenishmentAnnotation
      = (if v <? 1800 then Some (Itoa v) else None) /\
    forall w2 o2 s2,
      st_objs (w_upgrades w2) !! upKey (o_val o2) = Some o2 -> up_SingleNode (o_val o2) = "" ->
      gm_get (up_Annotations (o_val o2)) replicaReplenishmentAnnotation
        = gm_get (up_Annotations (o_val o1)) replicaReplenishmentAnnotation ->
      gm_has (up_Annotations (o_val o2)) longhornSettingsRestoredAnnotation = false ->
      cachedSetting w2 s2 ->
      exists w3 o3, restoreLonghornSettings o2 (quiet w2) = (Ok o3, quiet w3) /\
        storedInterval w3 = if v <? 1800 then Some (Itoa v) else storedInterval w2.
Proof.
  intros Hst Hv Hno. pose proof (Atoi_range _ _ Hv) as Hr.
  destruct (startMultiNode_quiet P w o s v info Hst Hv) as (w1 & o1 & Hrun & Ho1 & Hs1 & Ha1 & Hi1).
  rewrite Hno in Ha1. change (short v) with (v <? 1800) in Ha1, Hi1.
  exists w1, o1. split_and!; [done..|]. rewrite Ha1. intros w2 o2 s2 Ho2 Hsn Ha Hre Hc.
  destruct (restoreLonghorn_quiet w2 o2 s2 (if v <? 1800 then Some v else None)) as (w3 & o3 & ? & ?);
    [done|done|done|rewrite Ha; by destruct (v <? 1800)|intros v'; by destruct (v <? 1800); intros [= <-]|done|].
  exists w3, o3. split; [done|]. by destruct (v <? 1800).
Qed.

(** A successful upgrade that leaves no image to remove is never cleaned up.  When every
    image of the previous version is also one of the new version, the pass over a completed
    upgrade starts no plan to remove images and records nothing, so that the next pass finds
    the upgrade, and all it set up, as it was. *)
Theorem no_image_to_remove_no_cleanup o w d previous current :
  let u := o_val o in
  deleted (up_meta u) = false -> condIs ConditionTrue u UpgradeCompleted = true ->
  condIs ConditionUnknown u LogReady = false ->
  gm_get (up_Labels u) harvesterLatestUpgradeLabel = Some "true" ->
  gm_has (up_Annotations u) skipManifestsApplyPlanCompletedAnnotation = false \/
    gm_has (up_Annotations u) skipManifestsRemovePlanCompletedAnnotation = true ->
  gm_has (up_Annotations u) imageCleanupPlanCompletedAnnotation = false ->
  List.find (fun v => metaIs GetVMNamespace (getVMName u) (rvm_meta v)) (c_vms (w_cache w)) = None ->
  List.find (fun d => metaIs GetVMNamespace (getVMName u) (dep_meta d)) (c_deployments (w_cache w))
    = Some d ->
  serves u w (ust_PreviousVersion (up_status u)) previous -> serves u w currentVersion current ->
  previous ⊆ current ->
  upgrade_OnChanged P (Some o) (quiet w) = (Ok tt, quiet w).
Proof.
  intros u Hd Ht Hl Hlab Hsk Hic Hvm Hdep Hp Hc Hsub. unfold upgrade_OnChanged. cbv zeta. fold u.
  assert (Hs : condStatus u UpgradeCompleted = ConditionTrue) by (by apply String.eqb_eq).
  assert (Hun : condIs ConditionUnknown u UpgradeCompleted = false)
    by (change (condIs ?s u ?c) with (String.eqb (condStatus u c) s); by rewrite Hs).
  rewrite Hd, Hs, Hl, andb_false_r, Hun, Hlab, Ht.
  change (String.eqb ConditionTrue "") with false. cbn [andb].
  rewrite bool_decide_eq_true_2 by done. cbn [negb]. unfold afterSuccess. cbv zeta. fold u.
  assert (Hw : unskipManifests u (quiet w) = (Ok false, quiet w)).
  { unfold unskipManifests. destruct (gm_has _ _) eqn:E; [|done]. destruct Hsk as [?|Hr]; [congruence|].
    unfold ensureSkipManifestPlanCompleted. by rewrite Hr. }
  erewrite bind_run; [|exact Hw]. cbv iota. rewrite Hic.
  erewrite bind_run; [|unfold vmCache_Get; by apply try_err, cacheGet_none].
  erewrite bind_run; [|unfold deploymentCache_Get; by apply try_run, cacheGet_quiet].
  cbv beta iota. cbn [IsNotFound negb].
  do 3 (erewrite bind_run; [|reflexivity]).
  erewrite bind_run; [|by eapply try_run, cleanupImages_none]. done.
Qed.

(** An upgrade deleted at the wrong moment is not cleaned up.  While the files that keep
    RKE2 manifests from being applied have not been removed from the nodes, the handler of
    the deletion only starts the plan that removes them; but it reports no error, the
    finalizer goes and with it the upgrade, and Rancher's cluster, the Longhorn interval,
    paused charts and the addon stay as the upgrade left them, with nothing to restore them. *)
Theorem removal_before_unskip_skips_cleanup o w :
  gm_has (up_Annotations (o_val o)) skipManifestsApplyPlanCompletedAnnotation = true ->
  gm_has (up_Annotations (o_val o)) skipManifestsRemovePlanCompletedAnnotation = false ->
  st_objs (w_upgrades w) !! upKey (o_val o) = Some o ->
  exists w', upgrade_removed P o (quiet w) = (Ok tt, quiet w') /\
    st_objs (w_upgrades w') !! upKey (o_val o) = None /\
    in_clusters (w_infra w') = in_clusters (w_infra w) /\
    in_lhSettings (w_infra w') = in_lhSettings (w_infra w) /\
    in_managedCharts (w_infra w') = in_managedCharts (w_infra w) /\
    w_addons w' = w_addons w /\
    forall k p, in_plans (w_infra w) !! k = Some p -> in_plans (w_infra w') !! k = Some p.
Proof.
  intros Ha Hr Ho. set (plan := prepareSkipManifestPlan (o_val o) manifestsToSkip false).
  assert (Hskip : exists i, unskipManifests (o_val o) (quiet w) = (Ok true, quiet (w_set_infra i w)) /\
    in_clusters i = in_clusters (w_infra w) /\ in_lhSettings i = in_lhSettings (w_infra w) /\
    in_managedCharts i = in_managedCharts (w_infra w) /\
    forall k p, in_plans (w_infra w) !! k = Some p -> in_plans i !! k = Some p).
  { unfold unskipManifests. rewrite Ha. unfold ensureSkipManifestPlanCompleted. rewrite Hr.
    cbv zeta. fold plan. unfold mapCreate. cbn [the_map set_map Infra_plans].
    destruct (in_plans (w_infra w) !! planKey plan) as [p|] eqn:E.
    - exists (w_infra w). split_and!; [|done..].
      erewrite bind_run; [|apply try_err; rewrite onInfra_quiet, E; reflexivity]. done.
    - eexists. split_and!.
      + erewrite bind_run; [|apply try_run; rewrite onInfra_quiet, E; reflexivity]. reflexivity.
      + done.
      + done.
      + done.
      + intros k p Hp. simpl. rewrite lookup_insert_ne; [done|]. congruence. }
  destruct Hskip as (i & Hrun & Hcl & Hlh & Hmc & Hpl).
  eexists. split_and!.
  - unfold upgrade_removed, upgrade_OnRemove.
    erewrite bind_run; [|erewrite bind_run; [|exact Hrun]; reflexivity].
    unfold removeFinalizer. rewrite call_quiet. cbv zeta. cbn [w_upgrades w_set_infra].
    rewrite Ho, Z.eqb_refl. reflexivity.
  - simpl. apply lookup_delete_eq.
  - exact Hcl.
  - exact Hlh.
  - exact Hmc.
  - done.
  - exact Hpl.
Qed.
End Properties.

(** Of the images that are to be kept on the nodes one per pattern is, the first in the list. *)
Example retained_once_per_pattern :
  applyImageRetainList ["longhornio/longhorn-engine:v1.7.2"; "longhornio/longhorn-engine:v1.8.1"]
  = ["longhornio/longhorn-engine:v1.8.1"].
Proof. vm_compute. reflexivity. Qed.

Section Witnesses.
Import UpDemo CleanDemo.

(** The old replica interval is lost for good when the upgrade is changed by another at
    the wrong moment.  The pass extends the interval before it stores the record of the old
    one; when that update ends in a conflict, the next pass finds the extended interval,
    records nothing, and the clean-up has nothing to give back: a cluster set to 300 seconds
    stays at 1800. *)
Theorem replica_interval_lost :
  let calm := mkTurn (W := World) id None in
  let conflict := mkTurn (W := World) id (Some (ApiConflict "the object has been modified")) in
  let w0 := clusterWorld started [] in
  let w1 := pass (repeat calm 5 ++ [conflict]) w0 in
  let w2 := completed (pass [] w1) in
  let r := cleanup proc (stored w2) true (quiet w2) in
  map storedInterval [w0; w1; w2; sys_world r.2] = [Some "300"; Some "1800"; Some "1800"; Some "1800"] /\
  stateOf (o_val (stored w2)) = StateSucceeded /\
  match r.1 with
  | Ok o => gm_get (up_Annotations (o_val o)) longhornSettingsRestoredAnnotation = Some "true"
  | _ => False
  end.
Proof. vm_compute. done. Qed.

Definition chartValues (methods : option Value) : list (string * Value) :=
  [("replicas", VNum 3);
   ("kubevirt", VMap [("spec", VMap [("workloadUpdateStrategy",
      VMap match methods with Some v => [("workloadUpdateMethods", v)] | None => [] end)])])].

Lemma update_methods_roundtrip_witness :
  restoreKubevirtWorkloadUpdateMethodsInValues
    (Some (Some (PutValue (chartValues (Some (VList [VString "LiveMigrate"]))) (VList []) workloadUpdateKeys)))
    (json_marshal (VList [VString "LiveMigrate"])) true
  = Ok (Some (Some (chartValues (Some (VList [VString "LiveMigrate"])))), true) /\
  exists data' restored,
    restoreKubevirtWorkloadUpdateMethodsInValues
      (Some (Some (PutValue [("replicas", VNum 3)] (VList []) workloadUpdateKeys))) "null" true
    = Ok (Some (Some data'), restored) /\
    GetValue data' workloadUpdateKeys = None /\ vget data' "replicas" = Some (VNum 3).
Proof.
  split.
  - destruct (update_methods_roundtrip (chartValues (Some (VList [VString "LiveMigrate"]))) (VList [])
      (Some (VList [VString "LiveMigrate"])) (json_marshal (VList [VString "LiveMigrate"])))
      as (data' & restored & Hr & _ & _ & Hm); [reflexivity..| |].
    + intros v [= <-]. vm_compute. discriminate.
    + destruct Hm as [-> ->]; [reflexivity|]. exact Hr.
  - destruct (update_methods_roundtrip [("replicas", VNum 3)] (VList []) None "null")
      as (data' & restored & Hr & Hg & Ho & _); [reflexivity..|discriminate|].
    exists data', restored. split_and!; [exact Hr|exact Hg|]. by rewrite (Ho "replicas").
Defined.

Lemma started_startable value :
  startable (intervalWorld value) (mkObj 1 started) (mkObj 1 (setting value)).
Proof.
  split; [reflexivity|discriminate|reflexivity|split; reflexivity| |].
  - exists (mkObj 1 cluster). split; reflexivity.
  - intros a [= <-]. reflexivity.
Qed.

(** Intervals of five minutes and of an hour, with the descheduler on. *)
Lemma replica_interval_roundtrip_witness :
  exists w1 w2, startMultiNode proc (mkObj 1 started) (mkRepoInfo release)
    (quiet (intervalWorld "300")) = (Ok tt, quiet w1) /\ storedInterval w1 = Some "1800" /\
    (exists w3 o3, restoreLonghornSettings (stored (completed w1)) (quiet (completed w1))
       = (Ok o3, quiet w3) /\ storedInterval w3 = Some "300") /\
    startMultiNode proc (mkObj 1 started) (mkRepoInfo release)
      (quiet (intervalWorld "3600")) = (Ok tt, quiet w2) /\ storedInterval w2 = Some "3600".
Proof.
  destruct (replica_interval_roundtrip proc (intervalWorld "300") (mkObj 1 started)
    (mkObj 1 (setting "300")) 300 (mkRepoInfo release)) as (w1 & o1 & Hr1 & Ho1 & _ & Hi1 & _ & Hback);
    [apply started_startable|reflexivity..|].
  destruct (replica_interval_roundtrip proc (intervalWorld "3600") (mkObj 1 started)
    (mkObj 1 (setting "3600")) 3600 (mkRepoInfo release)) as (w2 & o2 & Hr2 & _ & _ & Hi2 & _);
    [apply started_startable|reflexivity..|].
  exists w1, w2. split_and!; [exact Hr1|exact Hi1| |exact Hr2|exact Hi2].
  vm_compute in Hr1. injection Hr1 as Hw1. subst w1. vm_compute in Ho1. injection Ho1 as Ho1. subst o1.
  apply (Hback _ _ (mkObj 2 (setting "1800"))); try reflexivity. split; reflexivity.
Defined.

Definition succeeded : Upgrade :=
  servicesDone [mkCond UpgradeCompleted ConditionTrue "" "" ""]
    {[ skipManifestsApplyPlanCompletedAnnotation := "true";
       skipManifestsRemovePlanCompletedAnnotation := "true" ]}.
Definition sameImages : World :=
  clusterWorld succeeded [("v1.8.0", "rancher/shell:v1"); ("current", "rancher/shell:v1")].

Lemma no_image_to_remove_no_cleanup_witness :
  upgrade_OnChanged proc (Some (mkObj 1 succeeded)) (quiet sameImages) = (Ok tt, quiet sameImages).
Proof.
  apply (no_image_to_remove_no_cleanup proc (mkObj 1 succeeded) sameImages deployment
           ["rancher/shell:v1"] ["rancher/shell:v1"]); try reflexivity.
  - right. reflexivity.
  - eexists _, _. split; reflexivity.
  - eexists _, _. split; reflexivity.
Defined.

Lemma removal_before_unskip_skips_cleanup_witness :
  exists w', upgrade_removed proc (mkObj 1 started) (quiet (clusterWorld started [])) = (Ok tt, quiet w') /\
    in_lhSettings (w_infra w') = in_lhSettings (w_infra (clusterWorld started [])).
Proof.
  destruct (removal_before_unskip_skips_cleanup proc (mkObj 1 started) (clusterWorld started []))
    as (w' & Hr & _ & _ & Hl & _); [reflexivity..|].
  exists w'. split; [exact Hr|exact Hl].
Defined.
End Witnesses.
