(* ===== verification/UpgradeProgress.v ===== *)
(** A node makes its way through an upgrade: each pass of the handlers takes it one state on
    once Rancher, the job or the node has done its part, up to the acknowledgement Rancher
    waits for. *)

From S2P Require Import Prelude K8s NodeUtil Addon ApiServer Upgrade UpgradeJobs UpgradeWorld.
From S2P Require Import UpgradeNodes UpgradeVersion UpgradeRepo UpgradeController UpgradeSteps.
From S2P Require Import UpgradeRegime UpgradeFlow UpgradeSafety UpgradeCleanup.

Local Open Scope Z_scope.

Section Progress.
Context {UL : UpgradeLib} {SV : SemverLib}.
Context `{!JsonCodec (gomap string)} `{!JsonCodec UpgradeConfig} `{!JsonCodec Value} (P : Proc).
Context (n machine : string).

(** The node [n] and its machine as the handlers find them: the upgrade, the node and its
    secret are cached as they are stored, no job of the upgrade is pending, and machines are
    not to be restored. *)
Record onStage (w : World) (o : Obj Upgrade) (node : Obj Node) (os : Obj Secret) : Prop := {
  og_stored : st_objs (w_upgrades w) !! upKey (o_val o) = Some o;
  og_latest : List.filter (fun o => String.eqb (up_Namespace (o_val o)) (pr_namespace P)
    && hasLabel harvesterLatestUpgradeLabel "true" (up_meta (o_val o))) (c_upgrades (w_cache w)) = [o];
  og_cached : List.find (fun x => metaIs (pr_namespace P) (up_Name (o_val o)) (up_meta (o_val x)))
    (c_upgrades (w_cache w)) = Some o;
  og_state : stateOf (o_val o) = StateUpgradingNodes;
  og_multi : up_SingleNode (o_val o) = "";
  og_info : exists info, getCachedRepoInfo (o_val o) = Ok info;
  og_node : List.find (fun x => String.eqb (node_Name (o_val x)) n) (c_nodes (w_cache w)) = Some node;
  og_nodeStored : st_objs (w_nodes w) !! n = Some node;
  og_nodeAlive : deleted (node_meta (o_val node)) = false;
  og_machine : gm_get (node_Annotations (o_val node)) MachineAnnotation = Some machine;
  og_nodeRef : exists m,
    List.find (fun m => metaIs rancherMachineNamespace machine (mach_meta m)) (c_machines (w_cache w))
      = Some m /\ mach_NodeRef m = Some n;
  og_secret : List.filter (fun o => machineSecret machine (o_val o))
    (map_to_list (st_objs (w_secrets w))).*2 = [os];
  og_secretStored : st_objs (w_secrets w) !! secKey (o_val os) = Some os;
  og_secretMeta : deleted (sec_meta (o_val os)) = false /\
    om_Namespace (sec_meta (o_val os)) = rancherPlanSecretNamespace;
  og_jobs : pendingJob (List.filter (fun j =>
    String.eqb (om_Namespace (job_meta j)) (pr_namespace P)
    && hasLabel harvesterUpgradeLabel (up_Name (o_val o)) (job_meta j)) (c_jobs (w_cache w))) = Ok tt }.

(** The stored upgrade has the node in the state. *)
Definition nodeIn (w : World) (o : Obj Upgrade) (state : string) : Prop :=
  exists o', st_objs (w_upgrades w) !! upKey (o_val o) = Some o' /\ nodeState (o_val o') n = state.

(** The secret as stored. *)
Definition secretIn (w : World) (os : Obj Secret) (Q : Secret -> Prop) : Prop :=
  exists os', st_objs (w_secrets w) !! secKey (o_val os) = Some os' /\ Q (o_val os').

Lemma upKey_set now st re msg u : upKey (setNodeUpgradeStatus now n st re msg u) = upKey u.
Proof.
  pose proof (setNodeUpgradeStatus_frame now n st re msg u) as Hid. unfold identity in Hid.
  unfold upKey. congruence.
Qed.

Lemma upgradeSet_quiet w o st re msg :
  st_objs (w_upgrades w) !! upKey (o_val o) = Some o ->
  exists w', upgradeClient_Update (mkObj (o_rv o) (setNodeUpgradeStatus (pr_now P) n st re msg (o_val o)))
      (quiet w) = (Ok (mkObj (st_rv (w_upgrades w) + 1)
                         (setNodeUpgradeStatus (pr_now P) n st re msg (o_val o))), quiet w') /\
    nodeIn w' o st /\ w_secrets w' = w_secrets w /\ w_nodes w' = w_nodes w /\
    w_cache w' = w_cache w /\ w_jobs w' = w_jobs w.
Proof.
  intros Ho. eexists. split_and!.
  - apply (upgradeUpdate_quiet w o); [done|apply upKey_set].
  - eexists. split; [simpl; apply lookup_insert_eq|]. cbn [o_val].
    by rewrite nodeState_set, decide_True.
  - done.
  - done.
  - done.
  - done.
Qed.

Lemma ensureSingle_quiet w o node os :
  onStage w o node os -> ensureSingleUpgrade P (quiet w) = (Ok o, quiet w).
Proof.
  intros Hs. unfold ensureSingleUpgrade, upgradeCache_List, cached.
  erewrite bind_run; [|rewrite read_quiet, (og_latest _ _ _ _ Hs); reflexivity]. done.
Qed.

Lemma planSecret_quiet w os :
  List.filter (fun o => machineSecret machine (o_val o)) (map_to_list (st_objs (w_secrets w))).*2 = [os] ->
  machinePlanSecret machine (quiet w) = (Ok os, quiet w).
Proof.
  intros Hs. unfold machinePlanSecret, secretClient_List.
  erewrite bind_run; [|rewrite read_quiet, Hs; reflexivity]. done.
Qed.

(** A job is created, or is there. *)
Lemma jobCreate_quiet w j :
  exists r jobs, try (jobClient_Create j) (quiet w) = (Ok r, quiet (w_set_jobs jobs w)) /\
    is_Some (jobs !! jobKey j) /\
    match r with inl _ => True | inr e => IsAlreadyExists e = true end.
Proof.
  unfold jobClient_Create, try. rewrite call_quiet. destruct (w_jobs w !! jobKey j) eqn:E; simpl.
  - exists (inr (ApiAlreadyExists "already exists")), (w_jobs w). split_and!; [by destruct w|by eexists|done].
  - eexists (inl j), _. split_and!; [done| |done]. rewrite lookup_insert_eq. by eexists.
Qed.

Lemma checkPendingHookJobs_quiet w name :
  checkPendingHookJobs P name (quiet w) =
  (pendingJob (List.filter (fun j => String.eqb (om_Namespace (job_meta j)) (pr_namespace P)
     && hasLabel harvesterUpgradeLabel name (job_meta j)) (c_jobs (w_cache w))), quiet w).
Proof. reflexivity. Qed.

(** A hook job is created, unless it is there, and the node moves on. *)
Lemma createHookJob_quiet w o node os jobType next info :
  onStage w o node os -> getCachedRepoInfo (o_val o) = Ok info ->
  exists w', createHookJob P o n jobType next (quiet w) = (Ok tt, quiet w') /\ nodeIn w' o next /\
    is_Some (w_jobs w' !! jobKey (applyNodeJob (o_val o) info n jobType)) /\
    w_secrets w' = w_secrets w.
Proof.
  intros Hs Hi. set (job := applyNodeJob (o_val o) info n jobType).
  destruct (jobCreate_quiet w job) as (r & jobs & Hr & Hj & Hok).
  destruct (upgradeSet_quiet (w_set_jobs jobs w) o next "" "" (og_stored _ _ _ _ Hs))
    as (w' & Hu & Hin & Hsec & _ & _ & Hjobs).
  exists w'. split_and!; [|done|by rewrite Hjobs|done].
  unfold createHookJob. cbv zeta.
  erewrite bind_run; [|rewrite checkPendingHookJobs_quiet, (og_jobs _ _ _ _ Hs); reflexivity].
  erewrite bind_run; [|rewrite Hi; reflexivity]. fold job. erewrite bind_run; [|exact Hr].
  erewrite bind_run with (a := tt); [|destruct r as [|e]; [|rewrite Hok]; reflexivity].
  erewrite bind_run; [|exact Hu]. done.
Qed.

Lemma machineGet_quiet w o node os m :
  onStage w o node os ->
  List.find (fun m => metaIs rancherMachineNamespace machine (mach_meta m)) (c_machines (w_cache w))
    = Some m ->
  try (machineCache_Get rancherMachineNamespace machine) (quiet w) = (Ok (inl m), quiet w).
Proof. intros Hs Hm. by apply try_run, cacheGet_quiet. Qed.

(** The secret of the machine. *)
Lemma stage_secret w o node os :
  onStage w o node os ->
  gm_get (om_Labels (sec_meta (o_val os))) rancherPlanSecretMachineLabel = Some machine /\
  sec_Type (o_val os) = rancherPlanSecretType.
Proof.
  intros Hs. assert (Hin : os ∈ [os]) by set_solver. rewrite <- (og_secret _ _ _ _ Hs) in Hin.
  apply filter_elem in Hin as [_ Hm]. unfold machineSecret in Hm. by boolify.
Qed.

(** What the secret handler comes to for an announcement on the secret of the machine. *)
Lemma secret_pass w o node os :
  onStage w o node os ->
  let a := om_Annotations (sec_meta (o_val os)) in
  let state := nodeState (o_val o) n in
  a <> None ->
  gm_str a rke2PreDrainAnnotation <> "" \/ gm_str a rke2PostDrainAnnotation <> "" ->
  gm_str a rke2PreDrainAnnotation <> gm_str a preDrainAnnotation \/
    gm_str a rke2PostDrainAnnotation <> gm_str a postDrainAnnotation ->
  (state = nodeStateImagesPreloaded -> isUnderPreDrain (o_val os) = true ->
     shouldPauseNodeUpgrade (o_val o) n = false -> othersIdle (o_val o) n ->
     secret_OnChanged P (Some os) (quiet w) =
     createHookJob P o n upgradeJobTypePreDrain nodeStatePreDraining (quiet w)) /\
  (state = nodeStatePreDrained ->
     gm_str a rke2PostDrainAnnotation <> gm_str a postDrainAnnotation -> othersIdle (o_val o) n ->
     secret_OnChanged P (Some os) (quiet w) =
     createHookJob P o n upgradeJobTypePostDrain nodeStatePostDraining (quiet w)).
Proof.
  intros Hs a state Ha H1 H2. destruct (stage_secret _ _ _ _ Hs) as [Hl Hty].
  destruct (og_secretMeta _ _ _ _ Hs) as [Hd Hns]. destruct (og_nodeRef _ _ _ _ Hs) as (m & Hm & Href).
  assert (Hrun : secret_OnChanged P (Some os) (quiet w) =
    (if String.eqb state nodeStateImagesPreloaded then
       if negb (isUnderPreDrain (o_val os)) then mret tt
       else if shouldPauseNodeUpgrade (o_val o) n then
         upgradeClient_Update (mkObj (o_rv o) (setNodeUpgradeStatus (pr_now P) n nodeStateUpgradePaused
           pausedReason pausedMessage (o_val o)));; mret tt
       else lift (checkEligibleToDrain (o_val o) n);;
            createHookJob P o n upgradeJobTypePreDrain nodeStatePreDraining
     else if String.eqb state nodeStateUpgradePaused then
       if negb (isUnderPreDrain (o_val os)) then mret tt
       else if shouldPauseNodeUpgrade (o_val o) n then mret tt
       else upgradeClient_Update (mkObj (o_rv o) (setNodeUpgradeStatus (pr_now P) n
              nodeStateImagesPreloaded "" "" (o_val o)));;
            enqueueAfter "secret" (NamespacedName (om_Namespace (sec_meta (o_val os)))
                                     (om_Name (sec_meta (o_val os)))) 5
     else if String.eqb state nodeStatePreDrained then
       if negb (String.eqb (gm_str a rke2PostDrainAnnotation) (gm_str a postDrainAnnotation)) then
         lift (checkEligibleToDrain (o_val o) n);;
         createHookJob P o n upgradeJobTypePostDrain nodeStatePostDraining
       else mret tt
     else mret tt) (quiet w)).
  { unfold secret_OnChanged. cbv zeta. fold a. rewrite Hd, Hns, Hty, !String.eqb_refl.
    rewrite bool_decide_eq_false_2 by done. cbn [negb orb].
    replace (String.eqb (gm_str a rke2PreDrainAnnotation) ""
             && String.eqb (gm_str a rke2PostDrainAnnotation) "") with false
      by (symmetry; apply andb_false_iff; destruct H1; [left|right]; by apply String.eqb_neq).
    replace (String.eqb (gm_str a rke2PreDrainAnnotation) (gm_str a preDrainAnnotation)
             && String.eqb (gm_str a rke2PostDrainAnnotation) (gm_str a postDrainAnnotation)) with false
      by (symmetry; apply andb_false_iff; destruct H2; [left|right]; by apply String.eqb_neq).
    erewrite bind_run; [|by eapply ensureSingle_quiet]. rewrite (og_state _ _ _ _ Hs), String.eqb_refl.
    cbn [negb]. rewrite Hl. erewrite bind_run; [|by eapply machineGet_quiet]. cbv iota.
    by rewrite Href. }
  split; intros Hst; rewrite Hrun, Hst.
  - intros Hu Hp Hi. rewrite String.eqb_refl, Hu, Hp. cbn [negb].
    erewrite bind_run; [|rewrite (proj2 (checkEligibleToDrain_Ok _ _) Hi); reflexivity]. done.
  - intros Hpd Hi. rewrite String.eqb_refl, (proj2 (String.eqb_neq _ _) Hpd).
    change (String.eqb nodeStatePreDrained nodeStateImagesPreloaded) with false.
    change (String.eqb nodeStatePreDrained nodeStateUpgradePaused) with false. cbn [negb].
    erewrite bind_run; [|rewrite (proj2 (checkEligibleToDrain_Ok _ _) Hi); reflexivity]. done.
Qed.

(** ** Jobs *)

(** The job of the node is done. *)
Record jobDone (o : Obj Upgrade) (jobType : string) (j : Job) : Prop := {
  jd_made : exists info, job_meta j = job_meta (applyNodeJob (o_val o) info n jobType);
  jd_ns : up_Namespace (o_val o) = upgradeNamespace;
  jd_complete : exists c, jst_Conditions (job_status j) = [c] /\ isCond JobComplete c = true }.

Lemma jobDone_labels o jobType j :
  jobDone o jobType j ->
  job_Labels j = Some {[ harvesterUpgradeLabel := up_Name (o_val o);
                         harvesterUpgradeComponentLabel := nodeComponent;
                         harvesterNodeLabel := n; upgradeJobTypeLabel := jobType ]} /\
  deleted (job_meta j) = false /\ om_Namespace (job_meta j) = upgradeNamespace.
Proof.
  intros [(info & Hm) Hns _]. unfold job_Labels. rewrite Hm. split_and!; [done|done|exact Hns].
Qed.

Lemma jobDone_gets o jobType j :
  jobDone o jobType j ->
  gm_get (job_Labels j) upgradeJobTypeLabel = Some jobType /\
  gm_get (job_Labels j) harvesterNodeLabel = Some n /\
  gm_get (job_Labels j) harvesterUpgradeLabel = Some (up_Name (o_val o)).
Proof. intros Hj. destruct (jobDone_labels _ _ _ Hj) as (-> & _). split_and!; reflexivity. Qed.

Lemma job_dispatch o jobType j :
  jobDone o jobType j -> job_OnChanged P (Some j) = syncNodeJob P j.
Proof.
  intros Hj. destruct (jobDone_labels _ _ _ Hj) as (Hl & Hd & Hns).
  unfold job_OnChanged. cbv zeta. rewrite Hd, Hns, Hl, String.eqb_refl.
  rewrite bool_decide_eq_false_2 by done. cbn [negb orb andb].
  change (gm_str (Some {[ harvesterUpgradeLabel := up_Name (o_val o);
    harvesterUpgradeComponentLabel := nodeComponent; harvesterNodeLabel := n;
    upgradeJobTypeLabel := jobType ]}) harvesterUpgradeComponentLabel) with nodeComponent.
  change (gm_str (Some {[ harvesterUpgradeLabel := up_Name (o_val o);
    harvesterUpgradeComponentLabel := nodeComponent; harvesterNodeLabel := n;
    upgradeJobTypeLabel := jobType ]}) upgradePlanLabel) with "".
  done.
Qed.

Lemma acknowledge_quiet w os ack announced :
  st_objs (w_secrets w) !! secKey (o_val os) = Some os ->
  exists w', acknowledge ack announced os (quiet w) = (Ok tt, quiet w') /\
    secretIn w' os (fun s => s = acknowledged ack announced (o_val os)) /\
    w_upgrades w' = w_upgrades w /\ w_nodes w' = w_nodes w /\ w_cache w' = w_cache w.
Proof.
  intros Ho. eexists. split_and!.
  - unfold acknowledge, secretClient_Update, apiUpdate.
    erewrite bind_run; [|rewrite call_quiet; cbn [o_val the_store World_secrets]; unfold store_write;
      change (om_Name (sec_meta (acknowledged ack announced (o_val os)))) with (secKey (o_val os));
      rewrite Ho; cbn [o_rv]; rewrite Z.eqb_refl; reflexivity]. reflexivity.
  - eexists. split; [simpl; apply lookup_insert_eq|]. done.
  - done.
  - done.
  - done.
Qed.

(** A job that is done takes the node on, and its drain is acknowledged. *)
Lemma job_pass w o node os jobType j w1 st pre post info :
  onStage w o node os -> jobDone o jobType j -> getCachedRepoInfo (o_val o) = Ok info ->
  nodeJobConditions P (o_val o) node info jobType (jst_Conditions (job_status j))
    (mkResult (o_val o) false false) (quiet w) =
    (Ok (mkResult (setNodeUpgradeStatus (pr_now P) n st "" "" (o_val o)) pre post), quiet w1) ->
  w_upgrades w1 = w_upgrades w -> w_secrets w1 = w_secrets w -> pre && post = false ->
  st <> nodeState (o_val o) n ->
  exists w', job_OnChanged P (Some j) (quiet w) = (Ok tt, quiet w') /\ nodeIn w' o st /\
    w_nodes w' = w_nodes w1 /\
    (pre = true -> secretIn w' os (fun s =>
       s = acknowledged preDrainAnnotation rke2PreDrainAnnotation (o_val os))) /\
    (post = true -> secretIn w' os (fun s =>
       s = acknowledged postDrainAnnotation rke2PostDrainAnnotation (o_val os))).
Proof.
  intros Hs Hj Hi Hc Hu1 Hs1 Hpp Hne. destruct (jobDone_gets _ _ _ Hj) as (Hl1 & Hl2 & Hl3).
  destruct (upgradeSet_quiet w1 o st "" "") as (w2 & Hu & Hin & Hsec2 & Hn2 & _).
  { rewrite Hu1. apply (og_stored _ _ _ _ Hs). }
  assert (Hd : o_val o <> setNodeUpgradeStatus (pr_now P) n st "" "" (o_val o)).
  { intros He. apply Hne. rewrite He at 1. by rewrite nodeState_set, decide_True. }
  assert (Hrest : exists w', ((if pre then acknowledge preDrainAnnotation rke2PreDrainAnnotation os
      else mret tt);; (if post then acknowledge postDrainAnnotation rke2PostDrainAnnotation os
      else mret tt)) (quiet w2) = (Ok tt, quiet w') /\ w_upgrades w' = w_upgrades w2 /\
      w_nodes w' = w_nodes w2 /\
    (pre = true -> secretIn w' os (fun s =>
       s = acknowledged preDrainAnnotation rke2PreDrainAnnotation (o_val os))) /\
    (post = true -> secretIn w' os (fun s =>
       s = acknowledged postDrainAnnotation rke2PostDrainAnnotation (o_val os)))).
  { assert (Hos : st_objs (w_secrets w2) !! secKey (o_val os) = Some os)
      by (rewrite Hsec2, Hs1; apply (og_secretStored _ _ _ _ Hs)).
    destruct pre, post; try done.
    - destruct (acknowledge_quiet w2 os preDrainAnnotation rke2PreDrainAnnotation Hos)
        as (w3 & Hr & Hsi & ? & ? & _).
      exists w3. split_and!; [by erewrite bind_run; [|exact Hr]|done..].
    - destruct (acknowledge_quiet w2 os postDrainAnnotation rke2PostDrainAnnotation Hos)
        as (w3 & Hr & Hsi & ? & ? & _).
      exists w3. split_and!; [by erewrite bind_run; [|reflexivity]|done..].
    - exists w2. split_and!; done. }
  destruct Hrest as (w3 & Hr & Hu3 & Hn3 & Hpre & Hpost). exists w3.
  split_and!; [|by unfold nodeIn; rewrite Hu3|by rewrite Hn3|done|done].
  rewrite (job_dispatch o jobType j Hj). unfold syncNodeJob. rewrite Hl1, Hl2.
  erewrite bind_run; [|apply try_run, cacheGet_quiet, (og_node _ _ _ _ Hs)]. cbv iota.
  rewrite (og_machine _ _ _ _ Hs), Hl3. cbv iota.
  erewrite bind_run; [|apply cacheGet_quiet, (og_cached _ _ _ _ Hs)].
  erewrite bind_run; [|rewrite Hi; reflexivity]. erewrite bind_run; [|exact Hc].
  cbn [jr_upgrade jr_preDrained jr_postDrained].
  erewrite bind_run; [|unfold updateIfChanged; rewrite bool_decide_eq_false_2 by done;
    erewrite bind_run; [|exact Hu]; reflexivity].
  erewrite bind_run; [|apply planSecret_quiet; rewrite Hsec2, Hs1; apply (og_secret _ _ _ _ Hs)].
  exact Hr.
Qed.

(** What the conditions of a job that is done come to. *)
Lemma IsRestoreVM_quiet w :
  exists r, try IsRestoreVM (quiet w) = (Ok r, quiet w).
Proof.
  unfold IsRestoreVM, settingCache_Get.
  destruct (List.find (fun s => String.eqb (set_Name s) UpgradeConfigSettingName)
              (c_settings (w_cache w))) as [s|] eqn:Hf; cycle 1.
  { eexists. apply try_err. unfold mbind, M_bind. rewrite cacheGet_none by done. reflexivity. }
  unfold DecodeUpgradeConfig, try, mbind, M_bind. rewrite (cacheGet_quiet _ _ _ s) by done. cbv zeta.
  unfold lift. destruct (negb _); [destruct (json_unmarshal _)|]; by eexists.
Qed.

(** Whatever the setting says, the restore job is created when it is due and not there, and
    nothing else happens. *)
Lemma sendRestore_quiet w u node info :
  exists jobs, sendRestoreVMJob u node info (quiet w) = (Ok tt, quiet (w_set_jobs jobs w)).
Proof.
  assert (Hno : (Ok tt, quiet w) = (Ok tt, quiet (w_set_jobs (w_jobs w) w))) by by destruct w.
  destruct (IsRestoreVM_quiet w) as [r Hr]. unfold sendRestoreVMJob.
  erewrite bind_run by exact Hr. destruct r as [[|]|e]; [|by exists (w_jobs w)..].
  destruct (gm_has _ _); [by exists (w_jobs w)|]. cbv zeta.
  unfold configMapCache_Get.
  destruct (List.find (fun c => metaIs (up_Namespace u) (GetRestoreVMConfigMapName (up_Name u)) (cm_meta c))
              (c_configMaps (w_cache w))) as [cm|] eqn:Hcm; cycle 1.
  { exists (w_jobs w). erewrite bind_run; [|apply try_err, cacheGet_none; exact Hcm]. done. }
  erewrite bind_run; [|apply try_run, cacheGet_quiet; exact Hcm]. cbv beta iota.
  destruct (isBlank _); [by exists (w_jobs w)|].
  set (j := applyRestoreVMJob u info (node_Name node)). unfold jobCache_Get.
  destruct (List.find (fun x => metaIs (om_Namespace (job_meta j)) (job_Name j) (job_meta x))
              (c_jobs (w_cache w))) as [x|] eqn:Hj.
  { exists (w_jobs w). erewrite bind_run; [|apply try_run, cacheGet_quiet; exact Hj]. done. }
  erewrite bind_run; [|apply try_err, cacheGet_none; exact Hj]. cbn [IsNotFound negb].
  destruct (jobCreate_quiet w j) as (r & jobs & Hc & _ & Ha). exists jobs.
  erewrite bind_run by exact Hc. destruct r; [done|by rewrite Ha].
Qed.

Lemma complete_notFailed c : isCond JobComplete c = true -> isCond JobFailed c = false.
Proof.
  unfold isCond. intros H. apply andb_true_iff in H as [->%String.eqb_eq _]. done.
Qed.

Lemma nodeUpdate_quiet w o v :
  st_objs (w_nodes w) !! n = Some o -> node_Name v = n ->
  exists w' o', nodeClient_Update (mkObj (o_rv o) v) (quiet w) = (Ok o', quiet w') /\
    w_upgrades w' = w_upgrades w /\ w_secrets w' = w_secrets w /\
    st_objs (w_nodes w') !! n = Some o' /\ o_val o' = node_keep_status (o_val o) v.
Proof.
  intros Ho Hn. eexists _, _. split_and!.
  - unfold nodeClient_Update, apiUpdate. rewrite call_quiet. cbn [o_val the_store World_nodes].
    rewrite Hn. unfold store_write. rewrite Ho. cbn [o_rv]. rewrite Z.eqb_refl. reflexivity.
  - done.
  - done.
  - simpl. apply lookup_insert_eq.
  - done.
Qed.

Lemma preDrainDone w o node info c :
  node_Name (o_val node) = n -> isCond JobComplete c = true -> nodeState (o_val o) n = nodeStatePreDraining ->
  nodeJobConditions P (o_val o) node info upgradeJobTypePreDrain [c] (mkResult (o_val o) false false)
    (quiet w) =
  (Ok (mkResult (setNodeUpgradeStatus (pr_now P) n nodeStatePreDrained "" "" (o_val o)) true false), quiet w).
Proof.
  intros Hn Hc Hst. cbn [nodeJobConditions]. cbv zeta.
  rewrite (complete_notFailed c Hc), Hc, Hn, Hst, !String.eqb_refl. reflexivity.
Qed.

Lemma postDrainDone w o node info c :
  node_Name (o_val node) = n -> isCond JobComplete c = true ->
  nodeState (o_val o) n = nodeStatePostDraining -> st_objs (w_nodes w) !! n = Some node ->
  exists w1, w_upgrades w1 = w_upgrades w /\ w_secrets w1 = w_secrets w /\
  if osInstalled (o_val node) info then
    nodeJobConditions P (o_val o) node info upgradeJobTypePostDrain [c] (mkResult (o_val o) false false)
      (quiet w) =
    (Ok (mkResult (setNodeUpgradeStatus (pr_now P) n StateSucceeded "" "" (o_val o)) false true), quiet w1)
  else
    nodeJobConditions P (o_val o) node info upgradeJobTypePostDrain [c] (mkResult (o_val o) false false)
      (quiet w) =
    (Ok (mkResult (setNodeUpgradeStatus (pr_now P) n nodeStateWaitingReboot "" "" (o_val o)) false false),
     quiet w1) /\
    exists node', st_objs (w_nodes w1) !! n = Some node' /\
      gm_get (node_Annotations (o_val node')) harvesterNodePendingOSImage = Some (rel_OS (ri_Release info)).
Proof.
  intros Hn Hc Hst Hns. cbn [nodeJobConditions]. cbv zeta.
  rewrite (complete_notFailed c Hc), Hc, Hn, Hst.
  change (String.eqb upgradeJobTypePostDrain upgradeJobTypePreDrain) with false.
  rewrite !String.eqb_refl. cbn [andb]. destruct (osInstalled (o_val node) info).
  - destruct (sendRestore_quiet w (o_val o) (o_val node) info) as [jobs Hr].
    exists (w_set_jobs jobs w). split_and!; [done..|].
    erewrite bind_run; [|erewrite bind_run; [|exact Hr]; reflexivity]. done.
  - destruct (nodeUpdate_quiet w node (node_set_Annotations (gm_set (node_Annotations (o_val node))
      harvesterNodePendingOSImage (rel_OS (ri_Release info))) (o_val node)) Hns Hn)
      as (w1 & o' & Hr & Hu & Hs & Ho' & Hv).
    exists w1. split_and!; [done..| |].
    + erewrite bind_run; [|erewrite bind_run; [|unfold setNodeWaitRebootLabel;
        erewrite bind_run; [|exact Hr]; reflexivity]; reflexivity]. done.
    + exists o'. split; [done|]. rewrite Hv. apply gm_get_set_eq.
Qed.

(** ** The reboot *)

Lemma node_pass w o node os info :
  onStage w o node os -> node_Name (o_val node) = n -> getCachedRepoInfo (o_val o) = Ok info ->
  nodeState (o_val o) n = nodeStateWaitingReboot ->
  gm_get (node_Annotations (o_val node)) harvesterNodePendingOSImage = Some (node_OSImage (o_val node)) ->
  exists w', node_OnChanged P (Some (o_val node)) (quiet w) = (Ok tt, quiet w') /\
    nodeIn w' o StateSucceeded /\
    secretIn w' os (fun s => s = acknowledged postDrainAnnotation rke2PostDrainAnnotation (o_val os)) /\
    exists node', st_objs (w_nodes w') !! n = Some node' /\
      gm_get (node_Annotations (o_val node')) harvesterNodePendingOSImage = None.
Proof.
  intros Hs Hn Hi Hst Hp. destruct (sendRestore_quiet w (o_val o) (o_val node) info) as [jobs Hre].
  destruct (upgradeSet_quiet (w_set_jobs jobs w) o StateSucceeded "" "" (og_stored _ _ _ _ Hs))
    as (w1 & Hu & Hin & Hsec & Hno & Hca & _).
  destruct (acknowledge_quiet w1 os postDrainAnnotation rke2PostDrainAnnotation)
    as (w2 & Ha & Hsi & Hu2 & Hn2 & Hc2); [rewrite Hsec; apply (og_secretStored _ _ _ _ Hs)|].
  destruct (nodeUpdate_quiet w2 node (forgetPendingOSImage (o_val node)))
    as (w3 & node' & Hr & Hu3 & Hs3 & Hn3 & Hv3); [by rewrite Hn2, Hno; apply (og_nodeStored _ _ _ _ Hs)|done|].
  exists w3. split_and!.
  - unfold node_OnChanged. rewrite (og_nodeAlive _ _ _ _ Hs), Hp.
    erewrite bind_run; [|by eapply ensureSingle_quiet]. cbv zeta.
    rewrite (og_state _ _ _ _ Hs), Hn, Hst, !String.eqb_refl, (og_machine _ _ _ _ Hs). cbn [negb].
    erewrite bind_run; [|apply planSecret_quiet, (og_secret _ _ _ _ Hs)].
    rewrite Hi.
    erewrite bind_run; [|exact Hre].
    erewrite bind_run; [|exact Hu]. rewrite (og_multi _ _ _ _ Hs), String.eqb_refl.
    erewrite bind_run; [|exact Ha]. unfold retryUpdateNodeOnConflict. cbn [retryUpdateNode].
    erewrite bind_run; [|apply cacheGet_quiet; rewrite Hc2, Hca; apply (og_node _ _ _ _ Hs)].
    rewrite (og_nodeAlive _ _ _ _ Hs). cbv zeta. rewrite bool_decide_eq_false_2.
    + erewrite bind_run; [|apply try_run; exact Hr]. done.
    + intros He. apply (f_equal (fun x => gm_get (node_Annotations x) harvesterNodePendingOSImage)) in He.
      rewrite Hp in He. unfold forgetPendingOSImage in He.
      change (node_Annotations (node_set_Annotations ?a ?x)) with a in He.
      by rewrite gm_get_delete in He.
  - unfold nodeIn. by rewrite Hu3, Hu2.
  - unfold secretIn. by rewrite Hs3.
  - exists node'. split; [done|]. rewrite Hv3. unfold forgetPendingOSImage.
    change (gm_get (gm_delete (node_Annotations (o_val node)) harvesterNodePendingOSImage)
              harvesterNodePendingOSImage = None). by rewrite gm_get_delete.
Qed.

Lemma acknowledged_pre s :
  isUnderPreDrain (acknowledged preDrainAnnotation rke2PreDrainAnnotation s) = false.
Proof.
  unfold isUnderPreDrain, acknowledged, gm_str. cbn [sec_meta set_Annotations om_Annotations].
  rewrite gm_get_set_eq, gm_get_set_ne by done. unfold gm_str.
  apply negb_false_iff, String.eqb_eq. by destruct (gm_get _ rke2PreDrainAnnotation).
Qed.

Definition postAcknowledged (s : Secret) : Prop :=
  gm_str (om_Annotations (sec_meta s)) postDrainAnnotation
  = gm_str (om_Annotations (sec_meta s)) rke2PostDrainAnnotation.

Lemma acknowledged_post s :
  postAcknowledged (acknowledged postDrainAnnotation rke2PostDrainAnnotation s).
Proof.
  unfold postAcknowledged, acknowledged, gm_str. cbn [sec_meta set_Annotations om_Annotations].
  rewrite gm_get_set_eq, gm_get_set_ne by done. by destruct (gm_get _ rke2PostDrainAnnotation).
Qed.

Lemma secretIn_impl w os (Q Q' : Secret -> Prop) :
  (forall s, Q s -> Q' s) -> secretIn w os Q -> secretIn w os Q'.
Proof. intros H (os' & ? & ?). exists os'. auto. Qed.

End Progress.

Section Witnesses.
Import UpDemo.

Lemma ready_onStage :
  onStage proc "a" "a-machine" ready
    (mkObj 1 (upgradeOf [("a", nodeStateImagesPreloaded); ("b", nodeStateImagesPreloaded)]))
    (mkObj 1 (nodeOf "a")) (mkObj 1 (announced "a")).
Proof.
  split; try (vm_compute; reflexivity).
  - exists (mkRepoInfo release). reflexivity.
  - exists (mkMachine (meta0 rancherMachineNamespace "a-machine") (Some "a")). split; reflexivity.
  - split; reflexivity.
Qed.

End Witnesses.
