(* ===== verification/BackupTypes.v ===== *)
(** Backups of virtual machines and their schedules as resources
    (pkg/apis/harvesterhci.io/v1beta1/backup.go, schedulebackup.go), with the fields the
    modelled code reads or writes, and the reader of pkg/backup/common/operator.go. *)

From S2P Require Import Prelude K8s.

Local Open Scope Z_scope.

(** ** Resources *)

Record BackupError := mkBackupError { be_Time : option Z; be_Message : option string }.

Record VolumeBackup := mkVolumeBackup {
  vlb_Name : option string;
  vlb_ReadyToUse : option bool;
  vlb_Error : option BackupError;
  vlb_LonghornBackupName : option string }.

Record VMBackupSpec := mkVMBackupSpec {
  vbs_SourceAPIGroup : option string;
  vbs_SourceKind : string;
  vbs_SourceName : string;
  vbs_Type : string;
  vbs_FsFreezeDeadline : option Z }.

(** Of [SourceSpec] and [BackupTarget] only whether they are nil is looked at; nil and empty
    [VolumeBackups] are told apart. *)
Record VMBackup := mkVMBackup {
  vmb_meta : ObjectMeta;
  vmb_Spec : VMBackupSpec;
  vmb_hasSourceSpec : bool;
  vmb_hasBackupTarget : bool;
  vmb_VolumeBackups : option (list VolumeBackup);
  vmb_ReadyToUse : option bool;
  vmb_Error : option BackupError }.

Record VolumeBackupInfo := mkVolumeBackupInfo {
  vbi_Name : option string; vbi_ReadyToUse : option bool; vbi_Error : option BackupError }.

Record VMBackupInfo := mkVMBackupInfo {
  bi_Name : string;
  bi_VolumeBackupInfo : list VolumeBackupInfo;
  bi_ReadyToUse : option bool;
  bi_Error : option BackupError }.

Record ScheduleVMBackup := mkScheduleVMBackup {
  svb_meta : ObjectMeta;
  svb_Cron : string;
  svb_Retain : Z;
  svb_MaxFailure : Z;
  svb_Suspend : bool;
  svb_VMBackupSpec : VMBackupSpec;
  svb_VMBackupInfo : option (list VMBackupInfo);
  svb_Failure : Z;
  svb_Suspended : bool;
  svb_Conditions : list Condition }.

#[export] Instance BackupError_eq : EqDecision BackupError.
Proof. solve_decision. Defined.
#[export] Instance VolumeBackup_eq : EqDecision VolumeBackup.
Proof. solve_decision. Defined.
#[export] Instance VMBackupSpec_eq : EqDecision VMBackupSpec.
Proof. solve_decision. Defined.
#[export] Instance VMBackup_eq : EqDecision VMBackup.
Proof. solve_decision. Defined.
#[export] Instance VolumeBackupInfo_eq : EqDecision VolumeBackupInfo.
Proof. solve_decision. Defined.
#[export] Instance VMBackupInfo_eq : EqDecision VMBackupInfo.
Proof. solve_decision. Defined.
#[export] Instance ScheduleVMBackup_eq : EqDecision ScheduleVMBackup.
Proof. solve_decision. Defined.

Definition vmb_Name (b : VMBackup) : string := om_Name (vmb_meta b).
Definition vmb_Namespace (b : VMBackup) : string := om_Namespace (vmb_meta b).
Definition svb_Name (s : ScheduleVMBackup) : string := om_Name (svb_meta s).
Definition svb_Namespace (s : ScheduleVMBackup) : string := om_Namespace (svb_meta s).
Definition svb_UID (s : ScheduleVMBackup) : string := om_UID (svb_meta s).

Definition vmb_set_VolumeBackups (l : list VolumeBackup) (b : VMBackup) : VMBackup :=
  mkVMBackup (vmb_meta b) (vmb_Spec b) (vmb_hasSourceSpec b) (vmb_hasBackupTarget b) (Some l)
    (vmb_ReadyToUse b) (vmb_Error b).

Definition svb_set_Suspend (b : bool) (cs : list Condition) (s : ScheduleVMBackup)
  : ScheduleVMBackup :=
  mkScheduleVMBackup (svb_meta s) (svb_Cron s) (svb_Retain s) (svb_MaxFailure s) b
    (svb_VMBackupSpec s) (svb_VMBackupInfo s) (svb_Failure s) b cs.

Definition svb_set_Info (info : option (list VMBackupInfo)) (failure : Z) (s : ScheduleVMBackup)
  : ScheduleVMBackup :=
  mkScheduleVMBackup (svb_meta s) (svb_Cron s) (svb_Retain s) (svb_MaxFailure s) (svb_Suspend s)
    (svb_VMBackupSpec s) info failure (svb_Suspended s) (svb_Conditions s).

(** ** [pkg/backup/common/operator.go]: the reader *)

Definition IsReady (b : VMBackup) : bool :=
  match vmb_ReadyToUse b with Some r => r | None => false end.

Definition IsMissingStatus (b : VMBackup) : bool :=
  negb (vmb_hasSourceSpec b) || match vmb_VolumeBackups b with None => true | Some _ => false end.

Definition IsProcessing (b : VMBackup) : bool :=
  match vmb_Error b with
  | Some _ => false
  | None => match vmb_ReadyToUse b with None => true | Some r => negb r end
  end.

Definition hasError (b : VMBackup) : bool := bool_decide (vmb_Error b <> None).
Definition GetVolBackups (b : VMBackup) : list VolumeBackup := default [] (vmb_VolumeBackups b).
Definition GetType (b : VMBackup) : string := vbs_Type (vmb_Spec b).
