(* ===== verification/Calendar.v ===== *)
(** Dates of Go's [time] package, as far as the time stamps of scheduled backups need
    them: the Gregorian calendar, and [Format] and [Parse] with the layout "20060102.1504"
    (pkg/controller/master/schedulevmbackup/common.go).

    Instants are seconds since 1970-01-01 00:00 UTC; [Format] writes the wall clock of a
    zone, given by its offset, and [Parse], which finds no zone in the layout, reads it as
    UTC. *)

From Stdlib Require Import Ascii.
From S2P Require Import Prelude.

Local Open Scope Z_scope.

(** ** The calendar *)

Definition isLeap (year : Z) : bool :=
  (year mod 4 =? 0) && (negb (year mod 100 =? 0) || (year mod 400 =? 0)).

Definition daysIn (year month : Z) : Z :=
  if month =? 2 then (if isLeap year then 29 else 28)
  else if (month =? 4) || (month =? 6) || (month =? 9) || (month =? 11) then 30
  else 31.

(** Years are counted from March, so that the leap day is the last one, in eras of 400
    years (146097 days); day 0 is 0000-03-01. *)
Definition epochDay : Z := 719468.

Definition monthFromMarch (month : Z) : Z := if 2 <? month then month - 3 else month + 9.

Definition dayOfEra (yearOfEra dayOfYear : Z) : Z :=
  365 * yearOfEra + yearOfEra / 4 - yearOfEra / 100 + dayOfYear.

Definition daysFromCivil (year month day : Z) : Z :=
  let y := if month <=? 2 then year - 1 else year in
  let dayOfYear := (153 * monthFromMarch month + 2) / 5 + day - 1 in
  y / 400 * 146097 + dayOfEra (y mod 400) dayOfYear - epochDay.

(** Cut off the centuries, the 4-year cycles and the years: year of the era, day of the
    year.  The last century and the last year of a cycle may be a day longer, and an
    estimate of one too many is taken back. *)
Definition eraYear (d : Z) : Z * Z :=
  let n := d / 36524 in
  let c := n - n / 4 in
  let d := d - 36524 * c in
  let q := d / 1461 in
  let d := d - 1461 * q in
  let n := d / 365 in
  let r := n - n / 4 in
  (100 * c + 4 * q + r, d - 365 * r).

Definition marchMonth (dayOfYear : Z) : Z := (5 * dayOfYear + 2) / 153.
Definition civilMonth (dayOfYear : Z) : Z :=
  let mp := marchMonth dayOfYear in if mp <? 10 then mp + 3 else mp - 9.
Definition civilDay (dayOfYear : Z) : Z := dayOfYear - (153 * marchMonth dayOfYear + 2) / 5 + 1.

Definition civilFromDays (days : Z) : Z * Z * Z :=
  let z := days + epochDay in
  let '(y, doy) := eraYear (z mod 146097) in
  let month := civilMonth doy in
  (y + (if month <=? 2 then 1 else 0) + z / 146097 * 400, month, civilDay doy).

(** ** [Time.Format] and [time.Parse], layout "20060102.1504" *)

Fixpoint zeros (n : nat) : string := match n with O => "" | S n => "0" +:+ zeros n end.

(** [appendInt]: at least [width] digits. *)
Definition appendInt (x : Z) (width : nat) : string :=
  let s := Itoa (Z.abs x) in
  (if x <? 0 then "-" else "") +:+ zeros (width - String.length s) +:+ s.

Definition Format (offset t : Z) : string :=
  let local := t + offset in
  let '(year, month, day) := civilFromDays (local / 86400) in
  let secs := local mod 86400 in
  appendInt year 4 +:+ appendInt month 2 +:+ appendInt day 2 +:+ "." +:+
  appendInt (secs / 3600) 2 +:+ appendInt (secs mod 3600 / 60) 2.

Definition digit (a : ascii) : option Z :=
  let n := Z.of_N (N_of_ascii a) in
  if (48 <=? n) && (n <=? 57) then Some (n - 48) else None.

(** [getnum]: two digits, or one when [fixed] is not set. *)
Definition getnum (fixed : bool) (s : string) : option (Z * string) :=
  match s with
  | EmptyString => None
  | String a s1 =>
      x ← digit a;
      match s1 with
      | EmptyString => if fixed then None else Some (x, s1)
      | String b s2 =>
          match digit b with
          | None => if fixed then None else Some (x, s1)
          | Some y => Some (10 * x + y, s2)
          end
      end
  end.

(** Four digits. *)
Definition getyear (s : string) : option (Z * string) :=
  '(hi, s) ← getnum true s;
  '(lo, s) ← getnum true s;
  Some (100 * hi + lo, s).

Definition skip (a : ascii) (s : string) : option string :=
  match s with
  | EmptyString => None
  | String b s => if Ascii.eqb a b then Some s else None
  end.

Definition inRange (lo x hi : Z) : option unit :=
  if (lo <=? x) && (x <=? hi) then Some tt else None.

Definition Parse (s : string) : option Z :=
  '(year, s) ← getyear s;
  '(month, s) ← getnum true s;
  _ ← inRange 1 month 12;
  '(day, s) ← getnum true s;
  s ← skip "." s;
  '(hour, s) ← getnum false s;
  _ ← inRange 0 hour 23;
  '(min, s) ← getnum true s;
  _ ← inRange 0 min 59;
  match s with
  | EmptyString =>
      _ ← inRange 1 day (daysIn year month);
      Some (daysFromCivil year month day * 86400 + hour * 3600 + min * 60)
  | String _ _ => None
  end.

(** The zero [time.Time], which [Parse] returns beside an error: 0001-01-01 00:00 UTC. *)
Definition zeroTime : Z := -62135596800.

Example format_2024 : Format 0 1721204829 = "20240717.0827".
Proof. vm_compute. reflexivity. Qed.
Example format_offset : Format 7200 1735685999 = "20250101.0059".
Proof. vm_compute. reflexivity. Qed.
Example parse_2024 : Parse "20240717.0827" = Some 1721204820.
Proof. vm_compute. reflexivity. Qed.
Example parse_refuses :
  map Parse ["20230229.0000"; "20240717.2400"; "20240717-0827"; "20240717.082"; "20240717.08270"; ""]
  = repeat None 6.
Proof. vm_compute. reflexivity. Qed.
Example zero_time : Parse "00010101.0000" = Some zeroTime.
Proof. vm_compute. reflexivity. Qed.

(** ** Days and dates *)

Fixpoint allFrom (p : Z -> bool) (n : nat) (x : Z) : bool :=
  match n with
  | O => true
  | S n => p x && allFrom p n (x + 1)
  end.

Lemma allFrom_true p n x : allFrom p n x = true -> forall y, x <= y < x + Z.of_nat n -> p y = true.
Proof.
  revert x. induction n as [|n IH]; intros x H y Hy; [lia|]. cbn in H.
  apply andb_true_iff in H as [Hp Hr]. destruct (Z.eq_dec y x) as [->|]; [done|].
  apply (IH _ Hr). lia.
Qed.

Lemma allBelow (p : Z -> bool) n :
  0 <= n -> allFrom p (Z.to_nat n) 0 = true -> forall x, 0 <= x < n -> p x = true.
Proof. intros Hn H x Hx. apply (allFrom_true _ _ _ H). lia. Qed.

Lemma eraYear_spec d y k :
  0 <= d < 146097 -> eraYear d = (y, k) ->
  0 <= y < 400 /\ 0 <= k <= 365 /\ dayOfEra y k = d /\ (k = 365 -> isLeap (y + 1) = true).
Proof.
  intros Hd. unfold eraYear, dayOfEra.
  set (n := d / 36524). set (c := n - n / 4). set (d1 := d - 36524 * c). set (q := d1 / 1461).
  set (d2 := d1 - 1461 * q). set (n' := d2 / 365). set (r := n' - n' / 4). intros [= <- <-].
  assert (0 <= c <= 3 /\ 0 <= d1 <= 36524 /\ (d1 = 36524 -> c = 3)) as (Hc & Hd1 & Hlast).
  { unfold d1, c, n. Z.to_euclidean_division_equations. lia. }
  assert (0 <= q <= 24 /\ 0 <= d2 <= 1460 /\ (q = 24 -> d2 = 1460 -> c = 3)) as (Hq & Hd2 & Hlast').
  { unfold d2, q in *. clearbody d1. Z.to_euclidean_division_equations. lia. }
  assert (0 <= r <= 3 /\ 0 <= d2 - 365 * r <= 365 /\
    (d2 - 365 * r = 365 -> r = 3 /\ d2 = 1460)) as (Hr & Hk & Hlast'').
  { unfold r, n' in *. clearbody d2. Z.to_euclidean_division_equations. lia. }
  assert ((100 * c + 4 * q + r) / 4 = 25 * c + q) as E4.
  { symmetry. apply Z.div_unique with r; lia. }
  assert ((100 * c + 4 * q + r) / 100 = c) as E100.
  { symmetry. apply Z.div_unique with (4 * q + r); lia. }
  split_and!; [lia..| |].
  - rewrite E4, E100. unfold d2, d1. lia.
  - intros Hk365. destruct (Hlast'' Hk365) as [-> Hd2']. unfold isLeap.
    replace (100 * c + 4 * q + 3 + 1) with (0 + (25 * c + q + 1) * 4) at 1 by lia.
    rewrite Z.mod_add by lia. cbn [Z.eqb]. apply orb_true_iff.
    destruct (Z.eq_dec q 24) as [->|Hne].
    + right. by rewrite Hlast' by lia.
    + left. apply negb_true_iff, Z.eqb_neq.
      replace (100 * c + 4 * q + 3 + 1) with (4 * q + 4 + c * 100) by lia.
      rewrite Z.mod_add, Z.mod_small by lia. lia.
Qed.

(** The days of a year that starts in March, month by month. *)
Definition yearDay (k : Z) : bool :=
  let m := civilMonth k in
  (1 <=? m) && (m <=? 12) && (1 <=? civilDay k)
  && (civilDay k <=? (if m =? 2 then if k =? 365 then 29 else 28 else daysIn 0 m))
  && (monthFromMarch m =? marchMonth k).

Lemma yearDay_all k : 0 <= k <= 365 -> yearDay k = true.
Proof. intros Hk. apply (allBelow yearDay 366); [lia| |lia]. vm_compute. reflexivity. Qed.

Lemma isLeap_era y n : isLeap (y + n * 400) = isLeap y.
Proof.
  unfold isLeap. replace (y + n * 400) with (y + (n * 100) * 4) at 1 by lia. rewrite Z.mod_add by lia.
  replace (y + n * 400) with (y + (n * 4) * 100) at 1 by lia. rewrite Z.mod_add by lia.
  by rewrite Z.mod_add by lia.
Qed.

Lemma daysIn_era y n m : daysIn (y + n * 400) m = daysIn y m.
Proof. unfold daysIn. by rewrite isLeap_era. Qed.

Lemma civil_valid days y m d :
  civilFromDays days = (y, m, d) -> 1 <= m <= 12 /\ 1 <= d <= daysIn y m.
Proof.
  unfold civilFromDays. destruct (eraYear _) as [yoe k] eqn:Ee. intros [= <- <- <-].
  apply eraYear_spec in Ee as (_ & Hk & _ & Hleap); [|apply Z.mod_pos_bound; lia].
  pose proof (yearDay_all k Hk) as H. unfold yearDay in H. rewrite !andb_true_iff in H.
  rewrite daysIn_era. unfold daysIn in *. destruct (Z.eqb_spec (civilMonth k) 2) as [->|]; [|lia].
  cbn [Z.leb Z.compare Pos.compare Pos.compare_cont] in *. destruct (Z.eqb_spec k 365) as [Hk5|]; [rewrite Hleap by done; lia|].
  destruct (isLeap _); lia.
Qed.

(** Every day has one date, and the date gives the day back. *)
Lemma civil_roundtrip days y m d :
  civilFromDays days = (y, m, d) -> daysFromCivil y m d = days.
Proof.
  unfold civilFromDays. destruct (eraYear _) as [yoe k] eqn:Ee. intros [= <- <- <-].
  apply eraYear_spec in Ee as (Hy & Hk & Hd & _); [|apply Z.mod_pos_bound; lia].
  pose proof (yearDay_all k Hk) as H. unfold yearDay in H. rewrite !andb_true_iff in H.
  pose proof (Z.div_mod (days + epochDay) 146097 ltac:(lia)) as Hz. set (era := _ / _) in *.
  unfold daysFromCivil. set (y := if _ <=? 2 then _ else _).
  assert (y = yoe + era * 400) as -> by (unfold y; destruct (civilMonth k <=? 2); lia).
  rewrite Z.div_add, Z.mod_add, Z.div_small, Z.mod_small by lia.
  replace (monthFromMarch (civilMonth k)) with (marchMonth k) by lia.
  unfold civilDay, dayOfEra in *. lia.
Qed.

(** ** Digits *)

Definition twoDigits (x : Z) : bool :=
  match appendInt x 2 with
  | String a (String b EmptyString) =>
      match digit a, digit b with Some u, Some v => 10 * u + v =? x | _, _ => false end
  | _ => false
  end.

Lemma getnum_appendInt fixed x s :
  0 <= x < 100 -> getnum fixed (appendInt x 2 +:+ s) = Some (x, s).
Proof.
  intros Hx. assert (twoDigits x = true) as H.
  { revert x Hx. apply (allBelow twoDigits); [lia|]. vm_compute. reflexivity. }
  unfold twoDigits in H. destruct (appendInt x 2) as [|a [|b [|]]]; try done.
  change (String a (String b "") +:+ s) with (String a (String b s)). unfold getnum.
  destruct (digit a) as [u|]; [|done]. destruct (digit b) as [v|]; [|done].
  apply Z.eqb_eq in H. by rewrite <- H.
Qed.

Definition fourDigits (x : Z) : bool :=
  String.eqb (appendInt x 4) (appendInt (x / 100) 2 +:+ appendInt (x mod 100) 2).

Lemma getyear_appendInt x s : 0 <= x < 10000 -> getyear (appendInt x 4 +:+ s) = Some (x, s).
Proof.
  intros Hx. assert (fourDigits x = true) as ->%String.eqb_eq.
  { revert x Hx. apply (allBelow fourDigits); [lia|]. vm_compute. reflexivity. }
  unfold getyear. rewrite <- append_assoc, getnum_appendInt by (split; [apply Z.div_pos|apply Z.div_lt_upper_bound]; lia).
  cbn [mbind option_bind]. rewrite getnum_appendInt by (apply Z.mod_pos_bound; lia). cbn. do 2 f_equal.
  pose proof (Z.div_mod x 100). lia.
Qed.

Lemma app_empty_r (s : string) : s +:+ "" = s.
Proof.
  induction s as [|a s IH]; [done|].
  change (String a s +:+ "") with (String a (s +:+ "")). by rewrite IH.
Qed.

Lemma skip_app (s : string) : skip "." ("." +:+ s) = Some s.
Proof. done. Qed.

Lemma inRange_ok lo x hi : lo <= x <= hi -> inRange lo x hi = Some tt.
Proof.
  intros H. unfold inRange. destruct (Z.leb_spec lo x), (Z.leb_spec x hi); try lia. done.
Qed.

(** ** Round trip *)

(** The local years [Format] writes with four digits. *)
Definition yearFits (t : Z) : Prop := 0 <= (civilFromDays (t / 86400)).1.1 < 10000.

(** A time stamp is read back as the wall clock it was made from, to the minute, in every
    zone and for every year of four digits. *)
Lemma Parse_Format offset t :
  yearFits (t + offset) -> Parse (Format offset t) = Some ((t + offset) / 60 * 60).
Proof.
  unfold yearFits, Format. set (l := t + offset).
  destruct (civilFromDays (l / 86400)) as [[y m] d] eqn:Ec. cbn [fst]. intros Hy.
  pose proof (civil_valid _ _ _ _ Ec) as [Hm Hd]. pose proof (civil_roundtrip _ _ _ _ Ec) as Hr.
  assert (daysIn y m <= 31) by (unfold daysIn; repeat case_match; lia).
  pose proof (Z.mod_pos_bound l 86400 ltac:(lia)) as Hs. set (secs := l mod 86400) in *.
  assert (0 <= secs / 3600 <= 23) as Hh
    by (split; [apply Z.div_pos|apply Z.lt_succ_r, Z.div_lt_upper_bound]; lia).
  pose proof (Z.mod_pos_bound secs 3600 ltac:(lia)) as Hsm.
  assert (0 <= secs mod 3600 / 60 <= 59) as Hmin
    by (split; [apply Z.div_pos|apply Z.lt_succ_r, Z.div_lt_upper_bound]; lia).
  unfold Parse. rewrite getyear_appendInt by lia. cbn [mbind option_bind].
  rewrite getnum_appendInt by lia. cbn [mbind option_bind]. rewrite inRange_ok by lia. cbn [mbind option_bind].
  rewrite getnum_appendInt by lia. cbn [mbind option_bind]. rewrite skip_app. cbn [mbind option_bind].
  rewrite getnum_appendInt by lia. cbn [mbind option_bind]. rewrite inRange_ok by lia. cbn [mbind option_bind].
  rewrite <- (app_empty_r (appendInt (secs mod 3600 / 60) 2)).
  rewrite getnum_appendInt by lia. cbn [mbind option_bind]. rewrite !inRange_ok by lia.
  cbn [mbind option_bind]. rewrite Hr. f_equal. unfold secs in *. clear -l. Z.to_euclidean_division_equations. lia.
Qed.
