(* ===== verification/ScheduleBackup.v ===== *)
(** Scheduled backups of virtual machines: the handlers of
    pkg/controller/master/schedulevmbackup and what they call of pkg/util/svmbackup.go,
    pkg/util/meta.go, pkg/util/backup/backup.go and of the reader of
    pkg/backup/common/operator.go.

    A schedule owns a cron job that does nothing; when the cron job was started, its handler
    creates a backup named after the minute.  The handler of the schedule removes backups
    beyond the number to retain, records what there is, and suspends or resumes the cron
    job.  State [SWorld]: schedules, cron jobs and backups with resource versions, Longhorn
    backups, snapshots, clock and queue.  Any number of steps of others may come before each
    call, and each call may fail; caches answer from the objects as they are. *)

From Stdlib Require Import Ascii.
From S2P Require Import Prelude K8s ApiServer BackupTypes Calendar.

Local Open Scope Z_scope.

(** ** Constants *)

Definition reachMaxFailure : string := "Reach Max Failure".
Definition proactiveSuspend : string := "Proactive Schedule Suspend".
Definition lhbackupNotSync : string := "Longhorn Backup Not Synced".
Definition updateInterval : Z := 5 * second.
Definition reconcileInterval : Z := 5 * second.
Definition svmbackupPrefix : string := "svmb".
Definition cronJobNamespace : string := "harvester-system".
Definition cronJobBackoffLimit : Z := 3.
Definition cronJobCmd : string := "sleep".
Definition cronJobArg : string := "10".
Definition AnnotationSVMBackupID : string := "harvesterhci.io/svmbackupId".
Definition LabelSVMBackupUID : string := "harvesterhci.io/svmbackupUID".
Definition LabelSVMBackupTimestamp : string := "harvesterhci.io/svmbackupTimestamp".
Definition BackupSuspend : string := "BackupSuspend".
Definition Snapshot : string := "snapshot".
Definition vmBackupKindName : string := "VirtualMachineBackup".
Definition LonghornSystemNamespace : string := "longhorn-system".
Definition BackupStateNew : string := "".
Definition BackupStatePending : string := "Pending".
Definition BackupStateInProgress : string := "InProgress".
Definition ForbidConcurrent : string := "Forbid".
Definition RestartPolicyNever : string := "Never".
Definition PullIfNotPresent : string := "IfNotPresent".

(** ** Resources *)

Record CronJob := mkCronJob {
  cj_meta : ObjectMeta;
  cj_Schedule : string;
  cj_ConcurrencyPolicy : string;
  cj_Suspend : option bool;
  cj_TemplateName : string;
  cj_JobSpec : JobSpec;
  cj_LastScheduleTime : option Z }.

Record LHBackup := mkLHBackup {
  lhb_meta : ObjectMeta; lhb_SnapshotName : string; lhb_State : string }.

(** A volume snapshot with the owner that is its controller, [metav1.GetControllerOf]. *)
Record VolumeSnapshot := mkVolumeSnapshot {
  vs_meta : ObjectMeta; vs_ControllerRef : option OwnerReference }.

#[export] Instance CronJob_eq : EqDecision CronJob.
Proof. solve_decision. Defined.

Definition setDeleted (t : Z) (m : ObjectMeta) : ObjectMeta :=
  mkMeta (om_Name m) (om_GenerateName m) (om_Namespace m) (om_UID m) (om_Labels m)
    (om_Annotations m) (om_OwnerReferences m) (om_CreationTimestamp m)
    (match om_DeletionTimestamp m with None => Some t | d => d end).

Definition vmb_setDeleted (t : Z) (b : VMBackup) : VMBackup :=
  mkVMBackup (setDeleted t (vmb_meta b)) (vmb_Spec b) (vmb_hasSourceSpec b)
    (vmb_hasBackupTarget b) (vmb_VolumeBackups b) (vmb_ReadyToUse b) (vmb_Error b).

Definition cj_set (schedule : string) (suspend : option bool) (c : CronJob) : CronJob :=
  mkCronJob (cj_meta c) schedule (cj_ConcurrencyPolicy c) suspend (cj_TemplateName c)
    (cj_JobSpec c) (cj_LastScheduleTime c).

(** ** State and environment *)

Abbreviation Key := (string * string)%type (only parsing).

Record SWorld := mkSWorld {
  sw_schedules : Store Key ScheduleVMBackup;
  sw_cronJobs : Store Key CronJob;
  sw_vmBackups : Store Key VMBackup;
  sw_lhBackups : gmap Key LHBackup;
  sw_snapshotContents : gmap string Key;
  sw_snapshots : gmap Key VolumeSnapshot;
  sw_now : Z;
  sw_queue : list (Key * Z) }.

Definition sw_set_vmBackups (st : Store Key VMBackup) (w : SWorld) : SWorld :=
  mkSWorld (sw_schedules w) (sw_cronJobs w) st (sw_lhBackups w) (sw_snapshotContents w)
    (sw_snapshots w) (sw_now w) (sw_queue w).
Definition sw_set_cronJobs (st : Store Key CronJob) (w : SWorld) : SWorld :=
  mkSWorld (sw_schedules w) st (sw_vmBackups w) (sw_lhBackups w) (sw_snapshotContents w)
    (sw_snapshots w) (sw_now w) (sw_queue w).
Definition sw_set_schedules (st : Store Key ScheduleVMBackup) (w : SWorld) : SWorld :=
  mkSWorld st (sw_cronJobs w) (sw_vmBackups w) (sw_lhBackups w) (sw_snapshotContents w)
    (sw_snapshots w) (sw_now w) (sw_queue w).
Definition sw_set_lhBackups (m : gmap Key LHBackup) (w : SWorld) : SWorld :=
  mkSWorld (sw_schedules w) (sw_cronJobs w) (sw_vmBackups w) m (sw_snapshotContents w)
    (sw_snapshots w) (sw_now w) (sw_queue w).
Definition sw_set_queue (q : list (Key * Z)) (w : SWorld) : SWorld :=
  mkSWorld (sw_schedules w) (sw_cronJobs w) (sw_vmBackups w) (sw_lhBackups w)
    (sw_snapshotContents w) (sw_snapshots w) (sw_now w) q.

#[export] Instance SWorld_vmBackups : HasStore SWorld Key VMBackup.
Proof.
  refine (Build_HasStore SWorld Key VMBackup _ _ sw_vmBackups sw_set_vmBackups _ _);
    [done|by intros []].
Defined.
#[export] Instance SWorld_cronJobs : HasStore SWorld Key CronJob.
Proof.
  refine (Build_HasStore SWorld Key CronJob _ _ sw_cronJobs sw_set_cronJobs _ _);
    [done|by intros []].
Defined.
#[export] Instance SWorld_schedules : HasStore SWorld Key ScheduleVMBackup.
Proof.
  refine (Build_HasStore SWorld Key ScheduleVMBackup _ _ sw_schedules sw_set_schedules _ _);
    [done|by intros []].
Defined.

Abbreviation Act A := (M (Sys SWorld) A) (only parsing).

(** [sort.Slice] is not stable: some permutation that is in order. *)
Class SliceSort := {
  sortSlice : forall {A}, (A -> A -> bool) -> list A -> list A;
  sortSlice_perm : forall {A} (less : A -> A -> bool) l, sortSlice less l ≡ₚ l;
  sortSlice_sorted : forall {A} (key : A -> Z) l,
    StronglySorted (fun a b => key a <= key b) (sortSlice (fun a b => key a <? key b) l) }.

(** What is outside: the image of the harvester chart, the zone of the process and the
    identifiers the API server gives out. *)
Record SEnv := mkSEnv {
  se_image : string + goerror;
  se_zone : Z -> Z;
  se_uid : Z -> string }.

(** ** Clients and caches *)

Definition getFrom {K A} `{Countable K} (m : gmap K A) (k : K) : outcome A :=
  match m !! k with
  | Some a => Ok a
  | None => Err (ApiNotFound "not found")
  end.

Definition timeNow : Act Z := gets (fun s => sw_now (sys_world s)).

Definition enqueueAfter (ns name : string) (d : Z) : Act unit := fun s =>
  (Ok tt, mkSys (sw_set_queue (sw_queue (sys_world s) ++ [((ns, name), d)]) (sys_world s))
            (sys_turns s)).
Definition enqueue (ns name : string) : Act unit := enqueueAfter ns name 0.

Definition svmbackupCache_Get (ns name : string) : Act (Obj ScheduleVMBackup) :=
  apiGet (A := ScheduleVMBackup) (ns, name).
Definition cronJobCache_Get (ns name : string) : Act (Obj CronJob) :=
  apiGet (A := CronJob) (ns, name).
Definition vmBackupCache_Get (ns name : string) : Act (Obj VMBackup) :=
  apiGet (A := VMBackup) (ns, name).

(** The selector of a schedule: its namespace and the label with its identifier. *)
Definition ofSchedule (ns uid : string) (b : VMBackup) : bool :=
  String.eqb (vmb_Namespace b) ns
  && bool_decide (gm_get (om_Labels (vmb_meta b)) LabelSVMBackupUID = Some uid).

(** The cache lists in no particular order; its only user sorts the list.  It is taken to be
    up to date when a handler lists it, while the objects that handlers are called with may
    be of any age. *)
Definition backupsOf (ns uid : string) (m : gmap Key (Obj VMBackup)) : list (Obj VMBackup) :=
  List.filter (fun o => ofSchedule ns uid (o_val o)) (map snd (map_to_list m)).

Definition vmBackupCache_List (ns uid : string) : Act (list (Obj VMBackup)) :=
  readCall (fun w => Ok (backupsOf ns uid (st_objs (sw_vmBackups w)))).

(** Lists that are empty are not stored. *)
Definition stored (s : ScheduleVMBackup) : ScheduleVMBackup :=
  svb_set_Info (match svb_VMBackupInfo s with Some [] => None | i => i end) (svb_Failure s) s.

Definition svmbackupClient_Update (o : Obj ScheduleVMBackup) : Act (Obj ScheduleVMBackup) :=
  apiUpdate (fun _ new => stored new) (svb_Namespace (o_val o), svb_Name (o_val o)) o.
Definition cronJobsClient_Update (o : Obj CronJob) : Act (Obj CronJob) :=
  apiUpdate (fun _ new => new) (om_Namespace (cj_meta (o_val o)), om_Name (cj_meta (o_val o))) o.
Definition vmBackupClient_Update (o : Obj VMBackup) : Act (Obj VMBackup) :=
  apiUpdate (fun _ new => new) (vmb_Namespace (o_val o), vmb_Name (o_val o)) o.

(** A deletion with foreground propagation, like one of an object with finalizers, marks
    the object; it goes when what hangs on it is gone. *)
Definition markDeleted {A} (set : A -> A) (k : Key) (st : Store Key A)
  : outcome unit * Store Key A :=
  match st_objs st !! k with
  | None => (Err (ApiNotFound "not found"), st)
  | Some o => (Ok tt, mkStore (st_rv st + 1)
                        (<[k := mkObj (st_rv st + 1) (set (o_val o))]> (st_objs st)))
  end.

Definition vmBackupClient_Delete (ns name : string) : Act unit :=
  call (fun w => let '(r, st) := markDeleted (vmb_setDeleted (sw_now w / second)) (ns, name)
                                   (sw_vmBackups w) in (r, sw_set_vmBackups st w)).

Definition cj_setDeleted (t : Z) (c : CronJob) : CronJob :=
  mkCronJob (setDeleted t (cj_meta c)) (cj_Schedule c) (cj_ConcurrencyPolicy c) (cj_Suspend c)
    (cj_TemplateName c) (cj_JobSpec c) (cj_LastScheduleTime c).

Definition cronJobsClient_Delete (ns name : string) : Act unit :=
  call (fun w => let '(r, st) := markDeleted (cj_setDeleted (sw_now w / second)) (ns, name)
                                   (sw_cronJobs w) in (r, sw_set_cronJobs st w)).

Definition lhbackupClient_Delete (ns name : string) : Act unit :=
  call (fun w => match sw_lhBackups w !! (ns, name) with
                 | None => (Err (ApiNotFound "not found"), w)
                 | Some b =>
                     (Ok tt, sw_set_lhBackups
                        (<[(ns, name) := mkLHBackup (setDeleted (sw_now w / second) (lhb_meta b))
                                           (lhb_SnapshotName b) (lhb_State b)]> (sw_lhBackups w)) w)
                 end).

(** A created object gets a version, an identifier and the time. *)
Definition assigned (E : SEnv) (rv now : Z) (m : ObjectMeta) : ObjectMeta :=
  mkMeta (om_Name m) (om_GenerateName m) (om_Namespace m) (se_uid E rv) (om_Labels m)
    (om_Annotations m) (om_OwnerReferences m) (now / second) None.

Definition storeCreate {A} (k : Key) (make : Z -> A) (st : Store Key A)
  : outcome (Obj A) * Store Key A :=
  match st_objs st !! k with
  | Some _ => (Err (ApiAlreadyExists "already exists"), st)
  | None => let o := mkObj (st_rv st + 1) (make (st_rv st + 1)) in
            (Ok o, mkStore (st_rv st + 1) (<[k := o]> (st_objs st)))
  end.

Section Env.
Context {SS : SliceSort} {RF : Rfc3339} (E : SEnv).

Definition vmBackupClient_Create (b : VMBackup) : Act (Obj VMBackup) :=
  call (fun w =>
    let '(r, st) := storeCreate (vmb_Namespace b, vmb_Name b)
      (fun rv => mkVMBackup (assigned E rv (sw_now w) (vmb_meta b)) (vmb_Spec b)
                   (vmb_hasSourceSpec b) (vmb_hasBackupTarget b) (vmb_VolumeBackups b)
                   (vmb_ReadyToUse b) (vmb_Error b)) (sw_vmBackups w) in
    (r, sw_set_vmBackups st w)).

Definition cronJobsClient_Create (c : CronJob) : Act (Obj CronJob) :=
  call (fun w =>
    let '(r, st) := storeCreate (om_Namespace (cj_meta c), om_Name (cj_meta c))
      (fun rv => mkCronJob (assigned E rv (sw_now w) (cj_meta c)) (cj_Schedule c)
                   (cj_ConcurrencyPolicy c) (cj_Suspend c) (cj_TemplateName c) (cj_JobSpec c)
                   (cj_LastScheduleTime c)) (sw_cronJobs w) in
    (r, sw_set_cronJobs st w)).

(** ** [pkg/util]: references *)

(** At the first slash. *)
Fixpoint cutSlash (s : string) : option (string * string) :=
  match s with
  | EmptyString => None
  | String a s =>
      if Ascii.eqb a "/" then Some ("", s)
      else '(l, r) ← cutSlash s; Some (String a l, r)
  end.

Fixpoint endsInSlash (s : string) : bool :=
  match s with
  | EmptyString => false
  | String a EmptyString => Ascii.eqb a "/"
  | String _ s => endsInSlash s
  end.

Definition SplitNamespacedName (namespacedName : string) : string * string * bool :=
  if String.eqb namespacedName "" || HasPrefix namespacedName "/" || endsInSlash namespacedName
  then ("", "", false)
  else match cutSlash namespacedName with
       | None => ("", namespacedName, true)
       | Some (ns, name) => (ns, name, true)
       end.

(** nil when the annotation is missing, or the schedule cannot be read. *)
Definition ResolveSVMBackupRef (m : ObjectMeta) : Act (option (Obj ScheduleVMBackup)) :=
  if String.eqb (gm_str (om_Annotations m) AnnotationSVMBackupID) "" then mret None
  else
    let '(namespace, name, _) :=
      SplitNamespacedName (gm_str (om_Annotations m) AnnotationSVMBackupID) in
    r ← try (svmbackupCache_Get namespace name);
    match r with
    | inr _ => mret None
    | inl svmbackup => mret (Some svmbackup)
    end.

(** ** [common.go]: names and listings *)

Definition cronJobName (svmbackup : ScheduleVMBackup) : string :=
  svmbackupPrefix +:+ "-" +:+ svb_UID svmbackup.

Definition getCronJob (svmbackup : ScheduleVMBackup) : Act (Obj CronJob) :=
  cronJobCache_Get cronJobNamespace (cronJobName svmbackup).

Definition vmBackupName (svmbackup : ScheduleVMBackup) (timestamp : string) : string :=
  svmbackupPrefix +:+ "-" +:+ svb_UID svmbackup +:+ "-" +:+ timestamp.

Definition getVMBackup (svmbackup : ScheduleVMBackup) (timestamp : string) : Act (Obj VMBackup) :=
  vmBackupCache_Get (svb_Namespace svmbackup) (vmBackupName svmbackup timestamp).

(** The time a backup is sorted by; a label that cannot be read gives the zero time. *)
Definition stampOf (b : VMBackup) : Z :=
  default zeroTime (Parse (gm_str (om_Labels (vmb_meta b)) LabelSVMBackupTimestamp)).

Record Current := mkCurrent {
  cur_vmbackups : list (Obj VMBackup);
  cur_errVMBackups : list (Obj VMBackup);
  cur_last : option (Obj VMBackup);
  cur_failure : Z }.

(** The loop over the sorted backups. *)
Fixpoint tally (l errs : list (Obj VMBackup)) (last : option (Obj VMBackup)) (failure : Z)
  : list (Obj VMBackup) * option (Obj VMBackup) * Z :=
  match l with
  | [] => (errs, last, failure)
  | vb :: l =>
      if IsMissingStatus (o_val vb) then tally l errs (Some vb) failure
      else
        let '(errs, failure) :=
          if hasError (o_val vb) then (errs ++ [vb], failure + 1) else (errs, failure) in
        tally l errs (Some vb) (if IsReady (o_val vb) then 0 else failure)
  end.

Definition currentVMBackups (svmbackup : ScheduleVMBackup) : Act Current :=
  l ← vmBackupCache_List (svb_Namespace svmbackup) (svb_UID svmbackup);
  let vmbackups := sortSlice (fun a b => stampOf (o_val a) <? stampOf (o_val b)) l in
  let '(errs, last, failure) := tally vmbackups [] None 0 in
  mret (mkCurrent vmbackups errs last failure).

Definition newVMBackup (svmbackup : ScheduleVMBackup) (timestamp : string) : VMBackup :=
  mkVMBackup
    (mkMeta (vmBackupName svmbackup timestamp) "" (svb_Namespace svmbackup) ""
       (Some (<[LabelSVMBackupUID := svb_UID svmbackup]>
             (<[LabelSVMBackupTimestamp := timestamp]> ∅)))
       (Some (<[AnnotationSVMBackupID :=
                  NamespacedName (svb_Namespace svmbackup) (svb_Name svmbackup)]> ∅))
       [] 0 None)
    (svb_VMBackupSpec svmbackup) false false None None None.

Definition createVMBackup (svmbackup : ScheduleVMBackup) (timestamp : string) : Act (Obj VMBackup) :=
  vmBackupClient_Create (newVMBackup svmbackup timestamp).

Definition cleanseVMBackup (b : VMBackup) : Act unit :=
  vmBackupClient_Delete (vmb_Namespace b) (vmb_Name b).

(** ** [common.go]: retention *)

(** Errors are collected, and the loop goes on. *)
Fixpoint clearVMBackups (vmbackups : list (Obj VMBackup)) (left : Z) (cleared : gset string)
    (errs : list goerror) : Act (Z * gset string * list goerror) :=
  match vmbackups with
  | [] => mret (left, cleared, errs)
  | b :: vmbackups =>
      if left <=? 0 then mret (left, cleared, errs)
      else if bool_decide (vmb_Name (o_val b) ∈ cleared)
      then clearVMBackups vmbackups left cleared errs
      else
        r ← try (cleanseVMBackup (o_val b));
        clearVMBackups vmbackups (left - 1) ({[vmb_Name (o_val b)]} ∪ cleared)
          (match r with inl _ => errs | inr e => errs ++ [e] end)
  end.

(** What [multierr.Append] returns is dropped, so that [errs] stays nil. *)
Definition gcVMBackups (svmbackup : ScheduleVMBackup) : Act unit :=
  c ← currentVMBackups svmbackup;
  match cur_last c with
  | None => mret tt
  | Some lastVMBackup =>
      if negb (IsReady (o_val lastVMBackup)) && negb (hasError (o_val lastVMBackup))
      then enqueueAfter (svb_Namespace svmbackup) (svb_Name svmbackup) updateInterval
      else if hasError (o_val lastVMBackup) then mret tt
      else
        '(remaining, cleared, _) ←
          clearVMBackups (cur_errVMBackups c)
            (Z.of_nat (length (cur_vmbackups c)) - svb_Retain svmbackup) ∅ [];
        if remaining <=? 0 then mret tt
        else
          clearVMBackups (cur_vmbackups c) remaining cleared [];;
          mret tt
  end.

Definition convertVMBackupToInfo (b : VMBackup) : VMBackupInfo :=
  if IsMissingStatus b then mkVMBackupInfo (vmb_Name b) [] None None
  else
    mkVMBackupInfo (vmb_Name b)
      (map (fun vb => mkVolumeBackupInfo (vlb_Name vb) (vlb_ReadyToUse vb) (vlb_Error vb))
         (GetVolBackups b))
      (vmb_ReadyToUse b) (vmb_Error b).

(** The list made is never nil: a schedule without backups is always written. *)
Definition reconcileVMBackupList (svmbackup : Obj ScheduleVMBackup) : Act unit :=
  c ← currentVMBackups (o_val svmbackup);
  let svmbackupCpy :=
    svb_set_Info (Some (map (fun b => convertVMBackupToInfo (o_val b)) (cur_vmbackups c)))
      (cur_failure c) (o_val svmbackup) in
  if bool_decide (o_val svmbackup = svmbackupCpy) then mret tt
  else svmbackupClient_Update (mkObj (o_rv svmbackup) svmbackupCpy);; mret tt.

Definition multiErr (errs : list goerror) : Act unit :=
  match errs with
  | [] => mret tt
  | e :: _ => throw e
  end.

Definition errOf {A} (r : A + goerror) : list goerror :=
  match r with inl _ => [] | inr e => [e] end.

Definition updateVMBackups (svmbackup : Obj ScheduleVMBackup) : Act unit :=
  r1 ← try (gcVMBackups (o_val svmbackup));
  r2 ← try (reconcileVMBackupList svmbackup);
  multiErr (errOf r1 ++ errOf r2).

(** ** [common.go]: suspending and resuming *)

Definition suspendConditions (now : string) (suspend : bool) (reason msg : string)
    (cs : list Condition) : list Condition :=
  let cs := Cond.setStatus now (if suspend then ConditionTrue else ConditionFalse) cs BackupSuspend in
  let cs := Cond.setReason (if suspend then reason else "") cs BackupSuspend in
  Cond.setMessage now (if suspend then msg else "") cs BackupSuspend.

Definition updateSuspendState (svmbackup : Obj ScheduleVMBackup) (suspend : bool)
    (reason msg : string) : Act unit :=
  cronJob ← getCronJob (o_val svmbackup);
  let cronJobCpy := cj_set (cj_Schedule (o_val cronJob)) (Some suspend) (o_val cronJob) in
  (if bool_decide (o_val cronJob = cronJobCpy) then mret tt
   else cronJobsClient_Update (mkObj (o_rv cronJob) cronJobCpy);; mret tt);;
  now ← timeNow;
  let svmbackupCpy :=
    svb_set_Suspend suspend
      (suspendConditions (time_format (now / second)) suspend reason msg
         (svb_Conditions (o_val svmbackup))) (o_val svmbackup) in
  if bool_decide (o_val svmbackup = svmbackupCpy) then mret tt
  else svmbackupClient_Update (mkObj (o_rv svmbackup) svmbackupCpy);; mret tt.

Definition handleReachMaxFailure (svmbackup : Obj ScheduleVMBackup) (msg : string) : Act unit :=
  updateSuspendState svmbackup true reachMaxFailure msg.
Definition handleLHBackupNotSynced (svmbackup : Obj ScheduleVMBackup) (msg : string) : Act unit :=
  updateSuspendState svmbackup true lhbackupNotSync msg.
Definition handleSuspend (svmbackup : Obj ScheduleVMBackup) : Act unit :=
  updateSuspendState svmbackup true proactiveSuspend proactiveSuspend.

Fixpoint cleanseAll (l : list (Obj VMBackup)) : Act unit :=
  match l with
  | [] => mret tt
  | b :: l => cleanseVMBackup (o_val b);; cleanseAll l
  end.

Definition handleResume (svmbackup : Obj ScheduleVMBackup) : Act unit :=
  c ← currentVMBackups (o_val svmbackup);
  if cur_failure c <? svb_MaxFailure (o_val svmbackup)
  then updateSuspendState svmbackup false "" ""
  else
    cleanseAll (cur_errVMBackups c);;
    throw (ErrText ("svmbackup " +:+ svb_Namespace (o_val svmbackup) +:+ "/"
             +:+ svb_Name (o_val svmbackup) +:+ " retry handle resume")).

Definition updateResumeOrSuspend (svmbackup : Obj ScheduleVMBackup) : Act unit :=
  if Bool.eqb (svb_Suspend (o_val svmbackup)) (svb_Suspended (o_val svmbackup)) then mret tt
  else if svb_Suspend (o_val svmbackup) then handleSuspend svmbackup
  else handleResume svmbackup.

Definition updateCronExpression (svmbackup : ScheduleVMBackup) : Act unit :=
  cronJob ← getCronJob svmbackup;
  if String.eqb (cj_Schedule (o_val cronJob)) (svb_Cron svmbackup) then mret tt
  else
    cronJobsClient_Update
      (mkObj (o_rv cronJob) (cj_set (svb_Cron svmbackup) (cj_Suspend (o_val cronJob)) (o_val cronJob)));;
    mret tt.

(** ** [common.go]: new backups *)

Definition lhBackupInFinalState (b : LHBackup) : bool :=
  negb (str_in (lhb_State b) [BackupStateNew; BackupStatePending; BackupStateInProgress]).

Fixpoint checkVolBackups (svmbackup : Obj ScheduleVMBackup) (vmbackup : VMBackup)
    (volBackups : list VolumeBackup) : Act unit :=
  match volBackups with
  | [] => mret tt
  | vb :: volBackups =>
      match vlb_LonghornBackupName vb with
      | None => checkVolBackups svmbackup vmbackup volBackups
      | Some name =>
          lhBackup ← readCall (fun w => getFrom (sw_lhBackups w) (LonghornSystemNamespace, name));
          if lhBackupInFinalState lhBackup then checkVolBackups svmbackup vmbackup volBackups
          else
            lhbackupClient_Delete (om_Namespace (lhb_meta lhBackup)) (om_Name (lhb_meta lhBackup));;
            match vlb_Name vb with
            | None => lift Panic
            | Some vbName =>
                handleLHBackupNotSynced svmbackup
                  ("vmbackup " +:+ vmb_Namespace vmbackup +:+ "/" +:+ vmb_Name vmbackup +:+ " vb "
                   +:+ vbName +:+ " in error state but lhbackup " +:+ om_Name (lhb_meta lhBackup)
                   +:+ " still in processing, usually caused by backup target not reachable")
            end
      end
  end.

Definition checkLHBackupUnexpectedProcessing (svmbackup : Obj ScheduleVMBackup)
    (vmbackup : VMBackup) : Act unit :=
  if String.eqb (GetType vmbackup) Snapshot then mret tt
  else if negb (IsReady vmbackup) && negb (hasError vmbackup) then mret tt
  else checkVolBackups svmbackup vmbackup (GetVolBackups vmbackup).

Definition newVMBackups (svmbackup : Obj ScheduleVMBackup) (timestamp : string)
  : Act (option (Obj VMBackup)) :=
  c ← currentVMBackups (o_val svmbackup);
  match cur_vmbackups c, cur_last c with
  | [], _ => Some <$> createVMBackup (o_val svmbackup) timestamp
  | _ :: _, last =>
      if svb_MaxFailure (o_val svmbackup) <=? cur_failure c
      then
        handleReachMaxFailure svmbackup
          ("failure backups " +:+ Itoa (cur_failure c) +:+ " reach max tolerance "
           +:+ Itoa (svb_MaxFailure (o_val svmbackup)));;
        mret None
      else
        match last with
        | None => lift Panic
        | Some lastVMBackup =>
            if negb (IsReady (o_val lastVMBackup)) && negb (hasError (o_val lastVMBackup))
            then throw (ErrText ("lastest vm backup " +:+ vmb_Namespace (o_val lastVMBackup) +:+ "/"
                          +:+ vmb_Name (o_val lastVMBackup) +:+ " in progress"))
            else Some <$> createVMBackup (o_val svmbackup) timestamp
        end
  end.

(** ** [svmbackup.go] *)

Definition deleteCronJob (svmbackup : ScheduleVMBackup) : Act unit :=
  r ← try (getCronJob svmbackup);
  match r with
  | inr e => if IsNotFound e then mret tt else throw e
  | inl cronJob =>
      cronJobsClient_Delete (om_Namespace (cj_meta (o_val cronJob))) (om_Name (cj_meta (o_val cronJob)))
  end.

Definition newCronJob (svmbackup : ScheduleVMBackup) (image : string) : CronJob :=
  mkCronJob
    (mkMeta (cronJobName svmbackup) "" cronJobNamespace "" None
       (Some (<[AnnotationSVMBackupID :=
                  NamespacedName (svb_Namespace svmbackup) (svb_Name svmbackup)]> ∅)) [] 0 None)
    (svb_Cron svmbackup) ForbidConcurrent None (cronJobName svmbackup)
    (mkJobSpec (Some cronJobBackoffLimit) None None None
       (mkPodSpec false false false "" (mkAff [] []) [] RestartPolicyNever [] ""
          [mkContainer (cronJobName svmbackup) image [cronJobCmd] [cronJobArg] [] PullIfNotPresent
             None [] []]))
    None.

Definition createCronJob (svmbackup : ScheduleVMBackup) : Act (Obj CronJob) :=
  image ← lift (wrapErr (fun e => ErrText ("failed to get harvester image (): " +:+ error_Error e))
                    (answer (se_image E)));
  cronJobsClient_Create (newCronJob svmbackup image).

(** [defer]: [d] runs however [m] ends. *)
Definition deferred {A} (m : Act A) (d : Act unit) : Act A := fun s =>
  let '(r, s1) := m s in
  match d s1 with
  | (Panic, s2) => (Panic, s2)
  | (_, s2) => (r, s2)
  end.

Definition OnChanged (svmbackup : option (Obj ScheduleVMBackup)) : Act (option (Obj ScheduleVMBackup)) :=
  match svmbackup with
  | None => mret None
  | Some o =>
      match om_DeletionTimestamp (svb_meta (o_val o)) with
      | Some _ => mret (Some o)
      | None =>
          deferred
            (r ← try (getCronJob (o_val o));
             match r with
             | inr e =>
                 if IsNotFound e
                 then
                   createCronJob (o_val o);;
                   enqueue (svb_Namespace (o_val o)) (svb_Name (o_val o));;
                   mret (Some o)
                 else throw e
             | inl _ =>
                 updateResumeOrSuspend o;;
                 updateCronExpression (o_val o);;
                 mret (Some o)
             end)
            (try (updateVMBackups o);; mret tt)
      end
  end.

Definition OnRemove (svmbackup : option (Obj ScheduleVMBackup)) : Act (option (Obj ScheduleVMBackup)) :=
  match svmbackup with
  | None => mret None
  | Some o => deleteCronJob (o_val o);; mret (Some o)
  end.

(** ** [cronjob.go] *)

Definition OnCronjobChanged (cronJob : option (Obj CronJob)) : Act (option (Obj CronJob)) :=
  match cronJob with
  | None => mret None
  | Some o =>
      match om_DeletionTimestamp (cj_meta (o_val o)), cj_LastScheduleTime (o_val o) with
      | Some _, _ | _, None => mret (Some o)
      | None, Some lastScheduleTime =>
          svmbackup ← ResolveSVMBackupRef (cj_meta (o_val o));
          match svmbackup with
          | None => mret None
          | Some svmbackup =>
              now ← timeNow;
              if minute <? timeSub now (lastScheduleTime * second) then mret None
              else
                let timestamp := Format (se_zone E lastScheduleTime) lastScheduleTime in
                r ← try (getVMBackup (o_val svmbackup) timestamp);
                match r with
                | inl _ => mret (Some o)
                | inr e =>
                    if negb (IsNotFound e) then throw e
                    else newVMBackups svmbackup timestamp;; mret None
                end
          end
      end
  end.

(** ** [vmbackup.go] *)

Definition OnVMBackupChange (vmBackup : option (Obj VMBackup)) : Act (option (Obj VMBackup)) :=
  match vmBackup with
  | None => mret None
  | Some o =>
      match om_DeletionTimestamp (vmb_meta (o_val o)) with
      | Some _ => mret None
      | None =>
          svmbackup ← ResolveSVMBackupRef (vmb_meta (o_val o));
          match svmbackup with
          | None => mret None
          | Some svmbackup =>
              let again := enqueue (svb_Namespace (o_val svmbackup)) (svb_Name (o_val svmbackup)) in
              now ← timeNow;
              (if timeSub now (om_CreationTimestamp (vmb_meta (o_val o)) * second) <? reconcileInterval
               then again else mret tt);;
              (if hasError (o_val o) then again else mret tt);;
              (if IsReady (o_val o) then again else mret tt);;
              checkLHBackupUnexpectedProcessing svmbackup (o_val o);;
              mret None
          end
      end
  end.

Definition OnVMBackupRemove (vmBackup : option (Obj VMBackup)) : Act (option (Obj VMBackup)) :=
  match vmBackup with
  | None => mret None
  | Some o =>
      svmbackup ← ResolveSVMBackupRef (vmb_meta (o_val o));
      match svmbackup with
      | None => mret None
      | Some svmbackup =>
          enqueueAfter (svb_Namespace (o_val svmbackup)) (svb_Name (o_val svmbackup)) updateInterval;;
          mret None
      end
  end.

(** ** [lhbackup.go] *)

(** [strings.Replace(s, old, new, 1)] *)
Fixpoint replaceFirst (old new s : string) : string :=
  if HasPrefix s old then new +:+ str_drop (String.length old) s
  else match s with
       | EmptyString => EmptyString
       | String a s => String a (replaceFirst old new s)
       end.

Definition LHSnapToVSCName (lhSnapshotName : string) : string :=
  replaceFirst "snapshot" "snapcontent" lhSnapshotName.

Definition resolveVolSnapshotRef (namespace : string) (controllerRef : OwnerReference)
  : Act (option (Obj VMBackup)) :=
  if negb (String.eqb (or_Kind controllerRef) vmBackupKindName) then mret None
  else
    r ← try (vmBackupCache_Get namespace (or_Name controllerRef));
    match r with
    | inr _ => mret None
    | inl backup =>
        if String.eqb (om_UID (vmb_meta (o_val backup))) (or_UID controllerRef)
        then mret (Some backup) else mret None
    end.

(** Every name is read; one that is nil panics. *)
Definition setLonghornName (snapshot lhName : string) (vb : VolumeBackup) : outcome VolumeBackup :=
  match vlb_Name vb with
  | None => Panic
  | Some name =>
      Ok (if String.eqb name snapshot
          then mkVolumeBackup (vlb_Name vb) (vlb_ReadyToUse vb) (vlb_Error vb) (Some lhName)
          else vb)
  end.

Definition OnLHBackupChanged (lhBackup : option LHBackup) : Act (option LHBackup) :=
  match lhBackup with
  | None => mret None
  | Some b =>
      if bool_decide (om_DeletionTimestamp (lhb_meta b) <> None) || String.eqb (lhb_SnapshotName b) ""
      then mret None
      else
        r ← try (readCall (fun w => getFrom (sw_snapshotContents w) (LHSnapToVSCName (lhb_SnapshotName b))));
        match r with
        | inr e => if negb (IsNotFound e) then throw e else mret None
        | inl ref =>
            snapshot ← readCall (fun w => getFrom (sw_snapshots w) ref);
            match vs_ControllerRef snapshot with
            | None => mret None
            | Some controllerRef =>
                vmBackup ← resolveVolSnapshotRef (om_Namespace (vs_meta snapshot)) controllerRef;
                match vmBackup with
                | None => mret None
                | Some vmBackup =>
                    if negb (vmb_hasBackupTarget (o_val vmBackup)) then mret None
                    else
                      match vmb_VolumeBackups (o_val vmBackup) with
                      | None => mret None
                      | Some l =>
                          l' ← lift (mapM (setLonghornName (om_Name (vs_meta snapshot))
                                             (om_Name (lhb_meta b))) l);
                          if bool_decide (l = l') then mret None
                          else
                            vmBackupClient_Update
                              (mkObj (o_rv vmBackup) (vmb_set_VolumeBackups l' (o_val vmBackup)));;
                            mret None
                      end
                end
            end
        end
  end.
End Env.
