(* ===== verification/ScheduleSafety.v ===== *)
(** What the handlers of scheduled backups ([ScheduleBackup]) keep, whatever calls fail and
    with others who keep to the rules of [astep]: one backup of a schedule at a time, no more
    failures in a row than it tolerates, and never the loss of its last usable backup. *)

From S2P Require Import Prelude K8s ApiServer BackupTypes Calendar ScheduleBackup.

Local Open Scope Z_scope.

(** ** Backups of one schedule, in order *)

Definition inProgress (b : VMBackup) : bool := negb (IsReady b) && negb (hasError b).
Definition marked (b : VMBackup) : bool := bool_decide (om_DeletionTimestamp (vmb_meta b) <> None).

Lemma marked_setDeleted t b : marked (vmb_setDeleted t b) = true.
Proof. apply bool_decide_eq_true. cbn. by destruct (om_DeletionTimestamp _). Qed.

(** What the count of failures looks at. *)
Definition class (b : VMBackup) : bool * bool * bool := (IsMissingStatus b, hasError b, IsReady b).

Definition count (f : Z) (b : VMBackup) : Z :=
  if IsMissingStatus b then f else if IsReady b then 0 else if hasError b then f + 1 else f.

Definition failures : Z -> list VMBackup -> Z := foldl count.

Definition pending (l : list VMBackup) : Z := if existsb inProgress l then 1 else 0.

Definition older (a b : VMBackup) : Prop := stampOf a < stampOf b.

Lemma class_count a b f : class a = class b -> count f a = count f b.
Proof. unfold class, count. by intros [= -> -> ->]. Qed.

Lemma class_inProgress a b : class a = class b -> inProgress a = inProgress b.
Proof. unfold class, inProgress. by intros [= _ -> ->]. Qed.

Lemma count_mono b f g : f <= g -> count f b <= count g b.
Proof. unfold count. repeat case_match; lia. Qed.

Lemma count_nonneg b f : 0 <= f -> 0 <= count f b.
Proof. unfold count. repeat case_match; lia. Qed.

Lemma count_le b f : 0 <= f -> count f b <= f + 1.
Proof. unfold count. repeat case_match; lia. Qed.

Lemma failures_mono l f g : f <= g -> failures f l <= failures g l.
Proof. revert f g. induction l as [|b l IH]; intros f g H; [done|]. by apply IH, count_mono. Qed.

Lemma failures_nonneg l f : 0 <= f -> 0 <= failures f l.
Proof. revert f. induction l as [|b l IH]; intros f H; [done|]. by apply IH, count_nonneg. Qed.

Lemma failures_app l l' f : failures f (l ++ l') = failures (failures f l) l'.
Proof. apply foldl_app. Qed.

Lemma failures_mid l l' f b : failures f (l ++ b :: l') = failures (count (failures f l) b) l'.
Proof. by rewrite failures_app. Qed.

(** After a usable backup the count starts again. *)
Lemma failures_reset l f g b :
  b ∈ l -> IsReady b = true -> IsMissingStatus b = false -> failures f l = failures g l.
Proof.
  intros Hb Hr Hm. apply list_elem_of_split in Hb as (l1 & l2 & ->).
  rewrite !failures_app. cbn. unfold count. by rewrite Hm, Hr.
Qed.

(** The failures that are counted. *)
Definition failed (b : VMBackup) : bool := negb (IsMissingStatus b) && hasError b.

Lemma tally_spec l errs lst f :
  tally l errs lst f =
  (errs ++ List.filter (fun o => failed (o_val o)) l, match last l with Some o => Some o | None => lst end,
   failures f (map o_val l)).
Proof.
  revert errs lst f. induction l as [|o l IH]; intros errs lst f; [by rewrite app_nil_r|].
  cbn [tally map List.filter]. change (failures f (o_val o :: map o_val l)) with
    (failures (count f (o_val o)) (map o_val l)). unfold failed, count.
  assert (match last (o :: l) with Some o => Some o | None => lst end =
          match last l with Some o => Some o | None => Some o end) as ->.
  { destruct l as [|p l]; [done|]. change (last (o :: p :: l)) with (last (p :: l)).
    destruct (last (p :: l)) eqn:E; [done|]. by apply last_None in E. }
  destruct (IsMissingStatus (o_val o)); [by rewrite IH|].
  destruct (hasError (o_val o)), (IsReady (o_val o)); rewrite IH; cbn; by rewrite <- ?app_assoc.
Qed.

(** The invariant on the backups of a schedule that tolerates [cap] failures. *)
Record good (cap : Z) (l : list VMBackup) : Prop := mkGood {
  g_sorted : StronglySorted older l;
  g_done : forall b b', b ∈ l -> b' ∈ l -> inProgress b = true -> b' = b \/ older b' b;
  g_failures : failures 0 l + pending l <= cap;
  g_ready : forall b, b ∈ l -> IsReady b = true -> IsMissingStatus b = false /\ hasError b = false;
  g_marks : forall b, b ∈ l -> marked b = true -> IsReady b = true ->
    exists b', b' ∈ l /\ IsReady b' = true /\ marked b' = false /\ older b b' }.

Lemma pending_le l : 0 <= pending l <= 1.
Proof. unfold pending. destruct (existsb _ _); lia. Qed.

Lemma pending_zero l : (forall b, b ∈ l -> inProgress b = false) -> pending l = 0.
Proof.
  intros H. unfold pending. destruct (existsb _ _) eqn:E; [|done].
  apply existsb_elem in E as (b & Hb & Hp). by rewrite H in Hp.
Qed.

Lemma pending_one l b : b ∈ l -> inProgress b = true -> pending l = 1.
Proof.
  intros Hb Hp. unfold pending. assert (existsb inProgress l = true) as ->; [|done].
  apply existsb_elem. eauto.
Qed.

(** Lists in which an element is replaced. *)
Lemma sorted_mid l1 b l2 :
  StronglySorted older (l1 ++ b :: l2) <->
  StronglySorted older (l1 ++ l2) /\ Forall (fun a => older a b) l1 /\ Forall (older b) l2.
Proof.
  induction l1 as [|a l1 IH]; cbn [app].
  - split; [by intros [??]%StronglySorted_inv|]. intros (? & _ & ?). by constructor.
  - split.
    + intros [Hs Ha]%StronglySorted_inv. apply IH in Hs as (Hs & H1 & H2).
      apply Forall_app in Ha as [Ha1 [Hab Ha2]%Forall_cons]. split_and!; [|by constructor|done].
      constructor; [done|]. by apply Forall_app.
    + intros ([Hs Ha]%StronglySorted_inv & [Hab H1]%Forall_cons & H2). constructor; [by apply IH|].
      apply Forall_app in Ha as [Ha1 Ha2]. apply Forall_app. split; [done|]. by constructor.
Qed.

Lemma sorted_replace l1 b b' l2 :
  stampOf b' = stampOf b ->
  StronglySorted older (l1 ++ b :: l2) -> StronglySorted older (l1 ++ b' :: l2).
Proof. intros E. rewrite !sorted_mid. unfold older. by rewrite E. Qed.

(** A backup in progress is the last. *)
Lemma good_last cap l1 b l2 :
  good cap (l1 ++ b :: l2) -> inProgress b = true -> l2 = [].
Proof.
  intros Hg Hp. destruct l2 as [|c l2]; [done|]. exfalso.
  pose proof (g_sorted _ _ Hg) as (_ & _ & [Hbc _]%Forall_cons)%sorted_mid.
  destruct (g_done _ _ Hg b c) as [->|Hcb]; [set_solver..|done| |]; unfold older in *; lia.
Qed.

Lemma sorted_NoDup l : StronglySorted older l -> NoDup l.
Proof.
  induction 1 as [|a l Hs IH Ha]; constructor; [|done].
  intros Hin. rewrite Forall_forall in Ha. specialize (Ha _ Hin). unfold older in Ha. lia.
Qed.

Lemma good_alone cap l b x :
  good cap (l ++ [b]) -> inProgress b = true -> x ∈ l -> inProgress x = false.
Proof.
  intros Hg Hb Hx. apply not_true_is_false. intros Hp.
  pose proof (g_sorted _ _ Hg) as (_ & Hs & _)%sorted_mid. rewrite Forall_forall in Hs.
  specialize (Hs _ Hx). destruct (g_done _ _ Hg x b) as [->|?]; [set_solver..|done| |];
    unfold older in *; lia.
Qed.

Lemma count_inProgress b f : inProgress b = true -> count f b = f.
Proof.
  intros [?%negb_true_iff ?%negb_true_iff]%andb_true_iff. unfold count.
  destruct (IsMissingStatus b); [done|]. by destruct (IsReady b), (hasError b).
Qed.

(** The status of a backup moves on, or it is marked for deletion: what has ended stays as it
    ended, and a usable backup is marked only if there is a newer one. *)
Lemma good_replace cap l1 b b' l2 :
  good cap (l1 ++ b :: l2) -> stampOf b' = stampOf b ->
  (IsReady b' = true -> IsMissingStatus b' = false /\ hasError b' = false) ->
  (inProgress b = false -> class b' = class b) ->
  (marked b' = true -> IsReady b' = true -> exists c, c ∈ l1 ++ l2 /\ IsReady c = true /\
     marked c = false /\ older b c) ->
  good cap (l1 ++ b' :: l2).
Proof.
  intros Hg Est Hrd Hcl Hmk. pose proof (g_sorted _ _ Hg) as (_ & Hs1 & Hs2)%sorted_mid.
  rewrite Forall_forall in Hs1, Hs2.
  assert (Hin : forall x y, x ∈ l1 ++ y :: l2 <-> x = y \/ x ∈ l1 ++ l2) by set_solver.
  assert (Hne : forall x, x ∈ l1 ++ l2 -> x <> b).
  { intros x [Hx|Hx]%elem_of_app ->; [specialize (Hs1 _ Hx)|specialize (Hs2 _ Hx)];
      unfold older in *; lia. }
  constructor.
  - by eapply sorted_replace, g_sorted.
  - intros x y Hx Hy Hp. apply Hin in Hx as [->|Hx], Hy as [->|Hy]; [by left| | |].
    + right. assert (inProgress b = true) as Hb.
      { destruct (inProgress b) eqn:Eb; [done|].
        by rewrite (class_inProgress _ _ (Hcl eq_refl)), Eb in Hp. }
      rewrite (good_last _ _ _ _ Hg Hb), app_nil_r in Hy. specialize (Hs1 _ Hy).
      unfold older in *. lia.
    + right. destruct (g_done _ _ Hg x b) as [->|H]; [by apply Hin; auto|by apply Hin; auto|done| |].
      * by destruct (Hne _ Hx).
      * unfold older in *. lia.
    + apply (g_done _ _ Hg); [by apply Hin; auto|by apply Hin; auto|done].
  - pose proof (g_failures _ _ Hg) as Hf. rewrite failures_mid in *.
    destruct (inProgress b) eqn:Eb.
    + pose proof (good_last _ _ _ _ Hg Eb) as ->. change (failures ?x []) with x in *.
      rewrite (pending_one _ b), (count_inProgress b) in Hf by (done || set_solver).
      pose proof (failures_nonneg l1 0 ltac:(lia)) as H0.
      destruct (inProgress b') eqn:Eb'.
      * rewrite count_inProgress by done. pose proof (pending_le (l1 ++ [b'])). lia.
      * pose proof (count_le b' _ H0). rewrite pending_zero; [lia|].
        intros x [Hx| ->%list_elem_of_singleton]%elem_of_app; [|done]. by eapply good_alone.
    + rewrite (class_count _ _ _ (Hcl eq_refl)).
      assert (pending (l1 ++ b' :: l2) = pending (l1 ++ b :: l2)) as ->; [|done].
      unfold pending. rewrite !existsb_app. cbn. by rewrite (class_inProgress _ _ (Hcl eq_refl)).
  - intros x [->|Hx]%Hin Hr; [by auto|]. apply (g_ready _ _ Hg); [by apply Hin; auto|done].
  - intros x [->|Hx]%Hin Hm Hr.
    + destruct (Hmk Hm Hr) as (c & Hc & ? & ? & ?). exists c. split_and!; [by apply Hin; auto|done..|].
      unfold older in *. lia.
    + destruct (g_marks _ _ Hg x) as (c & Hc & Hcr & Hcm & Hxc); [by apply Hin; auto|done..|].
      apply Hin in Hc as [->|Hc]; [|exists c; split_and!; [by apply Hin; auto|done..]].
      assert (IsReady b' = true) as Hr'.
      { assert (inProgress b = false) as Hb by (unfold inProgress; by rewrite Hcr).
        pose proof (Hcl Hb) as E. unfold class in E. congruence. }
      destruct (marked b') eqn:Em.
      * destruct (Hmk eq_refl Hr') as (c & Hc & ? & ? & ?).
        exists c. split_and!; [by apply Hin; auto|done..|]. unfold older in *. lia.
      * exists b'. split_and!; [by apply Hin; auto|done..|]. unfold older in *. lia.
Qed.

Lemma failures_remove cap l1 b l2 :
  good cap (l1 ++ b :: l2) -> marked b = true -> failures 0 (l1 ++ l2) <= failures 0 (l1 ++ b :: l2).
Proof.
  intros Hg Hm. pose proof (g_sorted _ _ Hg) as (_ & Hs1 & _)%sorted_mid.
  rewrite failures_app, failures_mid. pose proof (failures_nonneg l1 0 ltac:(lia)) as H0.
  destruct (IsReady b) eqn:Hr.
  - destruct (g_marks _ _ Hg b) as (c & Hc & Hcr & _ & Hbc); [set_solver|done..|].
    assert (c ∈ l2) as Hc2.
    { apply elem_of_app in Hc as [Hc|[->|Hc]%elem_of_cons]; [|unfold older in *; lia|done].
      rewrite Forall_forall in Hs1. specialize (Hs1 _ Hc). unfold older in *. lia. }
    rewrite (failures_reset l2 _ (count (failures 0 l1) b) c); [lia|done..|].
    by apply (g_ready _ _ Hg).
  - apply failures_mono. unfold count. rewrite Hr. repeat case_match; lia.
Qed.

(** A backup marked for deletion goes. *)
Lemma good_remove cap l1 b l2 : good cap (l1 ++ b :: l2) -> marked b = true -> good cap (l1 ++ l2).
Proof.
  intros Hg Hm. pose proof (g_sorted _ _ Hg) as (Hs & Hs1 & Hs2)%sorted_mid.
  assert (Hin : forall x, x ∈ l1 ++ l2 -> x ∈ l1 ++ b :: l2) by set_solver.
  constructor.
  - done.
  - intros x y Hx Hy. apply (g_done _ _ Hg); auto.
  - pose proof (g_failures _ _ Hg) as Hf.
    assert (pending (l1 ++ l2) <= pending (l1 ++ b :: l2)).
    { unfold pending. rewrite !existsb_app. cbn.
      destruct (existsb _ l1), (existsb _ l2), (inProgress b); cbn; lia. }
    pose proof (failures_remove _ _ _ _ Hg Hm). lia.
  - intros x Hx. apply (g_ready _ _ Hg); auto.
  - intros x Hx Hxm Hr. destruct (g_marks _ _ Hg x) as (c & Hc & ? & Hcm & ?); [by auto|done..|].
    exists c. split_and!; [|done..]. assert (c <> b) by (intros ->; congruence). set_solver.
Qed.

(** A new one is created after all others have ended. *)
Lemma good_snoc cap l b :
  good cap l -> (forall x, x ∈ l -> inProgress x = false /\ older x b) ->
  failures 0 l < cap -> inProgress b = true -> marked b = false -> good cap (l ++ [b]).
Proof.
  intros Hg Hl Hf Hb Hm. constructor.
  - apply sorted_mid. rewrite app_nil_r. split_and!; [apply Hg| |constructor].
    apply Forall_forall. intros x Hx. by apply Hl.
  - intros x y [Hx| ->%list_elem_of_singleton]%elem_of_app Hy Hp.
    + apply Hl in Hx as [Hx _]. congruence.
    + apply elem_of_app in Hy as [Hy| ->%list_elem_of_singleton]; [right; by apply Hl|by left].
  - rewrite failures_mid, count_inProgress by done. change (failures ?x []) with x.
    pose proof (pending_le (l ++ [b])). lia.
  - intros x [Hx| ->%list_elem_of_singleton]%elem_of_app Hr; [by apply (g_ready _ _ Hg)|].
    unfold inProgress in Hb. by rewrite Hr in Hb.
  - intros x [Hx| ->%list_elem_of_singleton]%elem_of_app Hxm Hr; [|congruence].
    destruct (g_marks _ _ Hg x) as (c & ? & ? & ? & ?); [done..|]. exists c. set_solver.
Qed.

(** ** Backups in the store *)

Definition vals (ns uid : string) (m : gmap Key (Obj VMBackup)) : list VMBackup :=
  map o_val (backupsOf ns uid m).

Definition mine (ns uid : string) (b : VMBackup) : list VMBackup :=
  if ofSchedule ns uid b then [b] else [].

Lemma vals_insert ns uid m k o :
  m !! k = None -> vals ns uid (<[k := o]> m) ≡ₚ mine ns uid (o_val o) ++ vals ns uid m.
Proof.
  intros Hk. unfold vals, backupsOf, mine.
  rewrite (filter_perm _ _ _ (Permutation_map snd (map_to_list_insert m k o Hk))). cbn.
  by destruct (ofSchedule ns uid (o_val o)).
Qed.

Lemma vals_split ns uid m k o :
  m !! k = Some o -> vals ns uid m ≡ₚ mine ns uid (o_val o) ++ vals ns uid (delete k m).
Proof.
  intros Hk. rewrite <- (insert_delete_id m k o Hk) at 1. apply vals_insert, lookup_delete_eq.
Qed.

Lemma vals_elem ns uid m b :
  b ∈ vals ns uid m <-> exists k o, m !! k = Some o /\ o_val o = b /\ ofSchedule ns uid b = true.
Proof.
  unfold vals, backupsOf. rewrite list_elem_of_In, in_map_iff. split.
  - intros (o & <- & [(p & <- & Hp)%in_map_iff Ho]%filter_In). destruct p as [k o].
    apply list_elem_of_In, elem_of_map_to_list in Hp. eauto.
  - intros (k & o & Hk & <- & Ho). exists o. split; [done|]. apply filter_In. split; [|done].
    apply in_map_iff. exists (k, o). split; [done|]. by apply list_elem_of_In, elem_of_map_to_list.
Qed.

(** Sorted lists with the same elements are the same. *)
Lemma sorted_unique (l l' : list VMBackup) :
  StronglySorted older l -> StronglySorted (fun a b => stampOf a <= stampOf b) l' ->
  l' ≡ₚ l -> l' = l.
Proof.
  intros Hl Hl' Hp. revert l Hl Hp.
  induction Hl' as [|a l' Hs' IH Ha]; intros l Hl Hp; [by apply Permutation_nil in Hp|].
  destruct l as [|b l]; [by apply Permutation_sym, Permutation_nil_cons in Hp|].
  assert (a = b) as ->.
  { apply StronglySorted_inv in Hl as [_ Hb]. rewrite Forall_forall in Ha, Hb.
    assert (a ∈ b :: l) as [->|Hal]%elem_of_cons by (rewrite <- Hp; set_solver); [done|].
    assert (b ∈ a :: l') as [->|Hbl]%elem_of_cons by (rewrite Hp; set_solver); [done|].
    specialize (Ha _ Hbl). specialize (Hb _ Hal). unfold older in Hb. lia. }
  f_equal. apply StronglySorted_inv in Hl as [Hl _]. apply IH; [done|].
  by apply Permutation_cons_inv in Hp.
Qed.

Lemma older_le l : StronglySorted older l -> StronglySorted (fun a b => stampOf a <= stampOf b) l.
Proof.
  induction 1 as [|a l Hs IH Ha]; constructor; [done|]. eapply Forall_impl; [exact Ha|].
  unfold older. lia.
Qed.

(** ** What may happen to the world *)

Definition named (uid name : string) : bool :=
  HasPrefix name (svmbackupPrefix +:+ "-" +:+ uid +:+ "-").

Section World.
(** The identifier of the schedule of a name, and the failures a schedule tolerates. *)
Context (uidOf : Key -> string) (cap : string -> string -> Z).

Definition svbKey (s : ScheduleVMBackup) : Key := (svb_Namespace s, svb_Name s).

Definition valid (s : ScheduleVMBackup) : Prop :=
  svb_UID s = uidOf (svbKey s) /\ 1 <= svb_Retain s /\
  1 <= svb_MaxFailure s <= cap (svb_Namespace s) (svb_UID s).

Abbreviation objs w := (st_objs (sw_vmBackups w)) (only parsing).

(** A usable backup that nobody has marked, newer than [t]. *)
Definition covered (ns uid : string) (t : Z) (w : SWorld) : Prop :=
  exists k o, objs w !! k = Some o /\ ofSchedule ns uid (o_val o) = true /\
    IsReady (o_val o) = true /\ marked (o_val o) = false /\ t < stampOf (o_val o).

(** A schedule may start a backup for [t]: all others have ended before, and fewer of them
    have failed in a row than it tolerates. *)
Definition room (ns uid : string) (t : Z) (w : SWorld) : Prop :=
  exists l, l ≡ₚ vals ns uid (objs w) /\ StronglySorted older l /\
    failures 0 l < cap ns uid /\
    forall b, b ∈ l -> inProgress b = false /\ stampOf b < t.

(** A step of the handlers, or of others who keep to these rules: a backup that has ended
    stays as it ended; a usable backup of a schedule is deleted only while a newer usable one
    is there that is not being deleted (the webhook of backups would let a user delete the
    last one as well); a backup of a schedule is created only when there is room for it, and
    by the handler alone for the schedule [busy] it works on. *)
Inductive astep (busy : option (string * string)) (w : SWorld) : SWorld -> Prop :=
| as_rest w' :
    sw_vmBackups w' = sw_vmBackups w ->
    store_ext (sw_schedules w) (sw_schedules w') -> store_ext (sw_cronJobs w) (sw_cronJobs w') ->
    (forall k o, st_objs (sw_schedules w') !! k = Some o ->
       st_objs (sw_schedules w) !! k = Some o \/ valid (o_val o) /\ k = svbKey (o_val o)) ->
    astep busy w w'
| as_change (k : Key) o b :
    objs w !! k = Some o ->
    om_Name (vmb_meta b) = om_Name (vmb_meta (o_val o)) ->
    om_Namespace (vmb_meta b) = om_Namespace (vmb_meta (o_val o)) ->
    om_Labels (vmb_meta b) = om_Labels (vmb_meta (o_val o)) ->
    (marked (o_val o) = true -> marked b = true) ->
    (IsReady b = true -> forall ns uid, ofSchedule ns uid b = true ->
       IsMissingStatus b = false /\ hasError b = false) ->
    (inProgress (o_val o) = false -> class b = class (o_val o)) ->
    (marked b = true -> IsReady b = true -> forall ns uid, ofSchedule ns uid b = true ->
       covered ns uid (stampOf b) w) ->
    astep busy w (sw_set_vmBackups
      (mkStore (st_rv (sw_vmBackups w) + 1) (<[k := mkObj (st_rv (sw_vmBackups w) + 1) b]> (objs w))) w)
| as_vanish (k : Key) o :
    objs w !! k = Some o -> marked (o_val o) = true ->
    astep busy w (sw_set_vmBackups (mkStore (st_rv (sw_vmBackups w)) (delete k (objs w))) w)
| as_create (k : Key) b :
    objs w !! k = None -> k = (vmb_Namespace b, vmb_Name b) ->
    (forall ns uid, busy = Some (ns, uid) -> k.1 = ns -> named uid k.2 = false) ->
    (forall ns uid, ofSchedule ns uid b = true ->
       named uid k.2 = true /\ inProgress b = true /\ marked b = false /\ room ns uid (stampOf b) w) ->
    astep busy w (sw_set_vmBackups
      (mkStore (st_rv (sw_vmBackups w) + 1) (<[k := mkObj (st_rv (sw_vmBackups w) + 1) b]> (objs w))) w).

Record orderly (w : SWorld) : Prop := mkOrderly {
  sn_wf : store_wf (sw_schedules w) /\ store_wf (sw_cronJobs w) /\ store_wf (sw_vmBackups w);
  sn_schedules : forall k o, st_objs (sw_schedules w) !! k = Some o ->
    valid (o_val o) /\ k = svbKey (o_val o);
  sn_keys : forall k o, objs w !! k = Some o -> k = (vmb_Namespace (o_val o), vmb_Name (o_val o));
  sn_named : forall k o ns uid, objs w !! k = Some o -> ofSchedule ns uid (o_val o) = true ->
    named uid k.2 = true;
  sn_good : forall ns uid, exists l, l ≡ₚ vals ns uid (objs w) /\ good (cap ns uid) l }.

(** Objects keep the labels they are found by. *)
Lemma ofSchedule_meta ns uid b b' :
  om_Namespace (vmb_meta b) = om_Namespace (vmb_meta b') ->
  om_Labels (vmb_meta b) = om_Labels (vmb_meta b') -> ofSchedule ns uid b = ofSchedule ns uid b'.
Proof. unfold ofSchedule, vmb_Namespace. by intros -> ->. Qed.

Lemma stampOf_meta b b' :
  om_Labels (vmb_meta b) = om_Labels (vmb_meta b') -> stampOf b = stampOf b'.
Proof. unfold stampOf. by intros ->. Qed.

Lemma astep_ext busy w w' : astep busy w w' ->
  store_ext (sw_schedules w) (sw_schedules w') /\ store_ext (sw_cronJobs w) (sw_cronJobs w') /\
  store_ext (sw_vmBackups w) (sw_vmBackups w').
Proof.
  intros []; split_and!; try done; try reflexivity.
  - by match goal with H : sw_vmBackups _ = _ |- _ => rewrite H end.
  - cbn. apply (written_ext (fun _ new => new) k o b).
  - intros Hwf. split_and!; cbn; [|lia|]; intros k' o' Hk'; cbn in Hk';
      apply lookup_delete_Some in Hk' as [_ Hk']; [|by left]. by eapply Hwf.
  - intros Hwf. split_and!; cbn; [|lia|]; intros k' o' Hk'; cbn in Hk';
      apply lookup_insert_Some in Hk' as [[<- <-]|[_ Hk']]; cbn; [lia| |right; lia|by left].
    specialize (Hwf _ _ Hk'). lia.
Qed.

(** The good list after the object at [k] was replaced, removed, or added. *)
Lemma good_split ns uid m k o l c :
  m !! k = Some o -> ofSchedule ns uid (o_val o) = true -> l ≡ₚ vals ns uid m -> good c l ->
  exists l1 l2, l = l1 ++ o_val o :: l2 /\ l1 ++ l2 ≡ₚ vals ns uid (delete k m).
Proof.
  intros Hk Ho Hl Hg. rewrite (vals_split _ _ _ _ _ Hk) in Hl. unfold mine in Hl. rewrite Ho in Hl.
  assert (o_val o ∈ l) as (l1 & l2 & ->)%list_elem_of_split by (rewrite Hl; set_solver).
  exists l1, l2. split; [done|]. rewrite <- Permutation_middle in Hl.
  by apply Permutation_cons_inv in Hl.
Qed.

Lemma vals_replace ns uid m k o o' :
  m !! k = Some o -> vals ns uid (<[k := o']> m) ≡ₚ mine ns uid (o_val o') ++ vals ns uid (delete k m).
Proof.
  intros Hk. rewrite <- insert_delete_eq. apply vals_insert, lookup_delete_eq.
Qed.

Lemma vals_other ns uid m k o :
  m !! k = Some o -> ofSchedule ns uid (o_val o) = false ->
  vals ns uid m ≡ₚ vals ns uid (delete k m).
Proof.
  intros Hk Ho. rewrite (vals_split _ _ _ _ _ Hk). unfold mine. by rewrite Ho.
Qed.

(** A usable backup that covers [b] is another one of the same list. *)
Lemma covered_elem ns uid w k o l1 l2 :
  objs w !! k = Some o -> l1 ++ l2 ≡ₚ vals ns uid (delete k (objs w)) ->
  covered ns uid (stampOf (o_val o)) w ->
  exists c, c ∈ l1 ++ l2 /\ IsReady c = true /\ marked c = false /\ older (o_val o) c.
Proof.
  intros Hk Hl (k' & o' & Hk' & Ho' & Hr & Hm & Hlt). exists (o_val o'). split_and!; [|done..].
  rewrite Hl. apply vals_elem. exists k', o'. split_and!; [|done..].
  apply lookup_delete_Some. split; [|done]. intros <-. rewrite Hk in Hk'. injection Hk' as <-. lia.
Qed.

Lemma change_lists ns uid m k o b rv c l :
  m !! k = Some o ->
  om_Namespace (vmb_meta b) = om_Namespace (vmb_meta (o_val o)) ->
  om_Labels (vmb_meta b) = om_Labels (vmb_meta (o_val o)) ->
  l ≡ₚ vals ns uid m -> good c l ->
  (ofSchedule ns uid b = true /\ exists l1 l2, l = l1 ++ o_val o :: l2 /\
     l1 ++ l2 ≡ₚ vals ns uid (delete k m) /\
     l1 ++ b :: l2 ≡ₚ vals ns uid (<[k := mkObj rv b]> m)) \/
  (ofSchedule ns uid b = false /\ l ≡ₚ vals ns uid (<[k := mkObj rv b]> m)).
Proof.
  intros Hk Hns Hlb Hl Hg. pose proof (ofSchedule_meta ns uid _ _ Hns Hlb) as Hof.
  pose proof (vals_replace ns uid m k o (mkObj rv b) Hk) as Hv. unfold mine in Hv. cbn [o_val] in Hv.
  destruct (ofSchedule ns uid b) eqn:Eb; [left|right].
  - split; [done|]. destruct (good_split ns uid m k o l c) as (l1 & l2 & -> & Hd); [done..|].
    exists l1, l2. split_and!; [done..|]. by rewrite <- Permutation_middle, Hd, Hv.
  - split; [done|]. by rewrite Hl, (vals_other _ _ _ _ _ Hk).
Qed.

Lemma vanish_lists ns uid m k o c l :
  m !! k = Some o -> l ≡ₚ vals ns uid m -> good c l ->
  (exists l1 l2, l = l1 ++ o_val o :: l2 /\ l1 ++ l2 ≡ₚ vals ns uid (delete k m)) \/
  l ≡ₚ vals ns uid (delete k m).
Proof.
  intros Hk Hl Hg. destruct (ofSchedule ns uid (o_val o)) eqn:Eo; [left|right].
  - by eapply good_split.
  - by rewrite Hl, (vals_other _ _ _ _ _ Hk).
Qed.

Lemma orderly_astep busy w w' : orderly w -> astep busy w w' -> orderly w'.
Proof.
  intros Hs Hst. destruct (astep_ext _ _ _ Hst) as (H1 & H2 & H3).
  destruct (sn_wf _ Hs) as (Hw1 & Hw2 & Hw3). constructor.
  { split_and!; [by destruct (H1 Hw1)|by destruct (H2 Hw2)|by destruct (H3 Hw3)]. }
  all: clear H1 H2 H3 Hw1 Hw2 Hw3; destruct Hst; cbn in *.
  - intros k o [Ho|Ho]%H2; [by apply (sn_schedules _ Hs)|done].
  - apply (sn_schedules _ Hs).
  - apply (sn_schedules _ Hs).
  - apply (sn_schedules _ Hs).
  - rewrite H. apply (sn_keys _ Hs).
  - intros k' o' [[<- <-]|[_ Hk']]%lookup_insert_Some; [|by apply (sn_keys _ Hs)].
    rewrite (sn_keys _ Hs _ _ H). unfold vmb_Namespace, vmb_Name. cbn. congruence.
  - intros k' o' [_ Hk']%lookup_delete_Some. by apply (sn_keys _ Hs).
  - intros k' o' [[<- <-]|[_ Hk']]%lookup_insert_Some; [done|]. by apply (sn_keys _ Hs).
  - rewrite H. apply (sn_named _ Hs).
  - intros k' o' ns uid [[<- <-]|[_ Hk']]%lookup_insert_Some Hof; [|by eapply (sn_named _ Hs)].
    eapply (sn_named _ Hs); [exact H|]. cbn in Hof. by rewrite <- (ofSchedule_meta _ _ _ _ H1 H2).
  - intros k' o' ns uid [_ Hk']%lookup_delete_Some. by apply (sn_named _ Hs).
  - intros k' o' ns uid [[<- <-]|[_ Hk']]%lookup_insert_Some Hof; [by eapply H2|].
    by eapply (sn_named _ Hs).
  - rewrite H. apply (sn_good _ Hs).
  - intros ns uid. destruct (sn_good _ Hs ns uid) as (l & Hl & Hg).
    destruct (change_lists ns uid _ k o b (st_rv (sw_vmBackups w) + 1) _ l H H1 H2 Hl Hg)
      as [(Hof & l1 & l2 & -> & Hd & Hn)|[_ Hn]]; [|by exists l].
    exists (l1 ++ b :: l2). split; [done|].
    eapply good_replace; [exact Hg|by apply stampOf_meta|by eauto|done|].
    intros Hm Hr. eapply (covered_elem ns uid w k o); [done..|].
    rewrite <- (stampOf_meta _ _ H2). by apply H6.
  - intros ns uid. destruct (sn_good _ Hs ns uid) as (l & Hl & Hg).
    destruct (vanish_lists ns uid _ k o _ l H Hl Hg) as [(l1 & l2 & -> & Hd)|Hd]; [|by exists l].
    exists (l1 ++ l2). split; [done|]. by eapply good_remove.
  - intros ns uid. destruct (sn_good _ Hs ns uid) as (l & Hl & Hg).
    pose proof (vals_insert ns uid _ k (mkObj (st_rv (sw_vmBackups w) + 1) b) H) as Hv.
    unfold mine in Hv. cbn [o_val] in Hv. destruct (ofSchedule ns uid b) eqn:Eb.
    + destruct (H2 _ _ Eb) as (_ & Hp & Hm & l' & Hl' & Hs' & Hf & Hall).
      assert (l' = l) as ->.
      { apply sorted_unique; [apply Hg|by apply older_le|by rewrite Hl', Hl]. }
      exists (l ++ [b]). split; [rewrite Hv, <- Hl; by rewrite Permutation_app_comm|].
      by apply good_snoc.
    + exists l. by rewrite Hv.
Qed.

Lemma orderly_steps busy w w' : orderly w -> rtc (astep busy) w w' -> orderly w'.
Proof. intros Hw Hst. induction Hst; eauto using orderly_astep. Qed.

Definition scheduleRegime (busy : option (string * string)) : Regime SWorld :=
  {| may := rtc (astep busy); sane := orderly; may_preorder := _; sane_may := orderly_steps busy |}.

(** Less is kept from the others when nothing is busy. *)
Lemma astep_free busy w w' : astep busy w w' -> astep None w w'.
Proof.
  intros []; [by apply as_rest|by eapply as_change|by eapply as_vanish|]. by apply as_create.
Qed.

Section Busy.
Context (busy : option (string * string)).
#[local] Instance busyRegime : Regime SWorld := scheduleRegime busy.

(** What one step leaves alone is stable. *)
Lemma stable_step (K : SWorld -> Prop) :
  (forall w w', orderly w -> K w -> astep busy w w' -> K w') -> stable K.
Proof.
  intros HK w w' Hw Hk Hst. cbn in *. induction Hst as [|w w1 w' H _ IH]; [done|].
  apply IH; [by eapply orderly_astep|by eapply HK].
Qed.

Lemma stable_covered ns uid t : stable (covered ns uid t).
Proof.
  apply stable_step. intros w w' Hw (k & o & Hk & Hof & Hr & Hm & Hlt) Hst.
  destruct Hst as [w' E|k' o' b Hk' _ Hns Hlb _ _ Hcl Hmk|k' o' Hk' Hm'|k' b Hk']; cbn in *.
  - exists k, o. cbn. by rewrite E.
  - destruct (decide (k' = k)) as [->|Hne].
    2:{ exists k, o. cbn. by rewrite lookup_insert_ne. }
    rewrite Hk in Hk'. injection Hk' as <-.
    assert (inProgress (o_val o) = false) as Hp by (unfold inProgress; by rewrite Hr).
    assert (IsReady b = true) as Hrb by (pose proof (Hcl Hp) as E; unfold class in E; congruence).
    pose proof (ofSchedule_meta ns uid _ _ Hns Hlb) as Hofb. rewrite Hof in Hofb.
    pose proof (stampOf_meta _ _ Hlb) as Hst. destruct (marked b) eqn:Emb.
    + destruct (Hmk eq_refl Hrb ns uid Hofb) as (k2 & o2 & Hk2 & ? & ? & ? & ?).
      exists k2, o2. cbn. rewrite lookup_insert_ne; [split_and!; [done..|lia]|].
      intros <-. rewrite Hk in Hk2. injection Hk2 as <-. lia.
    + exists k, (mkObj (st_rv (sw_vmBackups w) + 1) b). cbn. rewrite lookup_insert_eq.
      split_and!; [done..|lia].
  - exists k, o. cbn. rewrite lookup_delete_ne; [done|]. intros ->. rewrite Hk in Hk'. congruence.
  - exists k, o. cbn. rewrite lookup_insert_ne; [done|]. intros ->. congruence.
Qed.

(** An object found under a name of the busy schedule stays what it is. *)
Definition still (k : Key) (b : VMBackup) (w : SWorld) : Prop :=
  forall o, objs w !! k = Some o ->
    om_Namespace (vmb_meta (o_val o)) = om_Namespace (vmb_meta b) /\
    om_Labels (vmb_meta (o_val o)) = om_Labels (vmb_meta b) /\
    (inProgress b = false -> class (o_val o) = class b).

Lemma stable_still ns uid k b :
  busy = Some (ns, uid) -> k.1 = ns -> named uid k.2 = true -> stable (still k b).
Proof.
  intros Hb Hns Hn. apply stable_step. intros w w' Hw Hk Hst o Ho.
  destruct Hst as [w' E|k' o' b' Hk' _ Hns' Hlb' _ _ Hcl _|k' o' Hk' _|k' b' Hk' _ Hfree]; cbn in *.
  - rewrite E in Ho. by apply Hk.
  - apply lookup_insert_Some in Ho as [[-> <-]|[_ Ho]]; [|by apply Hk]. cbn.
    destruct (Hk _ Hk') as (H1 & H2 & H3). split_and!; [congruence..|].
    intros Hp. specialize (H3 Hp). rewrite <- H3. apply Hcl. by rewrite (class_inProgress _ _ H3).
  - apply lookup_delete_Some in Ho as [_ Ho]. by apply Hk.
  - apply lookup_insert_Some in Ho as [[-> <-]|[_ Ho]]; [|by apply Hk].
    by rewrite (Hfree _ _ Hb Hns) in Hn.
Qed.

(** What the others create belongs to other schedules. *)
Lemma created_elsewhere ns uid (k : Key) b (P : Prop) :
  busy = Some (ns, uid) -> k = (vmb_Namespace b, vmb_Name b) ->
  (forall ns uid, busy = Some (ns, uid) -> k.1 = ns -> named uid k.2 = false) ->
  (forall ns uid, ofSchedule ns uid b = true -> named uid k.2 = true /\ P) ->
  ofSchedule ns uid b = false.
Proof.
  intros Hb Ek Hfree Hnew. destruct (ofSchedule ns uid b) eqn:Eb; [|done]. exfalso.
  destruct (Hnew _ _ Eb) as (Hn & _). rewrite (Hfree _ _ Hb) in Hn; [done|]. rewrite Ek. cbn.
  unfold ofSchedule in Eb. by apply andb_true_iff in Eb as [->%String.eqb_eq _].
Qed.

Lemma stable_room ns uid t : busy = Some (ns, uid) -> stable (room ns uid t).
Proof.
  intros Hb. apply stable_step. intros w w' Hw (l & Hl & Hs & Hf & Hall) Hst.
  destruct (sn_good _ Hw ns uid) as (l' & Hl' & Hg).
  assert (l' = l) as -> by (apply sorted_unique; [done|by apply older_le, Hg|by rewrite Hl', Hl]).
  destruct Hst as [w' E|k o b Hk _ Hns Hlb _ _ Hcl _|k o Hk Hm|k b Hk Ek Hfree Hnew]; cbn in *.
  - exists l. by rewrite E.
  - destruct (change_lists ns uid _ k o b (st_rv (sw_vmBackups w) + 1) _ l Hk Hns Hlb Hl Hg)
      as [(Hof & l1 & l2 & -> & _ & Hn)|[_ Hn]]; [|by exists l].
    destruct (Hall (o_val o)) as [Hp Hlt]; [set_solver|]. specialize (Hcl Hp).
    exists (l1 ++ b :: l2). split_and!; [done| | |].
    + eapply sorted_replace; [by apply stampOf_meta|done].
    + rewrite failures_mid in *. by rewrite (class_count _ _ _ Hcl).
    + intros x [Hx|[->|Hx]%elem_of_cons]%elem_of_app; [apply Hall; set_solver| |apply Hall; set_solver].
      by rewrite (class_inProgress _ _ Hcl), (stampOf_meta _ _ Hlb).
  - destruct (vanish_lists ns uid _ k o _ l Hk Hl Hg) as [(l1 & l2 & -> & Hd)|Hd]; [|by exists l].
    exists (l1 ++ l2). split_and!; [done|by apply sorted_mid in Hs as (? & _)| |].
    + enough (failures 0 (l1 ++ l2) <= failures 0 (l1 ++ o_val o :: l2)) by lia.
      by eapply failures_remove.
    + intros x Hx. apply Hall. set_solver.
  - exists l. split_and!; [|done..]. cbn. etransitivity; [exact Hl|symmetry].
    etransitivity; [by apply vals_insert|]. unfold mine. cbn [o_val].
    by rewrite (created_elsewhere ns uid k b True) by (done || naive_solver).
Qed.

(** All backups of the busy schedule are for earlier times, but for the one of that time and
    name. *)
Definition upTo (ns uid : string) (t : Z) (name : string) (w : SWorld) : Prop :=
  forall b, b ∈ vals ns uid (objs w) -> stampOf b < t \/ vmb_Name b = name /\ stampOf b = t.

Lemma stable_upTo ns uid t name : busy = Some (ns, uid) -> stable (upTo ns uid t name).
Proof.
  intros Hb. apply stable_step. intros w w' Hw Hk Hst b (k & o & Ho & <- & Hof)%vals_elem.
  destruct Hst as [w' E|k' o' b' Hk' Hnm Hns Hlb _ _ _ _|k' o' Hk' _|k' b' Hk' Ek Hfree Hnew]; cbn in *.
  - rewrite E in Ho. apply Hk, vals_elem. eauto.
  - apply lookup_insert_Some in Ho as [[-> <-]|[_ Ho]]; [|apply Hk, vals_elem; eauto]. cbn in *.
    rewrite (stampOf_meta _ _ Hlb). unfold vmb_Name. rewrite Hnm. apply Hk, vals_elem.
    exists k, o'. by rewrite <- (ofSchedule_meta _ _ _ _ Hns Hlb).
  - apply lookup_delete_Some in Ho as [_ Ho]. apply Hk, vals_elem. eauto.
  - apply lookup_insert_Some in Ho as [[-> <-]|[_ Ho]]; [|apply Hk, vals_elem; eauto]. cbn in *.
    by rewrite (created_elsewhere ns uid k b' True) in Hof by (done || naive_solver).
Qed.

(** ** Steps of single calls *)

Lemma may_rest w w' :
  sw_vmBackups w' = sw_vmBackups w ->
  store_ext (sw_schedules w) (sw_schedules w') -> store_ext (sw_cronJobs w) (sw_cronJobs w') ->
  (forall k o, st_objs (sw_schedules w') !! k = Some o ->
     st_objs (sw_schedules w) !! k = Some o \/ valid (o_val o) /\ k = svbKey (o_val o)) ->
  may w w'.
Proof. intros. apply rtc_once. by apply as_rest. Qed.

Lemma may_same w w' :
  sw_vmBackups w' = sw_vmBackups w -> sw_schedules w' = sw_schedules w ->
  sw_cronJobs w' = sw_cronJobs w -> may w w'.
Proof. intros E1 E2 E3. apply may_rest; [done|..]; rewrite ?E2, ?E3; auto; reflexivity. Qed.

Lemma may_cronJobs w st :
  store_ext (sw_cronJobs w) st -> may w (sw_set_cronJobs st w).
Proof. intros H. apply may_rest; [done|reflexivity|done|auto]. Qed.

(** A deletion is allowed when a usable backup is covered by a newer one. *)
Lemma obeys_delete K ns name b uid s :
  stable K -> busy = Some (ns, uid) -> named uid name = true -> ofSchedule ns uid b = true ->
  inProgress b = false ->
  (forall w, orderly w -> K w -> still (ns, name) b w /\
     (IsReady b = true -> covered ns uid (stampOf b) w)) ->
  obeys K (vmBackupClient_Delete ns name) s.
Proof.
  intros HK Hb Hn Hof Hp Hd. apply obeys_call; [done|]. intros w Hw Hk.
  destruct (Hd w Hw Hk) as [Hst Hc]. unfold markDeleted.
  destruct (objs w !! (ns, name)) as [o|] eqn:Ho.
  2:{ by apply may_same. }
  destruct (Hst _ Ho) as (Ens & Elb & Ecl). specialize (Ecl Hp).
  assert (Hcov : IsReady (o_val o) = true -> forall ns' uid', ofSchedule ns' uid' (o_val o) = true ->
    covered ns' uid' (stampOf (o_val o)) w).
  { intros Hr ns' uid' Ho'. rewrite (ofSchedule_meta _ _ _ _ Ens Elb) in Ho'.
    assert (ns' = ns /\ uid' = uid) as [-> ->].
    { unfold ofSchedule in *. apply andb_true_iff in Ho' as [E1%String.eqb_eq E2%bool_decide_eq_true],
        Hof as [E3%String.eqb_eq E4%bool_decide_eq_true]. split; congruence. }
    rewrite (stampOf_meta _ _ Elb). apply Hc. unfold class in Ecl. congruence. }
  apply rtc_once, (as_change _ w (ns, name) o (vmb_setDeleted (sw_now w / second) (o_val o))); try done.
  - intros _. apply marked_setDeleted.
  - intros Hr _ _ _. destruct (sn_good _ Hw ns uid) as (l & Hl & Hg).
    change (IsMissingStatus (o_val o) = false /\ hasError (o_val o) = false).
    apply (g_ready _ _ Hg); [|done].
    rewrite Hl. apply vals_elem. exists (ns, name), o. split_and!; [done..|].
    by rewrite (ofSchedule_meta _ _ _ _ Ens Elb).
Qed.

(** ** What a listing tells *)

Context {SS : SliceSort}.

Record describes (s : ScheduleVMBackup) (c : Current) (w : SWorld) : Prop := mkDescribes {
  ds_perm : map o_val (cur_vmbackups c) ≡ₚ vals (svb_Namespace s) (svb_UID s) (objs w);
  ds_good : good (cap (svb_Namespace s) (svb_UID s)) (map o_val (cur_vmbackups c));
  ds_errs : cur_errVMBackups c = List.filter (fun o => failed (o_val o)) (cur_vmbackups c);
  ds_last : cur_last c = last (cur_vmbackups c);
  ds_failure : cur_failure c = failures 0 (map o_val (cur_vmbackups c));
  ds_stored : forall o, o ∈ cur_vmbackups c ->
    objs w !! (vmb_Namespace (o_val o), vmb_Name (o_val o)) = Some o /\
    ofSchedule (svb_Namespace s) (svb_UID s) (o_val o) = true /\
    named (svb_UID s) (vmb_Name (o_val o)) = true }.

Definition listed (s : ScheduleVMBackup) (l : list (Obj VMBackup)) : Current :=
  let vmbackups := sortSlice (fun a b => stampOf (o_val a) <? stampOf (o_val b)) l in
  let '(errs, last, failure) := tally vmbackups [] None 0 in
  mkCurrent vmbackups errs last failure.

Lemma describes_listed s w :
  orderly w -> describes s (listed s (backupsOf (svb_Namespace s) (svb_UID s) (objs w))) w.
Proof.
  intros Hw. unfold listed. rewrite tally_spec. cbn.
  set (l := sortSlice _ _). destruct (sn_good _ Hw (svb_Namespace s) (svb_UID s)) as (g & Hg & Hgood).
  assert (l ≡ₚ backupsOf (svb_Namespace s) (svb_UID s) (objs w)) as Hl by apply sortSlice_perm.
  assert (map o_val l ≡ₚ vals (svb_Namespace s) (svb_UID s) (objs w)) as Hv
    by (unfold vals; by rewrite Hl).
  assert (map o_val l = g) as Eg.
  { apply sorted_unique; [apply Hgood| |by rewrite Hv, Hg]. unfold l. clear.
    pose proof (sortSlice_sorted (fun o => stampOf (o_val o)) (backupsOf (svb_Namespace s) (svb_UID s) (objs w))) as H.
    induction H as [|a l' Hs IH Ha]; cbn; constructor; [done|]. by apply Forall_fmap. }
  constructor; cbn; [done|by rewrite Eg|done|by destruct (last l)|done|].
  intros o Ho. rewrite Hl in Ho. unfold backupsOf in Ho.
  apply filter_elem in Ho as [Ho Hof]. apply list_elem_of_In, in_map_iff in Ho as ([k o'] & E & Hk).
  cbn in E. subst o'. apply list_elem_of_In, elem_of_map_to_list in Hk.
  pose proof (sn_keys _ Hw _ _ Hk) as ->. split_and!; [done..|].
  exact (sn_named _ Hw _ _ _ _ Hk Hof).
Qed.

Lemma obeys_currentVMBackups K s sy : stable K -> obeys K (currentVMBackups s) sy.
Proof.
  intros HK. unfold currentVMBackups. apply obeys_then; [done|apply obeys_readCall|]. intros l s'.
  destruct (tally _ _ _ _) as [[??]?]. apply obeys_ret.
Qed.

Lemma current_Ok K s sy c sy' :
  stable K -> currentVMBackups s sy = (Ok c, sy') -> relies may (sys_turns sy) ->
  orderly (sys_world sy) -> K (sys_world sy) -> describes s c (sys_world sy').
Proof.
  intros HK Hr Hs Hw Hk. unfold currentVMBackups in Hr. apply bind_Ok in Hr as (l & s1 & Hl & Hr).
  assert (c = listed s l /\ sy' = s1) as [-> ->].
  { unfold listed. destruct (tally _ _ _ _) as [[??]?]. by apply ret_Ok in Hr as [-> ->]. }
  unfold vmBackupCache_List, readCall in Hl.
  eapply obeys_call_Ok in Hl as (w & Hw' & _ & _ & Hf); [|exact HK|done..].
  injection Hf as <- <-. by apply describes_listed.
Qed.

Lemma obeys_current {A} K s (g : Current -> M (Sys SWorld) A) sy :
  stable K ->
  (forall c sy', describes s c (sys_world sy') -> obeys K (g c) sy') ->
  obeys K (currentVMBackups s ≫= g) sy.
Proof.
  intros HK Hg. apply obeys_bind with (Q := describes s); [done|by apply obeys_currentVMBackups| |done].
  intros c sy'. by apply current_Ok.
Qed.

(** ** Retention *)

(** The backups the loop of [clearVMBackups] deletes, whether or not the calls succeed. *)
Fixpoint chosen (l : list (Obj VMBackup)) (n : Z) (cleared : gset string) : list (Obj VMBackup) :=
  match l with
  | [] => []
  | b :: l =>
      if n <=? 0 then []
      else if bool_decide (vmb_Name (o_val b) ∈ cleared) then chosen l n cleared
      else b :: chosen l (n - 1) ({[vmb_Name (o_val b)]} ∪ cleared)
  end.

Definition names (l : list (Obj VMBackup)) : list string := map (fun o => vmb_Name (o_val o)) l.

Lemma clear_result l n cleared errs sy r sy' :
  clearVMBackups l n cleared errs sy = (Ok r, sy') ->
  r.1.1 = n - Z.of_nat (length (chosen l n cleared)) /\
  r.1.2 = cleared ∪ list_to_set (names (chosen l n cleared)).
Proof.
  revert n cleared errs sy. induction l as [|b l IH]; intros n cleared errs sy H; cbn in H |- *.
  { apply ret_Ok in H as [-> _]. cbn. split; [lia|set_solver]. }
  destruct (n <=? 0); [apply ret_Ok in H as [-> _]; cbn; split; [lia|set_solver]|].
  destruct (bool_decide _); [by eapply IH|].
  apply bind_Ok in H as (x & s1 & _ & H). apply IH in H as [-> ->]. cbn. split; [lia|set_solver].
Qed.

Lemma obeys_clear K l n cleared errs sy :
  stable K -> (forall b, b ∈ chosen l n cleared -> forall sy, obeys K (cleanseVMBackup (o_val b)) sy) ->
  obeys K (clearVMBackups l n cleared errs) sy.
Proof.
  intros HK. revert n cleared errs sy. induction l as [|b l IH]; intros n cleared errs sy Hd; cbn in *.
  { apply obeys_ret. }
  destruct (n <=? 0); [apply obeys_ret|]. destruct (bool_decide _); [by apply IH|].
  apply obeys_then; [done|apply obeys_try, Hd; by left|]. intros r s'. apply IH.
  intros b' Hb'. apply Hd. by right.
Qed.

Lemma chosen_take l n cleared :
  NoDup (names l) ->
  chosen l n cleared =
  take (Z.to_nat n) (List.filter (fun o => negb (bool_decide (vmb_Name (o_val o) ∈ cleared))) l).
Proof.
  revert n cleared. induction l as [|b l IH]; intros n cleared Hnd; cbn [chosen List.filter].
  { by rewrite take_nil. }
  cbn in Hnd. apply NoDup_cons in Hnd as [Hb Hnd]. destruct (Z.leb_spec n 0) as [Hn|Hn].
  { by replace (Z.to_nat n) with 0%nat by lia. }
  destruct (bool_decide (vmb_Name (o_val b) ∈ cleared)) eqn:Eb; cbn [negb]; [by apply IH|].
  replace (Z.to_nat n) with (S (Z.to_nat (n - 1))) by lia. cbn [take]. f_equal.
  rewrite IH by done. f_equal. apply filter_ext_in. intros o Ho. f_equal.
  apply bool_decide_ext. rewrite elem_of_union, elem_of_singleton. split; [|by auto].
  intros [E|?]; [|done]. destruct Hb. apply list_elem_of_In, in_map_iff. by exists o.
Qed.

(** Failed backups first, the rest from the oldest on, until [retain] are left. *)
Definition victims (l : list (Obj VMBackup)) (retain : Z) : list (Obj VMBackup) :=
  take (Z.to_nat (Z.of_nat (length l) - retain))
    (List.filter (fun o => failed (o_val o)) l ++ List.filter (fun o => negb (failed (o_val o))) l).

Lemma chosen_victims l n :
  NoDup (names l) ->
  let errs := List.filter (fun o => failed (o_val o)) l in
  let e := chosen errs n ∅ in
  let rest := n - Z.of_nat (length e) in
  e ++ (if rest <=? 0 then [] else chosen l rest (∅ ∪ list_to_set (names e))) =
  take (Z.to_nat n) (errs ++ List.filter (fun o => negb (failed (o_val o))) l).
Proof.
  intros Hnd errs e rest. assert (e = take (Z.to_nat n) errs) as He.
  { unfold e. rewrite chosen_take by by apply NoDup_map_filter. f_equal.
    clear. induction errs as [|o l' IH]; [done|]. cbn. by rewrite IH. }
  unfold rest in *. clear rest. destruct (Z.leb_spec (n - Z.of_nat (length e)) 0) as [Hr|Hr].
  - rewrite app_nil_r, He, take_app. rewrite He, length_take in Hr.
    replace (Z.to_nat n - length errs)%nat with 0%nat by lia. by rewrite take_0, app_nil_r.
  - assert (length errs < Z.to_nat n)%nat as Hlt by (rewrite He, length_take in Hr; lia).
    rewrite take_ge in He by lia. rewrite He in *. clear He e.
    rewrite take_app, (take_ge errs) by lia. f_equal. rewrite chosen_take by done.
    f_equal; [lia|]. apply filter_ext_in. intros o Ho. f_equal.
    destruct (failed (o_val o)) eqn:Ef.
    + apply bool_decide_eq_true. rewrite elem_of_union, elem_of_list_to_set. right.
      apply list_elem_of_In, in_map_iff. exists o. split; [done|]. by apply filter_In.
    + apply bool_decide_eq_false. rewrite elem_of_union, elem_of_list_to_set.
      intros [?|(o' & E & [Ho' Hf]%filter_In)%list_elem_of_In%in_map_iff]; [set_solver|].
      assert (o' = o) as -> by (eapply (NoDup_map_inj (fun o => vmb_Name (o_val o))); [done|by apply list_elem_of_In..|done]).
      congruence.
Qed.

Lemma filter_split_length {A} (p : A -> bool) l :
  (length (List.filter p l) + length (List.filter (fun a => negb (p a)) l) = length l)%nat.
Proof. induction l as [|a l IH]; cbn; [done|]. destruct (p a); cbn; lia. Qed.

(** The newest backup, if it has not failed, is spared as long as one is to be retained. *)
Lemma victims_spare l0 o retain :
  NoDup (l0 ++ [o]) -> failed (o_val o) = false -> 1 <= retain -> o ∉ victims (l0 ++ [o]) retain.
Proof.
  intros Hnd Hf Hr. unfold victims. rewrite !List.filter_app. cbn. rewrite Hf. cbn.
  rewrite app_nil_r, app_assoc. rewrite take_app_le.
  - intros Hin%elem_of_take. destruct Hin as (i & Hi & _). apply list_elem_of_lookup_2 in Hi.
    apply NoDup_app in Hnd as (_ & Hd & _). apply (Hd o); [|set_solver].
    apply elem_of_app in Hi as [Hi|Hi]; by apply filter_elem in Hi as [? _].
  - rewrite !length_app. pose proof (filter_split_length (fun o => failed (o_val o)) l0). cbn. lia.
Qed.

Lemma victims_elem l retain o : o ∈ victims l retain -> o ∈ l.
Proof.
  unfold victims. intros (i & Hi & _)%elem_of_take. apply list_elem_of_lookup_2 in Hi.
  apply elem_of_app in Hi as [Hi|Hi]; by apply filter_elem in Hi as [? _].
Qed.

Lemma obeys_enqueued K ns name d sy : obeys K (enqueueAfter ns name d) sy.
Proof. intros Hs Hw Hk. split; [done|]. cbn. by apply may_same. Qed.

Section Schedule.
Context (s : ScheduleVMBackup) (Hbusy : busy = Some (svb_Namespace s, svb_UID s)) (Hvalid : valid s).
Context (c : Current).

Lemma described_ns w o : describes s c w -> o ∈ cur_vmbackups c -> vmb_Namespace (o_val o) = svb_Namespace s.
Proof using.
  intros Hd Ho. destruct (ds_stored _ _ _ Hd _ Ho) as (_ & Hof & _).
  unfold ofSchedule in Hof. by apply andb_true_iff in Hof as [?%String.eqb_eq _].
Qed.

Lemma described_NoDup w : describes s c w -> NoDup (names (cur_vmbackups c)).
Proof using.
  intros Hd. pose proof (sorted_NoDup _ (g_sorted _ _ (ds_good _ _ _ Hd))) as Hnd.
  assert (forall a b, a ∈ cur_vmbackups c -> b ∈ cur_vmbackups c ->
    vmb_Name (o_val a) = vmb_Name (o_val b) -> o_val a = o_val b) as Hinj.
  { intros a b Ha Hb E. destruct (ds_stored _ _ _ Hd _ Ha) as (Ka & _ & _),
      (ds_stored _ _ _ Hd _ Hb) as (Kb & _ & _).
    rewrite (described_ns w a) in Ka by done. rewrite (described_ns w b) in Kb by done. congruence. }
  clear Hd. induction (cur_vmbackups c) as [|a l IH]; [constructor|]. cbn in *.
  apply NoDup_cons in Hnd as [Ha Hnd]. constructor.
  - intros (b & E & Hb)%list_elem_of_In%in_map_iff. destruct Ha.
    rewrite (Hinj a b); [|by left|right; by apply list_elem_of_In|done].
    by apply list_elem_of_In, in_map_iff; exists b.
  - apply IH; [done|]. intros x y Hx Hy. apply Hinj; by right.
Qed.

(** A backup may be deleted when it has ended and, if usable, there is a newer one. *)
Definition deletable (o : Obj VMBackup) (w : SWorld) : Prop :=
  still (svb_Namespace s, vmb_Name (o_val o)) (o_val o) w /\
  (IsReady (o_val o) = true -> covered (svb_Namespace s) (svb_UID s) (stampOf (o_val o)) w).

Lemma stable_deletable o : named (svb_UID s) (vmb_Name (o_val o)) = true -> stable (deletable o).
Proof using Hbusy.
  intros Hn. apply stable_and; [by eapply stable_still|].
  intros w w' Hw Hk Hst Hr. eapply stable_covered; eauto.
Qed.

Lemma described_still w o :
  describes s c w -> o ∈ cur_vmbackups c ->
  still (svb_Namespace s, vmb_Name (o_val o)) (o_val o) w.
Proof using.
  intros Hd Ho o' Ho'. destruct (ds_stored _ _ _ Hd _ Ho) as (Hk & _ & _).
  rewrite (described_ns w) in Hk by done. rewrite Hk in Ho'. by injection Ho' as <-.
Qed.

(** The listed backups that satisfy [p] stay deletable. *)
Definition allDeletable (p : Obj VMBackup -> Prop) (w : SWorld) : Prop :=
  forall o, o ∈ cur_vmbackups c -> p o -> deletable o w.

Lemma stable_allDeletable p w0 : describes s c w0 -> stable (allDeletable p).
Proof using Hbusy.
  intros Hd w w' Hw Hk Hst o Ho Hp. destruct (ds_stored _ _ _ Hd _ Ho) as (_ & _ & Hn).
  eapply (stable_deletable o Hn); eauto.
Qed.

Lemma obeys_cleanse p w0 o sy :
  describes s c w0 -> o ∈ cur_vmbackups c -> p o -> inProgress (o_val o) = false ->
  obeys (allDeletable p) (cleanseVMBackup (o_val o)) sy.
Proof using Hbusy.
  intros Hd Ho Hp Hin. destruct (ds_stored _ _ _ Hd _ Ho) as (_ & Hof & Hn). unfold cleanseVMBackup.
  rewrite (described_ns w0 o Hd Ho).
  eapply (obeys_delete _ _ _ (o_val o) (svb_UID s)); [by eapply stable_allDeletable|done..|].
  intros w _ Hk. by apply Hk.
Qed.

(** The newest backup and the others, when the newest is usable. *)
Lemma described_newest w n :
  describes s c w -> cur_last c = Some n -> IsReady (o_val n) = true ->
  hasError (o_val n) = false ->
  exists l0, cur_vmbackups c = l0 ++ [n] /\ failed (o_val n) = false /\
    (forall o, o ∈ cur_vmbackups c -> o <> n -> inProgress (o_val o) = false) /\
    allDeletable (fun o => o <> n) w.
Proof using Hvalid.
  intros Hd Hlast Hr He. rewrite (ds_last _ _ _ Hd) in Hlast.
  apply last_Some in Hlast as [l0 El]. exists l0. pose proof (ds_good _ _ _ Hd) as Hg.
  rewrite El, map_app in Hg. cbn in Hg.
  assert (Hold : forall o, o ∈ cur_vmbackups c -> o <> n -> older (o_val o) (o_val n)).
  { intros o Ho Hne. rewrite El in Ho. apply elem_of_app in Ho as [Ho|?%list_elem_of_singleton]; [|done].
    pose proof (g_sorted _ _ Hg) as (_ & Hs & _)%sorted_mid. rewrite Forall_forall in Hs.
    apply Hs, list_elem_of_In, in_map_iff. exists o. by rewrite <- list_elem_of_In. }
  assert (n ∈ cur_vmbackups c) as Hn by (rewrite El; set_solver).
  split_and!; [done|unfold failed; by rewrite He, andb_false_r| |].
  - intros o Ho Hne. apply not_true_is_false. intros Hp. specialize (Hold _ Ho Hne).
    destruct (g_done _ _ (ds_good _ _ _ Hd) (o_val o) (o_val n)) as [E|?];
      [by apply list_elem_of_In, in_map_iff; eexists; rewrite <- list_elem_of_In..|done| |];
      unfold older in *; [rewrite E in *|]; lia.
  - intros o Ho Hne. split; [by eapply described_still|]. intros _.
    destruct (ds_stored _ _ _ Hd _ Hn) as (Hk & Hof & _).
    eexists _, n. split_and!; [exact Hk|done..| |by apply Hold].
    apply not_true_is_false. intros Hm.
    destruct (g_marks _ _ Hg (o_val n)) as (x & Hx & _ & _ & Hlt); [set_solver|done..|].
    pose proof (g_sorted _ _ Hg) as (_ & Hs & _)%sorted_mid. rewrite Forall_forall in Hs.
    apply elem_of_app in Hx as [Hx| ->%list_elem_of_singleton]; [specialize (Hs _ Hx)|];
      unfold older in *; lia.
Qed.

(** What the two loops of [gcVMBackups] delete is not the newest. *)
Lemma obeys_gc_loops w n K sy :
  describes s c w -> cur_last c = Some n -> IsReady (o_val n) = true ->
  hasError (o_val n) = false -> K = allDeletable (fun o => o <> n) ->
  obeys K ('(remaining, cleared, _) ←
             clearVMBackups (cur_errVMBackups c)
               (Z.of_nat (length (cur_vmbackups c)) - svb_Retain s) ∅ [];
           if remaining <=? 0 then mret tt
           else clearVMBackups (cur_vmbackups c) remaining cleared [];; mret tt) sy.
Proof using Hbusy Hvalid.
  intros Hd Hlast Hr He ->. destruct (described_newest w n) as (l0 & El & Hf & Hdone & _); [done..|].
  pose proof (described_NoDup _ Hd) as Hnd. pose proof (ds_errs _ _ _ Hd) as Eerr.
  set (size := Z.of_nat (length (cur_vmbackups c)) - svb_Retain s).
  pose proof (chosen_victims (cur_vmbackups c) size Hnd) as Hv. cbn zeta in Hv. rewrite <- Eerr in Hv.
  assert (Hok : forall o, o ∈ victims (cur_vmbackups c) (svb_Retain s) ->
    forall sy, obeys (allDeletable (fun o => o <> n)) (cleanseVMBackup (o_val o)) sy).
  { intros o Ho sy0. pose proof (victims_elem _ _ _ Ho) as Hin.
    assert (o <> n) as Hne.
    { intros ->. revert Ho. rewrite El. apply victims_spare; [|done|apply Hvalid].
      rewrite <- El. by eapply NoDup_fmap_1. }
    eapply obeys_cleanse; [done..|]. by apply Hdone. }
  assert (Hst : stable (allDeletable (fun o => o <> n))) by (by eapply stable_allDeletable).
  apply obeys_bind with
    (Q := fun r _ => r.1.1 = size - Z.of_nat (length (chosen (cur_errVMBackups c) size ∅)) /\
                     r.1.2 = ∅ ∪ list_to_set (names (chosen (cur_errVMBackups c) size ∅))); [done| | |].
  - apply obeys_clear; [done|]. intros o Ho. apply Hok. unfold victims. fold size.
    rewrite <- Eerr, <- Hv. set_solver.
  - intros r sy' Hrun _ _ _. by eapply clear_result.
  - intros [[rem cl] es] sy' [E1 E2]. cbn in E1, E2. subst rem cl.
    destruct (_ <=? 0); [apply obeys_ret|]. apply obeys_then; [done| |intros; apply obeys_ret].
    apply obeys_clear; [done|]. intros o Ho. apply Hok. unfold victims. fold size.
    rewrite <- Eerr, <- Hv. set_solver.
Qed.
End Schedule.

(** ** Handlers *)

Context {RF : Rfc3339} (E : SEnv).

Abbreviation T := (fun _ : SWorld => True) (only parsing).
Lemma stable_T : stable T.
Proof. done. Qed.

Lemma obeys_gc s sy :
  busy = Some (svb_Namespace s, svb_UID s) -> valid s -> obeys T (gcVMBackups s) sy.
Proof.
  intros Hb Hv. apply obeys_current; [done|]. intros c sy' Hd.
  destruct (cur_last c) as [n|] eqn:El; [|apply obeys_ret].
  destruct (IsReady (o_val n)) eqn:Hr, (hasError (o_val n)) eqn:He; cbn;
    [apply obeys_ret| |apply obeys_ret|apply obeys_enqueued].
  eapply obeys_weaken; [|by eapply obeys_gc_loops]. intros _ _.
  by destruct (described_newest s Hv c (sys_world sy') n) as (? & _ & _ & _ & ?).
Qed.

Lemma store_write_keeps {K A} `{Countable K} merge (k : K) (o : Obj A) st k' o' :
  st_objs (store_write merge k o st).2 !! k' = Some o' ->
  st_objs st !! k' = Some o' \/ k' = k /\ exists cur, o_val o' = merge cur (o_val o).
Proof.
  unfold store_write. destruct (st_objs st !! k) as [cur|]; [|by left].
  destruct (_ =? _); [|by left]. cbn.
  intros [[<- <-]|[_ ?]]%lookup_insert_Some; [right; eauto|by left].
Qed.

Lemma obeys_svmbackupUpdate (o : Obj ScheduleVMBackup) sy :
  valid (o_val o) -> obeys T (svmbackupClient_Update o) sy.
Proof.
  intros Hv. apply obeys_call; [done|]. intros w _ _.
  pose proof (store_write_ext (fun _ new => stored new) (svbKey (o_val o)) o (sw_schedules w)) as Hx.
  pose proof (store_write_keeps (fun _ new => stored new) (svbKey (o_val o)) o (sw_schedules w)) as Hk.
  change (the_store w) with (sw_schedules w). unfold svbKey in *.
  destruct (store_write _ _ o (sw_schedules w)) as [r st]. cbn in *.
  apply may_rest; [done|done|reflexivity|]. intros k o' Ho'. cbn in Ho'.
  destruct (Hk _ _ Ho') as [?|(-> & _ & ->)]; [by left|by right].
Qed.

Lemma obeys_cronJobsUpdate (o : Obj CronJob) sy : obeys T (cronJobsClient_Update o) sy.
Proof.
  apply obeys_call; [done|]. intros w _ _. change (the_store w) with (sw_cronJobs w).
  set (k := (_, _)). pose proof (store_write_ext (fun _ new => new) k o (sw_cronJobs w)) as Hx.
  destruct (store_write _ _ o (sw_cronJobs w)) as [r st]. by apply may_cronJobs.
Qed.

Lemma insert_ext {A} (k : Key) (v : A) (st : Store Key A) :
  store_ext st (mkStore (st_rv st + 1) (<[k := mkObj (st_rv st + 1) v]> (st_objs st))).
Proof. apply (written_ext (fun _ new => new) k (mkObj 0 v) v). Qed.

Lemma obeys_cronJobsCreate (cj : CronJob) sy : obeys T (cronJobsClient_Create E cj) sy.
Proof.
  apply obeys_call; [done|]. intros w _ _. unfold storeCreate.
  destruct (st_objs (sw_cronJobs w) !! _); [by apply may_same|]. apply may_cronJobs, insert_ext.
Qed.

Lemma obeys_cronJobsDelete ns name sy : obeys T (cronJobsClient_Delete ns name) sy.
Proof.
  apply obeys_call; [done|]. intros w _ _. unfold markDeleted.
  destruct (st_objs (sw_cronJobs w) !! _); [|by apply may_same]. apply may_cronJobs, insert_ext.
Qed.

Lemma obeys_lhDelete ns name sy : obeys T (lhbackupClient_Delete ns name) sy.
Proof.
  apply obeys_call; [done|]. intros w _ _. destruct (sw_lhBackups w !! _); by apply may_same.
Qed.

Lemma obeys_get {A} `{!HasStore SWorld Key A} (k : Key) sy : obeys T (apiGet (A := A) k) sy.
Proof. apply obeys_readCall. Qed.

Ltac obey :=
  repeat match goal with
  | |- obeys _ (try _) _ => apply obeys_try
  | |- obeys _ (mapErr _ _) _ => apply obeys_mapErr
  | |- obeys _ (throw _) _ => apply obeys_throw
  | |- obeys _ (lift _) _ => apply obeys_lift
  | |- obeys _ timeNow _ => apply obeys_gets
  | |- obeys _ (mret _) _ => apply obeys_ret
  | |- obeys _ (enqueueAfter _ _ _) _ => apply obeys_enqueued
  | |- obeys _ (enqueue _ _) _ => apply obeys_enqueued
  | |- obeys _ (readCall _) _ => apply obeys_readCall
  | |- obeys _ (apiGet _) _ => apply obeys_get
  | |- obeys _ (svmbackupCache_Get _ _) _ => apply obeys_get
  | |- obeys _ (cronJobCache_Get _ _) _ => apply obeys_get
  | |- obeys _ (vmBackupCache_Get _ _) _ => apply obeys_get
  | |- obeys _ (getCronJob _) _ => apply obeys_get
  | |- obeys _ (getVMBackup _ _) _ => apply obeys_get
  | |- obeys _ (cronJobsClient_Update _) _ => apply obeys_cronJobsUpdate
  | |- obeys _ (cronJobsClient_Create _ _) _ => apply obeys_cronJobsCreate
  | |- obeys _ (cronJobsClient_Delete _ _) _ => apply obeys_cronJobsDelete
  | |- obeys _ (lhbackupClient_Delete _ _) _ => apply obeys_lhDelete
  | |- obeys _ (svmbackupClient_Update _) _ => apply obeys_svmbackupUpdate
  | |- obeys _ (mbind _ _) _ => apply obeys_then; [done| |intros ? ?]
  | |- obeys _ (if ?b then _ else _) _ => destruct b eqn:?
  | |- obeys _ (match ?x with _ => _ end) _ => destruct x eqn:?
  end.

Lemma obeys_updateSuspendState o suspend reason msg sy :
  valid (o_val o) -> obeys T (updateSuspendState o suspend reason msg) sy.
Proof. intros Hv. unfold updateSuspendState. obey. done. Qed.

Lemma obeys_cleanseAll K l sy :
  stable K -> (forall b, b ∈ l -> forall sy, obeys K (cleanseVMBackup (o_val b)) sy) ->
  obeys K (cleanseAll l) sy.
Proof.
  intros HK. revert sy. induction l as [|b l IH]; intros sy Hl; cbn; [apply obeys_ret|].
  apply obeys_then; [done|apply Hl; by left|]. intros _ sy'. apply IH. intros b' Hb'. apply Hl. by right.
Qed.

Lemma obeys_handleResume o sy :
  busy = Some (svb_Namespace (o_val o), svb_UID (o_val o)) -> valid (o_val o) ->
  obeys T (handleResume o) sy.
Proof.
  intros Hb Hv. apply obeys_current; [done|]. intros c sy' Hd.
  destruct (_ <? _); [by apply obeys_updateSuspendState|].
  apply obeys_then; [done| |intros; apply obeys_throw].
  apply (obeys_weaken _ (allDeletable (o_val o) c (fun b => failed (o_val b) = true))).
  - intros _ _ b Hin Hf. split; [by eapply described_still|]. intros Hr. exfalso.
    destruct (g_ready _ _ (ds_good _ _ _ Hd) (o_val b)) as [_ He];
      [by apply list_elem_of_In, in_map_iff; exists b; rewrite <- list_elem_of_In|done|].
    unfold failed in Hf. rewrite He, andb_false_r in Hf. done.
  - apply obeys_cleanseAll; [by eapply stable_allDeletable|]. intros b Hin sy0.
    rewrite (ds_errs _ _ _ Hd) in Hin. apply filter_elem in Hin as [Hin Hf].
    eapply obeys_cleanse; [done..|]. unfold failed, inProgress in *.
    apply andb_true_iff in Hf as [_ ->]. by rewrite andb_false_r.
Qed.

Lemma obeys_reconcile o sy : valid (o_val o) -> obeys T (reconcileVMBackupList o) sy.
Proof. intros Hv. apply obeys_current; [done|]. intros c sy' _. cbv zeta. obey. exact Hv. Qed.

Lemma obeys_deferred {A} (m : M (Sys SWorld) A) d sy :
  obeys T m sy -> (forall sy, obeys T d sy) -> obeys T (deferred m d) sy.
Proof.
  intros Hm Hd Hs Hw Hk. destruct (Hm Hs Hw Hk) as [Hs' HR]. unfold deferred.
  destruct (m sy) as [r s1]. cbn in *. destruct (Hd s1 Hs' (orderly_steps _ _ _ Hw HR) I) as [Hs2 HR2].
  destruct (d s1) as [[]]; cbn in *; (split; [done|by etransitivity]).
Qed.

(** The handler of a schedule. *)
Lemma OnChanged_obeys (o : Obj ScheduleVMBackup) sy :
  busy = Some (svb_Namespace (o_val o), svb_UID (o_val o)) -> valid (o_val o) ->
  obeys T (OnChanged E (Some o)) sy.
Proof.
  intros Hb Hv. unfold OnChanged. destruct (om_DeletionTimestamp _); [apply obeys_ret|].
  apply obeys_deferred.
  - unfold createCronJob, updateResumeOrSuspend, handleSuspend, updateCronExpression. obey.
    + by apply obeys_updateSuspendState.
    + by apply obeys_handleResume.
  - intros sy'. unfold updateVMBackups, multiErr. obey; [by apply obeys_gc|by apply obeys_reconcile].
Qed.

(** The schedule an object refers to is a stored one. *)
Lemma resolve_Ok K m sy o sy' :
  stable K -> ResolveSVMBackupRef m sy = (Ok (Some o), sy') -> relies may (sys_turns sy) ->
  orderly (sys_world sy) -> K (sys_world sy) ->
  valid (o_val o) /\
  svbKey (o_val o) = (SplitNamespacedName (gm_str (om_Annotations m) AnnotationSVMBackupID)).1.
Proof.
  intros HK Hr Hs Hw Hk. unfold ResolveSVMBackupRef in Hr.
  destruct (String.eqb _ _); [by apply ret_Ok in Hr as [? _]|].
  destruct (SplitNamespacedName _) as [[ns name] ?].
  apply bind_Ok in Hr as (x & s1 & Hx & Hr). apply try_Ok in Hx.
  destruct x as [o'|e]; apply ret_Ok in Hr as [Hr _]; [injection Hr as ->|done].
  unfold svmbackupCache_Get, apiGet, readCall in Hx.
  eapply obeys_call_Ok in Hx as (w & Hw' & _ & _ & Hf); [|exact HK|done..].
  unfold store_get in Hf. destruct (_ !! _) as [o''|] eqn:Ho; [|done]. injection Hf as -> _.
  by apply (sn_schedules _ Hw') in Ho as [? <-].
Qed.

Lemma obeys_resolveRef K m sy : stable K -> obeys K (ResolveSVMBackupRef m) sy.
Proof.
  intros _. apply (obeys_weaken _ T); [done|]. unfold ResolveSVMBackupRef. obey.
Qed.

Lemma obeys_resolve {A} m (g : option (Obj ScheduleVMBackup) -> M (Sys SWorld) A) sy :
  (forall o sy', valid (o_val o) -> obeys T (g (Some o)) sy') -> (forall sy', obeys T (g None) sy') ->
  obeys T (ResolveSVMBackupRef m ≫= g) sy.
Proof.
  intros Hg Hn.
  apply obeys_bind with (Q := fun r _ => match r with Some o => valid (o_val o) | None => True end);
    [done|by apply obeys_resolveRef| |by intros [o|] sy' Ho; auto].
  intros [o|] sy' Hr Hs Hw Hk; [|done]. by eapply (resolve_Ok T) in Hr as [? _].
Qed.

Lemma obeys_checkVolBackups o vmb l sy : valid (o_val o) -> obeys T (checkVolBackups o vmb l) sy.
Proof.
  intros Hv. revert sy. induction l as [|vb l IH]; intros sy; cbn [checkVolBackups]; [apply obeys_ret|].
  obey; [apply IH|unfold handleLHBackupNotSynced|apply IH]. by apply obeys_updateSuspendState.
Qed.

Lemma OnVMBackupChange_obeys b sy : obeys T (OnVMBackupChange b) sy.
Proof.
  destruct b as [b|]; [|apply obeys_ret]. unfold OnVMBackupChange.
  destruct (om_DeletionTimestamp _); [apply obeys_ret|].
  apply obeys_resolve; [|intros; apply obeys_ret]. intros o sy' Hv.
  cbv zeta. unfold checkLHBackupUnexpectedProcessing. obey; by apply obeys_checkVolBackups.
Qed.

Lemma OnVMBackupRemove_obeys b sy : obeys T (OnVMBackupRemove b) sy.
Proof.
  destruct b as [b|]; [|apply obeys_ret]. unfold OnVMBackupRemove.
  apply obeys_resolve; [|intros; apply obeys_ret]. intros o sy' Hv. obey.
Qed.

(** Names of Longhorn backups are no part of what has ended. *)
Lemma may_volumes w (k : Key) o l l' :
  orderly w -> objs w !! k = Some o -> vmb_VolumeBackups (o_val o) = Some l ->
  may w (sw_set_vmBackups
    (written (fun _ new => new) k o (vmb_set_VolumeBackups l' (o_val o)) (sw_vmBackups w)) w).
Proof.
  intros Hw Hk Hl. set (b := vmb_set_VolumeBackups l' (o_val o)).
  assert (class b = class (o_val o)) as Ecl.
  { unfold class, IsMissingStatus. cbn. by rewrite Hl. }
  assert (forall ns uid, ofSchedule ns uid b = true -> exists g, g ≡ₚ vals ns uid (objs w) /\
    good (cap ns uid) g /\ o_val o ∈ g) as Hin.
  { intros ns uid Hof. destruct (sn_good _ Hw ns uid) as (g & Hg & Hgood). exists g.
    split_and!; [done..|]. rewrite Hg. apply vals_elem. by exists k, o. }
  apply rtc_once, (as_change _ w k o b); try done.
  - intros Hr ns uid Hof. destruct (Hin _ _ Hof) as (g & _ & Hgood & Ho).
    assert (IsMissingStatus b = IsMissingStatus (o_val o)) as -> by (unfold class in Ecl; congruence).
    exact (g_ready _ _ Hgood _ Ho Hr).
  - intros Hm Hr ns uid Hof. destruct (Hin _ _ Hof) as (g & Hg & Hgood & Ho).
    destruct (g_marks _ _ Hgood (o_val o) Ho Hm Hr) as (x & Hx & Hxr & Hxm & Hlt).
    rewrite Hg in Hx. apply vals_elem in Hx as (k' & o' & Hk' & <- & Hof').
    by exists k', o'.
Qed.

Lemma OnLHBackupChanged_obeys b sy : obeys T (OnLHBackupChanged b) sy.
Proof.
  destruct b as [b|]; [|apply obeys_ret]. unfold OnLHBackupChanged.
  destruct (_ || _); [apply obeys_ret|].
  apply obeys_then; [done|obey|]. intros r sy1. destruct r as [ref|]; [|obey].
  apply obeys_then; [done|obey|]. intros snap sy2. destruct (vs_ControllerRef snap); [|obey].
  apply obeys_bind with (Q := fun r w => match r with
    | Some vb => known (sw_vmBackups w) (vmb_Namespace (o_val vb), vmb_Name (o_val vb)) vb
    | None => True end); [done|unfold resolveVolSnapshotRef; obey| |].
  - intros r sy3 Hr Hs Hw Hk. destruct r as [vb|]; [|done]. unfold resolveVolSnapshotRef in Hr.
    destruct (negb _); [by apply ret_Ok in Hr as [? _]|].
    apply bind_Ok in Hr as (x & s1 & Hx & Hr). apply try_Ok in Hx.
    destruct x as [o'|e]; [|by apply ret_Ok in Hr as [? _]].
    destruct (String.eqb _ _); apply ret_Ok in Hr as [Hr ->]; [injection Hr as ->|done].
    unfold vmBackupCache_Get, apiGet, readCall in Hx.
    eapply obeys_call_Ok in Hx as (w & Hw' & _ & _ & Hf); [|exact stable_T|done..].
    unfold store_get in Hf. destruct (_ !! _) as [o''|] eqn:Ho; [|done]. injection Hf as -> <-.
    pose proof (sn_keys _ Hw' _ _ Ho) as Ek. rewrite <- Ek. apply known_stored; [apply (sn_wf _ Hw')|done].
  - intros [vb|] sy3 Hkn; [|obey]. destruct (negb _); [obey|].
    destruct (vmb_VolumeBackups (o_val vb)) as [l|] eqn:El; [|obey].
    set (k := (vmb_Namespace (o_val vb), vmb_Name (o_val vb))) in *.
    assert (Hst : stable (fun w => known (sw_vmBackups w) k vb)).
    { refine (stable_known (W := SWorld) (A := VMBackup) _ _ k vb).
      - intros w Hw. apply (sn_wf _ Hw).
      - intros w w' Hw Hm. cbn in Hm. induction Hm as [|w w1 w' H1 _ IH]; [reflexivity|].
        etransitivity; [apply (astep_ext _ _ _ H1)|]. apply IH. by eapply orderly_astep. }
    apply (obeys_weaken _ (fun w => known (sw_vmBackups w) k vb)); [done|].
    apply obeys_then; [done|apply obeys_lift|]. intros l' sy4. destruct (bool_decide _); [apply obeys_ret|].
    apply obeys_then; [done| |intros; apply obeys_ret].
    apply (obeys_update (A := VMBackup) _ _ k vb); [done|done|]. intros w Hw _ Ho.
    exact (may_volumes w k vb l l' Hw Ho El).
Qed.

Lemma OnRemove_obeys o sy : obeys T (OnRemove o) sy.
Proof. unfold OnRemove, deleteCronJob. obey. Qed.

(** *** The handler that creates backups: the regime, and at most one backup more. *)

Definition grown (w w' : SWorld) : Prop :=
  exists w1 w2, may w w1 /\ (w2 = w1 \/ astep None w1 w2) /\ may w2 w'.

Definition grows {A} (K : SWorld -> Prop) (m : M (Sys SWorld) A) (sy : Sys SWorld) : Prop :=
  relies may (sys_turns sy) -> orderly (sys_world sy) -> K (sys_world sy) ->
  relies may (sys_turns (m sy).2) /\ grown (sys_world sy) (sys_world (m sy).2).

Lemma grown_may w w' : may w w' -> grown w w'.
Proof. intros HR. exists w', w'. split_and!; [done|by left|reflexivity]. Qed.

Lemma grows_obeys {A} K (m : M (Sys SWorld) A) sy : obeys K m sy -> grows K m sy.
Proof.
  intros Hm Hs Hw Hk. destruct (Hm Hs Hw Hk) as [? HR]. split; [done|]. by apply grown_may.
Qed.

Lemma grows_weaken {A} (K K' : SWorld -> Prop) (m : M (Sys SWorld) A) sy :
  (orderly (sys_world sy) -> K (sys_world sy) -> K' (sys_world sy)) -> grows K' m sy -> grows K m sy.
Proof. intros HK Hm Hs Hw Hk. auto. Qed.

Lemma grows_bind {A B} K (Q : A -> SWorld -> Prop) (m : M (Sys SWorld) A)
    (f : A -> M (Sys SWorld) B) sy :
  stable K -> obeys K m sy ->
  (forall a sy', m sy = (Ok a, sy') -> relies may (sys_turns sy) -> orderly (sys_world sy) ->
     K (sys_world sy) -> Q a (sys_world sy')) ->
  (forall a sy', Q a (sys_world sy') -> grows K (f a) sy') ->
  grows K (m ≫= f) sy.
Proof.
  intros HK Hm HQ Hf Hs Hw Hk. pose proof (Hm Hs Hw Hk) as [Hs' HR]. unfold mbind, M_bind.
  destruct (m sy) as [[a|e|] sy'] eqn:Er; cbn [fst snd] in *;
    [|by split; [|apply grown_may]..].
  specialize (HQ a sy' eq_refl Hs Hw Hk).
  destruct (Hf a sy' HQ Hs' (orderly_steps _ _ _ Hw HR) (HK _ _ Hw Hk HR)) as (? & w1 & w2 & H1 & H2 & H3).
  split; [done|]. exists w1, w2. split_and!; [by etransitivity|done..].
Qed.

Lemma grows_then {A B} K (m : M (Sys SWorld) A) (f : A -> M (Sys SWorld) B) sy :
  stable K -> obeys K m sy -> (forall a sy', grows K (f a) sy') -> grows K (m ≫= f) sy.
Proof. intros HK Hm Hf. by apply (grows_bind K (fun _ _ => True)). Qed.

Lemma grows_map {A B} K (f : A -> B) (m : M (Sys SWorld) A) sy : grows K m sy -> grows K (f <$> m) sy.
Proof. intros Hm Hs Hw Hk. specialize (Hm Hs Hw Hk). unfold fmap, M_fmap. by destruct (m sy) as [[]]. Qed.

Lemma grows_ret {A B} K (m : M (Sys SWorld) A) (b : B) sy : grows K m sy -> grows K (m ≫= fun _ => mret b) sy.
Proof. intros Hm Hs Hw Hk. specialize (Hm Hs Hw Hk). unfold mbind, M_bind. by destruct (m sy) as [[]]. Qed.

Lemma grows_call {A} K (f : SWorld -> outcome A * SWorld) sy :
  stable K ->
  (forall w, orderly w -> K w -> (f w).2 = w \/ astep None w (f w).2) -> grows K (call f) sy.
Proof.
  intros HK Hf Hs Hw Hk. split; [by apply call_relies|]. unfold call.
  destruct sy as [w [|t ts]]; cbn in *.
  - specialize (Hf w Hw Hk). destruct (f w) as [r w']. cbn in *.
    exists w, w'. split_and!; [apply rtc_refl|exact Hf|apply rtc_refl].
  - apply Forall_cons in Hs as [Ht _]. specialize (Ht w).
    assert (Hw1 : orderly (turn_env t w)) by (by eapply orderly_steps).
    assert (Hk1 : K (turn_env t w)) by (exact (HK _ _ Hw Hk Ht)).
    destruct (turn_fault t); cbn.
    + by apply grown_may.
    + specialize (Hf _ Hw1 Hk1). destruct (f (turn_env t w)) as [r w']. cbn in *.
      exists (turn_env t w), w'. split_and!; [done|exact Hf|apply rtc_refl].
Qed.

Section Create.
Context (s : ScheduleVMBackup) (ts : string) (at_ : Z).
Context (Hbusy : busy = Some (svb_Namespace s, svb_UID s)) (Hvalid : valid s).
Context (Hparse : Parse ts = Some at_).

Definition mayStart (w : SWorld) : Prop :=
  room (svb_Namespace s) (svb_UID s) (at_ + 1) w /\
  upTo (svb_Namespace s) (svb_UID s) at_ (vmBackupName s ts) w.

Lemma vmBackupName_named : named (svb_UID s) (vmBackupName s ts) = true.
Proof using. unfold named, vmBackupName. rewrite !append_assoc. apply HasPrefix_app. Qed.

Lemma ofSchedule_new ns uid b :
  om_Namespace (vmb_meta b) = svb_Namespace s ->
  om_Labels (vmb_meta b) = om_Labels (vmb_meta (newVMBackup s ts)) ->
  ofSchedule ns uid b = true -> ns = svb_Namespace s /\ uid = svb_UID s.
Proof using.
  unfold ofSchedule, vmb_Namespace. intros -> ->.
  intros [E1%String.eqb_eq E2%bool_decide_eq_true]%andb_true_iff. cbn in E2.
  rewrite lookup_insert_eq in E2. split; congruence.
Qed.

Lemma stampOf_new b :
  om_Labels (vmb_meta b) = om_Labels (vmb_meta (newVMBackup s ts)) -> stampOf b = at_.
Proof using Hparse.
  intros Hl. rewrite (stampOf_meta _ _ Hl). unfold stampOf, gm_str. cbn.
  rewrite lookup_insert_ne by done. rewrite lookup_insert_eq. cbn. by rewrite Hparse.
Qed.

Lemma grows_create sy : grows mayStart (createVMBackup E s ts) sy.
Proof using Hbusy Hparse.
  apply grows_call; [apply stable_and; [by apply stable_room|by apply stable_upTo]|].
  intros w Hw [Hroom Hup]. unfold storeCreate.
  set (k := (vmb_Namespace (newVMBackup s ts), vmb_Name (newVMBackup s ts))).
  destruct (objs w !! k) as [o|] eqn:Ho; [left; by destruct w|right]. cbn.
  set (b := mkVMBackup _ _ _ _ _ _ _).
  apply (as_create _ w k b); [done|done|done|]. intros ns uid Hof.
  apply ofSchedule_new in Hof as [-> ->]; [|done..].
  split_and!; [apply vmBackupName_named|done|done|].
  rewrite (stampOf_new b eq_refl). destruct Hroom as (l & Hl & Hs & Hf & Hall).
  exists l. split_and!; [done..|]. intros x Hx. split; [by apply Hall|].
  rewrite Hl in Hx. destruct (Hup x Hx) as [?|[Hnm _]]; [done|]. exfalso.
  apply vals_elem in Hx as (k' & o' & Hk' & <- & Hof').
  rewrite (sn_keys _ Hw _ _ Hk'), Hnm in Hk'.
  unfold ofSchedule in Hof'. apply andb_true_iff in Hof' as [E1%String.eqb_eq _]. rewrite E1 in Hk'.
  unfold k in Ho. cbn in Ho. unfold vmb_Namespace, vmb_Name in Ho. cbn in Ho. congruence.
Qed.

(** A listing in which all have ended and not too many have failed leaves room. *)
Lemma described_room c w :
  describes s c w -> upTo (svb_Namespace s) (svb_UID s) at_ (vmBackupName s ts) w ->
  cur_failure c < svb_MaxFailure s ->
  (forall n, cur_last c = Some n -> inProgress (o_val n) = false) ->
  room (svb_Namespace s) (svb_UID s) (at_ + 1) w.
Proof using Hvalid.
  intros Hd Hup Hf Hlast. exists (map o_val (cur_vmbackups c)). pose proof (ds_good _ _ _ Hd) as Hg.
  split_and!; [apply Hd|apply Hg| |].
  - rewrite <- (ds_failure _ _ _ Hd). destruct Hvalid as (_ & _ & ?). lia.
  - intros b Hb. split.
    + apply not_true_is_false. intros Hp. pose proof Hb as (l1 & l2 & El)%list_elem_of_split.
      rewrite El in Hg. pose proof (good_last _ _ _ _ Hg Hp) as ->.
      destruct (cur_last c) as [n|] eqn:En; rewrite (ds_last _ _ _ Hd) in En.
      * apply last_Some in En as [l0 E0]. rewrite E0, map_app in El. cbn in El.
        apply app_inj_tail in El as [_ <-]. rewrite (Hlast n eq_refl) in Hp. done.
      * apply last_None in En. rewrite En in El. by destruct l1.
    + rewrite (ds_perm _ _ _ Hd) in Hb. destruct (Hup _ Hb) as [?|[_ ?]]; lia.
Qed.

Lemma grows_newVMBackups rv sy :
  grows (upTo (svb_Namespace s) (svb_UID s) at_ (vmBackupName s ts)) (newVMBackups E (mkObj rv s) ts) sy.
Proof using Hbusy Hparse Hvalid.
  set (K := upTo _ _ _ _). assert (HK : stable K) by by apply stable_upTo.
  apply grows_bind with (Q := describes s); [done|by apply obeys_currentVMBackups| |].
  { intros c sy'. by apply current_Ok. }
  intros c sy' Hd. cbn [o_val].
  assert (Hcreate : cur_failure c < svb_MaxFailure s ->
    (forall n, cur_last c = Some n -> inProgress (o_val n) = false) ->
    grows K (Some <$> createVMBackup E s ts) sy').
  { intros Hf Hl. apply grows_map, (grows_weaken _ mayStart); [|apply grows_create].
    intros _ Hk. split; [by eapply described_room|done]. }
  destruct (cur_vmbackups c) as [|x l] eqn:El.
  - apply Hcreate; [|rewrite (ds_last _ _ _ Hd), El; done].
    rewrite (ds_failure _ _ _ Hd), El. destruct Hvalid as (_ & _ & ?). cbn. lia.
  - destruct (Z.leb_spec (svb_MaxFailure s) (cur_failure c)).
    + apply grows_obeys, (obeys_weaken _ T); [done|]. apply obeys_then; [done| |intros; apply obeys_ret].
      unfold handleReachMaxFailure. by apply obeys_updateSuspendState.
    + destruct (cur_last c) as [n|] eqn:En; [|apply grows_obeys, obeys_lift].
      destruct (_ && _) eqn:Ep; [apply grows_obeys, obeys_throw|].
      apply Hcreate; [done|]. by intros n' [= <-].
Qed.
End Create.

(** What a start of the cron job stands for: the schedule it belongs to, and all backups of
    that schedule being for earlier starts. *)
Definition startOf (cj : CronJob) : Key :=
  (SplitNamespacedName (gm_str (om_Annotations (cj_meta cj)) AnnotationSVMBackupID)).1.

Definition inOrder (cj : CronJob) (w : SWorld) : Prop :=
  forall t, cj_LastScheduleTime cj = Some t ->
    let local := t + se_zone E t in
    yearFits local /\
    upTo (startOf cj).1 (uidOf (startOf cj)) (local / 60 * 60)
      (svmbackupPrefix +:+ "-" +:+ uidOf (startOf cj) +:+ "-" +:+ Format (se_zone E t) t) w.

Lemma OnCronjobChanged_grows (o : Obj CronJob) sy :
  busy = Some ((startOf (o_val o)).1, uidOf (startOf (o_val o))) ->
  grows (inOrder (o_val o)) (OnCronjobChanged E (Some o)) sy.
Proof.
  intros Hb. unfold OnCronjobChanged.
  destruct (om_DeletionTimestamp _); [apply grows_obeys, obeys_ret|].
  destruct (cj_LastScheduleTime (o_val o)) as [t|] eqn:Et; [|apply grows_obeys, obeys_ret].
  assert (HK : stable (inOrder (o_val o))).
  { intros w w' Hw Hk Hst t' Ht'. destruct (Hk t' Ht') as [? Hup]. split; [done|].
    by eapply stable_upTo. }
  apply grows_bind with (Q := fun r _ => match r with
    | Some s => valid (o_val s) /\ svbKey (o_val s) = startOf (o_val o) | None => True end);
    [done|by apply obeys_resolveRef| |].
  { intros [s|] sy' Hr Hs Hw Hk; [|done]. by eapply (resolve_Ok (inOrder (o_val o))). }
  intros [s|] sy1 Hq; [|apply grows_obeys, obeys_ret]. destruct Hq as [Hv Hkey].
  destruct Hv as (Huid & Hrest). assert (Hv : valid (o_val s)) by done.
  rewrite Hkey in Huid. unfold svbKey in Hkey. rewrite <- Huid, <- Hkey in Hb. cbn [fst] in Hb.
  apply grows_then; [done|apply obeys_gets|]. intros now sy2.
  destruct (_ <? _); [apply grows_obeys, obeys_ret|]. cbv zeta.
  apply grows_then; [done|apply (obeys_weaken _ T); [done|apply obeys_try, obeys_get]|]. intros r sy3.
  destruct r as [|e]; [apply grows_obeys, obeys_ret|]. destruct (negb _); [apply grows_obeys, obeys_throw|].
  apply grows_ret. destruct s as [rv s]. cbn [o_val] in *.
  intros Hs Hw Hk. destruct (Hk t Et) as [Hy Hup]. rewrite <- Huid, <- Hkey in Hup. cbn [fst] in Hup.
  eapply grows_newVMBackups; [done|done| |done|done|exact Hup]. by apply Parse_Format.
Qed.
End Busy.

(** ** Runs *)

Context {SS : SliceSort} {RF : Rfc3339} (E : SEnv).

(** The events the handlers are called for, with the object as the cache has it, however
    old. *)
Inductive Event :=
| EvSchedule (o : Obj ScheduleVMBackup)
| EvScheduleRemoved (o : Obj ScheduleVMBackup)
| EvCronJob (o : Obj CronJob)
| EvBackup (o : Obj VMBackup)
| EvBackupRemoved (o : Obj VMBackup)
| EvLonghornBackup (b : LHBackup).

Definition handle (ev : Event) : M (Sys SWorld) unit :=
  match ev with
  | EvSchedule o => OnChanged E (Some o);; mret tt
  | EvScheduleRemoved o => OnRemove (Some o);; mret tt
  | EvCronJob o => OnCronjobChanged E (Some o);; mret tt
  | EvBackup o => OnVMBackupChange (Some o);; mret tt
  | EvBackupRemoved o => OnVMBackupRemove (Some o);; mret tt
  | EvLonghornBackup b => OnLHBackupChanged (Some b);; mret tt
  end.

(** The schedule a handler works on: nobody else creates backups for it meanwhile. *)
Definition busyOf (ev : Event) : option (string * string) :=
  match ev with
  | EvSchedule o => Some (svb_Namespace (o_val o), svb_UID (o_val o))
  | EvCronJob o => Some ((startOf (o_val o)).1, uidOf (startOf (o_val o)))
  | _ => None
  end.

(** Schedules are admitted ones, and starts of a cron job are handled in their order. *)
Definition admissible (ev : Event) (w : SWorld) : Prop :=
  match ev with
  | EvSchedule o => valid (o_val o)
  | EvCronJob o => inOrder E (o_val o) w
  | _ => True
  end.

Inductive runs : SWorld -> SWorld -> Prop :=
| run_others w w' : astep None w w' -> runs w w'
| run_handler ev sy :
    relies (rtc (astep (busyOf ev))) (sys_turns sy) -> admissible ev (sys_world sy) ->
    runs (sys_world sy) (sys_world (handle ev sy).2).

Lemma rtc_free busy w w' : rtc (astep busy) w w' -> rtc (astep None) w w'.
Proof. apply rtc_subrel. intros x y. apply astep_free. Qed.

Lemma grown_free busy w w' : grown busy w w' -> rtc (astep None) w w'.
Proof.
  intros (w1 & w2 & H1 & H2 & H3). etransitivity; [exact (rtc_free _ _ _ H1)|].
  etransitivity; [|exact (rtc_free _ _ _ H3)]. destruct H2 as [->|H2]; [reflexivity|by apply rtc_once].
Qed.

Lemma handle_grows ev sy :
  admissible ev (sys_world sy) -> relies (rtc (astep (busyOf ev))) (sys_turns sy) ->
  orderly (sys_world sy) -> grown (busyOf ev) (sys_world sy) (sys_world (handle ev sy).2).
Proof.
  intros Ha Hs Hw. set (R := scheduleRegime (busyOf ev)).
  destruct ev as [o|o|o|o|o|b]; cbn [handle busyOf admissible] in *.
  - by apply (grows_ret _ (fun _ => True)); [apply grows_obeys, OnChanged_obeys|..].
  - by apply (grows_ret _ (fun _ => True)); [apply grows_obeys, OnRemove_obeys|..].
  - by apply (grows_ret _ (inOrder E (o_val o))); [apply OnCronjobChanged_grows|..].
  - by apply (grows_ret _ (fun _ => True)); [apply grows_obeys, OnVMBackupChange_obeys|..].
  - by apply (grows_ret _ (fun _ => True)); [apply grows_obeys, OnVMBackupRemove_obeys|..].
  - by apply (grows_ret _ (fun _ => True)); [apply grows_obeys, OnLHBackupChanged_obeys|..].
Qed.

Lemma runs_steps w0 w : orderly w0 -> reachable (eq w0) runs w -> rtc (astep None) w0 w.
Proof.
  intros Hw0 Hr. induction Hr as [w <-|w w' Hr IH Hst]; [reflexivity|].
  etransitivity; [exact IH|]. destruct Hst as [w w' H|ev sy Hs Ha]; [by apply rtc_once|].
  eapply grown_free, handle_grows; [done..|]. by eapply orderly_steps.
Qed.

(** C7: Scheduled backups are safe, as long as the others keep off the schedules' backups.  Take
    any world that runs of the handlers lead to, with failing calls, with events that show
    schedules, cron jobs and backups of any age, and with others between and within the runs
    who let backups proceed and remove those marked for deletion, but never delete a usable
    backup of a schedule without a newer usable one, never change how a backup ended, and
    create no backup of a schedule while its handler runs, or without room for it.  The
    handlers are taken to list the backups as they are stored and to be told of the starts of
    a cron job in their order, for schedules as the webhook admits them.  Then for every
    schedule: at most one of its backups is in progress, and it is the newest; in the order
    of their times, no more counted failures follow each other than the schedule tolerates;
    and once it has a usable backup that is not being deleted, it always has one, as new or
    newer. *)
Theorem scheduled_backups_safe w0 w :
  orderly w0 -> reachable (eq w0) runs w ->
  forall ns uid,
    (forall b b', b ∈ vals ns uid (objs w) -> b' ∈ vals ns uid (objs w) ->
       inProgress b = true -> b' = b \/ older b' b) /\
    (exists l, l ≡ₚ vals ns uid (objs w) /\ StronglySorted older l /\ failures 0 l <= cap ns uid) /\
    forall t, covered ns uid t w0 -> covered ns uid t w.
Proof.
  intros Hw0 Hr ns uid. pose proof (runs_steps _ _ Hw0 Hr) as Hst.
  destruct (sn_good _ (orderly_steps _ _ _ Hw0 Hst) ns uid) as (l & Hl & Hg). split_and!.
  - intros b b'. rewrite <- Hl. apply (g_done _ _ Hg).
  - exists l. split_and!; [done|apply Hg|]. pose proof (g_failures _ _ Hg). pose proof (pending_le l). lia.
  - intros t Ht. exact (stable_covered None ns uid t w0 w Hw0 Ht Hst).
Qed.
End World.
