(* ===== verification/ScheduleProgress.v ===== *)
(** What the handlers of scheduled backups do when nothing fails and nobody interferes:
    which backups retention removes, how a suspended schedule is resumed; and where the
    code counts on more than it gets: failures that are not counted and deletions whose
    failure is not reported. *)

From S2P Require Import Prelude K8s ApiServer BackupTypes Calendar ScheduleBackup ScheduleSafety.

Local Open Scope Z_scope.

(** ** Marking backups *)

Abbreviation objs w := (st_objs (sw_vmBackups w)) (only parsing).

Definition keyOf (o : Obj VMBackup) : Key := (vmb_Namespace (o_val o), vmb_Name (o_val o)).

(** [w'] is [w] with the backups at [ks] marked for deletion. *)
Record marksOnly (ks : list Key) (w w' : SWorld) : Prop := mkMarks {
  mo_rest : sw_schedules w' = sw_schedules w /\ sw_cronJobs w' = sw_cronJobs w /\
    sw_lhBackups w' = sw_lhBackups w /\ sw_now w' = sw_now w /\ sw_queue w' = sw_queue w;
  mo_kept : forall k, k ∉ ks -> objs w' !! k = objs w !! k;
  mo_marked : forall k, k ∈ ks ->
    o_val <$> objs w' !! k = vmb_setDeleted (sw_now w / second) ∘ o_val <$> objs w !! k }.

Lemma setDeleted_twice t b : vmb_setDeleted t (vmb_setDeleted t b) = vmb_setDeleted t b.
Proof.
  destruct b as [m ? ? ? ? ? ?]. unfold vmb_setDeleted, setDeleted. cbn.
  by destruct (om_DeletionTimestamp m).
Qed.

Lemma marksOnly_refl w : marksOnly [] w w.
Proof. constructor; [done|done|]. by intros k ?%elem_of_nil. Qed.

Lemma marksOnly_trans ks ks' w w1 w' :
  marksOnly ks w w1 -> marksOnly ks' w1 w' -> marksOnly (ks ++ ks') w w'.
Proof.
  intros [R1 K1 M1] [R2 K2 M2]. destruct R1 as (E1 & E2 & E3 & E4 & E5), R2 as (F1 & F2 & F3 & F4 & F5).
  constructor.
  - split_and!; congruence.
  - intros k Hk. rewrite K2, K1; [done|set_solver..].
  - intros k Hk. destruct (decide (k ∈ ks')) as [Hk'|Hk'].
    + rewrite M2, E4 by done. destruct (decide (k ∈ ks)) as [Hk1|Hk1].
      * specialize (M1 k Hk1). destruct (objs w1 !! k), (objs w !! k); cbn in *; try done.
        injection M1 as ->. by rewrite setDeleted_twice.
      * by rewrite K1.
    + rewrite K2 by done. apply M1. set_solver.
Qed.

Lemma delete_quiet w ns name o :
  objs w !! (ns, name) = Some o ->
  exists w', vmBackupClient_Delete ns name (quiet w) = (Ok tt, quiet w') /\ marksOnly [(ns, name)] w w'.
Proof.
  intros Ho. eexists. split.
  { unfold vmBackupClient_Delete. rewrite call_quiet. unfold markDeleted. rewrite Ho. done. }
  constructor; cbn; [done| |].
  - intros k Hk. rewrite lookup_insert_ne; [done|set_solver].
  - intros k ->%list_elem_of_singleton. by rewrite lookup_insert_eq, Ho.
Qed.

(** Objects stay where they are while others are marked. *)
Lemma marksOnly_stored ks w w' k : marksOnly ks w w' -> is_Some (objs w !! k) -> is_Some (objs w' !! k).
Proof.
  intros H [o Ho]. destruct (decide (k ∈ ks)) as [Hk|Hk].
  - pose proof (mo_marked _ _ _ H _ Hk) as E. rewrite Ho in E. cbn in E.
    destruct (objs w' !! k); [eauto|done].
  - rewrite (mo_kept _ _ _ H) by done. eauto.
Qed.

Lemma clear_quiet l n cleared errs w :
  (forall o, o ∈ l -> is_Some (objs w !! keyOf o)) ->
  exists r w', clearVMBackups l n cleared errs (quiet w) = (Ok r, quiet w') /\
    marksOnly (map keyOf (chosen l n cleared)) w w'.
Proof.
  revert n cleared errs w. induction l as [|b l IH]; intros n cleared errs w Hl; cbn.
  { eexists _, w. split; [done|apply marksOnly_refl]. }
  destruct (n <=? 0); [eexists _, w; split; [done|apply marksOnly_refl]|].
  destruct (bool_decide _); [apply IH; intros o Ho; apply Hl; by right|].
  destruct (Hl b) as [o Ho]; [by left|].
  destruct (delete_quiet w (vmb_Namespace (o_val b)) (vmb_Name (o_val b)) o Ho) as (w1 & E1 & M1).
  destruct (IH (n - 1) ({[vmb_Name (o_val b)]} ∪ cleared) errs w1) as (r & w' & E2 & M2).
  { intros o' Ho'. eapply marksOnly_stored; [exact M1|]. apply Hl. by right. }
  exists r, w'. split; [|exact (marksOnly_trans _ _ _ _ _ M1 M2)].
  unfold cleanseVMBackup. erewrite bind_run by (apply try_run; exact E1). exact E2.
Qed.

Lemma cleanseAll_quiet l w :
  (forall o, o ∈ l -> is_Some (objs w !! keyOf o)) ->
  exists w', cleanseAll l (quiet w) = (Ok tt, quiet w') /\ marksOnly (map keyOf l) w w'.
Proof.
  revert w. induction l as [|b l IH]; intros w Hl; cbn.
  { exists w. split; [done|apply marksOnly_refl]. }
  destruct (Hl b) as [o Ho]; [by left|].
  destruct (delete_quiet w (vmb_Namespace (o_val b)) (vmb_Name (o_val b)) o Ho) as (w1 & E1 & M1).
  destruct (IH w1) as (w' & E2 & M2).
  { intros o' Ho'. eapply marksOnly_stored; [exact M1|]. apply Hl. by right. }
  exists w'. split; [|exact (marksOnly_trans _ _ _ _ _ M1 M2)].
  unfold cleanseVMBackup. by erewrite bind_run by exact E1.
Qed.

(** ** Retention *)

Lemma strongly_filter {A} (R : A -> A -> Prop) (p : A -> bool) l :
  StronglySorted R l -> StronglySorted R (List.filter p l).
Proof.
  induction 1 as [|a l Hs IH Ha]; cbn; [constructor|]. destruct (p a); [|done].
  constructor; [done|]. apply Forall_forall. intros b [Hb _]%filter_elem.
  by apply (proj1 (Forall_forall _ _) Ha).
Qed.

Section Quiet.
Context (uidOf : Key -> string) (cap : string -> string -> Z).
Context {SS : SliceSort} {RF : Rfc3339} (E : SEnv).

(** The backups of a schedule, oldest first. *)
Definition sorted (s : ScheduleVMBackup) (w : SWorld) : list (Obj VMBackup) :=
  sortSlice (fun a b => stampOf (o_val a) <? stampOf (o_val b))
    (backupsOf (svb_Namespace s) (svb_UID s) (objs w)).

Lemma current_quiet s w :
  currentVMBackups s (quiet w) =
  (Ok (listed s (backupsOf (svb_Namespace s) (svb_UID s) (objs w))), quiet w).
Proof.
  unfold currentVMBackups. erewrite bind_run by (unfold vmBackupCache_List, readCall; by rewrite call_quiet).
  unfold listed. by destruct (tally _ _ _ _) as [[??]?].
Qed.

Lemma listed_sorted s w :
  cur_vmbackups (listed s (backupsOf (svb_Namespace s) (svb_UID s) (objs w))) = sorted s w.
Proof. unfold listed, sorted. by destruct (tally _ _ _ _) as [[??]?]. Qed.

Lemma sorted_described s w :
  orderly uidOf cap w ->
  describes cap s (listed s (backupsOf (svb_Namespace s) (svb_UID s) (objs w))) w.
Proof. exact (describes_listed uidOf cap s w). Qed.

Lemma sorted_stored s w o : orderly uidOf cap w -> o ∈ sorted s w -> is_Some (objs w !! keyOf o).
Proof.
  intros Hw Ho. destruct (ds_stored _ _ _ _ (sorted_described s w Hw) o) as (Hk & _); [|eauto].
  by rewrite listed_sorted.
Qed.

Lemma sorted_NoDup_names s w : orderly uidOf cap w -> NoDup (names (sorted s w)).
Proof.
  intros Hw. rewrite <- listed_sorted. eapply described_NoDup. by apply sorted_described.
Qed.

Lemma sorted_older s w :
  orderly uidOf cap w -> StronglySorted (fun a b => older (o_val a) (o_val b)) (sorted s w).
Proof.
  intros Hw. pose proof (g_sorted _ _ (ds_good _ _ _ _ (sorted_described s w Hw))) as H.
  rewrite listed_sorted in H. induction (sorted s w) as [|a l IH]; [constructor|].
  cbn in H. apply StronglySorted_inv in H as [Hs Ha]. constructor; [auto|].
  exact (proj1 (Forall_fmap _ _ _) Ha).
Qed.

(** The two loops together. *)
Lemma gc_loops_quiet s w :
  orderly uidOf cap w ->
  exists w', ('(remaining, cleared, _) ←
      clearVMBackups (List.filter (fun o => failed (o_val o)) (sorted s w))
        (Z.of_nat (length (sorted s w)) - svb_Retain s) ∅ [];
    if remaining <=? 0 then mret tt
    else (clearVMBackups (sorted s w) remaining cleared [];; mret tt)) (quiet w) = (Ok tt, quiet w') /\
    marksOnly (map keyOf (victims (sorted s w) (svb_Retain s))) w w'.
Proof.
  intros Hw. set (size := _ - svb_Retain s). set (errs := List.filter _ _).
  pose proof (chosen_victims (sorted s w) size (sorted_NoDup_names s w Hw)) as Hv. cbn zeta in Hv.
  fold errs in Hv.
  destruct (clear_quiet errs size ∅ [] w) as ([[rem cl] es] & w1 & E1 & M1).
  { intros o [Ho _]%filter_elem. by apply (sorted_stored s). }
  destruct (clear_result cap _ _ _ _ _ _ _ E1) as [Er Ec]. cbn in Er, Ec. subst rem cl.
  erewrite bind_run by exact E1. unfold victims. fold size errs. rewrite <- Hv, map_app.
  destruct (_ <=? 0); [exists w1; cbn; by rewrite app_nil_r|].
  edestruct (clear_quiet (sorted s w)) as (r & w2 & E2 & M2).
  { intros o Ho. eapply marksOnly_stored; [exact M1|]. by apply (sorted_stored s). }
  exists w2. split; [by erewrite bind_run by exact E2|]. exact (marksOnly_trans _ _ _ _ _ M1 M2).
Qed.

Lemma gc_quiet s w n :
  orderly uidOf cap w -> last (sorted s w) = Some n ->
  IsReady (o_val n) = true -> hasError (o_val n) = false ->
  exists w', gcVMBackups s (quiet w) = (Ok tt, quiet w') /\
    marksOnly (map keyOf (victims (sorted s w) (svb_Retain s))) w w'.
Proof.
  intros Hw Hl Hr He. pose proof (sorted_described s w Hw) as Hd. unfold gcVMBackups.
  erewrite bind_run by apply current_quiet.
  rewrite (ds_last _ _ _ _ Hd), (ds_errs _ _ _ _ Hd), listed_sorted, Hl, Hr, He. cbn [negb andb].
  by apply gc_loops_quiet.
Qed.

(** Of two backups that have not failed the older goes first, and after all failed ones. *)
Lemma victims_order s w a b :
  orderly uidOf cap w -> let gone := victims (sorted s w) (svb_Retain s) in
  a ∈ gone -> failed (o_val a) = false -> b ∈ sorted s w -> b ∉ gone ->
  failed (o_val b) = false /\ older (o_val a) (o_val b).
Proof.
  intros Hw gone Ha Hfa Hb Hnb. unfold gone, victims in *. clear gone.
  set (errs := List.filter _ _) in *. set (rest := List.filter (fun o => negb _) _) in *.
  rewrite take_app in Ha, Hnb. set (m := (_ - length errs)%nat) in *.
  apply elem_of_app in Ha as [Ha|Ha].
  { apply elem_of_take in Ha as (i & Hi & _). apply list_elem_of_lookup_2, filter_elem in Hi as [_ Hi].
    congruence. }
  assert (length errs < Z.to_nat (Z.of_nat (length (sorted s w)) - svb_Retain s))%nat as Hm.
  { destruct (decide (m = 0%nat)) as [E0|]; [|unfold m in *; lia]. rewrite E0 in Ha. by apply elem_of_nil in Ha. }
  rewrite (take_ge errs) in Hnb by lia.
  assert (failed (o_val b) = false) as Hfb.
  { apply not_true_is_false. intros Hf. apply Hnb, elem_of_app. left. by apply filter_elem. }
  split; [done|]. assert (b ∈ drop m rest) as Hbd.
  { assert (b ∈ rest) as Hbr by (apply filter_elem; split; [done|cbn; by rewrite Hfb]).
    rewrite <- (take_drop m rest) in Hbr. apply elem_of_app in Hbr as [Hbr|]; [|done].
    destruct Hnb. apply elem_of_app. by right. }
  assert (StronglySorted (fun a b => older (o_val a) (o_val b)) rest) as Hs
    by apply strongly_filter, sorted_older, Hw.
  rewrite <- (take_drop m rest) in Hs. exact (StronglySorted_app_1_elem_of _ _ _ a b Hs Ha Hbd).
Qed.

(** C14: Retention is exact.  When the newest backup of a schedule is usable and no call
    fails, a pass marks precisely the backups beyond the number to retain: failed ones
    first, then the oldest ones.  So as many are left unmarked by the pass as there are or
    as are to be retained, whichever is less; the newest is always among them; no backup
    that has not failed goes while one that failed stays, nor one while an older one
    that has not failed stays. *)
Theorem retention_exact s w n :
  orderly uidOf cap w -> 1 <= svb_Retain s -> last (sorted s w) = Some n ->
  IsReady (o_val n) = true -> hasError (o_val n) = false ->
  let gone := victims (sorted s w) (svb_Retain s) in
  (exists w', gcVMBackups s (quiet w) = (Ok tt, quiet w') /\ marksOnly (map keyOf gone) w w') /\
  Z.of_nat (length (sorted s w)) - Z.of_nat (length gone)
    = Z.min (Z.of_nat (length (sorted s w))) (svb_Retain s) /\
  (n ∉ gone) /\
  forall a b, a ∈ gone -> failed (o_val a) = false -> b ∈ sorted s w -> b ∉ gone ->
    failed (o_val b) = false /\ older (o_val a) (o_val b).
Proof.
  intros Hw Hret Hl Hr He gone. split_and!.
  - by eapply gc_quiet.
  - unfold gone, victims. rewrite length_take, length_app.
    pose proof (filter_split_length (fun o => failed (o_val o)) (sorted s w)). lia.
  - apply last_Some in Hl as [l0 El]. unfold gone. rewrite El. apply victims_spare; [|by unfold failed; rewrite He, andb_false_r|done].
    rewrite <- El. eapply NoDup_fmap_1, (sorted_NoDup_names s w Hw).
  - intros a b. by apply victims_order.
Qed.

(** ** Suspending and resuming *)

Definition cronKey (s : ScheduleVMBackup) : Key := (cronJobNamespace, cronJobName s).

Abbreviation schedules w := (st_objs (sw_schedules w)) (only parsing).
Abbreviation cronJobs w := (st_objs (sw_cronJobs w)) (only parsing).

(** The schedule and its cron job are there, the schedule as the handler read it. *)
Record established (o : Obj ScheduleVMBackup) (w : SWorld) : Prop := mkEstablished {
  es_schedule : schedules w !! svbKey (o_val o) = Some o;
  es_cronJob : exists c, cronJobs w !! cronKey (o_val o) = Some c /\
    cronKey (o_val o) = (om_Namespace (cj_meta (o_val c)), om_Name (cj_meta (o_val c))) }.

(** Schedule, condition and cron job agree. *)
Definition suspendedAs (s : ScheduleVMBackup) (suspend : bool) (w : SWorld) : Prop :=
  (exists o, schedules w !! svbKey s = Some o /\ svb_Suspend (o_val o) = suspend /\
     svb_Suspended (o_val o) = suspend /\
     Cond.getStatus (svb_Conditions (o_val o)) BackupSuspend
       = (if suspend then ConditionTrue else ConditionFalse)) /\
  exists c, cronJobs w !! cronKey s = Some c /\ cj_Suspend (o_val c) = Some suspend.

Lemma suspendConditions_status now suspend reason msg cs :
  Cond.getStatus (suspendConditions now suspend reason msg cs) BackupSuspend
  = (if suspend then ConditionTrue else ConditionFalse).
Proof.
  unfold suspendConditions. rewrite Cond.getStatus_setMessage.
  2: by left; apply Cond.findCond_setReason, Cond.findCond_setStatus.
  rewrite Cond.getStatus_setReason by (left; apply Cond.findCond_setStatus).
  rewrite Cond.getStatus_setStatus. by rewrite decide_True.
Qed.

Lemma update_quiet {A} `{HasStore SWorld Key A} (merge : A -> A -> A) k (cur o : Obj A) w :
  st_objs (the_store w) !! k = Some cur -> o_rv cur = o_rv o ->
  exists rv, apiUpdate merge k o (quiet w) =
    (Ok (mkObj rv (merge (o_val cur) (o_val o))),
     quiet (set_store (mkStore rv (<[k := mkObj rv (merge (o_val cur) (o_val o))]>
                                     (st_objs (the_store w)))) w)).
Proof.
  intros Hk Hrv. eexists. unfold apiUpdate. rewrite call_quiet. unfold store_write.
  by rewrite Hk, Hrv, Z.eqb_refl.
Qed.

Lemma suspendCron_quiet o suspend w :
  established o w ->
  exists w', (cronJob ← getCronJob (o_val o);
     let cronJobCpy := cj_set (cj_Schedule (o_val cronJob)) (Some suspend) (o_val cronJob) in
     if bool_decide (o_val cronJob = cronJobCpy) then mret tt
     else (cronJobsClient_Update (mkObj (o_rv cronJob) cronJobCpy);; mret tt)) (quiet w)
    = (Ok tt, quiet w') /\
    sw_schedules w' = sw_schedules w /\ sw_vmBackups w' = sw_vmBackups w /\
    exists c, cronJobs w' !! cronKey (o_val o) = Some c /\ cj_Suspend (o_val c) = Some suspend.
Proof.
  intros [_ (c & Hc & Hk)].
  erewrite bind_run by (unfold getCronJob, cronJobCache_Get, apiGet, readCall; rewrite call_quiet;
    cbn [the_store SWorld_cronJobs]; unfold store_get, fst, snd; fold (cronKey (o_val o)); by rewrite Hc).
  cbv zeta. case_bool_decide as Heq.
  - exists w. split_and!; [done..|]. exists c. split; [done|]. by rewrite Heq.
  - edestruct (update_quiet (fun _ new => new) (cronKey (o_val o)) c
      (mkObj (o_rv c) (cj_set (cj_Schedule (o_val c)) (Some suspend) (o_val c))) w) as (rv & E1); [done..|].
    eexists. split_and!.
    { unfold cronJobsClient_Update. cbn [o_val cj_set cj_meta]. rewrite <- Hk.
      by erewrite bind_run by exact E1. }
    1, 2: done. eexists. cbn. split; [apply lookup_insert_eq|done].
Qed.
(** A computation cut in two after its first part. *)
Lemma bind_cut {S A B C} (m : M S A) (f : A -> M S B) (g : B -> M S C) s b s' :
  (m ≫= f) s = (Ok b, s') -> (m ≫= fun a => f a ≫= g) s = g b s'.
Proof. unfold mbind, M_bind. destruct (m s) as [[a|?|] s1]; try done. by intros ->. Qed.

Lemma suspend_quiet o suspend reason msg w :
  established o w ->
  exists w', updateSuspendState o suspend reason msg (quiet w) = (Ok tt, quiet w') /\
    sw_vmBackups w' = sw_vmBackups w /\ suspendedAs (o_val o) suspend w'.
Proof.
  intros Hes. destruct (suspendCron_quiet o suspend w Hes) as (w1 & E1 & Es & Eb & Hc).
  unfold updateSuspendState. rewrite (bind_cut _ _ (fun _ => _) _ _ _ E1).
  unfold timeNow. erewrite bind_run by done. cbv zeta.
  pose proof (es_schedule _ _ Hes) as Ho. rewrite <- Es in Ho.
  set (cpy := svb_set_Suspend _ _ _).
  assert (Cond.getStatus (svb_Conditions cpy) BackupSuspend
          = (if suspend then ConditionTrue else ConditionFalse)) as Hst
    by apply suspendConditions_status.
  case_bool_decide as Heq.
  - exists w1. split_and!; [done..|]. split; [|done]. exists o. rewrite Heq. split_and!; [congruence|done..].
  - edestruct (update_quiet (fun _ new => stored new) (svbKey (o_val o)) o
      (mkObj (o_rv o) cpy) w1) as (rv & E2); [done..|].
    eexists. split_and!; [by erewrite bind_run by exact E2|done|]. split; [|done].
    eexists. cbn. split; [apply lookup_insert_eq|done].
Qed.

(** ** Resuming *)

Definition purge (w : SWorld) : SWorld :=
  sw_set_vmBackups (mkStore (st_rv (sw_vmBackups w))
    (filter (fun kv => marked (o_val kv.2) = false) (objs w))) w.

Lemma failures_none l : (forall b, b ∈ l -> failed b = false) -> failures 0 l = 0.
Proof.
  intros H. induction l as [|b l IH]; [done|]. cbn. unfold failures in IH.
  assert (count 0 b = 0) as ->; [|apply IH; set_solver].
  specialize (H b ltac:(left)). unfold failed, count in *. by destruct (IsMissingStatus b), (hasError b), (IsReady b).
Qed.

Lemma current_failure s w :
  cur_failure (listed s (backupsOf (svb_Namespace s) (svb_UID s) (objs w)))
  = failures 0 (map o_val (sorted s w)).
Proof. unfold listed, sorted. by rewrite tally_spec. Qed.

Lemma resume_ready o w :
  established o w -> failures 0 (map o_val (sorted (o_val o) w)) < svb_MaxFailure (o_val o) ->
  exists w', handleResume o (quiet w) = (Ok tt, quiet w') /\ suspendedAs (o_val o) false w'.
Proof.
  intros Hes Hf. unfold handleResume. erewrite bind_run by apply current_quiet.
  rewrite current_failure. apply Z.ltb_lt in Hf as ->.
  destruct (suspend_quiet o false "" "" w Hes) as (w' & E1 & _ & H1). eauto.
Qed.

Lemma sorted_elem s w o :
  o ∈ sorted s w <-> ofSchedule (svb_Namespace s) (svb_UID s) (o_val o) = true /\
    exists k, objs w !! k = Some o.
Proof.
  unfold sorted. rewrite sortSlice_perm. unfold backupsOf. rewrite filter_elem.
  rewrite list_elem_of_In, in_map_iff. split.
  - intros [([k o'] & E1 & Hk) Hof]. cbn in E1. subst o'.
    apply list_elem_of_In, elem_of_map_to_list in Hk. eauto.
  - intros [Hof (k & Hk)]. split; [|done]. exists (k, o). split; [done|].
    by apply list_elem_of_In, elem_of_map_to_list.
Qed.

(** When the failed backups are marked and what is marked is gone, no failure counts. *)
Lemma purge_failures s w w1 :
  orderly uidOf cap w ->
  marksOnly (map keyOf (List.filter (fun o => failed (o_val o)) (sorted s w))) w w1 ->
  failures 0 (map o_val (sorted s (purge w1))) = 0.
Proof.
  intros Hw HM. apply failures_none. intros b Hb. apply list_elem_of_fmap in Hb as (o & -> & Ho).
  apply sorted_elem in Ho as [Hof (k & Hk)]. cbn in Hk.
  apply map_lookup_filter_Some in Hk as [Hk Hm]. cbn in Hm.
  apply not_true_is_false. intros Hf. destruct (decide (k ∈ map keyOf
    (List.filter (fun o => failed (o_val o)) (sorted s w)))) as [Hin|Hin].
  - pose proof (mo_marked _ _ _ HM _ Hin) as E1. rewrite Hk in E1.
    destruct (objs w !! k) as [o0|]; [|done]. cbn in E1. injection E1 as E1.
    by rewrite E1, marked_setDeleted in Hm.
  - rewrite (mo_kept _ _ _ HM) in Hk by done. apply Hin.
    rewrite (sn_keys _ _ _ Hw _ _ Hk). apply list_elem_of_fmap. exists o. split; [done|].
    apply filter_elem. split; [|done]. apply sorted_elem. eauto.
Qed.

(** C15: A suspended schedule is resumed when its user asks for it.  With fewer failures in
    a row than it tolerates, one pass without a failing call leaves schedule, condition and
    cron job resumed.  With more, the pass marks exactly the failed backups and asks for
    another; once what is marked is gone that pass resumes the schedule. *)
Theorem resume_completes o w :
  orderly uidOf cap w -> established o w -> 1 <= svb_MaxFailure (o_val o) ->
  svb_Suspend (o_val o) = false -> svb_Suspended (o_val o) = true ->
  (failures 0 (map o_val (sorted (o_val o) w)) < svb_MaxFailure (o_val o) /\
   exists w', updateResumeOrSuspend o (quiet w) = (Ok tt, quiet w') /\
     suspendedAs (o_val o) false w') \/
  (svb_MaxFailure (o_val o) <= failures 0 (map o_val (sorted (o_val o) w)) /\
   exists e w1 w',
     updateResumeOrSuspend o (quiet w) = (Err e, quiet w1) /\
     marksOnly (map keyOf (List.filter (fun b => failed (o_val b)) (sorted (o_val o) w))) w w1 /\
     updateResumeOrSuspend o (quiet (purge w1)) = (Ok tt, quiet w') /\
     suspendedAs (o_val o) false w').
Proof.
  intros Hw Hes Hmax Hs Hsd. unfold updateResumeOrSuspend. rewrite Hs, Hsd. cbn [Bool.eqb].
  destruct (Z.ltb_spec (failures 0 (map o_val (sorted (o_val o) w))) (svb_MaxFailure (o_val o)))
    as [Hlt|Hge]; [left|right]; (split; [done|]); [by apply resume_ready|].
  pose proof (sorted_described (o_val o) w Hw) as Hd.
  destruct (cleanseAll_quiet (List.filter (fun b => failed (o_val b)) (sorted (o_val o) w)) w)
    as (w1 & E1 & M1).
  { intros b [Hb _]%filter_elem. by eapply sorted_stored. }
  destruct (resume_ready o (purge w1)) as (w' & E2 & H2).
  { destruct (mo_rest _ _ _ M1) as (R1 & R2 & _). destruct Hes as [H1 Hc].
    constructor; cbn; by rewrite ?R1, ?R2. }
  { erewrite purge_failures by done. lia. }
  eexists _, w1, w'. split_and!; [|done..].
  unfold handleResume. erewrite bind_run by apply current_quiet.
  rewrite current_failure. apply Z.ltb_ge in Hge as ->.
  rewrite (ds_errs _ _ _ _ Hd), listed_sorted. by erewrite bind_run by exact E1.
Qed.

(** ** What is not counted and not reported *)

(** A backup that failed before its status was set up, as when its machine is gone. *)
Definition failedEarly (b : VMBackup) : bool := IsMissingStatus b && hasError b.

Lemma early_listed s w :
  Forall (fun o => failedEarly (o_val o) = true) (sorted s w) ->
  failures 0 (map o_val (sorted s w)) = 0.
Proof.
  intros H. apply failures_none. intros b (o & -> & Ho)%list_elem_of_fmap.
  pose proof (proj1 (Forall_forall _ _) H o Ho) as Hb. unfold failedEarly, failed in *.
  by destruct (IsMissingStatus (o_val o)).
Qed.

Lemma early_last s w o :
  Forall (fun o => failedEarly (o_val o) = true) (sorted s w) ->
  cur_last (listed s (backupsOf (svb_Namespace s) (svb_UID s) (objs w))) = Some o ->
  hasError (o_val o) = true.
Proof.
  intros H. unfold listed. fold (sorted s w). rewrite tally_spec. cbn.
  destruct (last (sorted s w)) as [o'|] eqn:El; [|done]. intros [= ->].
  apply last_Some in El as [l El]. rewrite El in H.
  apply Forall_app in H as [_ [Ho _]%Forall_cons]. unfold failedEarly in Ho.
  by apply andb_true_iff in Ho as [_ ->].
Qed.

(** Failures before a backup's status is set up are not counted.  However many backups
    of a schedule failed that way, and however few failures it tolerates, it goes on to
    create another at each start, and retention removes none of them. *)
Theorem early_failures_unbounded o timestamp w :
  1 <= svb_MaxFailure (o_val o) ->
  Forall (fun b => failedEarly (o_val b) = true) (sorted (o_val o) w) ->
  objs w !! (svb_Namespace (o_val o), vmBackupName (o_val o) timestamp) = None ->
  (exists b w', newVMBackups E o timestamp (quiet w) = (Ok (Some b), quiet w') /\
     objs w' = <[(svb_Namespace (o_val o), vmBackupName (o_val o) timestamp) := b]> (objs w)) /\
  gcVMBackups (o_val o) (quiet w) = (Ok tt, quiet w).
Proof.
  intros Hmax Hall Hnew. set (c := listed (o_val o)
    (backupsOf (svb_Namespace (o_val o)) (svb_UID (o_val o)) (objs w))).
  assert (exists b w', (Some <$> createVMBackup E (o_val o) timestamp) (quiet w)
    = (Ok (Some b), quiet w') /\ objs w' =
      <[(svb_Namespace (o_val o), vmBackupName (o_val o) timestamp) := b]> (objs w)) as Hc.
  { eexists _, _. split.
    - unfold createVMBackup, vmBackupClient_Create, fmap, M_fmap. rewrite call_quiet.
      unfold storeCreate, vmb_Namespace, vmb_Name, newVMBackup. cbn [vmb_meta om_Namespace om_Name].
      rewrite Hnew. done.
    - done. }
  pose proof (early_last (o_val o) w) as Hl. fold c in Hl.
  split.
  - unfold newVMBackups. erewrite bind_run by apply current_quiet. fold c.
    destruct (cur_vmbackups c) as [|x l] eqn:El; [exact Hc|]. unfold c at 1. rewrite current_failure, early_listed by done.
    replace (svb_MaxFailure (o_val o) <=? 0) with false by lia.
    assert (exists n, cur_last c = Some n) as [n En].
    { unfold c, listed in El |- *. rewrite tally_spec in El |- *. cbn in El |- *. rewrite El.
      destruct (last (x :: l)) eqn:E1; [eauto|]. by apply last_None in E1. }
    rewrite En, (Hl n Hall En), andb_false_r. exact Hc.
  - unfold gcVMBackups. erewrite bind_run by apply current_quiet. fold c.
    destruct (cur_last c) as [n|] eqn:En; [|done]. by rewrite (Hl n Hall eq_refl), andb_false_r.
Qed.

Lemma delete_ends ns name sy :
  exists r sy', try (vmBackupClient_Delete ns name) sy = (Ok r, sy').
Proof.
  unfold try. destruct (vmBackupClient_Delete ns name sy) as [[?|?|] sy'] eqn:E1; [by eauto..|].
  exfalso. revert E1. unfold vmBackupClient_Delete, call, markDeleted.
  destruct (sys_turns sy) as [|t ts]; [|destruct (turn_fault t); [done|]];
    by destruct (st_objs _ !! _).
Qed.

Lemma clear_ends l n cleared errs sy :
  exists r sy', clearVMBackups l n cleared errs sy = (Ok r, sy').
Proof.
  revert n cleared errs sy. induction l as [|b l IH]; intros n cleared errs sy; cbn; [by repeat eexists|].
  destruct (n <=? 0); [by repeat eexists|]. destruct (bool_decide _); [apply IH|].
  unfold cleanseVMBackup.
  destruct (delete_ends (vmb_Namespace (o_val b)) (vmb_Name (o_val b)) sy) as (r & sy1 & E1).
  erewrite bind_run by exact E1. apply IH.
Qed.

(** Whatever deletions fail, retention reports success once the backups were listed. *)
Theorem gc_hides_failures s sy c sy1 :
  currentVMBackups s sy = (Ok c, sy1) -> exists sy', gcVMBackups s sy = (Ok tt, sy').
Proof.
  intros Hc. unfold gcVMBackups. erewrite bind_run by exact Hc.
  destruct (cur_last c) as [n|]; [|by repeat eexists].
  destruct (_ && _); [by eexists|]. destruct (hasError _); [by repeat eexists|].
  edestruct (clear_ends (cur_errVMBackups c)) as ([[rem cl] es] & sy2 & E2).
  erewrite bind_run by exact E2. cbv beta iota. destruct (rem <=? 0); [by eexists|].
  edestruct (clear_ends (cur_vmbackups c)) as (r & sy3 & E3).
  erewrite bind_run by exact E3. by repeat eexists.
Qed.
End Quiet.

(** ** Witnesses *)

Module ScheduleExamples.
(** Merge sort is one way to sort. *)
Section MergeSort.
Context {A : Type} (less : A -> A -> bool).
Definition notAfter (a b : A) : Prop := less b a = false.
#[global] Instance notAfter_dec : RelDecision notAfter.
Proof. intros a b. unfold notAfter. apply _. Defined.
Definition sortBy (l : list A) : list A := merge_sort notAfter l.
End MergeSort.

Lemma sortBy_sorted {A} (key : A -> Z) l :
  StronglySorted (fun a b => key a <= key b) (sortBy (fun a b => key a <? key b) l).
Proof.
  set (R := notAfter (fun a b => key a <? key b)).
  assert (forall a b, R a b <-> key a <= key b) as HR by (intros; unfold R, notAfter; lia).
  assert (Transitive R) by (intros a b c; rewrite !HR; lia).
  assert (Total R) by (intros a b; rewrite !HR; lia).
  pose proof (StronglySorted_merge_sort R l) as Hs. fold (sortBy (fun a b => key a <? key b) l) in Hs.
  unfold sortBy. fold R. induction Hs as [|a l' _ IH Ha]; constructor; [done|].
  eapply Forall_impl; [exact Ha|]. intros b. apply HR.
Qed.

#[export] Instance mergeSort : SliceSort := {|
  sortSlice A less := sortBy less;
  sortSlice_perm A less l := merge_sort_Permutation _ l;
  sortSlice_sorted A key l := sortBy_sorted key l |}.

Definition uidOf (_ : Key) : string := "u".
Definition cap (_ _ : string) : Z := 2.
Definition env : SEnv := mkSEnv (inl "image") (fun _ => 0) (fun _ => "id").

Definition sched (retain : Z) (suspended : bool) : Obj ScheduleVMBackup :=
  mkObj 1 (mkScheduleVMBackup (mkMeta "s" "" "ns" "u" None None [] 0 None) "0 * * * *" retain 2 false
    (mkVMBackupSpec None "VirtualMachine" "vm" "backup" None) None 0 suspended []).

(** A backup of the schedule: usable, failed, or failed before its status was set up. *)
Inductive Fate := Usable | Failed | FailedEarly.

Definition backup (stamp : string) (f : Fate) : VMBackup :=
  let b := newVMBackup (o_val (sched 2 false)) stamp in
  let e := mkBackupError None (Some "no") in
  match f with
  | Usable => mkVMBackup (vmb_meta b) (vmb_Spec b) true true (Some []) (Some true) None
  | Failed => mkVMBackup (vmb_meta b) (vmb_Spec b) true true (Some []) (Some false) (Some e)
  | FailedEarly => mkVMBackup (vmb_meta b) (vmb_Spec b) false false None None (Some e)
  end.

Definition mapOf (l : list VMBackup) : gmap Key (Obj VMBackup) :=
  list_to_map (map (fun b => ((vmb_Namespace b, vmb_Name b), mkObj 1 b)) l).

Definition cron (last : option Z) : Obj CronJob :=
  let c := newCronJob (o_val (sched 2 false)) "image" in
  mkObj 1 (mkCronJob (cj_meta c) (cj_Schedule c) (cj_ConcurrencyPolicy c) (Some true)
    (cj_TemplateName c) (cj_JobSpec c) last).

Definition world (s : Obj ScheduleVMBackup) (last : option Z) (now : Z) (l : list VMBackup) : SWorld :=
  mkSWorld (mkStore 1 {[("ns", "s") := s]}) (mkStore 1 {[cronKey (o_val s) := cron last]})
    (mkStore 1 (mapOf l)) ∅ ∅ ∅ now [].

Lemma mapOf_elem l k o : mapOf l !! k = Some o ->
  o_val o ∈ l /\ k = (vmb_Namespace (o_val o), vmb_Name (o_val o)) /\ o_rv o = 1.
Proof.
  intros Hk%elem_of_list_to_map_2. apply list_elem_of_fmap in Hk as (b & [= -> ->] & Hb). done.
Qed.

Lemma vals_mapOf l :
  NoDup (map (fun b => (vmb_Namespace b, vmb_Name b)) l) ->
  (forall b, b ∈ l -> ofSchedule "ns" "u" b = true) -> l ≡ₚ vals "ns" "u" (mapOf l).
Proof.
  induction l as [|b l IH]; cbn; intros Hnd Hof; [done|]. apply NoDup_cons in Hnd as [Hb Hnd].
  unfold mapOf. cbn. rewrite vals_insert.
  - unfold mine. cbn. rewrite Hof by left. cbn. constructor. apply IH; [done|]. intros; apply Hof; by right.
  - apply not_elem_of_list_to_map_1. rewrite <- list_fmap_compose. exact Hb.
Qed.

Lemma world_orderly s last now l :
  svb_Namespace (o_val s) = "ns" -> svb_Name (o_val s) = "s" -> svb_UID (o_val s) = "u" ->
  1 <= svb_Retain (o_val s) -> svb_MaxFailure (o_val s) = 2 -> o_rv s = 1 ->
  NoDup (map (fun b => (vmb_Namespace b, vmb_Name b)) l) ->
  (forall b, b ∈ l -> vmb_Namespace b = "ns" /\ named "u" (vmb_Name b) = true /\
     gm_get (om_Labels (vmb_meta b)) LabelSVMBackupUID = Some "u") ->
  good 2 l -> orderly uidOf cap (world s last now l).
Proof.
  intros Hns Hn Hu Hr Hm Hrv Hnd Hl Hg.
  assert (forall b, b ∈ l -> ofSchedule "ns" "u" b = true) as Hof.
  { intros b Hb. destruct (Hl b Hb) as (E1 & _ & E3). unfold ofSchedule. by rewrite E1, E3. }
  assert (forall ns uid b, b ∈ l -> ofSchedule ns uid b = true -> ns = "ns" /\ uid = "u") as Hown.
  { intros ns uid b Hb Ho. destruct (Hl b Hb) as (E1 & _ & E3). unfold ofSchedule in Ho.
    rewrite E1, E3 in Ho. apply andb_true_iff in Ho as [->%String.eqb_eq Ho].
    apply bool_decide_eq_true in Ho. by injection Ho as ->. }
  constructor; cbn.
  - split_and!; intros k o Hk; cbn in Hk.
    1, 2: apply lookup_singleton_Some in Hk as [_ <-]; cbn; lia.
    apply mapOf_elem in Hk as (_ & _ & ->). cbn. lia.
  - intros k o [<- <-]%lookup_singleton_Some. unfold valid, svbKey, cap. rewrite Hns, Hn, Hu, Hm.
    split_and!; [done|done|lia|lia|done].
  - intros k o Hk. by apply mapOf_elem in Hk as (_ & -> & _).
  - intros k o ns uid Hk Ho. apply mapOf_elem in Hk as (Hb & -> & _).
    destruct (Hown ns uid _ Hb Ho) as [-> ->]. by apply Hl.
  - intros ns uid. destruct (decide (ns = "ns" /\ uid = "u")) as [[-> ->]|Hne].
    + exists l. split; [by apply vals_mapOf|done].
    + exists []. split.
      * destruct (vals ns uid (mapOf l)) as [|b v] eqn:Ev; [done|]. exfalso. apply Hne.
        assert (b ∈ vals ns uid (mapOf l)) as (k & o & Hk & <- & Ho)%vals_elem by (rewrite Ev; left).
        apply mapOf_elem in Hk as (Hb & _). by eapply Hown.
      * constructor; [constructor|set_solver|vm_compute; discriminate|set_solver..].
Qed.

(** Times are in order as given, and what is decidable is evaluated. *)
Ltac decided := apply (bool_decide_eq_true_1 _); vm_compute; reflexivity.

Lemma backups_own (l : list (string * Fate)) b :
  b ∈ map (fun p => backup p.1 p.2) l -> vmb_Namespace b = "ns" /\ named "u" (vmb_Name b) = true /\
    gm_get (om_Labels (vmb_meta b)) LabelSVMBackupUID = Some "u".
Proof.
  intros (p & -> & _)%list_elem_of_fmap. destruct p as [t []]; split_and!;
    try apply (HasPrefix_app "svmb-u-" t); vm_compute; reflexivity.
Qed.

Lemma backups_good (l : list (string * Fate)) :
  let bs := map (fun p => backup p.1 p.2) l in
  Sorted Z.lt (map stampOf bs) -> failures 0 bs <= 2 -> good 2 bs.
Proof.
  intros bs Hs Hf. assert (forall b, b ∈ bs -> inProgress b = false /\ marked b = false /\
    (IsReady b = true -> IsMissingStatus b = false /\ hasError b = false)) as Hb.
  { intros b (p & -> & _)%list_elem_of_fmap. destruct p as [t []]; cbn; by split_and!. }
  constructor.
  - apply Sorted_StronglySorted in Hs; [|intros ???; lia]. clear -Hs.
    induction bs as [|b bs IH]; [constructor|]. apply StronglySorted_inv in Hs as [Hs Hb].
    constructor; [by apply IH|]. exact (proj1 (Forall_fmap _ _ _) Hb).
  - intros b b' Hin _ Hp. destruct (Hb b Hin) as [E1 _]. congruence.
  - rewrite pending_zero; [lia|]. intros b Hin. by apply Hb.
  - intros b Hin. by apply Hb.
  - intros b Hin Hm. destruct (Hb b Hin) as (_ & E1 & _). congruence.
Qed.

Lemma example_orderly (l : list (string * Fate)) retain suspended last now :
  let bs := map (fun p => backup p.1 p.2) l in
  1 <= retain -> NoDup (map fst l) -> Sorted Z.lt (map stampOf bs) -> failures 0 bs <= 2 ->
  orderly uidOf cap (world (sched retain suspended) last now bs).
Proof.
  intros bs Hr Hnd Hs Hf. apply world_orderly; try done; [|apply backups_own|by apply backups_good].
  pose proof (backups_good l Hs Hf) as Hg. pose proof (sorted_NoDup _ (g_sorted _ _ Hg)) as Hn.
  clear -Hnd. unfold bs. clear bs. induction l as [|[t f] l IH]; cbn; [constructor|].
  apply NoDup_cons in Hnd as [Ht Hnd]. constructor; [|by apply IH].
  intros (b & Eb & Hb)%list_elem_of_fmap. apply list_elem_of_fmap in Hb as ([t' f'] & -> & Hb).
  pose proof (f_equal snd Eb) as E1.
  assert (vmBackupName (o_val (sched 2 false)) t = vmBackupName (o_val (sched 2 false)) t') as E2
    by (destruct f, f'; exact E1). cbn in E2. injection E2 as E2.
  change (t = t') in E2. subst t'. apply Ht, list_elem_of_fmap. by exists (t, f').
Qed.

#[export] Instance rfc0 : Rfc3339 := {|
  time_format := @json_marshal Z (countable_codec Z);
  time_parse := @json_unmarshal Z (countable_codec Z);
  time_roundtrip := @json_roundtrip Z (countable_codec Z) |}.

Definition bs (l : list (string * Fate)) : list VMBackup := map (fun p => backup p.1 p.2) l.

Definition four : list (string * Fate) :=
  [("20240101.0000", Usable); ("20240101.0100", Failed); ("20240101.0200", Usable);
   ("20240101.0300", Usable)].
Definition failing : list (string * Fate) :=
  [("20240101.0000", Usable); ("20240101.0100", Failed); ("20240101.0200", Failed)].
Definition early : list (string * Fate) :=
  [("20240101.0000", FailedEarly); ("20240101.0100", FailedEarly); ("20240101.0200", FailedEarly)].

(** The cron job started on 1 January 2024 at 04:00, five seconds ago. *)
Definition start : Z := 1704081600.
Definition w_four : SWorld := world (sched 2 false) (Some start) ((start + 5) * second) (bs four).
Definition w_next : SWorld :=
  sys_world (handle env (EvCronJob (cron (Some start))) (quiet w_four)).2.
Definition w_failing : SWorld := world (sched 2 true) None ((start + 5) * second) (bs failing).
Definition w_early : SWorld := world (sched 2 false) (Some start) ((start + 5) * second) (bs early).

Lemma four_orderly : orderly uidOf cap w_four.
Proof.
  apply (example_orderly four); [done|decided| |vm_compute; discriminate].
  vm_compute. repeat (constructor; [|first [constructor; reflexivity|constructor]]). constructor.
Qed.

Lemma failing_orderly : orderly uidOf cap w_failing.
Proof.
  apply (example_orderly failing); [done|decided| |vm_compute; discriminate].
  vm_compute. repeat (constructor; [|first [constructor; reflexivity|constructor]]). constructor.
Qed.

Lemma four_admissible : admissible uidOf cap env (EvCronJob (cron (Some start))) w_four.
Proof.
  intros t [= <-]. cbv zeta. split; [split; vm_compute; [discriminate|reflexivity]|].
  assert (Forall (fun b => stampOf b < (start + se_zone env start) / 60 * 60) (bs four)) as Hall by decided.
  intros b (k & o & Hk & <- & _)%vals_elem. apply mapOf_elem in Hk as (Hb & _). left.
  exact (proj1 (Forall_forall _ _) Hall _ Hb).
Qed.

Lemma four_runs : reachable (eq w_four) (runs uidOf cap env) w_next.
Proof.
  eapply reach_step; [by apply reach_init|].
  apply (run_handler uidOf cap env (EvCronJob (cron (Some start))) (quiet w_four));
    [constructor|exact four_admissible].
Qed.

Lemma four_covered : covered "ns" "u" 1704074400 w_four.
Proof.
  eexists ("ns", "svmb-u-20240101.0300"), _. split; [vm_compute; reflexivity|].
  split_and!; vm_compute; reflexivity.
Qed.

(** The cron job has started and a fifth backup begins: the usable one of 03:00 stays. *)
Lemma scheduled_backups_safe_witness :
  pending (vals "ns" "u" (objs w_next)) = 1 /\ covered "ns" "u" 1704074400 w_next.
Proof.
  split; [vm_compute; reflexivity|].
  apply (scheduled_backups_safe uidOf cap env w_four w_next four_orderly four_runs), four_covered.
Defined.

(** Of four backups, two to retain: the failed one goes, and the oldest. *)
Lemma retention_exact_witness :
  exists w', gcVMBackups (o_val (sched 2 false)) (quiet w_four) = (Ok tt, quiet w') /\
    marksOnly [("ns", "svmb-u-20240101.0100"); ("ns", "svmb-u-20240101.0000")] w_four w'.
Proof.
  destruct (last (sorted (o_val (sched 2 false)) w_four)) as [n|] eqn:El; [|vm_compute in El; discriminate].
  pose proof El as En. vm_compute in En. injection En as <-.
  apply (retention_exact uidOf cap (o_val (sched 2 false)) w_four _ four_orderly
    ltac:(vm_compute; discriminate) El eq_refl eq_refl).
Defined.

(** Two failures in a row: the first pass marks them, the second resumes. *)
Lemma resume_completes_witness :
  exists e w1 w',
    updateResumeOrSuspend (sched 2 true) (quiet w_failing) = (Err e, quiet w1) /\
    updateResumeOrSuspend (sched 2 true) (quiet (purge w1)) = (Ok tt, quiet w') /\
    suspendedAs (o_val (sched 2 true)) false w'.
Proof.
  destruct (resume_completes uidOf cap (sched 2 true) w_failing failing_orderly) as [[H _]|H].
  - constructor; [reflexivity|]. eexists. split; reflexivity.
  - vm_compute. discriminate.
  - reflexivity.
  - reflexivity.
  - vm_compute in H. discriminate.
  - destruct H as (_ & e & w1 & w' & H1 & _ & H2 & H3). exists e, w1, w'. exact (conj H1 (conj H2 H3)).
Defined.

(** Three such failures, two tolerated: a fourth backup is created. *)
Lemma early_failures_unbounded_witness :
  exists b w', newVMBackups env (sched 2 false) "20240101.0400" (quiet w_early) = (Ok (Some b), quiet w') /\
    size (objs w') = 4%nat.
Proof.
  destruct (early_failures_unbounded env (sched 2 false) "20240101.0400" w_early) as [(b & w' & H1 & H2) _].
  - vm_compute. discriminate.
  - decided.
  - vm_compute. reflexivity.
  - exists b, w'. split; [exact H1|]. rewrite H2. rewrite map_size_insert_None; vm_compute; reflexivity.
Defined.
End ScheduleExamples.
