(* ===== verification/ScheduleWebhook.v ===== *)
(** The webhook of backup schedules (pkg/webhook/resources/schedulevmbackup/validator.go),
    with what it calls of pkg/util/svmbackup.go, pkg/util/backup/backup.go, the indexes of
    pkg/webhook/indexeres/indexer.go and the backup target of pkg/settings.

    The parser of cron expressions, the drivers of backup stores and JSON are parameters.
    The process environment, into which the credentials of a backup target are written, is
    the state.  The clock does not move during one admission. *)

From S2P Require Import Prelude K8s ApiServer BackupTypes ScheduleBackup.

Local Open Scope Z_scope.

Definition minCronGranularity : Z := 60 * minute.
Definition minCronOffset : Z := 10 * minute.
Definition AnnotationSVMBackupSkipCronCheck : string := "harvesterhci.io/svmbackupSkipCronCheck".
Definition BackupTargetSettingName : string := "backup-target".
Definition AWSAccessKey : string := "AWS_ACCESS_KEY_ID".
Definition AWSSecretKey : string := "AWS_SECRET_ACCESS_KEY".
Definition AWSEndpoints : string := "AWS_ENDPOINTS".
Definition AWSCERT : string := "AWS_CERT".
Definition S3BackupType : string := "s3".
Definition NFSBackupType : string := "nfs".

(** [time.Duration.String] *)
Class DurationString := { duration_String : Z -> string }.

(** ** [pkg/settings]: the backup target *)

Record BackupTarget := mkBackupTarget {
  bt_Type : string;
  bt_Endpoint : string;
  bt_AccessKeyID : string;
  bt_SecretAccessKey : string;
  bt_BucketName : string;
  bt_BucketRegion : string;
  bt_Cert : string;
  bt_VirtualHostedStyle : bool;
  bt_RefreshIntervalInSeconds : Z }.

#[export] Instance BackupTarget_eq : EqDecision BackupTarget.
Proof. solve_decision. Defined.

Definition backupTarget0 : BackupTarget := mkBackupTarget "" "" "" "" "" "" "" false 0.

Definition IsDefaultBackupTarget (target : BackupTarget) : bool :=
  if negb (String.eqb (bt_Type target) "") then false else bool_decide (target = backupTarget0).

Definition ConstructEndpoint (target : BackupTarget) : string :=
  if String.eqb (bt_Type target) S3BackupType
  then "s3://" +:+ bt_BucketName target +:+ "@" +:+ bt_BucketRegion target +:+ "/"
  else if String.eqb (bt_Type target) NFSBackupType
  then "nfs://" +:+ TrimPrefix (bt_Endpoint target) "nfs://"
  else bt_Endpoint target.

(** ** Environment *)

(** A cron expression gives the next time after a time.  Each cached schedule comes with
    the time its index entries were computed at. *)
Record HEnv := mkHEnv {
  he_cron : string -> (Z -> Z) + goerror;
  he_now : Z;
  he_backupTarget : string + goerror;
  he_secret : gmap string string + goerror;
  he_connect : gmap string string -> string -> option goerror;
  he_schedules : list (ScheduleVMBackup * Z) + goerror }.

Abbreviation Proc A := (M (gmap string string) A) (only parsing).

Definition Setenv (k v : string) : Proc unit := fun env => (Ok tt, <[k := v]> env).

Section Webhook.
Context `{!DurationString} `{!JsonCodec BackupTarget} (E : HEnv).

Definition DecodeBackupTarget (value : string) : outcome BackupTarget :=
  if negb (String.eqb value "") then
    match json_unmarshal value with
    | Some t => Ok t
    | None => Err (ErrWrap "unmarshal failed, error" (ErrText value))
    end
  else Ok backupTarget0.

(** ** [pkg/util/svmbackup.go] *)

(** From the time [now]. *)
Definition granularityAt (now : Z) (svmbackup : ScheduleVMBackup) : outcome Z :=
  next ← answer (he_cron E (svb_Cron svmbackup));
  let nextTime := next now in
  let followingTime := next nextTime in
  Ok (timeSub followingTime nextTime).

Definition GetCronGranularity (svmbackup : ScheduleVMBackup) : outcome Z :=
  granularityAt (he_now E) svmbackup.

Definition CalculateCronOffset (svmbackup1 svmbackup2 : ScheduleVMBackup) : outcome Z :=
  schedule1 ← answer (he_cron E (svb_Cron svmbackup1));
  schedule2 ← answer (he_cron E (svb_Cron svmbackup2));
  let nextRun1 := schedule1 (schedule1 (he_now E)) in
  let nextRun2 := schedule2 (schedule2 (he_now E)) in
  let offset := timeSub nextRun2 nextRun1 in
  if 0 <=? offset then Ok offset else Ok (int64 (- offset)).

Definition SkipCronGranularityCheck (svmbackup : ScheduleVMBackup) : bool :=
  negb (String.eqb (gm_str (om_Annotations (svb_meta svmbackup)) AnnotationSVMBackupSkipCronCheck) "").

(** ** [pkg/webhook/indexeres] *)

Definition scheduleVMBackupBySourceVM (s : ScheduleVMBackup) : list string :=
  [svb_Namespace s +:+ "/" +:+ vbs_SourceName (svb_VMBackupSpec s)].

(** An entry computed at [t]; the informer does not go on with one that fails. *)
Definition scheduleVMBackupByCronGranularity (t : Z) (s : ScheduleVMBackup) : list string :=
  match granularityAt t s with
  | Ok granularity => [duration_String granularity]
  | _ => []
  end.

Definition byIndex (index : ScheduleVMBackup * Z -> list string) (key : string)
  : outcome (list ScheduleVMBackup) :=
  l ← answer (he_schedules E);
  Ok (map fst (List.filter (fun p => str_in key (index p)) l)).

(** ** The checks *)

Definition setCredentials (secret : gmap string string) : Proc unit :=
  let data k := default "" (secret !! k) in
  Setenv AWSAccessKey (data AWSAccessKey);;
  Setenv AWSSecretKey (data AWSSecretKey);;
  Setenv AWSEndpoints (data AWSEndpoints);;
  Setenv AWSCERT (data AWSCERT).

Definition connect (endpoint : string) : Proc unit := fun env =>
  match he_connect E env endpoint with
  | Some e => (Err (ErrWrap "failed to connect to backup target, reason" e), env)
  | None => (Ok tt, env)
  end.

Definition GetBackupStoreDriver (target : BackupTarget) : Proc unit :=
  (if String.eqb (bt_Type target) S3BackupType
   then lift (answer (he_secret E)) ≫= setCredentials else mret tt);;
  connect (ConstructEndpoint target).

Definition checkTargetHealth : Proc unit :=
  value ← lift (answer (he_backupTarget E));
  if String.eqb value "" then throw (ErrText ("setting " +:+ BackupTargetSettingName +:+ " is empty"))
  else
    target ← lift (wrapErr (ErrWrap ("can't decode setting " +:+ BackupTargetSettingName
                              +:+ " value " +:+ value +:+ ", error")) (DecodeBackupTarget value));
    if IsDefaultBackupTarget target
    then throw (ErrText ("setting " +:+ BackupTargetSettingName +:+ " is not set"))
    else GetBackupStoreDriver target.

Definition offsetCheck (svmbackup s : ScheduleVMBackup) : outcome unit :=
  if String.eqb (svb_UID s) (svb_UID svmbackup) then Ok tt
  else
    offset ← CalculateCronOffset svmbackup s;
    if offset <? minCronOffset
    then Err (ErrText ("same granularity as schedule " +:+ svb_Name s +:+ " and offset less than "
                +:+ duration_String minCronOffset))
    else Ok tt.

Definition cronGranularityCheck (svmbackup : ScheduleVMBackup) : outcome unit :=
  granularity ← wrapErr (fun _ => AdmitInvalid "invalid cron format") (GetCronGranularity svmbackup);
  if granularity <? minCronGranularity
  then Err (ErrText ("schedule granularity " +:+ duration_String granularity +:+ " less than "
              +:+ duration_String minCronGranularity))
  else
    svmbackups ← byIndex (fun p => scheduleVMBackupByCronGranularity p.2 p.1)
                   (duration_String granularity);
    firstErr (offsetCheck svmbackup) svmbackups.

(** The checks [Create] and [Update] share. *)
Definition checkSpec (s : ScheduleVMBackup) : outcome unit :=
  if svb_Retain s <=? svb_MaxFailure s
  then Err (AdmitInvalid "max failure should be less than retain")
  else
    _ ← wrapErr (fun _ => AdmitInvalid "invalid cron format") (answer (he_cron E (svb_Cron s)));
    if SkipCronGranularityCheck s then Ok tt
    else wrapErr (fun e => AdmitInvalid (error_Error e)) (cronGranularityCheck s).

Definition targetHealthy : Proc unit :=
  mapErr (fun e => AdmitInvalid (error_Error e)) checkTargetHealth.

Definition Create (newSVMBackup : ScheduleVMBackup) : Proc unit :=
  lift (checkSpec newSVMBackup);;
  let srcVM := svb_Namespace newSVMBackup +:+ "/" +:+ vbs_SourceName (svb_VMBackupSpec newSVMBackup) in
  svmbackups ← lift (byIndex (fun p => scheduleVMBackupBySourceVM p.1) srcVM);
  match svmbackups with
  | s :: _ =>
      throw (AdmitInvalid ("VM " +:+ srcVM +:+ " already has " +:+ vbs_Type (svb_VMBackupSpec s) +:+ " schedule"))
  | [] =>
      if String.eqb (vbs_Type (svb_VMBackupSpec newSVMBackup)) Snapshot then mret tt
      else targetHealthy
  end.

Definition Update (oldSVMBackup newSVMBackup : ScheduleVMBackup) : Proc unit :=
  match om_DeletionTimestamp (svb_meta newSVMBackup) with
  | Some _ => mret tt
  | None =>
      if bool_decide (svb_VMBackupSpec oldSVMBackup <> svb_VMBackupSpec newSVMBackup)
      then throw (AdmitInvalid "source vm can't be changed")
      else
        lift (checkSpec newSVMBackup);;
        if negb (svb_Suspend oldSVMBackup) || svb_Suspend newSVMBackup then mret tt
        else if String.eqb (vbs_Type (svb_VMBackupSpec newSVMBackup)) Snapshot then mret tt
        else targetHealthy
  end.

Definition Delete : Proc unit := mret tt.
End Webhook.

(** ** What admission keeps *)

Definition live (s : ScheduleVMBackup) : Prop := om_DeletionTimestamp (svb_meta s) = None.

Abbreviation Schedules := (gmap (string * string) ScheduleVMBackup) (only parsing).

Section Admission.
Context `{!DurationString} `{!JsonCodec BackupTarget} (cron : string -> (Z -> Z) + goerror).

(** The validator sees the stored schedules, however long ago they were indexed, and what
    it sees of the rest may be different each time. *)
Definition sees (E : HEnv) (m : Schedules) : Prop :=
  he_cron E = cron /\ exists l, he_schedules E = inl l /\
    forall s, s ∈ map fst l <-> exists k, m !! k = Some s.

Inductive admitted (m : Schedules) : Schedules -> Prop :=
| ad_create E env env' s :
    sees E m -> live s -> m !! (svb_Namespace s, svb_Name s) = None ->
    Create E s env = (Ok tt, env') -> admitted m (<[(svb_Namespace s, svb_Name s) := s]> m)
| ad_update E env env' old new :
    sees E m -> m !! (svb_Namespace new, svb_Name new) = Some old -> (live new -> live old) ->
    Update E old new env = (Ok tt, env') -> admitted m (<[(svb_Namespace new, svb_Name new) := new]> m)
| ad_delete E env env' k :
    Delete env = (Ok tt, env') -> sees E m -> admitted m (delete k m).

Record admissibleSet (m : Schedules) : Prop := mkAdmissibleSet {
  am_keys : forall k s, m !! k = Some s -> k = (svb_Namespace s, svb_Name s);
  am_spec : forall k s, m !! k = Some s -> live s ->
    svb_MaxFailure s < svb_Retain s /\ exists next, cron (svb_Cron s) = inl next;
  am_source : forall k k' s s', m !! k = Some s -> m !! k' = Some s' -> live s -> live s' ->
    svb_Namespace s = svb_Namespace s' ->
    vbs_SourceName (svb_VMBackupSpec s) = vbs_SourceName (svb_VMBackupSpec s') -> k = k' }.

Lemma answer_Ok {A} (r : A + goerror) a : answer r = Ok a <-> r = inl a.
Proof. destruct r; cbn; naive_solver. Qed.

Lemma checkSpec_Ok E s :
  checkSpec E s = Ok tt ->
  svb_MaxFailure s < svb_Retain s /\ (exists next, he_cron E (svb_Cron s) = inl next) /\
  (SkipCronGranularityCheck s = false -> cronGranularityCheck E s = Ok tt).
Proof.
  unfold checkSpec. destruct (Z.leb_spec (svb_Retain s) (svb_MaxFailure s)); [done|].
  intros (next & Hn%wrapErr_Ok%answer_Ok & Hg)%obind_Ok. split_and!; [done|by eauto|].
  intros Hs. rewrite Hs in Hg. by apply wrapErr_Ok in Hg.
Qed.

Lemma lift_bind_Ok {S A B} (o : outcome A) (f : A -> M S B) s b s' :
  (lift o ≫= f) s = (Ok b, s') -> exists a, o = Ok a /\ f a s = (Ok b, s').
Proof. unfold mbind, M_bind, lift. destruct o; naive_solver. Qed.

Lemma bySource_elem E m srcVM l s k :
  sees E m -> byIndex E (fun p => scheduleVMBackupBySourceVM p.1) srcVM = Ok l ->
  m !! k = Some s -> svb_Namespace s +:+ "/" +:+ vbs_SourceName (svb_VMBackupSpec s) = srcVM -> s ∈ l.
Proof.
  intros (_ & l0 & El & Hl) Hix Hk Hs. unfold byIndex in Hix. rewrite El in Hix. cbn in Hix.
  injection Hix as <-. assert (s ∈ map fst l0) as (p & -> & Hp)%list_elem_of_fmap by (apply Hl; eauto).
  apply list_elem_of_fmap. exists p. split; [done|]. apply filter_elem. split; [done|].
  apply bool_decide_eq_true. rewrite <- Hs. by left.
Qed.

Lemma create_Ok E s env env' m k o :
  sees E m -> Create E s env = (Ok tt, env') ->
  checkSpec E s = Ok tt /\
  (m !! k = Some o -> svb_Namespace o = svb_Namespace s ->
   vbs_SourceName (svb_VMBackupSpec o) = vbs_SourceName (svb_VMBackupSpec s) -> False).
Proof.
  intros Hsee Hc. unfold Create in Hc. apply lift_bind_Ok in Hc as ([] & Hs & Hc). split; [done|].
  apply lift_bind_Ok in Hc as (l & Hl & Hc). intros Hk Hns Hsrc.
  eapply (bySource_elem E m _ l o k) in Hl; [|done..|by rewrite Hns, Hsrc].
  by destruct l as [|]; [apply elem_of_nil in Hl|].
Qed.

Lemma update_Ok E old new env env' :
  Update E old new env = (Ok tt, env') -> live new ->
  svb_VMBackupSpec old = svb_VMBackupSpec new /\ checkSpec E new = Ok tt.
Proof.
  unfold Update, live. intros Hu Hl. rewrite Hl in Hu. case_bool_decide as Heq; [done|].
  by apply lift_bind_Ok in Hu as ([] & Hs & _).
Qed.

Lemma admitted_set m m' : admissibleSet m -> admitted m m' -> admissibleSet m'.
Proof.
  intros [Hk Hs Hsrc] [E env env' s Hsee Hl Hfree Hc|E env env' old new Hsee Hold Hl Hu|E env env' k _ _].
  - assert (forall k o, m !! k = Some o -> svb_Namespace o = svb_Namespace s ->
      vbs_SourceName (svb_VMBackupSpec o) = vbs_SourceName (svb_VMBackupSpec s) -> False) as Hnew
      by (intros k o; by eapply create_Ok).
    destruct (create_Ok E s env env' m ("", "") s Hsee Hc) as [Hspec _].
    apply checkSpec_Ok in Hspec as (Hm & Hp & _). rewrite (proj1 Hsee) in Hp. constructor.
    + intros k o [[<- <-]|[_ Ho]]%lookup_insert_Some; [done|by apply Hk].
    + intros k o [[<- <-]|[_ Ho]]%lookup_insert_Some; [by split|by apply (Hs k)].
    + intros k k' o o' [[<- <-]|[_ Ho]]%lookup_insert_Some [[<- <-]|[_ Ho']]%lookup_insert_Some ?? En Es;
        [done|by destruct (Hnew k' o')|by destruct (Hnew k o)|by eapply Hsrc].
  - set (key := (svb_Namespace new, svb_Name new)) in *. constructor.
    + intros k o [[<- <-]|[_ Ho]]%lookup_insert_Some; [done|by apply Hk].
    + intros k o [[<- <-]|[_ Ho]]%lookup_insert_Some Hlo; [|by apply (Hs k)].
      destruct (update_Ok E old new env env' Hu Hlo) as [_ (Hm & Hp & _)%checkSpec_Ok].
      rewrite (proj1 Hsee) in Hp. done.
    + pose proof (Hk _ _ Hold) as [= Eo _].
      assert (live new -> vbs_SourceName (svb_VMBackupSpec old) = vbs_SourceName (svb_VMBackupSpec new)) as Es.
      { intros Hln. by destruct (update_Ok E old new env env' Hu Hln) as [-> _]. }
      intros k k' o o' [[<- <-]|[Hne Ho]]%lookup_insert_Some [[<- <-]|[Hne' Ho']]%lookup_insert_Some Hlo Hlo' En Esrc.
      * done.
      * apply (Hsrc key k' old o'); try done; [by apply Hl|congruence|]. rewrite Es by done. done.
      * apply (Hsrc k key o old); try done; [by apply Hl|congruence|]. rewrite Es by done. done.
      * by eapply Hsrc.
  - constructor.
    + intros k' o [_ Ho]%lookup_delete_Some. by apply Hk.
    + intros k' o [_ Ho]%lookup_delete_Some. by apply (Hs k').
    + intros k1 k2 o o' [_ Ho]%lookup_delete_Some [_ Ho']%lookup_delete_Some. by apply Hsrc.
Qed.

(** A schedule whose spacing is checked runs at most once an hour, and the second run from
    now is at least ten minutes from that of every other schedule of the same period. *)
Lemma spaced E s l :
  cronGranularityCheck E s = Ok tt -> he_schedules E = inl l ->
  exists g, GetCronGranularity E s = Ok g /\ minCronGranularity <= g /\
    forall s' t, (s', t) ∈ l -> svb_UID s' <> svb_UID s -> granularityAt E t s' = Ok g ->
      exists d, CalculateCronOffset E s s' = Ok d /\ minCronOffset <= d.
Proof.
  unfold cronGranularityCheck. intros (g & Hg%wrapErr_Ok & Hc)%obind_Ok El. exists g.
  destruct (Z.ltb_spec g minCronGranularity); [done|]. split_and!; [done..|].
  intros s' t Hin Hu Hg'. unfold byIndex in Hc. rewrite El in Hc. cbn in Hc.
  set (found := map fst _) in Hc. assert (s' ∈ found) as Hs'.
  { apply list_elem_of_fmap. exists (s', t). split; [done|]. apply filter_elem. split; [done|].
    cbn [fst snd]. unfold scheduleVMBackupByCronGranularity. rewrite Hg'.
    apply bool_decide_eq_true. by left. }
  pose proof (proj1 (firstErr_Ok _ _) Hc s' Hs') as Ho.
  unfold offsetCheck in Ho. rewrite (proj2 (String.eqb_neq _ _) Hu) in Ho.
  apply obind_Ok in Ho as (d & Hd & Hlt).
  exists d. split; [done|]. destruct (Z.ltb_spec d minCronOffset); [done|lia].
Qed.

(** C13: The webhook keeps schedules in order.  However many schedules are created, updated
    and deleted, as long as the validator sees what is stored: no virtual machine has two
    schedules that are not being deleted, each of these tolerates fewer failures than it
    retains backups and has a well-formed cron expression.  And whatever is admitted without
    the annotation that skips the check has its next two runs from then at least an hour
    apart, and its second run from then ten minutes or more from the second run of every
    other listed schedule of the same period.  Later runs are not looked at
    ([spacing_depends_on_clock]). *)
Theorem schedules_admitted m0 m :
  admissibleSet m0 -> reachable (eq m0) admitted m ->
  admissibleSet m /\
  forall E s env env' l,
    (Create E s env = (Ok tt, env') \/
     live s /\ exists old, Update E old s env = (Ok tt, env')) ->
    SkipCronGranularityCheck s = false -> he_schedules E = inl l ->
    exists g, GetCronGranularity E s = Ok g /\ minCronGranularity <= g /\
      forall s' t, (s', t) ∈ l -> svb_UID s' <> svb_UID s -> granularityAt E t s' = Ok g ->
        exists d, CalculateCronOffset E s s' = Ok d /\ minCronOffset <= d.
Proof.
  intros H0 Hr. split.
  - induction Hr as [m <-|m m' _ IH Hst]; [done|]. by eapply admitted_set.
  - intros E s env env' l Ha Hskip Hl. apply spaced; [|done].
    assert (checkSpec E s = Ok tt) as (_ & _ & Hc)%checkSpec_Ok; [|by apply Hc].
    destruct Ha as [Hc|[Hlive (old & Hu)]]; [|by eapply update_Ok].
    unfold Create in Hc. by apply lift_bind_Ok in Hc as ([] & Hs & _).
Qed.
End Admission.

(** ** Examples *)

Module ScheduleWebhookExamples.
#[export] Instance nanoseconds : DurationString := {| duration_String d := Itoa d +:+ "ns" |}.

Definition codecT : Type :=
  string * string * string * string * string * string * string * bool * Z.
#[export] Instance targetCodec : JsonCodec BackupTarget.
Proof.
  refine {| json_marshal t := @json_marshal codecT (countable_codec codecT)
              (bt_Type t, bt_Endpoint t, bt_AccessKeyID t, bt_SecretAccessKey t, bt_BucketName t,
               bt_BucketRegion t, bt_Cert t, bt_VirtualHostedStyle t, bt_RefreshIntervalInSeconds t);
            json_unmarshal v :=
              (fun '(a, b, c, d, e, f, g, h, i) => mkBackupTarget a b c d e f g h i)
                <$> @json_unmarshal codecT (countable_codec codecT) v |}.
  abstract (intros []; by rewrite json_roundtrip).
Defined.

Definition hour : Z := 60 * minute.

(** Every hour at minute 0, and at minute 55. *)
Definition at0 (t : Z) : Z := (t / hour + 1) * hour.
Definition at55 (t : Z) : Z := at0 (t - 55 * minute) + 55 * minute.
Definition hourly (e : string) : (Z -> Z) + goerror :=
  if String.eqb e "0 * * * *" then inl at0
  else if String.eqb e "55 * * * *" then inl at55 else inr (ErrText "invalid").

Definition sched (name vm expr : string) (suspend : bool) : ScheduleVMBackup :=
  mkScheduleVMBackup (mkMeta name "" "ns" name None None [] 0 None) expr 8 4 suspend
    (mkVMBackupSpec None "VirtualMachine" vm Snapshot None) None 0 false [].
Definition a : ScheduleVMBackup := sched "a" "vm1" "0 * * * *" false.
Definition b (suspend : bool) : ScheduleVMBackup := sched "b" "vm2" "55 * * * *" suspend.

Definition env (now : Z) (l : list (ScheduleVMBackup * Z)) : HEnv :=
  mkHEnv hourly now (inl "") (inl ∅) (fun _ _ => None) (inl l).

Lemma at55_apart t : at0 (at55 t) = at55 t + 5 * minute.
Proof.
  unfold at55. set (h := at0 (t - 55 * minute)). assert (exists q, h = q * hour) as [q ->].
  { unfold h, at0. by eexists. }
  unfold at0. rewrite Z.div_add_l by done. replace (55 * minute / hour) with 0 by done.
  unfold hour, minute. lia.
Qed.

(** Whether two schedules are far enough apart depends on the time of day they are compared
    at: one that always runs five minutes before another is admitted at 57 minutes past,
    and at half past even an update that only suspends it is refused. *)
Theorem spacing_depends_on_clock :
  (forall t, at0 (at55 t) = at55 t + 5 * minute) /\
  (Create (env (57 * minute) [(a, 0)]) (b false) ∅).1 = Ok tt /\
  exists e, (Update (env (90 * minute) [(a, 0); (b false, 57 * minute)]) (b false) (b true) ∅).1 = Err e.
Proof.
  split; [exact at55_apart|]. split; [vm_compute; reflexivity|].
  eexists. vm_compute. reflexivity.
Qed.

Definition stored0 : gmap (string * string) ScheduleVMBackup := {[("ns", "a") := a]}.

Lemma stored0_admissible : admissibleSet hourly stored0.
Proof.
  unfold stored0. constructor.
  - by intros k s [<- <-]%lookup_singleton_Some.
  - intros k s [<- <-]%lookup_singleton_Some _. split; [done|by eexists].
  - by intros k k' s s' [<- <-]%lookup_singleton_Some [<- <-]%lookup_singleton_Some.
Qed.

(** A second machine gets a schedule. *)
Lemma schedules_admitted_witness :
  exists m, m !! ("ns", "b") = Some (b false) /\ admissibleSet hourly m.
Proof.
  exists (<[("ns", "b") := b false]> stored0). split; [apply lookup_insert_eq|].
  apply (schedules_admitted hourly stored0 _ stored0_admissible).
  eapply reach_step; [by apply reach_init|].
  apply (ad_create hourly stored0 (env (57 * minute) [(a, 0)]) ∅ ∅ (b false)).
  - split; [done|]. exists [(a, 0)]. split; [done|]. intros s. cbn. rewrite list_elem_of_singleton. split.
    + intros ->. by exists ("ns", "a").
    + unfold stored0. by intros (k & [_ <-]%lookup_singleton_Some).
  - done.
  - vm_compute. reflexivity.
  - vm_compute. reflexivity.
Defined.
End ScheduleWebhookExamples.
