(* ===== verification/UpgradeWebhook.v ===== *)
(** Admission of upgrades, [pkg/webhook/resources/upgrade]: the mutator, which writes down
    the nodes to pause, and the validator, which admits an upgrade only on a cluster that is
    fit for it; with the helpers they call (pkg/util/certs.go, endpoint.go, setting.go,
    addon/addon.go, virtualmachineinstance, the indexes of pkg/webhook/indexeres).

    The caches, the kubelets and the certificates of the API servers are the environment
    [UEnv]; one request sees one state of them.  Percentages are IEEE doubles. *)

From Stdlib Require Import Ascii ZArith Floats.SpecFloat.
From S2P Require Import Prelude K8s BackupTypes NodeUtil Addon Upgrade UpgradeJobs UpgradeWorld UpgradeVersion.

Local Open Scope Z_scope.

(** ** Constants *)

Definition skipWebhookAnnotation : string := "harvesterhci.io/skipWebhook".
Definition skipSingleReplicaDetachedVol : string := "harvesterhci.io/skipSingleReplicaDetachedVol".
Definition rkeInternalIPAnnotation : string := "rke2.io/internal-ip".
Definition managedChartNamespace : string := FleetLocalNamespaceName.
Definition defaultNewImageSize : Z := 13 * 1024 * 1024 * 1024.
Definition defaultMinCertsExpirationInDay : Z := 7.
Definition LabelServerFlavor : string := "harvesterhci.io/serverFlavor".
Definition ServerFlavorSettingName : string := "server-flavor".
Definition AnnotationSkipGarbageCollectionThresholdCheck : string :=
  "harvesterhci.io/skipGarbageCollectionThresholdCheck".
Definition AnnotationMinCertsExpirationInDay : string :=
  "harvesterhci.io/minCertsExpirationInDay".
Definition ManualType : string := "manual".
Definition LabelServiceName : string := "kubernetes.io/service-name".
Definition AddressTypeIPv4 : string := "IPv4".
Definition ClusterPhaseProvisioning : string := "Provisioning".
Definition ClusterPhaseProvisioned : string := "Provisioned".
Definition MachinePhaseRunning : string := "Running".
Definition BundleConditionReady : string := "Ready".
Definition VolumeRobustnessDegraded : string := "degraded".
Definition VolumeStateCreating : string := "creating".
Definition VolumeStateAttached : string := "attached".
Definition VolumeStateAttaching : string := "attaching".
Definition VmiRunning : string := "Running".

(** ** Resources *)

Record CapiCluster := mkCapiCluster { cc_Phase : string }.
Record CapiMachine := mkCapiMachine {
  cma_meta : ObjectMeta; cma_Phase : string; cma_NodeRef : option string }.
Record ChartState := mkChartState { chs_meta : ObjectMeta; chs_Conditions : list Condition }.
Record LhVolume := mkLhVolume {
  lh_meta : ObjectMeta; lh_NumberOfReplicas : Z; lh_Robustness : string; lh_State : string;
  lh_PVCNamespace : string; lh_PVCName : string }.            (* of its KubernetesStatus *)
(** A VM: its pending volume requests, and the volumes of its template. *)
Record HotVM := mkHotVM {
  hvm_meta : ObjectMeta; hvm_VolumeRequests : list string; hvm_Template : option (list string) }.
(** A volume of an instance: claim or data volume, and whether it is hotpluggable. *)
Record VmiVolume := mkVmiVolume {
  vv_Name : string; vv_PersistentVolumeClaim : option bool; vv_DataVolume : option bool }.
Record HotVMI := mkHotVMI {
  hvi_meta : ObjectMeta; hvi_Phase : string; hvi_NodeName : string;
  hvi_NodeSelector : gomap string; hvi_HostDevices : list string;
  hvi_RequiredAffinity : option (list (list SelectorRequirement));
  hvi_Volumes : list VmiVolume }.
Record Endpoint := mkEndpoint { ep_Ready : option bool; ep_Addresses : list string }.
Record EndpointSlice := mkEndpointSlice {
  eps_meta : ObjectMeta; eps_AddressType : string; eps_Endpoints : list Endpoint }.
(** The file system of a kubelet's summary: available, capacity and used bytes. *)
Record FsStats := mkFsStats {
  fs_AvailableBytes : option Z; fs_CapacityBytes : option Z; fs_UsedBytes : option Z }.

(** What comes from libraries: the kubelet's JSON, Kubernetes' node affinity. *)
Class KubeletLib := {
  decodeSummary : string -> option (option FsStats);            (* Summary.Node.Fs *)
  decodeKubeletConfiguration : string -> option (option Z);     (* ImageGCHighThresholdPercent *)
  MatchNodeSelectorTerms : Node -> list (list SelectorRequirement) -> outcome bool }.

(** The answers of caches, of [http.NewRequest] and of kubelets, the peer certificates of an
    address (their NotAfter, in seconds), the port of a node's kubelet, and the clock:
    seconds and nanoseconds.  Seconds are counted as in [time.Time], from year 1. *)
Record UEnv := mkUEnv {
  ue_upgrades : list Upgrade + goerror;
  ue_addons : list Addon.Addon + goerror;
  ue_nodes : list Node + goerror;
  ue_lhVolumes : list LhVolume + goerror;
  ue_cluster : string -> string -> CapiCluster + goerror;
  ue_machines : list CapiMachine + goerror;
  ue_managedCharts : list ChartState + goerror;
  ue_version : string -> string -> Version + goerror;
  ue_vmBackups : list VMBackup + goerror;
  ue_svmbackups : list ScheduleVMBackup + goerror;
  ue_setting : string -> Setting + goerror;
  ue_vms : list HotVM + goerror;
  ue_vmGetError : string -> string -> option goerror;
  ue_vmis : list HotVMI + goerror;
  ue_endpointSlices : list EndpointSlice + goerror;
  ue_kubeletPort : Node -> Z;
  ue_newRequest : string -> option goerror;
  ue_http : string -> HttpAnswer;
  ue_peerCertificates : string -> list Z + goerror;
  ue_now : Z * Z }.

(** ** Label selectors *)

(** [NotIn] also selects objects without the label. *)
Definition selNotIn (key : string) (values : list string) (m : ObjectMeta) : bool :=
  match gm_get (om_Labels m) key with
  | None => true
  | Some v => negb (str_in v values)
  end.
Definition selIn (key : string) (values : list string) (m : ObjectMeta) : bool :=
  match gm_get (om_Labels m) key with
  | None => false
  | Some v => str_in v values
  end.
Definition inNamespace (ns : string) (m : ObjectMeta) : bool := String.eqb (om_Namespace m) ns.

(** ** Helpers *)

(** [addonutil.IsAddonOnProcessing] *)
Definition IsAddonOnProcessing (addon : option Addon.Addon) : string * bool :=
  match addon with
  | None => ("", false)
  | Some a =>
      let at_ := "addon " +:+ ad_Namespace a +:+ "/" +:+ ad_Name a in
      if negb (as_Enabled (ad_Spec a)) then
        if String.eqb (ad_Status a) AddonDisabled || String.eqb (ad_Status a) AddonInitState
        then ("", false)
        else (at_ +:+ " is disabled but still on status " +:+ ad_Status a, true)
      else if String.eqb (ad_Status a) AddonDeployed then ("", false)
      else (at_ +:+ " is enabled but still on status " +:+ ad_Status a, true)
  end.

Definition FormatBool (b : bool) : string := if b then "true" else "false".
Definition vmBackupByIsProgressing (obj : VMBackup) : list string := [FormatBool (IsProcessing obj)].
Definition scheduleVMBackupBySuspended (obj : ScheduleVMBackup) : list string :=
  [FormatBool (svb_Suspended obj)].
Definition VolumeByReplicaCount (obj : LhVolume) : list string := [Itoa (lh_NumberOfReplicas obj)].

(** [cache.GetByIndex] *)
Definition GetByIndex {A} (index : A -> list string) (key : string) (l : list A) : list A :=
  List.filter (fun a => str_in key (index a)) l.

(** A double from an integer. *)
Definition float64 (z : Z) : spec_float := binary_normalize 53 1024 z 0 false.
Definition uint64 (z : Z) : Z := z mod 2 ^ 64.

Definition metaRef (m : ObjectMeta) : string := om_Namespace m +:+ "/" +:+ om_Name m.

(** ** [pkg/util/endpoint.go] and [pkg/util/certs.go] *)

(** Every address once, with its port. *)
Fixpoint addAddresses (seen : gset string) (addresses : list string) : gset string * list string :=
  match addresses with
  | [] => (seen, [])
  | a :: l =>
      if bool_decide (a ∈ seen) then addAddresses seen l
      else let '(seen, ips) := addAddresses ({[a]} ∪ seen) l in (seen, (a +:+ ":6443") :: ips)
  end.

Definition endpointAddresses (e : Endpoint) : list string :=
  match ep_Ready e with
  | Some false => []
  | _ => ep_Addresses e
  end.

Definition sliceAddresses (s : EndpointSlice) : list string :=
  if negb (String.eqb (eps_AddressType s) AddressTypeIPv4) then []
  else concat (map endpointAddresses (eps_Endpoints s)).

Definition GetKubernetesIps (E : UEnv) : outcome (list string) :=
  slices ← answer (ue_endpointSlices E);
  Ok (addAddresses ∅ (concat (map sliceAddresses
        (List.filter (fun s => inNamespace "default" (eps_meta s)
                               && hasLabel LabelServiceName "kubernetes" (eps_meta s)) slices)))).2.

(** The certificate that expires first; nil when the peer shows none. *)
Definition GetAddrEarliestExpiringCert (E : UEnv) (addr : string) : option Z + goerror :=
  match ue_peerCertificates E addr with
  | inr e => inr e
  | inl certs =>
      inl (foldl (fun earliest cert =>
             match earliest with
             | None => Some cert
             | Some t => if cert <? t then Some cert else earliest
             end) None certs)
  end.

(** Addresses that do not answer are passed over; the time of a nil certificate is read when
    there is another one before it. *)
Fixpoint GetAddrsEarliestExpiringCert (E : UEnv) (addrs : list string) (earliest : option Z)
  : outcome (option Z) :=
  match addrs with
  | [] => Ok earliest
  | addr :: addrs =>
      match GetAddrEarliestExpiringCert E addr with
      | inr _ => GetAddrsEarliestExpiringCert E addrs earliest
      | inl cert =>
          match earliest, cert with
          | None, _ => GetAddrsEarliestExpiringCert E addrs cert
          | Some _, None => Panic
          | Some t, Some c =>
              GetAddrsEarliestExpiringCert E addrs (if c <? t then Some c else Some t)
          end
      end
  end.

(** ** [pkg/util/virtualmachineinstance] *)

Section Webhook.
Context {KL : KubeletLib} {MO : MapOrder}.
Context `{!JsonCodec (gomap string)} `{!JsonCodec UpgradeConfig}.

Section Affinity.
Context (vmi : HotVMI).

(** One entry per node name; a node after it of the same name overwrites it. *)
Fixpoint migratabilityMap (nodes : list Node) (m : gmap string bool) : outcome (gmap string bool) :=
  match nodes with
  | [] => Ok m
  | node :: nodes =>
      if String.eqb (hvi_NodeName vmi) (node_Name node) then migratabilityMap nodes m
      else if node_Unschedulable node
      then migratabilityMap nodes (<[node_Name node := false]> m)
      else
        match hvi_RequiredAffinity vmi with
        | None => migratabilityMap nodes (<[node_Name node := true]> m)
        | Some terms =>
            ok ← MatchNodeSelectorTerms node terms;
            migratabilityMap nodes (<[node_Name node := ok]> m)
        end
  end.

Definition migratableByNodeAffinity (nodes : list Node) : outcome bool :=
  m ← migratabilityMap nodes ∅;
  Ok (existsb snd (range m)).
End Affinity.

Fixpoint nonLiveMigratable (nonWitnessNodes : list Node) (vmis : list HotVMI)
  : outcome (list string) :=
  match vmis with
  | [] => Ok []
  | vmi :: vmis =>
      blocked ← match hvi_NodeSelector vmi with
                | Some _ => Ok true
                | None =>
                    match hvi_HostDevices vmi with
                    | _ :: _ => Ok true
                    | [] => migratable ← migratableByNodeAffinity vmi nonWitnessNodes;
                            Ok (negb migratable)
                    end
                end;
      rest ← nonLiveMigratable nonWitnessNodes vmis;
      Ok (if blocked : bool then metaRef (hvi_meta vmi) :: rest else rest)
  end.

Definition GetAllNonLiveMigratableVMINames (vmis : list HotVMI) (nodes : list Node)
  : outcome (list string) :=
  let nonWitnessNodes := ExcludeWitnessNodes nodes in
  if Nat.eqb (length nonWitnessNodes) 1 then Ok (map (fun vmi => metaRef (hvi_meta vmi)) vmis)
  else nonLiveMigratable nonWitnessNodes vmis.

(** ** The mutator *)

Section Env.
Context (E : UEnv).

Definition effectiveValue (s : Setting) : string :=
  if String.eqb (set_Value s) "" then set_Default s else set_Value s.

Definition getUpgradeConfig : outcome UpgradeConfig :=
  setting ← answer (ue_setting E UpgradeConfigSettingName);
  DecodeUpgradeConfig (effectiveValue setting).

(** The strategy the configuration sets, when it sets a mode. *)
Definition isNodeUpgradeManualMode (config : UpgradeConfig) : bool :=
  match uc_NodeUpgradeOption config with
  | Some (Some strategy) => match nst_Mode strategy with
                            | Some mode => String.eqb mode ManualType
                            | None => false
                            end
  | _ => false
  end.

Definition getNodesToPause (config : UpgradeConfig) : outcome (list string) :=
  match uc_NodeUpgradeOption config with
  | Some (Some strategy) =>
      match nst_Mode strategy with
      | None => Panic
      | Some mode =>
          if negb (String.eqb mode ManualType) then Ok []
          else
            nodes ← answer (ue_nodes E);
            let existingNodeNames := map node_Name nodes in
            match nst_PauseNodes strategy with
            | [] => Ok existingNodeNames
            | pauseNodes =>
                Ok (sortStrings (elements
                      ((list_to_set existingNodeNames : gset string) ∩ list_to_set pauseNodes)))
            end
      end
  | _ => Panic
  end.

(** [patch.EscapeJSONPointer]: [~] and [/]. *)
Fixpoint EscapeJSONPointer (s : string) : string :=
  match s with
  | EmptyString => ""
  | String a s =>
      if Ascii.eqb a "~"%char then "~0" +:+ EscapeJSONPointer s
      else if Ascii.eqb a "/"%char then "~1" +:+ EscapeJSONPointer s
      else String a (EscapeJSONPointer s)
  end.

Definition pauseMapOf (nodeNames : list string) : gmap string string :=
  foldl (fun m n => <[n := NodePause]> m) ∅ nodeNames.

Definition addAnnotationsOp : string :=
  "{" +:+ dquote +:+ "op" +:+ dquote +:+ ": " +:+ dquote +:+ "add" +:+ dquote +:+ ", "
  +:+ dquote +:+ "path" +:+ dquote +:+ ": " +:+ dquote +:+ "/metadata/annotations" +:+ dquote
  +:+ ", " +:+ dquote +:+ "value" +:+ dquote +:+ ": {}}".
Definition addAnnotationOp (key value : string) : string :=
  "{" +:+ dquote +:+ "op" +:+ dquote +:+ ": " +:+ dquote +:+ "add" +:+ dquote +:+ ", "
  +:+ dquote +:+ "path" +:+ dquote +:+ ": " +:+ dquote +:+ "/metadata/annotations/"
  +:+ EscapeJSONPointer key +:+ dquote
  +:+ ", " +:+ dquote +:+ "value" +:+ dquote +:+ ": " +:+ quoted value +:+ "}".

Definition addPauseAnnotations (upgrade : Upgrade) (patchOps nodeNames : list string)
  : list string :=
  match nodeNames with
  | [] => []
  | _ =>
      let nodeMapJSON := json_marshal (Some (pauseMapOf nodeNames)) in
      let patchOps := match up_Annotations upgrade with
                      | None => patchOps ++ [addAnnotationsOp]
                      | Some _ => patchOps
                      end in
      patchOps ++ [addAnnotationOp AnnotationNodeUpgradePauseMap nodeMapJSON]
  end.

Definition patchPauseNodeAnnotations (upgrade : Upgrade) (patchOps : list string)
  : outcome (list string) :=
  if gm_has (up_Annotations upgrade) AnnotationNodeUpgradePauseMap then Ok patchOps
  else
    upgradeConfig ← getUpgradeConfig;
    if negb (isNodeUpgradeManualMode upgradeConfig) then Ok patchOps
    else
      nodeNames ← getNodesToPause upgradeConfig;
      Ok (addPauseAnnotations upgrade patchOps nodeNames).

Definition mutator_Create (upgrade : Upgrade) : outcome (list string) :=
  patchPauseNodeAnnotations upgrade [].

(** ** The validator: versions, pauses *)

Definition internal (what : string) (e : goerror) : goerror :=
  AdmitInternal (what +:+ ", err: " +:+ error_Error e).

Definition checkVersionFlavor (version : Version) : outcome unit :=
  if negb (String.eqb (gm_str (om_Labels (ver_meta version)) LabelServerFlavor)
             ServerFlavorCommunity)
  then Ok tt
  else
    match ue_setting E ServerFlavorSettingName with
    | inr e => if IsNotFound e then Ok tt
               else Err (internal ("can't get setting " +:+ ServerFlavorSettingName) e)
    | inl setting =>
        if String.eqb (effectiveValue setting) ServerFlavorPrime
        then Err (AdmitBadRequest ("version " +:+ om_Name (ver_meta version)
               +:+ " is a community release; upgrading from a Prime release to a community release is not supported"))
        else Ok tt
    end.

Definition pauseEntry (existingNodeNames : list string) (entry : string * string) : outcome unit :=
  let '(nodeName, desiredAction) := entry in
  if negb (String.eqb desiredAction NodePause) && negb (String.eqb desiredAction NodeUnpause)
  then Err (AdmitBadRequest ("desired action for node " +:+ nodeName +:+ " must be either "
                             +:+ quoted NodePause +:+ " or " +:+ quoted NodeUnpause))
  else if negb (str_in nodeName existingNodeNames)
  then Err (AdmitBadRequest ("node " +:+ nodeName +:+ " does not exist"))
  else Ok tt.

(** The names are appended to a slice that already has as many empty names. *)
Definition validatePauseMapAnnotation (upgrade : Upgrade) : outcome unit :=
  match gm_get (up_Annotations upgrade) AnnotationNodeUpgradePauseMap with
  | None => Ok tt
  | Some value =>
      match json_unmarshal value with
      | None => Err (AdmitBadRequest ("fail to unmarshal " +:+ AnnotationNodeUpgradePauseMap
                                      +:+ " annotation"))
      | Some pauseMap =>
          nodes ← wrapErr (internal "fail to list nodes") (answer (ue_nodes E));
          let existingNodeNames := map (fun _ => "") nodes ++ map node_Name nodes in
          firstErr (pauseEntry existingNodeNames)
            (match pauseMap with Some m => range (m : gmap string string) | None => [] end)
      end
  end.

(** ** The validator: the state of the cluster *)

Definition hasDegradedVolume : outcome bool :=
  nodes ← answer (ue_nodes E);
  if Nat.ltb (length nodes) 3 then Ok false
  else
    volumes ← answer (ue_lhVolumes E);
    Ok (existsb (fun v => String.eqb (lh_Robustness v) VolumeRobustnessDegraded)
          (List.filter (fun v => inNamespace LonghornSystemNamespaceName (lh_meta v)) volumes)).

(** The first condition of the type decides. *)
Definition chartReady (c : ChartState) : outcome unit :=
  match List.find (fun cond => String.eqb (c_Type cond) BundleConditionReady) (chs_Conditions c) with
  | Some cond =>
      if negb (String.eqb (c_Status cond) ConditionTrue)
      then Err (AdmitBadRequest ("managed chart " +:+ om_Name (chs_meta c)
                  +:+ " is not ready, please wait for it to be ready or fix it"))
      else Ok tt
  | None => Ok tt
  end.

Definition checkManagedCharts : outcome unit :=
  charts ← wrapErr (internal "can't list managed charts") (answer (ue_managedCharts E));
  firstErr chartReady (List.filter (fun c => inNamespace managedChartNamespace (chs_meta c)) charts).

Definition checkAddons : outcome unit :=
  addons ← wrapErr (internal "can't list addons") (answer (ue_addons E));
  firstErr (fun addon =>
    let '(msg, processing) := IsAddonOnProcessing (Some addon) in
    if processing : bool
    then Err (AdmitBadRequest (msg +:+ ", please wait for it to be ready or fix it"))
    else Ok tt) addons.

Definition checkVMBackups : outcome unit :=
  all ← answer (ue_vmBackups E);
  match GetByIndex vmBackupByIsProgressing (FormatBool true) all with
  | [] => Ok tt
  | b :: _ => Err (AdmitBadRequest
      ("please wait until all vmbackups are stopped, for example " +:+ metaRef (vmb_meta b)
       +:+ " is under processing"))
  end.

Definition checkScheduleVMBackups : outcome unit :=
  all ← answer (ue_svmbackups E);
  match GetByIndex scheduleVMBackupBySuspended (FormatBool false) all with
  | [] => Ok tt
  | b :: _ => Err (AdmitBadRequest
      ("please suspend all backup/snapshot schedule, for example " +:+ metaRef (svb_meta b)
       +:+ " is running"))
  end.

(** ** The validator: nodes and machines *)

Definition kubeletGet (nodeName url : string) : outcome string :=
  match ue_newRequest E url with
  | Some e => Err (internal ("node " +:+ nodeName +:+ ", can't make http.NewRequest to get " +:+ url) e)
  | None =>
      match ue_http E url with
      | HttpError e => Err (internal ("node " +:+ nodeName +:+ ", can't make http request to get " +:+ url) e)
      | HttpResponse code _ body bodyError =>
          if negb (code =? 200)
          then Err (AdmitInternal ("node " +:+ nodeName +:+ ", http response from " +:+ url
                                   +:+ " is " +:+ Itoa code))
          else match bodyError with
               | Some e => Err (internal ("node " +:+ nodeName +:+ ", can't read response from " +:+ url) e)
               | None => Ok body
               end
      end
  end.

Definition parsed {A} (nodeName body : string) (r : option A) : outcome A :=
  match r with
  | Some a => Ok a
  | None => Err (AdmitInternal ("node " +:+ nodeName +:+ ", can't parse json response " +:+ body))
  end.

Definition getKubeletConfigz (nodeName kubeletURL : string) : outcome (option Z) :=
  body ← kubeletGet nodeName (kubeletURL +:+ "/configz");
  parsed nodeName body (decodeKubeletConfiguration body).

Definition getKubeletStatsSummary (nodeName kubeletURL : string) : outcome (option FsStats) :=
  body ← kubeletGet nodeName (kubeletURL +:+ "/stats/summary");
  parsed nodeName body (decodeSummary body).

(** [float64(used+newImages) / float64(capacity) * 100.0] *)
Definition usedPercent (used capacity : Z) : spec_float :=
  SFmul 53 1024
    (SFdiv 53 1024 (float64 (uint64 (used + defaultNewImageSize))) (float64 capacity))
    (float64 100).
Definition imageGCHighThresholdPercent (config : option Z) : spec_float :=
  match config with Some p => float64 p | None => float64 85 end.

Definition checkDiskSpace (node : Node) : outcome unit :=
  match gm_get (node_Annotations node) rkeInternalIPAnnotation with
  | None => Err (AdmitInternal ("node " +:+ node_Name node +:+ " doesn't have "
                                +:+ rkeInternalIPAnnotation +:+ " annotation"))
  | Some internalIP =>
      let kubeletURL := "https://" +:+ internalIP +:+ ":" +:+ Itoa (ue_kubeletPort E node) in
      fs ← getKubeletStatsSummary (node_Name node) kubeletURL;
      match fs with
      | Some (mkFsStats (Some _) (Some capacity) (Some used)) =>
          config ← getKubeletConfigz (node_Name node) kubeletURL;
          if SFltb (imageGCHighThresholdPercent config) (usedPercent used capacity)
          then Err (AdmitBadRequest ("Node " +:+ quoted (node_Name node)
                      +:+ " will reach the kubelet image garbage collection threshold after loading new images."))
          else Ok tt
      | _ => Err (AdmitInternal ("can't get node " +:+ node_Name node +:+ " filesystem stats from "
                                 +:+ kubeletURL))
      end
  end.

Definition skipGarbageCollection (upgrade : Upgrade) : outcome bool :=
  match gm_get (up_Annotations upgrade) AnnotationSkipGarbageCollectionThresholdCheck with
  | None => Ok false
  | Some value =>
      match ParseBool value with
      | Some b => Ok b
      | None => Err (AdmitBadRequest ("invalid value " +:+ value +:+ " for "
                       +:+ AnnotationSkipGarbageCollectionThresholdCheck +:+ " annotation"))
      end
  end.

Definition checkNode (skip : bool) (node : Node) : outcome unit :=
  match GetMaintenanceModeCondition (Some node) with
  | Some condition =>
      Err (AdmitBadRequest ("node " +:+ node_Name node +:+ " has maintenance mode state "
        +:+ nc_Status condition +:+ "/" +:+ nc_Reason condition
        +:+ "; disable or clear maintenance mode before upgrading"))
  | None =>
      if HasDrainRequest (Some node)
      then Err (AdmitBadRequest ("node " +:+ node_Name node
        +:+ " has a pending maintenance mode request; wait for it to finish or disable maintenance mode before upgrading"))
      else if match List.find (fun c => String.eqb (nc_Type c) NodeReady) (node_Conditions node) with
              | Some c => negb (String.eqb (nc_Status c) ConditionTrue)
              | None => false
              end
      then Err (AdmitBadRequest ("node " +:+ node_Name node +:+ " is not ready, please wait for it to be ready"))
      else if node_Unschedulable node
      then Err (AdmitBadRequest ("node " +:+ node_Name node +:+ " is unschedulable, please wait for it to be schedulable"))
      else if negb skip then checkDiskSpace node
      else Ok tt
  end.

Definition checkNodes (upgrade : Upgrade) : outcome unit :=
  nodes ← wrapErr (internal "can't list nodes") (answer (ue_nodes E));
  skip ← skipGarbageCollection upgrade;
  firstErr (checkNode skip) nodes.

Definition listMachines : outcome (list CapiMachine) :=
  machines ← wrapErr (internal "can't list machines") (answer (ue_machines E));
  Ok (List.filter (fun m => inNamespace FleetLocalNamespaceName (cma_meta m)) machines).

Definition checkMachines : outcome unit :=
  machines ← listMachines;
  firstErr (fun m => if negb (String.eqb (cma_Phase m) MachinePhaseRunning)
                     then Err (AdmitInternal ("machine " +:+ metaRef (cma_meta m) +:+ " is not running"))
                     else Ok tt) machines.

(** The node each machine refers to, by the machine's name. *)
Fixpoint machineMap (machines : list CapiMachine) (m : gmap string string)
  : outcome (gmap string string) :=
  match machines with
  | [] => Ok m
  | mc :: machines =>
      match cma_NodeRef mc with
      | None => Err (AdmitInternal ("machine " +:+ om_Name (cma_meta mc)
                       +:+ " has empty NodeRef, check the cluster provision"))
      | Some n => machineMap machines (<[om_Name (cma_meta mc) := n]> m)
      end
  end.

Definition nodeMatches (m : gmap string string) (node : Node) : outcome unit :=
  let at_ := "node " +:+ node_Name node in
  match node_Labels node with
  | None => Err (AdmitInternal (at_ +:+ " has no labels"))
  | Some _ =>
      if negb (String.eqb (gm_str (node_Labels node) HarvesterManagedNodeLabelKey) "true")
      then Err (AdmitInternal (at_ +:+ " has no expected label " +:+ HarvesterManagedNodeLabelKey))
      else
        match node_Annotations node with
        | None => Err (AdmitInternal (at_ +:+ " has no nnnotations"))
        | Some _ =>
            let mc := gm_str (node_Annotations node) MachineAnnotation in
            if String.eqb mc ""
            then Err (AdmitInternal (at_ +:+ " has no expected annotation " +:+ MachineAnnotation
                                     +:+ ", check the cluster provision"))
            else
              match m !! mc with
              | None => Err (AdmitInternal (at_ +:+ " refers to machine " +:+ mc
                                            +:+ ", but the machine does not exist"))
              | Some nRef =>
                  if negb (String.eqb (node_Name node) nRef)
                  then Err (AdmitInternal (at_ +:+ " refers to machine " +:+ mc
                              +:+ ", but the machine refers to another node " +:+ nRef))
                  else Ok tt
              end
        end
  end.

Definition isNodeMachineMatching (nodes : list Node) (machines : list CapiMachine)
  : outcome unit :=
  match nodes with
  | [] => Err (AdmitInternal "no node was listed, this shall not happen")
  | _ =>
      if negb (Nat.eqb (length nodes) (length machines))
      then Err (AdmitInternal ("nodes(" +:+ pretty (length nodes) +:+ ") and machines("
                  +:+ pretty (length machines) +:+ ") do not match, check the cluster provision"))
      else
        m ← machineMap machines ∅;
        firstErr (nodeMatches m) nodes
  end.

Definition checkNodeMachineMatching : outcome unit :=
  nodes ← wrapErr (internal "can't list nodes") (answer (ue_nodes E));
  machines ← listMachines;
  isNodeMachineMatching nodes machines.

(** ** The validator: volumes *)

Definition skipSingleReplicaDetachedVolCheck (upgrade : Upgrade) : bool :=
  negb (String.eqb (gm_str (up_Annotations upgrade) skipSingleReplicaDetachedVol) "").

Definition pvcRef (v : LhVolume) : string := lh_PVCNamespace v +:+ "/" +:+ lh_PVCName v.

Definition isActive (v : LhVolume) : bool :=
  str_in (lh_State v) [VolumeStateCreating; VolumeStateAttached; VolumeStateAttaching].

Definition checkActiveSingleReplicaVols (singleReplicaVols : list LhVolume) : outcome unit :=
  match map pvcRef (List.filter isActive singleReplicaVols) with
  | [] => Ok tt
  | volumeNames => Err (AdmitInvalid ("Following PVCs with active single-replica volume, please consider shutdown the corresponding workload before upgrade: "
                     +:+ Join ", " volumeNames))
  end.

Definition checkAllSingleReplicaVols (singleReplicaVols : list LhVolume) : outcome unit :=
  match map pvcRef singleReplicaVols with
  | [] => Ok tt
  | volumeNames => Err (AdmitInvalid ("Following PVCs with single-replica volume, even the volume is detached, upgrade may have potential data integrity concerns: "
                     +:+ Join ", " volumeNames))
  end.

Definition checkSingleReplicaVolumes (upgrade : Upgrade) : outcome unit :=
  nodes ← answer (ue_nodes E);
  if Nat.eqb (length nodes) 1 then Ok tt
  else
    volumes ← answer (ue_lhVolumes E);
    let singleReplicaVolumes := GetByIndex VolumeByReplicaCount "1" volumes in
    if skipSingleReplicaDetachedVolCheck upgrade
    then checkActiveSingleReplicaVols singleReplicaVolumes
    else checkAllSingleReplicaVols singleReplicaVolumes.

(** ** The validator: virtual machines *)

Definition IsRestoreVM : outcome bool :=
  upgradeConfig ← getUpgradeConfig;
  Ok (uc_RestoreVM upgradeConfig).

Definition checkNonLiveMigratableVMs : outcome unit :=
  allNodes ← answer (ue_nodes E);
  if Nat.eqb (length (ExcludeWitnessNodes allNodes)) 1 then Ok tt
  else
    allVMIs ← answer (ue_vmis E);
    names ← GetAllNonLiveMigratableVMINames allVMIs allNodes;
    match names with
    | [] => Ok tt
    | _ => Err (AdmitInvalid ("There are non-live migratable VMs that need to be shut off before initiating the upgrade: "
                  +:+ Join ", " names))
    end.

Definition isHotpluggableVolume (vol : VmiVolume) : bool :=
  default false (vv_PersistentVolumeClaim vol) || default false (vv_DataVolume vol).

Definition hotvmCache_Get (ns name : string) : outcome HotVM :=
  match ue_vmGetError E ns name with
  | Some e => Err e
  | None =>
      vms ← answer (ue_vms E);
      match List.find (fun vm => metaIs ns name (hvm_meta vm)) vms with
      | Some vm => Ok vm
      | None => Err (ApiNotFound "not found")
      end
  end.

(** The hot-plugged volumes of a running instance that its VM does not have. *)
Definition ephemeralHotplugs (vmi : HotVMI) : outcome (list string) :=
  if negb (String.eqb (hvi_Phase vmi) VmiRunning) then Ok []
  else
    match hotvmCache_Get (om_Namespace (hvi_meta vmi)) (om_Name (hvi_meta vmi)) with
    | Err e => if IsNotFound e then Ok [] else Err e
    | Panic => Panic
    | Ok vm =>
        let vmVolumes : gset string := list_to_set (default [] (hvm_Template vm)) in
        Ok (map (fun vol => metaRef (hvi_meta vmi) +:+ " (volume " +:+ vv_Name vol +:+ ")")
              (List.filter (fun vol => isHotpluggableVolume vol
                                       && negb (bool_decide (vv_Name vol ∈ vmVolumes)))
                 (hvi_Volumes vmi)))
    end.

Definition pendingRequestVMs (vms : list HotVM) : list string :=
  map (fun vm => metaRef (hvm_meta vm))
    (List.filter (fun vm => Nat.ltb 0 (length (hvm_VolumeRequests vm))) vms).

Definition checkStaleHotplugVolumes : outcome unit :=
  allNodes ← answer (ue_nodes E);
  if Nat.eqb (length (ExcludeWitnessNodes allNodes)) 1 then Ok tt
  else
    vms ← answer (ue_vms E);
    match pendingRequestVMs vms with
    | _ :: _ as names =>
        Err (AdmitInvalid ("There are VMs with pending volume hotplug requests (status.volumeRequests): "
               +:+ Join ", " names))
    | [] =>
        vmis ← answer (ue_vmis E);
        found ← mapM ephemeralHotplugs vmis;
        match concat found with
        | [] => Ok tt
        | names => Err (AdmitInvalid ("There are running VMs with hot-plugged volumes that exist in the VMI but not in the VM spec: "
                          +:+ Join ", " names))
        end
    end.

(** ** The validator: certificates *)

Definition minCertsExpirationInDay (upgrade : Upgrade) : outcome Z :=
  match gm_get (up_Annotations upgrade) AnnotationMinCertsExpirationInDay with
  | None => Ok defaultMinCertsExpirationInDay
  | Some value =>
      match Atoi value with
      | None => Err (AdmitBadRequest ("invalid value " +:+ value +:+ " for annotation "
                                      +:+ AnnotationMinCertsExpirationInDay))
      | Some days =>
          if days <=? 0
          then Err (AdmitBadRequest ("invalid value " +:+ value +:+ " for annotation "
                      +:+ AnnotationMinCertsExpirationInDay +:+ ", it should be greater than 0"))
          else Ok days
      end
  end.

(** [time.Now().AddDate(0, 0, days)] in UTC, on 64-bit seconds; the nanoseconds stay. *)
Definition expirationDate (days : Z) : Z := int64 ((ue_now E).1 + days * 86400).
Definition expiresBefore (notAfter days : Z) : bool :=
  (notAfter <? expirationDate days) || (notAfter =? expirationDate days) && (0 <? (ue_now E).2).

Definition checkCerts (upgrade : Upgrade) : outcome unit :=
  kubernetesIPs ← wrapErr (internal "can't get list of kubernetes ip") (GetKubernetesIps E);
  match kubernetesIPs with
  | [] => Err (AdmitInternal "can't get kubernetes ip, err: cluster ip is empty")
  | _ =>
      earliestExpiringCert ← GetAddrsEarliestExpiringCert E kubernetesIPs None;
      days ← minCertsExpirationInDay upgrade;
      match earliestExpiringCert with
      | None => Panic
      | Some notAfter =>
          if expiresBefore notAfter days
          then Err (AdmitBadRequest ("earliest expiring cert for default/kubernetes ClusterIP will expire in "
                      +:+ Itoa days +:+ " days. Please rotate RKE2 certificates."))
          else Ok tt
      end
  end.

(** ** The validator: requests *)

Definition localCluster : outcome CapiCluster :=
  wrapErr (internal ("can't find " +:+ FleetLocalNamespaceName +:+ "/" +:+ LocalClusterName +:+ " cluster"))
    (answer (ue_cluster E FleetLocalNamespaceName LocalClusterName)).

Definition checkResources (upgrade : Upgrade) : outcome unit :=
  degraded ← wrapErr (fun e => AdmitInternal (error_Error e)) hasDegradedVolume;
  if degraded : bool
  then Err (AdmitBadRequest "there are degraded volumes, please check all volumes are healthy")
  else
    cluster ← localCluster;
    if negb (String.eqb (cc_Phase cluster) ClusterPhaseProvisioned)
    then Err (AdmitBadRequest ("cluster " +:+ FleetLocalNamespaceName +:+ "/" +:+ LocalClusterName
                +:+ " status is " +:+ cc_Phase cluster +:+ ", please wait for it to be provisioned"))
    else
      _ ← checkVMBackups;
      _ ← checkScheduleVMBackups;
      _ ← checkManagedCharts;
      _ ← checkAddons;
      _ ← checkNodes upgrade;
      _ ← checkMachines;
      _ ← checkNodeMachineMatching;
      _ ← checkSingleReplicaVolumes upgrade;
      restoreVM ← IsRestoreVM;
      _ ← (if negb restoreVM
           then _ ← checkNonLiveMigratableVMs; checkStaleHotplugVolumes
           else Ok tt);
      checkCerts upgrade.

Definition skipsWebhook (upgrade : Upgrade) : bool :=
  match gm_get (up_Annotations upgrade) skipWebhookAnnotation with
  | Some v => String.eqb (ToLower v) "true"
  | None => false
  end.

Definition listUpgrades (ns : string) (sel : ObjectMeta -> bool) : outcome (list Upgrade) :=
  upgrades ← wrapErr (internal "can't list upgrades") (answer (ue_upgrades E));
  Ok (List.filter (fun u => inNamespace ns (up_meta u) && sel (up_meta u)) upgrades).

Definition checkVersion (newUpgrade : Upgrade) : outcome unit :=
  let spec := up_spec newUpgrade in
  if negb (String.eqb (us_Version spec) "") && String.eqb (us_Image spec) "" then
    match ue_version E (up_Namespace newUpgrade) (us_Version spec) with
    | inr _ => Err (AdmitBadRequest ("version " +:+ us_Version spec +:+ " is not found"))
    | inl version => checkVersionFlavor version
    end
  else Ok tt.

Definition validator_Create (newUpgrade : Upgrade) : outcome unit :=
  let spec := up_spec newUpgrade in
  let ns := up_Namespace newUpgrade in
  if String.eqb (us_Version spec) "" && String.eqb (us_Image spec) ""
  then Err (AdmitBadRequest "version or image field are not specified.")
  else
    _ ← checkVersion newUpgrade;
    unfinished ← listUpgrades ns (selNotIn upgradeStateLabel [StateSucceeded; StateFailed]);
    match unfinished with
    | u :: _ => Err (AdmitConflict ("cannot proceed until previous upgrade " +:+ quoted (up_Name u)
                                    +:+ " completes"))
    | [] =>
        pending ← listUpgrades ns (selIn upgradeCleanupLabel [StatePending]);
        match pending with
        | _ :: _ => Err (AdmitConflict ("cannot proceed until the following upgrades completed their cleanup process: "
                           +:+ Join "," (map up_Name pending)))
        | [] =>
            if skipsWebhook newUpgrade then Ok tt
            else
              _ ← validatePauseMapAnnotation newUpgrade;
              checkResources newUpgrade
        end
    end.

Definition validator_Update (newUpgrade : Upgrade) : outcome unit :=
  validatePauseMapAnnotation newUpgrade.

Definition validator_Delete (oldUpgrade : Upgrade) : outcome unit :=
  if skipsWebhook oldUpgrade then Ok tt
  else
    cluster ← localCluster;
    if String.eqb (cc_Phase cluster) ClusterPhaseProvisioning
    then Err (AdmitBadRequest ("cluster " +:+ FleetLocalNamespaceName +:+ "/" +:+ LocalClusterName
                +:+ " status is provisioning, please wait for it to be provisioned"))
    else if condIs ConditionUnknown oldUpgrade NodesUpgraded
    then Err (AdmitBadRequest "node upgrade is in progressing, please wait for it to be provisioned")
    else Ok tt.
End Env.
End Webhook.
