(* ===== verification/UpgradeAdmission.v ===== *)
(** What the webhook of upgrades ([UpgradeWebhook]) guarantees: an admitted upgrade finds a
    cluster that is fit for it; nodes and machines are matched one to one; the nodes the
    configuration names are the ones the controller pauses; and an upgrade is not deleted
    while one of its nodes is being drained or rebooted, whatever the controllers of
    [UpgradeSafety] have done before. *)

From Stdlib Require Import Ascii Floats.SpecFloat.
From S2P Require Import Prelude K8s BackupTypes NodeUtil Addon ApiServer Upgrade UpgradeJobs UpgradeWorld.
From S2P Require Import UpgradeNodes UpgradeVersion UpgradeSteps UpgradeRegime UpgradeSafety.
From S2P Require Import UpgradeWebhook.

Local Open Scope Z_scope.

(** ** Nodes and machines *)

Definition machineName (m : CapiMachine) : string := om_Name (cma_meta m).
Definition machineOfNode (n : Node) : string := gm_str (node_Annotations n) MachineAnnotation.

Lemma machineMap_Ok machines m0 m :
  machineMap machines m0 = Ok m ->
  (forall mc, mc ∈ machines -> is_Some (cma_NodeRef mc)) /\
  (forall k n, m !! k = Some n ->
     m0 !! k = Some n \/ exists mc, mc ∈ machines /\ machineName mc = k /\ cma_NodeRef mc = Some n).
Proof.
  revert m0. induction machines as [|mc machines IH]; intros m0 H; cbn [machineMap] in H.
  - injection H as <-. split; [set_solver|auto].
  - destruct (cma_NodeRef mc) as [n|] eqn:E; [|done]. apply IH in H as [H1 H2]. split.
    + intros mc' [->|?]%elem_of_cons; [by rewrite E|auto].
    + intros k n' [Hk|(mc' & ? & ? & ?)]%H2; [|right; exists mc'; set_solver].
      apply lookup_insert_Some in Hk as [[<- <-]|[_ Hk]]; [|by left]. right. exists mc. set_solver.
Qed.

Lemma nodeMatches_Ok m n :
  nodeMatches m n = Ok tt <->
  node_Labels n <> None /\ gm_get (node_Labels n) HarvesterManagedNodeLabelKey = Some "true" /\
  machineOfNode n <> "" /\ m !! machineOfNode n = Some (node_Name n).
Proof.
  unfold nodeMatches, machineOfNode. destruct (node_Labels n) as [l|] eqn:El; [|by split; [|intros [? _]]].
  unfold gm_str at 1. destruct (gm_get (Some l) _) as [v|] eqn:Ev; [|by split; [|intros (_ & ? & _)]].
  change (default "" (Some v)) with v. destruct (String.eqb_spec v "true") as [->|Hv]; cbn [negb];
    [|split; [done|intros (_ & [= ?] & _); congruence]].
  destruct (node_Annotations n) as [a|] eqn:Ea; [|by split; [|intros (_ & _ & ? & _)]].
  destruct (String.eqb_spec (gm_str (Some a) MachineAnnotation) ""); [by split; [|intros (_ & _ & ? & _)]|].
  destruct (m !! _) as [r|]; [|by split; [|intros (_ & _ & _ & ?)]].
  destruct (String.eqb_spec (node_Name n) r) as [<-|Hr]; cbn [negb]; [done|].
  split; [done|]. intros (_ & _ & _ & [= E]). congruence.
Qed.

(** C30: Nodes and machines are matched one to one.  When the check of the webhook passes,
    names of nodes being unique, no two machines have the same name; the machines the nodes
    name in their annotations are, up to order, all the machines there are; and every
    machine refers back to the node that names it.  So no machine is left that belongs to
    no node, although the code never compares the two lists that way: it counts them and
    follows the references from the nodes. *)
Theorem node_machine_matching nodes machines :
  NoDup (map node_Name nodes) -> isNodeMachineMatching nodes machines = Ok tt ->
  NoDup (map machineName machines) /\
  map machineOfNode nodes ≡ₚ map machineName machines /\
  (forall n mc, n ∈ nodes -> mc ∈ machines -> machineName mc = machineOfNode n ->
     cma_NodeRef mc = Some (node_Name n)) /\
  forall mc, mc ∈ machines -> exists n, n ∈ nodes /\ machineOfNode n = machineName mc.
Proof.
  intros Hnd H. unfold isNodeMachineMatching in H. destruct nodes as [|n0 nodes0]; [done|].
  set (nodes := n0 :: nodes0) in *.
  destruct (Nat.eqb_spec (length nodes) (length machines)) as [Hlen|]; [cbn [negb] in H|done].
  apply obind_Ok in H as (m & Hm & Hall). rewrite firstErr_Ok in Hall.
  apply machineMap_Ok in Hm as [Hrefs Hm].
  assert (Href : forall n, n ∈ nodes -> m !! machineOfNode n = Some (node_Name n)).
  { intros n Hn. by apply nodeMatches_Ok, Hall. }
  assert (Hna : NoDup (map machineOfNode nodes)).
  { apply (NoDup_fmap_1 (fun k => default "" (m !! k))). change fmap with (@map string string).
    rewrite map_map. erewrite map_ext_in; [exact Hnd|].
    intros n Hn%list_elem_of_In. cbn. by rewrite Href. }
  assert (Hp : map machineOfNode nodes ≡ₚ map machineName machines).
  { apply NoDup_Permutation_bis; [by apply NoDup_ListNoDup|by rewrite !length_map, Hlen|].
    intros k (n & <- & Hn%list_elem_of_In)%in_map_iff.
    destruct (Hm _ _ (Href n Hn)) as [Hk|(mc & Hmc & <- & _)]; [by rewrite lookup_empty in Hk|].
    by apply in_map, list_elem_of_In. }
  assert (Hmn : NoDup (map machineName machines)) by (by rewrite <- Hp).
  split_and!; [done|done| |].
  - intros n mc Hn Hmc He.
    destruct (Hm _ _ (Href n Hn)) as [Hk|(mc' & Hmc' & He' & Hr)]; [by rewrite lookup_empty in Hk|].
    assert (mc' = mc) as ->; [|done]. eapply (NoDup_map_inj machineName); [done..|congruence].
  - intros mc Hmc. assert (Hk : machineName mc ∈ map machineOfNode nodes).
    { rewrite Hp. by apply list_elem_of_fmap_2. }
    apply list_elem_of_fmap in Hk as (n & He & Hn). eauto.
Qed.

(** ** The nodes to pause *)

(** Printable ASCII text, which [%q] writes as JSON does. *)
Fixpoint printable (s : string) : bool :=
  match s with
  | EmptyString => true
  | String a s => let n := nat_of_ascii a in Nat.leb 32 n && Nat.leb n 126 && printable s
  end.

(** JSON patches, as far as the mutator makes any: what RFC 6902 says of [add] to an object
    and to a member of it. *)
Class PatchLib := {
  applyPatch : string -> Upgrade -> option Upgrade;
  patch_annotations : forall u, up_Annotations u = None ->
    applyPatch addAnnotationsOp u = Some (up_set_Annotations (Some ∅) u);
  patch_annotation : forall u m v, up_Annotations u = Some m -> printable v = true ->
    applyPatch (addAnnotationOp AnnotationNodeUpgradePauseMap v) u =
    Some (up_set_Annotations (Some (<[AnnotationNodeUpgradePauseMap := v]> m)) u) }.

Definition applyPatches {PL : PatchLib} (ops : list string) (u : Upgrade) : option Upgrade :=
  foldl (fun u op => u ≫= applyPatch op) (Some u) ops.

Lemma pauseMapOf_lookup l n :
  pauseMapOf l !! n = if bool_decide (n ∈ l) then Some NodePause else None.
Proof.
  unfold pauseMapOf.
  assert (H : forall m : gmap string string,
    foldl (fun m n => <[n := NodePause]> m) m l !! n =
    if bool_decide (n ∈ l) then Some NodePause else m !! n).
  { induction l as [|a l IH]; intros m; cbn [foldl]; [done|]. rewrite IH.
    destruct (decide (n = a)) as [->|Hne].
    - rewrite (bool_decide_eq_true_2 (a ∈ a :: l)) by set_solver. case_bool_decide; [done|].
      by rewrite lookup_insert_eq.
    - rewrite lookup_insert_ne by done. do 2 case_bool_decide; set_solver. }
  rewrite H. by case_bool_decide.
Qed.

Section Pause.
Context {MO : MapOrder} {PL : PatchLib} `{!JsonCodec (gomap string)} `{!JsonCodec UpgradeConfig}.

(** The entry of every node exists, and asks for a pause. *)
Lemma pauseMap_valid E u nodes names :
  ue_nodes E = inl nodes -> (forall n, n ∈ names -> n ∈ map node_Name nodes) ->
  gm_get (up_Annotations u) AnnotationNodeUpgradePauseMap
    = Some (json_marshal (Some (pauseMapOf names))) ->
  validatePauseMapAnnotation E u = Ok tt.
Proof.
  intros Hn Hin Ha. unfold validatePauseMapAnnotation. rewrite Ha, json_roundtrip, Hn. cbn.
  apply firstErr_Ok. intros [n a] He. rewrite range_perm in He. apply elem_of_map_to_list in He.
  rewrite pauseMapOf_lookup in He. case_bool_decide as Hnn; [|done]. injection He as <-.
  unfold pauseEntry, str_in. rewrite String.eqb_refl. cbn.
  rewrite bool_decide_eq_true_2; [done|]. apply elem_of_app. right. auto.
Qed.

Lemma pauseMap_pauses u names n :
  gm_get (up_Annotations u) AnnotationNodeUpgradePauseMap
    = Some (json_marshal (Some (pauseMapOf names))) ->
  shouldPauseNodeUpgrade u n = true <-> n ∈ names.
Proof.
  intros Ha. unfold shouldPauseNodeUpgrade, getNodeUpgradePauseMap. rewrite Ha, json_roundtrip.
  rewrite pauseMapOf_lookup. case_bool_decide; by split.
Qed.

Lemma getNodesToPause_manual E cfg strategy nodes :
  uc_NodeUpgradeOption cfg = Some (Some strategy) -> nst_Mode strategy = Some ManualType ->
  ue_nodes E = inl nodes ->
  exists names, getNodesToPause E cfg = Ok names /\
    forall n, n ∈ names <-> n ∈ map node_Name nodes /\
      (nst_PauseNodes strategy = [] \/ n ∈ nst_PauseNodes strategy).
Proof.
  intros Hc Hm Hn. unfold getNodesToPause. rewrite Hc, Hm, Hn. cbn.
  destruct (nst_PauseNodes strategy) as [|p ps]; eexists; (split; [done|]); intros n.
  - tauto.
  - unfold sortStrings. rewrite merge_sort_Permutation, elem_of_elements, elem_of_intersection,
      !elem_of_list_to_set. set_solver.
Qed.

(** The patches write the pause map down, and nothing else of the annotations. *)
Lemma addPauseAnnotations_applied u names :
  printable (json_marshal (Some (pauseMapOf names))) = true -> names <> [] ->
  exists u', applyPatches (addPauseAnnotations u [] names) u = Some u' /\
    gm_get (up_Annotations u') AnnotationNodeUpgradePauseMap
      = Some (json_marshal (Some (pauseMapOf names))).
Proof.
  intros Hp Hne. unfold addPauseAnnotations. destruct names as [|n names]; [done|].
  set (v := json_marshal _) in *. destruct (up_Annotations u) as [m|] eqn:E;
    cbn [app applyPatches foldl]; unfold applyPatches; cbn [foldl].
  - cbn [mbind option_bind]. rewrite (patch_annotation u m) by done. eexists. split; [done|].
    apply lookup_insert_eq.
  - cbn [mbind option_bind]. rewrite patch_annotations by done. cbn [mbind option_bind].
    rewrite (patch_annotation _ ∅) by done. eexists. split; [done|]. apply lookup_insert_eq.
Qed.

(** C12: In manual mode exactly the configured nodes are paused.  For an upgrade created
    without a pause map while the setting upgrade-config asks for manual mode, the patches
    of the mutator apply, the upgrade they make passes the check of the pause map when it is
    created and when it is updated, and the controller pauses a node of that upgrade if and
    only if the node exists and the setting names it, or names none.  This takes the
    setting through the mutator, the JSON patch, the annotation, the validator and the
    controller's own reading of it. *)
Theorem manual_mode_pauses_exactly E u cfg strategy nodes :
  gm_get (up_Annotations u) AnnotationNodeUpgradePauseMap = None ->
  getUpgradeConfig E = Ok cfg -> uc_NodeUpgradeOption cfg = Some (Some strategy) ->
  nst_Mode strategy = Some ManualType -> ue_nodes E = inl nodes ->
  (forall names, (forall n, n ∈ names -> n ∈ map node_Name nodes) ->
     printable (json_marshal (Some (pauseMapOf names))) = true) ->
  exists ops u', mutator_Create E u = Ok ops /\ applyPatches ops u = Some u' /\
    validator_Update E u' = Ok tt /\
    forall n, shouldPauseNodeUpgrade u' n = true <->
      n ∈ map node_Name nodes /\
      (nst_PauseNodes strategy = [] \/ n ∈ nst_PauseNodes strategy).
Proof.
  intros Ha Hcfg Hst Hm Hn Hpr.
  destruct (getNodesToPause_manual E cfg strategy nodes Hst Hm Hn) as (names & Hg & Hin).
  assert (Hc : mutator_Create E u = Ok (addPauseAnnotations u [] names)).
  { unfold mutator_Create, patchPauseNodeAnnotations. unfold gm_has. rewrite Ha, Hcfg.
    rewrite bool_decide_eq_false_2 by (by intros [? ?]). cbn.
    unfold isNodeUpgradeManualMode. rewrite Hst, Hm. cbn. by rewrite Hg. }
  rewrite Hc. destruct (decide (names = [])) as [->|Hne].
  - exists [], u. split_and!; [done|done| |].
    + unfold validator_Update, validatePauseMapAnnotation. by rewrite Ha.
    + intros n. rewrite <- Hin. unfold shouldPauseNodeUpgrade, getNodeUpgradePauseMap. rewrite Ha.
      split; [done|by intros ?%elem_of_nil].
  - destruct (addPauseAnnotations_applied u names) as (u' & Hu' & Hmap);
      [apply Hpr; intros n Hn'; by apply Hin|done|].
    exists (addPauseAnnotations u [] names), u'. split_and!; [done|done| |].
    + apply (pauseMap_valid E u' nodes names); [done|intros n Hn'; by apply Hin|done].
    + intros n. rewrite <- Hin. by apply pauseMap_pauses.
Qed.
End Pause.

(** ** Where an instance can go *)

Section Moves.
Context {KL : KubeletLib} {MO : MapOrder} (vmi : HotVMI).

(** What one node contributes: nothing if the instance runs there. *)
Definition vote (n : Node) : option (outcome bool) :=
  if String.eqb (hvi_NodeName vmi) (node_Name n) then None
  else Some (if node_Unschedulable n then Ok false
             else match hvi_RequiredAffinity vmi with
                  | None => Ok true
                  | Some terms => MatchNodeSelectorTerms n terms
                  end).

Lemma migratabilityMap_cons n nodes m :
  migratabilityMap vmi (n :: nodes) m =
  match vote n with
  | None => migratabilityMap vmi nodes m
  | Some o => ok ← o; migratabilityMap vmi nodes (<[node_Name n := ok]> m)
  end.
Proof. cbn [migratabilityMap]. unfold vote. by repeat case_match. Qed.

Lemma migratabilityMap_Ok nodes m0 m :
  NoDup (map node_Name nodes) -> migratabilityMap vmi nodes m0 = Ok m ->
  (forall n o, n ∈ nodes -> vote n = Some o -> exists b, o = Ok b /\ m !! node_Name n = Some b) /\
  (forall k, k ∉ map node_Name nodes -> m !! k = m0 !! k) /\
  forall k b, m !! k = Some b ->
    m0 !! k = Some b \/ exists n, n ∈ nodes /\ vote n = Some (Ok b).
Proof.
  revert m0. induction nodes as [|n nodes IH]; intros m0 Hnd H.
  { injection H as <-. split_and!; [by intros ? ? ?%elem_of_nil|done|auto]. }
  cbn [map] in Hnd. apply NoDup_cons in Hnd as [Hn Hnd]. rewrite migratabilityMap_cons in H.
  assert (Hrec : exists m1, migratabilityMap vmi nodes m1 = Ok m /\
    (forall o, vote n = Some o -> exists b, o = Ok b /\ m1 = <[node_Name n := b]> m0) /\
    (vote n = None -> m1 = m0)).
  { destruct (vote n) as [o|]; [|by exists m0].
    apply obind_Ok in H as (b & -> & H). exists (<[node_Name n := b]> m0).
    split_and!; [done| |done]. intros o [= <-]. eauto. }
  destruct Hrec as (m1 & Hm & Hsome & Hnone). apply IH in Hm as (H1 & H2 & H3); [|done].
  split_and!.
  - intros n' o [->|Hin]%elem_of_cons Hv; [|by apply H1].
    destruct (Hsome o Hv) as (b & -> & ->). exists b. split; [done|]. by rewrite H2, lookup_insert_eq.
  - intros k [Hk1 Hk2]%not_elem_of_cons. rewrite H2 by done. destruct (vote n) as [o|].
    + destruct (Hsome o eq_refl) as (b & _ & ->). by rewrite lookup_insert_ne.
    + by rewrite Hnone.
  - intros k b [Hk|(n' & Hin & Hv)]%H3; [|right; exists n'; split; [by right|done]].
    destruct (vote n) as [o|] eqn:Ev; [|left; by rewrite <- Hnone].
    destruct (Hsome o eq_refl) as (b' & -> & ->).
    apply lookup_insert_Some in Hk as [[_ <-]|[_ Hk]]; [right|by left]. exists n. split; [by left|done].
Qed.

(** Another node takes the instance, and no node is beyond the matcher. *)
Definition movable (nodes : list Node) : Prop :=
  (forall n o, n ∈ nodes -> vote n = Some o -> exists b, o = Ok b) /\
  exists n, n ∈ nodes /\ vote n = Some (Ok true).

Lemma migratabilityMap_total nodes m0 :
  (forall n o, n ∈ nodes -> vote n = Some o -> exists b, o = Ok b) ->
  exists m, migratabilityMap vmi nodes m0 = Ok m.
Proof.
  revert m0. induction nodes as [|n nodes IH]; intros m0 H; [by exists m0|].
  rewrite migratabilityMap_cons. destruct (vote n) as [o|] eqn:Ev.
  - destruct (H n o) as [b ->]; [by left|done|]. apply IH. intros n' o Hin. apply H. by right.
  - apply IH. intros n' o Hin. apply H. by right.
Qed.

Lemma migratable_iff nodes :
  NoDup (map node_Name nodes) ->
  migratableByNodeAffinity vmi nodes = Ok true <-> movable nodes.
Proof.
  intros Hnd. unfold migratableByNodeAffinity, movable. rewrite obind_Ok. split.
  - intros (m & Hm & [= He]). apply (migratabilityMap_Ok nodes) in Hm as (H1 & _ & H3); [|done].
    split; [intros n o Hn Hv; destruct (H1 n o Hn Hv) as (b & -> & _); eauto|].
    apply existsb_exists in He as ([k b] & Hin%list_elem_of_In & Hb). cbn in Hb. subst b.
    rewrite range_perm in Hin. apply elem_of_map_to_list, H3 in Hin as [Hk|?]; [|done].
    by rewrite lookup_empty in Hk.
  - intros [Hall (n & Hn & Hv)]. destruct (migratabilityMap_total nodes ∅ Hall) as [m Hm].
    exists m. split; [done|]. f_equal. apply (migratabilityMap_Ok nodes) in Hm as (H1 & _ & _); [|done].
    destruct (H1 n _ Hn Hv) as (b & [= <-] & Hb). apply existsb_exists.
    exists (node_Name n, true). split; [|done]. apply list_elem_of_In. rewrite range_perm.
    by apply elem_of_map_to_list.
Qed.

(** What lets an instance leave its node while it runs. *)
Definition mobile (nodes : list Node) : Prop :=
  hvi_NodeSelector vmi = None /\ hvi_HostDevices vmi = [] /\ movable nodes.
End Moves.

Lemma nonLiveMigratable_none {KL : KubeletLib} {MO : MapOrder} nodes vmis :
  NoDup (map node_Name nodes) ->
  nonLiveMigratable nodes vmis = Ok [] <-> forall vmi, vmi ∈ vmis -> mobile vmi nodes.
Proof.
  intros Hnd. induction vmis as [|vmi vmis IH]; cbn [nonLiveMigratable].
  { split; [by intros _ ? ?%elem_of_nil|done]. }
  rewrite list_forall_cons_iff, <- IH, obind_Ok. unfold mobile.
  assert (Hb : (match hvi_NodeSelector vmi with
                | Some _ => Ok true
                | None => match hvi_HostDevices vmi with
                          | _ :: _ => Ok true
                          | [] => migratable ← migratableByNodeAffinity vmi nodes;
                                  Ok (negb migratable)
                          end
                end = Ok false) <->
               hvi_NodeSelector vmi = None /\ hvi_HostDevices vmi = [] /\ movable vmi nodes).
  { rewrite <- migratable_iff by done. destruct (hvi_NodeSelector vmi); [by split; [|intros [? _]]|].
    destruct (hvi_HostDevices vmi); [|by split; [|intros (_ & ? & _)]]. rewrite obind_Ok. split.
    - intros ([] & ? & ?); [|done]. by split_and!.
    - intros (_ & _ & H). by exists true. }
  rewrite <- Hb. split.
  - intros ([] & -> & H); apply obind_Ok in H as (rest & Hr & [= He]); by subst.
  - intros [-> Hr]. exists false. split; [done|]. by rewrite Hr.
Qed.

(** ** Certificates *)

Lemma addAddresses_elem seen l x :
  x ∈ (addAddresses seen l).2 <-> exists a, a ∈ l /\ (a ∉ seen) /\ x = (a +:+ ":6443").
Proof.
  revert seen. induction l as [|a l IH]; intros seen; cbn [addAddresses].
  { split; [by intros ?%elem_of_nil|by intros (a & ?%elem_of_nil & _)]. }
  case_bool_decide as Ha.
  - rewrite IH. split; intros (b & Hb & Hs & ->); exists b; set_solver.
  - specialize (IH ({[a]} ∪ seen)). destruct (addAddresses _ l) as [seen' ips]. cbn [snd] in *.
    rewrite elem_of_cons, IH. split.
    + intros [->|(b & Hb & Hs & ->)]; [exists a; set_solver|exists b; set_solver].
    + intros (b & Hb & Hs & ->). destruct (decide (b = a)) as [->|Hne]; [by left|right].
      exists b. set_solver.
Qed.

(** The addresses of API servers: IPv4, of endpoints not known to be unready. *)
Definition apiServer (slices : list EndpointSlice) (a : string) : Prop :=
  exists s e, s ∈ slices /\ om_Namespace (eps_meta s) = "default" /\
    gm_get (om_Labels (eps_meta s)) LabelServiceName = Some "kubernetes" /\
    eps_AddressType s = AddressTypeIPv4 /\ e ∈ eps_Endpoints s /\
    ep_Ready e <> Some false /\ a ∈ ep_Addresses e.

Lemma GetKubernetesIps_Ok E slices :
  ue_endpointSlices E = inl slices ->
  exists ips, GetKubernetesIps E = Ok ips /\
    forall x, x ∈ ips <-> exists a, apiServer slices a /\ x = (a +:+ ":6443").
Proof.
  intros Hs. unfold GetKubernetesIps. rewrite Hs. eexists. split; [done|]. intros x.
  rewrite addAddresses_elem. unfold apiServer.
  assert (Hin : forall a, a ∈ concat (map sliceAddresses (List.filter
    (fun s => inNamespace "default" (eps_meta s) && hasLabel LabelServiceName "kubernetes" (eps_meta s))
    slices)) <-> apiServer slices a).
  { intros a. rewrite concat_map_elem. unfold apiServer. split.
    - intros (s & [Hin [Hns Hl]%andb_true_iff]%filter_elem & Ha).
      unfold sliceAddresses in Ha.
      destruct (String.eqb_spec (eps_AddressType s) AddressTypeIPv4) as [Ht|]; cbn [negb] in Ha; [|by apply elem_of_nil in Ha].
      apply concat_map_elem in Ha as (e & He & Ha). unfold endpointAddresses in Ha.
      exists s, e. split_and!; [done|by apply String.eqb_eq|by apply bool_decide_eq_true in Hl|done|done|..];
        destruct (ep_Ready e) as [[]|]; try done; by apply elem_of_nil in Ha.
    - intros (s & e & Hin & Hns & Hl & Ht & He & Hr & Ha). exists s. split.
      + apply filter_elem. split; [done|]. apply andb_true_iff. split; [by apply String.eqb_eq|].
        by apply bool_decide_eq_true.
      + unfold sliceAddresses. rewrite Ht. cbn. apply concat_map_elem. exists e. split; [done|].
        unfold endpointAddresses. by destruct (ep_Ready e) as [[]|]. }
  split.
  - intros (a & Ha & _ & ->). exists a. split; [by apply Hin|done].
  - intros (a & Ha & ->). exists a. split_and!; [by apply Hin|set_solver|done].
Qed.

Lemma earliest_fold certs t0 :
  let t := foldl (fun earliest cert =>
             match earliest with
             | None => Some cert
             | Some t => if cert <? t then Some cert else earliest
             end) (Some t0) certs in
  exists t', t = Some t' /\ t' ∈ t0 :: certs /\ forall c, c ∈ t0 :: certs -> t' <= c.
Proof.
  revert t0. induction certs as [|c certs IH]; intros t0; cbn [foldl].
  { exists t0. split_and!; [done|by left|]. intros c [->|?%elem_of_nil]%elem_of_cons; [lia|done]. }
  destruct (Z.ltb_spec c t0) as [Hlt|Hge].
  - destruct (IH c) as (t' & -> & Hin & Hle). exists t'. split_and!; [done|set_solver|].
    intros d [->|Hd]%elem_of_cons; [|by apply Hle]. specialize (Hle c ltac:(by left)). lia.
  - destruct (IH t0) as (t' & -> & Hin & Hle). exists t'. split_and!; [done|set_solver|].
    intros d [->|[->|Hd]%elem_of_cons]%elem_of_cons; [apply Hle; by left| |apply Hle; by right].
    specialize (Hle t0 ltac:(by left)). lia.
Qed.

Lemma GetAddrEarliest_cases E addr :
  (exists e, GetAddrEarliestExpiringCert E addr = inr e /\ ue_peerCertificates E addr = inr e) \/
  (ue_peerCertificates E addr = inl [] /\ GetAddrEarliestExpiringCert E addr = inl None) \/
  exists certs t, ue_peerCertificates E addr = inl certs /\
    GetAddrEarliestExpiringCert E addr = inl (Some t) /\ t ∈ certs /\ forall c, c ∈ certs -> t <= c.
Proof.
  unfold GetAddrEarliestExpiringCert. destruct (ue_peerCertificates E addr) as [[|c certs]|e].
  - right; left. done.
  - right; right. destruct (earliest_fold certs c) as (t & Ht & Hin & Hle). cbn [foldl].
    cbv zeta in Ht. rewrite Ht. eauto 6.
  - left. eauto.
Qed.

(** TLS servers show a certificate. *)
Definition certified (E : UEnv) : Prop := forall addr, ue_peerCertificates E addr <> inl [].

(** The certificates the reachable addresses show. *)
Definition shown (E : UEnv) (addrs : list string) (c : Z) : Prop :=
  exists addr certs, addr ∈ addrs /\ ue_peerCertificates E addr = inl certs /\ c ∈ certs.

Lemma shown_cons E addr addrs c :
  shown E (addr :: addrs) c <->
  (exists certs, ue_peerCertificates E addr = inl certs /\ c ∈ certs) \/ shown E addrs c.
Proof. unfold shown. setoid_rewrite elem_of_cons. set_solver. Qed.

Lemma GetAddrsEarliest_Ok E addrs t0 :
  certified E ->
  exists r, GetAddrsEarliestExpiringCert E addrs t0 = Ok r /\
    match r with
    | None => t0 = None /\ forall c, ~ shown E addrs c
    | Some t => (t0 = Some t \/ shown E addrs t) /\ (forall t', t0 = Some t' -> t <= t') /\
                forall c, shown E addrs c -> t <= c
    end.
Proof.
  intros Hc. revert t0. induction addrs as [|addr addrs IH]; intros t0; cbn [GetAddrsEarliestExpiringCert].
  { exists t0. split; [done|]. assert (Hn : forall c, ~ shown E [] c).
    { intros c (a & l & Ha & _). by apply elem_of_nil in Ha. }
    destruct t0 as [t|]; [|done]. split_and!; [by left|by intros t' [= ->]|]. by intros c ?%Hn. }
  destruct (GetAddrEarliest_cases E addr) as [(e & -> & He)|[[He _]|(certs & t & He & -> & Hin & Hle)]];
    [|by destruct (Hc addr)|].
  - destruct (IH t0) as (r & -> & Hr). exists r. split; [done|]. destruct r as [t|].
    + destruct Hr as (H1 & H2 & H3). split_and!; [rewrite shown_cons; tauto|done|].
      intros c [(l & Hl & _)|?]%shown_cons; [by rewrite He in Hl|auto].
    + destruct Hr as [-> Hr]. split; [done|]. intros c [(l & Hl & _)|?]%shown_cons; [by rewrite He in Hl|by eapply Hr].
  - set (t1 := match t0 with None => t | Some t' => Z.min t t' end).
    assert (Hrec : exists r, GetAddrsEarliestExpiringCert E addrs (Some t1) = Ok r /\
      match r with
      | None => Some t1 = None /\ forall c, ~ shown E addrs c
      | Some u => (Some t1 = Some u \/ shown E addrs u) /\ (forall t', Some t1 = Some t' -> u <= t') /\
                forall c, shown E addrs c -> u <= c
      end) by apply IH.
    destruct Hrec as (r & Hg & Hr). exists r. split.
    { rewrite <- Hg. unfold t1. destruct t0 as [t'|]; [|done]. f_equal.
      destruct (Z.ltb_spec t t'); f_equal; lia. }
    destruct r as [u|]; [|by destruct Hr]. destruct Hr as (H1 & H2 & H3). specialize (H2 t1 eq_refl).
    split_and!.
    + rewrite shown_cons. destruct H1 as [[= <-]|?]; [|auto]. unfold t1. destruct t0 as [t'|]; [|right; left; eauto].
      destruct (Z.min_spec t t') as [[_ ->]|[_ ->]]; [right; left; eauto|by left].
    + intros t' ->. unfold t1 in H2. lia.
    + intros c [(l & Hl' & Hl)|?]%shown_cons; [|auto]. rewrite He in Hl'. injection Hl' as <-. specialize (Hle c Hl). unfold t1 in H2. destruct t0; lia.
Qed.

(** ** A cluster that is fit for an upgrade *)

(** What the caches hold, when all of them answer. *)
Record Lists := mkLists {
  l_upgrades : list Upgrade; l_addons : list Addon.Addon; l_nodes : list Node;
  l_volumes : list LhVolume; l_cluster : CapiCluster; l_machines : list CapiMachine;
  l_charts : list ChartState; l_backups : list VMBackup; l_schedules : list ScheduleVMBackup;
  l_vms : list HotVM; l_vmis : list HotVMI; l_slices : list EndpointSlice;
  l_config : UpgradeConfig }.

Record heard `{!JsonCodec UpgradeConfig} (E : UEnv) (L : Lists) : Prop := mkHeard {
  he_upgrades : ue_upgrades E = inl (l_upgrades L);
  he_addons : ue_addons E = inl (l_addons L);
  he_nodes : ue_nodes E = inl (l_nodes L);
  he_volumes : ue_lhVolumes E = inl (l_volumes L);
  he_cluster : ue_cluster E FleetLocalNamespaceName LocalClusterName = inl (l_cluster L);
  he_machines : ue_machines E = inl (l_machines L);
  he_charts : ue_managedCharts E = inl (l_charts L);
  he_backups : ue_vmBackups E = inl (l_backups L);
  he_schedules : ue_svmbackups E = inl (l_schedules L);
  he_vms : ue_vms E = inl (l_vms L);
  he_vmGet : forall ns name, ue_vmGetError E ns name = None;
  he_vmis : ue_vmis E = inl (l_vmis L);
  he_slices : ue_endpointSlices E = inl (l_slices L);
  he_config : getUpgradeConfig E = Ok (l_config L);
  he_names : NoDup (map node_Name (l_nodes L));
  he_certified : certified E }.

(** What a call answers is known. *)
Ltac hear H := rewrite H; cbn [answer wrapErr mbind outcome_bind].

(** The condition of the type, if there is one, is True. *)
Definition readyOf {C} (type status : C -> string) (name : string) (cs : list C) : Prop :=
  forall c, List.find (fun c => String.eqb (type c) name) cs = Some c -> status c = ConditionTrue.

Definition nodeFit (n : Node) : Prop :=
  GetMaintenanceModeCondition (Some n) = None /\ HasDrainRequest (Some n) = false /\
  readyOf nc_Type nc_Status NodeReady (node_Conditions n) /\ node_Unschedulable n = false.

Definition addonSettled (a : Addon.Addon) : Prop :=
  if as_Enabled (ad_Spec a) then ad_Status a = AddonDeployed
  else ad_Status a ∈ [AddonDisabled; AddonInitState].

(** Volumes plugged into a running instance are in its VM, if it has one. *)
Definition plugged (vms : list HotVM) (vmi : HotVMI) : Prop :=
  hvi_Phase vmi = VmiRunning ->
  forall vm, List.find (fun vm => metaIs (om_Namespace (hvi_meta vmi)) (om_Name (hvi_meta vmi))
                                    (hvm_meta vm)) vms = Some vm ->
  forall vol, vol ∈ hvi_Volumes vmi -> isHotpluggableVolume vol = true ->
    vv_Name vol ∈ default [] (hvm_Template vm).

Definition several (L : Lists) : Prop := length (ExcludeWitnessNodes (l_nodes L)) <> 1%nat.

Section Fit.
Context {KL : KubeletLib} {MO : MapOrder}.
Context `{!JsonCodec (gomap string)} `{!JsonCodec UpgradeConfig}.

Record fit (E : UEnv) (L : Lists) (u : Upgrade) : Prop := mkFit {
  fit_volumes : (3 <= length (l_nodes L))%nat -> forall v, v ∈ l_volumes L ->
    om_Namespace (lh_meta v) = LonghornSystemNamespaceName ->
    lh_Robustness v <> VolumeRobustnessDegraded;
  fit_cluster : cc_Phase (l_cluster L) = ClusterPhaseProvisioned;
  fit_backups : forall b, b ∈ l_backups L -> vmb_Error b <> None \/ vmb_ReadyToUse b = Some true;
  fit_schedules : forall s, s ∈ l_schedules L -> svb_Suspended s = true;
  fit_charts : forall c, c ∈ l_charts L -> om_Namespace (chs_meta c) = managedChartNamespace ->
    readyOf c_Type c_Status BundleConditionReady (chs_Conditions c);
  fit_addons : forall a, a ∈ l_addons L -> addonSettled a;
  fit_nodes : forall n, n ∈ l_nodes L -> nodeFit n;
  fit_disks : exists skip, skipGarbageCollection u = Ok skip /\
    (skip = false -> forall n, n ∈ l_nodes L -> checkDiskSpace E n = Ok tt);
  fit_machines : forall m, m ∈ l_machines L -> om_Namespace (cma_meta m) = FleetLocalNamespaceName ->
    cma_Phase m = MachinePhaseRunning;
  fit_matching : isNodeMachineMatching (l_nodes L)
    (List.filter (fun m => inNamespace FleetLocalNamespaceName (cma_meta m)) (l_machines L)) = Ok tt;
  fit_replicas : length (l_nodes L) <> 1%nat -> forall v, v ∈ l_volumes L ->
    lh_NumberOfReplicas v = 1 ->
    skipSingleReplicaDetachedVolCheck u = true /\ isActive v = false;
  fit_instances : uc_RestoreVM (l_config L) = false -> several L ->
    (forall vmi, vmi ∈ l_vmis L -> mobile vmi (ExcludeWitnessNodes (l_nodes L))) /\
    (forall vm, vm ∈ l_vms L -> hvm_VolumeRequests vm = []) /\
    (forall vmi, vmi ∈ l_vmis L -> plugged (l_vms L) vmi);
  fit_certs : exists days, minCertsExpirationInDay u = Ok days /\
    (exists a certs, apiServer (l_slices L) a /\
       ue_peerCertificates E (a +:+ ":6443") = inl certs) /\
    forall a certs c, apiServer (l_slices L) a ->
      ue_peerCertificates E (a +:+ ":6443") = inl certs -> c ∈ certs ->
      expiresBefore E c days = false }.

Context (E : UEnv) (L : Lists) (HE : heard E L).

Lemma hasDegradedVolume_iff :
  hasDegradedVolume E = Ok false <->
  ((3 <= length (l_nodes L))%nat -> forall v, v ∈ l_volumes L ->
    om_Namespace (lh_meta v) = LonghornSystemNamespaceName ->
    lh_Robustness v <> VolumeRobustnessDegraded).
Proof using HE.
  unfold hasDegradedVolume. hear (he_nodes _ _ HE).
  destruct (Nat.ltb_spec (length (l_nodes L)) 3) as [Hlt|Hge]; [split; [intros _ ?; lia|done]|].
  hear (he_volumes _ _ HE). split.
  - intros [= H] _ v Hv Hns Hd. apply not_true_iff_false in H. destruct H.
    apply existsb_exists. exists v. split; [|by apply String.eqb_eq].
    apply list_elem_of_In, filter_elem. split; [done|]. by apply String.eqb_eq.
  - intros H. f_equal. apply not_true_iff_false. intros Hx.
    apply existsb_exists in Hx as (v & [Hv Hns]%list_elem_of_In%filter_elem & Hd%String.eqb_eq).
    by apply (H Hge v Hv); [apply String.eqb_eq|].
Qed.

(** The degraded check of [checkResources] is passed exactly then. *)
Lemma hasDegradedVolume_total : exists b, hasDegradedVolume E = Ok b.
Proof using HE.
  unfold hasDegradedVolume. hear (he_nodes _ _ HE). case_match; [eauto|].
  rewrite (he_volumes _ _ HE). eauto.
Qed.

Lemma GetByIndex_nil {A} (index : A -> list string) key l :
  GetByIndex index key l = [] <-> forall a, a ∈ l -> key ∉ index a.
Proof.
  unfold GetByIndex. rewrite filter_nil_iff. apply forall_in_iff; intros a _. apply bool_decide_eq_false.
Qed.

Lemma checkVMBackups_iff :
  checkVMBackups E = Ok tt <->
  forall b, b ∈ l_backups L -> vmb_Error b <> None \/ vmb_ReadyToUse b = Some true.
Proof using HE.
  unfold checkVMBackups. hear (he_backups _ _ HE).
  transitivity (GetByIndex vmBackupByIsProgressing (FormatBool true) (l_backups L) = []).
  { by case_match. }
  rewrite GetByIndex_nil. apply forall_in_iff; intros b _.
  unfold vmBackupByIsProgressing, IsProcessing. rewrite list_elem_of_singleton.
  destruct (vmb_Error b); cbn; [split; [by left|done]|].
  destruct (vmb_ReadyToUse b) as [[]|]; cbn; (split; [try by right|]); try done;
    try (by intros H; destruct H); by intros [?|?].
Qed.

Lemma checkScheduleVMBackups_iff :
  checkScheduleVMBackups E = Ok tt <-> forall s, s ∈ l_schedules L -> svb_Suspended s = true.
Proof using HE.
  unfold checkScheduleVMBackups. hear (he_schedules _ _ HE).
  transitivity (GetByIndex scheduleVMBackupBySuspended (FormatBool false) (l_schedules L) = []).
  { by case_match. }
  rewrite GetByIndex_nil. apply forall_in_iff; intros b _.
  unfold scheduleVMBackupBySuspended. rewrite list_elem_of_singleton.
  destruct (svb_Suspended b); cbn; by split.
Qed.

Lemma checkManagedCharts_iff :
  checkManagedCharts E = Ok tt <->
  forall c, c ∈ l_charts L -> om_Namespace (chs_meta c) = managedChartNamespace ->
    readyOf c_Type c_Status BundleConditionReady (chs_Conditions c).
Proof using HE.
  unfold checkManagedCharts. hear (he_charts _ _ HE). rewrite firstErr_Ok.
  setoid_rewrite filter_elem. unfold inNamespace. setoid_rewrite String.eqb_eq.
  apply forall_proper; intros c.
  assert (Hc : chartReady c = Ok tt <-> readyOf c_Type c_Status BundleConditionReady (chs_Conditions c)).
  { unfold chartReady, readyOf. destruct (List.find _ _) as [k|]; [|done].
    destruct (String.eqb_spec (c_Status k) ConditionTrue); cbn; split; try done.
    - by intros _ k' [= <-].
    - intros H. by destruct (H k eq_refl). }
  rewrite Hc. tauto.
Qed.

Lemma checkAddons_iff :
  checkAddons E = Ok tt <-> forall a, a ∈ l_addons L -> addonSettled a.
Proof using HE.
  unfold checkAddons. hear (he_addons _ _ HE). rewrite firstErr_Ok.
  apply forall_in_iff; intros a _.
  unfold IsAddonOnProcessing, addonSettled. destruct (as_Enabled (ad_Spec a)); cbn [negb].
  - destruct (String.eqb_spec (ad_Status a) AddonDeployed); by split.
  - destruct (String.eqb_spec (ad_Status a) AddonDisabled) as [->|H1]; cbn [orb];
      [split; [set_solver|done]|].
    destruct (String.eqb_spec (ad_Status a) AddonInitState) as [->|H2];
      [split; [set_solver|done]|]. split; [done|set_solver].
Qed.

Lemma checkNode_iff skip n :
  checkNode E skip n = Ok tt <-> nodeFit n /\ (skip = false -> checkDiskSpace E n = Ok tt).
Proof using.
  unfold checkNode, nodeFit, readyOf. destruct (GetMaintenanceModeCondition (Some n)) as [c|];
    [by split; [|intros [[? _] _]]|].
  destruct (HasDrainRequest (Some n)); [by split; [|intros [(_ & ? & _) _]]|].
  destruct (List.find _ _) as [c|]; [destruct (String.eqb_spec (nc_Status c) ConditionTrue); cbn [negb]|].
  2:{ split; [done|]. intros [(_ & _ & H & _) _]. by destruct (H c eq_refl). }
  all: destruct (node_Unschedulable n); [by split; [|intros [(_ & _ & _ & ?) _]]|].
  all: destruct skip; cbn [negb].
  all: split; [intros Hd; split; [split_and!; [done|done| |done]|]; try done; by intros c' [= <-]|].
  all: try done. all: intros [_ Hd]; by apply Hd.
Qed.

Lemma checkNodes_iff u :
  checkNodes E u = Ok tt <->
  (forall n, n ∈ l_nodes L -> nodeFit n) /\
  exists skip, skipGarbageCollection u = Ok skip /\
    (skip = false -> forall n, n ∈ l_nodes L -> checkDiskSpace E n = Ok tt).
Proof using HE.
  unfold checkNodes. hear (he_nodes _ _ HE). rewrite obind_Ok. split.
  - intros (skip & Hs & H). rewrite firstErr_Ok in H. setoid_rewrite checkNode_iff in H.
    split; [intros n Hn; by apply H|]. exists skip. split; [done|]. intros -> n Hn. by apply H.
  - intros [Hn (skip & Hs & Hd)]. exists skip. split; [done|]. apply firstErr_Ok.
    intros n Hin. apply checkNode_iff. auto.
Qed.

Lemma checkMachines_iff :
  checkMachines E = Ok tt <->
  forall m, m ∈ l_machines L -> om_Namespace (cma_meta m) = FleetLocalNamespaceName ->
    cma_Phase m = MachinePhaseRunning.
Proof using HE.
  unfold checkMachines, listMachines. hear (he_machines _ _ HE). rewrite firstErr_Ok.
  setoid_rewrite filter_elem. unfold inNamespace. setoid_rewrite String.eqb_eq.
  apply forall_proper; intros m.
  destruct (String.eqb_spec (cma_Phase m) MachinePhaseRunning); cbn [negb]; [tauto|].
  split; [intros H ? ?; by specialize (H ltac:(auto))|]. intros H [? ?]. by destruct n; apply H.
Qed.

Lemma checkNodeMachineMatching_run :
  checkNodeMachineMatching E = isNodeMachineMatching (l_nodes L)
    (List.filter (fun m => inNamespace FleetLocalNamespaceName (cma_meta m)) (l_machines L)).
Proof using HE.
  unfold checkNodeMachineMatching, listMachines. hear (he_nodes _ _ HE). by hear (he_machines _ _ HE).
Qed.

Lemma checkSingleReplicaVolumes_iff u :
  checkSingleReplicaVolumes E u = Ok tt <->
  (length (l_nodes L) <> 1%nat -> forall v, v ∈ l_volumes L -> lh_NumberOfReplicas v = 1 ->
     skipSingleReplicaDetachedVolCheck u = true /\ isActive v = false).
Proof using HE.
  unfold checkSingleReplicaVolumes. hear (he_nodes _ _ HE).
  destruct (Nat.eqb_spec (length (l_nodes L)) 1) as [|Hne]; [by split|].
  hear (he_volumes _ _ HE).
  assert (Hidx : forall v, "1" ∈ VolumeByReplicaCount v <-> lh_NumberOfReplicas v = 1).
  { intros v. unfold VolumeByReplicaCount. rewrite list_elem_of_singleton. split; [|by intros ->].
    intros H. symmetry. by apply (inj pretty). }
  unfold checkActiveSingleReplicaVols, checkAllSingleReplicaVols.
  destruct (skipSingleReplicaDetachedVolCheck u).
  - transitivity (map pvcRef (List.filter isActive (GetByIndex VolumeByReplicaCount "1" (l_volumes L))) = []).
    { by case_match. }
    rewrite map_nil. split.
    + intros H _ v Hv Hr. split; [done|]. apply not_true_iff_false. intros Ha.
      assert (Hin : v ∈ []); [|by apply elem_of_nil in Hin]. rewrite <- H. apply filter_elem. split; [|done].
      apply filter_elem. split; [done|]. by apply bool_decide_eq_true, Hidx.
    + intros H. destruct (List.filter isActive _) as [|v l] eqn:Ef; [done|].
      assert (Hin : v ∈ v :: l) by (by left). rewrite <- Ef in Hin.
      apply filter_elem in Hin as [[Hv Hr]%filter_elem Ha]. apply bool_decide_eq_true, Hidx in Hr.
      destruct (H Hne v Hv Hr) as [_ Hf]. by rewrite Hf in Ha.
  - transitivity (map pvcRef (GetByIndex VolumeByReplicaCount "1" (l_volumes L)) = []).
    { by case_match. }
    rewrite map_nil, GetByIndex_nil. setoid_rewrite Hidx. split.
    + intros H _ v Hv Hr. by destruct (H v Hv).
    + intros H v Hv Hr. by destruct (H Hne v Hv Hr).
Qed.

Lemma checkNonLiveMigratableVMs_iff :
  checkNonLiveMigratableVMs E = Ok tt <->
  (several L -> forall vmi, vmi ∈ l_vmis L -> mobile vmi (ExcludeWitnessNodes (l_nodes L))).
Proof using HE.
  unfold checkNonLiveMigratableVMs, several, GetAllNonLiveMigratableVMINames. hear (he_nodes _ _ HE).
  destruct (Nat.eqb_spec (length (ExcludeWitnessNodes (l_nodes L))) 1) as [|Hne]; [by split|].
  hear (he_vmis _ _ HE). rewrite obind_Ok.
  rewrite <- nonLiveMigratable_none.
  - split.
    + intros ([|] & ? & ?) _; done.
    + intros H. exists []. split; [by apply H|done].
  - apply NoDup_map_filter, (he_names _ _ HE).
Qed.

Lemma ephemeralHotplugs_iff vmi :
  ephemeralHotplugs E vmi = Ok [] <-> plugged (l_vms L) vmi.
Proof using HE.
  unfold ephemeralHotplugs, plugged, hotvmCache_Get.
  destruct (String.eqb_spec (hvi_Phase vmi) VmiRunning); cbn [negb]; [|by split].
  rewrite (he_vmGet _ _ HE). hear (he_vms _ _ HE).
  destruct (List.find _ _) as [vm|] eqn:Ef; [|by split]. split.
  - intros [= H] _ vm' [= <-] vol Hv Hp. apply map_nil in H.
    destruct (decide (vv_Name vol ∈ default [] (hvm_Template vm))) as [|Hn]; [done|].
    assert (Hin : vol ∈ []); [|by apply elem_of_nil in Hin]. rewrite <- H. apply filter_elem.
    split; [done|]. rewrite Hp. cbn [andb]. apply negb_true_iff, bool_decide_eq_false.
    by rewrite elem_of_list_to_set.
  - intros H. f_equal. apply map_nil. destruct (List.filter _ _) as [|vol l] eqn:El; [done|].
    assert (Hin : vol ∈ vol :: l) by (by left). rewrite <- El in Hin.
    apply filter_elem in Hin as [Hv [Hp Hn]%andb_true_iff].
    apply negb_true_iff, bool_decide_eq_false in Hn. destruct Hn. rewrite elem_of_list_to_set. eauto.
Qed.

Lemma pendingRequestVMs_nil vms :
  pendingRequestVMs vms = [] <-> forall vm, vm ∈ vms -> hvm_VolumeRequests vm = [].
Proof using.
  unfold pendingRequestVMs. rewrite map_nil, filter_nil_iff. apply forall_in_iff; intros vm _.
  by destruct (hvm_VolumeRequests vm).
Qed.

Lemma checkStaleHotplugVolumes_iff :
  checkStaleHotplugVolumes E = Ok tt <->
  (several L -> (forall vm, vm ∈ l_vms L -> hvm_VolumeRequests vm = []) /\
                (forall vmi, vmi ∈ l_vmis L -> plugged (l_vms L) vmi)).
Proof using HE.
  unfold checkStaleHotplugVolumes, several. hear (he_nodes _ _ HE).
  destruct (Nat.eqb_spec (length (ExcludeWitnessNodes (l_nodes L))) 1) as [|Hne]; [by split|].
  hear (he_vms _ _ HE). rewrite <- pendingRequestVMs_nil.
  destruct (pendingRequestVMs (l_vms L)) as [|v l]; [|split; [done|by intros [? _]]].
  hear (he_vmis _ _ HE).
  setoid_rewrite <- ephemeralHotplugs_iff. rewrite <- mapM_all_nil, obind_Ok. split.
  - intros (ls & Hl & Hc) _. split; [done|]. exists ls. split; [done|]. by destruct (concat ls).
  - intros H. destruct (H Hne) as [_ (ls & Hl & Hc)]. exists ls. by rewrite Hc.
Qed.

Lemma expiresBefore_mono t c days :
  t <= c -> expiresBefore E t days = false -> expiresBefore E c days = false.
Proof using.
  unfold expiresBefore. rewrite !orb_false_iff, !Z.ltb_ge. intros Hle [H1 H2].
  split; [lia|]. destruct (Z.eqb_spec c (expirationDate E days)) as [->|]; [|done].
  destruct (Z.eqb_spec t (expirationDate E days)); [done|lia].
Qed.

Definition certError (days : Z) : goerror :=
  AdmitBadRequest ("earliest expiring cert for default/kubernetes ClusterIP will expire in "
                   +:+ Itoa days +:+ " days. Please rotate RKE2 certificates.").

Lemma checkCerts_iff u :
  checkCerts E u = Ok tt <->
  exists days, minCertsExpirationInDay u = Ok days /\
    (exists a certs, apiServer (l_slices L) a /\
       ue_peerCertificates E (a +:+ ":6443") = inl certs) /\
    forall a certs c, apiServer (l_slices L) a ->
      ue_peerCertificates E (a +:+ ":6443") = inl certs -> c ∈ certs ->
      expiresBefore E c days = false.
Proof using HE.
  destruct (GetKubernetesIps_Ok E _ (he_slices _ _ HE)) as (ips & Hips & Hin).
  destruct (GetAddrsEarliest_Ok E ips None (he_certified _ _ HE)) as (r & Hr & Hmin).
  assert (Hsh : forall c, shown E ips c <-> exists a certs, apiServer (l_slices L) a /\
    ue_peerCertificates E (a +:+ ":6443") = inl certs /\ c ∈ certs).
  { intros c. unfold shown. setoid_rewrite Hin. split.
    - intros (x & certs & (a & Ha & ->) & Hc & Hin'). eauto.
    - intros (a & certs & Ha & Hc & Hin'). exists (a +:+ ":6443"), certs. eauto. }
  unfold checkCerts. hear Hips. destruct (decide (ips = [])) as [->|Hne].
  { split; [done|]. intros (days & _ & (a & certs & Ha & Hc) & _). exfalso.
    assert (Hx : (a +:+ ":6443") ∈ []) by (apply Hin; eauto). by apply elem_of_nil in Hx. }
  transitivity ((earliest ← GetAddrsEarliestExpiringCert E ips None; days ← minCertsExpirationInDay u;
    match earliest with
    | None => Panic
    | Some t => if expiresBefore E t days then Err (certError days) else Ok tt
    end) = Ok tt); [by destruct ips|].
  hear Hr. rewrite obind_Ok. apply exist_proper; intros days.
  apply and_iff_compat_l. destruct r as [t|].
  - destruct Hmin as ([?|Ht] & _ & Hle); [done|].
    transitivity (expiresBefore E t days = false); [by case_match|]. split.
    + intros He. split.
      * apply Hsh in Ht as (a & certs & ? & ? & _). eauto.
      * intros a certs c Ha Hc Hin'. eapply expiresBefore_mono; [|exact He]. apply Hle, Hsh. eauto.
    + intros [_ H]. apply Hsh in Ht as (a & certs & Ha & Hc & Hin'). eauto.
  - split; [done|]. intros [(a & certs & Ha & Hc) _]. destruct Hmin as [_ Hno].
    destruct certs as [|c certs]; [by destruct (he_certified _ _ HE (a +:+ ":6443"))|].
    destruct (Hno c). apply Hsh. exists a, (c :: certs). split_and!; [done|done|by left].
Qed.

Lemma checkResources_iff u : checkResources E u = Ok tt <-> fit E L u.
Proof using HE.
  unfold checkResources, localCluster, IsRestoreVM.
  destruct hasDegradedVolume_total as [b Hb]. hear Hb. destruct b.
  { split; [done|]. intros [Hv _ _ _ _ _ _ _ _ _ _ _ _]. apply hasDegradedVolume_iff in Hv.
    by rewrite Hb in Hv. }
  hear (he_cluster _ _ HE).
  destruct (String.eqb_spec (cc_Phase (l_cluster L)) ClusterPhaseProvisioned) as [Hp|Hp]; cbn [negb];
    [|by split; [|intros [_ ? _ _ _ _ _ _ _ _ _ _ _]]].
  rewrite (he_config _ _ HE). cbn [mbind outcome_bind].
  assert (Hvms : (if negb (uc_RestoreVM (l_config L))
                  then _ ← checkNonLiveMigratableVMs E; checkStaleHotplugVolumes E else Ok tt) = Ok tt <->
    (uc_RestoreVM (l_config L) = false -> several L ->
    (forall vmi, vmi ∈ l_vmis L -> mobile vmi (ExcludeWitnessNodes (l_nodes L))) /\
    (forall vm, vm ∈ l_vms L -> hvm_VolumeRequests vm = []) /\
    (forall vmi, vmi ∈ l_vmis L -> plugged (l_vms L) vmi))).
  { destruct (uc_RestoreVM (l_config L)); cbn [negb]; [by split|].
    rewrite thenOk, checkNonLiveMigratableVMs_iff, checkStaleHotplugVolumes_iff. tauto. }
  rewrite !thenOk, Hvms, checkVMBackups_iff, checkScheduleVMBackups_iff, checkManagedCharts_iff,
    checkAddons_iff, checkNodes_iff, checkMachines_iff, checkNodeMachineMatching_run,
    checkSingleReplicaVolumes_iff, checkCerts_iff.
  split.
  - intros (? & ? & ? & ? & [? ?] & ? & ? & ? & ? & ?). split; try done. by apply hasDegradedVolume_iff.
  - intros []. by split_and!.
Qed.
End Fit.

(** ** Properties *)

Section Properties.
Context {KL : KubeletLib} {MO : MapOrder}.
Context `{!JsonCodec (gomap string)} `{!JsonCodec UpgradeConfig}.

(** An upgrade names a known version, not a community release on a Prime cluster, or an
    image. *)
Definition releaseOk (E : UEnv) (u : Upgrade) : Prop :=
  (us_Version (up_spec u) <> "" \/ us_Image (up_spec u) <> "") /\
  (us_Version (up_spec u) <> "" -> us_Image (up_spec u) = "" ->
   exists v, ue_version E (up_Namespace u) (us_Version (up_spec u)) = inl v /\
     (gm_str (om_Labels (ver_meta v)) LabelServerFlavor = ServerFlavorCommunity ->
      match ue_setting E ServerFlavorSettingName with
      | inl s => effectiveValue s <> ServerFlavorPrime
      | inr e => IsNotFound e = true
      end)).

(** The upgrade is over, and cleaned up. *)
Definition over (u : Upgrade) : Prop :=
  stateOf u ∈ [StateSucceeded; StateFailed] /\
  gm_get (up_Labels u) upgradeCleanupLabel <> Some StatePending.

(** A pause map the validator lets pass: every entry pauses or resumes a node that exists,
    or the node without a name, if there are nodes at all. *)
Definition pausesOk (nodes : list Node) (u : Upgrade) : Prop :=
  forall value, gm_get (up_Annotations u) AnnotationNodeUpgradePauseMap = Some value ->
  exists m : gomap string, json_unmarshal value = Some m /\
    forall n a, gm_get m n = Some a ->
      (a = NodePause \/ a = NodeUnpause) /\
      (n ∈ map node_Name nodes \/ n = "" /\ nodes <> []).

Lemma pauseEntry_iff nodes n a :
  pauseEntry (map (fun _ => "") nodes ++ map node_Name nodes) (n, a) = Ok tt <->
  (a = NodePause \/ a = NodeUnpause) /\ (n ∈ map node_Name nodes \/ n = "" /\ nodes <> []).
Proof.
  unfold pauseEntry, str_in.
  assert (Hin : n ∈ map (fun _ => "") nodes ++ map node_Name nodes <->
                n ∈ map node_Name nodes \/ n = "" /\ nodes <> []).
  { rewrite elem_of_app. assert (Hz : n ∈ map (fun _ => "") nodes <-> n = "" /\ nodes <> []).
    { rewrite list_elem_of_fmap. split; [|by destruct nodes as [|x l]; intros [-> ?]; [|exists x; split; [|left]]].
      intros (x & -> & Hx). split; [done|]. intros ->. by apply elem_of_nil in Hx. }
    rewrite Hz. tauto. }
  rewrite <- Hin. destruct (String.eqb_spec a NodePause) as [->|H1]; cbn [negb andb].
  - case_bool_decide; cbn [negb]; split; try done; try (by intros [_ ?]). by split; [left|].
  - destruct (String.eqb_spec a NodeUnpause) as [->|H2]; cbn [negb].
    + case_bool_decide; cbn [negb]; split; try done; try (by intros [_ ?]). by split; [right|].
    + split; [done|]. by intros [[?|?] _].
Qed.

Lemma validatePauseMap_iff E nodes u :
  ue_nodes E = inl nodes -> validatePauseMapAnnotation E u = Ok tt <-> pausesOk nodes u.
Proof.
  intros Hn. unfold validatePauseMapAnnotation, pausesOk.
  destruct (gm_get (up_Annotations u) AnnotationNodeUpgradePauseMap) as [value|]; [|by split].
  destruct (json_unmarshal value) as [m|] eqn:Em.
  2:{ split; [done|]. intros H. destruct (H value eq_refl) as (m & Hm & _). by rewrite Em in Hm. }
  hear Hn. rewrite firstErr_Ok. split.
  - intros H v [= <-]. exists m. split; [done|]. intros n a Hna. apply pauseEntry_iff, H.
    destruct m as [m|]; [|done]. rewrite range_perm. by apply elem_of_map_to_list.
  - intros H [n a] Hin. apply pauseEntry_iff. destruct (H value eq_refl) as (m' & Hm' & Hall).
    rewrite Em in Hm'. injection Hm' as <-. apply Hall. destruct m as [m|]; [|by apply elem_of_nil in Hin].
    rewrite range_perm in Hin. by apply elem_of_map_to_list.
Qed.

Lemma checkVersion_iff E u :
  us_Version (up_spec u) <> "" \/ us_Image (up_spec u) <> "" ->
  checkVersion E u = Ok tt <-> releaseOk E u.
Proof.
  intros Hs. unfold checkVersion, releaseOk.
  destruct (String.eqb_spec (us_Version (up_spec u)) "") as [Hv|Hv]; cbn [negb andb].
  { split; [|done]. split; [done|]. intros ?. done. }
  destruct (String.eqb_spec (us_Image (up_spec u)) "") as [Hi|Hi]; [|split; [|done]; by split].
  destruct (ue_version E _ _) as [v|e]; [|split; [done|]; intros [_ H]; by destruct (H Hv Hi) as (? & ? & _)].
  transitivity (gm_str (om_Labels (ver_meta v)) LabelServerFlavor = ServerFlavorCommunity ->
      match ue_setting E ServerFlavorSettingName with
      | inl s => effectiveValue s <> ServerFlavorPrime
      | inr e => IsNotFound e = true
      end).
  - unfold checkVersionFlavor. destruct (String.eqb_spec (gm_str (om_Labels (ver_meta v)) LabelServerFlavor) ServerFlavorCommunity);
      cbn [negb]; [|by split].
    destruct (ue_setting E _) as [s|e'].
    + destruct (String.eqb_spec (effectiveValue s) ServerFlavorPrime); split; try done. intros H. by destruct H.
    + destruct (IsNotFound e'); split; try done. intros H. by specialize (H ltac:(done)).
  - split; [intros H; split; [done|]; intros _ _; by exists v|].
    intros [_ H]. destruct (H Hv Hi) as (v' & [= <-] & H'). done.
Qed.

Lemma listUpgrades_nil E L ns sel :
  ue_upgrades E = inl L ->
  exists l, listUpgrades E ns sel = Ok l /\
    (l = [] <-> forall u, u ∈ L -> up_Namespace u = ns -> sel (up_meta u) = false).
Proof.
  intros Hu. unfold listUpgrades. hear Hu. eexists. split; [done|]. rewrite filter_nil_iff.
  apply forall_in_iff; intros u _. unfold inNamespace. fold (up_Namespace u).
  destruct (String.eqb_spec (up_Namespace u) ns); cbn [andb]; [tauto|by split].
Qed.

Lemma selNotIn_over u :
  selNotIn upgradeStateLabel [StateSucceeded; StateFailed] (up_meta u) = false <->
  stateOf u ∈ [StateSucceeded; StateFailed].
Proof.
  unfold selNotIn, stateOf, gm_str, up_Labels. destruct (gm_get _ _) as [v|]; cbn [default].
  - unfold str_in. rewrite negb_false_iff. apply bool_decide_eq_true.
  - split; [done|]. intros H. in_cases H.
Qed.

Lemma selIn_pending u :
  selIn upgradeCleanupLabel [StatePending] (up_meta u) = false <->
  gm_get (up_Labels u) upgradeCleanupLabel <> Some StatePending.
Proof.
  unfold selIn, up_Labels, str_in. destruct (gm_get _ _) as [v|]; [|done].
  rewrite bool_decide_eq_false, list_elem_of_singleton. split; [|congruence].
  intros H [= ->]. by apply H.
Qed.

(** C10: Which upgrades are admitted.  When all caches answer, the webhook lets an upgrade
    be created if and only if it names a known version (not a community release on a Prime
    cluster) or an image; every other upgrade of its namespace is over and cleaned up; and,
    unless the annotation skipWebhook is set, its pause map is valid and the cluster is fit
    for it: no degraded volume on three or more nodes, Rancher's cluster provisioned, no
    backup in progress, all schedules suspended, charts ready, addons settled, every node
    ready, schedulable, without any maintenance and with enough disk space, machines running
    and matched with the nodes, no volume with a single replica (a single-node cluster may
    have them, and detached ones can be waived), every certificate that a reachable API
    server shows valid for the days asked for, with at least one server reachable; and,
    unless machines are restored afterwards or only one node runs them, every instance is
    able to move to another node that takes it, no machine has a volume request pending and
    no running one a hot-plugged volume that is not in its specification. *)
Theorem upgrade_admission_exact E L u :
  heard E L ->
  validator_Create E u = Ok tt <->
  releaseOk E u /\
  (forall o, o ∈ l_upgrades L -> up_Namespace o = up_Namespace u -> over o) /\
  (skipsWebhook u = true \/ pausesOk (l_nodes L) u /\ fit E L u).
Proof.
  intros HE. unfold validator_Create. cbv zeta.
  destruct (String.eqb_spec (us_Version (up_spec u)) "") as [Hv|Hv];
    [destruct (String.eqb_spec (us_Image (up_spec u)) "") as [Hi|Hi]|]; cbn [andb].
  { split; [done|]. by intros [[[?|?] _] _]. }
  all: rewrite thenOk, checkVersion_iff by auto; apply and_iff_compat_l.
  all: destruct (listUpgrades_nil E (l_upgrades L) (up_Namespace u)
    (selNotIn upgradeStateLabel [StateSucceeded; StateFailed]) (he_upgrades _ _ HE)) as (l1 & -> & H1).
  all: destruct (listUpgrades_nil E (l_upgrades L) (up_Namespace u)
    (selIn upgradeCleanupLabel [StatePending]) (he_upgrades _ _ HE)) as (l2 & -> & H2).
  all: setoid_rewrite selNotIn_over in H1; setoid_rewrite selIn_pending in H2.
  all: cbn [mbind outcome_bind].
  all: transitivity ((l1 = [] /\ l2 = []) /\ (skipsWebhook u = true \/ pausesOk (l_nodes L) u /\ fit E L u));
    [|unfold over; rewrite H1, H2; split; [intros [[Ha Hb] ?]; split; [|done]; intros o Ho Hn; auto|
      intros [Hall ?]; split; [|done]; split; intros o Ho Hn; by apply Hall]].
  all: destruct l1; [|by split; [|intros [[? _] _]]]; destruct l2; [|by split; [|intros [[_ ?] _]]].
  all: destruct (skipsWebhook u); [by split; [split; [|left]|]|].
  all: rewrite thenOk, (validatePauseMap_iff E (l_nodes L)), (checkResources_iff E L HE) by apply HE.
  all: split; [intros [? ?]; by split; [|right]|by intros [_ [?|?]]].
Qed.

(** With no API server reachable the check of certificates does not refuse, it
    crashes.  Addresses that do not answer are passed over, so that no certificate is left,
    and the time of the nil certificate is read: the webhook panics on every upgrade that
    gets that far. *)
Theorem unreachable_servers_panic E L u a days :
  heard E L -> apiServer (l_slices L) a -> minCertsExpirationInDay u = Ok days ->
  (forall x, apiServer (l_slices L) x -> exists e, ue_peerCertificates E (x +:+ ":6443") = inr e) ->
  checkCerts E u = Panic.
Proof.
  intros HE Ha Hd Hun. destruct (GetKubernetesIps_Ok E _ (he_slices _ _ HE)) as (ips & Hips & Hin).
  destruct (GetAddrsEarliest_Ok E ips None (he_certified _ _ HE)) as (r & Hr & Hmin).
  unfold checkCerts. hear Hips. destruct (decide (ips = [])) as [->|Hne].
  { assert (Hx : (a +:+ ":6443") ∈ []) by (apply Hin; eauto). by apply elem_of_nil in Hx. }
  destruct r as [t|].
  - exfalso. destruct Hmin as ([?|(x & certs & Hx & Hc & _)] & _); [done|].
    apply Hin in Hx as (b & Hb & ->). destruct (Hun b Hb) as [e He]. by rewrite He in Hc.
  - destruct ips; [done|]. rewrite Hr. cbn [mbind outcome_bind]. by rewrite Hd.
Qed.

(** Deleting is refused while the upgrade of the nodes is under way. *)
Lemma Delete_refused E u :
  skipsWebhook u = false -> condStatus u NodesUpgraded = ConditionUnknown ->
  validator_Delete E u <> Ok tt.
Proof.
  intros Hs Hc. unfold validator_Delete. rewrite Hs. intros (cl & _ & H)%obind_Ok.
  destruct (String.eqb _ _); [done|]. unfold condIs in H. fold (condStatus u NodesUpgraded) in H.
  by rewrite Hc in H.
Qed.
End Properties.

Section Deletion.
Context {UL : UpgradeLib} {SV : SemverLib}.
Context `{!JsonCodec (gomap string)} `{!JsonCodec UpgradeConfig} `{!JsonCodec Value}.
Context (single : string * string -> Prop).

(** C11: No upgrade is deleted under a node that is being drained or rebooted.  In every
    world that runs of the handlers of an upgrade lead to, whatever the interference, the
    stale caches and the failing calls, the webhook refuses to delete a stored upgrade that
    has a node between the start of its drain and the end of its reboot, unless the upgrade
    has failed, the annotation skipWebhook is set, or it is the upgrade of a single-node
    cluster.  The webhook only looks at one condition; that the condition says Unknown as
    long as a node is on its way is what the controllers keep. *)
Theorem no_deletion_during_drain E w0 w :
  wf single w0 ->
  (forall k o, st_objs (w_upgrades w0) !! k = Some o -> ordered single (o_val o) /\ held single (o_val o)) ->
  reachable (eq w0) (@runs _ _ _ _ _ single (upgradeRegime single)) w ->
  forall k o n, st_objs (w_upgrades w) !! k = Some o -> ~ single k -> skipsWebhook (o_val o) = false ->
    active (nodeState (o_val o) n) = true ->
    validator_Delete E (o_val o) = Ok tt -> condStatus (o_val o) NodesUpgraded = ConditionFalse.
Proof.
  intros Hw0 Hi0 Hr.
  destruct (reachable_invariant single (fun u => ordered single u /\ held single u) w0 w) as [Hw Hi];
    [| |done..|].
  - intros u Hf. split; [by apply fresh_ordered|by apply fresh_held].
  - intros u v Hst [Ho Hh]. split; [by eapply step_ordered|by eapply step_held].
  - intros k o n Ho Hns Hs Ha Hd. destruct (Hi k o Ho) as [_ [_ _ Hact]].
    destruct Hw as (_ & Hkey & _). rewrite (Hkey _ _ Ho) in Hact.
    specialize (Hact Hns n Ha). in_cases Hact; [|done]. by destruct (Delete_refused E (o_val o)).
Qed.
End Deletion.

(** ** A cluster of two nodes *)

Module AdmitDemo.
#[export] Instance order : MapOrder := {| range V m := map_to_list m; range_perm V m := reflexivity _ |}.

(** Kubelets that use 20 of 100 GiB, and a matcher that takes every node. *)
Definition GiB (n : Z) : Z := n * 1024 * 1024 * 1024.
#[export] Instance kubelets : KubeletLib :=
  {| decodeSummary _ := Some (Some (mkFsStats (Some (GiB 80)) (Some (GiB 100)) (Some (GiB 20))));
     decodeKubeletConfiguration _ := Some None;
     MatchNodeSelectorTerms _ _ := Ok true |}.

Definition nodeAt (n : string) : Node :=
  mkNode (mkMeta n "" "" "" (Some {[ HarvesterManagedNodeLabelKey := "true" ]})
            (Some {[ MachineAnnotation := n +:+ "-machine"; rkeInternalIPAnnotation := "10.0.0.1" ]})
            [] 0 None)
    "Node" "v1" false [] [mkNodeCond NodeReady ConditionTrue 0 0 "" ""] "".
Definition machineAt (n : string) : CapiMachine :=
  mkCapiMachine (meta0 FleetLocalNamespaceName (n +:+ "-machine")) MachinePhaseRunning (Some n).
Definition vmAt : HotVM := mkHotVM (meta0 "default" "vm") [] (Some ["disk"]).
Definition vmiAt : HotVMI :=
  mkHotVMI (meta0 "default" "vm") VmiRunning "a" None [] (Some [])
    [mkVmiVolume "disk" (Some true) None].
Definition sliceAt : EndpointSlice :=
  mkEndpointSlice (mkMeta "kubernetes" "" "default" "" (Some {[ LabelServiceName := "kubernetes" ]})
                     None [] 0 None) AddressTypeIPv4 [mkEndpoint None ["10.0.0.1"]].
Definition oldUpgrade : Upgrade :=
  upgrade0 (mkMeta "old" "" "harvester-system" "" (Some {[ upgradeStateLabel := StateFailed;
    upgradeCleanupLabel := StateSucceeded ]}) None [] 0 None) (mkUpgradeSpec "v1.8.0" "" false None).

Definition manual (pauseNodes : list string) : UpgradeConfig :=
  mkUpgradeConfig (mkPreload "" 0) false false "" (Some (Some (mkNodeStrategy (Some ManualType) pauseNodes))).
Import UpDemo.

Definition lists : Lists :=
  mkLists [oldUpgrade] [] [nodeAt "a"; nodeAt "b"] [] (mkCapiCluster ClusterPhaseProvisioned)
    [machineAt "b"; machineAt "a"] [] [] [] [vmAt] [vmiAt] [sliceAt] (manual ["b"; "gone"]).
Definition env (peers : list Z + goerror) : UEnv :=
  mkUEnv (inl (l_upgrades lists)) (inl []) (inl (l_nodes lists)) (inl [])
    (fun _ _ => inl (l_cluster lists)) (inl (l_machines lists)) (inl [])
    (fun _ _ => inl (mkVersion (meta0 "" "v1.9.0") "" "")) (inl []) (inl [])
    (fun name => if String.eqb name UpgradeConfigSettingName
                 then inl (mkSetting name (json_marshal (l_config lists)) "")
                 else inr (ApiNotFound "not found"))
    (inl [vmAt]) (fun _ _ => None) (inl [vmiAt]) (inl [sliceAt]) (fun _ => 10250) (fun _ => None)
    (fun _ => HttpResponse 200 "200 OK" "{}" None) (fun _ => peers) (63900000000, 1).
Definition upg : Upgrade :=
  upgrade0 (meta0 "harvester-system" "new") (mkUpgradeSpec "v1.9.0" "" false None).

(** In thirty days. *)
Definition lasting : list Z + goerror := inl [63900000000 + 30 * 86400].
Definition silent : list Z + goerror := inr (ErrText "connection refused").

(** A patch for the pause map: its text up to the value, then the quoted value. *)
Definition annPrefix : string :=
  "{" +:+ dquote +:+ "op" +:+ dquote +:+ ": " +:+ dquote +:+ "add" +:+ dquote +:+ ", "
  +:+ dquote +:+ "path" +:+ dquote +:+ ": " +:+ dquote +:+ "/metadata/annotations/"
  +:+ EscapeJSONPointer AnnotationNodeUpgradePauseMap +:+ dquote
  +:+ ", " +:+ dquote +:+ "value" +:+ dquote +:+ ": ".
Fixpoint unescape (s : string) : option string :=
  match s with
  | EmptyString => None
  | String a s =>
      if Nat.eqb (nat_of_ascii a) 34 then Some ""
      else if Nat.eqb (nat_of_ascii a) 92 then
        match s with
        | EmptyString => None
        | String b s => String b <$> unescape s
        end
      else String a <$> unescape s
  end.

Lemma unescape_plain a s :
  Nat.eqb (nat_of_ascii a) 34 = false -> Nat.eqb (nat_of_ascii a) 92 = false ->
  unescape (String a s) = String a <$> unescape s.
Proof. intros E1 E2. unfold unescape; fold unescape. by rewrite E1, E2. Qed.

Lemma unescape_escape v r : unescape (escape v +:+ (dquote +:+ r)) = Some v.
Proof.
  induction v as [|a v IH]; [done|]. cbn [escape].
  assert (Hesc : unescape (("\" +:+ String a (escape v)) +:+ (dquote +:+ r)) = Some (String a v)).
  { change (String a <$> unescape (escape v +:+ (dquote +:+ r)) = Some (String a v)). by rewrite IH. }
  destruct (Nat.eqb (nat_of_ascii a) 34) eqn:E1; [done|].
  destruct (Nat.eqb (nat_of_ascii a) 92) eqn:E2; [done|]. cbn [orb].
  change (String a (escape v) +:+ (dquote +:+ r)) with (String a (escape v +:+ (dquote +:+ r))).
  rewrite unescape_plain by done. by rewrite IH.
Qed.

Definition patch (s : string) (u : Upgrade) : option Upgrade :=
  if HasPrefix s annPrefix then
    match TrimPrefix s annPrefix, up_Annotations u with
    | String _ s, Some m =>
        v ← unescape s; Some (up_set_Annotations (Some (<[AnnotationNodeUpgradePauseMap := v]> m)) u)
    | _, _ => None
    end
  else if String.eqb s addAnnotationsOp then Some (up_set_Annotations (Some ∅) u)
  else None.

Lemma patch_pause u m v :
  up_Annotations u = Some m ->
  patch (addAnnotationOp AnnotationNodeUpgradePauseMap v) u =
  Some (up_set_Annotations (Some (<[AnnotationNodeUpgradePauseMap := v]> m)) u).
Proof.
  intros Hm. change (addAnnotationOp _ v) with (annPrefix +:+ (quoted v +:+ "}")).
  unfold patch. rewrite HasPrefix_app, TrimPrefix_app, Hm. unfold quoted.
  rewrite <- !append_assoc.
  change (dquote +:+ (escape v +:+ ?x)) with (String (ascii_of_nat 34) (escape v +:+ x)).
  cbv iota. by rewrite unescape_escape.
Qed.

#[export] Instance patches : PatchLib.
Proof.
  refine {| applyPatch := patch |}; [by intros u _|]. intros u m v Hm _. by apply patch_pause.
Defined.

Lemma printable_pos p : printable (pos_to_string p) = true.
Proof. by induction p. Qed.
End AdmitDemo.

Section Witnesses.
Import UpDemo AdmitDemo.
Abbreviation noSingle := (fun _ : string * string => False) (only parsing).

Lemma env_heard peers : peers <> inl [] -> heard (env peers) lists.
Proof.
  intros Hp. split; [reflexivity..|vm_compute; reflexivity| |].
  - apply (bool_decide_unpack _). vm_compute. exact I.
  - by intros addr.
Qed.

Lemma node_machine_matching_witness :
  isNodeMachineMatching (l_nodes lists) (l_machines lists) = Ok tt /\
  NoDup (map machineName (l_machines lists)).
Proof.
  split; [vm_compute; reflexivity|].
  apply (node_machine_matching (l_nodes lists) (l_machines lists)).
  - apply (bool_decide_unpack _). vm_compute. exact I.
  - vm_compute. reflexivity.
Defined.

(** The setting names node b and a node that is gone: b is paused. *)
Lemma manual_mode_pauses_exactly_witness :
  exists ops u', mutator_Create (env lasting) upg = Ok ops /\ applyPatches ops upg = Some u' /\
    validator_Update (env lasting) u' = Ok tt /\
    forall n, shouldPauseNodeUpgrade u' n = true <->
      n ∈ map node_Name (l_nodes lists) /\ (["b"; "gone"] = [] \/ n ∈ ["b"; "gone"]).
Proof.
  apply (manual_mode_pauses_exactly (env lasting) upg (l_config lists)
           (mkNodeStrategy (Some ManualType) ["b"; "gone"]) (l_nodes lists)).
  - reflexivity.
  - vm_compute. reflexivity.
  - reflexivity.
  - reflexivity.
  - reflexivity.
  - intros names _. apply printable_pos.
Defined.

Lemma upgrade_admission_exact_witness :
  skipsWebhook upg = false /\
  releaseOk (env lasting) upg /\
  (forall o, o ∈ l_upgrades lists -> up_Namespace o = up_Namespace upg -> over o) /\
  (skipsWebhook upg = true \/ pausesOk (l_nodes lists) upg /\ fit (env lasting) lists upg).
Proof.
  split; [reflexivity|]. apply (upgrade_admission_exact (env lasting) lists upg).
  - apply env_heard. discriminate.
  - vm_compute. reflexivity.
Defined.

Lemma unreachable_servers_panic_witness : checkCerts (env silent) upg = Panic.
Proof.
  apply (unreachable_servers_panic (env silent) lists upg "10.0.0.1" 7).
  - apply env_heard. discriminate.
  - exists sliceAt, (mkEndpoint None ["10.0.0.1"]).
    split_and!; [by left|reflexivity|reflexivity|reflexivity|by left|discriminate|by left].
  - reflexivity.
  - intros x _. eexists. reflexivity.
Defined.

(** With the pre-drain of node a under way, the webhook has nothing but a refusal. *)
Lemma no_deletion_during_drain_witness :
  stateIn firstDrain "a" = nodeStatePreDraining /\
  forall k o n, st_objs (w_upgrades firstDrain) !! k = Some o -> ~ noSingle k ->
    skipsWebhook (o_val o) = false -> active (nodeState (o_val o) n) = true ->
    validator_Delete (env lasting) (o_val o) = Ok tt ->
    condStatus (o_val o) NodesUpgraded = ConditionFalse.
Proof.
  split; [vm_compute; reflexivity|].
  apply (no_deletion_during_drain noSingle (env lasting) ready firstDrain ready_wf).
  - apply (allStored_ok (fun u => ordered noSingle u /\ held noSingle u)).
    apply map_Forall_singleton. split.
    + split; [reflexivity|reflexivity|reflexivity|reflexivity|discriminate|discriminate].
    + split; [reflexivity|reflexivity|]. intros _ n _. by left.
  - eapply reach_step; [by apply reach_init|].
    apply (run_handler noSingle proc (EvSecret (Some (mkObj 1 (announced "a")))) ready []);
      [constructor|exact I].
Defined.

(** A pause map for the node without a name is accepted: the names of the nodes are
    appended to a slice that starts with as many empty ones. *)
Example nameless_node_accepted :
  let u := up_set_Annotations
    (Some {[ AnnotationNodeUpgradePauseMap := json_marshal (Some {[ "" := NodePause ]} : gomap string) ]}) upg in
  validator_Update (env lasting) u = Ok tt /\ "" ∉ map node_Name (l_nodes lists).
Proof. split; [vm_compute; reflexivity|]. apply (bool_decide_unpack _). vm_compute. exact I. Qed.

(** A cluster that cannot spare the space for the new images, and one that can. *)
Example disk_space :
  SFltb (imageGCHighThresholdPercent None) (usedPercent (GiB 73) (GiB 100)) = true /\
  SFltb (imageGCHighThresholdPercent None) (usedPercent (GiB 72) (GiB 100)) = false /\
  SFltb (imageGCHighThresholdPercent (Some 90)) (usedPercent (GiB 73) (GiB 100)) = false /\
  SFltb (imageGCHighThresholdPercent None) (usedPercent 0 0) = true.
Proof. split_and!; vm_compute; reflexivity. Qed.
End Witnesses.
